(* ===== verification/_CoqProject ===== *)
-Q . S2P
Prelude.v
Text.v
Bytes.v
Arch.v
Page.v
Memory.v
Machine.v
Pgtable.v
Vm.v
Trap.v
Ipc.v
Task.v
Space.v
Sched.v
Inv.v
IpcFacts.v
ProcFacts.v
Create.v
Build.v
Buffers.v
BufferCalls.v
Fork.v
Heap.v
Demo.v
Contracts.v
BufferContracts.v
UserContracts.v
Initrd.v
BuildScript.v
Exec.v
Load.v
ExecFacts.v
Kernel.v
Traps.v
Programs.v
Steady.v
Window.v
Handler.v
Boot.v
Run.v
Userlib.v
FatDisk.v
FatFacts.v
FatFile.v
FileFacts.v
WriteFacts.v
FatDir.v
FatEdit.v
DirFacts.v
FileSpec.v
FsServer.v
Volume.v
FsContracts.v
EditFacts.v
DirCreate.v
DirContracts.v
FsSafety.v
ServeSafety.v
ServeContracts.v
Observations.v
Uart.v
Console.v
Shell.v
Terminal.v
Samples.v
Command.v
SerialCalls.v
