(* ===== verification/Prelude.v ===== *)
(** * NekOS: a verification library for the kernel and its user-mode servers

    NekOS is a small microkernel for RISC-V (Sv39) in Rust: a page allocator, page tables,
    round-robin processes with fork, exec and wait, synchronous IPC, a ramdisk archive of
    programs, and user-mode servers for the console and for a FAT32 volume on a RAM disk.
    This library models the Rust code of the kernel, the servers and the shell and states
    what makes it correct.  Paths below are under [src/].

    ** How code becomes a definition

    A machine word is a [Z] with its wrap-around written out ([+'], [-'], [*'] on 64 bits,
    [u8], [u16], [u32]); the build has overflow checks off.  A function that touches a
    global is a computation in the state monad [st S] of this file, whose outcome is
    [Done], [Panic] (an index out of range, [unwrap], [expect], [panic!]) or [Diverge]
    (fuel exhausted); [Result] and [Option] are values of the computation ([try_bind] and
    [otry_bind] are the [?] operator).  [wp m Q s] says that [m] run from [s] returns, with
    a result in [Q]: it excludes panics and exhausted fuel, so every theorem stated with
    it includes termination.

    ** The kernel ([src/kernel], [src/drivers/plic.rs], [src/arch/riscv])

    Definitions, from the hardware up:
    - [Arch] the constants and bits of the architecture; [Page] the bitmap allocator
      ([page.rs]) against a set of free pages; [Memory] physical memory as a map of 64-bit
      words; [Machine] the machine (memory, allocator, control registers, PLIC registers,
      firmware calls) with [csr.rs], [sbi.rs], [timer.rs], [plic.rs].
    - [Pgtable] the three-level page tables ([pgtable.rs]): map, unmap, set_flags and free
      against the reference [translate]; [Vm] the kernel address space ([vm.rs]).
    - [Trap] trap frames and causes; [Ipc] messages, the ring buffer, endpoints; [Task] the
      whole of [task.rs]: the task table, scheduling, exit and wait, fork, sbrk, exec's
      replacement, the IPC calls with and without buffers, UART ownership.
    - [Initrd] the archive reader ([initrd.rs]) and the entry writer of [build.rs]; [Exec] the
      ELF loader ([exec.rs]); [Kernel] the functions that lock the task manager, [ipc.rs],
      the system calls ([syscall.rs]), the idle task, the trap handler and the boot
      sequence ([main.rs]).

    Facts about them:
    - [Space], [Sched], [Inv] the invariant [kernel_ok] of the task table, the queues and the
      address spaces (no page is owned twice, page tables are owned and apart from user pages,
      the current task runs, sleepers have a waker, queued lengths fit); [IpcFacts], [ProcFacts],
      [Create], [Build], [Fork], [Heap] that scheduling, IPC, exit, wait, task creation, fork and
      sbrk preserve it and what else they do; [Buffers], [BufferCalls] user memory byte by
      byte and the IPC calls that carry bytes.
    - [Load], [ExecFacts], [Programs] the loader, exec and spawn; [Traps], [Handler] the
      interrupts and every live system call; [Steady] what each part of the kernel can do to the
      page allocator, read off the code, and [Window] which of the pages it hands out the kernel
      itself can reach; [Boot] the boot; [Run] the step relation [kernel_step] (user code, a
      trap, the kernel's answer) and its reachable states.
    - [Demo] a concrete kernel state, reached by running the model's own operations, on
      which the witnesses run; [Contracts], [BufferContracts], [UserContracts] the properties
      of the process manager.

    Parts meet as in the code: [Kernel.handle] dispatches to the operations of [Task],
    which use [Pgtable], [Vm] and [Page] on one machine state; [Kernel.answer_trap], the body of
    the trap handler, runs [handle], the timer and the UART wake-up and then picks the next task.  The other end of
    the system calls is [Userlib]: the functions of [user/userlib/src/syscall.rs] and
    [ipc.rs] as the registers they load and what they make of the registers afterwards.

    ** The kernel's own page table

    The allocator hands out 4096 pages from the end of the kernel image on; the table that
    [vm::init] builds, on which the kernel runs from then on and in every trap, maps only the 16 MB
    from 0x80200000 on, the interrupt controller and the UART ([kernel_va],
    [Vm.vm_init_correct]).  The operations of the kernel are defined on physical memory, and their
    contracts (fork, sbrk, the loader, exec, ...) are about that; [Kernel.trap_handler] and what
    follows [vm::init] in [Kernel.kernel_main] run them as [paged]: the machine keeps a record of the pages
    handed out ([Machine.taken]), and a run that takes one outside of [kernel_va] panics, as the kernel's
    access to it does.  That the table stays as [vm::init] built it is assumed there: nothing in the
    code writes to it after the boot.

    ** The build ([src/build.rs])

    [BuildScript] has the choice of the programs, the command lines, the packing of the
    ramdisk and the lines for cargo, over a host of files; its property goes on to the
    kernel's reader of the ramdisk.

    ** The file server ([user/programs/fs-server/src/main.rs])

    - [FatDisk] the RAM disk, the boot sector, the table and clusters; [FatFile] reading
      and writing files; [FatDir] entries, long names, walking and paths; [FatEdit]
      creating, updating and deleting entries; [FsServer] formatting and the request loop.
    - [FatFacts], [FileFacts], [WriteFacts], [FileSpec] a file as a byte string: chains of
      clusters, [content], [overwritten]; [DirFacts], [EditFacts], [DirCreate] a directory
      as the list of entries read off its slots ([dir_entries]), and how creating an entry
      changes it; [FsSafety], [ServeSafety] the absence of panics.
    - [Volume] the volume the server formats, on which the witnesses run; [FsContracts],
      [DirContracts], [ServeContracts] the properties; [Observations] runs that show
      defects.

    ** The console and the shell ([drivers/uart.rs], [user/userlib], [user/programs])

    - [Uart] the register interface of the serial port ([UartDevice]), what the drivers rely
      on of it ([UartSpec], with the device [port] as an instance) and the kernel's driver;
      [Console] the console server, [io::write] and [io::read], and between them the
      interface [Console] that the server implements ([console_server]) and the clients are
      verified against; [Shell] the line editor and its reference [edit_line]; [Command] the
      commands as trees of system calls; [Terminal] the properties end to end; [Samples] the
      printing of the user library ([print.rs]) and the programs that print one line.
    - [Text] the format specifiers the kernel prints with, and [SerialCalls] what writes and
      reads the port from inside the kernel: the task listing ([list_all]) and the deprecated
      [sys_write] and [sys_read].

    [Bytes] holds what the loader and the file server share (little-endian integers,
    slices).  The file server's view of the kernel is a request, a buffer and a reply; the
    delivery of these is the IPC of [Task].

    ** What the properties show

    Memory: the allocator refines a set of free pages and never hands a page out twice;
    mapping, unmapping and freeing page tables do to [translate] exactly what their names
    say, and freeing returns exactly the pages of the tree.  In every state that a run from the boot
    reaches, user programs can access no part of the kernel's image, no program's page table, no kernel stack
    and no page of another program, and what one does leaves the memory and the registers of all
    others as they are.  Processes and IPC: the queue is a FIFO; scheduling picks the next ready task and starves none; fork copies the caller page by page;
    sbrk maps or releases exactly the pages between the two ends of the heap and undoes what it
    cannot finish; exit tells the parent, wait reaps the child and releases exactly what it
    owned; call, receive and reply move the message, the bytes of a buffer and the states of
    both sides as a rendezvous does.  Programs: the build script and the kernel's archive
    reader fit together, and the build stops at the first command that fails; the loader stays
    inside the file and fills each page with the bytes of the segment and zeros; exec replaces the caller's program and keeps its identity.
    Traps: every live system call and interrupt ends in a consistent kernel, with one exception:
    a fork, exec or sbrk that takes more pages than are left within the kernel's map panics; the
    fatal causes panic, and nothing else does.  The system: with room for the servers in the
    kernel's map, the boot enters the shell with both servers registered, and a run from there fails
    only by that exception.  Programs' view: the user library and the
    kernel agree on numbers, registers and conversions; a remote procedure call returns the
    server's reply; a child's exit status reaches its parent.  Files: formatting gives an empty
    volume; allocation, release, reading and writing do what a byte-string reference says, what
    is written is read back, what is created is found; no request panics the server.
    Terminal: standard output reaches the serial port unchanged but for carriage returns, and a
    typed line becomes the line of the reference editor.

    The theorems on system calls take on trust what [Handler.call_ok] lists: buffers of the
    buffer calls lie in user memory (the kernel does not check it), and a new process finds a
    fresh PID (the counter wraps around).  Those on programs take trustworthy ELF
    files ([program_ok]: segments in the user's range and apart).

    ** Bounds and fuel

    [free_chain] has fuel for every word of the disk ([FREE_FUEL]), which suffices because
    each step clears a word; the archive loop has fuel for every header that fits
    ([INITRD_FUEL]); the page-table recursion has its three levels.  The other loops of the
    file server take their fuel as an argument, because they do not end on a damaged table
    ([Observations.walk_cycle_diverges]); their theorems ask for fuel above the length of
    the chain, which never exceeds the number of clusters ([chain_length]).  The theorems
    on files and directories are for one sector per cluster, the only geometry the server
    formats; the definitions are for any.

    ** Not modelled

    - Assembly ([start.S], [trap.S], [user.S], [initrd.S]) and the C library and programs:
      not Rust; the definitions take the registers and frames they hand over.
    - The boot messages, and with them [uart::init] in [kernel_main]: output only.
    - The spin locks: the kernel runs on one hart with interrupts off in the handler, so a
      lock never waits; a nested lock (a deadlock) cannot be expressed.
    - The tools the build script runs and the firmware: their answers are arguments of the
      definitions.  Printing takes the pieces into
      which the formatting library renders its arguments.
    - [sys_write] and [sys_read] of [syscall.rs] are modelled apart from [Kernel.handle]: they
      are marked deprecated, and no branch of the dispatcher reaches them.
    - Which task runs between two calls of a program is left open: [Userlib.rpc_correct] and
      [Userlib.exit_status_correct] speak of any later state in which the partner is still
      waiting. *)

From Stdlib Require Export ZArith Lia.
From stdpp Require Export prelude gmap list list_numbers.

#[global] Open Scope Z_scope.

(** ** Machine words

    [usize] and [u64] are integers in [0, 2^64), [u32] in [0, 2^32), and so on.
    The kernel and the user programs are built by the release profile, which has
    no overflow checks: [+], [-] and [*] wrap.  [a +' b] is the wrapping addition
    on [usize]. *)

Definition u64 (z : Z) : Z := z mod 2 ^ 64.
Definition u32 (z : Z) : Z := z mod 2 ^ 32.
Definition u16 (z : Z) : Z := z mod 2 ^ 16.
Definition u8 (z : Z) : Z := z mod 2 ^ 8.
Definition usize_max : Z := 2 ^ 64 - 1.

Definition is_u64 (z : Z) : Prop := 0 ≤ z < 2 ^ 64.
Definition is_u32 (z : Z) : Prop := 0 ≤ z < 2 ^ 32.

Declare Scope word_scope.
Delimit Scope word_scope with word.
Notation "a +' b" := (u64 (a + b)) (at level 50, left associativity) : word_scope.
Notation "a -' b" := (u64 (a - b)) (at level 50, left associativity) : word_scope.
Notation "a *' b" := (u64 (a * b)) (at level 40, left associativity) : word_scope.
#[global] Open Scope word_scope.

(** [usize::checked_add], [usize::checked_add_signed] and [usize::checked_mul]. *)
Definition checked_add (a b : Z) : option Z :=
  if a + b <? 2 ^ 64 then Some (a + b) else None.
Definition checked_add_signed (a d : Z) : option Z :=
  if (0 <=? a + d) && (a + d <? 2 ^ 64) then Some (a + d) else None.
Definition checked_mul (a b : Z) : option Z :=
  if a * b <? 2 ^ 64 then Some (a * b) else None.

(** [x as isize] and [x as usize] of a signed value. *)
Definition as_isize (z : Z) : Z := if u64 z <? 2 ^ 63 then u64 z else u64 z - 2 ^ 64.
Definition as_i32 (z : Z) : Z := if u32 z <? 2 ^ 31 then u32 z else u32 z - 2 ^ 32.

(** ** Outcomes, results and the state monad

    A Rust function returns, panics, or (where the model bounds a recursion the
    source does not bound) runs out of fuel.  [st S A] is a computation over the
    mutable state [S]. *)

Inductive outcome (A : Type) : Type :=
  | Done (a : A)
  | Panic
  | Diverge.
Arguments Done {A} _.
Arguments Panic {A}.
Arguments Diverge {A}.

(** [Result<A, ()>]: the source's errors carry no data. *)
Inductive result (A : Type) : Type :=
  | Ok (a : A)
  | Err.
Arguments Ok {A} _.
Arguments Err {A}.

#[export] Instance result_eq_dec `{EqDecision A} : EqDecision (result A).
Proof. solve_decision. Defined.
#[export] Instance outcome_eq_dec `{EqDecision A} : EqDecision (outcome A).
Proof. solve_decision. Defined.

Definition ok_or {A} (o : option A) : result A :=
  match o with Some a => Ok a | None => Err end.
Definition is_ok {A} (r : result A) : bool :=
  match r with Ok _ => true | Err => false end.

Definition st (S A : Type) : Type := S → outcome (A * S).

#[export] Instance st_ret S : MRet (st S) := λ A a s, Done (a, s).
#[export] Instance st_bind S : MBind (st S) := λ A B k m s,
  match m s with
  | Done (a, s') => k a s'
  | Panic => Panic
  | Diverge => Diverge
  end.

Definition gets {S A} (f : S → A) : st S A := λ s, Done (f s, s).
Definition modify {S} (f : S → S) : st S unit := λ s, Done (tt, f s).
Definition panic {S A} : st S A := λ _, Panic.
Definition diverge {S A} : st S A := λ _, Diverge.
(** [unwrap] and [expect]. *)
Definition unwrap {S A} (o : option A) : st S A :=
  match o with Some a => mret a | None => panic end.

Definition expect {S A} (r : result A) : st S A :=
  match r with Ok a => mret a | Err => panic end.

(** The [?] operator, in a function that returns a [Result] ([try_bind]) and in
    one that returns an [Option] ([otry_bind]): the state reached so far stays. *)
Definition try_bind {S A B} (k : A → st S (result B)) (m : st S (result A)) :
  st S (result B) :=
  r ← m; match r with Ok a => k a | Err => mret Err end.
Definition otry_bind {S A B} (k : A → st S (option B)) (m : st S (option A)) :
  st S (option B) :=
  r ← m; match r with Some a => k a | None => mret None end.

Notation "x ←? y ; z" := (try_bind (λ x, z) y)
  (at level 20, y at level 100, z at level 200, only parsing) : stdpp_scope.
Notation "x ←! y ; z" := (otry_bind (λ x, z) y)
  (at level 20, y at level 100, z at level 200, only parsing) : stdpp_scope.

(** [for x in l { body }], and the same loop when the body leaves by [?]. *)
Fixpoint foreach {S A} (l : list A) (body : A → st S unit) : st S unit :=
  match l with
  | [] => mret tt
  | x :: l => _ ← body x; foreach l body
  end.
Fixpoint try_foreach {S A} (l : list A) (body : A → st S (result unit)) :
  st S (result unit) :=
  match l with
  | [] => mret (Ok tt)
  | x :: l => _ ←? body x; try_foreach l body
  end.

(** [(lo..hi).step_by(step)]. *)
Definition range_step (lo hi step : Z) : list Z :=
  (λ k, lo + k * step) <$> seqZ 0 ((hi - lo + step - 1) / step).

(** Tests for concrete runs: the outcome is [Ok ()], or [Some v]. *)
Definition returns_ok {S} (o : outcome (result unit * S)) : bool :=
  match o with Done (Ok _, _) => true | _ => false end.
Definition returns_some {S} (v : Z) (o : outcome (option Z * S)) : bool :=
  match o with Done (Some w, _) => w =? v | _ => false end.
Lemma returns_ok_inv {S} (o : outcome (result unit * S)) :
  returns_ok o = true → ∃ s, o = Done (Ok tt, s).
Proof. destruct o as [[[[]|] s]| |]; [|done..]. by exists s. Qed.
Lemma returns_some_inv {S} v (o : outcome (option Z * S)) :
  returns_some v o = true → ∃ s, o = Done (Some v, s).
Proof. destruct o as [[[w|] s]| |]; [|done..]. intros ->%Z.eqb_eq. by exists s. Qed.

(** ** Weakest preconditions

    [wp m Q s]: run from [s], [m] returns (no panic, no exhausted fuel) and the
    value and the new state satisfy [Q].  [wlp] allows exhausted fuel; it is used
    only below a separate termination theorem. *)

Definition wp {S A} (m : st S A) (Q : A → S → Prop) (s : S) : Prop :=
  match m s with Done (a, s') => Q a s' | Panic => False | Diverge => False end.
Definition wlp {S A} (m : st S A) (Q : A → S → Prop) (s : S) : Prop :=
  match m s with Done (a, s') => Q a s' | Panic => False | Diverge => True end.

Section wp_rules.
Context {S : Type}.
Implicit Types s : S.

Lemma wp_ret {A} (a : A) (Q : A → S → Prop) s : Q a s → wp (mret a) Q s.
Proof. done. Qed.
Lemma wp_bind {A B} (m : st S A) (k : A → st S B) Q s :
  wp m (λ a s', wp (k a) Q s') s → wp (m ≫= k) Q s.
Proof. unfold wp, mbind, st_bind. by destruct (m s) as [[]| |]. Qed.
Lemma wp_gets {A} (f : S → A) Q s : Q (f s) s → wp (gets f) Q s.
Proof. done. Qed.
Lemma wp_modify (f : S → S) Q s : Q tt (f s) → wp (modify f) Q s.
Proof. done. Qed.
Lemma wp_mono {A} (m : st S A) (Q1 Q2 : A → S → Prop) s :
  wp m Q1 s → (∀ a s', Q1 a s' → Q2 a s') → wp m Q2 s.
Proof. unfold wp. destruct (m s) as [[]| |]; naive_solver. Qed.
Lemma wp_try_bind {A B} (m : st S (result A)) (k : A → st S (result B)) Q s :
  wp m (λ r s', match r with Ok a => wp (k a) Q s' | Err => Q Err s' end) s →
  wp (try_bind k m) Q s.
Proof.
  intros H. apply wp_bind. eapply wp_mono; [exact H|]. by intros [] ?.
Qed.
Lemma wp_otry_bind {A B} (m : st S (option A)) (k : A → st S (option B)) Q s :
  wp m (λ r s', match r with Some a => wp (k a) Q s' | None => Q None s' end) s →
  wp (otry_bind k m) Q s.
Proof.
  intros H. apply wp_bind. eapply wp_mono; [exact H|]. by intros [] ?.
Qed.
Lemma wp_Done {A} (m : st S A) Q s :
  wp m Q s ↔ ∃ a s', m s = Done (a, s') ∧ Q a s'.
Proof. unfold wp. destruct (m s) as [[]| |]; naive_solver. Qed.

(** Loop rules: an invariant indexed by the elements already visited. *)
Lemma wp_foreach {A} (l : list A) (body : A → st S unit)
    (I : list A → S → Prop) Q s :
  I [] s →
  (∀ done x rest s', l = done ++ x :: rest → I done s' →
    wp (body x) (λ _ s'', I (done ++ [x]) s'') s') →
  (∀ s', I l s' → Q tt s') →
  wp (foreach l body) Q s.
Proof.
  intros H0 Hstep HQ.
  cut (∀ done rest s', l = done ++ rest → I done s' → wp (foreach rest body) Q s').
  { intros Hc. by apply (Hc [] l). }
  intros done rest. revert done. induction rest as [|x rest IH]; intros done s' -> HI.
  - rewrite app_nil_r in HQ. by apply wp_ret, HQ.
  - simpl. apply wp_bind. eapply wp_mono; [by apply (Hstep done x rest)|].
    intros [] s'' HI'. apply (IH (done ++ [x])); [|done].
    by rewrite <- (assoc_L (++)).
Qed.
Lemma wp_try_foreach {A} (l : list A) (body : A → st S (result unit))
    (I : list A → S → Prop) Q s :
  I [] s →
  (∀ done x rest s', l = done ++ x :: rest → I done s' →
    wp (body x) (λ r s'', match r with
                          | Ok _ => I (done ++ [x]) s''
                          | Err => Q Err s'' end) s') →
  (∀ s', I l s' → Q (Ok tt) s') →
  wp (try_foreach l body) Q s.
Proof.
  intros H0 Hstep HQ.
  cut (∀ done rest s', l = done ++ rest → I done s' → wp (try_foreach rest body) Q s').
  { intros Hc. by apply (Hc [] l). }
  intros done rest. revert done. induction rest as [|x rest IH]; intros done s' -> HI.
  - rewrite app_nil_r in HQ. by apply wp_ret, HQ.
  - simpl. apply wp_try_bind. eapply wp_mono; [by apply (Hstep done x rest)|].
    intros [[]|] s'' HI'; [|done]. apply (IH (done ++ [x])); [|done].
    by rewrite <- (assoc_L (++)).
Qed.
End wp_rules.

(** ** Bits *)

Lemma shiftl_1_pow2 b : 0 ≤ b → Z.shiftl 1 b = 2 ^ b.
Proof. intros. by rewrite Z.shiftl_mul_pow2, Z.mul_1_l. Qed.

(** [w & (1 << b) == 0] tests one bit. *)
Lemma land_bit_eqb w b : 0 ≤ b → (Z.land w (Z.shiftl 1 b) =? 0) = negb (Z.testbit w b).
Proof.
  intros Hb. rewrite shiftl_1_pow2 by done.
  destruct (Z.testbit w b) eqn:E; simpl.
  - apply Z.eqb_neq. intros H0.
    assert (Z.testbit (Z.land w (2 ^ b)) b = true) as H1
      by (rewrite Z.land_spec, E, Z.pow2_bits_true; done).
    rewrite H0, Z.bits_0 in H1. done.
  - apply Z.eqb_eq, Z.bits_inj. intros n. rewrite Z.land_spec, Z.bits_0.
    destruct (decide (n = b)) as [->|Hn]; [by rewrite E|].
    rewrite Z.pow2_bits_false by done. apply andb_false_r.
Qed.

Lemma testbit_setbit w b n :
  0 ≤ b → 0 ≤ n →
  Z.testbit (Z.lor w (Z.shiftl 1 b)) n = if decide (n = b) then true else Z.testbit w n.
Proof.
  intros Hb Hn. rewrite shiftl_1_pow2, Z.lor_spec by done.
  case_decide; [subst; rewrite Z.pow2_bits_true by done; apply orb_true_r|].
  rewrite Z.pow2_bits_false by done. apply orb_false_r.
Qed.

(** [!x] on [u64]: all 64 bits flipped. *)
Definition not64 (x : Z) : Z := Z.lxor x usize_max.

Lemma usize_max_ones : usize_max = Z.ones 64.
Proof. reflexivity. Qed.

Lemma testbit_clearbit w b n :
  0 ≤ w < 2 ^ 64 → 0 ≤ b < 64 → 0 ≤ n →
  Z.testbit (Z.land w (not64 (Z.shiftl 1 b))) n =
    if decide (n = b) then false else Z.testbit w n.
Proof.
  intros Hw Hb Hn. unfold not64. rewrite usize_max_ones.
  rewrite shiftl_1_pow2, Z.land_spec, Z.lxor_spec by lia.
  case_decide.
  - subst. rewrite Z.pow2_bits_true, Z.ones_spec_low by lia. apply andb_false_r.
  - rewrite Z.pow2_bits_false by done. destruct (decide (n < 64)).
    + rewrite Z.ones_spec_low by lia. apply andb_true_r.
    + assert (Z.testbit w n = false) as ->; [|done].
      destruct (decide (w = 0)) as [->|]; [apply Z.bits_0|].
      apply Z.bits_above_log2; [lia|]. apply Z.lt_le_trans with 64; [|lia].
      apply Z.log2_lt_pow2; lia.
Qed.

(** A number below [2 ^ n] is one with no bit set from position [n] on. *)
Lemma bits_above n x k : 0 ≤ x < 2 ^ n → n ≤ k → Z.testbit x k = false.
Proof.
  intros Hx Hk. destruct (decide (x = 0)) as [->|]; [apply Z.bits_0|].
  assert (0 ≤ n) by (destruct (decide (0 ≤ n)); [done|rewrite Z.pow_neg_r in Hx; lia]).
  apply Z.bits_above_log2; [lia|]. apply Z.lt_le_trans with n; [|done].
  apply Z.log2_lt_pow2; lia.
Qed.
Lemma bits_bound n x :
  0 ≤ n → 0 ≤ x → (∀ k, n ≤ k → Z.testbit x k = false) → x < 2 ^ n.
Proof.
  intros Hn Hx Hb. destruct (decide (x = 0)) as [->|]; [lia|].
  apply Z.log2_lt_pow2; [lia|]. apply Z.nle_gt. intros Hle.
  specialize (Hb _ Hle). rewrite Z.bit_log2 in Hb by lia. done.
Qed.
Lemma lor_bound n a b : 0 ≤ n → 0 ≤ a < 2 ^ n → 0 ≤ b < 2 ^ n → 0 ≤ Z.lor a b < 2 ^ n.
Proof.
  intros Hn Ha Hb. assert (0 ≤ Z.lor a b) by (apply Z.lor_nonneg; lia).
  split; [done|]. apply bits_bound; [done..|]. intros k Hk.
  by rewrite Z.lor_spec, (bits_above n a), (bits_above n b).
Qed.
Lemma land_bound n a b : 0 ≤ n → 0 ≤ a < 2 ^ n → 0 ≤ Z.land a b < 2 ^ n.
Proof.
  intros Hn Ha. assert (0 ≤ Z.land a b) by (apply Z.land_nonneg; lia).
  split; [done|]. apply bits_bound; [done..|]. intros k Hk.
  by rewrite Z.land_spec, (bits_above n a).
Qed.

(** ** Counting in lists *)

Lemma list_elem_of_middle {A} (l : list A) x k : x ∈ l ++ x :: k.
Proof. apply elem_of_app. right. apply list_elem_of_here. Qed.

(** The number of elements a boolean test accepts. *)
Definition countb {A} (f : A → bool) (l : list A) : Z :=
  foldr (λ x n, (if f x then 1 else 0) + n) 0 l.

Section countb.
Context {A : Type}.
Implicit Types (f g : A → bool) (l : list A).

Lemma countb_nonneg f l : 0 ≤ countb f l.
Proof. induction l; simpl; [lia|]. destruct (f a); lia. Qed.
Lemma countb_app f l1 l2 : countb f (l1 ++ l2) = countb f l1 + countb f l2.
Proof. induction l1; simpl; lia. Qed.
Lemma countb_length f l : countb f l ≤ Z.of_nat (length l).
Proof. induction l as [|x l IH]; simpl; [lia|]. destruct (f x); lia. Qed.
Lemma countb_ext f g l : (∀ x, x ∈ l → f x = g x) → countb f l = countb g l.
Proof.
  induction l as [|x l IH]; intros H; simpl; [done|].
  rewrite (H x), IH by set_solver. done.
Qed.
Lemma countb_insert f l i x y :
  l !! i = Some y →
  countb f (<[i:=x]> l) =
    countb f l + (if f x then 1 else 0) - (if f y then 1 else 0).
Proof.
  revert i. induction l as [|z l IH]; intros [|i] Hi; simplify_eq/=; [lia|].
  rewrite (IH _ Hi). lia.
Qed.
(** Flipping the test at one element of a duplicate-free list. *)
Lemma countb_flip f g l x :
  NoDup l → x ∈ l → f x = false → g x = true →
  (∀ y, y ∈ l → y ≠ x → f y = g y) →
  countb g l = countb f l + 1.
Proof.
  induction l as [|z l IH]; intros Hnd Hx Hf Hg Hext; [set_solver|].
  apply NoDup_cons in Hnd as [Hz Hnd]. simpl.
  apply elem_of_cons in Hx as [->|Hx].
  - rewrite Hf, Hg. rewrite (countb_ext f g l); [lia|].
    intros y Hy. apply Hext; set_solver.
  - rewrite (Hext z) by set_solver. rewrite IH; [lia|set_solver..].
Qed.
Lemma countb_pos f l x : x ∈ l → f x = true → 0 < countb f l.
Proof.
  induction l as [|z l IH]; intros Hx Hf; [set_solver|]. simpl.
  pose proof (countb_nonneg f l).
  apply elem_of_cons in Hx as [->|Hx]; [rewrite Hf; lia|].
  specialize (IH Hx Hf). destruct (f z); lia.
Qed.
Lemma countb_zero f l : countb f l = 0 ↔ ∀ x, x ∈ l → f x = false.
Proof.
  split.
  - intros H x Hx. destruct (f x) eqn:E; [|done].
    pose proof (countb_pos f l x Hx E). lia.
  - intros H. induction l as [|x l IH]; simpl; [done|].
    rewrite (H x), IH by set_solver. done.
Qed.
End countb.
