(* ===== verification/Text.v ===== *)
(** Text as bytes: ASCII literals, and the formatting of integers that the kernel's messages use. *)

From stdpp Require Export strings.
From S2P Require Import Prelude.

(** ASCII text as bytes. *)
Definition str (s : string) : list Z := (λ c, Z.of_N (Ascii.N_of_ascii c)) <$> String.list_ascii_of_string s.
#[global] Arguments str _%_string.

(** [{}] of an unsigned integer: its decimal digits, the fuel being a bound on their number. *)
Fixpoint dec_digits (fuel : nat) (n : Z) : list Z :=
  match fuel with
  | O => []
  | S fuel => if n <? 10 then [48 + n] else dec_digits fuel (n / 10) ++ [48 + n mod 10]
  end.
Definition fmt_dec (n : Z) : list Z := dec_digits (S (Z.to_nat (Z.log2 n))) n.
(** [{:<w}]. *)
Definition pad_right (w : nat) (s : list Z) : list Z := s ++ replicate (w - length s) 32.
