(* ===== verification/Bytes.v ===== *)
(** Bytes and little-endian integers in byte lists, shared by the program loader and the
    file server: reading an integer at an offset, its bytes, and replacing a slice. *)

From S2P Require Import Prelude.

Definition is_byte (b : Z) : Prop := 0 ≤ b < 256.

Definition byte_at (bytes : list Z) (off : Z) : Z := default 0 (bytes !! Z.to_nat off).
(** The [n]-byte little-endian integer at [off]. *)
Fixpoint le (n : nat) (bytes : list Z) (off : Z) : Z :=
  match n with
  | O => 0
  | S n => byte_at bytes off + 256 * le n bytes (off + 1)
  end.
(** [v.to_le_bytes()] for an [n]-byte integer. *)
Definition le_bytes (n : nat) (v : Z) : list Z := (λ k, v / 256 ^ k mod 256) <$> seqZ 0 (Z.of_nat n).

(** [buf[off..off + bs.len()].copy_from_slice(bs)]; [None] where Rust panics. *)
Definition copy_into (buf : list Z) (off : Z) (bs : list Z) : option (list Z) :=
  if (0 <=? off) && (off + Z.of_nat (length bs) <=? Z.of_nat (length buf))
  then Some (take (Z.to_nat off) buf ++ bs ++ drop (Z.to_nat off + length bs) buf) else None.
(** [buf[off] = b]. *)
Definition set_byte (buf : list Z) (off b : Z) : option (list Z) := copy_into buf off [b].

Lemma byte_at_bound bs off : Forall is_byte bs → is_byte (byte_at bs off).
Proof.
  intros H. unfold byte_at. destruct (bs !! Z.to_nat off) as [b|] eqn:E; [|split; cbn; lia].
  by apply (Forall_lookup_1 _ _ _ _ H E).
Qed.
Lemma le_bound n bs off : Forall is_byte bs → 0 ≤ le n bs off < 256 ^ Z.of_nat n.
Proof.
  intros H. revert off. induction n as [|n IH]; intros off; [cbn; lia|].
  cbn [le]. specialize (IH (off + 1)). destruct (byte_at_bound bs off H).
  rewrite Nat2Z.inj_succ, Z.pow_succ_r by lia. lia.
Qed.
Lemma length_le_bytes n v : length (le_bytes n v) = n.
Proof. unfold le_bytes. by rewrite length_fmap, length_seqZ, Nat2Z.id. Qed.
Lemma le_bytes_is_byte n v : Forall is_byte (le_bytes n v).
Proof.
  apply Forall_fmap, Forall_true. intros k. unfold compose, is_byte. apply Z.mod_pos_bound. lia.
Qed.
Lemma byte_at_le_bytes n v k : 0 ≤ k < Z.of_nat n → byte_at (le_bytes n v) k = v / 256 ^ k mod 256.
Proof.
  intros Hk. unfold byte_at, le_bytes. rewrite list_lookup_fmap, lookup_seqZ_lt by lia. cbn. by rewrite Z2Nat.id by lia.
Qed.

Section copy.
Implicit Types (buf bs : list Z).

Lemma copy_into_Some buf off bs :
  0 ≤ off → off + Z.of_nat (length bs) ≤ Z.of_nat (length buf) →
  copy_into buf off bs = Some (take (Z.to_nat off) buf ++ bs ++ drop (Z.to_nat off + length bs) buf).
Proof. intros H1 H2. unfold copy_into. by rewrite (proj2 (Z.leb_le _ _) H1), (proj2 (Z.leb_le _ _) H2). Qed.
Lemma length_copy_into buf off bs buf' : copy_into buf off bs = Some buf' → length buf' = length buf.
Proof.
  unfold copy_into. destruct (0 <=? off) eqn:E1; [|done]. destruct (_ <=? Z.of_nat _) eqn:E2; [|done].
  apply Z.leb_le in E1, E2. intros [= <-]. rewrite !length_app, length_take, length_drop. lia.
Qed.
Lemma byte_at_copy_into buf off bs buf' k :
  copy_into buf off bs = Some buf' → 0 ≤ k →
  byte_at buf' k = if decide (off ≤ k < off + Z.of_nat (length bs)) then byte_at bs (k - off) else byte_at buf k.
Proof.
  unfold copy_into. destruct (0 <=? off) eqn:E1; [|done]. destruct (_ <=? Z.of_nat _) eqn:E2; [|done].
  apply Z.leb_le in E1, E2. intros [= <-] Hk. unfold byte_at.
  assert (length (take (Z.to_nat off) buf) = Z.to_nat off) as Hl by (rewrite length_take; lia).
  case_decide as Hin; [|destruct (decide (k < off)) as [Hlt|Hge]].
  - rewrite lookup_app_r by lia. rewrite lookup_app_l by lia. rewrite Hl. do 2 f_equal. lia.
  - rewrite lookup_app_l, lookup_take_lt by lia. done.
  - rewrite lookup_app_r, lookup_app_r, lookup_drop by lia. do 2 f_equal. lia.
Qed.
End copy.
