(* ===== verification/Arch.v ===== *)
(** Constants of [src/src/arch/riscv/mod.rs] and [src/src/arch/riscv/csr.rs]:
    page geometry, page-table-entry flags, the user address-space layout and the
    [sstatus] bits the kernel writes into trap frames. *)

From S2P Require Import Prelude.

Definition PAGE_SIZE : Z := 4096.
Definition PAGE_SHIFT : Z := 12.

Definition PTE_V : Z := Z.shiftl 1 0.
Definition PTE_R : Z := Z.shiftl 1 1.
Definition PTE_W : Z := Z.shiftl 1 2.
Definition PTE_X : Z := Z.shiftl 1 3.
Definition PTE_U : Z := Z.shiftl 1 4.

Definition USER_STACK_TOP : Z := 0x40000000.

Definition SSTATUS_SIE : Z := Z.shiftl 1 1.
Definition SSTATUS_SPIE : Z := Z.shiftl 1 5.
Definition SSTATUS_SPP : Z := Z.shiftl 1 8.
Definition SSTATUS_SUM : Z := Z.shiftl 1 18.

(** [PTE_R | PTE_W | PTE_X]. *)
Definition PTE_RWX : Z := Z.lor (Z.lor PTE_R PTE_W) PTE_X.

(** [x & !(PAGE_SIZE - 1)]. *)
Definition page_down (x : Z) : Z := Z.land x (not64 (PAGE_SIZE - 1)).

Lemma page_down_spec x : is_u64 x → page_down x = x - x mod PAGE_SIZE.
Proof.
  intros Hx. unfold is_u64 in Hx. unfold page_down, PAGE_SIZE.
  assert (not64 (4096 - 1) = Z.ldiff (Z.ones 64) (Z.ones 12)) as -> by reflexivity.
  transitivity (Z.ldiff x (Z.ones 12)).
  - apply Z.bits_inj'. intros n Hn. rewrite Z.land_spec, !Z.ldiff_spec.
    destruct (decide (n < 64)).
    + by rewrite (Z.ones_spec_low 64) by lia.
    + by rewrite (bits_above 64 x) by lia.
  - rewrite Z.ldiff_ones_r by lia. rewrite Z.shiftr_div_pow2, Z.shiftl_mul_pow2 by lia.
    change (2 ^ 12) with 4096. pose proof (Z.div_mod x 4096). lia.
Qed.

(** Addresses of whole pages. *)
Definition page_aligned (a : Z) : Prop := 0 ≤ a ∧ a mod PAGE_SIZE = 0.
Lemma page_down_aligned x : is_u64 x → page_aligned (page_down x) ∧ x - PAGE_SIZE < page_down x ≤ x.
Proof.
  intros Hx. rewrite page_down_spec by done. unfold PAGE_SIZE, is_u64 in *.
  pose proof (Z.div_mod x 4096). pose proof (Z.mod_pos_bound x 4096).
  split; [|lia]. split; [lia|]. unfold PAGE_SIZE.
  replace (x - x mod 4096) with (x / 4096 * 4096) by lia. by apply Z.mod_mul.
Qed.

Lemma page_aligned_add a k : page_aligned a → 0 ≤ k → page_aligned (a + k * PAGE_SIZE).
Proof.
  intros [Ha Hm] Hk. split; [unfold PAGE_SIZE; lia|].
  rewrite Z.mod_add by (unfold PAGE_SIZE; lia). done.
Qed.
Lemma page_aligned_ne a b : page_aligned a → page_aligned b → a ≠ b → PAGE_SIZE ≤ Z.abs (a - b).
Proof.
  intros [_ Ha] [_ Hb] Hne. unfold PAGE_SIZE in *.
  pose proof (Z.div_mod a 4096). pose proof (Z.div_mod b 4096). nia.
Qed.

(** [lia] sees the constants' values after [arch_unfold]. *)
Ltac arch_unfold :=
  unfold is_u64, is_u32, page_aligned, PAGE_SIZE, PAGE_SHIFT, USER_STACK_TOP, usize_max in *.
