(* ===== verification/Page.v ===== *)
(** The physical page allocator, [src/src/kernel/page.rs]: a bitmap with one bit
    per page.  [PageAllocator] is the struct; [PageAllocator_new], [_alloc] and
    [_free] are its methods; [page_init] is [page::init].

    Bitmap accesses are bounds-checked as in Rust ([Panic] on a missing word).
    [PageAllocator_wf] is the invariant, [allocated] the abstract view (the set of
    page addresses handed out) that the rest of the development uses. *)

From S2P Require Import Prelude Arch.

Record PageAllocator : Type := mkPageAllocator {
  bitmap : list Z;
  total_pages : Z;
  free_pages : Z;
  start_addr : Z;
}.

Definition BITMAP_SIZE : Z := 64.
Definition MAX_PAGES : Z := BITMAP_SIZE * 64.

Definition PageAllocator_new (start_addr total_pages : Z) : PageAllocator :=
  {| bitmap := replicate (Z.to_nat BITMAP_SIZE) 0;
     total_pages := Z.min total_pages MAX_PAGES;
     free_pages := Z.min total_pages MAX_PAGES;
     start_addr := start_addr |}.

(** The [for i in 0..self.total_pages] search of [alloc]. *)
Fixpoint alloc_scan (idxs : list Z) : st PageAllocator (option Z) := λ self,
  match idxs with
  | [] => Done (None, self)
  | i :: idxs =>
      let word_idx := Z.to_nat (i / 64) in
      let bit_idx := i mod 64 in
      match bitmap self !! word_idx with
      | None => Panic
      | Some w =>
          if Z.land w (Z.shiftl 1 bit_idx) =? 0 then
            Done (Some (start_addr self +' i *' PAGE_SIZE),
                  {| bitmap := <[word_idx := Z.lor w (Z.shiftl 1 bit_idx)]> (bitmap self);
                     total_pages := total_pages self;
                     free_pages := free_pages self -' 1;
                     start_addr := start_addr self |})
          else alloc_scan idxs self
      end
  end.

Definition PageAllocator_alloc : st PageAllocator (option Z) := λ self,
  if free_pages self =? 0 then Done (None, self)
  else alloc_scan (seqZ 0 (total_pages self)) self.

Definition PageAllocator_free (addr : Z) : st PageAllocator unit := λ self,
  if (addr <? start_addr self)
     || (start_addr self +' total_pages self *' PAGE_SIZE <=? addr)
  then Done (tt, self)
  else
    let page_idx := (addr -' start_addr self) / PAGE_SIZE in
    let word_idx := Z.to_nat (page_idx / 64) in
    let bit_idx := page_idx mod 64 in
    match bitmap self !! word_idx with
    | None => Panic
    | Some w =>
        if negb (Z.land w (Z.shiftl 1 bit_idx) =? 0) then
          Done (tt, {| bitmap := <[word_idx := Z.land w (not64 (Z.shiftl 1 bit_idx))]>
                                   (bitmap self);
                       total_pages := total_pages self;
                       free_pages := free_pages self +' 1;
                       start_addr := start_addr self |})
        else Done (tt, self)
    end.

(** [page::init] for the linker's [__kernel_end]: 128 MB of RAM from 0x80000000. *)
Definition page_init (kernel_end : Z) : PageAllocator :=
  let aligned_end := page_down (kernel_end +' PAGE_SIZE -' 1) in
  let total_mem := 128 * 1024 * 1024 in
  let available_mem := total_mem -' (aligned_end -' 0x80000000) in
  PageAllocator_new aligned_end (available_mem / PAGE_SIZE).

(** ** The abstract view *)

(** Page [i] is marked in the bitmap. *)
Definition page_bit (bm : list Z) (i : Z) : bool :=
  Z.testbit (default 0 (bm !! Z.to_nat (i / 64))) (i mod 64).

Definition page_addr (pa : PageAllocator) (i : Z) : Z := start_addr pa + i * PAGE_SIZE.

(** [a] is the address of a page that is handed out, of one that is free. *)
Definition allocated (pa : PageAllocator) (a : Z) : Prop :=
  ∃ i, 0 ≤ i < total_pages pa ∧ a = page_addr pa i ∧ page_bit (bitmap pa) i = true.
Definition available (pa : PageAllocator) (a : Z) : Prop :=
  ∃ i, 0 ≤ i < total_pages pa ∧ a = page_addr pa i ∧ page_bit (bitmap pa) i = false.

Record PageAllocator_wf (pa : PageAllocator) : Prop := {
  wf_bitmap_len : length (bitmap pa) = Z.to_nat BITMAP_SIZE;
  wf_words : Forall is_u64 (bitmap pa);
  wf_total : 0 ≤ total_pages pa ≤ MAX_PAGES;
  wf_start : page_aligned (start_addr pa);
  (** Physical addresses have 56 bits ([PA_BITS]). *)
  wf_range : start_addr pa + MAX_PAGES * PAGE_SIZE < 2 ^ 56;
  (** [free_pages] is the number of clear bits among the managed pages. *)
  wf_free : free_pages pa =
    countb (λ i, negb (page_bit (bitmap pa) i)) (seqZ 0 (total_pages pa));
}.

Section facts.
Implicit Types (bm : list Z) (pa : PageAllocator).

Lemma page_bit_insert bm i j w :
  0 ≤ i → 0 ≤ j → bm !! Z.to_nat (i / 64) = Some w →
  ∀ w', page_bit (<[Z.to_nat (i / 64) := w']> bm) j =
    if decide (i / 64 = j / 64) then Z.testbit w' (j mod 64) else page_bit bm j.
Proof.
  intros Hi Hj Hw w'. unfold page_bit.
  pose proof (Z.div_pos i 64). pose proof (Z.div_pos j 64).
  case_decide as E.
  - rewrite <- E, list_lookup_insert_eq; [done|]. by eapply lookup_lt_Some.
  - rewrite list_lookup_insert_ne; [done|]. lia.
Qed.

Lemma same_page i j : i / 64 = j / 64 → i mod 64 = j mod 64 → i = j.
Proof. pose proof (Z.div_mod i 64). pose proof (Z.div_mod j 64). lia. Qed.

(** Setting and clearing the bit of page [i] touches no other page. *)
Lemma page_bit_set bm i j w :
  0 ≤ i → 0 ≤ j → bm !! Z.to_nat (i / 64) = Some w →
  page_bit (<[Z.to_nat (i / 64) := Z.lor w (Z.shiftl 1 (i mod 64))]> bm) j =
    if decide (j = i) then true else page_bit bm j.
Proof.
  intros Hi Hj Hw. rewrite (page_bit_insert bm i j w) by done.
  pose proof (Z.mod_pos_bound i 64). pose proof (Z.mod_pos_bound j 64).
  unfold page_bit. repeat case_decide; subst; try lia; try done.
  - rewrite testbit_setbit by lia. by rewrite decide_True.
  - rewrite testbit_setbit by lia. rewrite decide_False.
    + match goal with E : i / 64 = j / 64 |- _ => rewrite <- E end. by rewrite Hw.
    + intros ?. eauto using same_page.
Qed.
Lemma page_bit_clear bm i j w :
  0 ≤ i → 0 ≤ j → is_u64 w → bm !! Z.to_nat (i / 64) = Some w →
  page_bit (<[Z.to_nat (i / 64) := Z.land w (not64 (Z.shiftl 1 (i mod 64)))]> bm) j =
    if decide (j = i) then false else page_bit bm j.
Proof.
  intros Hi Hj Hu Hw. rewrite (page_bit_insert bm i j w) by done.
  pose proof (Z.mod_pos_bound i 64). pose proof (Z.mod_pos_bound j 64).
  unfold page_bit. repeat case_decide; subst; try lia; try done.
  - rewrite testbit_clearbit by (done || lia). by rewrite decide_True.
  - rewrite testbit_clearbit by (done || lia). rewrite decide_False.
    + match goal with E : i / 64 = j / 64 |- _ => rewrite <- E end. by rewrite Hw.
    + intros ?. eauto using same_page.
Qed.

Lemma word_exists pa i :
  PageAllocator_wf pa → 0 ≤ i < total_pages pa →
  ∃ w, bitmap pa !! Z.to_nat (i / 64) = Some w ∧ is_u64 w ∧
    Z.testbit w (i mod 64) = page_bit (bitmap pa) i.
Proof.
  intros [Hlen Hw Htot _ _ _] Hi. unfold MAX_PAGES, BITMAP_SIZE in *.
  destruct (lookup_lt_is_Some_2 (bitmap pa) (Z.to_nat (i / 64))) as [w E].
  { rewrite Hlen. pose proof (Z.div_pos i 64). pose proof (Z.div_lt_upper_bound i 64 64). lia. }
  exists w. split; [done|]. split.
  - rewrite Forall_lookup in Hw. eauto.
  - unfold page_bit. by rewrite E.
Qed.

Lemma page_addr_wrap pa i :
  PageAllocator_wf pa → 0 ≤ i < total_pages pa →
  start_addr pa +' i *' PAGE_SIZE = page_addr pa i.
Proof.
  intros [_ _ Htot [Hs _] Hr _] Hi. unfold page_addr, u64.
  unfold MAX_PAGES, BITMAP_SIZE, PAGE_SIZE in *.
  rewrite (Z.mod_small (i * 4096)) by lia. by rewrite Z.mod_small by lia.
Qed.

(** What [alloc] does, as a relation on the abstract state: page [i] goes from
    free to handed out, nothing else changes. *)
Definition takes pa pa' (i : Z) : Prop :=
  0 ≤ i < total_pages pa ∧
  page_bit (bitmap pa) i = false ∧
  (∀ j, 0 ≤ j → page_bit (bitmap pa') j = if decide (j = i) then true else page_bit (bitmap pa) j) ∧
  total_pages pa' = total_pages pa ∧ start_addr pa' = start_addr pa ∧
  free_pages pa' = free_pages pa - 1.

Lemma wf_free_bounds pa : PageAllocator_wf pa → 0 ≤ free_pages pa ≤ total_pages pa.
Proof.
  intros [_ _ Htot _ _ ->]. split; [apply countb_nonneg|].
  etrans; [apply countb_length|]. rewrite length_seqZ. lia.
Qed.

Lemma take_wf pa i w :
  PageAllocator_wf pa → 0 ≤ i < total_pages pa →
  bitmap pa !! Z.to_nat (i / 64) = Some w → page_bit (bitmap pa) i = false →
  let pa' := {| bitmap := <[Z.to_nat (i / 64) := Z.lor w (Z.shiftl 1 (i mod 64))]> (bitmap pa);
                total_pages := total_pages pa;
                free_pages := free_pages pa -' 1;
                start_addr := start_addr pa |} in
  PageAllocator_wf pa' ∧ takes pa pa' i.
Proof.
  intros Hwf Hi Hw Hbit pa'.
  pose proof (wf_free_bounds pa Hwf) as Hfb. destruct Hwf as [Hlen Hws Htot Hst Hr Hfr].
  assert (∀ j, 0 ≤ j → page_bit (bitmap pa') j =
            if decide (j = i) then true else page_bit (bitmap pa) j) as Hbits.
  { intros j Hj. apply page_bit_set; lia || done. }
  assert (countb (λ j, negb (page_bit (bitmap pa) j)) (seqZ 0 (total_pages pa)) =
          countb (λ j, negb (page_bit (bitmap pa') j)) (seqZ 0 (total_pages pa)) + 1) as Hc.
  { apply (countb_flip _ _ _ i).
    - apply NoDup_seqZ.
    - rewrite elem_of_seqZ. lia.
    - rewrite Hbits by lia. by rewrite decide_True.
    - by rewrite Hbit.
    - intros j Hj Hne. rewrite elem_of_seqZ in Hj. rewrite Hbits by lia.
      by rewrite decide_False. }
  assert (free_pages pa' = free_pages pa - 1) as Hf.
  { simpl. unfold u64, MAX_PAGES, BITMAP_SIZE in *. rewrite Z.mod_small; [done|].
    pose proof (countb_nonneg (λ j, negb (page_bit (bitmap pa') j)) (seqZ 0 (total_pages pa))).
    lia. }
  split.
  - split; simpl; try done.
    + by rewrite length_insert.
    + apply Forall_insert; [done|]. rewrite Forall_lookup in Hws.
      pose proof (Hws _ _ Hw). apply lor_bound; [lia|done|].
      pose proof (Z.mod_pos_bound i 64). rewrite shiftl_1_pow2 by lia.
      split; [by apply Z.pow_nonneg|]. apply Z.pow_lt_mono_r; lia.
    + simpl in Hf, Hc. rewrite Hf, Hfr, Hc. lia.
  - split_and!; done || lia.
Qed.

Lemma alloc_scan_spec pa idxs :
  PageAllocator_wf pa → (∀ i, i ∈ idxs → 0 ≤ i < total_pages pa) →
  wp (alloc_scan idxs) (λ r pa', PageAllocator_wf pa' ∧
    match r with
    | None => pa' = pa ∧ ∀ i, i ∈ idxs → page_bit (bitmap pa) i = true
    | Some a => ∃ i before after, idxs = before ++ i :: after ∧ a = page_addr pa i ∧
        takes pa pa' i ∧ (∀ j, j ∈ before → page_bit (bitmap pa) j = true)
    end) pa.
Proof.
  intros Hwf. induction idxs as [|i idxs IH]; intros His; unfold wp; simpl.
  { split; [done|]. split; [done|]. set_solver. }
  assert (0 ≤ i < total_pages pa) as Hi by (apply His; set_solver).
  destruct (word_exists pa i Hwf Hi) as (w & Hw & Hu & Hbit). rewrite Hw.
  pose proof (Z.mod_pos_bound i 64). rewrite land_bit_eqb by lia.
  rewrite Hbit. destruct (page_bit (bitmap pa) i) eqn:E; simpl.
  - assert (∀ j, j ∈ idxs → 0 ≤ j < total_pages pa) as His' by set_solver.
    specialize (IH His'). unfold wp in IH.
    destruct (alloc_scan idxs pa) as [[[a|] pa']| |]; [|destruct IH as (?&?&IH)|done..].
    + destruct IH as (? & k & before & after & -> & ? & ? & Hb).
      split; [done|]. exists k, (i :: before), after. split_and!; try done. set_solver.
    + split_and!; try done. set_solver.
  - destruct (take_wf pa i w Hwf Hi Hw E) as [Hwf' Htk].
    split; [done|]. exists i, [], idxs. rewrite page_addr_wrap by done.
    split_and!; try done. set_solver.
Qed.
End facts.

Section specs.
Implicit Types (pa : PageAllocator) (a : Z).

(** [alloc] on a well-formed allocator: the lowest free page, or [None] exactly
    when every page is handed out. *)
Lemma PageAllocator_alloc_wp pa :
  PageAllocator_wf pa →
  wp PageAllocator_alloc (λ r pa', PageAllocator_wf pa' ∧
    match r with
    | None => pa' = pa ∧ free_pages pa = 0
    | Some a => ∃ i, a = page_addr pa i ∧ takes pa pa' i ∧
                     ∀ j, 0 ≤ j < i → page_bit (bitmap pa) j = true
    end) pa.
Proof.
  intros Hwf. unfold PageAllocator_alloc.
  destruct (free_pages pa =? 0) eqn:E.
  { unfold wp. rewrite E. apply Z.eqb_eq in E. done. }
  enough (wp (alloc_scan (seqZ 0 (total_pages pa))) (λ r pa', PageAllocator_wf pa' ∧
    match r with
    | None => pa' = pa ∧ free_pages pa = 0
    | Some a => ∃ i, a = page_addr pa i ∧ takes pa pa' i ∧
                     ∀ j, 0 ≤ j < i → page_bit (bitmap pa) j = true
    end) pa) as Hwp by (unfold wp in *; by rewrite E).
  apply Z.eqb_neq in E.
  eapply wp_mono; [apply alloc_scan_spec; [done|intros i; rewrite elem_of_seqZ; lia]|].
  intros r pa' [Hwf' H].
  split; [done|]. destruct r as [a|].
  - destruct H as (i & before & after & Heq & Ha & Htk & Hb).
    exists i. split_and!; [done..|]. intros j Hj.
    apply Hb. destruct Htk as [Hi _].
    assert (length before = Z.to_nat i) as Hlen.
    { assert (seqZ 0 (total_pages pa) !! length before = Some i) as Hl
        by (by rewrite Heq, list_lookup_middle).
      apply lookup_seqZ in Hl. lia. }
    assert (seqZ 0 (total_pages pa) !! Z.to_nat j = Some j) as Hl
      by (apply lookup_seqZ; lia).
    rewrite Heq, lookup_app_l in Hl by lia. by eapply list_elem_of_lookup_2.
  - destruct H as [-> Hall]. exfalso. apply E. rewrite (wf_free _ Hwf).
    apply countb_zero. intros j Hj. by rewrite Hall.
Qed.

(** Which page an address belongs to. *)
Definition page_index pa a : Z := (a - start_addr pa) / PAGE_SIZE.
Definition in_range pa a : Prop :=
  start_addr pa ≤ a < start_addr pa + total_pages pa * PAGE_SIZE.
#[export] Instance in_range_dec pa a : Decision (in_range pa a).
Proof. unfold in_range. apply _. Defined.

(** [free] returns page [i] and leaves every other page alone. *)
Definition gives pa pa' (i : Z) : Prop :=
  (∀ j, 0 ≤ j → page_bit (bitmap pa') j = if decide (j = i) then false else page_bit (bitmap pa) j) ∧
  total_pages pa' = total_pages pa ∧ start_addr pa' = start_addr pa ∧
  free_pages pa' = free_pages pa + (if page_bit (bitmap pa) i then 1 else 0).

Lemma page_index_range pa a :
  in_range pa a → 0 ≤ page_index pa a < total_pages pa.
Proof.
  unfold in_range, page_index, PAGE_SIZE. intros H. split.
  - apply Z.div_pos; lia.
  - apply Z.div_lt_upper_bound; lia.
Qed.
Lemma page_index_addr pa i : page_index pa (page_addr pa i) = i.
Proof.
  unfold page_index, page_addr, PAGE_SIZE.
  rewrite Z.add_simpl_l. apply Z.div_mul. lia.
Qed.

Lemma free_range_test pa a :
  PageAllocator_wf pa → is_u64 a →
  (a <? start_addr pa) || (start_addr pa +' total_pages pa *' PAGE_SIZE <=? a)
  = bool_decide (¬ in_range pa a).
Proof.
  intros [_ _ Htot [Hs _] Hr _] Ha. unfold in_range, u64, is_u64 in *.
  unfold MAX_PAGES, BITMAP_SIZE, PAGE_SIZE in *.
  rewrite (Z.mod_small (total_pages pa * 4096)) by lia. rewrite Z.mod_small by lia.
  case_bool_decide; lia.
Qed.

Lemma give_wf pa i w :
  PageAllocator_wf pa → 0 ≤ i < total_pages pa → is_u64 w →
  bitmap pa !! Z.to_nat (i / 64) = Some w → page_bit (bitmap pa) i = true →
  let pa' := {| bitmap := <[Z.to_nat (i / 64) := Z.land w (not64 (Z.shiftl 1 (i mod 64)))]>
                            (bitmap pa);
                total_pages := total_pages pa;
                free_pages := free_pages pa +' 1;
                start_addr := start_addr pa |} in
  PageAllocator_wf pa' ∧ gives pa pa' i.
Proof.
  intros Hwf Hi Hu Hw Hbit pa'.
  pose proof (wf_free_bounds pa Hwf) as Hfb. destruct Hwf as [Hlen Hws Htot Hst Hr Hfr].
  assert (∀ j, 0 ≤ j → page_bit (bitmap pa') j =
            if decide (j = i) then false else page_bit (bitmap pa) j) as Hbits.
  { intros j Hj. apply page_bit_clear; lia || done. }
  assert (countb (λ j, negb (page_bit (bitmap pa') j)) (seqZ 0 (total_pages pa)) =
          countb (λ j, negb (page_bit (bitmap pa) j)) (seqZ 0 (total_pages pa)) + 1) as Hc.
  { apply (countb_flip _ _ _ i).
    - apply NoDup_seqZ.
    - rewrite elem_of_seqZ. lia.
    - by rewrite Hbit.
    - rewrite Hbits by lia. by rewrite decide_True.
    - intros j Hj Hne. rewrite elem_of_seqZ in Hj. rewrite Hbits by lia.
      by rewrite decide_False. }
  assert (free_pages pa' = free_pages pa + 1) as Hf.
  { simpl. unfold u64, MAX_PAGES, BITMAP_SIZE in *. rewrite Z.mod_small; lia. }
  split.
  - split; simpl; try done.
    + by rewrite length_insert.
    + apply Forall_insert; [done|]. by apply land_bound.
    + simpl in Hf, Hc. rewrite Hf, Hfr, Hc. lia.
  - rewrite Hbit || idtac. split_and!; try done. by rewrite Hbit.
Qed.

Lemma PageAllocator_free_wp pa a :
  PageAllocator_wf pa → is_u64 a →
  wp (PageAllocator_free a) (λ _ pa', PageAllocator_wf pa' ∧
    if decide (in_range pa a) then gives pa pa' (page_index pa a) else pa' = pa) pa.
Proof.
  intros Hwf Ha. unfold wp, PageAllocator_free. rewrite free_range_test by done.
  case_bool_decide as Hr; case_decide; try done.
  assert ((a -' start_addr pa) / PAGE_SIZE = page_index pa a) as ->.
  { unfold page_index, u64. unfold in_range, is_u64 in *. destruct (wf_start _ Hwf).
    rewrite Z.mod_small by lia. done. }
  pose proof (page_index_range pa a) as Hi. specialize (Hi ltac:(done)).
  set (i := page_index pa a) in *.
  destruct (word_exists pa i Hwf Hi) as (w & Hw & Hu & Hbit). rewrite Hw.
  pose proof (Z.mod_pos_bound i 64). rewrite land_bit_eqb, Hbit, negb_involutive by lia.
  destruct (page_bit (bitmap pa) i) eqn:E.
  - by apply give_wf.
  - split; [done|]. split_and!; try done.
    + intros j Hj. case_decide; congruence.
    + rewrite E. lia.
Qed.

Lemma PageAllocator_new_wf start total :
  page_aligned start → 0 ≤ total → start + MAX_PAGES * PAGE_SIZE < 2 ^ 56 →
  PageAllocator_wf (PageAllocator_new start total).
Proof.
  intros Hs Ht Hr. unfold PageAllocator_new.
  split; cbn [bitmap total_pages free_pages start_addr]; try done.
  - by apply Forall_replicate.
  - unfold MAX_PAGES, BITMAP_SIZE. lia.
  - rewrite (countb_ext _ (λ _, true)).
    + assert (∀ l : list Z, countb (λ _, true) l = Z.of_nat (length l)) as ->
        by (intros l; induction l; simpl; lia).
      rewrite length_seqZ. unfold MAX_PAGES, BITMAP_SIZE. lia.
    + intros i _. unfold page_bit.
      destruct (replicate _ _ !! _) eqn:E; [|by rewrite Z.bits_0].
      apply lookup_replicate in E as [-> _]. by rewrite Z.bits_0.
Qed.
End specs.

Create HintDb page.
#[export] Hint Resolve PageAllocator_alloc_wp PageAllocator_free_wp PageAllocator_new_wf : page.

(** ** Refinement to a set of free pages

    A client sees the allocator as a set of free page numbers: [alloc] takes the
    least one, [free] puts back the page that contains the address. *)

Inductive page_op : Type :=
  | OpAlloc
  | OpFree (addr : Z).

Definition run_op (op : page_op) : st PageAllocator (option Z) :=
  match op with
  | OpAlloc => PageAllocator_alloc
  | OpFree a => _ ← PageAllocator_free a; mret None
  end.
Fixpoint run_ops (ops : list page_op) : st PageAllocator (list (option Z)) :=
  match ops with
  | [] => mret []
  | op :: ops => r ← run_op op; rs ← run_ops ops; mret (r :: rs)
  end.

Definition op_ok (op : page_op) : Prop :=
  match op with OpAlloc => True | OpFree a => is_u64 a end.

Definition free_set (pa : PageAllocator) : gset Z :=
  list_to_set (filter (λ i, page_bit (bitmap pa) i = false) (seqZ 0 (total_pages pa))).

Section spec.
Variables start total : Z.

Inductive spec_op : gset Z → page_op → option Z → gset Z → Prop :=
  | spec_alloc_some F i :
      i ∈ F → (∀ j, j ∈ F → i ≤ j) →
      spec_op F OpAlloc (Some (start + i * PAGE_SIZE)) (F ∖ {[i]})
  | spec_alloc_none : spec_op ∅ OpAlloc None ∅
  | spec_free_in F a :
      start ≤ a < start + total * PAGE_SIZE →
      spec_op F (OpFree a) None ({[(a - start) / PAGE_SIZE]} ∪ F)
  | spec_free_out F a :
      ¬ start ≤ a < start + total * PAGE_SIZE → spec_op F (OpFree a) None F.

Inductive spec_run : gset Z → list page_op → list (option Z) → gset Z → Prop :=
  | spec_run_nil F : spec_run F [] [] F
  | spec_run_cons F F' F'' op ops r rs :
      spec_op F op r F' → spec_run F' ops rs F'' →
      spec_run F (op :: ops) (r :: rs) F''.
End spec.

Lemma elem_of_free_set pa i :
  i ∈ free_set pa ↔ 0 ≤ i < total_pages pa ∧ page_bit (bitmap pa) i = false.
Proof.
  unfold free_set. rewrite elem_of_list_to_set, list_elem_of_filter, elem_of_seqZ.
  naive_solver lia.
Qed.

Lemma free_set_takes pa pa' i :
  takes pa pa' i → free_set pa' = free_set pa ∖ {[i]}.
Proof.
  intros (Hi & Hb & Hbits & Ht & _). apply set_eq. intros j.
  rewrite elem_of_difference, !elem_of_free_set, elem_of_singleton, Ht.
  split; [intros [? H]|intros [[? H] ?]].
  - rewrite Hbits in H by lia. case_decide; naive_solver.
  - rewrite Hbits by lia. case_decide; naive_solver.
Qed.
Lemma free_set_gives pa pa' i :
  0 ≤ i < total_pages pa → gives pa pa' i → free_set pa' = {[i]} ∪ free_set pa.
Proof.
  intros Hi (Hbits & Ht & _). apply set_eq. intros j.
  rewrite elem_of_union, !elem_of_free_set, elem_of_singleton, Ht.
  split; [intros [? H]|intros [->|[? H]]].
  - rewrite Hbits in H by lia. case_decide; naive_solver.
  - rewrite Hbits by lia. by rewrite decide_True.
  - rewrite Hbits by lia. by case_decide.
Qed.

Lemma free_set_empty pa : PageAllocator_wf pa → free_pages pa = 0 → free_set pa = ∅.
Proof.
  intros Hwf H0. apply set_eq. intros j. rewrite elem_of_free_set.
  rewrite (wf_free _ Hwf), countb_zero in H0. split; [|set_solver].
  intros [Hj Hb]. specialize (H0 j). rewrite elem_of_seqZ, Hb in H0.
  discriminate H0. lia.
Qed.

Lemma run_op_wp pa op :
  PageAllocator_wf pa → op_ok op →
  wp (run_op op) (λ r pa', PageAllocator_wf pa' ∧
    total_pages pa' = total_pages pa ∧ start_addr pa' = start_addr pa ∧
    spec_op (start_addr pa) (total_pages pa) (free_set pa) op r (free_set pa')) pa.
Proof.
  intros Hwf Hop. destruct op as [|a].
  - eapply wp_mono; [by apply PageAllocator_alloc_wp|].
    intros [a|] pa' [Hwf' H].
    + destruct H as (i & -> & Htk & Hleast). split; [done|].
      rewrite (free_set_takes _ _ _ Htk). destruct Htk as (Hi & Hb & _ & Ht & Hs & _).
      split_and!; [done..|]. apply spec_alloc_some; [by apply elem_of_free_set|].
      intros j. rewrite elem_of_free_set. intros [Hj Hbj].
      destruct (decide (j < i)); [|lia]. rewrite Hleast in Hbj by lia. done.
    + destruct H as [-> H0]. rewrite free_set_empty by done.
      split_and!; [done..|]. constructor.
  - apply wp_bind. eapply wp_mono; [by apply PageAllocator_free_wp|].
    intros [] pa' [Hwf' H]. apply wp_ret. split; [done|]. case_decide as Hr.
    + pose proof (page_index_range _ _ Hr). rewrite (free_set_gives pa pa' _) by done.
      destruct H as (_ & Ht & Hs & _). split_and!; [done..|]. by apply spec_free_in.
    + subst. split_and!; [done..|]. by apply spec_free_out.
Qed.

Lemma run_ops_wp pa ops :
  PageAllocator_wf pa → Forall op_ok ops →
  wp (run_ops ops) (λ rs pa', PageAllocator_wf pa' ∧
    total_pages pa' = total_pages pa ∧ start_addr pa' = start_addr pa ∧
    spec_run (start_addr pa) (total_pages pa) (free_set pa) ops rs (free_set pa')) pa.
Proof.
  intros Hwf Hops. revert pa Hwf. induction Hops as [|op ops Hop _ IH]; intros pa Hwf.
  { apply wp_ret. split_and!; [done..|]. constructor. }
  simpl. apply wp_bind. eapply wp_mono; [by apply run_op_wp|].
  intros r pa' (Hwf' & Ht & Hs & Hspec). apply wp_bind.
  eapply wp_mono; [by apply IH|]. intros rs pa'' (Hwf'' & Ht' & Hs' & Hrun).
  apply wp_ret. split_and!; [done|congruence..|].
  econstructor; [done|]. by rewrite <- Ht, <- Hs.
Qed.

Lemma size_free_set pa : PageAllocator_wf pa → free_pages pa = Z.of_nat (size (free_set pa)).
Proof.
  intros Hwf. rewrite (wf_free _ Hwf). unfold free_set.
  assert (∀ l : list Z, NoDup l →
    countb (λ i, negb (page_bit (bitmap pa) i)) l =
    Z.of_nat (size (list_to_set (filter (λ i, page_bit (bitmap pa) i = false) l) : gset Z)))
    as H; [|apply H, NoDup_seqZ].
  intros l Hl. rewrite size_list_to_set by by apply NoDup_filter.
  clear Hl. induction l as [|x l IH]; simpl; [done|]. rewrite filter_cons, IH.
  destruct (page_bit (bitmap pa) x); simpl; lia.
Qed.

(** [C1] The page allocator refines a set of free pages.  Started from any
    well-formed allocator, every sequence of [alloc] and [free] calls (with any
    addresses, also foreign, unaligned or already free ones) returns without a
    panic or a wrapped counter, its results are those of the specification that
    hands out the least free page and puts freed pages back, the allocator stays
    well-formed, and [free_pages] is the size of the free set. *)
Theorem page_allocator_refines_free_set pa ops :
  PageAllocator_wf pa → Forall op_ok ops →
  ∃ rs pa', run_ops ops pa = Done (rs, pa') ∧ PageAllocator_wf pa' ∧
    spec_run (start_addr pa) (total_pages pa) (free_set pa) ops rs (free_set pa') ∧
    free_pages pa' = Z.of_nat (size (free_set pa')).
Proof.
  intros Hwf Hops. pose proof (run_ops_wp pa ops Hwf Hops) as H.
  apply wp_Done in H as (rs & pa' & Hrun & Hwf' & _ & _ & Hspec).
  exists rs, pa'. eauto using size_free_set.
Qed.

Lemma page_allocator_refines_free_set_witness :
  ∃ rs pa', run_ops [OpAlloc; OpAlloc; OpFree 0x80300123; OpAlloc]
              (PageAllocator_new 0x80300000 3) = Done (rs, pa') ∧
    rs = [Some 0x80300000; Some 0x80301000; None; Some 0x80300000].
Proof.
  destruct (page_allocator_refines_free_set (PageAllocator_new 0x80300000 3)
    [OpAlloc; OpAlloc; OpFree 0x80300123; OpAlloc]) as (rs & pa' & Hrun & _).
  - apply PageAllocator_new_wf; vm_compute; (split; congruence) || congruence.
  - repeat constructor; vm_compute; congruence.
  - exists rs, pa'. split; [exact Hrun|].
    vm_compute in Hrun. congruence.
Defined.

(** No page is handed out twice: if two [alloc] calls in a run return the
    same address, some [free] between them named an address inside that page. *)
Theorem no_double_allocation pa ops rs pa' a :
  PageAllocator_wf pa → Forall op_ok ops →
  run_ops (OpAlloc :: ops ++ [OpAlloc]) pa = Done (Some a :: rs ++ [Some a], pa') →
  length rs = length ops →
  ∃ b, OpFree b ∈ ops ∧ a ≤ b < a + PAGE_SIZE.
Proof.
  intros Hwf Hops Hrun Hlen.
  pose proof (run_ops_wp pa (OpAlloc :: ops ++ [OpAlloc]) Hwf) as H.
  unfold wp in H. rewrite Hrun in H.
  destruct H as (_ & _ & _ & Hspec).
  { constructor; [done|]. apply Forall_app. split; [done|]. by repeat constructor. }
  inversion Hspec as [|? F' ? ? ? ? ? Hop Hrest]; subst; clear Hspec.
  inversion Hop as [? i Hi Hleast| | |]; subst; clear Hop.
  assert (i ∉ free_set pa ∖ {[i]}) as Hni by set_solver. revert Hni Hrest.
  generalize (free_set pa ∖ {[i]}) as F. generalize (free_set pa') as F'. clear -Hlen Hwf.
  revert rs Hlen. induction ops as [|op ops IH]; intros [|r rs] Hlen F' F Hni Hrest; try done.
  - simpl in Hrest. inversion Hrest as [|? ? ? ? ? ? ? Hop Hnil]; subst.
    inversion Hop as [? k Hk| | |]; subst.
    assert (k = i) as -> by (unfold PAGE_SIZE in *; lia). done.
  - simpl in *. inversion Hrest as [|? F1 ? ? ? ? ? Hop Hrest']; subst.
    destruct (decide (i ∈ F1)) as [HF1|HF1].
    + inversion Hop; subst; [set_solver..| |set_solver].
      assert (i = (a - start_addr pa) / PAGE_SIZE) as Ei by set_solver.
      exists a. split; [set_solver|]. unfold PAGE_SIZE in *.
      pose proof (Z.div_mod (a - start_addr pa) 4096).
      pose proof (Z.mod_pos_bound (a - start_addr pa) 4096). lia.
    + destruct (IH rs ltac:(lia) F' F1 HF1 Hrest') as (b & Hb & Hr).
      exists b. split; [set_solver|done].
Qed.

Lemma no_double_allocation_witness :
  ∃ b, OpFree b ∈ [OpAlloc; OpFree 0x80300008] ∧ 0x80300000 ≤ b < 0x80300000 + PAGE_SIZE.
Proof.
  refine (no_double_allocation (PageAllocator_new 0x80300000 3)
    [OpAlloc; OpFree 0x80300008] [Some 0x80301000; None] _ 0x80300000 _ _ _ _).
  - apply PageAllocator_new_wf; vm_compute; (split; congruence) || congruence.
  - repeat constructor; vm_compute; congruence.
  - vm_compute. reflexivity.
  - reflexivity.
Defined.
