(* ===== verification/Memory.v ===== *)
(** Physical memory as the kernel reads and writes it through raw pointers: a map
    from 8-byte-aligned addresses to 64-bit words (RV64 is little-endian), absent
    words reading as 0.  Page tables and trap frames are accessed by words, user
    buffers by bytes; both views are over the same words, so a byte written into a
    page-table page is visible to the page walk. *)

From S2P Require Import Prelude Arch.

Abbreviation memory := (gmap Z Z).

(** [*(a as *const usize)] and [*(a as *mut usize) = v], [a] 8-byte aligned. *)
Definition load64 (m : memory) (a : Z) : Z := default 0 (m !! a).
Definition store64 (m : memory) (a v : Z) : memory := <[a := v]> m.

(** [*(a as *const u8)] and [*(a as *mut u8) = v]. *)
Definition align8 (a : Z) : Z := a - a mod 8.
Definition load8 (m : memory) (a : Z) : Z :=
  Z.land (Z.shiftr (load64 m (align8 a)) (8 * (a mod 8))) 255.
Definition store8 (m : memory) (a v : Z) : memory :=
  let sh := 8 * (a mod 8) in
  let w := load64 m (align8 a) in
  store64 m (align8 a)
    (Z.lor (Z.land w (not64 (Z.shiftl 255 sh))) (Z.shiftl (Z.land v 255) sh)).

(** [n] consecutive words from [a]. *)
Definition load_words (m : memory) (a n : Z) : list Z :=
  (λ k, load64 m (a + 8 * k)) <$> seqZ 0 n.
Fixpoint store_words (m : memory) (a : Z) (ws : list Z) : memory :=
  match ws with
  | [] => m
  | w :: ws => store_words (store64 m a w) (a + 8) ws
  end.

(** [write_bytes(page, 0, PAGE_SIZE)] and [entries = [0; 512]]. *)
Definition zero_page (m : memory) (page : Z) : memory :=
  store_words m page (replicate 512 0).
(** [copy_nonoverlapping(src, dst, PAGE_SIZE)]. *)
Definition copy_page (m : memory) (src dst : Z) : memory :=
  store_words m dst (load_words m src 512).

Section facts.
Implicit Types (m : memory) (a b v : Z).

Lemma load64_store64_eq m a v : load64 (store64 m a v) a = v.
Proof. unfold load64, store64. by rewrite lookup_insert_eq. Qed.
Lemma load64_store64_ne m a b v : a ≠ b → load64 (store64 m a v) b = load64 m b.
Proof. intros. unfold load64, store64. by rewrite lookup_insert_ne. Qed.
Lemma load64_store64 m a b v :
  load64 (store64 m a v) b = if decide (a = b) then v else load64 m b.
Proof.
  case_decide; [subst; apply load64_store64_eq|by apply load64_store64_ne].
Qed.

(** A word store hits [b] exactly when [b] is one of its words. *)
Lemma load64_store_words_out m a ws b :
  (∀ k, 0 ≤ k < Z.of_nat (length ws) → b ≠ a + 8 * k) →
  load64 (store_words m a ws) b = load64 m b.
Proof.
  revert m a. induction ws as [|w ws IH]; intros m a Hb; simpl; [done|].
  rewrite IH.
  - apply load64_store64_ne. specialize (Hb 0). simpl in Hb. lia.
  - intros k Hk. specialize (Hb (k + 1)). simpl in Hb. lia.
Qed.
Lemma load64_store_words_in m a ws k w :
  0 ≤ k → ws !! Z.to_nat k = Some w →
  load64 (store_words m a ws) (a + 8 * k) = w.
Proof.
  revert m a k. induction ws as [|x ws IH]; intros m a k Hk Hw; [done|]. simpl.
  destruct (decide (k = 0)) as [->|].
  - simplify_eq/=. rewrite load64_store_words_out by lia.
    replace (a + 8 * 0) with a by lia. apply load64_store64_eq.
  - replace (a + 8 * k) with (a + 8 + 8 * (k - 1)) by lia.
    apply IH; [lia|]. replace (Z.to_nat k) with (S (Z.to_nat (k - 1))) in Hw by lia.
    exact Hw.
Qed.
Lemma length_load_words m a n : length (load_words m a n) = Z.to_nat n.
Proof. unfold load_words. by rewrite length_fmap, length_seqZ. Qed.
Lemma lookup_load_words m a n k :
  0 ≤ k < n → load_words m a n !! Z.to_nat k = Some (load64 m (a + 8 * k)).
Proof.
  intros Hk. unfold load_words. rewrite list_lookup_fmap, lookup_seqZ_lt by lia.
  simpl. repeat f_equal. lia.
Qed.

(** Loads from the page at [p], and from any other page, after [p] was written. *)
Definition in_page (p a : Z) : Prop := p ≤ a < p + PAGE_SIZE.

Lemma load64_zero_page m p k :
  0 ≤ k < 512 → load64 (zero_page m p) (p + 8 * k) = 0.
Proof.
  intros Hk. unfold zero_page. apply load64_store_words_in; [lia|].
  apply lookup_replicate. lia.
Qed.
Lemma load64_zero_page_out m p a : ¬ in_page p a → load64 (zero_page m p) a = load64 m a.
Proof.
  intros Ha. unfold zero_page. apply load64_store_words_out. rewrite length_replicate.
  intros k Hk ->. apply Ha. unfold in_page, PAGE_SIZE. lia.
Qed.
Lemma load64_copy_page m src dst k :
  0 ≤ k < 512 → load64 (copy_page m src dst) (dst + 8 * k) = load64 m (src + 8 * k).
Proof.
  intros Hk. unfold copy_page. apply load64_store_words_in; [lia|].
  by apply lookup_load_words.
Qed.
Lemma load64_copy_page_out m src dst a :
  ¬ in_page dst a → load64 (copy_page m src dst) a = load64 m a.
Proof.
  intros Ha. unfold copy_page. apply load64_store_words_out. rewrite length_load_words.
  intros k Hk ->. apply Ha. unfold in_page, PAGE_SIZE. lia.
Qed.

(** Bytes: reading back what was written, and nothing else changes. *)
Lemma testbit_255 n : 0 ≤ n → Z.testbit 255 n = bool_decide (n < 8).
Proof.
  intros Hn. change 255 with (Z.ones 8). case_bool_decide.
  - by apply Z.ones_spec_low.
  - apply Z.ones_spec_high. lia.
Qed.
Lemma testbit_not64 x n : 0 ≤ n < 64 → Z.testbit (not64 x) n = negb (Z.testbit x n).
Proof.
  intros Hn. unfold not64. rewrite usize_max_ones, Z.lxor_spec, Z.ones_spec_low by lia.
  apply xorb_true_r.
Qed.
Lemma load8_store8_eq m a v : load8 (store8 m a v) a = Z.land v 255.
Proof.
  unfold load8, store8. rewrite load64_store64_eq.
  pose proof (Z.mod_pos_bound a 8 ltac:(lia)) as Hr.
  apply Z.bits_inj'. intros n Hn.
  rewrite Z.land_spec, Z.shiftr_spec, Z.lor_spec, Z.land_spec by lia.
  rewrite Z.shiftl_spec, Z.land_spec by lia.
  replace (n + 8 * (a mod 8) - 8 * (a mod 8)) with n by lia.
  rewrite Z.land_spec, (testbit_255 n) by lia.
  case_bool_decide; [|by rewrite !andb_false_r].
  rewrite testbit_not64, Z.shiftl_spec by lia.
  replace (n + 8 * (a mod 8) - 8 * (a mod 8)) with n by lia.
  rewrite testbit_255 by lia. rewrite bool_decide_true by done.
  by rewrite andb_false_r, !andb_true_r.
Qed.
Lemma align8_inj a b : align8 a = align8 b → a mod 8 = b mod 8 → a = b.
Proof. unfold align8. lia. Qed.
Lemma load8_store8_ne m a b v : a ≠ b → load8 (store8 m a v) b = load8 m b.
Proof.
  intros Hne. unfold load8, store8. rewrite load64_store64. case_decide as E; [|done].
  assert (a mod 8 ≠ b mod 8) as Hmod by (intros ?; eauto using align8_inj).
  pose proof (Z.mod_pos_bound a 8 ltac:(lia)) as Hr.
  pose proof (Z.mod_pos_bound b 8 ltac:(lia)) as Hr'.
  rewrite E. apply Z.bits_inj'. intros n Hn.
  rewrite !Z.land_spec, !Z.shiftr_spec, Z.lor_spec, Z.land_spec by lia.
  rewrite (testbit_255 n) by lia. case_bool_decide; [|by rewrite !andb_false_r].
  rewrite !andb_true_r. rewrite testbit_not64, !Z.shiftl_spec, Z.land_spec by lia.
  set (d := n + 8 * (b mod 8) - 8 * (a mod 8)).
  destruct (decide (0 ≤ d)).
  - rewrite testbit_255 by done. rewrite bool_decide_false by lia.
    by rewrite andb_false_r, orb_false_r, andb_true_r.
  - rewrite !(Z.testbit_neg_r _ d) by lia. by rewrite orb_false_r, andb_true_r.
Qed.
Lemma load8_byte m a : Z.land (load8 m a) 255 = load8 m a.
Proof. unfold load8. by rewrite <- Z.land_assoc. Qed.
(** A byte store changes no word but its own. *)
Lemma load64_store8_ne m a b v : align8 a ≠ b → load64 (store8 m a v) b = load64 m b.
Proof. intros. unfold store8. by apply load64_store64_ne. Qed.
(** Bytes of a page. *)
Lemma align8_in_page p a : page_aligned p → in_page p a → in_page p (align8 a).
Proof.
  intros [Hp Hm] Ha. unfold align8, in_page, PAGE_SIZE in *. pose proof (Z.mod_pos_bound a 8).
  split; [|lia]. pose proof (Z.div_mod a 8). pose proof (Z.div_mod p 4096). lia.
Qed.
Lemma load8_page m m' p o :
  page_aligned p → 0 ≤ o < PAGE_SIZE → (∀ a, in_page p a → load64 m' a = load64 m a) →
  load8 m' (p + o) = load8 m (p + o).
Proof.
  intros Hp Ho H. unfold load8. rewrite H; [done|].
  apply align8_in_page; [done|]. unfold in_page. lia.
Qed.
End facts.

Create Rewrite HintDb mem.
#[export] Hint Rewrite @load64_store64_eq @load8_store8_eq : mem.

(** The views above are used through their lemmas only ([vm_compute] still runs
    the definitions). *)
#[global] Opaque load64 store64 load8 store8 load_words store_words zero_page copy_page.
