(* ===== verification/Machine.v ===== *)
(** The machine the kernel runs on: physical memory and the kernel's global
    variables below the task manager, with the monad [M] of computations over them.
    [page_alloc] and [page_free] are [page::alloc] and [page::free] on the global
    allocator; [plic_enable] and the rest of [src/src/drivers/plic.rs] act on the
    interrupt controller's 32-bit registers; the CSR functions are those of
    [src/src/arch/riscv/csr.rs] and the firmware calls those of [sbi.rs]. *)

From S2P Require Import Prelude Arch Page Memory.

Record mach : Type := mkMach {
  mem : memory;
  PAGE_ALLOCATOR : option PageAllocator;
  (** The address of the kernel's root page table. *)
  KERNEL_PAGETABLE : option Z;
  (** PLIC registers, by address. *)
  plic : gmap Z Z;
  (** Control and status registers, by number. *)
  csrs : gmap Z Z;
  (** The firmware calls made so far, the last one first: [(eid, fid, arg0)]. *)
  sbi_calls : list (Z * Z * Z);
  (** The pages [page::alloc] has handed out so far, the last one first (a page that was freed
      and handed out again is in the list twice).  The code keeps no such list: it says which
      pages a run takes, so that [Kernel.paged] can tell whether the kernel can reach them. *)
  taken : list Z;
}.

Definition set_mem (f : memory → memory) (s : mach) : mach :=
  mkMach (f (mem s)) (PAGE_ALLOCATOR s) (KERNEL_PAGETABLE s) (plic s) (csrs s) (sbi_calls s) (taken s).
Definition set_pages (p : option PageAllocator) (s : mach) : mach :=
  mkMach (mem s) p (KERNEL_PAGETABLE s) (plic s) (csrs s) (sbi_calls s) (taken s).
Definition set_kernel_pagetable (p : option Z) (s : mach) : mach :=
  mkMach (mem s) (PAGE_ALLOCATOR s) p (plic s) (csrs s) (sbi_calls s) (taken s).
Definition set_csrs (f : gmap Z Z → gmap Z Z) (s : mach) : mach :=
  mkMach (mem s) (PAGE_ALLOCATOR s) (KERNEL_PAGETABLE s) (plic s) (f (csrs s)) (sbi_calls s) (taken s).

Abbreviation M := (st mach).

Definition load (a : Z) : M Z := gets (λ s, load64 (mem s) a).
Definition store (a v : Z) : M unit := modify (set_mem (λ m, store64 m a v)).

(** The allocator as it is after [page::alloc] answered [r]. *)
Definition hand_out (pa : PageAllocator) (r : option Z) (s : mach) : mach :=
  mkMach (mem s) (Some pa) (KERNEL_PAGETABLE s) (plic s) (csrs s) (sbi_calls s)
    (match r with Some a => a :: taken s | None => taken s end).
(** [PAGE_ALLOCATOR.lock().as_mut()?.alloc()]. *)
Definition page_alloc : M (option Z) := λ s,
  match PAGE_ALLOCATOR s with
  | None => Done (None, s)
  | Some pa =>
      match PageAllocator_alloc pa with
      | Done (r, pa') => Done (r, hand_out pa' r s)
      | Panic => Panic
      | Diverge => Diverge
      end
  end.
Definition page_free (addr : Z) : M unit := λ s,
  match PAGE_ALLOCATOR s with
  | None => Done (tt, s)
  | Some pa =>
      match PageAllocator_free addr pa with
      | Done (_, pa') => Done (tt, set_pages (Some pa') s)
      | Panic => Panic
      | Diverge => Diverge
      end
  end.

(** ** The interrupt controller *)

Definition PLIC_BASE : Z := 0x0c000000.
Definition PRIORITY_BASE : Z := PLIC_BASE.
Definition SENABLE_BASE : Z := PLIC_BASE + 0x2080.
Definition SCONTEXT_BASE : Z := PLIC_BASE + 0x201000.
Definition UART0_IRQ : Z := 10.

Definition read32 (a : Z) : M Z := gets (λ s, default 0 (plic s !! a)).
Definition write32 (a v : Z) : M unit :=
  modify (λ s, mkMach (mem s) (PAGE_ALLOCATOR s) (KERNEL_PAGETABLE s)
                 (<[a := v]> (plic s)) (csrs s) (sbi_calls s) (taken s)).

Definition plic_init : M unit :=
  _ ← write32 (PRIORITY_BASE + UART0_IRQ * 4) 1;
  _ ← write32 SENABLE_BASE 0;
  write32 SCONTEXT_BASE 0.
Definition plic_enable (irq : Z) : M unit :=
  let register := SENABLE_BASE + irq / 32 * 4 in
  let bit := Z.shiftl 1 (irq mod 32) in
  v ← read32 register;
  write32 register (Z.lor v bit).
Definition plic_disable (irq : Z) : M unit :=
  let register := SENABLE_BASE + irq / 32 * 4 in
  let bit := Z.shiftl 1 (irq mod 32) in
  v ← read32 register;
  write32 register (Z.land v (Z.lxor bit (2 ^ 32 - 1))).

Definition plic_claim : M Z := read32 (SCONTEXT_BASE + 4).
Definition plic_complete (irq : Z) : M unit := write32 (SCONTEXT_BASE + 4) irq.

(** ** Control and status registers *)

Definition read_csr (csr : Z) : M Z := gets (λ s, default 0 (csrs s !! csr)).
Definition write_csr (csr v : Z) : M unit := modify (set_csrs (λ m, <[csr := v]> m)).
Definition set_csr (csr v : Z) : M unit :=
  modify (set_csrs (λ m, <[csr := Z.lor (default 0 (m !! csr)) v]> m)).
Definition clear_csr (csr v : Z) : M unit :=
  modify (set_csrs (λ m, <[csr := Z.land (default 0 (m !! csr)) (not64 v)]> m)).

Definition SSTATUS : Z := 0x100.
Definition SIE : Z := 0x104.
Definition STVEC : Z := 0x105.
Definition SSCRATCH : Z := 0x140.
Definition SEPC : Z := 0x141.
Definition SCAUSE : Z := 0x142.
Definition STVAL : Z := 0x143.
Definition SATP : Z := 0x180.

Definition read_sstatus : M Z := read_csr SSTATUS.
Definition write_sstatus (val : Z) : M unit := write_csr SSTATUS val.
Definition read_stvec : M Z := read_csr STVEC.
Definition write_stvec (val : Z) : M unit := write_csr STVEC val.
Definition read_sscratch : M Z := read_csr SSCRATCH.
Definition write_sscratch (val : Z) : M unit := write_csr SSCRATCH val.
Definition read_sepc : M Z := read_csr SEPC.
Definition write_sepc (val : Z) : M unit := write_csr SEPC val.
Definition read_scause : M Z := read_csr SCAUSE.
Definition read_stval : M Z := read_csr STVAL.
Definition read_satp : M Z := read_csr SATP.
Definition write_satp (val : Z) : M unit := write_csr SATP val.
Definition enable_interrupts : M unit := set_csr SSTATUS SSTATUS_SIE.
Definition disable_interrupts : M unit := clear_csr SSTATUS SSTATUS_SIE.
Definition interrupts_enabled : M bool :=
  v ← read_sstatus; mret (negb (Z.land v SSTATUS_SIE =? 0)).

(** ** Firmware calls

    A call is recorded; what the firmware does with it is outside the model. *)

Definition sbi_call (eid fid arg0 : Z) : M unit :=
  modify (λ s, mkMach (mem s) (PAGE_ALLOCATOR s) (KERNEL_PAGETABLE s) (plic s) (csrs s)
                 ((eid, fid, arg0) :: sbi_calls s) (taken s)).
Definition set_timer (stime_value : Z) : M unit := sbi_call 0 0 stime_value.
(** The firmware's answer, where the code looks at it, is an argument. *)
Record SbiResult : Type := mkSbiResult { error : Z; value : Z }.
Definition console_putchar (c : Z) : M unit := sbi_call 1 0 c.
Definition console_getchar (result : SbiResult) : M (option Z) :=
  _ ← sbi_call 2 0 0;
  mret (if 0 <=? error result then Some (u8 (error result)) else None).

(** ** What is handed out *)

(** The allocator is well-formed and does not manage page 0, which stands for "none". *)
Definition pages_wf (s : mach) : Prop :=
  ∃ pa, PAGE_ALLOCATOR s = Some pa ∧ PageAllocator_wf pa ∧ 0 < start_addr pa.
(** [a] is the address of a page handed out by the allocator. *)
Definition is_alloc (s : mach) (a : Z) : Prop :=
  ∃ pa, PAGE_ALLOCATOR s = Some pa ∧ allocated pa a.
Definition free_count (s : mach) : Z :=
  match PAGE_ALLOCATOR s with None => 0 | Some pa => free_pages pa end.
(** The managed addresses. *)
Definition managed (s : mach) (a : Z) : Prop :=
  ∃ pa, PAGE_ALLOCATOR s = Some pa ∧ in_range pa a.

(** Two machines that differ at most in memory and the allocator. *)
Definition same_globals (s s' : mach) : Prop :=
  KERNEL_PAGETABLE s' = KERNEL_PAGETABLE s ∧ plic s' = plic s ∧
  csrs s' = csrs s ∧ sbi_calls s' = sbi_calls s.

Lemma same_globals_refl s : same_globals s s.
Proof. done. Qed.
Lemma same_globals_trans s1 s2 s3 :
  same_globals s1 s2 → same_globals s2 s3 → same_globals s1 s3.
Proof. intros (? & ? & ? & ?) (? & ? & ? & ?). split_and!; congruence. Qed.

Section facts.
Implicit Types s : mach.

Lemma is_alloc_aligned s a : pages_wf s → is_alloc s a → page_aligned a ∧ a + PAGE_SIZE < 2 ^ 56.
Proof.
  intros (pa & E & Hwf & _) (pa' & E' & i & Hi & -> & _). simplify_eq.
  destruct Hwf as [_ _ Ht Hs Hr _]. unfold page_addr. split.
  - apply page_aligned_add; [done|lia].
  - destruct Hs. unfold is_u64, MAX_PAGES, BITMAP_SIZE, PAGE_SIZE in *. lia.
Qed.

Lemma is_alloc_pos s a : pages_wf s → is_alloc s a → 0 < a.
Proof.
  intros (pa & E & _ & Hs) (pa' & E' & i & Hi & -> & _). simplify_eq.
  unfold page_addr, PAGE_SIZE. lia.
Qed.

Lemma page_alloc_wp s :
  pages_wf s →
  wp page_alloc (λ r s',
    pages_wf s' ∧ mem s' = mem s ∧ same_globals s s' ∧
    (∀ b, managed s' b ↔ managed s b) ∧
    match r with
    | None => free_count s = 0 ∧ s' = s
    | Some a => page_aligned a ∧ a + PAGE_SIZE < 2 ^ 56 ∧ managed s a ∧ ¬ is_alloc s a ∧
        (∀ b, is_alloc s' b ↔ b = a ∨ is_alloc s b) ∧
        free_count s' = free_count s - 1 ∧ 0 < free_count s
    end) s.
Proof.
  intros (pa & E & Hwf & Hpos). unfold wp, page_alloc. rewrite E.
  pose proof (PageAllocator_alloc_wp pa Hwf) as H. unfold wp in H.
  destruct (PageAllocator_alloc pa) as [[r pa']| |]; [|done..].
  destruct H as [Hwf' H]. split.
  { exists pa'. split; [done|]. split; [done|].
    destruct r; [destruct H as (i & _ & (_ & _ & _ & _ & -> & _) & _)|destruct H as [-> _]]; done. }
  split; [done|]. split; [done|].
  destruct r as [a|].
  - destruct H as (i & -> & (Hi & Hb & Hbits & Ht & Hs & Hf) & _).
    assert (is_alloc (hand_out pa' (Some (page_addr pa i)) s) (page_addr pa i)) as Hal.
    { exists pa'. split; [done|]. exists i. rewrite Ht, Hbits by lia.
      unfold page_addr. rewrite Hs. rewrite decide_True by done. done. }
    split.
    { intros b. unfold managed, in_range. rewrite E. simpl.
      split; intros (? & ? & ?); simplify_eq; eexists; (split; [done|]);
        rewrite ?Hs, ?Ht in *; done. }
    apply is_alloc_aligned in Hal as [? ?];
      [|exists pa'; split; [done|]; split; [done|]; by rewrite Hs].
    split_and!; try done.
    + exists pa. split; [done|]. unfold in_range, page_addr, PAGE_SIZE. lia.
    + intros (? & ? & j & Hj & Hij & Hbj). simplify_eq.
      assert (i = j) as -> by (unfold page_addr, PAGE_SIZE in *; lia). congruence.
    + intros b. split.
      * intros (p & Hp & j & Hj & -> & Hbj). injection Hp as <-. rewrite Ht in Hj.
        rewrite Hbits in Hbj by lia. unfold page_addr. rewrite Hs.
        case_decide; [subst; by left|right].
        exists pa. split; [done|]. exists j. done.
      * intros [->|(? & ? & j & Hj & -> & Hbj)].
        { exists pa'. split; [done|]. exists i. rewrite Ht, Hbits by lia.
          unfold page_addr. rewrite Hs. rewrite decide_True by done. done. }
        simplify_eq. exists pa'. split; [done|]. exists j.
        rewrite Ht, Hbits by lia. unfold page_addr. rewrite Hs.
        split_and!; try done; lia || (case_decide; done).
    + unfold free_count. by rewrite E.
    + unfold free_count. rewrite E. pose proof (wf_free_bounds _ Hwf).
      destruct (decide (free_pages pa = 0)) as [Hz|]; [|lia].
      rewrite (wf_free _ Hwf) in Hz. rewrite countb_zero in Hz.
      specialize (Hz i). rewrite elem_of_seqZ, Hb in Hz. discriminate Hz. lia.
  - destruct H as [-> Hz].
    assert (hand_out pa None s = s) as -> by (unfold hand_out; rewrite <- E; by destruct s).
    split_and!; try done. unfold free_count. by rewrite E.
Qed.

Lemma page_free_wp s a :
  pages_wf s → is_u64 a →
  wp (page_free a) (λ _ s',
    pages_wf s' ∧ mem s' = mem s ∧ same_globals s s' ∧
    (∀ b, managed s' b ↔ managed s b) ∧
    (∀ b, is_alloc s' b ↔ is_alloc s b ∧ ¬ in_page b a)) s.
Proof.
  intros (pa & E & Hwf & Hpos) Ha. unfold wp, page_free. rewrite E.
  pose proof (PageAllocator_free_wp pa a Hwf Ha) as H. unfold wp in H.
  destruct (PageAllocator_free a pa) as [[r pa']| |]; [|done..].
  destruct H as [Hwf' H]. split.
  { exists pa'. split; [done|]. split; [done|]. case_decide; [|by subst].
    destruct H as (_ & _ & -> & _). done. }
  split; [done|]. split; [done|].
  destruct Hwf as [_ _ Htot [Hsa Hsm] Hr _].
  case_decide as Hin.
  - pose proof (page_index_range _ _ Hin) as Hi.
    destruct H as (Hbits & Ht & Hs & _). split.
    { intros b. unfold managed, in_range. rewrite E. simpl.
      split; intros (? & ? & ?); simplify_eq; eexists; (split; [done|]);
        rewrite ?Hs, ?Ht in *; done. }
    intros b. set (i := page_index pa a) in *.
    assert (∀ j, in_page (page_addr pa j) a ↔ j = i) as Hpage.
    { intros j. unfold in_page, page_addr, i, page_index, PAGE_SIZE.
      pose proof (Z.div_mod (a - start_addr pa) 4096).
      pose proof (Z.mod_pos_bound (a - start_addr pa) 4096). split; [|lia].
      intros. lia. }
    split.
    + intros (p & Hp & j & Hj & -> & Hbj). injection Hp as <-. rewrite Ht in Hj.
      rewrite Hbits in Hbj by lia. case_decide; [done|].
      replace (page_addr pa' j) with (page_addr pa j) by (unfold page_addr; by rewrite Hs).
      rewrite Hpage. split; [|done]. exists pa. split; [done|]. by exists j.
    + intros [(p & Hp' & j & Hj & -> & Hbj) Hp].
      rewrite E in Hp'. injection Hp' as <-. rewrite Hpage in Hp.
      exists pa'. split; [done|]. exists j. rewrite Ht, Hbits by lia.
      unfold page_addr. rewrite Hs. split_and!; (done || lia || by rewrite decide_False).
  - subst. assert (set_pages (Some pa) s = s) as ->
      by (unfold set_pages; rewrite <- E; by destruct s).
    split; [done|]. intros b. split; [|naive_solver]. intros Hb. split; [done|].
    destruct Hb as (? & ? & j & Hj & -> & Hbj). simplify_eq.
    unfold in_page, page_addr, in_range, PAGE_SIZE in *. lia.
Qed.
End facts.

#[export] Hint Resolve page_alloc_wp page_free_wp : page.
