(* ===== verification/Pgtable.v ===== *)
(** Sv39 page tables in physical memory, [src/src/kernel/pgtable.rs].

    A page table is named by the physical address of its root page; [entry_addr pt
    i] is [&pt.entries[i]].  [pgtable_walk] returns the address of the last-level
    entry (Rust's [&mut PageTableEntry]).

    The abstract view of a table is the partial map [pt_lookup] from virtual
    addresses to valid leaf entries.  [pt_wf] says that the root, the level-1 and
    the level-0 tables reachable from it are different pages; [pt_owned] that each
    is a page handed out by the allocator. *)

From S2P Require Import Prelude Arch Page Memory Machine.

Definition entry_addr (pt i : Z) : Z := pt + 8 * i.

(** [PageTable::clear]. *)
Definition PageTable_clear (pt : Z) : M unit := modify (set_mem (λ m, zero_page m pt)).

Definition pgtable_create : M (option Z) :=
  addr ←! page_alloc;
  _ ← PageTable_clear addr;
  mret (Some addr).

Definition pte_to_pa (pte : Z) : Z :=
  Z.shiftl (Z.land (Z.shiftr pte 10) 0x0FFFFFFFFFFF) PAGE_SHIFT.
Definition pa_to_pte (pa flags : Z) : Z :=
  Z.lor (Z.shiftl (Z.shiftr pa PAGE_SHIFT) 10) flags.

(** [(pte & PTE_V) != 0] and [(pte & (PTE_R | PTE_W | PTE_X)) != 0]. *)
Definition pte_valid (pte : Z) : bool := negb (Z.land pte PTE_V =? 0).
Definition pte_leaf (pte : Z) : bool := negb (Z.land pte PTE_RWX =? 0).

(** [free_walk] recurses through the table; [fuel] bounds the depth. *)
Fixpoint free_walk (fuel : nat) (pt : Z) : M unit :=
  match fuel with
  | O => diverge
  | S fuel =>
      foreach (seqZ 0 512) (λ i,
        pte ← load (entry_addr pt i);
        if pte_valid pte then
          let pa := pte_to_pa pte in
          if negb (pte_leaf pte) then
            _ ← free_walk fuel pa;
            page_free pa
          else mret tt
        else mret tt)
  end.

(** Three levels of tables. *)
Definition PT_LEVELS : nat := 3.

Definition pgtable_free (pt : Z) : M unit :=
  _ ← free_walk PT_LEVELS pt;
  page_free pt.

(** [vpn[level]]. *)
Definition vpn (va level : Z) : Z := Z.land (Z.shiftr va (12 + 9 * level)) 0x1FF.

(** The loop over [level] in [(1..3).rev()]. *)
Fixpoint walk_levels (levels : list Z) (current_pt va : Z) (alloc : bool) : M (option Z) :=
  match levels with
  | [] => mret (Some (entry_addr current_pt (vpn va 0)))
  | level :: levels =>
      let idx := vpn va level in
      pte ← load (entry_addr current_pt idx);
      if negb (pte_valid pte) then
        if alloc then
          new_pt ←! pgtable_create;
          _ ← store (entry_addr current_pt idx) (pa_to_pte new_pt PTE_V);
          walk_levels levels new_pt va alloc
        else mret None
      else if pte_leaf pte then mret None
      else walk_levels levels (pte_to_pa pte) va alloc
  end.
Definition pgtable_walk (pt va : Z) (alloc : bool) : M (option Z) :=
  walk_levels [2; 1] pt va alloc.

(** The loop body of [map]: one page. *)
Definition map_page (pt current_va current_pa flags : Z) : M (result unit) :=
  e ←? (o ← pgtable_walk pt current_va true; mret (ok_or o));
  pte ← load e;
  if pte_valid pte then mret Err
  else
    _ ← store e (pa_to_pte current_pa (Z.lor flags PTE_V));
    mret (Ok tt).

Definition pgtable_map (pt va pa size flags : Z) : M (result unit) :=
  if (size =? 0) || negb (va mod PAGE_SIZE =? 0) || negb (pa mod PAGE_SIZE =? 0)
  then mret Err
  else
    try_foreach (seqZ 0 (size / PAGE_SIZE)) (λ i,
      map_page pt (va +' i *' PAGE_SIZE) (pa +' i *' PAGE_SIZE) flags).

Definition set_flags_page (pt va flags : Z) : M (result unit) :=
  e ←? (o ← pgtable_walk pt va false; mret (ok_or o));
  pte ← load e;
  if negb (pte_valid pte) then mret Err
  else
    _ ← store e (pa_to_pte (pte_to_pa pte) (Z.lor flags PTE_V));
    mret (Ok tt).

Definition pgtable_set_flags (pt va size flags : Z) : M (result unit) :=
  if (size =? 0) || negb (va mod PAGE_SIZE =? 0) || negb (size mod PAGE_SIZE =? 0)
  then mret Err
  else
    try_foreach (range_step 0 size PAGE_SIZE) (λ offset,
      set_flags_page pt (va +' offset) flags).

Definition unmap_page (pt current_va : Z) (free_page : bool) : M (result unit) :=
  e ←? (o ← pgtable_walk pt current_va false; mret (ok_or o));
  pte ← load e;
  if negb (pte_valid pte) then mret (Ok tt)
  else
    _ ← (if free_page then page_free (pte_to_pa pte) else mret tt);
    _ ← store e 0;
    mret (Ok tt).

(** [unmap]; the closing TLB flush has no effect on this state. *)
Definition pgtable_unmap (pt va size : Z) (free_page : bool) : M (result unit) :=
  if (size =? 0) || negb (va mod PAGE_SIZE =? 0) then mret Err
  else
    try_foreach (seqZ 0 (size / PAGE_SIZE)) (λ i,
      unmap_page pt (va +' i *' PAGE_SIZE) free_page).

Definition virt_to_phys (pt va : Z) : M (option Z) :=
  e ←! pgtable_walk pt va false;
  pte ← load e;
  if negb (pte_valid pte) then mret None
  else mret (Some (pte_to_pa pte +' Z.land va (PAGE_SIZE - 1))).

(** ** The abstract view *)

(** The table an entry points to. *)
Definition decode (pte : Z) : option Z :=
  if pte_valid pte && negb (pte_leaf pte) then Some (pte_to_pa pte) else None.
Definition next_table (m : memory) (t i : Z) : option Z := decode (load64 m (entry_addr t i)).

(** The tables of a page table: the root, the level-1 table of entry [i], and the
    level-0 table of entry [j] of that one. *)
Inductive node : Type :=
  | NRoot
  | NMid (i : Z)
  | NLeaf (i j : Z).
#[export] Instance node_eq_dec : EqDecision node.
Proof. solve_decision. Defined.

Definition node_ok (n : node) : Prop :=
  match n with
  | NRoot => True
  | NMid i => 0 ≤ i < 512
  | NLeaf i j => 0 ≤ i < 512 ∧ 0 ≤ j < 512
  end.
Definition node_addr (m : memory) (root : Z) (n : node) : option Z :=
  match n with
  | NRoot => Some root
  | NMid i => next_table m root i
  | NLeaf i j => t ← next_table m root i; next_table m t j
  end.

Definition leaf_node (va : Z) : node := NLeaf (vpn va 2) (vpn va 1).
(** The address of the last-level entry, and the valid entry there. *)
Definition slot (m : memory) (root va : Z) : option Z :=
  t ← node_addr m root (leaf_node va); Some (entry_addr t (vpn va 0)).
Definition pt_lookup (m : memory) (root va : Z) : option Z :=
  e ← slot m root va;
  let pte := load64 m e in if pte_valid pte then Some pte else None.

Definition is_table (m : memory) (root a : Z) : Prop :=
  ∃ n, node_ok n ∧ node_addr m root n = Some a.

Record pt_wf (m : memory) (root : Z) : Prop := {
  root_aligned : page_aligned root;
  tables_inj n1 n2 a :
    node_ok n1 → node_ok n2 →
    node_addr m root n1 = Some a → node_addr m root n2 = Some a → n1 = n2;
  (** No leaf entry above level 0 (the kernel maps 4 KB pages only). *)
  no_superpage n t k :
    node_ok n → (∀ i j, n ≠ NLeaf i j) → 0 ≤ k < 512 → node_addr m root n = Some t →
    next_table m t k = None → pte_valid (load64 m (entry_addr t k)) = false;
}.
Definition pt_owned (s : mach) (root : Z) : Prop :=
  ∀ a, is_table (mem s) root a → is_alloc s a.

(** Two virtual addresses with the same page number (modulo 2^39). *)
Definition same_vpn (va va' : Z) : Prop :=
  vpn va 2 = vpn va' 2 ∧ vpn va 1 = vpn va' 1 ∧ vpn va 0 = vpn va' 0.
#[export] Instance same_vpn_dec va va' : Decision (same_vpn va va').
Proof. unfold same_vpn. apply _. Defined.

Section entries.
Implicit Types (m : memory) (root t p i k va pte pa flags : Z).

Lemma vpn_bound va l : 0 ≤ vpn va l < 512.
Proof.
  unfold vpn. rewrite Z.land_comm. change 512 with (2 ^ 9). apply land_bound; lia.
Qed.

(** Bits of an encoded entry: flags below bit 10, page number above. *)
Lemma testbit_pa_to_pte_low pa flags n :
  0 ≤ n < 10 → Z.testbit (pa_to_pte pa flags) n = Z.testbit flags n.
Proof.
  intros Hn. unfold pa_to_pte. rewrite Z.lor_spec.
  by rewrite Z.shiftl_spec_low by lia.
Qed.
Lemma land_low_pa_to_pte pa flags mask :
  0 ≤ mask < 2 ^ 10 → Z.land (pa_to_pte pa flags) mask = Z.land flags mask.
Proof.
  intros Hm. apply Z.bits_inj'. intros n Hn. rewrite !Z.land_spec.
  destruct (decide (n < 10)); [by rewrite testbit_pa_to_pte_low by lia|].
  rewrite (bits_above 10 mask) by lia. by rewrite !andb_false_r.
Qed.
Lemma pte_valid_pa_to_pte pa flags : pte_valid (pa_to_pte pa flags) = pte_valid flags.
Proof. unfold pte_valid. by rewrite land_low_pa_to_pte by (vm_compute; split; congruence). Qed.
Lemma pte_leaf_pa_to_pte pa flags : pte_leaf (pa_to_pte pa flags) = pte_leaf flags.
Proof. unfold pte_leaf. by rewrite land_low_pa_to_pte by (vm_compute; split; congruence). Qed.
Lemma pte_valid_lor_V flags : pte_valid (Z.lor flags PTE_V) = true.
Proof.
  unfold pte_valid, PTE_V. rewrite land_bit_eqb, negb_involutive by lia.
  rewrite testbit_setbit by lia. by rewrite decide_True.
Qed.
Lemma pte_leaf_lor_V flags : pte_leaf (Z.lor flags PTE_V) = pte_leaf flags.
Proof.
  unfold pte_leaf. rewrite Z.land_lor_distr_l.
  change (Z.land PTE_V PTE_RWX) with 0. by rewrite Z.lor_0_r.
Qed.

Lemma pte_to_pa_aligned pte : page_aligned (pte_to_pa pte).
Proof.
  unfold pte_to_pa, PAGE_SHIFT, page_aligned, PAGE_SIZE.
  rewrite Z.shiftl_mul_pow2 by lia. change (2 ^ 12) with 4096.
  rewrite Z.mod_mul by lia. split; [|done].
  apply Z.mul_nonneg_nonneg; [|lia]. apply Z.land_nonneg. lia.
Qed.
Lemma pte_to_pa_bound pte : pte_to_pa pte < 2 ^ 56.
Proof.
  unfold pte_to_pa, PAGE_SHIFT. rewrite Z.shiftl_mul_pow2 by lia.
  rewrite Z.land_comm.
  pose proof (land_bound 44 0x0FFFFFFFFFFF (Z.shiftr pte 10)). lia.
Qed.
(** Decoding the address of an encoded entry. *)
Lemma pte_to_pa_of pa flags :
  page_aligned pa → pa < 2 ^ 56 → 0 ≤ flags < 2 ^ 10 → pte_to_pa (pa_to_pte pa flags) = pa.
Proof.
  intros [H0 Hm] Hpa Hf. unfold pte_to_pa, pa_to_pte, PAGE_SHIFT, PAGE_SIZE in *.
  assert (Z.shiftr (Z.lor (Z.shiftl (Z.shiftr pa 12) 10) flags) 10 = Z.shiftr pa 12) as ->.
  { rewrite Z.shiftr_lor, Z.shiftr_shiftl_l by lia. simpl.
    rewrite (Z.shiftr_div_pow2 flags) by lia. rewrite Z.div_small by lia.
    by rewrite Z.lor_0_r. }
  change 0x0FFFFFFFFFFF with (Z.ones 44). rewrite Z.land_ones by lia.
  rewrite Z.shiftr_div_pow2, Z.shiftl_mul_pow2 by lia. change (2 ^ 12) with 4096.
  rewrite Z.mod_small; [pose proof (Z.div_mod pa 4096); lia|].
  split; [apply Z.div_pos; lia|]. apply Z.div_lt_upper_bound; lia.
Qed.

Lemma decode_table p :
  page_aligned p → p < 2 ^ 56 → decode (pa_to_pte p PTE_V) = Some p.
Proof.
  intros Ha Hp. unfold decode. rewrite pte_valid_pa_to_pte, pte_leaf_pa_to_pte.
  rewrite pte_to_pa_of by (done || (vm_compute; split; congruence)). done.
Qed.

(** Entries of different tables, or different entries, are different words. *)
Lemma entry_addr_inj t i t' i' :
  page_aligned t → page_aligned t' → 0 ≤ i < 512 → 0 ≤ i' < 512 →
  entry_addr t i = entry_addr t' i' → t = t' ∧ i = i'.
Proof.
  unfold entry_addr. intros Ht Ht' Hi Hi' E.
  destruct (decide (t = t')) as [->|Hne]; [lia|].
  pose proof (page_aligned_ne t t' Ht Ht' Hne). unfold PAGE_SIZE in *. lia.
Qed.
Lemma entry_in_page t i : 0 ≤ i < 512 → in_page t (entry_addr t i).
Proof. unfold in_page, entry_addr, PAGE_SIZE. lia. Qed.
Lemma entry_not_in_page t p i :
  page_aligned t → page_aligned p → t ≠ p → 0 ≤ i < 512 → ¬ in_page p (entry_addr t i).
Proof.
  intros Ht Hp Hne Hi. unfold in_page, entry_addr.
  pose proof (page_aligned_ne t p Ht Hp Hne). unfold PAGE_SIZE in *. lia.
Qed.

Lemma next_table_aligned m t i a : next_table m t i = Some a → page_aligned a.
Proof.
  unfold next_table, decode. case_match; [|done]. intros [= <-]. apply pte_to_pa_aligned.
Qed.
Lemma node_addr_aligned m root n a :
  page_aligned root → node_addr m root n = Some a → page_aligned a.
Proof.
  destruct n; simpl; [naive_solver|eauto using next_table_aligned|].
  destruct (next_table m root i); [|done]. eauto using next_table_aligned.
Qed.

Lemma next_table_store m t k v a i :
  page_aligned t → page_aligned a → 0 ≤ k < 512 → 0 ≤ i < 512 →
  next_table (store64 m (entry_addr t k) v) a i =
    if decide (a = t ∧ i = k) then decode v else next_table m a i.
Proof.
  intros. unfold next_table. rewrite load64_store64.
  case_decide as E; case_decide as E'; try done.
  - apply entry_addr_inj in E as [-> ->]; [|done..]. by destruct E'.
  - destruct E' as [-> ->]. done.
Qed.
Lemma next_table_zero m p a i :
  page_aligned p → page_aligned a → 0 ≤ i < 512 →
  next_table (zero_page m p) a i = if decide (a = p) then None else next_table m a i.
Proof.
  intros. unfold next_table. case_decide.
  - subst. unfold entry_addr. by rewrite load64_zero_page.
  - by rewrite load64_zero_page_out by by apply entry_not_in_page.
Qed.

(** Two memories that agree on a page table's pages. *)
Lemma next_table_frame m m' t i :
  (∀ a, in_page t a → load64 m' a = load64 m a) → 0 ≤ i < 512 →
  next_table m' t i = next_table m t i.
Proof. intros Hf Hi. unfold next_table. by rewrite Hf by by apply entry_in_page. Qed.
Lemma node_addr_frame m m' root n :
  (∀ t a, is_table m root t → in_page t a → load64 m' a = load64 m a) →
  node_ok n → node_addr m' root n = node_addr m root n.
Proof.
  intros Hf Hn. assert (is_table m root root) as Hroot by by exists NRoot.
  destruct n as [|i|i j]; simpl in *; [done| |].
  - apply next_table_frame; [eauto|done].
  - destruct Hn as [Hi Hj]. rewrite (next_table_frame m m' root i) by eauto.
    destruct (next_table m root i) as [t|] eqn:E; [|done]. simpl.
    apply next_table_frame; [|done]. intros a. apply Hf. by exists (NMid i).
Qed.
Lemma is_table_frame m m' root a :
  (∀ t b, is_table m root t → in_page t b → load64 m' b = load64 m b) →
  is_table m' root a ↔ is_table m root a.
Proof.
  intros Hf. unfold is_table. split; intros (n & Hn & Ha); exists n; (split; [done|]).
  - by rewrite <- (node_addr_frame m m').
  - by rewrite (node_addr_frame m m').
Qed.
Lemma pt_wf_frame m m' root :
  (∀ t a, is_table m root t → in_page t a → load64 m' a = load64 m a) →
  pt_wf m root → pt_wf m' root.
Proof.
  intros Hf [Hr Hinj Hhuge]. split; [done| |].
  - intros n1 n2 a Hn1 Hn2 H1 H2.
    rewrite (node_addr_frame m m') in H1, H2 by done. eauto.
  - intros n t k Hn Hnl Hk Ht. rewrite (node_addr_frame m m') in Ht by done.
    assert (is_table m root t) as Htab by (by exists n).
    rewrite (next_table_frame m m') by eauto.
    rewrite (Hf t) by eauto using entry_in_page. eauto.
Qed.
Lemma pt_lookup_frame m m' root va :
  (∀ t a, is_table m root t → in_page t a → load64 m' a = load64 m a) →
  pt_lookup m' root va = pt_lookup m root va.
Proof.
  intros Hf. unfold pt_lookup, slot.
  assert (node_ok (leaf_node va)) by (split; apply vpn_bound).
  rewrite (node_addr_frame m m') by done.
  destruct (node_addr m root (leaf_node va)) as [t|] eqn:E; [|done]. simpl.
  rewrite Hf with (t := t); [done|by eexists|apply entry_in_page, vpn_bound].
Qed.
End entries.

Section walking.
Implicit Types (s : mach) (m : memory) (root va : Z).

(** [walk(pt, va, false)] reads the slot and changes nothing. *)
Lemma walk_read s root va :
  pgtable_walk root va false s = Done (slot (mem s) root va, s).
Proof.
  unfold pgtable_walk, slot. simpl. unfold mbind, st_bind, load, gets. simpl.
  unfold next_table, decode.
  destruct (pte_valid (load64 (mem s) (entry_addr root (vpn va 2)))); simpl; [|done].
  destruct (pte_leaf (load64 (mem s) (entry_addr root (vpn va 2)))); simpl; [done|].
  set (t := pte_to_pa _).
  destruct (pte_valid (load64 (mem s) (entry_addr t (vpn va 1)))); simpl; [|done].
  by destruct (pte_leaf (load64 (mem s) (entry_addr t (vpn va 1)))); simpl.
Qed.

Definition translate m root va : option Z :=
  (λ pte, pte_to_pa pte +' Z.land va (PAGE_SIZE - 1)) <$> pt_lookup m root va.

Lemma virt_to_phys_read s root va :
  virt_to_phys root va s = Done (translate (mem s) root va, s).
Proof.
  unfold virt_to_phys, otry_bind, mbind, st_bind at 1. rewrite walk_read.
  unfold translate, pt_lookup.
  destruct (slot (mem s) root va) as [e|]; simpl; [|done].
  unfold st_bind, load, gets. simpl. by destruct (pte_valid (load64 (mem s) e)).
Qed.

(** What building tables may do: everything mapped so far stays where it is, the
    allocator only hands out pages that become tables of [root], and memory
    outside the tables of [root] is untouched. *)
Record pt_grows (s s' : mach) (root : Z) : Prop := {
  grows_pages : pages_wf s';
  grows_wf : pt_wf (mem s') root;
  grows_owned : pt_owned s' root;
  grows_globals : same_globals s s';
  grows_managed b : managed s' b ↔ managed s b;
  grows_alloc b : is_alloc s b → is_alloc s' b;
  grows_alloc_new b : is_alloc s' b → is_alloc s b ∨ is_table (mem s') root b;
  grows_nodes n a :
    node_ok n → node_addr (mem s) root n = Some a → node_addr (mem s') root n = Some a;
  grows_tables_new t : is_table (mem s') root t → is_table (mem s) root t ∨ ¬ is_alloc s t;
  grows_frame a :
    (∀ t, is_table (mem s') root t → ¬ in_page t a) → load64 (mem s') a = load64 (mem s) a;
}.

Lemma grows_tables s s' root t :
  pt_grows s s' root → is_table (mem s) root t → is_table (mem s') root t.
Proof. intros H (n & Hn & Ha). exists n. split; [done|]. by apply (grows_nodes _ _ _ H). Qed.

Lemma pt_grows_refl s root :
  pages_wf s → pt_wf (mem s) root → pt_owned s root → pt_grows s s root.
Proof. intros. split; try done; intros; by left. Qed.
Lemma pt_grows_trans s1 s2 s3 root :
  pt_grows s1 s2 root → pt_grows s2 s3 root → pt_grows s1 s3 root.
Proof.
  intros H1 H2. pose proof (λ t, grows_tables _ _ _ t H1) as Ht1.
  pose proof (λ t, grows_tables _ _ _ t H2) as Ht2.
  destruct H1 as [? ? ? Hg1 Hm1 Ha1 Hn1 Hnd1 Htn1 Hf1].
  destruct H2 as [? ? ? Hg2 Hm2 Ha2 Hn2 Hnd2 Htn2 Hf2].
  split; [done..| | | | | | |].
  - by eapply same_globals_trans.
  - intros b. by rewrite Hm2.
  - auto.
  - intros b Hb. destruct (Hn2 b Hb) as [Hb'|]; [|by right].
    destruct (Hn1 b Hb'); auto.
  - auto.
  - intros t Ht. destruct (Htn2 t Ht) as [Ht'|Ht']; auto.
  - intros a Ha. rewrite Hf2 by done. auto.
Qed.

(** Linking a fresh zeroed page [p] at entry [k] of the table of node [par]. *)
Definition child (par : node) (k : Z) : node :=
  match par with NRoot => NMid k | NMid i => NLeaf i k | NLeaf i j => NLeaf i j end.
Definition linked m (t k p : Z) : memory :=
  store64 (zero_page m p) (entry_addr t k) (pa_to_pte p PTE_V).

Lemma entry_linked m t k p a i :
  page_aligned t → page_aligned p → page_aligned a → t ≠ p →
  0 ≤ k < 512 → 0 ≤ i < 512 →
  load64 (linked m t k p) (entry_addr a i) =
    if decide (a = t ∧ i = k) then pa_to_pte p PTE_V
    else if decide (a = p) then 0 else load64 m (entry_addr a i).
Proof.
  intros. unfold linked. rewrite load64_store64. case_decide as E.
  - apply entry_addr_inj in E as [-> ->]; [|done..]. by rewrite decide_True.
  - rewrite decide_False by (intros [-> ->]; done). case_decide as Ea.
    + rewrite Ea. unfold entry_addr. by rewrite load64_zero_page.
    + by rewrite load64_zero_page_out by by apply entry_not_in_page.
Qed.
Lemma next_table_linked m t k p a i :
  page_aligned t → page_aligned p → p < 2 ^ 56 → page_aligned a → t ≠ p →
  0 ≤ k < 512 → 0 ≤ i < 512 →
  next_table (linked m t k p) a i =
    if decide (a = t ∧ i = k) then Some p
    else if decide (a = p) then None else next_table m a i.
Proof.
  intros. unfold next_table. rewrite entry_linked by done.
  case_decide; [by apply decode_table|]. by case_decide.
Qed.

Lemma node_addr_linked m root par t k p n :
  pt_wf m root → node_ok par → 0 ≤ k < 512 → (∀ i j, par ≠ NLeaf i j) →
  node_addr m root par = Some t → node_addr m root (child par k) = None →
  page_aligned p → p < 2 ^ 56 → ¬ is_table m root p → node_ok n →
  node_addr (linked m t k p) root n =
    if decide (n = child par k) then Some p else node_addr m root n.
Proof.
  intros [Hr Hinj _] Hpar Hk Hnl Ht Hnone Hp Hpb Hfresh Hn.
  assert (page_aligned t) as Hta by eauto using node_addr_aligned.
  assert (t ≠ p) as Htp by (intros ->; apply Hfresh; by exists par).
  assert (root ≠ p) as Hrp by (intros ->; apply Hfresh; by exists NRoot).
  assert (∀ i t', 0 ≤ i < 512 → next_table m root i = Some t' → t' ≠ root ∧ t' ≠ p) as Hmid.
  { intros i t' Hi Et. split; intros ->.
    - by discriminate (Hinj (NMid i) NRoot root Hi I Et eq_refl).
    - apply Hfresh. by exists (NMid i). }
  destruct par as [|i0|]; [| |by edestruct Hnl]; simpl in Ht.
  - injection Ht as <-.
    assert (∀ i, 0 ≤ i < 512 → next_table (linked m root k p) root i =
              if decide (i = k) then Some p else next_table m root i) as Hroot.
    { intros i Hi. rewrite next_table_linked by done.
      destruct (decide (i = k)) as [->|]; [by rewrite decide_True|].
      rewrite !decide_False; [done|done|by intros [_ ?]]. }
    destruct n as [|i|i j]; cbn [child node_addr node_ok] in *.
    + by rewrite decide_False.
    + rewrite Hroot by done. destruct (decide (i = k)) as [->|]; [by rewrite decide_True|].
      rewrite decide_False; [done|congruence].
    + destruct Hn as [Hi Hj]. rewrite decide_False by done. rewrite Hroot by done.
      destruct (decide (i = k)) as [->|].
      * rewrite Hnone. simpl. rewrite next_table_linked by done.
        rewrite decide_False; [by rewrite decide_True|by intros [? _]].
      * destruct (next_table m root i) as [t'|] eqn:Et; [|done].
        simpl. destruct (Hmid i t' Hi Et). rewrite next_table_linked
          by eauto using next_table_aligned.
        rewrite !decide_False; [done|done|by intros [? _]].
  - destruct (Hmid i0 t Hpar Ht) as [Htr _].
    assert (∀ i, 0 ≤ i < 512 → next_table (linked m t k p) root i = next_table m root i) as Hroot.
    { intros i Hi. rewrite next_table_linked by done.
      rewrite !decide_False; [done|done|]. intros [? _]. by apply Htr. }
    destruct n as [|i|i j]; cbn [child node_addr node_ok] in *.
    + by rewrite decide_False.
    + rewrite Hroot by done. by rewrite decide_False.
    + destruct Hn as [Hi Hj]. rewrite Hroot by done.
      destruct (next_table m root i) as [t'|] eqn:Et; simpl.
      * destruct (Hmid i t' Hi Et). rewrite next_table_linked
          by eauto using next_table_aligned.
        rewrite (decide_False (P := t' = p)) by done.
        destruct (decide (NLeaf i j = NLeaf i0 k)) as [[= -> ->]|Hne].
        { rewrite decide_True; [done|]. split; congruence. }
        rewrite decide_False; [done|]. intros [-> ->]. apply Hne.
        assert (NMid i = NMid i0) as [= ->] by (by apply (Hinj _ _ t)). done.
      * rewrite decide_False; [done|]. intros [= -> ->]. congruence.
Qed.

Lemma child_ok par k : node_ok par → 0 ≤ k < 512 → (∀ i j, par ≠ NLeaf i j) → node_ok (child par k).
Proof. destruct par; simpl; naive_solver. Qed.

Lemma is_table_linked m root par t k p a :
  pt_wf m root → node_ok par → 0 ≤ k < 512 → (∀ i j, par ≠ NLeaf i j) →
  node_addr m root par = Some t → node_addr m root (child par k) = None →
  page_aligned p → p < 2 ^ 56 → ¬ is_table m root p →
  is_table (linked m t k p) root a ↔ a = p ∨ is_table m root a.
Proof.
  intros Hwf Hpar Hk Hnl Ht Hnone Hp Hpb Hfresh. split.
  - intros (n & Hn & Ha). rewrite (node_addr_linked m root par) in Ha by done.
    case_decide; [left; congruence|right; by exists n].
  - intros [->|(n & Hn & Ha)].
    + exists (child par k). split; [by apply child_ok|].
      rewrite (node_addr_linked m root par) by (done || by apply child_ok).
      by rewrite decide_True.
    + exists n. split; [done|]. rewrite (node_addr_linked m root par) by done.
      rewrite decide_False; [done|]. intros ->. congruence.
Qed.

Lemma pt_wf_linked m root par t k p :
  pt_wf m root → node_ok par → 0 ≤ k < 512 → (∀ i j, par ≠ NLeaf i j) →
  node_addr m root par = Some t → node_addr m root (child par k) = None →
  page_aligned p → p < 2 ^ 56 → ¬ is_table m root p →
  pt_wf (linked m t k p) root.
Proof.
  intros Hwf Hpar Hk Hnl Ht Hnone Hp Hpb Hnt.
  assert (page_aligned t) as Hta by (eapply node_addr_aligned; [apply Hwf|done]).
  assert (∀ n, node_ok n → node_addr m root n ≠ Some p) as Hnp
    by (intros n Hn Hc; apply Hnt; exists n; exact (conj Hn Hc)).
  assert (t ≠ p) as Htp by (intros ->; by apply (Hnp par)).
  split; [apply Hwf| |].
  - intros n1 n2 a Hn1 Hn2. rewrite !(node_addr_linked m root par) by done.
    destruct (decide (n1 = child par k)) as [->|], (decide (n2 = child par k)) as [->|];
      intros H1 H2; [done| | |by apply (tables_inj _ _ Hwf _ _ a)].
    + injection H1 as <-. by edestruct Hnp.
    + injection H2 as <-. by edestruct (Hnp n1).
  - intros n t' i Hn Hnl' Hi. rewrite (node_addr_linked m root par) by done.
    destruct (decide (n = child par k)) as [->|] eqn:E; intros Ht'.
    + injection Ht' as <-. rewrite entry_linked by done.
      rewrite decide_False by (intros [? _]; by apply Htp). by rewrite decide_True.
    + assert (page_aligned t') by (eapply node_addr_aligned; [apply Hwf|done]).
      rewrite next_table_linked, entry_linked by done.
      destruct (decide (t' = t ∧ i = k)); [done|].
      rewrite !(decide_False (P := t' = p)) by (intros Heq; subst t'; by apply (Hnp n)).
      by apply (no_superpage _ _ Hwf n).
Qed.

Lemma pt_lookup_linked m root par t k p va :
  pt_wf m root → node_ok par → 0 ≤ k < 512 → (∀ i j, par ≠ NLeaf i j) →
  node_addr m root par = Some t → node_addr m root (child par k) = None →
  page_aligned p → p < 2 ^ 56 → ¬ is_table m root p →
  pt_lookup (linked m t k p) root va = pt_lookup m root va.
Proof.
  intros Hwf Hpar Hk Hnl Ht Hnone Hp Hpb Hfresh.
  assert (page_aligned t) as Hta by (eapply node_addr_aligned; [apply Hwf|done]).
  assert (node_ok (leaf_node va)) as Hlv by (split; apply vpn_bound).
  pose proof (vpn_bound va 0) as Hv0.
  unfold pt_lookup, slot. rewrite (node_addr_linked m root par) by done.
  case_decide as E.
  - rewrite E, Hnone. cbn [mbind option_bind]. unfold linked. rewrite load64_store64_ne.
    + unfold entry_addr. by rewrite load64_zero_page.
    + intros E'. apply entry_addr_inj in E' as [-> _]; [|done..].
      apply Hfresh. by exists par.
  - destruct (node_addr m root (leaf_node va)) as [a|] eqn:Ea; [|done]. cbn [mbind option_bind].
    assert (page_aligned a) by (eapply node_addr_aligned; [apply Hwf|done]).
    unfold linked. rewrite load64_store64_ne, load64_zero_page_out; [done|..].
    + apply entry_not_in_page; [done..| |done]. intros ->. apply Hfresh. by eexists.
    + intros E'. apply entry_addr_inj in E' as [-> _]; [|done..].
      by apply (Hnl (vpn va 2) (vpn va 1)), (tables_inj _ _ Hwf _ _ a).
Qed.

(** One step of [walk] that creates a table. *)
Lemma link_grows s root par t k :
  pages_wf s → pt_wf (mem s) root → pt_owned s root →
  node_ok par → 0 ≤ k < 512 → (∀ i j, par ≠ NLeaf i j) →
  node_addr (mem s) root par = Some t → node_addr (mem s) root (child par k) = None →
  wp pgtable_create (λ r s1,
    match r with
    | None => free_count s = 0 ∧ s1 = s
    | Some p =>
        let s2 := set_mem (λ m, store64 m (entry_addr t k) (pa_to_pte p PTE_V)) s1 in
        pt_grows s s2 root ∧
        (∀ n, node_ok n → node_addr (mem s2) root n =
           if decide (n = child par k) then Some p else node_addr (mem s) root n) ∧
        (∀ va, pt_lookup (mem s2) root va = pt_lookup (mem s) root va) ∧
        free_count s2 = free_count s - 1 ∧ 0 < free_count s
    end) s.
Proof.
  intros Hpw Hwf Hown Hpar Hk Hnl Ht Hnone. unfold pgtable_create.
  apply wp_otry_bind. eapply wp_mono; [by apply page_alloc_wp|].
  intros [p|] s1 (Hpw1 & Hm1 & Hg1 & Hman1 & H1); [|by apply wp_ret].
  destruct H1 as (Hpa & Hpb & Hpm & Hfresh & Hal & Hfc & Hpos).
  apply wp_bind, wp_modify, wp_ret. cbv zeta.
  set (s2 := set_mem (λ m, store64 m (entry_addr t k) (pa_to_pte p PTE_V)) _).
  assert (mem s2 = linked (mem s) t k p) as Hm2 by (unfold s2; cbn [mem set_mem]; by rewrite Hm1).
  assert (PAGE_ALLOCATOR s2 = PAGE_ALLOCATOR s1) as Hp2 by done.
  assert (same_globals s s2) as Hg2 by done. clearbody s2.
  assert (¬ is_table (mem s) root p) as Hnt by (intros ?; apply Hfresh; by apply Hown).
  assert (p < 2 ^ 56) by (unfold PAGE_SIZE in *; lia).
  assert (∀ a, is_table (mem s2) root a ↔ a = p ∨ is_table (mem s) root a) as Htab.
  { intros a. rewrite Hm2. by apply (is_table_linked _ _ par). }
  assert (∀ n, node_ok n → node_addr (mem s2) root n =
            if decide (n = child par k) then Some p else node_addr (mem s) root n) as Hnode.
  { intros n Hn. rewrite Hm2. by apply node_addr_linked. }
  assert (∀ b, is_alloc s2 b ↔ b = p ∨ is_alloc s b) as Hal2.
  { intros b. rewrite <- Hal. unfold is_alloc. by rewrite Hp2. }
  split_and!.
  - split; [| | |exact Hg2|..].
    + destruct Hpw1 as (pa & Hpa1 & Hpa2). exists pa. rewrite Hp2. exact (conj Hpa1 Hpa2).
    + rewrite Hm2. by apply (pt_wf_linked _ _ par).
    + intros a. rewrite Htab, Hal2. intros [->|]; [by left|right; auto].
    + intros b. unfold managed. rewrite Hp2. apply Hman1.
    + intros b ?. apply Hal2. by right.
    + intros b. rewrite Hal2, Htab. intros [->|]; auto.
    + intros n a Hn Ha. rewrite Hnode by done. rewrite decide_False; [done|].
      intros ->. congruence.
    + intros a. rewrite Htab. intros [->|]; auto.
    + intros a Ha. rewrite Hm2. unfold linked.
      rewrite load64_store64_ne, load64_zero_page_out; [done|..].
      * apply Ha, Htab. by left.
      * intros <-. apply (Ha t); [|by apply entry_in_page].
        apply Htab. right. exists par. exact (conj Hpar Ht).
  - exact Hnode.
  - intros va. rewrite Hm2. by apply (pt_lookup_linked _ _ par).
  - unfold free_count in *. by rewrite Hp2.
  - done.
Qed.

(** [walk] with [alloc = true], one level: the table of the next level exists
    afterwards, or no page was free. *)
Lemma walk_level_wp s root par t levels level va (Q : option Z → mach → Prop) :
  pages_wf s → pt_wf (mem s) root → pt_owned s root →
  node_ok par → (∀ i j, par ≠ NLeaf i j) → node_addr (mem s) root par = Some t →
  (∀ t' s', pt_grows s s' root →
     node_addr (mem s') root (child par (vpn va level)) = Some t' →
     (∀ n, node_ok n → n ≠ child par (vpn va level) →
        node_addr (mem s') root n = node_addr (mem s) root n) →
     (∀ v, pt_lookup (mem s') root v = pt_lookup (mem s) root v) →
     free_count s' = free_count s -
       (if node_addr (mem s) root (child par (vpn va level)) is Some _ then 0 else 1) →
     0 ≤ free_count s' ∨ s' = s →
     wp (walk_levels levels t' va true) Q s') →
  (node_addr (mem s) root (child par (vpn va level)) = None → free_count s = 0 → Q None s) →
  wp (walk_levels (level :: levels) t va true) Q s.
Proof.
  intros Hpw Hwf Hown Hpar Hnl Ht Hnext Hfail. cbn [walk_levels].
  apply wp_bind, wp_gets.
  pose proof (vpn_bound va level) as Hk. set (k := vpn va level) in *.
  assert (node_addr (mem s) root (child par k) = next_table (mem s) t k) as Hch.
  { destruct par as [|i|]; [by injection Ht as <-| |by edestruct Hnl].
    cbn [child node_addr] in *. by rewrite Ht. }
  destruct (next_table (mem s) t k) as [t'|] eqn:E.
  - unfold next_table, decode in E.
    destruct (pte_valid _); [|done]. cbn [negb andb] in *.
    destruct (pte_leaf _); [done|]. cbn [negb] in E. injection E as E. rewrite E.
    apply Hnext; [by apply pt_grows_refl|done|done|done|rewrite Hch; lia|by right].
  - rewrite (no_superpage _ _ Hwf par) by done. cbn [negb].
    apply wp_otry_bind. eapply wp_mono; [by apply (link_grows s root par t k)|].
    intros [p|] s1.
    + intros (Hgr & Hnode & Hlk & Hfc & Hpos). apply wp_bind, wp_modify.
      apply Hnext; [done| | |done|by rewrite Hch|left; lia].
      * rewrite Hnode by by apply child_ok. by rewrite decide_True.
      * intros n Hn Hne. rewrite Hnode by done. by rewrite decide_False.
    + intros [H0 ->]. by apply Hfail.
Qed.

(** How many tables [walk] has to create for [va]. *)
Definition missing m root va : Z :=
  match next_table m root (vpn va 2) with
  | None => 2
  | Some t => if next_table m t (vpn va 1) is Some _ then 0 else 1
  end.

Lemma walk_create_wp s root va :
  pages_wf s → pt_wf (mem s) root → pt_owned s root → 0 ≤ free_count s →
  wp (pgtable_walk root va true) (λ r s',
    pt_grows s s' root ∧ 0 ≤ free_count s' ∧
    (∀ v, pt_lookup (mem s') root v = pt_lookup (mem s) root v) ∧
    match r with
    | Some e => slot (mem s') root va = Some e ∧
                free_count s' = free_count s - missing (mem s) root va
    | None => free_count s < missing (mem s) root va ∧ free_count s' = 0
    end) s.
Proof.
  intros Hpw Hwf Hown Hfc0. unfold pgtable_walk.
  apply (walk_level_wp s root NRoot root); try done.
  2: { intros Hn H0. cbn [child node_addr] in Hn. split; [by apply pt_grows_refl|].
       split_and!; try done. unfold missing. rewrite Hn. lia. }
  intros t1 s1 Hg1 Ht1 Hn1 Hl1 Hf1 Hp1. cbn [child node_addr] in *.
  pose proof (vpn_bound va 2) as Hv2. pose proof (vpn_bound va 1) as Hv1.
  assert (0 ≤ free_count s1) as Hfc1 by (destruct Hp1 as [| ->]; done).
  assert (next_table (mem s1) t1 (vpn va 1) =
          match next_table (mem s) root (vpn va 2) with
          | None => None | Some t => next_table (mem s) t (vpn va 1) end) as Hleaf.
  { specialize (Hn1 (leaf_node va)). cbn [node_ok leaf_node node_addr] in Hn1.
    rewrite Ht1 in Hn1. cbn [mbind option_bind] in Hn1. rewrite Hn1; [|done..].
    by destruct (next_table (mem s) root (vpn va 2)). }
  assert (free_count s1 - (if next_table (mem s1) t1 (vpn va 1) is Some _ then 0 else 1) =
          free_count s - missing (mem s) root va) as Hmiss.
  { rewrite Hf1, Hleaf. unfold missing. destruct (next_table (mem s) root (vpn va 2)); [|lia].
    destruct (next_table (mem s) z (vpn va 1)); lia. }
  apply (walk_level_wp s1 root (NMid (vpn va 2)) t1); try done; try apply Hg1.
  - intros t0 s2 Hg2 Ht0 Hn2 Hl2 Hf2 Hp2. cbn [walk_levels]. apply wp_ret.
    split; [by eapply pt_grows_trans|].
    split; [destruct Hp2 as [| ->]; done|].
    split; [intros v; by rewrite Hl2|].
    split.
    + unfold slot, leaf_node. cbn [child] in Ht0. by rewrite Ht0.
    + rewrite Hf2, <- Hmiss. cbn [child node_addr]. by rewrite Ht1.
  - cbn [child node_addr]. rewrite Ht1. cbn [mbind option_bind]. intros Hn H0.
    rewrite Hn in Hmiss. split; [done|]. split_and!; try done; lia.
Qed.
End walking.

Section leaf_store.
Implicit Types (s : mach) (m : memory) (root va : Z).

Lemma slot_in_table m root va e :
  slot m root va = Some e →
  ∃ t, is_table m root t ∧ node_addr m root (leaf_node va) = Some t ∧
    e = entry_addr t (vpn va 0).
Proof.
  unfold slot. destruct (node_addr m root (leaf_node va)) as [t|] eqn:E; [|done].
  cbn [mbind option_bind]. intros [= <-]. exists t. split; [|done].
  exists (leaf_node va). split; [|done]. split; apply vpn_bound.
Qed.

(** Writing a last-level entry moves no table. *)
Lemma node_addr_slot_store m root va e v n :
  pt_wf m root → slot m root va = Some e → node_ok n →
  node_addr (store64 m e v) root n = node_addr m root n.
Proof.
  intros Hwf (t0 & _ & Ht0 & ->)%slot_in_table Hn.
  assert (node_ok (leaf_node va)) as Hlv by (split; apply vpn_bound).
  assert (∀ n' t i, node_ok n' → (∀ i j, n' ≠ NLeaf i j) → 0 ≤ i < 512 →
    node_addr m root n' = Some t →
    next_table (store64 m (entry_addr t0 (vpn va 0)) v) t i = next_table m t i) as Hsame.
  { intros n' t i Hn' Hnl Hi Ht.
    rewrite next_table_store; [|eapply node_addr_aligned; [apply Hwf|done]..|apply vpn_bound|done].
    rewrite decide_False; [done|]. intros [-> _].
    by apply (Hnl (vpn va 2) (vpn va 1)), (tables_inj _ _ Hwf _ _ t0). }
  destruct n as [|i|i j]; cbn [node_addr node_ok] in *; [done|by apply (Hsame NRoot)|].
  destruct Hn. rewrite (Hsame NRoot) by done.
  destruct (next_table m root i) as [t|] eqn:E; [|done]. cbn [mbind option_bind].
  by apply (Hsame (NMid i)).
Qed.

Lemma slot_slot_store m root va va' e v :
  pt_wf m root → slot m root va = Some e → slot (store64 m e v) root va' = slot m root va'.
Proof.
  intros Hwf He. unfold slot at 1. rewrite (node_addr_slot_store m root va) by
    (done || split; apply vpn_bound). done.
Qed.

Lemma slot_inj m root va va' e :
  pt_wf m root → slot m root va = Some e → slot m root va' = Some e → same_vpn va va'.
Proof.
  intros Hwf (t & _ & Ht & ->)%slot_in_table (t' & _ & Ht' & E)%slot_in_table.
  apply entry_addr_inj in E as [<- E0];
    [|eapply node_addr_aligned; [apply Hwf|done]..|apply vpn_bound|apply vpn_bound].
  assert (leaf_node va = leaf_node va') as [= E2 E1]; [|done].
  eapply tables_inj; [done| | |done|done]; split; apply vpn_bound.
Qed.
Lemma slot_same_vpn m root va va' : same_vpn va va' → slot m root va' = slot m root va.
Proof. intros (E2 & E1 & E0). unfold slot, leaf_node. by rewrite E2, E1, E0. Qed.
Lemma pt_lookup_same_vpn m root va va' :
  same_vpn va va' → pt_lookup m root va' = pt_lookup m root va.
Proof. intros H. unfold pt_lookup. by rewrite (slot_same_vpn m root va va'). Qed.

Lemma pt_lookup_slot_store m root va va' e v :
  pt_wf m root → slot m root va = Some e →
  pt_lookup (store64 m e v) root va' =
    if decide (same_vpn va va') then (if pte_valid v then Some v else None)
    else pt_lookup m root va'.
Proof.
  intros Hwf He. unfold pt_lookup. rewrite (slot_slot_store m root va) by done.
  case_decide as Hs.
  - rewrite (slot_same_vpn m root va va') by done. rewrite He. cbn [mbind option_bind].
    by rewrite load64_store64_eq.
  - destruct (slot m root va') as [e'|] eqn:E'; [|done]. cbn [mbind option_bind].
    rewrite load64_store64_ne; [done|]. intros ->. by apply Hs, (slot_inj m root _ _ e').
Qed.

Lemma pt_wf_slot_store m root va e v :
  pt_wf m root → slot m root va = Some e → pt_wf (store64 m e v) root.
Proof.
  intros Hwf He. split; [apply Hwf| |].
  - intros n1 n2 a Hn1 Hn2. rewrite !(node_addr_slot_store m root va) by done.
    by apply Hwf.
  - intros n t k Hn Hnl Hk. rewrite (node_addr_slot_store m root va) by done. intros Ht.
    destruct (slot_in_table _ _ _ _ He) as (t0 & _ & Ht0 & ->).
    assert (page_aligned t) by (eapply node_addr_aligned; [apply Hwf|done]).
    assert (page_aligned t0) by (eapply node_addr_aligned; [apply Hwf|done]).
    assert (t ≠ t0) as Hne.
    { intros ->. apply (Hnl (vpn va 2) (vpn va 1)), (tables_inj _ _ Hwf _ _ t0); try done.
      split; apply vpn_bound. }
    rewrite next_table_store by (done || apply vpn_bound).
    rewrite decide_False by (intros [? _]; done).
    rewrite load64_store64_ne; [by apply (no_superpage _ _ Hwf n)|].
    intros E. apply entry_addr_inj in E as [E _]; [by apply Hne|done..|apply vpn_bound|done].
Qed.
Lemma is_table_slot_store m root va e v a :
  pt_wf m root → slot m root va = Some e →
  is_table (store64 m e v) root a ↔ is_table m root a.
Proof.
  intros Hwf He. split; intros (n & Hn & Ha); exists n; (split; [done|]).
  - by rewrite (node_addr_slot_store m root va) in Ha.
  - by rewrite (node_addr_slot_store m root va).
Qed.

(** A last-level write is a growth step that adds no table. *)
Lemma slot_store_grows s root va e v :
  pages_wf s → pt_wf (mem s) root → pt_owned s root → slot (mem s) root va = Some e →
  pt_grows s (set_mem (λ m, store64 m e v) s) root.
Proof.
  intros Hpw Hwf Hown He.
  assert (∀ a, is_table (mem (set_mem (λ m, store64 m e v) s)) root a ↔
               is_table (mem s) root a) as Htab
    by (intros a; by apply (is_table_slot_store _ _ va)).
  destruct (slot_in_table _ _ _ _ He) as (t0 & Ht0 & _ & He0).
  split.
  - exact Hpw.
  - by apply (pt_wf_slot_store _ _ va).
  - intros a Ha. apply Htab, Hown in Ha. exact Ha.
  - done.
  - done.
  - intros b Hb. exact Hb.
  - intros b Hb. left. exact Hb.
  - intros n a Hn Ha. cbn [mem set_mem]. by rewrite (node_addr_slot_store _ _ va).
  - intros t Ht. left. by apply Htab.
  - intros a Ha. cbn [mem set_mem]. apply load64_store64_ne. intros ->.
    apply (Ha t0); [by apply Htab|]. rewrite He0. apply entry_in_page, vpn_bound.
Qed.

Lemma missing_zero m root va e : slot m root va = Some e → missing m root va = 0.
Proof.
  unfold slot, missing. cbn [node_addr leaf_node].
  destruct (next_table m root (vpn va 2)) as [t|]; [|done]. cbn [mbind option_bind].
  by destruct (next_table m t (vpn va 1)).
Qed.
Lemma slot_of_lookup m root va pte :
  pt_lookup m root va = Some pte →
  ∃ e, slot m root va = Some e ∧ load64 m e = pte ∧ pte_valid pte = true.
Proof.
  unfold pt_lookup. destruct (slot m root va) as [e|]; [|done]. cbn [mbind option_bind].
  destruct (pte_valid (load64 m e)) eqn:E; [|done]. intros [= <-]. by exists e.
Qed.
Lemma missing_mono s s' root va :
  pt_grows s s' root → missing (mem s') root va ≤ missing (mem s) root va.
Proof.
  intros Hg. unfold missing.
  destruct (next_table (mem s) root (vpn va 2)) as [t|] eqn:E2.
  - rewrite (grows_nodes _ _ _ Hg (NMid (vpn va 2)) t (vpn_bound _ _) E2 :
      next_table _ _ _ = _).
    destruct (next_table (mem s) t (vpn va 1)) as [t0|] eqn:E1.
    + assert (node_addr (mem s') root (leaf_node va) = Some t0) as H.
      { apply (grows_nodes _ _ _ Hg); [split; apply vpn_bound|].
        cbn [leaf_node node_addr]. by rewrite E2. }
      cbn [leaf_node node_addr] in H.
      rewrite (grows_nodes _ _ _ Hg (NMid (vpn va 2)) t (vpn_bound _ _) E2 :
        next_table _ _ _ = _) in H.
      cbn [mbind option_bind] in H. by rewrite H.
    + by destruct (next_table (mem s') t (vpn va 1)).
  - destruct (next_table (mem s') root (vpn va 2)) as [t|]; [|lia].
    destruct (next_table (mem s') t (vpn va 1)); lia.
Qed.
Lemma missing_bound m root va : 0 ≤ missing m root va ≤ 2.
Proof.
  unfold missing. destruct (next_table m root (vpn va 2)); [|lia].
  destruct (next_table m z (vpn va 1)); lia.
Qed.

(** Mapping one page. *)
Lemma map_page_wp s root va pa flags :
  pages_wf s → pt_wf (mem s) root → pt_owned s root → 0 ≤ free_count s →
  wp (map_page root va pa flags) (λ r s',
    pt_grows s s' root ∧ 0 ≤ free_count s' ∧
    match r with
    | Ok _ => pt_lookup (mem s) root va = None ∧
        (∀ v, pt_lookup (mem s') root v =
           if decide (same_vpn va v) then Some (pa_to_pte pa (Z.lor flags PTE_V))
           else pt_lookup (mem s) root v) ∧
        free_count s' = free_count s - missing (mem s) root va
    | Err => (∀ v, pt_lookup (mem s') root v = pt_lookup (mem s) root v) ∧
        (pt_lookup (mem s) root va ≠ None ∨
         free_count s < missing (mem s) root va ∧ free_count s' = 0)
    end) s.
Proof.
  intros Hpw Hwf Hown Hfc. unfold map_page. apply wp_try_bind, wp_bind.
  eapply wp_mono; [by apply walk_create_wp|].
  intros [e|] s1 (Hg & Hfc1 & Hlk & He).
  - destruct He as [He Hf1]. apply wp_ret. cbn [ok_or].
    apply wp_bind, wp_gets. destruct (pte_valid (load64 (mem s1) e)) eqn:Ev.
    + apply wp_ret. split; [done|]. split; [done|]. split; [done|]. left.
      rewrite <- Hlk. unfold pt_lookup. rewrite He. cbn [mbind option_bind]. by rewrite Ev.
    + apply wp_bind, wp_modify, wp_ret. split.
      { eapply pt_grows_trans; [done|]. by apply (slot_store_grows s1 root va); apply Hg || done. }
      split; [done|]. split.
      { rewrite <- Hlk. unfold pt_lookup. rewrite He. cbn [mbind option_bind]. by rewrite Ev. }
      split; [|done]. intros v. cbn [mem set_mem].
      rewrite (pt_lookup_slot_store _ _ va) by (done || apply Hg).
      rewrite pte_valid_pa_to_pte, pte_valid_lor_V. by rewrite Hlk.
  - apply wp_ret. cbn [ok_or]. split; [done|]. split; [done|]. split; [done|]. right. tauto.
Qed.
End leaf_store.

Section ranges.
Implicit Types (s : mach) (m : memory) (root va pa : Z).

(** Page numbers decide [same_vpn] in the 39-bit address space. *)
Lemma vpn_div va l : 0 ≤ l → vpn va l = va / 2 ^ (12 + 9 * l) mod 512.
Proof.
  intros Hl. unfold vpn. change 0x1FF with (Z.ones 9).
  rewrite Z.land_ones, Z.shiftr_div_pow2 by lia. done.
Qed.
Lemma vpn_digits va : 0 ≤ va < 2 ^ 39 →
  va / 4096 = (vpn va 2 * 512 + vpn va 1) * 512 + vpn va 0.
Proof.
  intros Hva. rewrite !vpn_div by lia.
  change (2 ^ (12 + 9 * 2)) with (4096 * (512 * 512)).
  change (2 ^ (12 + 9 * 1)) with (4096 * 512). change (2 ^ (12 + 9 * 0)) with 4096.
  rewrite <- !Z.div_div by lia. set (p := va / 4096).
  assert (0 ≤ p < 512 * 512 * 512).
  { split; [apply Z.div_pos; lia|]. apply Z.div_lt_upper_bound; lia. }
  assert (0 ≤ p / 512 / 512 < 512).
  { split; [repeat apply Z.div_pos; lia|]. repeat apply Z.div_lt_upper_bound; lia. }
  rewrite (Z.mod_small (p / 512 / 512)) by done.
  pose proof (Z.div_mod p 512). pose proof (Z.div_mod (p / 512) 512). lia.
Qed.
Lemma same_vpn_div va va' :
  0 ≤ va < 2 ^ 39 → 0 ≤ va' < 2 ^ 39 → same_vpn va va' ↔ va / 4096 = va' / 4096.
Proof.
  intros H H'. rewrite (vpn_digits va), (vpn_digits va') by done. unfold same_vpn.
  pose proof (vpn_bound va 2). pose proof (vpn_bound va 1). pose proof (vpn_bound va 0).
  pose proof (vpn_bound va' 2). pose proof (vpn_bound va' 1). pose proof (vpn_bound va' 0).
  lia.
Qed.
Lemma same_vpn_page va v :
  page_aligned va → va + PAGE_SIZE ≤ 2 ^ 39 → 0 ≤ v < 2 ^ 39 →
  same_vpn va v ↔ va ≤ v < va + PAGE_SIZE.
Proof.
  intros [H0 Hm] Hb Hv. unfold PAGE_SIZE in *. rewrite same_vpn_div by lia.
  pose proof (Z.div_mod va 4096). pose proof (Z.div_mod v 4096).
  pose proof (Z.mod_pos_bound v 4096). lia.
Qed.

(** The pages of [va, va + n * 4096) share a level-0 table. *)
Definition one_region va n : Prop :=
  ∀ i, 0 ≤ i < n → vpn (va + i * PAGE_SIZE) 2 = vpn va 2 ∧ vpn (va + i * PAGE_SIZE) 1 = vpn va 1.

Lemma missing_region m root va va' :
  vpn va' 2 = vpn va 2 → vpn va' 1 = vpn va 1 → missing m root va' = missing m root va.
Proof. intros E2 E1. unfold missing. by rewrite E2, E1. Qed.

(** [map] after its first [k] pages. *)
Definition mapped_upto m m' root va pa flags k : Prop :=
  ∀ v, 0 ≤ v < 2 ^ 39 →
    pt_lookup m' root v =
      if decide (va ≤ v < va + k * PAGE_SIZE)
      then Some (pa_to_pte (pa + (v - va) / PAGE_SIZE * PAGE_SIZE) (Z.lor flags PTE_V))
      else pt_lookup m root v.

Lemma mapped_upto_step m m1 m2 root va pa flags k :
  page_aligned va → 0 ≤ k → va + (k + 1) * PAGE_SIZE ≤ 2 ^ 39 →
  mapped_upto m m1 root va pa flags k →
  (∀ v, pt_lookup m2 root v =
     if decide (same_vpn (va + k * PAGE_SIZE) v)
     then Some (pa_to_pte (pa + k * PAGE_SIZE) (Z.lor flags PTE_V)) else pt_lookup m1 root v) →
  mapped_upto m m2 root va pa flags (k + 1).
Proof.
  intros Hva Hk Hb H1 H2 v Hv. rewrite H2, H1 by done.
  assert (page_aligned (va + k * PAGE_SIZE)) by by apply page_aligned_add.
  assert (same_vpn (va + k * PAGE_SIZE) v ↔
            va + k * PAGE_SIZE ≤ v < va + k * PAGE_SIZE + PAGE_SIZE) as Hs
    by (apply same_vpn_page; [done|unfold PAGE_SIZE in *; lia|done]).
  destruct Hva as [Hva0 Hvam]. unfold PAGE_SIZE in *.
  destruct (decide (same_vpn (va + k * 4096) v)) as [Hin|Hout].
  - apply Hs in Hin. rewrite decide_True by lia.
    replace ((v - va) / 4096) with k; [done|].
    apply Z.div_unique with (v - va - 4096 * k); lia.
  - rewrite Hs in Hout. case_decide; [by rewrite decide_True by lia|].
    by rewrite decide_False by lia.
Qed.

Lemma pgtable_map_wp s root va pa size flags :
  pages_wf s → pt_wf (mem s) root → pt_owned s root → 0 ≤ free_count s →
  page_aligned va → page_aligned pa → 0 < size →
  va + size ≤ 2 ^ 39 → pa + size ≤ 2 ^ 56 →
  let n := size / PAGE_SIZE in
  wp (pgtable_map root va pa size flags) (λ r s',
    pt_grows s s' root ∧ 0 ≤ free_count s' ∧
    match r with
    | Ok _ => (∀ i, 0 ≤ i < n → pt_lookup (mem s) root (va + i * PAGE_SIZE) = None) ∧
        mapped_upto (mem s) (mem s') root va pa flags n ∧
        (one_region va n → 0 < n → free_count s' = free_count s - missing (mem s) root va)
    | Err => ∃ k, 0 ≤ k < n ∧ mapped_upto (mem s) (mem s') root va pa flags k ∧
        (pt_lookup (mem s) root (va + k * PAGE_SIZE) ≠ None ∨
         free_count s' = 0 ∧ (one_region va n → free_count s < missing (mem s) root va))
    end) s.
Proof.
  intros Hpw Hwf Hown Hfc Hva Hpa Hsize Hvb Hpb n. unfold pgtable_map.
  assert ((size =? 0) || negb (va mod PAGE_SIZE =? 0) || negb (pa mod PAGE_SIZE =? 0) = false) as ->.
  { destruct Hva as [_ ->], Hpa as [_ ->]. lia. }
  fold n.
  assert (0 ≤ n ∧ n * 4096 ≤ size) as [Hn0 Hn].
  { unfold n, PAGE_SIZE. split; [apply Z.div_pos; lia|]. pose proof (Z.div_mod size 4096).
    pose proof (Z.mod_pos_bound size 4096). lia. }
  apply wp_try_foreach with (I := λ done s', let k := Z.of_nat (length done) in
    pt_grows s s' root ∧ 0 ≤ free_count s' ∧ (k = 0 → s' = s) ∧
    (∀ i, 0 ≤ i < k → pt_lookup (mem s) root (va + i * PAGE_SIZE) = None) ∧
    mapped_upto (mem s) (mem s') root va pa flags k ∧
    (one_region va n → free_count s' = free_count s - if decide (k = 0) then 0 else missing (mem s) root va)).
  - cbn [length]. split; [by apply pt_grows_refl|]. split; [done|].
    split; [done|]. split; [lia|]. split; [|intros _; rewrite decide_True by done; lia].
    intros v Hv. rewrite decide_False; [done|]. unfold PAGE_SIZE. lia.
  - intros dn x rest s' Hl (Hg & Hfc' & Hz & Hun & Hmap & Hreg). cbv zeta in *.
    set (k := Z.of_nat (length dn)) in *.
    assert (x = k ∧ k < n) as [-> Hk].
    { assert (seqZ 0 n !! length dn = Some x) as E by (by rewrite Hl, list_lookup_middle).
      apply lookup_seqZ in E. lia. }
    assert (va +' k *' PAGE_SIZE = va + k * PAGE_SIZE) as ->.
    { destruct Hva. unfold u64, PAGE_SIZE in *.
      rewrite (Z.mod_small (k * 4096)) by lia. rewrite Z.mod_small by lia. done. }
    assert (pa +' k *' PAGE_SIZE = pa + k * PAGE_SIZE) as ->.
    { destruct Hpa. unfold u64, PAGE_SIZE in *.
      rewrite (Z.mod_small (k * 4096)) by lia. rewrite Z.mod_small by lia. done. }
    assert (pt_lookup (mem s') root (va + k * PAGE_SIZE) = pt_lookup (mem s) root (va + k * PAGE_SIZE)) as Hsame.
    { destruct Hva. rewrite Hmap by (unfold PAGE_SIZE; lia).
      rewrite decide_False by (unfold PAGE_SIZE; lia). done. }
    assert (one_region va n → missing (mem s') root (va + k * PAGE_SIZE) =
              if decide (k = 0) then missing (mem s) root va else 0) as Hmiss.
    { intros Hr. case_decide as Ek.
      - replace (va + k * PAGE_SIZE) with va by lia.
        by rewrite Hz.
      - assert (0 ≤ k - 1 < n) as Hk1 by lia. destruct (Hr _ Hk1) as [E2 E1].
        destruct (Hr k) as [E2' E1']; [lia|].
        assert (pt_lookup (mem s') root (va + (k - 1) * PAGE_SIZE) ≠ None) as Hlk.
        { destruct Hva. rewrite Hmap by (unfold PAGE_SIZE; lia).
          rewrite decide_True by (unfold PAGE_SIZE; lia). done. }
        destruct (pt_lookup (mem s') root (va + (k - 1) * PAGE_SIZE)) as [pte|] eqn:El; [|done].
        apply slot_of_lookup in El as (e & He & _).
        apply missing_zero in He. rewrite <- He. apply missing_region; congruence. }
    eapply wp_mono; [apply map_page_wp; apply Hg || done|].
    intros [[]|] s2 (Hg2 & Hfc2 & H2).
    + destruct H2 as (Hnone & Hlk2 & Hf2). rewrite length_app. cbn [length].
      replace (Z.of_nat (length dn + 1)) with (k + 1) by lia.
      split; [by eapply pt_grows_trans|]. split; [done|]. split; [lia|]. split.
      { intros i Hi. destruct (decide (i = k)) as [->|]; [by rewrite <- Hsame|].
        apply Hun. lia. }
      split; [apply (mapped_upto_step _ (mem s')); try done; unfold PAGE_SIZE; lia|].
      intros Hr. rewrite Hf2, Hreg, Hmiss by done.
      rewrite (decide_False (P := k + 1 = 0)) by lia. case_decide; lia.
    + destruct H2 as [Hlk2 Hwhy]. split; [by eapply pt_grows_trans|]. split; [done|].
      exists k. split; [lia|]. split; [intros v Hv; rewrite Hlk2; by apply Hmap|].
      rewrite <- Hsame. destruct Hwhy as [|[Hlt H0]]; [by left|right]. split; [done|].
      intros Hr. specialize (Hreg Hr). rewrite Hmiss in Hlt by done.
      case_decide as Ek; [|lia]. by rewrite Hz in Hlt by done.
  - intros s' (Hg & Hfc' & _ & Hun & Hmap & Hreg). cbv zeta in *.
    assert (Z.of_nat (length (seqZ 0 n)) = n) as Hlen by (rewrite length_seqZ; lia).
    rewrite Hlen in *. split; [done|]. split; [done|]. split; [done|]. split; [done|].
    intros Hr Hpos. rewrite Hreg by done. rewrite decide_False by lia. done.
Qed.
End ranges.

(** ** Rewriting the entries of a range in place: [set_flags] and [unmap] *)

Section rewriting.
Implicit Types (s : mach) (m : memory) (root va : Z) (f : Z → option Z).

(** The first [k] pages from [va] have their entry [pte] replaced by [f pte]. *)
Definition rewritten_upto m m' root va k f : Prop :=
  ∀ v, 0 ≤ v < 2 ^ 39 →
    pt_lookup m' root v =
      if decide (va ≤ v < va + k * PAGE_SIZE) then pt_lookup m root v ≫= f
      else pt_lookup m root v.

Lemma rewritten_upto_0 m root va f : rewritten_upto m m root va 0 f.
Proof. intros v Hv. rewrite decide_False; [done|]. unfold PAGE_SIZE. lia. Qed.
Lemma rewritten_upto_step m m1 m2 root va k f :
  page_aligned va → 0 ≤ k → va + (k + 1) * PAGE_SIZE ≤ 2 ^ 39 →
  rewritten_upto m m1 root va k f →
  (∀ v, pt_lookup m2 root v =
     if decide (same_vpn (va + k * PAGE_SIZE) v) then pt_lookup m1 root v ≫= f
     else pt_lookup m1 root v) →
  rewritten_upto m m2 root va (k + 1) f.
Proof.
  intros Hva Hk Hb H1 H2 v Hv. rewrite H2, H1 by done.
  assert (page_aligned (va + k * PAGE_SIZE)) by by apply page_aligned_add.
  assert (same_vpn (va + k * PAGE_SIZE) v ↔
            va + k * PAGE_SIZE ≤ v < va + k * PAGE_SIZE + PAGE_SIZE) as Hs
    by (apply same_vpn_page; [done|unfold PAGE_SIZE in *; lia|done]).
  destruct Hva as [Hva0 Hvam]. unfold PAGE_SIZE in *.
  destruct (decide (same_vpn (va + k * 4096) v)) as [Hin|Hout].
  - apply Hs in Hin. rewrite decide_False by lia. by rewrite decide_True by lia.
  - rewrite Hs in Hout. case_decide; [by rewrite decide_True by lia|].
    by rewrite decide_False by lia.
Qed.

(** Such a loop leaves the tables, their addresses and the other globals alone. *)
Record pt_same (s s' : mach) (root : Z) : Prop := {
  same_pages : pages_wf s';
  same_wf : pt_wf (mem s') root;
  same_glob : same_globals s s';
  same_managed b : managed s' b ↔ managed s b;
  same_nodes n : node_ok n → node_addr (mem s') root n = node_addr (mem s) root n;
  same_frame a :
    (∀ t, is_table (mem s) root t → ¬ in_page t a) → load64 (mem s') a = load64 (mem s) a;
}.
Lemma pt_same_slot s s' root va : pt_same s s' root → slot (mem s') root va = slot (mem s) root va.
Proof.
  intros H. unfold slot. rewrite (same_nodes _ _ _ H); [done|]. split; apply vpn_bound.
Qed.
Lemma pt_same_table s s' root a :
  pt_same s s' root → is_table (mem s') root a ↔ is_table (mem s) root a.
Proof.
  intros H. split; intros (n & Hn & Ha); exists n; (split; [done|]);
    [by rewrite <- (same_nodes _ _ _ H)|by rewrite (same_nodes _ _ _ H)].
Qed.
Lemma pt_same_refl s root : pages_wf s → pt_wf (mem s) root → pt_same s s root.
Proof. by split. Qed.
Lemma pt_same_trans s1 s2 s3 root : pt_same s1 s2 root → pt_same s2 s3 root → pt_same s1 s3 root.
Proof.
  intros H1 H2. pose proof (λ a, pt_same_table _ _ _ a H1) as Ht.
  destruct H1 as [? ? ? Hm1 Hn1 Hf1], H2 as [? ? ? Hm2 Hn2 Hf2]. split; [done..| | | |].
  - by eapply same_globals_trans.
  - intros b. by rewrite Hm2.
  - intros n Hn. by rewrite Hn2, Hn1.
  - intros a Ha. rewrite Hf2; [by apply Hf1|]. intros t. rewrite Ht. apply Ha.
Qed.
Lemma slot_store_same s root va e v :
  pages_wf s → pt_wf (mem s) root → slot (mem s) root va = Some e →
  pt_same s (set_mem (λ m, store64 m e v) s) root.
Proof.
  intros Hpw Hwf He. destruct (slot_in_table _ _ _ _ He) as (t0 & Ht0 & _ & He0).
  split; [exact Hpw|by apply (pt_wf_slot_store _ _ va)|done|done| |].
  - intros n Hn. by apply (node_addr_slot_store _ _ va).
  - intros a Ha. cbn [mem set_mem]. apply load64_store64_ne. intros ->.
    apply (Ha t0 Ht0). rewrite He0. apply entry_in_page, vpn_bound.
Qed.

(** The entry [set_flags] writes. *)
Definition with_flags (flags pte : Z) : option Z :=
  Some (pa_to_pte (pte_to_pa pte) (Z.lor flags PTE_V)).

Lemma lookup_at_slot m root va e :
  slot m root va = Some e →
  pt_lookup m root va = if pte_valid (load64 m e) then Some (load64 m e) else None.
Proof. intros He. unfold pt_lookup. by rewrite He. Qed.

Lemma set_flags_page_wp s root va flags :
  pages_wf s → pt_wf (mem s) root →
  wp (set_flags_page root va flags) (λ r s',
    match r with
    | Ok _ => pt_lookup (mem s) root va ≠ None ∧ pt_same s s' root ∧
        PAGE_ALLOCATOR s' = PAGE_ALLOCATOR s ∧
        ∀ v, pt_lookup (mem s') root v =
          if decide (same_vpn va v) then pt_lookup (mem s) root v ≫= with_flags flags
          else pt_lookup (mem s) root v
    | Err => pt_lookup (mem s) root va = None ∧ s' = s
    end) s.
Proof.
  intros Hpw Hwf. unfold set_flags_page. apply wp_try_bind, wp_bind.
  unfold wp at 1. rewrite walk_read. apply wp_ret.
  destruct (slot (mem s) root va) as [e|] eqn:He; cbn [ok_or];
    [|unfold pt_lookup; by rewrite He].
  apply wp_bind, wp_gets. pose proof (lookup_at_slot _ _ _ _ He) as Hlk.
  destruct (pte_valid (load64 (mem s) e)) eqn:Ev; cbn [negb]; [|by apply wp_ret].
  apply wp_bind, wp_modify, wp_ret. split; [by rewrite Hlk|].
  split; [by apply (slot_store_same _ _ va)|]. split; [done|]. intros v.
  cbn [mem set_mem]. rewrite (pt_lookup_slot_store _ _ va) by done.
  rewrite pte_valid_pa_to_pte, pte_valid_lor_V. case_decide as Hs; [|done].
  by rewrite (pt_lookup_same_vpn _ _ va v), Hlk.
Qed.

(** Freeing a data page and clearing its entry. *)
Lemma unmap_page_wp s root va fp :
  pages_wf s → pt_wf (mem s) root →
  wp (unmap_page root va fp) (λ r s',
    match r with
    | Ok _ => slot (mem s) root va ≠ None ∧ pt_same s s' root ∧
        (∀ b, is_alloc s' b ↔ is_alloc s b ∧
           ¬ (fp = true ∧ pte_to_pa <$> pt_lookup (mem s) root va = Some b)) ∧
        ∀ v, pt_lookup (mem s') root v =
          if decide (same_vpn va v) then None else pt_lookup (mem s) root v
    | Err => slot (mem s) root va = None ∧ s' = s
    end) s.
Proof.
  intros Hpw Hwf. unfold unmap_page. apply wp_try_bind, wp_bind.
  unfold wp at 1. rewrite walk_read. apply wp_ret.
  destruct (slot (mem s) root va) as [e|] eqn:He; cbn [ok_or]; [|done].
  apply wp_bind, wp_gets.
  pose proof (lookup_at_slot _ _ _ _ He) as Hlk.
  destruct (pte_valid (load64 (mem s) e)) eqn:Ev; cbn [negb].
  2: { apply wp_ret. split; [done|]. split; [by apply pt_same_refl|]. rewrite Hlk. split.
       - intros b. split; [|tauto]. intros Hb. split; [done|]. by intros [_ ?].
       - intros v. case_decide; [|done]. by rewrite (pt_lookup_same_vpn _ _ va v). }
  set (pa := pte_to_pa (load64 (mem s) e)) in *.
  assert (page_aligned pa) as Hal by apply pte_to_pa_aligned.
  apply wp_bind. eapply wp_mono with (Q1 := λ _ s1, pages_wf s1 ∧ mem s1 = mem s ∧
    same_globals s s1 ∧ (∀ b, managed s1 b ↔ managed s b) ∧
    (∀ b, is_alloc s1 b ↔ is_alloc s b ∧ ¬ (fp = true ∧ pa = b))).
  { destruct fp.
    - pose proof (pte_to_pa_bound (load64 (mem s) e)). fold pa in H.
      eapply wp_mono; [apply page_free_wp; [done|destruct Hal; unfold is_u64; lia]|].
      intros _ s1 (? & ? & ? & ? & Hf). split_and!; try done. intros b. rewrite Hf.
      split; intros [Hb Hn]; (split; [done|]).
      + intros [_ <-]. apply Hn. unfold in_page, PAGE_SIZE. lia.
      + intros Hin. apply Hn. split; [done|]. apply is_alloc_aligned in Hb as [Hba _]; [|done].
        destruct (decide (pa = b)); [done|]. exfalso.
        apply page_aligned_ne in n; [|done..]. unfold in_page in Hin. lia.
    - apply wp_ret. split_and!; try done. intros b. split; [|tauto]. intros Hb.
      split; [done|]. by intros [? _]. }
  intros _ s1 (Hpw1 & Hm1 & Hg1 & Hmg1 & Ha1). apply wp_bind, wp_modify, wp_ret.
  rewrite <- Hm1 in He, Hwf. split; [done|]. split.
  { apply pt_same_trans with s1; [|by apply (slot_store_same _ _ va)].
    split; [done..|by rewrite Hm1|intros; by rewrite Hm1]. }
  split.
  - intros b.
    assert (pte_to_pa <$> pt_lookup (mem s) root va = Some b ↔ pa = b) as ->
      by (rewrite Hlk; split; [by intros [= <-]|by intros <-]).
    rewrite <- Ha1. done.
  - intros v. cbn [mem set_mem]. rewrite (pt_lookup_slot_store _ _ va) by done.
    rewrite Hm1. done.
Qed.
End rewriting.

Section rewriting_loop.
Context (root : Z) (f : Z → option Z).
(** One page: when it fails, which page it frees. *)
Context (body : Z → M (result unit)) (bad : memory → Z → Prop) (freed : memory → Z → Z → Prop).
Hypothesis body_wp : ∀ s va, pages_wf s → pt_wf (mem s) root →
  wp (body va) (λ r s',
    match r with
    | Ok _ => ¬ bad (mem s) va ∧ pt_same s s' root ∧
        (∀ b, is_alloc s' b ↔ is_alloc s b ∧ ¬ freed (mem s) va b) ∧
        ∀ v, pt_lookup (mem s') root v =
          if decide (same_vpn va v) then pt_lookup (mem s) root v ≫= f
          else pt_lookup (mem s) root v
    | Err => bad (mem s) va ∧ s' = s
    end) s.
Hypothesis local : ∀ m m' va,
  slot m' root va = slot m root va → pt_lookup m' root va = pt_lookup m root va →
  (bad m' va ↔ bad m va) ∧ ∀ b, freed m' va b ↔ freed m va b.

Lemma rewriting_loop_wp s va n (g : Z → Z) (bd : Z → M (result unit)) :
  pages_wf s → pt_wf (mem s) root → page_aligned va → 0 ≤ n →
  va + n * PAGE_SIZE ≤ 2 ^ 39 →
  (∀ i, 0 ≤ i < n → bd (g i) = body (va + i * PAGE_SIZE)) →
  wp (try_foreach (g <$> seqZ 0 n) bd) (λ r s',
    pt_same s s' root ∧ ∃ k, 0 ≤ k ≤ n ∧
      match r with Ok _ => k = n | Err => k < n ∧ bad (mem s) (va + k * PAGE_SIZE) end ∧
      (∀ i, 0 ≤ i < k → ¬ bad (mem s) (va + i * PAGE_SIZE)) ∧
      rewritten_upto (mem s) (mem s') root va k f ∧
      ∀ b, is_alloc s' b ↔
        is_alloc s b ∧ ¬ ∃ i, 0 ≤ i < k ∧ freed (mem s) (va + i * PAGE_SIZE) b) s.
Proof.
  intros Hpw Hwf Hva Hn Hb Hbd.
  apply wp_try_foreach with (I := λ dn s', let k := Z.of_nat (length dn) in
    pt_same s s' root ∧ (∀ i, 0 ≤ i < k → ¬ bad (mem s) (va + i * PAGE_SIZE)) ∧
    rewritten_upto (mem s) (mem s') root va k f ∧
    ∀ b, is_alloc s' b ↔
      is_alloc s b ∧ ¬ ∃ i, 0 ≤ i < k ∧ freed (mem s) (va + i * PAGE_SIZE) b).
  - cbv zeta. cbn [length]. split; [by apply pt_same_refl|]. split; [lia|].
    split; [apply rewritten_upto_0|]. intros b. split; [|tauto]. intros Hal.
    split; [done|]. intros (i & Hi & _). lia.
  - intros dn x rest s' Hl (Hs & Hok & Hrw & Hal). cbv zeta in *.
    assert (0 ≤ Z.of_nat (length dn) < n ∧ x = g (Z.of_nat (length dn))) as [Hk ->].
    { assert ((g <$> seqZ 0 n) !! length dn = Some x) as E by (by rewrite Hl, list_lookup_middle).
      apply list_lookup_fmap_Some in E as (i & -> & Ei%lookup_seqZ).
      destruct Ei as [-> ?]. replace (0 + Z.of_nat (length dn)) with (Z.of_nat (length dn)) by lia.
      split; [lia|done]. }
    set (k := Z.of_nat (length dn)) in *. rewrite Hbd by done.
    destruct (local (mem s) (mem s') (va + k * PAGE_SIZE)) as [Hbad Hfr].
    { by apply (pt_same_slot s). }
    { destruct Hva. rewrite Hrw by (unfold PAGE_SIZE in *; lia).
      rewrite decide_False by (unfold PAGE_SIZE; lia). done. }
    eapply wp_mono; [apply body_wp; apply Hs|]. intros [[]|] s2.
    + intros (Hnb & Hs2 & Hal2 & Hlk). rewrite length_app. cbn [length].
      replace (Z.of_nat (length dn + 1)) with (k + 1) by lia.
      split; [by eapply pt_same_trans|]. split.
      { intros i Hi. destruct (decide (i = k)) as [->|]; [by rewrite <- Hbad|].
        apply Hok. lia. }
      split; [apply (rewritten_upto_step _ (mem s')); try done; unfold PAGE_SIZE in *; lia|].
      intros b. rewrite Hal2, Hal, Hfr. split.
      * intros [[Ha Hn1] Hn2]. split; [done|]. intros (i & Hi & Hf).
        destruct (decide (i = k)) as [->|]; [done|]. apply Hn1. exists i. split; [lia|done].
      * intros [Ha Hn1]. split; [split; [done|]|].
        { intros (i & Hi & Hf). apply Hn1. exists i. split; [lia|done]. }
        intros Hf. apply Hn1. exists k. split; [lia|done].
    + intros [Hbd' ->]. split; [done|]. exists k. split; [lia|].
      split; [split; [lia|by rewrite <- Hbad]|]. done.
  - intros s' (Hs & Hok & Hrw & Hal). cbv zeta in *.
    assert (Z.of_nat (length (g <$> seqZ 0 n)) = n) as Hlen
      by (rewrite length_fmap, length_seqZ; lia).
    rewrite Hlen in *. split; [done|]. exists n. split; [lia|]. done.
Qed.
End rewriting_loop.

Lemma page_offset va i n :
  page_aligned va → 0 ≤ i < n → va + n * PAGE_SIZE ≤ 2 ^ 39 →
  va +' i *' PAGE_SIZE = va + i * PAGE_SIZE.
Proof.
  intros [Hva _] Hi Hb. unfold u64, PAGE_SIZE in *.
  rewrite (Z.mod_small (i * 4096)) by lia. by rewrite Z.mod_small by lia.
Qed.

(** ** Releasing a tree of tables *)

(** The tables below [t], and that the recursion reaches no further than [fuel]
    levels. *)
Fixpoint below (m : memory) (fuel : nat) (t b : Z) : Prop :=
  match fuel with
  | O => False
  | S fuel => ∃ k c, 0 ≤ k < 512 ∧ next_table m t k = Some c ∧ (b = c ∨ below m fuel c b)
  end.
Fixpoint shallow (m : memory) (fuel : nat) (t : Z) : Prop :=
  match fuel with
  | O => False
  | S fuel => ∀ k c, 0 ≤ k < 512 → next_table m t k = Some c → shallow m fuel c
  end.

Section freeing.
Implicit Types (s : mach) (m : memory) (root : Z).

(** [page_free] of a page address removes that page and no other. *)
Lemma page_free_addr_wp s a :
  pages_wf s → page_aligned a → a < 2 ^ 56 →
  wp (page_free a) (λ _ s',
    pages_wf s' ∧ mem s' = mem s ∧ same_globals s s' ∧
    ∀ b, is_alloc s' b ↔ is_alloc s b ∧ b ≠ a) s.
Proof.
  intros Hpw Ha Hb. destruct (Ha) as [H0 _].
  eapply wp_mono; [apply page_free_wp; [done|unfold is_u64; lia]|].
  intros _ s' (Hp & Hm & Hg & _ & Hal). split_and!; [done..|]. intros b. rewrite Hal.
  split; intros [Hal' Hn]; (split; [done|]).
  - intros ->. apply Hn. unfold in_page, PAGE_SIZE. lia.
  - intros Hin. apply is_alloc_aligned in Hal' as [Hba _]; [|done].
    apply page_aligned_ne in Hn; [|done..]. unfold in_page in Hin. lia.
Qed.

Lemma free_walk_wp fuel s t :
  pages_wf s → shallow (mem s) fuel t →
  wp (free_walk fuel t) (λ _ s',
    pages_wf s' ∧ mem s' = mem s ∧ same_globals s s' ∧
    ∀ b, is_alloc s' b ↔ is_alloc s b ∧ ¬ below (mem s) fuel t b) s.
Proof.
  revert s t. induction fuel as [|fuel IH]; intros s t Hpw Hsh; [done|].
  cbn [free_walk].
  apply wp_foreach with (I := λ dn s', pages_wf s' ∧ mem s' = mem s ∧ same_globals s s' ∧
    ∀ b, is_alloc s' b ↔ is_alloc s b ∧
      ¬ ∃ k c, k ∈ dn ∧ next_table (mem s) t k = Some c ∧ (b = c ∨ below (mem s) fuel c b)).
  - split_and!; [done..|]. intros b. split; [|tauto]. intros Hb. split; [done|].
    intros (k & c & Hk & _). by apply not_elem_of_nil in Hk.
  - intros dn x rest s' Hl (Hpw' & Hm & Hg & Hal).
    assert (0 ≤ x < 512) as Hx.
    { apply (elem_of_seqZ 0 512). rewrite Hl. apply list_elem_of_middle. }
    apply wp_bind, wp_gets. rewrite Hm.
    pose proof (eq_refl (next_table (mem s) t x)) as E. unfold next_table at 2, decode in E.
    cbv zeta. destruct (pte_valid _ && _) eqn:Ev in E.
    + apply andb_true_iff in Ev as [-> ->]. set (c := pte_to_pa _) in *.
      apply wp_bind. eapply wp_mono.
      { apply IH; [done|]. rewrite Hm. by apply (Hsh x). }
      intros _ s1 (Hpw1 & Hm1 & Hg1 & Hal1).
      assert (c < 2 ^ 56) by apply pte_to_pa_bound.
      eapply wp_mono; [apply page_free_addr_wp; [done|apply pte_to_pa_aligned|done]|].
      intros _ s2 (Hpw2 & Hm2 & Hg2 & Hal2). rewrite Hm in *.
      split; [done|]. split; [congruence|].
      split; [by eapply same_globals_trans; [|eapply same_globals_trans]|].
      intros b. rewrite Hal2, Hal1, Hal. split.
      * intros [[[Ha Hn1] Hn2] Hn3]. split; [done|]. intros (k & c' & Hk & Hc' & Hb).
        apply elem_of_app in Hk as [Hk|Hk%list_elem_of_singleton]; [apply Hn1; by exists k, c'|].
        subst k. rewrite E in Hc'. injection Hc' as <-. tauto.
      * intros [Ha Hn]. split_and!; [done| | |].
        { intros (k & c' & Hk & Hc'). apply Hn. exists k, c'. split; [apply elem_of_app; by left|exact Hc']. }
        { intros Hb. apply Hn. exists x, c. split; [apply list_elem_of_middle|]. split; [done|]. by right. }
        { intros ->. apply Hn. exists x, c. split; [apply list_elem_of_middle|]. split; [done|]. by left. }
    + assert (∀ P : M unit, (if pte_valid (load64 (mem s) (entry_addr t x)) then
        if negb (pte_leaf (load64 (mem s) (entry_addr t x))) then P else mret tt else mret tt)
        = mret tt) as ->.
      { intros P. by destruct (pte_valid _), (pte_leaf _). }
      apply wp_ret. split_and!; [done..|]. intros b. rewrite Hal.
      split; intros [Ha Hn]; (split; [done|]); intros (k & c & Hk & Hc); apply Hn.
      * apply elem_of_app in Hk as [Hk|Hk%list_elem_of_singleton]; [by exists k, c|].
        subst k. destruct Hc. congruence.
      * exists k, c. split; [apply elem_of_app; by left|exact Hc].
  - intros s' (Hpw' & Hm & Hg & Hal). split_and!; [done..|]. intros b. rewrite Hal.
    cbn [below]. split; intros [Ha Hn]; (split; [done|]); intros (k & c & Hk & Hc); apply Hn;
      exists k, c; (split; [by apply (elem_of_seqZ 0 512 k)|done]) ||
      (split; [apply elem_of_seqZ; lia|done]) .
Qed.
End freeing.

(** ** A fresh table, and the whole life of one *)

Section fresh.
Implicit Types (s : mach) (m : memory) (root : Z).

(** Every entry of the page is zero. *)
Definition blank m root : Prop := ∀ k, 0 ≤ k < 512 → load64 m (entry_addr root k) = 0.

Lemma blank_next m root k : blank m root → 0 ≤ k < 512 → next_table m root k = None.
Proof. intros Hb Hk. unfold next_table. by rewrite Hb. Qed.
Lemma blank_nodes m root n :
  blank m root → node_ok n → node_addr m root n = match n with NRoot => Some root | _ => None end.
Proof.
  intros Hb Hn. destruct n as [|i|i j]; cbn [node_addr node_ok] in *; [done|..].
  - by apply blank_next.
  - destruct Hn. by rewrite blank_next.
Qed.
Lemma blank_pt_wf m root : page_aligned root → blank m root → pt_wf m root.
Proof.
  intros Ha Hb. split; [done| |].
  - intros n1 n2 a H1 H2. rewrite !blank_nodes by done. by destruct n1, n2.
  - intros n t k Hn _ Hk. rewrite blank_nodes by done. destruct n; [|done..].
    intros [= <-] _. by rewrite Hb.
Qed.
Lemma blank_tables m root a : blank m root → is_table m root a ↔ a = root.
Proof.
  intros Hb. split.
  - intros (n & Hn & Ha). rewrite blank_nodes in Ha by done. destruct n; congruence.
  - intros ->. by exists NRoot.
Qed.
Lemma blank_lookup m root va : blank m root → pt_lookup m root va = None.
Proof.
  intros Hb. unfold pt_lookup, slot. rewrite blank_nodes; [done..|]. split; apply vpn_bound.
Qed.

Lemma pgtable_create_wp s :
  pages_wf s →
  wp pgtable_create (λ r s',
    pages_wf s' ∧ same_globals s s' ∧ (∀ b, managed s' b ↔ managed s b) ∧
    match r with
    | None => free_count s = 0 ∧ s' = s
    | Some root => page_aligned root ∧ root + PAGE_SIZE < 2 ^ 56 ∧ managed s root ∧
        ¬ is_alloc s root ∧ (∀ b, is_alloc s' b ↔ b = root ∨ is_alloc s b) ∧
        free_count s' = free_count s - 1 ∧ 0 < free_count s ∧
        blank (mem s') root ∧ ∀ a, ¬ in_page root a → load64 (mem s') a = load64 (mem s) a
    end) s.
Proof.
  intros Hpw. unfold pgtable_create. apply wp_otry_bind.
  eapply wp_mono; [by apply page_alloc_wp|].
  intros [root|] s' (Hpw' & Hm & Hg & Hmg & H); [|done].
  destruct H as (Ha & Hb & Hman & Hna & Hal & Hf & Hp).
  apply wp_bind. unfold PageTable_clear. apply wp_modify, wp_ret. cbn [mem set_mem].
  split_and!; try done.
  - intros k Hk. by apply load64_zero_page.
  - intros a Hout. rewrite load64_zero_page_out by done. by rewrite Hm.
Qed.
End fresh.

(** The hypotheses under which a page table is used. *)
Record pt_ready (s : mach) (root : Z) : Prop := {
  ready_pages : pages_wf s;
  ready_wf : pt_wf (mem s) root;
  ready_owned : pt_owned s root;
}.
(** Every mapping has one of R, W, X, so that no entry of a last-level table looks
    like a pointer to a further table. *)
Definition leaves_ok (m : memory) (root : Z) : Prop :=
  ∀ va pte, 0 ≤ va < 2 ^ 39 → pt_lookup m root va = Some pte → pte_leaf pte = true.

(** The address whose walk visits entries [i], [j], [k]. *)
Definition va_of (i j k : Z) : Z := ((i * 512 + j) * 512 + k) * 4096.
Lemma va_of_vpn i j k :
  0 ≤ i < 512 → 0 ≤ j < 512 → 0 ≤ k < 512 →
  0 ≤ va_of i j k < 2 ^ 39 ∧
  vpn (va_of i j k) 2 = i ∧ vpn (va_of i j k) 1 = j ∧ vpn (va_of i j k) 0 = k.
Proof.
  intros Hi Hj Hk. split; [unfold va_of; lia|]. rewrite !vpn_div by lia. unfold va_of.
  change (2 ^ (12 + 9 * 2)) with (4096 * (512 * 512)).
  change (2 ^ (12 + 9 * 1)) with (4096 * 512). change (2 ^ (12 + 9 * 0)) with 4096.
  rewrite <- !Z.div_div, Z.div_mul by lia.
  assert (((i * 512 + j) * 512 + k) / 512 = i * 512 + j) as E
    by (symmetry; apply Z.div_unique with k; lia).
  assert ((i * 512 + j) / 512 = i) as E' by (symmetry; apply Z.div_unique with j; lia).
  rewrite E, E', Z.mod_small by lia.
  replace ((i * 512 + j) * 512 + k) with (k + (i * 512 + j) * 512) by lia.
  rewrite Z.mod_add by lia. replace (i * 512 + j) with (j + i * 512) by lia.
  rewrite Z.mod_add by lia. by rewrite !Z.mod_small by lia.
Qed.

Lemma leaves_ok_last m root i j t k :
  leaves_ok m root → 0 ≤ i < 512 → 0 ≤ j < 512 → 0 ≤ k < 512 →
  node_addr m root (NLeaf i j) = Some t → next_table m t k = None.
Proof.
  intros H Hi Hj Hk Ht. destruct (va_of_vpn i j k Hi Hj Hk) as (Hv & E2 & E1 & E0).
  unfold next_table, decode. destruct (pte_valid _) eqn:Ev; [|done].
  assert (pt_lookup m root (va_of i j k) = Some (load64 m (entry_addr t k))) as El.
  { unfold pt_lookup, slot, leaf_node. rewrite E2, E1, E0, Ht. cbn [mbind option_bind].
    by rewrite Ev. }
  by rewrite (H _ _ Hv El).
Qed.
Lemma leaves_ok_shallow m root : leaves_ok m root → shallow m PT_LEVELS root.
Proof.
  intros H i c Hi Hc j c' Hj Hc' k c'' Hk Hc''.
  assert (node_addr m root (NLeaf i j) = Some c') as E by (cbn [node_addr]; by rewrite Hc).
  by rewrite (leaves_ok_last m root i j c' k) in Hc''.
Qed.
Lemma below_tables m root b :
  leaves_ok m root → is_table m root b ↔ b = root ∨ below m PT_LEVELS root b.
Proof.
  intros H. split.
  - intros ([|i|i j] & Hn & Ha); cbn [node_ok node_addr] in *.
    + injection Ha as <-. by left.
    + right. exists i, b. split; [done|]. split; [done|]. by left.
    + destruct Hn as [Hi Hj]. destruct (next_table m root i) as [t|] eqn:E; [|done].
      right. exists i, t. split; [done|]. split; [done|]. right.
      exists j, b. split; [done|]. split; [done|]. by left.
  - intros [->|(i & t & Hi & Ht & [->|(j & c & Hj & Hc & [->|(k & d & Hk & Hd & _)])])].
    + by exists NRoot.
    + by exists (NMid i).
    + exists (NLeaf i j). split; [done|]. cbn [node_addr]. by rewrite Ht.
    + exfalso. assert (node_addr m root (NLeaf i j) = Some c) as E
        by (cbn [node_addr]; by rewrite Ht).
      by rewrite (leaves_ok_last m root i j c k) in Hd.
Qed.

(** A machine just after boot, with one blank page table. *)
Definition demo_boot : mach := mkMach ∅ (Some (page_init 0x80210000)) None ∅ ∅ [] [].
Definition demo_root : Z := 0x80210000.
Definition demo : mach :=
  match pgtable_create demo_boot with Done (_, s) => s | _ => demo_boot end.

Lemma demo_facts :
  pgtable_create demo_boot = Done (Some demo_root, demo) ∧ pt_ready demo demo_root ∧
  blank (mem demo) demo_root ∧ 0 < free_count demo.
Proof.
  assert (pages_wf demo_boot) as Hwf.
  { eexists. split; [done|]. split; [|done]. apply PageAllocator_new_wf; vm_compute; intuition congruence. }
  pose proof (pgtable_create_wp _ Hwf) as H. unfold wp in H.
  assert (pgtable_create demo_boot = Done (Some demo_root, demo)) as E.
  { assert (returns_some demo_root (pgtable_create demo_boot) = true) as E
      by (vm_compute; reflexivity).
    apply returns_some_inv in E as (s & E). unfold demo. by rewrite E. }
  rewrite E in H. destruct H as (Hpw & _ & _ & Ha & _ & _ & _ & Hal & Hf & Hp & Hbl & _).
  split; [done|]. split; [|split; [done|]].
  - split; [done|by apply blank_pt_wf|]. intros a Ht. apply blank_tables in Ht; [|done].
    apply Hal. by left.
  - rewrite Hf. vm_compute. done.
Qed.

(** ** Properties of the page-table operations *)

(** [C8] [map] maps a prefix of the range, and all of it when it returns [Ok].  On
    a well-formed table, for aligned addresses in range, [map] returns (it neither
    panics nor loops); the table is well-formed again and built of allocated pages;
    the first [k] pages of the range are mapped to consecutive physical pages with
    the flags and V, and every other address keeps its entry.  The result is [Ok]
    exactly when the prefix is the whole range.  When it is [Err], the page [map]
    stopped at was already mapped, or no free page was left for a table. *)
Theorem pgtable_map_correct s root va pa size flags :
  pt_ready s root → 0 ≤ free_count s → page_aligned va → page_aligned pa → 0 < size →
  va + size ≤ 2 ^ 39 → pa + size ≤ 2 ^ 56 →
  ∃ r s' k, pgtable_map root va pa size flags s = Done (r, s') ∧
    pt_ready s' root ∧ same_globals s s' ∧
    0 ≤ k ≤ size / PAGE_SIZE ∧ (r = Ok tt ↔ k = size / PAGE_SIZE) ∧
    (∀ v, 0 ≤ v < 2 ^ 39 → pt_lookup (mem s') root v =
       if decide (va ≤ v < va + k * PAGE_SIZE)
       then Some (pa_to_pte (pa + (v - va) / PAGE_SIZE * PAGE_SIZE) (Z.lor flags PTE_V))
       else pt_lookup (mem s) root v) ∧
    (r = Err → pt_lookup (mem s) root (va + k * PAGE_SIZE) ≠ None ∨ free_count s' = 0).
Proof.
  intros [Hp Hw Ho] Hf Hva Hpa Hs Hvb Hpb.
  pose proof (pgtable_map_wp s root va pa size flags Hp Hw Ho Hf Hva Hpa Hs Hvb Hpb) as H.
  cbv zeta in H. apply wp_Done in H as (r & s' & E & Hg & _ & Hr).
  assert (0 ≤ size / PAGE_SIZE) by (unfold PAGE_SIZE; apply Z.div_pos; lia).
  assert (pt_ready s' root) by (split; apply Hg).
  destruct r as [[]|].
  - destruct Hr as (_ & Hmap & _). exists (Ok tt), s', (size / PAGE_SIZE).
    split; [exact E|]. split_and!; try done; try lia. by apply Hg.
  - destruct Hr as (k & Hk & Hmap & Hwhy). exists Err, s', k.
    split; [exact E|]. split_and!; try done; try lia; [by apply Hg|split; [done|lia]|].
    intros _. destruct Hwhy as [|[? _]]; [by left|by right].
Qed.
Lemma pgtable_map_correct_witness :
  ∃ r s' k, pgtable_map demo_root 0x40000000 0x80300000 8192 (Z.lor PTE_R PTE_U) demo = Done (r, s') ∧
    pt_ready s' demo_root ∧ same_globals demo s' ∧
    0 ≤ k ≤ 8192 / PAGE_SIZE ∧ (r = Ok tt ↔ k = 8192 / PAGE_SIZE) ∧
    (∀ v, 0 ≤ v < 2 ^ 39 → pt_lookup (mem s') demo_root v =
       if decide (0x40000000 ≤ v < 0x40000000 + k * PAGE_SIZE)
       then Some (pa_to_pte (0x80300000 + (v - 0x40000000) / PAGE_SIZE * PAGE_SIZE)
                    (Z.lor (Z.lor PTE_R PTE_U) PTE_V))
       else pt_lookup (mem demo) demo_root v) ∧
    (r = Err → pt_lookup (mem demo) demo_root (0x40000000 + k * PAGE_SIZE) ≠ None ∨
               free_count s' = 0).
Proof.
  destruct demo_facts as (_ & Hr & _ & Hf).
  apply (pgtable_map_correct demo demo_root 0x40000000 0x80300000 8192 (Z.lor PTE_R PTE_U) Hr);
    [lia|split; [lia|reflexivity]..|lia|lia|lia].
Defined.

(** What [virt_to_phys] answers after a successful [map]: inside the range the
    physical address at the same offset, outside it what it answered before. *)
Theorem map_then_virt_to_phys s root va pa size flags s1 v :
  pt_ready s root → 0 ≤ free_count s → page_aligned va → page_aligned pa → 0 < size →
  va + size ≤ 2 ^ 39 → pa + size ≤ 2 ^ 56 → 0 ≤ flags < 2 ^ 10 →
  pgtable_map root va pa size flags s = Done (Ok tt, s1) → 0 ≤ v < 2 ^ 39 →
  virt_to_phys root v s1 = Done
    (if decide (va ≤ v < va + size / PAGE_SIZE * PAGE_SIZE) then Some (pa + (v - va))
     else translate (mem s) root v, s1).
Proof.
  intros [Hp Hw Ho] Hf Hva Hpa Hs Hvb Hpb Hfl E Hv.
  pose proof (pgtable_map_wp s root va pa size flags Hp Hw Ho Hf Hva Hpa Hs Hvb Hpb) as H.
  cbv zeta in H. unfold wp in H. rewrite E in H. destruct H as (_ & _ & _ & Hmap & _).
  rewrite virt_to_phys_read. unfold translate. rewrite Hmap by done.
  case_decide as Hin; [|done]. cbn [fmap option_fmap option_map]. do 3 f_equal.
  set (o := v - va). assert (0 ≤ o < size / PAGE_SIZE * PAGE_SIZE) as Ho' by (unfold o; lia).
  unfold PAGE_SIZE in *.
  pose proof (Z.div_mod size 4096). pose proof (Z.mod_pos_bound size 4096).
  pose proof (Z.div_mod o 4096). pose proof (Z.mod_pos_bound o 4096).
  assert (0 ≤ o / 4096) by (apply Z.div_pos; lia).
  pose proof (page_aligned_add pa (o / 4096) Hpa ltac:(lia)) as Hal. unfold PAGE_SIZE in Hal.
  rewrite pte_to_pa_of; [|done|lia|apply (lor_bound 10); [lia|done|vm_compute; split; congruence]].
  change (4096 - 1) with (Z.ones 12). rewrite Z.land_ones by lia. change (2 ^ 12) with 4096.
  assert (v mod 4096 = o mod 4096) as ->.
  { replace v with (o + va / 4096 * 4096); [by rewrite Z.mod_add by lia|].
    destruct Hva as [? Hvm]. unfold PAGE_SIZE in Hvm. pose proof (Z.div_mod va 4096).
    unfold o. lia. }
  destruct Hpa. unfold u64. rewrite Z.mod_small by lia. lia.
Qed.
Lemma map_then_virt_to_phys_witness :
  ∃ s1, pgtable_map demo_root 0x40000000 0x80300000 8192 (Z.lor PTE_R PTE_U) demo
          = Done (Ok tt, s1) ∧
    virt_to_phys demo_root 0x40001abc s1 = Done
      (if decide (0x40000000 ≤ 0x40001abc < 0x40000000 + 8192 / PAGE_SIZE * PAGE_SIZE)
       then Some (0x80300000 + (0x40001abc - 0x40000000))
       else translate (mem demo) demo_root 0x40001abc, s1).
Proof.
  destruct demo_facts as (_ & Hr & _ & Hf%Z.lt_le_incl).
  assert (page_aligned 0x40000000) as Hva by (split; [lia|reflexivity]).
  assert (page_aligned 0x80300000) as Hpa by (split; [lia|reflexivity]).
  assert (returns_ok
    (pgtable_map demo_root 0x40000000 0x80300000 8192 (Z.lor PTE_R PTE_U) demo) = true) as E
    by (vm_compute; reflexivity).
  apply returns_ok_inv in E as (s1 & E).
  exists s1. split; [exact E|].
  apply (map_then_virt_to_phys demo demo_root 0x40000000 0x80300000 8192 (Z.lor PTE_R PTE_U) s1
           0x40001abc Hr Hf Hva Hpa); [..|exact E|]; vm_compute; intuition congruence.
Defined.

(** [unmap]: a prefix of the range, as one page after the other. *)
Lemma pgtable_unmap_wp s root va size fp :
  pages_wf s → pt_wf (mem s) root → page_aligned va → 0 < size → va + size ≤ 2 ^ 39 →
  wp (pgtable_unmap root va size fp) (λ r s', pt_same s s' root ∧ ∃ k, 0 ≤ k ≤ size / PAGE_SIZE ∧
    match r with
    | Ok _ => k = size / PAGE_SIZE
    | Err => k < size / PAGE_SIZE ∧ slot (mem s) root (va + k * PAGE_SIZE) = None
    end ∧
    rewritten_upto (mem s) (mem s') root va k (λ _, None) ∧
    ∀ b, is_alloc s' b ↔ is_alloc s b ∧
       ¬ (fp = true ∧ ∃ i, 0 ≤ i < k ∧
            pte_to_pa <$> pt_lookup (mem s) root (va + i * PAGE_SIZE) = Some b)) s.
Proof.
  intros Hp Hw Hva Hs Hb. set (n := size / PAGE_SIZE).
  assert (0 ≤ n ∧ n * PAGE_SIZE ≤ size) as [Hn Hns].
  { unfold n, PAGE_SIZE. split; [apply Z.div_pos; lia|].
    pose proof (Z.div_mod size 4096). pose proof (Z.mod_pos_bound size 4096). lia. }
  assert (pgtable_unmap root va size fp =
    try_foreach (id <$> seqZ 0 n) (λ i, unmap_page root (va +' i *' PAGE_SIZE) fp)) as Eq.
  { unfold pgtable_unmap. destruct Hva as [_ ->]. rewrite list_fmap_id.
    assert ((size =? 0) = false) as -> by lia. reflexivity. }
  pose proof (rewriting_loop_wp root (λ _, None) (λ v, unmap_page root v fp)
    (λ m v, slot m root v = None)
    (λ m v b, fp = true ∧ pte_to_pa <$> pt_lookup m root v = Some b)) as H.
  ospecialize (H _ _ s va n id (λ i, unmap_page root (va +' i *' PAGE_SIZE) fp) Hp Hw Hva Hn _ _).
  - intros s0 v Hp0 Hw0. eapply wp_mono; [by apply unmap_page_wp|].
    intros [[]|] s1; [|done]. intros (? & ? & ? & Hlk). split_and!; try done.
    intros v'. rewrite Hlk. case_decide; [|done]. by destruct (pt_lookup (mem s0) root v').
  - intros m m' v Hsl Hlk. rewrite Hsl, Hlk. done.
  - lia.
  - intros i Hi. cbn [id]. by rewrite (page_offset va i n) by (done || lia).
  - rewrite Eq. eapply wp_mono; [exact H|]. intros r s' (Hsame & k & Hk & Hr & _ & Hrw & Hal).
    split; [done|]. exists k. split; [done|]. split; [by destruct r|]. split; [done|].
    intros b. rewrite Hal. split; intros [Ha Hn']; (split; [done|]).
    + intros [Hfp (i & Hi & Hi')]. apply Hn'. by exists i.
    + intros (i & Hi & Hfp & Hi'). apply Hn'. split; [done|]. by exists i.
Qed.

(** [C9] [unmap] removes a prefix of the range and, when asked to, releases exactly
    the physical pages it was mapped to.  It is [Ok] exactly when the prefix is the
    whole range; it stops with [Err] only at a page whose last-level table does not
    exist (an absent entry inside a table is skipped).  Tables and everything mapped
    outside the range stay. *)
Theorem pgtable_unmap_correct s root va size fp :
  pt_ready s root → page_aligned va → 0 < size → va + size ≤ 2 ^ 39 →
  ∃ r s' k, pgtable_unmap root va size fp s = Done (r, s') ∧
    pages_wf s' ∧ pt_wf (mem s') root ∧
    0 ≤ k ≤ size / PAGE_SIZE ∧ (r = Ok tt ↔ k = size / PAGE_SIZE) ∧
    (r = Err → slot (mem s) root (va + k * PAGE_SIZE) = None) ∧
    (∀ v, 0 ≤ v < 2 ^ 39 → pt_lookup (mem s') root v =
       if decide (va ≤ v < va + k * PAGE_SIZE) then None else pt_lookup (mem s) root v) ∧
    (∀ b, is_alloc s' b ↔ is_alloc s b ∧
       ¬ (fp = true ∧ ∃ i, 0 ≤ i < k ∧
            pte_to_pa <$> pt_lookup (mem s) root (va + i * PAGE_SIZE) = Some b)).
Proof.
  intros [Hp Hw Ho] Hva Hs Hb. pose proof (pgtable_unmap_wp s root va size fp Hp Hw Hva Hs Hb) as H.
  apply wp_Done in H as (r & s' & E & Hsame & k & Hk & Hr & Hrw & Hal).
  exists r, s', k. split; [exact E|]. split_and!; try (apply Hsame || lia).
  - destruct r as [[]|]; [done|]. split; [done|lia].
  - intros ->. apply Hr.
  - intros v Hv. rewrite Hrw by done. case_decide; [|done]. by destruct (pt_lookup (mem s) root v).
  - done.
Qed.
Lemma pgtable_unmap_correct_witness :
  ∃ r s' k, pgtable_unmap demo_root 0x40000000 8192 true demo = Done (r, s') ∧
    pages_wf s' ∧ pt_wf (mem s') demo_root ∧
    0 ≤ k ≤ 8192 / PAGE_SIZE ∧ (r = Ok tt ↔ k = 8192 / PAGE_SIZE) ∧
    (r = Err → slot (mem demo) demo_root (0x40000000 + k * PAGE_SIZE) = None) ∧
    (∀ v, 0 ≤ v < 2 ^ 39 → pt_lookup (mem s') demo_root v =
       if decide (0x40000000 ≤ v < 0x40000000 + k * PAGE_SIZE) then None
       else pt_lookup (mem demo) demo_root v) ∧
    (∀ b, is_alloc s' b ↔ is_alloc demo b ∧
       ¬ (true = true ∧ ∃ i, 0 ≤ i < k ∧
            pte_to_pa <$> pt_lookup (mem demo) demo_root (0x40000000 + i * PAGE_SIZE) = Some b)).
Proof.
  destruct demo_facts as (_ & Hr & _ & _).
  apply (pgtable_unmap_correct demo demo_root 0x40000000 8192 true Hr);
    [split; [lia|reflexivity]|lia|lia].
Defined.

(** [set_flags] gives a prefix of the range new permissions and moves nothing:
    each entry keeps its physical page.  It is [Ok] exactly when the whole range was
    mapped, and stops with [Err] at the first page that is not. *)
Lemma pgtable_set_flags_correct s root va size flags :
  pt_ready s root → page_aligned va → page_aligned size → 0 < size → va + size ≤ 2 ^ 39 →
  ∃ r s' k, pgtable_set_flags root va size flags s = Done (r, s') ∧
    pt_ready s' root ∧ (∀ b, is_alloc s' b ↔ is_alloc s b) ∧
    0 ≤ k ≤ size / PAGE_SIZE ∧ (r = Ok tt ↔ k = size / PAGE_SIZE) ∧
    (r = Err → pt_lookup (mem s) root (va + k * PAGE_SIZE) = None) ∧
    (∀ i, 0 ≤ i < k → pt_lookup (mem s) root (va + i * PAGE_SIZE) ≠ None) ∧
    (∀ v, 0 ≤ v < 2 ^ 39 → pt_lookup (mem s') root v =
       if decide (va ≤ v < va + k * PAGE_SIZE)
       then (λ pte, pa_to_pte (pte_to_pa pte) (Z.lor flags PTE_V)) <$> pt_lookup (mem s) root v
       else pt_lookup (mem s) root v).
Proof.
  intros [Hp Hw Ho] Hva Hsz Hs Hb. set (n := size / PAGE_SIZE).
  assert (0 ≤ n ∧ size = n * PAGE_SIZE) as [Hn Hns].
  { unfold n. destruct Hsz as [_ Hsz]. unfold PAGE_SIZE in *. split; [apply Z.div_pos; lia|].
    pose proof (Z.div_mod size 4096). lia. }
  assert (pgtable_set_flags root va size flags =
    try_foreach ((λ k, 0 + k * PAGE_SIZE) <$> seqZ 0 n)
      (λ offset, set_flags_page root (va +' offset) flags)) as Eq.
  { unfold pgtable_set_flags, range_step. destruct Hva as [_ ->], Hsz as [_ ->].
    assert ((size =? 0) = false) as -> by lia.
    assert ((size - 0 + PAGE_SIZE - 1) / PAGE_SIZE = n) as ->; [|reflexivity].
    symmetry. apply Z.div_unique with (PAGE_SIZE - 1); unfold PAGE_SIZE in *; lia. }
  pose proof (rewriting_loop_wp root (with_flags flags) (λ v, set_flags_page root v flags)
    (λ m v, pt_lookup m root v = None) (λ m v b, False)) as H.
  ospecialize (H _ _ s va n (λ k, 0 + k * PAGE_SIZE)
    (λ offset, set_flags_page root (va +' offset) flags) Hp Hw Hva Hn _ _).
  - intros s0 v Hp0 Hw0. eapply wp_mono; [by apply set_flags_page_wp|].
    intros [[]|] s1; [|done]. intros (? & ? & Hal & Hlk). split_and!; try done.
    intros b. unfold is_alloc. rewrite Hal. tauto.
  - intros m m' v Hsl Hlk. rewrite Hlk. done.
  - lia.
  - intros i Hi. cbv beta. f_equal. destruct Hva. unfold u64, PAGE_SIZE in *.
    rewrite Z.mod_small by lia. lia.
  - rewrite <- Eq in H. apply wp_Done in H as (r & s' & E & Hsame & k & Hk & Hr & Hok & Hrw & Hal).
    assert (∀ b, is_alloc s' b ↔ is_alloc s b) as Hal'.
    { intros b. rewrite Hal. split; [tauto|]. intros. split; [done|]. by intros (? & _ & []). }
    exists r, s', k. split; [exact E|]. split_and!; try done; try lia.
    + split; [apply Hsame..|]. intros a Ha%(pt_same_table s s'); [|done].
      by apply Hal', Ho.
    + destruct r as [[]|]; [done|]. split; [done|lia].
    + intros ->. apply Hr.
Qed.

Lemma pgtable_free_wp s root :
  pages_wf s → page_aligned root → root < 2 ^ 56 → leaves_ok (mem s) root →
  wp (pgtable_free root) (λ _ s', pages_wf s' ∧ mem s' = mem s ∧ same_globals s s' ∧
    ∀ b, is_alloc s' b ↔ is_alloc s b ∧ ¬ is_table (mem s) root b) s.
Proof.
  intros Hp Ha Hr Hl. unfold pgtable_free. apply wp_bind. eapply wp_mono.
  { apply free_walk_wp; [done|by apply leaves_ok_shallow]. }
  intros _ s1 (Hp1 & Hm1 & Hg1 & Hal1). eapply wp_mono.
  { apply page_free_addr_wp; [exact Hp1|exact Ha|exact Hr]. }
  intros _ s2 (Hp2 & Hm2 & Hg2 & Hal2). split; [exact Hp2|]. split; [by rewrite Hm2|].
  split; [by eapply same_globals_trans|].
  intros b. rewrite Hal2, Hal1, below_tables by done. tauto.
Qed.

(** [C10] [free] terminates and releases the tables of a page table, all of them and
    nothing else, when every mapping has one of R, W, X.  (An entry with V alone in a
    last-level table would be taken for a pointer to a further table.) *)
Theorem pgtable_free_correct s root :
  pt_ready s root → leaves_ok (mem s) root → root < 2 ^ 56 →
  ∃ s', pgtable_free root s = Done (tt, s') ∧ pages_wf s' ∧ mem s' = mem s ∧
    ∀ b, is_alloc s' b ↔ is_alloc s b ∧ ¬ is_table (mem s) root b.
Proof.
  intros [Hp Hw Ho] Hl Hr.
  pose proof (pgtable_free_wp s root Hp (root_aligned _ _ Hw) Hr Hl) as H.
  apply wp_Done in H as ([] & s' & E & Hp' & Hm' & _ & Hal).
  exists s'. split; [exact E|]. split; [exact Hp'|]. split; [exact Hm'|exact Hal].
Qed.
Lemma pgtable_free_correct_witness :
  ∃ s', pgtable_free demo_root demo = Done (tt, s') ∧ pages_wf s' ∧ mem s' = mem demo ∧
    ∀ b, is_alloc s' b ↔ is_alloc demo b ∧ ¬ is_table (mem demo) demo_root b.
Proof.
  destruct demo_facts as (_ & Hr & Hb & _).
  apply (pgtable_free_correct demo demo_root Hr); [|reflexivity].
  intros va pte Hv Hl. rewrite blank_lookup in Hl by exact Hb. discriminate Hl.
Defined.
