(* ===== verification/Vm.v ===== *)
(** Kernel virtual memory, [src/src/kernel/vm.rs]: the identity map of the kernel
    that every address space contains, the UART and PLIC pages, and the [satp] value
    that selects a page table.  A page table is its root's physical address. *)

From S2P Require Import Prelude Arch Page Memory Machine Pgtable.

Definition kernel_start : Z := 0x80200000.
Definition kernel_size : Z := 0x01000000.
Definition UART_PAGE : Z := 0x10000000.

(** [(8usize << 60) | (pt >> PAGE_SHIFT)]. *)
Definition satp_of (pt : Z) : Z := Z.lor (u64 (Z.shiftl 8 60)) (Z.shiftr pt PAGE_SHIFT).

Definition map_plic (pt : Z) : M (result unit) :=
  try_foreach [0x0c000000; 0x0c002000; 0x0c201000] (λ address,
    pgtable_map pt address address PAGE_SIZE (Z.lor PTE_R PTE_W)).

Definition map_kernel (pt : Z) : M (result unit) :=
  _ ←? pgtable_map pt kernel_start kernel_start kernel_size (Z.lor (Z.lor PTE_R PTE_W) PTE_X);
  _ ←? pgtable_map pt UART_PAGE UART_PAGE PAGE_SIZE (Z.lor PTE_R PTE_W);
  _ ←? map_plic pt;
  mret (Ok tt).

(** [vm::init]; the TLB flush has no effect on this state. *)
Definition vm_init : M unit :=
  o ← pgtable_create;
  pt ← unwrap o;
  r ← pgtable_map pt kernel_start kernel_start kernel_size (Z.lor (Z.lor PTE_R PTE_W) PTE_X);
  _ ← expect r;
  r ← pgtable_map pt UART_PAGE UART_PAGE PAGE_SIZE (Z.lor PTE_R PTE_W);
  _ ← expect r;
  r ← map_plic pt;
  _ ← expect r;
  _ ← write_satp (satp_of pt);
  modify (set_kernel_pagetable (Some pt)).

Definition vm_switch (pt : Z) : M unit := write_satp (satp_of pt).

Definition kernel_satp : M Z :=
  o ← gets KERNEL_PAGETABLE;
  pt ← unwrap o;
  mret (satp_of pt).

Definition map_user_buffer (va pa : Z) : M (result unit) :=
  pt ←? (o ← gets KERNEL_PAGETABLE; mret (ok_or o));
  _ ←? pgtable_map pt va pa PAGE_SIZE (Z.lor PTE_R PTE_W);
  mret (Ok tt).

(** ** What [map_kernel] maps *)

(** The pages every address space has: the kernel's 16 MB, the UART, the PLIC. *)
Definition plic_va (v : Z) : bool :=
  ((0x0c000000 <=? v) && (v <? 0x0c000000 + PAGE_SIZE))
  || ((0x0c002000 <=? v) && (v <? 0x0c002000 + PAGE_SIZE))
  || ((0x0c201000 <=? v) && (v <? 0x0c201000 + PAGE_SIZE)).
Definition kernel_va (v : Z) : bool :=
  ((kernel_start <=? v) && (v <? kernel_start + kernel_size))
  || ((UART_PAGE <=? v) && (v <? UART_PAGE + PAGE_SIZE)) || plic_va v.

(** The entry of a page of a range mapped to itself. *)
Definition identity_entry (v flags : Z) : Z :=
  pa_to_pte (v / PAGE_SIZE * PAGE_SIZE) (Z.lor flags PTE_V).
Definition kernel_entry (v : Z) : option Z :=
  if kernel_va v then
    Some (identity_entry v (if kernel_start <=? v then PTE_RWX else Z.lor PTE_R PTE_W))
  else None.

Section identity.
Implicit Types (s : mach) (root va : Z).

Lemma try_foreach_app {A} (l1 l2 : list A) (body : A → M (result unit)) s Q :
  wp (try_foreach l1 body) (λ r s', match r with
    | Ok _ => wp (try_foreach l2 body) Q s' | Err => Q Err s' end) s →
  wp (try_foreach (l1 ++ l2) body) Q s.
Proof.
  revert s. induction l1 as [|x l1 IH]; intros s H; [exact H|].
  simpl. apply wp_try_bind. simpl in H. unfold try_bind in H.
  unfold wp, mbind, st_bind in H. unfold wp at 1.
  destruct (body x s) as [[[a|] s']| |]; [|exact H|done..].
  apply IH. exact H.
Qed.
Lemma try_foreach_fmap {A B} (g : A → B) (l : list A) (body : B → M (result unit)) s :
  try_foreach (g <$> l) body s = try_foreach l (λ x, body (g x)) s.
Proof.
  revert s. induction l as [|x l IH]; intros s; [done|]. simpl.
  unfold try_bind, mbind, st_bind.
  destruct (body (g x) s) as [[[a|] s']| |]; [apply IH|done..].
Qed.
Lemma try_foreach_ext {A} (l : list A) (b1 b2 : A → M (result unit)) s :
  (∀ x, x ∈ l → b1 x = b2 x) → try_foreach l b1 s = try_foreach l b2 s.
Proof.
  revert s. induction l as [|x l IH]; intros s H; [done|]. simpl.
  unfold try_bind, mbind, st_bind. rewrite (H x) by apply list_elem_of_here.
  destruct (b2 x s) as [[[a|] s']| |]; [|done..].
  apply IH. intros y Hy. apply H. by apply list_elem_of_further.
Qed.

(** Mapping [a + b] pages is mapping [a] pages and then [b] pages. *)
Lemma pgtable_map_split s root va pa a b flags Q :
  page_aligned va → page_aligned pa → 0 < a → 0 < b →
  va + (a + b) * PAGE_SIZE ≤ 2 ^ 39 → pa + (a + b) * PAGE_SIZE ≤ 2 ^ 56 →
  wp (pgtable_map root va pa (a * PAGE_SIZE) flags) (λ r s', match r with
    | Ok _ => wp (pgtable_map root (va + a * PAGE_SIZE) (pa + a * PAGE_SIZE) (b * PAGE_SIZE) flags) Q s'
    | Err => Q Err s' end) s →
  wp (pgtable_map root va pa ((a + b) * PAGE_SIZE) flags) Q s.
Proof.
  intros Hva Hpa Ha Hb Hvb Hpb.
  assert (∀ va' pa' n, page_aligned va' → page_aligned pa' → 0 < n →
    pgtable_map root va' pa' (n * PAGE_SIZE) flags = try_foreach (seqZ 0 n) (λ i,
      map_page root (va' +' i *' PAGE_SIZE) (pa' +' i *' PAGE_SIZE) flags)) as Heq.
  { intros va' pa' n [_ Hv] [_ Hp] Hn. unfold pgtable_map. rewrite Hv, Hp, Z.div_mul by done.
    assert ((n * PAGE_SIZE =? 0) = false) as -> by (unfold PAGE_SIZE; lia). done. }
  assert (page_aligned (va + a * PAGE_SIZE)) by (apply page_aligned_add; [done|lia]).
  assert (page_aligned (pa + a * PAGE_SIZE)) by (apply page_aligned_add; [done|lia]).
  rewrite !Heq by (done || lia). intros Hw.
  rewrite seqZ_app by lia. apply try_foreach_app.
  eapply wp_mono; [exact Hw|]. intros [[]|] s' Hs'; [|exact Hs'].
  replace (0 + a) with (a + 0) by lia. rewrite <- fmap_add_seqZ.
  unfold wp. rewrite try_foreach_fmap. unfold wp in Hs'.
  erewrite try_foreach_ext; [exact Hs'|]. intros i Hi%elem_of_seqZ. cbv beta.
  destruct Hva, Hpa. f_equal; unfold u64, PAGE_SIZE in *.
  - rewrite !(Z.mod_small (_ * 4096)) by lia. f_equal. lia.
  - rewrite !(Z.mod_small (_ * 4096)) by lia. f_equal. lia.
Qed.

Lemma mapped_upto_trans m m1 m2 root va pa flags a b :
  0 ≤ a → 0 ≤ b → mapped_upto m m1 root va pa flags a →
  mapped_upto m1 m2 root (va + a * PAGE_SIZE) (pa + a * PAGE_SIZE) flags b →
  mapped_upto m m2 root va pa flags (a + b).
Proof.
  intros Ha Hb H1 H2 v Hv. rewrite H2, H1 by done. unfold PAGE_SIZE in *.
  destruct (decide (va + a * 4096 ≤ v < _)) as [Hin|Hout].
  - rewrite decide_True by lia. do 2 f_equal.
    replace (v - va) with (v - (va + a * 4096) + a * 4096) by lia.
    rewrite Z.div_add by lia. lia.
  - case_decide; [by rewrite decide_True by lia|]. by rewrite decide_False by lia.
Qed.

Lemma region_of va : va mod 2 ^ 21 = 0 → one_region va 512.
Proof.
  intros Hm i Hi. rewrite !vpn_div by lia. unfold PAGE_SIZE.
  change (2 ^ (12 + 9 * 1)) with (2 ^ 21). change (2 ^ (12 + 9 * 2)) with (2 ^ 21 * 512).
  rewrite <- !Z.div_div by lia.
  assert ((va + i * 4096) / 2 ^ 21 = va / 2 ^ 21) as ->; [|done].
  symmetry. apply Z.div_unique with (i * 4096); [lia|].
  pose proof (Z.div_mod va (2 ^ 21)). lia.
Qed.

(** [c] regions of 2 MB that are not mapped yet, with two free pages for each. *)
Lemma map_regions_wp c s root va pa flags :
  pt_ready s root → va mod 2 ^ 21 = 0 → 0 ≤ va → page_aligned pa →
  va + (Z.of_nat c + 1) * 512 * PAGE_SIZE ≤ 2 ^ 39 →
  pa + (Z.of_nat c + 1) * 512 * PAGE_SIZE ≤ 2 ^ 56 →
  (∀ v, va ≤ v < va + (Z.of_nat c + 1) * 512 * PAGE_SIZE → pt_lookup (mem s) root v = None) →
  2 * (Z.of_nat c + 1) ≤ free_count s →
  wp (pgtable_map root va pa ((Z.of_nat c + 1) * 512 * PAGE_SIZE) flags) (λ r s',
    r = Ok tt ∧ pt_grows s s' root ∧
    free_count s - 2 * (Z.of_nat c + 1) ≤ free_count s' ∧
    mapped_upto (mem s) (mem s') root va pa flags ((Z.of_nat c + 1) * 512)) s.
Proof.
  revert s va pa. induction c as [|c IH]; intros s va pa [Hp Hw Ho] Hm Hva Hpa Hvb Hpb Hun Hf.
  - assert (page_aligned va) as Hval.
    { split; [done|]. unfold PAGE_SIZE. apply Z.mod_divide in Hm; [|lia].
      destruct Hm as [q ->]. replace (q * 2 ^ 21) with (q * 512 * 4096) by lia.
      by apply Z.mod_mul. }
    change (Z.of_nat 0 + 1) with 1 in *. replace (1 * 512) with 512 in * by lia.
    pose proof (region_of va Hm) as Hreg. pose proof (missing_bound (mem s) root va).
    eapply wp_mono; [apply pgtable_map_wp; try done; unfold PAGE_SIZE in *; lia|].
    cbv zeta. change (512 * PAGE_SIZE / PAGE_SIZE) with 512. intros [[]|] s' (Hg & Hf' & H').
    + destruct H' as (_ & Hmap & Hcost). specialize (Hcost Hreg ltac:(lia)).
      split; [done|]. split; [done|]. split; [lia|done].
    + exfalso. destruct H' as (k & Hk & _ & [Hbad|[_ Hout]]).
      * apply Hbad, Hun. unfold PAGE_SIZE. lia.
      * specialize (Hout Hreg). lia.
  - replace ((Z.of_nat (S c) + 1) * 512) with (512 + (Z.of_nat c + 1) * 512) in * by lia.
    assert (page_aligned va) as Hval.
    { split; [done|]. unfold PAGE_SIZE. apply Z.mod_divide in Hm; [|lia].
      destruct Hm as [q ->]. replace (q * 2 ^ 21) with (q * 512 * 4096) by lia.
      by apply Z.mod_mul. }
    apply pgtable_map_split; try done; try lia.
    pose proof (region_of va Hm) as Hreg. pose proof (missing_bound (mem s) root va).
    eapply wp_mono; [apply pgtable_map_wp; try done; unfold PAGE_SIZE in *; lia|].
    cbv zeta. change (512 * PAGE_SIZE / PAGE_SIZE) with 512. intros [[]|] s1 (Hg & Hf' & H').
    + destruct H' as (_ & Hmap & Hcost). specialize (Hcost Hreg ltac:(lia)).
      eapply wp_mono.
      * apply IH; [split; apply Hg| |unfold PAGE_SIZE; lia|apply page_aligned_add; [done|lia]|
                   unfold PAGE_SIZE in *; lia..| |lia].
        { replace (512 * PAGE_SIZE) with (1 * 2 ^ 21) by reflexivity. by rewrite Z.mod_add by lia. }
        intros v Hv. rewrite Hmap by (unfold PAGE_SIZE in *; lia).
        rewrite decide_False by lia. apply Hun. unfold PAGE_SIZE in *. lia.
      * intros r s2 (-> & Hg2 & Hf2 & Hmap2). split; [done|].
        split; [by eapply pt_grows_trans|]. split; [lia|].
        eapply mapped_upto_trans; [lia|lia|exact Hmap|exact Hmap2].
    + exfalso. destruct H' as (k & Hk & _ & [Hbad|[_ Hout]]).
      * apply Hbad, Hun. unfold PAGE_SIZE in *. lia.
      * specialize (Hout Hreg). lia.
Qed.

(** One page that is not mapped yet, with two free pages. *)
Lemma map_one_wp s root va pa flags :
  pt_ready s root → page_aligned va → page_aligned pa →
  va + PAGE_SIZE ≤ 2 ^ 39 → pa + PAGE_SIZE ≤ 2 ^ 56 →
  pt_lookup (mem s) root va = None → 2 ≤ free_count s →
  wp (pgtable_map root va pa PAGE_SIZE flags) (λ r s',
    r = Ok tt ∧ pt_grows s s' root ∧ free_count s - 2 ≤ free_count s' ∧
    mapped_upto (mem s) (mem s') root va pa flags 1) s.
Proof.
  intros [Hp Hw Ho] Hva Hpa Hvb Hpb Hun Hf. pose proof (missing_bound (mem s) root va).
  assert (one_region va 1) as Hreg.
  { intros i Hi. assert (i = 0) as -> by lia. by rewrite Z.add_0_r. }
  eapply wp_mono; [apply pgtable_map_wp; try done; unfold PAGE_SIZE in *; lia|].
  cbv zeta. change (PAGE_SIZE / PAGE_SIZE) with 1. intros [[]|] s' (Hg & Hf' & H').
  - destruct H' as (_ & Hmap & Hcost). specialize (Hcost Hreg ltac:(lia)).
    split; [done|]. split; [done|]. split; [lia|done].
  - exfalso. destruct H' as (k & Hk & _ & [Hbad|[_ Hout]]).
    + apply Hbad. assert (k = 0) as -> by lia. by rewrite Z.add_0_r.
    + specialize (Hout Hreg). lia.
Qed.
End identity.

Section kernel_map.
Implicit Types (s : mach) (root va v : Z).

Lemma mapped_identity m m' root va flags k :
  page_aligned va → mapped_upto m m' root va va flags k →
  ∀ v, 0 ≤ v < 2 ^ 39 → pt_lookup m' root v =
    if decide (va ≤ v < va + k * PAGE_SIZE) then Some (identity_entry v flags)
    else pt_lookup m root v.
Proof.
  intros Hva H v Hv. rewrite H by done. case_decide as Hin; [|done].
  unfold identity_entry. do 2 f_equal. destruct Hva as [Hva0 Hm]. unfold PAGE_SIZE in *.
  apply Z.mod_divide in Hm as [q ->]; [|lia].
  replace v with (v - q * 4096 + q * 4096) at 2 by lia. rewrite Z.div_add by lia. lia.
Qed.

(** The page at [va] joins the map; nothing else changes. *)
Lemma map_one_identity_wp s root va flags :
  pt_ready s root → page_aligned va → va + PAGE_SIZE ≤ 2 ^ 39 →
  pt_lookup (mem s) root va = None → 2 ≤ free_count s →
  wp (pgtable_map root va va PAGE_SIZE flags) (λ r s',
    r = Ok tt ∧ pt_grows s s' root ∧ free_count s - 2 ≤ free_count s' ∧
    ∀ v, 0 ≤ v < 2 ^ 39 → pt_lookup (mem s') root v =
      if decide (va ≤ v < va + PAGE_SIZE) then Some (identity_entry v flags)
      else pt_lookup (mem s) root v) s.
Proof.
  intros Hr Hva Hb Hun Hf.
  eapply wp_mono; [apply map_one_wp; try done; unfold PAGE_SIZE in *; lia|].
  intros r s' (-> & Hg & Hf' & Hmap). split_and!; try done. intros v Hv.
  rewrite (mapped_identity _ _ _ _ _ _ Hva Hmap) by done.
  by replace (1 * PAGE_SIZE) with PAGE_SIZE by lia.
Qed.
Lemma grows_ready s s' root : pt_grows s s' root → pt_ready s' root.
Proof. intros H. split; apply H. Qed.

Definition plic_entry v : option Z :=
  if plic_va v then Some (identity_entry v (Z.lor PTE_R PTE_W)) else None.

Lemma map_plic_wp s root :
  pt_ready s root → (∀ v, plic_entry v ≠ None → pt_lookup (mem s) root v = None) →
  6 ≤ free_count s →
  wp (map_plic root) (λ r s',
    r = Ok tt ∧ pt_grows s s' root ∧ free_count s - 6 ≤ free_count s' ∧
    ∀ v, 0 ≤ v < 2 ^ 39 →
      pt_lookup (mem s') root v = from_option Some (pt_lookup (mem s) root v) (plic_entry v)) s.
Proof.
  intros Hr Hun Hf. unfold map_plic. cbn [try_foreach].
  apply wp_try_bind. eapply wp_mono.
  { apply map_one_identity_wp; [done|split; [lia|done]|done|by apply Hun|lia]. }
  intros r s1 (-> & Hg1 & Hf1 & Hm1). apply wp_try_bind. eapply wp_mono.
  { apply map_one_identity_wp; [by eapply grows_ready|split; [lia|done]|done| |lia].
    rewrite Hm1 by lia. rewrite decide_False by (unfold PAGE_SIZE; lia). by apply Hun. }
  intros r s2 (-> & Hg2 & Hf2 & Hm2). apply wp_try_bind. eapply wp_mono.
  { apply map_one_identity_wp; [by eapply grows_ready|split; [lia|done]|done| |lia].
    rewrite Hm2, Hm1 by lia. rewrite !decide_False by (unfold PAGE_SIZE; lia). by apply Hun. }
  intros r s3 (-> & Hg3 & Hf3 & Hm3). apply wp_ret. split; [done|].
  split; [eapply pt_grows_trans; [done|]; by eapply pt_grows_trans|]. split; [lia|].
  intros v Hv. rewrite Hm3, Hm2, Hm1 by done. unfold plic_entry, plic_va, PAGE_SIZE.
  destruct (_ || _) eqn:E; cbn [from_option]; repeat case_decide; (done || lia).
Qed.

Lemma kernel_entry_split v (o : option Z) :
  from_option Some o (kernel_entry v) =
    from_option Some
      (if decide (UART_PAGE ≤ v < UART_PAGE + PAGE_SIZE)
       then Some (identity_entry v (Z.lor PTE_R PTE_W))
       else if decide (kernel_start ≤ v < kernel_start + 4096 * PAGE_SIZE)
       then Some (identity_entry v (Z.lor (Z.lor PTE_R PTE_W) PTE_X)) else o) (plic_entry v).
Proof.
  unfold kernel_entry, kernel_va, plic_entry.
  assert (plic_va v = true → (kernel_start <=? v) = false) as Hbp
    by (unfold plic_va, kernel_start, PAGE_SIZE; lia).
  destruct (plic_va v) eqn:Ep.
  all: unfold kernel_start, kernel_size, UART_PAGE, PAGE_SIZE in *; cbn [from_option].
  - rewrite Hbp, orb_true_r by done. done.
  - rewrite orb_false_r. repeat case_decide.
    + assert ((0x80200000 <=? v) = false) as -> by lia.
      assert (((0x10000000 <=? v) && (v <? 0x10000000 + 4096)) = true) as -> by lia.
      by rewrite orb_true_r.
    + assert ((0x80200000 <=? v) = true) as -> by lia.
      assert ((v <? 0x80200000 + 0x01000000) = true) as -> by lia. done.
    + assert (((0x80200000 <=? v) && (v <? 0x80200000 + 0x01000000)) = false) as -> by lia.
      assert (((0x10000000 <=? v) && (v <? 0x10000000 + 4096)) = false) as -> by lia. done.
Qed.
Lemma map_kernel_wp s root :
  pt_ready s root → (∀ v, kernel_va v = true → pt_lookup (mem s) root v = None) →
  24 ≤ free_count s →
  wp (map_kernel root) (λ r s',
    r = Ok tt ∧ pt_grows s s' root ∧ free_count s - 24 ≤ free_count s' ∧
    ∀ v, 0 ≤ v < 2 ^ 39 →
      pt_lookup (mem s') root v = from_option Some (pt_lookup (mem s) root v) (kernel_entry v)) s.
Proof.
  intros Hr Hun Hf. unfold map_kernel.
  assert (page_aligned kernel_start) as Hks by (split; [unfold kernel_start; lia|done]).
  apply wp_try_bind.
  replace kernel_size with ((Z.of_nat 7 + 1) * 512 * PAGE_SIZE) by reflexivity. eapply wp_mono.
  { apply map_regions_wp; [done|done|unfold kernel_start; lia|done|done|done| |lia].
    intros v Hv. apply Hun. unfold kernel_va, kernel_size. apply orb_true_iff. left.
    repeat (apply orb_true_iff; left). unfold PAGE_SIZE in Hv. lia. }
  intros r s1 (-> & Hg1 & Hf1 & Hm1). change ((Z.of_nat 7 + 1) * 512) with 4096 in Hm1.
  pose proof (mapped_identity _ _ _ _ _ _ Hks Hm1) as Hm1'.
  apply wp_try_bind. eapply wp_mono.
  { apply map_one_identity_wp; [by eapply grows_ready|split; [unfold UART_PAGE; lia|done]|done| |lia].
    rewrite Hm1' by done.
    rewrite decide_False by (unfold kernel_start, UART_PAGE, PAGE_SIZE; lia).
    by apply Hun. }
  intros r s2 (-> & Hg2 & Hf2 & Hm2). apply wp_try_bind. eapply wp_mono.
  { apply map_plic_wp; [by eapply grows_ready| |lia]. intros v Hv.
    assert (plic_entry v ≠ None → 0x0c000000 ≤ v < 0x0c202000 ∧ kernel_va v = true) as Hp.
    { unfold plic_entry, kernel_va. destruct (plic_va v) eqn:E; [|done]. intros _.
      rewrite orb_true_r. split; [|done]. unfold plic_va, PAGE_SIZE in E. lia. }
    destruct (Hp Hv) as [Hrange Hk].
    rewrite Hm2, Hm1' by lia.
    rewrite !decide_False by (unfold kernel_start, UART_PAGE, PAGE_SIZE; lia). by apply Hun. }
  intros r s3 (-> & Hg3 & Hf3 & Hm3). apply wp_ret. split; [done|].
  split; [eapply pt_grows_trans; [done|]; by eapply pt_grows_trans|]. split; [lia|].
  intros v Hv. rewrite Hm3, Hm2, Hm1' by done. symmetry. apply kernel_entry_split.
Qed.
End kernel_map.

(** [map_kernel] keeps last-level entries from looking like table pointers. *)
Lemma pte_leaf_identity v flags :
  pte_leaf (identity_entry v flags) = pte_leaf flags.
Proof. unfold identity_entry. by rewrite pte_leaf_pa_to_pte, pte_leaf_lor_V. Qed.

Lemma kernel_entry_translate v pte :
  0 ≤ v < 2 ^ 39 → kernel_entry v = Some pte →
  kernel_va v = true ∧ pte_to_pa pte +' Z.land v (PAGE_SIZE - 1) = v ∧ Z.land pte PTE_U = 0.
Proof.
  intros Hv. unfold kernel_entry. destruct (kernel_va v); [|done]. intros [= <-].
  split; [done|]. unfold identity_entry.
  set (flags := if kernel_start <=? v then PTE_RWX else Z.lor PTE_R PTE_W).
  assert (Z.lor flags PTE_V = 15 ∨ Z.lor flags PTE_V = 7) as Hfl
    by (unfold flags; destruct (kernel_start <=? v); [by left|by right]).
  split.
  - pose proof (Z.div_mod v 4096). pose proof (Z.mod_pos_bound v 4096).
    unfold PAGE_SIZE.
    rewrite pte_to_pa_of; [|split; [|unfold PAGE_SIZE; by apply Z.mod_mul]|..]; try lia.
    change (4096 - 1) with (Z.ones 12). rewrite Z.land_ones by lia. change (2 ^ 12) with 4096.
    unfold u64. rewrite Z.mod_small by lia. lia.
  - rewrite land_low_pa_to_pte by (vm_compute; split; congruence).
    by destruct Hfl as [-> | ->].
Qed.


(** The first steps of the boot, with the pages they take. *)
Lemma vm_init_done s :
  pages_wf s → 25 ≤ free_count s →
  ∃ s' pt, vm_init s = Done (tt, s') ∧
    KERNEL_PAGETABLE s' = Some pt ∧ csrs s' !! SATP = Some (satp_of pt) ∧
    ¬ is_alloc s pt ∧ pt_ready s' pt ∧ free_count s - 25 ≤ free_count s' ∧
    ∀ v, 0 ≤ v < 2 ^ 39 → translate (mem s') pt v = if kernel_va v then Some v else None.
Proof.
  intros Hp Hf.
  pose proof (pgtable_create_wp s Hp) as H. apply wp_Done in H as (r & s1 & E1 & Hp1 & Hg1 & _ & H).
  destruct r as [pt|]; [|destruct H as [? _]; lia].
  destruct H as (Hal & Hb & _ & Hna & Ha1 & Hf1 & _ & Hbl & _).
  assert (pt_ready s1 pt) as Hr1.
  { split; [done|by apply blank_pt_wf|]. intros a Ht. apply blank_tables in Ht; [|done].
    apply Ha1. by left. }
  assert (∀ v, pt_lookup (mem s1) pt v = None) as Hun by (intros v; by apply blank_lookup).
  pose proof (map_kernel_wp s1 pt Hr1 (λ v _, Hun v) ltac:(lia)) as H.
  apply wp_Done in H as (r & s2 & E2 & -> & Hg2 & Hf2 & Hm).
  exists (set_kernel_pagetable (Some pt) (set_csrs (λ m, <[SATP := satp_of pt]> m) s2)), pt.
  split.
  - unfold vm_init, mbind, st_bind. rewrite E1. cbn [unwrap mret st_ret].
    unfold map_kernel, try_bind, mbind, st_bind in E2. unfold mret, st_ret.
    destruct (pgtable_map pt kernel_start kernel_start kernel_size _ s1) as [[[[]|] s3]| |]; [|done..].
    cbn [expect]. unfold mret, st_ret.
    destruct (pgtable_map pt UART_PAGE UART_PAGE PAGE_SIZE _ s3) as [[[[]|] s4]| |]; [|done..].
    cbn [expect]. unfold mret, st_ret. unfold mret, st_ret in E2.
    destruct (map_plic pt s4) as [[[[]|] s5]| |]; [|done..]. injection E2 as ->. done.
  - split; [done|]. split; [apply lookup_insert_eq|]. split; [exact Hna|]. split.
    { apply grows_ready in Hg2 as [Hg2p Hg2w Hg2o]. split; [done|done|]. exact Hg2o. }
    split; [change (free_count s - 25 ≤ free_count s2); lia|].
    intros v Hv. specialize (Hm v Hv). unfold translate. cbn [mem set_kernel_pagetable set_csrs].
    rewrite Hm, Hun. destruct (kernel_entry v) as [pte|] eqn:Ek.
    + destruct (kernel_entry_translate v pte Hv Ek) as (-> & Ht & _).
      cbn [from_option fmap option_fmap option_map]. by rewrite Ht.
    + unfold kernel_entry in Ek. by destruct (kernel_va v).
Qed.
(** Virtual memory comes up.  From any machine with a well-formed page allocator
    that has 25 free pages, [vm_init] returns without a panic, leaves [satp] in Sv39
    mode pointing at a fresh root, records it as the kernel page table, and in it
    exactly the kernel's pages are mapped, each to itself. *)
Lemma vm_init_correct s :
  pages_wf s → 25 ≤ free_count s →
  ∃ s' pt, vm_init s = Done (tt, s') ∧
    KERNEL_PAGETABLE s' = Some pt ∧ csrs s' !! SATP = Some (satp_of pt) ∧
    ¬ is_alloc s pt ∧ pt_ready s' pt ∧
    ∀ v, 0 ≤ v < 2 ^ 39 → translate (mem s') pt v = if kernel_va v then Some v else None.
Proof.
  intros Hp Hf. destruct (vm_init_done s Hp Hf) as (s' & pt & E & Hk & Hc & Hn & Hr & _ & Hm).
  by exists s', pt.
Qed.

(** Where [page::init] starts for a kernel image that ends inside its 16 MB. *)
Lemma page_init_facts kernel_end :
  kernel_start < kernel_end ≤ kernel_start + kernel_size - PAGE_SIZE →
  let pa := page_init kernel_end in
  page_aligned (start_addr pa) ∧ kernel_end ≤ start_addr pa < kernel_end + PAGE_SIZE ∧
  total_pages pa = MAX_PAGES ∧ PageAllocator_wf pa.
Proof.
  intros Hk pa. unfold kernel_start, kernel_size, PAGE_SIZE in Hk.
  assert (kernel_end +' PAGE_SIZE -' 1 = kernel_end + 4095) as He.
  { unfold u64, PAGE_SIZE. rewrite (Z.mod_small (kernel_end + 4096)) by lia.
    rewrite Z.mod_small by lia. lia. }
  destruct (page_down_aligned (kernel_end + 4095)) as [Ha Hb]; [unfold is_u64; lia|].
  unfold pa, page_init. rewrite He. set (start := page_down (kernel_end + 4095)) in *.
  unfold PAGE_SIZE in Hb |- *. cbn [PageAllocator_new start_addr total_pages].
  assert (0 ≤ 128 * 1024 * 1024 -' (start -' 0x80000000) ∧
    MAX_PAGES ≤ (128 * 1024 * 1024 -' (start -' 0x80000000)) / 4096) as [? ?].
  { unfold u64. rewrite (Z.mod_small (start - 0x80000000)) by lia. rewrite Z.mod_small by lia.
    unfold MAX_PAGES, BITMAP_SIZE. split; [lia|]. apply Z.div_le_lower_bound; lia. }
  split; [exact Ha|]. split; [lia|]. split; [by apply Z.min_r|].
  apply PageAllocator_new_wf; [exact Ha|by apply Z.div_pos|].
  unfold MAX_PAGES, BITMAP_SIZE, PAGE_SIZE. lia.
Qed.

(** The allocator manages pages that the kernel cannot address.  Wherever the
    kernel image ends inside its 16 MB, [page::init] sets up 4096 pages from there,
    and the last of them lies above the end of the identity map: a page table or a
    kernel stack allocated there is not mapped in the kernel's own address space. *)
Lemma allocator_exceeds_kernel_map kernel_end :
  kernel_start < kernel_end ≤ kernel_start + kernel_size - PAGE_SIZE →
  let pa := page_init kernel_end in
  total_pages pa = MAX_PAGES ∧ available pa (page_addr pa (MAX_PAGES - 1)) ∧
  kernel_va (page_addr pa (MAX_PAGES - 1)) = false.
Proof.
  intros Hk pa. destruct (page_init_facts kernel_end Hk) as ([Ha0 Ham] & Hst & Htot & _). fold pa in Ha0, Ham, Hst, Htot.
  split; [done|]. split.
  - exists (MAX_PAGES - 1). rewrite Htot. split; [unfold MAX_PAGES, BITMAP_SIZE; lia|].
    split; [done|]. vm_compute. done.
  - pose proof (Z.div_mod (start_addr pa) PAGE_SIZE ltac:(done)) as Hd. rewrite Ham in Hd.
    unfold page_addr. unfold kernel_start, kernel_size, PAGE_SIZE in *. unfold kernel_va, plic_va, MAX_PAGES, BITMAP_SIZE,
      kernel_start, kernel_size, UART_PAGE, PAGE_SIZE. lia.
Qed.
