(* ===== verification/Trap.v ===== *)
(** Trap frames and trap causes, [src/src/kernel/trap.rs].

    A [TrapFrame] is 33 consecutive 64-bit words in memory ([#[repr(C)]]).  The kernel
    reaches frames through raw pointers that may alias, so a [&mut TrapFrame] is the
    frame's address: [load (tf + off_a0)] is [tf.a0], [read_frame] and [write_frame]
    copy whole frames. *)

From S2P Require Import Prelude Arch Memory Machine.

Record TrapFrame : Type := mkTrapFrame {
  tf_ra : Z; tf_sp : Z; tf_gp : Z; tf_tp : Z; tf_t0 : Z; tf_t1 : Z; tf_t2 : Z;
  tf_s0 : Z; tf_s1 : Z; tf_a0 : Z; tf_a1 : Z; tf_a2 : Z; tf_a3 : Z; tf_a4 : Z;
  tf_a5 : Z; tf_a6 : Z; tf_a7 : Z; tf_s2 : Z; tf_s3 : Z; tf_s4 : Z; tf_s5 : Z;
  tf_s6 : Z; tf_s7 : Z; tf_s8 : Z; tf_s9 : Z; tf_s10 : Z; tf_s11 : Z; tf_t3 : Z;
  tf_t4 : Z; tf_t5 : Z; tf_t6 : Z; tf_sstatus : Z; tf_sepc : Z
}.

Definition TrapFrame_new : TrapFrame :=
  mkTrapFrame
    0 0 0 0 0 0 0 0 0 0 0 0 0 0 0 0 0 0 0 0 0 0 0 0 0 0 0 0 0 0 0 0 0.

(** [core::mem::size_of::<TrapFrame>()], and the offsets of the fields the kernel uses. *)
Definition FRAME_WORDS : Z := 33.
Definition FRAME_SIZE : Z := 8 * FRAME_WORDS.
Definition off_sp : Z := 8.
Definition off_a0 : Z := 72.
Definition off_a1 : Z := 80.
Definition off_a2 : Z := 88.
Definition off_a3 : Z := 96.
Definition off_a4 : Z := 104.
Definition off_a5 : Z := 112.
Definition off_a6 : Z := 120.
Definition off_a7 : Z := 128.
Definition off_sstatus : Z := 248.
Definition off_sepc : Z := 256.

Definition frame_words (f : TrapFrame) : list Z :=
  [tf_ra f; tf_sp f; tf_gp f; tf_tp f; tf_t0 f; tf_t1 f; tf_t2 f; tf_s0 f; tf_s1 f;
   tf_a0 f; tf_a1 f; tf_a2 f; tf_a3 f; tf_a4 f; tf_a5 f; tf_a6 f; tf_a7 f; tf_s2 f;
   tf_s3 f; tf_s4 f; tf_s5 f; tf_s6 f; tf_s7 f; tf_s8 f; tf_s9 f; tf_s10 f;
   tf_s11 f; tf_t3 f; tf_t4 f; tf_t5 f; tf_t6 f; tf_sstatus f; tf_sepc f].
Definition frame_at (m : memory) (p : Z) : TrapFrame :=
  let w k := load64 m (p + 8 * k) in
  mkTrapFrame
    (w 0) (w 1) (w 2) (w 3) (w 4) (w 5) (w 6) (w 7) (w 8) (w 9) (w 10) (w 11)
    (w 12) (w 13) (w 14) (w 15) (w 16) (w 17) (w 18) (w 19) (w 20) (w 21) (w 22)
    (w 23) (w 24) (w 25) (w 26) (w 27) (w 28) (w 29) (w 30) (w 31) (w 32).

(** Reading a frame through a pointer ([clone]) and [p.write(f)]. *)
Definition read_frame (p : Z) : M TrapFrame := gets (λ s, frame_at (mem s) p).
Definition write_frame (p : Z) (f : TrapFrame) : M unit :=
  modify (set_mem (λ m, store_words m p (frame_words f))).

(** A new frame with [sp], [sepc] and [sstatus] set, and [f] with [a0] set. *)
Definition initial_frame (sp sepc sstatus : Z) : TrapFrame :=
  mkTrapFrame
    0 sp 0 0 0 0 0 0 0 0 0 0 0 0 0 0 0 0 0 0 0 0 0 0 0 0 0 0 0 0 0 sstatus sepc.
Definition with_a0 (f : TrapFrame) (v : Z) : TrapFrame :=
  mkTrapFrame
    (tf_ra f) (tf_sp f) (tf_gp f) (tf_tp f) (tf_t0 f) (tf_t1 f) (tf_t2 f) (tf_s0 f)
    (tf_s1 f) v (tf_a1 f) (tf_a2 f) (tf_a3 f) (tf_a4 f) (tf_a5 f) (tf_a6 f)
    (tf_a7 f) (tf_s2 f) (tf_s3 f) (tf_s4 f) (tf_s5 f) (tf_s6 f) (tf_s7 f) (tf_s8 f)
    (tf_s9 f) (tf_s10 f) (tf_s11 f) (tf_t3 f) (tf_t4 f) (tf_t5 f) (tf_t6 f)
    (tf_sstatus f) (tf_sepc f).

(** ** Trap causes *)

Inductive TrapCause : Type :=
  | UserEcall
  | Timer
  | External
  | InstructionPageFault
  | LoadPageFault
  | StorePageFault
  | Unknown (scause : Z).

Definition parse_cause (scause : Z) : TrapCause :=
  let is_interrupt := negb (Z.shiftr scause 63 =? 0) in
  let code := Z.land scause 0x7FFFFFFF in
  if is_interrupt then
    if code =? 5 then Timer
    else if code =? 9 then External
    else Unknown scause
  else
    if code =? 8 then UserEcall
    else if code =? 12 then InstructionPageFault
    else if code =? 13 then LoadPageFault
    else if code =? 15 then StorePageFault
    else Unknown scause.

(** [trap::init] with the address of the assembly entry point. *)
Definition trap_init (trap_entry_addr : Z) : M unit :=
  _ ← write_stvec trap_entry_addr;
  _ ← set_csr SSTATUS SSTATUS_SIE;
  write_csr SIE (Z.lor (Z.shiftl 1 5) (Z.shiftl 1 9)).

Section facts.
Implicit Types (m : memory) (p a : Z) (f : TrapFrame).

Lemma length_frame_words f : length (frame_words f) = 33%nat.
Proof. done. Qed.

(** What was written is read back, and nothing outside the frame changes. *)
Lemma frame_at_write m p f : frame_at (store_words m p (frame_words f)) p = f.
Proof.
  assert (∀ k w, 0 ≤ k → frame_words f !! Z.to_nat k = Some w →
    load64 (store_words m p (frame_words f)) (p + 8 * k) = w) as H
    by (intros; by apply load64_store_words_in).
  unfold frame_at. destruct f. f_equal; (apply H; [lia|reflexivity]).
Qed.
Definition in_frame p a : Prop := p ≤ a < p + FRAME_SIZE.
Lemma load64_write_frame_out m p f a :
  ¬ in_frame p a → load64 (store_words m p (frame_words f)) a = load64 m a.
Proof.
  intros Ha. apply load64_store_words_out. rewrite length_frame_words.
  intros k Hk ->. apply Ha. unfold in_frame, FRAME_SIZE, FRAME_WORDS. lia.
Qed.
(** Frames that do not overlap do not disturb each other. *)
Lemma frame_at_ext m m' p :
  (∀ a, in_frame p a → load64 m' a = load64 m a) → frame_at m' p = frame_at m p.
Proof.
  intros H. unfold frame_at. f_equal; apply H; unfold in_frame, FRAME_SIZE, FRAME_WORDS; lia.
Qed.
End facts.
