(* ===== verification/Ipc.v ===== *)
(** The data of the synchronous IPC, [src/src/kernel/ipc.rs]: messages, the
    fixed-size ring buffer [MsgQueue] and endpoints.  The operations on endpoints are
    methods of the task manager ([Task.v]).

    [queue_list] is the abstract view of a ring buffer: its messages, oldest first. *)

From S2P Require Import Prelude.

Definition MAX_ENDPOINTS : Z := 8.
Definition CONSOLE_ENDPOINT : Z := 1.
Definition FS_ENDPOINT : Z := 2.
Definition MSG_QUEUE_SIZE : Z := 8.
Definition IPC_BUF_SIZE : Z := 4096.

Record Message : Type := mkMessage {
  sender : Z;
  words : list Z;
  buf_len : Z;
}.
#[export] Instance Message_eq_dec : EqDecision Message.
Proof. solve_decision. Defined.

Record MsgQueue : Type := mkMsgQueue {
  q_buf : list Message;
  q_head : Z;
  q_tail : Z;
  q_count : Z;
}.

Definition MsgQueue_new : MsgQueue :=
  mkMsgQueue (replicate (Z.to_nat MSG_QUEUE_SIZE) (mkMessage 0 [0; 0; 0; 0] 0)) 0 0 0.

Definition is_full (self : MsgQueue) : bool := q_count self =? MSG_QUEUE_SIZE.
Definition is_empty (self : MsgQueue) : bool := q_count self =? 0.

(** Array accesses panic out of bounds. *)
Definition push (msg : Message) : st MsgQueue (result unit) := λ self,
  if is_full self then Done (Err, self)
  else if bool_decide (q_tail self < Z.of_nat (length (q_buf self))) then
    Done (Ok tt, mkMsgQueue (<[Z.to_nat (q_tail self) := msg]> (q_buf self)) (q_head self)
                   ((q_tail self +' 1) mod MSG_QUEUE_SIZE) (q_count self +' 1))
  else Panic.
Definition pop : st MsgQueue (option Message) := λ self,
  if is_empty self then Done (None, self)
  else match q_buf self !! Z.to_nat (q_head self) with
       | None => Panic
       | Some msg =>
           Done (Some msg, mkMsgQueue (q_buf self) ((q_head self +' 1) mod MSG_QUEUE_SIZE)
                             (q_tail self) (q_count self -' 1))
       end.
Definition peek (self : MsgQueue) : outcome (option Message) :=
  if is_empty self then Done None
  else match q_buf self !! Z.to_nat (q_head self) with
       | None => Panic
       | Some msg => Done (Some msg)
       end.
Definition queue_len (self : MsgQueue) : Z := q_count self.

Record Endpoint : Type := mkEndpoint {
  owner : Z;
  waiting_receiver : option Z;
  pending : MsgQueue;
  copy_buf : list Z;
  copy_len : Z;
  recv_buf_addr : Z;
  recv_buf_capacity : Z;
  has_buffered : bool;
}.

(** ** The ring buffer as a queue *)

Definition queue_index (q : MsgQueue) (k : Z) : Z := (q_head q + k) mod MSG_QUEUE_SIZE.
Definition queue_get (q : MsgQueue) (k : Z) : Message :=
  default (mkMessage 0 [0; 0; 0; 0] 0) (q_buf q !! Z.to_nat (queue_index q k)).
Definition queue_list (q : MsgQueue) : list Message :=
  queue_get q <$> seqZ 0 (q_count q).

Record MsgQueue_wf (q : MsgQueue) : Prop := {
  queue_buf_len : length (q_buf q) = Z.to_nat MSG_QUEUE_SIZE;
  queue_head : 0 ≤ q_head q < MSG_QUEUE_SIZE;
  queue_count : 0 ≤ q_count q ≤ MSG_QUEUE_SIZE;
  queue_tail : q_tail q = (q_head q + q_count q) mod MSG_QUEUE_SIZE;
}.

Section queue.
Implicit Types (q : MsgQueue) (m : Message).

Lemma length_queue_list q : MsgQueue_wf q → Z.of_nat (length (queue_list q)) = q_count q.
Proof.
  intros H. unfold queue_list. rewrite length_fmap, length_seqZ.
  destruct (queue_count _ H). lia.
Qed.
Lemma is_full_spec q : MsgQueue_wf q → is_full q = bool_decide (length (queue_list q) = 8%nat).
Proof.
  intros H. pose proof (length_queue_list q H). unfold is_full, MSG_QUEUE_SIZE.
  case_bool_decide; lia.
Qed.
Lemma is_empty_spec q : MsgQueue_wf q → is_empty q = bool_decide (queue_list q = []).
Proof.
  intros H. pose proof (length_queue_list q H). unfold is_empty.
  case_bool_decide as Hl; [rewrite Hl in *; simpl in *; lia|].
  destruct (queue_list q); [done|]. simpl in *. lia.
Qed.

Lemma MsgQueue_new_wf : MsgQueue_wf MsgQueue_new ∧ queue_list MsgQueue_new = [].
Proof.
  split; [|done].
  split; cbn [MsgQueue_new q_buf q_head q_tail q_count]; unfold MSG_QUEUE_SIZE; (done || lia).
Qed.

Lemma queue_index_lt q k : 0 ≤ queue_index q k < 8.
Proof. unfold queue_index, MSG_QUEUE_SIZE. apply Z.mod_pos_bound. lia. Qed.

(** Enqueueing appends to the list unless the buffer is full. *)
Lemma push_wp m q :
  MsgQueue_wf q →
  wp (push m) (λ r q', MsgQueue_wf q' ∧
    match r with
    | Ok _ => length (queue_list q) ≠ 8%nat ∧ queue_list q' = queue_list q ++ [m]
    | Err => length (queue_list q) = 8%nat ∧ q' = q
    end) q.
Proof.
  intros Hwf. unfold wp, push. rewrite is_full_spec by done. case_bool_decide as Hl; [done|].
  pose proof (length_queue_list q Hwf) as Hlen.
  pose proof Hwf as [Hb Hh Hc Ht]. unfold MSG_QUEUE_SIZE in *.
  assert (q_count q ≠ 8) by lia.
  pose proof (Z.mod_pos_bound (q_head q + q_count q) 8 ltac:(lia)) as Hr. rewrite <- Ht in Hr.
  rewrite bool_decide_true by (rewrite Hb; lia).
  assert (q_count q +' 1 = q_count q + 1) as Hq by (unfold u64; rewrite Z.mod_small; lia).
  split; [|split; [done|]].
  - split; cbn [q_buf q_head q_tail q_count]; unfold MSG_QUEUE_SIZE;
      [by rewrite length_insert|done|lia|].
    rewrite Hq. unfold u64. rewrite (Z.mod_small (q_tail q + 1)) by lia.
    rewrite Ht, Zplus_mod_idemp_l. f_equal. lia.
  - unfold queue_list. cbn [q_count]. rewrite Hq, seqZ_app by lia. rewrite fmap_app. f_equal.
    + apply list_fmap_ext. intros i k Hi%lookup_seqZ. unfold queue_get, queue_index. cbn [q_buf q_head].
      rewrite list_lookup_insert_ne; [done|]. unfold MSG_QUEUE_SIZE. intros E.
      pose proof (Z.mod_pos_bound (q_head q + k) 8 ltac:(lia)).
      assert (q_tail q = (q_head q + k) mod 8) as E' by lia. rewrite Ht in E'.
      pose proof (Z.div_mod (q_head q + q_count q) 8). pose proof (Z.div_mod (q_head q + k) 8). lia.
    + change (seqZ (0 + q_count q) 1) with [0 + q_count q]. cbn [fmap list_fmap].
      unfold queue_get, queue_index. cbn [q_buf q_head]. unfold MSG_QUEUE_SIZE.
      rewrite Z.add_0_l, <- Ht, list_lookup_insert_eq; [done|]. rewrite Hb. lia.
Qed.

(** Dequeueing removes the head of the list. *)
Lemma pop_wp q :
  MsgQueue_wf q →
  wp pop (λ r q', MsgQueue_wf q' ∧
    match r with
    | Some m => queue_list q = m :: queue_list q'
    | None => queue_list q = [] ∧ q' = q
    end) q.
Proof.
  intros Hwf. unfold wp, pop. rewrite is_empty_spec by done. case_bool_decide as Hl; [done|].
  pose proof (length_queue_list q Hwf) as Hlen.
  pose proof Hwf as [Hb Hh Hc Ht]. unfold MSG_QUEUE_SIZE in *.
  assert (q_count q ≠ 0) by (destruct (queue_list q); [done|]; simpl in *; lia).
  destruct (q_buf q !! Z.to_nat (q_head q)) as [m|] eqn:Em.
  2: { apply lookup_ge_None in Em. rewrite Hb in Em. lia. }
  assert (q_count q -' 1 = q_count q - 1) as Hq by (unfold u64; rewrite Z.mod_small; lia).
  assert (q_head q +' 1 = q_head q + 1) as Hq1 by (unfold u64; rewrite Z.mod_small; lia).
  split.
  - split; cbn [q_buf q_head q_tail q_count]; unfold MSG_QUEUE_SIZE;
      [done|by apply Z.mod_pos_bound|lia|].
    rewrite Hq, Hq1, Ht. rewrite Zplus_mod_idemp_l. f_equal. lia.
  - unfold queue_list. cbn [q_count]. rewrite Hq.
    replace (q_count q) with (1 + (q_count q - 1)) at 1 by lia. rewrite seqZ_app by lia.
    rewrite fmap_app.
    change (seqZ 0 1) with [0]. cbn [fmap list_fmap app]. f_equal.
    + unfold queue_get, queue_index, MSG_QUEUE_SIZE. rewrite Z.add_0_r, Z.mod_small by lia.
      by rewrite Em.
    + change (0 + 1) with (1 + 0). rewrite <- fmap_add_seqZ, <- list_fmap_compose.
      apply list_fmap_ext. intros i k Hi. unfold compose, queue_get, queue_index.
      cbn [q_buf q_head]. rewrite Hq1, Zplus_mod_idemp_l. by rewrite Z.add_assoc.
Qed.
Lemma peek_spec q : MsgQueue_wf q → peek q = Done (head (queue_list q)).
Proof.
  intros Hwf. pose proof (pop_wp q Hwf) as H. unfold wp, pop, peek in *.
  destruct (is_empty q) eqn:E.
  - destruct H as (_ & -> & _). done.
  - destruct (q_buf q !! Z.to_nat (q_head q)); [|done]. destruct H as (_ & ->). done.
Qed.
End queue.

(** ** The queue refines a bounded FIFO *)

Inductive queue_op : Type := OpPush (m : Message) | OpPop | OpPeek | OpLen.
Inductive queue_ret : Type :=
  RPush (r : result unit) | RMsg (o : option Message) | RLen (n : Z).

Definition run_queue_op (op : queue_op) : st MsgQueue queue_ret :=
  match op with
  | OpPush m => r ← push m; mret (RPush r)
  | OpPop => o ← pop; mret (RMsg o)
  | OpPeek => λ q, match peek q with Done o => Done (RMsg o, q) | Panic => Panic | Diverge => Diverge end
  | OpLen => n ← gets queue_len; mret (RLen n)
  end.
Fixpoint run_queue (ops : list queue_op) : st MsgQueue (list queue_ret) :=
  match ops with
  | [] => mret []
  | op :: ops => r ← run_queue_op op; rs ← run_queue ops; mret (r :: rs)
  end.

(** The specification: a list of at most eight messages. *)
Definition spec_queue_op (op : queue_op) (l : list Message) : queue_ret * list Message :=
  match op with
  | OpPush m => if decide (length l = 8%nat) then (RPush Err, l) else (RPush (Ok tt), l ++ [m])
  | OpPop => match l with [] => (RMsg None, []) | m :: l => (RMsg (Some m), l) end
  | OpPeek => (RMsg (head l), l)
  | OpLen => (RLen (Z.of_nat (length l)), l)
  end.
Fixpoint spec_queue (ops : list queue_op) (l : list Message) : list queue_ret * list Message :=
  match ops with
  | [] => ([], l)
  | op :: ops =>
      let (r, l') := spec_queue_op op l in
      let (rs, l'') := spec_queue ops l' in (r :: rs, l'')
  end.

Lemma run_queue_op_wp op q :
  MsgQueue_wf q →
  wp (run_queue_op op) (λ r q', MsgQueue_wf q' ∧
    spec_queue_op op (queue_list q) = (r, queue_list q')) q.
Proof.
  intros Hwf. destruct op as [m| | |]; cbn [run_queue_op spec_queue_op].
  - apply wp_bind. eapply wp_mono; [by apply push_wp|].
    intros [[]|] q' (Hwf' & Hl & H); apply wp_ret; (split; [done|]).
    + rewrite decide_False by done. by rewrite H.
    + rewrite decide_True by done. by rewrite H.
  - apply wp_bind. eapply wp_mono; [by apply pop_wp|].
    intros [m|] q' (Hwf' & H); apply wp_ret; (split; [done|]).
    + by rewrite H.
    + destruct H as [Hl ->]. by rewrite Hl.
  - unfold wp. rewrite peek_spec by done. done.
  - apply wp_bind, wp_gets, wp_ret. split; [done|]. by rewrite length_queue_list.
Qed.

(** [C11] The ring buffer is a bounded FIFO queue.  Every sequence of [push], [pop],
    [peek] and [len] on a well-formed queue returns (no index out of bounds, whatever
    the wrap-around of [head] and [tail]) with the results of a list of at most eight
    messages: [push] fails exactly on a full list and otherwise appends, [pop] takes
    the oldest message, and [len] is the list's length. *)
Theorem queue_refines_fifo q ops :
  MsgQueue_wf q →
  ∃ rs q', run_queue ops q = Done (rs, q') ∧ MsgQueue_wf q' ∧
    spec_queue ops (queue_list q) = (rs, queue_list q').
Proof.
  revert q. induction ops as [|op ops IH]; intros q Hwf.
  - exists [], q. done.
  - pose proof (run_queue_op_wp op q Hwf) as H. apply wp_Done in H as (r & q1 & E1 & Hwf1 & Hs).
    destruct (IH q1 Hwf1) as (rs & q2 & E2 & Hwf2 & Hs2).
    exists (r :: rs), q2. cbn [run_queue spec_queue]. unfold mbind, st_bind.
    rewrite E1, E2, Hs, Hs2. done.
Qed.
Lemma queue_refines_fifo_witness :
  let ops := [OpPush (mkMessage 1 [1;2;3;4] 0); OpPush (mkMessage 2 [5;6;7;8] 9); OpPop; OpLen] in
  ∃ rs q', run_queue ops MsgQueue_new = Done (rs, q') ∧ MsgQueue_wf q' ∧
    spec_queue ops (queue_list MsgQueue_new) = (rs, queue_list q').
Proof. apply (queue_refines_fifo MsgQueue_new). apply MsgQueue_new_wf. Defined.
