(* ===== verification/Task.v ===== *)
(** The process manager, [src/src/kernel/task.rs]: task control blocks, the scheduler,
    [fork], [exec]'s [replace_current], [sbrk], [waitpid]/[exit], and the IPC
    operations on endpoints.

    A method of [TaskManager] is a computation over [tsys]: the manager ([self]) and
    the machine ([hw]).  A [&mut Task] is the task's index in [tasks]; a trap frame is
    its address, so that frames that alias do so in the model too.  Console output has
    no effect on this state and is left out. *)

From S2P Require Import Prelude Arch Page Memory Machine Pgtable Vm Trap Ipc.

Definition MAX_TASKS : Z := 16.

Inductive TaskState : Type := Unused | Ready | Running | Sleeping | Zombie.
#[export] Instance TaskState_eq_dec : EqDecision TaskState.
Proof. solve_decision. Defined.

Inductive WaitChannel : Type :=
  | Child (pid : Z)
  | UartRx
  | IpcCall (endpoint : Z)
  | IpcRecv (endpoint : Z).
#[export] Instance WaitChannel_eq_dec : EqDecision WaitChannel.
Proof. solve_decision. Defined.

Record Task : Type := mkTask {
  pid : Z;
  state : TaskState;
  trap_frame : Z;
  kernel_stack : Z;
  user_stack : Z;
  entry : Z;
  (** The physical address of the root page table. *)
  pagetable : Z;
  exit_code : Z;
  image_base : Z;
  image_size : Z;
  heap_base : Z;
  heap_end : Z;
  parent_pid : option Z;
  waiting_for : option WaitChannel;
}.

Inductive WaitResult : Type :=
  | Reaped (exit_code : Z)
  | WaitBlocked (tf : Z)
  | WaitError.
Inductive IpcResult : Type :=
  | Continue
  | Blocked (tf : Z)
  | IpcError.

Record TaskManager : Type := mkTaskManager {
  current_pid : option Z;
  tasks : list (option Task);
  next_pid : Z;
  runnable_count : Z;
  endpoints : list (option Endpoint);
  uart_owner : option Z;
}.

(** Field updates. *)
Definition set_state (x : TaskState) (t : Task) : Task :=
  mkTask (pid t) x (trap_frame t) (kernel_stack t) (user_stack t) (entry t) (pagetable t)
    (exit_code t) (image_base t) (image_size t) (heap_base t) (heap_end t) (parent_pid t)
    (waiting_for t).
Definition set_waiting_for (x : option WaitChannel) (t : Task) : Task :=
  mkTask (pid t) (state t) (trap_frame t) (kernel_stack t) (user_stack t) (entry t) (pagetable t)
    (exit_code t) (image_base t) (image_size t) (heap_base t) (heap_end t) (parent_pid t) x.
Definition set_parent_pid (x : option Z) (t : Task) : Task :=
  mkTask (pid t) (state t) (trap_frame t) (kernel_stack t) (user_stack t) (entry t) (pagetable t)
    (exit_code t) (image_base t) (image_size t) (heap_base t) (heap_end t) x (waiting_for t).
Definition set_exit_code (x : Z) (t : Task) : Task :=
  mkTask (pid t) (state t) (trap_frame t) (kernel_stack t) (user_stack t) (entry t) (pagetable t)
    x (image_base t) (image_size t) (heap_base t) (heap_end t) (parent_pid t) (waiting_for t).
Definition set_heap_end (x : Z) (t : Task) : Task :=
  mkTask (pid t) (state t) (trap_frame t) (kernel_stack t) (user_stack t) (entry t) (pagetable t)
    (exit_code t) (image_base t) (image_size t) (heap_base t) x (parent_pid t) (waiting_for t).
(** The new image of [replace_current]. *)
Definition set_image (pt stack en base size heap : Z) (t : Task) : Task :=
  mkTask (pid t) (state t) (trap_frame t) (kernel_stack t) stack en pt
    (exit_code t) base size heap heap (parent_pid t) (waiting_for t).

Definition set_current_pid (x : option Z) (m : TaskManager) : TaskManager :=
  mkTaskManager x (tasks m) (next_pid m) (runnable_count m) (endpoints m) (uart_owner m).
Definition set_tasks (f : list (option Task) → list (option Task)) (m : TaskManager) : TaskManager :=
  mkTaskManager (current_pid m) (f (tasks m)) (next_pid m) (runnable_count m) (endpoints m)
    (uart_owner m).
Definition set_next_pid (f : Z → Z) (m : TaskManager) : TaskManager :=
  mkTaskManager (current_pid m) (tasks m) (f (next_pid m)) (runnable_count m) (endpoints m)
    (uart_owner m).
Definition set_runnable_count (f : Z → Z) (m : TaskManager) : TaskManager :=
  mkTaskManager (current_pid m) (tasks m) (next_pid m) (f (runnable_count m)) (endpoints m)
    (uart_owner m).
Definition set_endpoints (f : list (option Endpoint) → list (option Endpoint)) (m : TaskManager)
  : TaskManager :=
  mkTaskManager (current_pid m) (tasks m) (next_pid m) (runnable_count m) (f (endpoints m))
    (uart_owner m).
Definition set_uart_owner (x : option Z) (m : TaskManager) : TaskManager :=
  mkTaskManager (current_pid m) (tasks m) (next_pid m) (runnable_count m) (endpoints m) x.

(** ** The state of a method *)

Record tsys : Type := mkTsys { self : TaskManager; hw : mach }.
Abbreviation T := (st tsys).

Definition on_hw {A} (m : M A) : T A := λ s,
  match m (hw s) with
  | Done (a, h) => Done (a, mkTsys (self s) h)
  | Panic => Panic
  | Diverge => Diverge
  end.
Definition get_self {A} (f : TaskManager → A) : T A := gets (λ s, f (self s)).
Definition upd_self (f : TaskManager → TaskManager) : T unit :=
  modify (λ s, mkTsys (f (self s)) (hw s)).

(** [iter().position(..)]. *)
Fixpoint position {A} (p : A → bool) (l : list A) : option nat :=
  match l with
  | [] => None
  | x :: l => if p x then Some 0%nat else S <$> position p l
  end.
(** The slot of the first task with this PID. *)
Definition has_pid (p : Z) (slot : option Task) : bool :=
  match slot with Some t => pid t =? p | None => false end.
Definition is_none {A} (o : option A) : bool := match o with None => true | Some _ => false end.
Definition task_index (ts : list (option Task)) (p : Z) : option nat := position (has_pid p) ts.
Definition find_task (ts : list (option Task)) (p : Z) : option Task :=
  i ← task_index ts p; mjoin (ts !! i).

(** [self.tasks[i].as_ref().unwrap()], and an assignment through [as_mut().unwrap()]. *)
Definition task_at (i : nat) : T Task := o ← get_self (λ m, mjoin (tasks m !! i)); unwrap o.
Definition upd_task (i : nat) (f : Task → Task) : T unit :=
  _ ← task_at i; upd_self (set_tasks (alter (fmap f) i)).
(** [self.tasks[i] = slot]. *)
Definition put_task (i : nat) (slot : option Task) : T unit :=
  n ← get_self (λ m, length (tasks m));
  if bool_decide (i < n)%nat then upd_self (set_tasks (<[i := slot]>)) else panic.
(** [self.endpoints[e].as_mut().unwrap()] and assignments through it. *)
Definition endpoint_at (m : TaskManager) (e : Z) : option Endpoint :=
  if (0 <=? e) then mjoin (endpoints m !! Z.to_nat e) else None.
Definition upd_endpoint (e : Z) (f : Endpoint → Endpoint) : T unit :=
  o ← get_self (λ m, endpoint_at m e);
  _ ← unwrap o;
  upd_self (set_endpoints (alter (fmap f) (Z.to_nat e))).
Definition add_runnable : T unit := upd_self (set_runnable_count (λ n, u32 (n + 1))).
(** [saturating_sub(1)]. *)
Definition sub_runnable : T unit := upd_self (set_runnable_count (λ n, Z.max 0 (n - 1))).

Definition IDLE_PID : Z := 0.
Definition HEAP_LIMIT : Z := USER_STACK_TOP - 2 * PAGE_SIZE.

Definition align_up (value : Z) : result Z :=
  ok_or (page_down <$> checked_add value (PAGE_SIZE - 1)).

(** ** Address spaces *)

(** The body of the two loops of [free_user_space]. *)
Definition free_user_page (pt va : Z) : M unit :=
  o ← pgtable_walk pt va false;
  match o with
  | None => mret tt
  | Some e =>
      pte ← load e;
      if pte_valid pte then
        _ ← page_free (pte_to_pa pte);
        store e 0
      else mret tt
  end.
Definition free_user_space (pt user_stack image_base image_size heap_base heap_end : Z) : M unit :=
  let start := page_down image_base in
  let end_ := page_down (image_base +' image_size +' PAGE_SIZE -' 1) in
  _ ← foreach (range_step start end_ PAGE_SIZE) (free_user_page pt);
  let heap_mapped_end := match align_up heap_end with Ok v => v | Err => heap_base end in
  _ ← foreach (range_step heap_base heap_mapped_end PAGE_SIZE) (free_user_page pt);
  _ ← (if negb (user_stack =? 0) then page_free user_stack else mret tt);
  pgtable_free pt.
Definition free_address_space (t : Task) : M unit :=
  free_user_space (pagetable t) (user_stack t) (image_base t) (image_size t) (heap_base t)
    (heap_end t).
Definition free_task (t : Task) : M unit :=
  _ ← free_address_space t;
  page_free (kernel_stack t).

(** [slot] holds a zombie whose parent is gone, other than the current task. *)
Definition detached (cur : option Z) (slot : option Task) : bool :=
  match slot with
  | Some t => bool_decide (state t = Zombie) && is_none (parent_pid t)
              && bool_decide (Some (pid t) ≠ cur)
  | None => false
  end.
Definition reap_detached_zombies : T unit :=
  cur ← get_self current_pid;
  foreach (seq 0 (Z.to_nat MAX_TASKS)) (λ index,
    slot ← get_self (λ m, mjoin (tasks m !! index));
    if detached cur slot then
      t ← unwrap slot;
      _ ← put_task index None;
      on_hw (free_task t)
    else mret tt).

Definition init_context (kernel_stack pt : Z) (frame : TrapFrame) : M Z :=
  let frame_addr := kernel_stack +' PAGE_SIZE -' 16 -' FRAME_SIZE in
  _ ← write_frame frame_addr frame;
  ks ← kernel_satp;
  _ ← store (frame_addr +' FRAME_SIZE) ks;
  _ ← store (frame_addr +' FRAME_SIZE +' 8) (satp_of pt);
  mret frame_addr.

Definition TaskManager_new : TaskManager :=
  mkTaskManager None (replicate (Z.to_nat MAX_TASKS) None) 1 0
    (replicate (Z.to_nat MAX_ENDPOINTS) None) None.

(** ** Creating tasks *)

Definition create_idle (entry : Z) : T (result Z) :=
  ts ← get_self tasks;
  if is_none (task_index ts IDLE_PID) then
    match position is_none ts with
    | None => mret Err
    | Some slot_index =>
        kernel_stack ←? (o ← on_hw page_alloc; mret (ok_or o));
        o ← on_hw pgtable_create;
        match o with
        | None => _ ← on_hw (page_free kernel_stack); mret Err
        | Some pt =>
            r ← on_hw (map_kernel pt);
            match r with
            | Err =>
                _ ← on_hw (pgtable_free pt);
                _ ← on_hw (page_free kernel_stack);
                mret Err
            | Ok _ =>
                let frame := initial_frame (kernel_stack +' PAGE_SIZE -' 16) entry
                               (Z.lor SSTATUS_SPP SSTATUS_SPIE) in
                tf ← on_hw (init_context kernel_stack pt frame);
                _ ← put_task slot_index
                      (Some (mkTask IDLE_PID Ready tf kernel_stack 0 entry pt 0 0 0 0 0 None None));
                mret (Ok IDLE_PID)
            end
        end
    end
  else mret Err.

Definition create_user_image (pt user_stack entry image_base image_size : Z) : T (result Z) :=
  match checked_add image_base image_size with
  | None => mret Err
  | Some heap_base =>
      let abandon :=
        _ ← on_hw (free_user_space pt user_stack image_base image_size heap_base heap_base);
        mret Err in
      if (HEAP_LIMIT <? heap_base) || negb (heap_base mod PAGE_SIZE =? 0) then abandon
      else
        ts ← get_self tasks;
        match position is_none ts with
        | None => abandon
        | Some slot_index =>
            o ← on_hw page_alloc;
            match o with
            | None => abandon
            | Some kernel_stack =>
                pid ← get_self next_pid;
                _ ← upd_self (set_next_pid (λ n, u32 (n + 1)));
                let frame := initial_frame USER_STACK_TOP entry (Z.lor SSTATUS_SPIE SSTATUS_SUM) in
                tf ← on_hw (init_context kernel_stack pt frame);
                parent ← get_self current_pid;
                _ ← put_task slot_index
                      (Some (mkTask pid Ready tf kernel_stack user_stack entry pt 0
                               image_base image_size heap_base heap_base parent None));
                _ ← add_runnable;
                mret (Ok pid)
            end
        end
  end.

(** ** The scheduler *)

(** [current] and [current_mut]: the current task's slot. *)
Definition current_index (m : TaskManager) : option nat :=
  p ← current_pid m; task_index (tasks m) p.
Definition current (m : TaskManager) : option Task :=
  i ← current_index m; mjoin (tasks m !! i).

Definition set_current (p : Z) : T unit :=
  ts ← get_self tasks;
  match task_index ts p with
  | None => mret tt
  | Some i =>
      _ ← upd_task i (set_state Running);
      upd_self (set_current_pid (Some p))
  end.

(** A ready task other than idle. *)
Definition runnable (slot : option Task) : bool :=
  match slot with
  | Some t => negb (pid t =? IDLE_PID) && bool_decide (state t = Ready)
  | None => false
  end.

(** Make the task at [index] the running one; its frame is returned to. *)
Definition dispatch (index : nat) : T Z :=
  t ← task_at index;
  _ ← upd_task index (set_state Running);
  _ ← upd_self (set_current_pid (Some (pid t)));
  mret (trap_frame t).

(** [for offset in 0..MAX_TASKS]: the first runnable slot from [start], cyclically. *)
Fixpoint schedule_from (start : nat) (offsets : list nat) : T (option Z) :=
  match offsets with
  | [] => mret None
  | offset :: offsets =>
      let index := ((start + offset) mod Z.to_nat MAX_TASKS)%nat in
      slot ← get_self (λ m, mjoin (tasks m !! index));
      if runnable slot then fp ← dispatch index; mret (Some fp)
      else schedule_from start offsets
  end.

(** Run PID 0; [tf] is kept when there is no idle task yet. *)
Definition dispatch_idle : T (option Z) :=
  ts ← get_self tasks;
  match task_index ts IDLE_PID with
  | None => mret None
  | Some i => fp ← dispatch i; mret (Some fp)
  end.

(** The first step of [schedule]: the outgoing task's frame and state. *)
Definition save_current (tf : Z) : T (option nat) :=
  current_index ← get_self current_index;
  match current_index with
  | None => mret None
  | Some index =>
      t ← task_at index;
      frame ← on_hw (read_frame tf);
      _ ← on_hw (write_frame (trap_frame t) frame);
      _ ← (if bool_decide (state t = Running) then upd_task index (set_state Ready) else mret tt);
      mret (Some index)
  end.

Definition schedule (tf : Z) : T Z :=
  _ ← reap_detached_zombies;
  current_index ← save_current tf;
  let start := match current_index with
               | None => 0%nat
               | Some index => ((index + 1) mod Z.to_nat MAX_TASKS)%nat
               end in
  o ← schedule_from start (seq 0 (Z.to_nat MAX_TASKS));
  match o with
  | Some fp => mret fp
  | None => o ← dispatch_idle; mret (default tf o)
  end.

(** ** fork, exec, sbrk *)

(** The valid entry mapping [va], as [fork] reads it from the parent. *)
Definition source_pte (pt va : Z) : M (option Z) :=
  e ←! pgtable_walk pt va false;
  pte ← load e;
  mret (if pte_valid pte then Some pte else None).
(** A fresh page with the contents of the source page, mapped in the child. *)
Definition fork_copy (child_pt va source : Z) : M (result unit) :=
  page ←? (o ← page_alloc; mret (ok_or o));
  _ ← modify (set_mem (λ m, copy_page m (pte_to_pa source) page));
  pgtable_map child_pt va page PAGE_SIZE (Z.land source 0x3fe).
(** One page of the image, where holes are skipped, and one of the heap. *)
Definition fork_image_page (parent_pt child_pt va : Z) : M (result unit) :=
  o ← source_pte parent_pt va;
  match o with None => mret (Ok tt) | Some source => fork_copy child_pt va source end.
Definition fork_heap_page (parent_pt child_pt va : Z) : M (result unit) :=
  source ←? (o ← source_pte parent_pt va; mret (ok_or o));
  fork_copy child_pt va source.

Definition fork (tf : Z) : T (result Z) :=
  cur ← get_self current_pid;
  if bool_decide (cur = Some IDLE_PID) then mret Err
  else
    idx ← get_self current_index;
    match idx with
    | None => mret Err
    | Some parent_index =>
        parent ← task_at parent_index;
        child_kernel_stack ←? (o ← on_hw page_alloc; mret (ok_or o));
        child_user_stack ←? (o ← on_hw page_alloc; mret (ok_or o));
        child_pt ←? (o ← on_hw pgtable_create; mret (ok_or o));
        _ ←? on_hw (map_kernel child_pt);
        let start := page_down (image_base parent) in
        let end_ := page_down (image_base parent +' image_size parent +' PAGE_SIZE -' 1) in
        _ ←? on_hw (try_foreach (range_step start end_ PAGE_SIZE)
                      (fork_image_page (pagetable parent) child_pt));
        heap_mapped_end ←? mret (align_up (heap_end parent));
        _ ←? on_hw (try_foreach (range_step (heap_base parent) heap_mapped_end PAGE_SIZE)
                      (fork_heap_page (pagetable parent) child_pt));
        _ ← on_hw (modify (set_mem (λ m, copy_page m (user_stack parent) child_user_stack)));
        _ ←? on_hw (pgtable_map child_pt (USER_STACK_TOP - PAGE_SIZE) child_user_stack PAGE_SIZE
                      (Z.lor (Z.lor PTE_R PTE_W) PTE_U));
        pid ← get_self next_pid;
        _ ← upd_self (set_next_pid (λ n, u32 (n + 1)));
        frame ← on_hw (read_frame tf);
        child_tf ← on_hw (init_context child_kernel_stack child_pt (with_a0 frame 0));
        let child := mkTask pid Ready child_tf child_kernel_stack child_user_stack (entry parent)
                       child_pt 0 (image_base parent) (image_size parent) (heap_base parent)
                       (heap_end parent) cur None in
        ts ← get_self tasks;
        match position is_none ts with
        | None => mret Err
        | Some slot =>
            _ ← put_task slot (Some child);
            _ ← add_runnable;
            _ ← on_hw (store (tf +' off_a0) pid);
            mret (Ok pid)
        end
    end.

Definition replace_current (pt user_stack_ entry_ image_base_ image_size_ tf : Z) : T (result unit) :=
  match checked_add image_base_ image_size_ with
  | None => mret Err
  | Some heap_base_ =>
      if (HEAP_LIMIT <? heap_base_) || negb (heap_base_ mod PAGE_SIZE =? 0) then mret Err
      else
        idx ← get_self current_index;
        match idx with
        | None => mret Err
        | Some i =>
            old ← task_at i;
            _ ← upd_task i (set_image pt user_stack_ entry_ image_base_ image_size_ heap_base_);
            _ ← on_hw (store (trap_frame old +' FRAME_SIZE +' 8) (satp_of pt));
            _ ← on_hw (store (tf +' off_sp) USER_STACK_TOP);
            _ ← on_hw (store (tf +' off_sepc) entry_);
            _ ← on_hw (store (tf +' off_a0) 0);
            _ ← on_hw (store (tf +' off_a1) 0);
            _ ← on_hw (store (tf +' off_a2) 0);
            _ ← on_hw (free_address_space old);
            mret (Ok tt)
        end
  end.

(** Undo a partial growth of the heap. *)
Definition sbrk_undo (pt old_mapped_end mapped_end : Z) : M unit :=
  if old_mapped_end <? mapped_end then
    _ ← pgtable_unmap pt old_mapped_end (mapped_end -' old_mapped_end) true;
    mret tt
  else mret tt.
(** [while mapped_end < new_mapped_end]; [fuel] bounds the number of iterations. *)
Fixpoint sbrk_grow (fuel : nat) (pt old_mapped_end new_mapped_end mapped_end : Z) :
  M (result unit) :=
  match fuel with
  | O => diverge
  | S fuel =>
      if mapped_end <? new_mapped_end then
        o ← page_alloc;
        match o with
        | None => _ ← sbrk_undo pt old_mapped_end mapped_end; mret Err
        | Some page =>
            _ ← modify (set_mem (λ m, zero_page m page));
            r ← pgtable_map pt mapped_end page PAGE_SIZE (Z.lor (Z.lor PTE_R PTE_W) PTE_U);
            match r with
            | Err =>
                _ ← page_free page;
                _ ← sbrk_undo pt old_mapped_end mapped_end;
                mret Err
            | Ok _ => sbrk_grow fuel pt old_mapped_end new_mapped_end (mapped_end +' PAGE_SIZE)
            end
        end
      else mret (Ok tt)
  end.
(** One more than the number of pages below [HEAP_LIMIT]. *)
Definition SBRK_FUEL : nat := Z.to_nat (HEAP_LIMIT / PAGE_SIZE + 1).

Definition sbrk (increment : Z) : T (result Z) :=
  cur ← get_self current_pid;
  if bool_decide (cur = Some IDLE_PID) then mret Err
  else
    idx ← get_self current_index;
    match idx with
    | None => mret Err
    | Some i =>
        t ← task_at i;
        let old_end := heap_end t in
        match checked_add_signed old_end increment with
        | None => mret Err
        | Some new_end =>
            if (new_end <? heap_base t) || (HEAP_LIMIT <? new_end) then mret Err
            else
              old_mapped_end ←? mret (align_up old_end);
              new_mapped_end ←? mret (align_up new_end);
              _ ←? (if old_mapped_end <? new_mapped_end then
                      on_hw (sbrk_grow SBRK_FUEL (pagetable t) old_mapped_end new_mapped_end
                               old_mapped_end)
                    else if new_mapped_end <? old_mapped_end then
                      on_hw (pgtable_unmap (pagetable t) new_mapped_end
                               (old_mapped_end -' new_mapped_end) true)
                    else mret (Ok tt));
              _ ← upd_task i (set_heap_end new_end);
              mret (Ok old_end)
        end
    end.

(** ** waitpid and exit *)

(** The child [p] of [parent]. *)
Definition is_child (parent p : Z) (slot : option Task) : bool :=
  match slot with
  | Some t => (pid t =? p) && bool_decide (parent_pid t = Some parent)
  | None => false
  end.

(** The current task at [i] goes to sleep on [channel], its frame saved from [tf]. *)
Definition block_at (i : nat) (channel : WaitChannel) (tf : Z) : T unit :=
  _ ← upd_task i (set_state Sleeping);
  _ ← upd_task i (set_waiting_for (Some channel));
  t ← task_at i;
  frame ← on_hw (read_frame tf);
  _ ← on_hw (write_frame (trap_frame t) frame);
  sub_runnable.

Definition waitpid (p tf : Z) : T WaitResult :=
  cur ← get_self current_pid;
  if bool_decide (cur = Some IDLE_PID) then mret WaitError
  else match cur with
  | None => mret WaitError
  | Some parent_pid =>
      ts ← get_self tasks;
      match position (is_child parent_pid p) ts with
      | None => mret WaitError
      | Some child_index =>
          child ← task_at child_index;
          if bool_decide (state child = Zombie) then
            _ ← put_task child_index None;
            _ ← on_hw (free_task child);
            mret (Reaped (exit_code child))
          else
            idx ← get_self current_index;
            match idx with
            | None => mret WaitError
            | Some i =>
                _ ← block_at i (Child p) tf;
                fp ← schedule tf;
                mret (WaitBlocked fp)
            end
      end
  end.

(** The first runnable slot, as [exit_current] searches it. *)
Definition exit_next : T (option Z) :=
  ts ← get_self tasks;
  match position runnable ts with
  | Some i => fp ← dispatch i; mret (Some fp)
  | None => dispatch_idle
  end.

(** The current task becomes a zombie and its children orphans. *)
Definition orphan (p : Z) (slot : option Task) : option Task :=
  (λ t, if bool_decide (parent_pid t = Some p) then set_parent_pid None t else t) <$> slot.
(** Wake the parent at [index] if it waits for the child. *)
Definition wake_parent (index : nat) (child_pid code : Z) : T unit :=
  parent ← task_at index;
  if bool_decide (state parent = Sleeping) && bool_decide (waiting_for parent = Some (Child child_pid))
  then
    _ ← upd_task index (set_state Ready);
    _ ← upd_task index (set_waiting_for None);
    _ ← on_hw (store (trap_frame parent +' off_a0) (u64 code));
    _ ← add_runnable;
    ts ← get_self tasks;
    match task_index ts child_pid with
    | None => mret tt
    | Some c => upd_task c (set_parent_pid None)
    end
  else mret tt.

Definition exit_current (code : Z) : T (option Z) :=
  cur ← get_self current_pid;
  if bool_decide (cur = Some IDLE_PID) then
    o ← get_self current; mret (trap_frame <$> o)
  else
    idx ← get_self current_index;
    _ ← match idx with
        | None => mret tt
        | Some i =>
            _ ← upd_task i (set_state Zombie);
            _ ← upd_task i (set_exit_code code);
            t ← task_at i;
            _ ← upd_self (set_runnable_count (λ n, u32 (n - 1)));
            _ ← upd_self (set_tasks (fmap (orphan (pid t))));
            match parent_pid t with
            | None => mret tt
            | Some parent =>
                ts ← get_self tasks;
                match task_index ts parent with
                | None => mret tt
                | Some index => wake_parent index (pid t) code
                end
            end
        end;
    _ ← upd_self (set_current_pid None);
    exit_next.

(** ** IPC *)

(** [set_message(frame, sender, words)]; [w k] is [words[k]]. *)
Definition word (ws : list Z) (k : nat) : Z := default 0 (ws !! k).
Definition set_message (frame sender : Z) (ws : list Z) : M unit :=
  _ ← store (frame +' off_a0) sender;
  _ ← store (frame +' off_a1) (word ws 0);
  _ ← store (frame +' off_a2) (word ws 1);
  _ ← store (frame +' off_a3) (word ws 2);
  store (frame +' off_a4) (word ws 3).

(** Endpoint updates. *)
Definition set_waiting (x : option Z) (e : Endpoint) : Endpoint :=
  mkEndpoint (owner e) x (pending e) (copy_buf e) (copy_len e) (recv_buf_addr e)
    (recv_buf_capacity e) (has_buffered e).
Definition set_pending (q : MsgQueue) (e : Endpoint) : Endpoint :=
  mkEndpoint (owner e) (waiting_receiver e) q (copy_buf e) (copy_len e) (recv_buf_addr e)
    (recv_buf_capacity e) (has_buffered e).
Definition set_copy (buf : list Z) (e : Endpoint) : Endpoint :=
  mkEndpoint (owner e) (waiting_receiver e) (pending e) buf (copy_len e) (recv_buf_addr e)
    (recv_buf_capacity e) (has_buffered e).
Definition set_copy_len (n : Z) (e : Endpoint) : Endpoint :=
  mkEndpoint (owner e) (waiting_receiver e) (pending e) (copy_buf e) n (recv_buf_addr e)
    (recv_buf_capacity e) (has_buffered e).
Definition set_recv_buf (addr cap : Z) (e : Endpoint) : Endpoint :=
  mkEndpoint (owner e) (waiting_receiver e) (pending e) (copy_buf e) (copy_len e) addr cap
    (has_buffered e).
Definition set_buffered (b : bool) (e : Endpoint) : Endpoint :=
  mkEndpoint (owner e) (waiting_receiver e) (pending e) (copy_buf e) (copy_len e)
    (recv_buf_addr e) (recv_buf_capacity e) b.

Definition register_endpoint (endpoint owner : Z) : T (result unit) :=
  ep ← get_self (λ m, endpoint_at m endpoint);
  if (MAX_ENDPOINTS <=? endpoint) || negb (is_none ep) then mret Err
  else
    ts ← get_self tasks;
    match task_index ts owner with
    | None => mret Err
    | Some _ =>
        _ ← upd_self (set_endpoints (<[Z.to_nat endpoint :=
              Some (mkEndpoint owner None MsgQueue_new
                      (replicate (Z.to_nat IPC_BUF_SIZE) 0) 0 0 0 false)]>));
        mret (Ok tt)
    end.

(** An operation on the queue of an endpoint; [pending.push(message).ok()] and
    [pending.pop()]. *)
Definition on_queue {A} (endpoint : Z) (m : st MsgQueue A) : T A := λ s,
  match endpoint_at (self s) endpoint with
  | None => Panic
  | Some ep =>
      match m (pending ep) with
      | Done (a, q) => (_ ← upd_endpoint endpoint (set_pending q); mret a) s
      | Panic => Panic
      | Diverge => Diverge
      end
  end.
Definition ep_push (endpoint : Z) (m : Message) : T unit :=
  _ ← on_queue endpoint (push m); mret tt.
Definition ep_pop (endpoint : Z) : T (option Message) := on_queue endpoint pop.

(** The task at [i] becomes ready again. *)
Definition wake_at (i : nat) : T unit :=
  _ ← upd_task i (set_state Ready);
  _ ← upd_task i (set_waiting_for None);
  add_runnable.

Definition ipc_call (endpoint : Z) (ws : list Z) (tf : Z) : T IpcResult :=
  cur ← get_self current_pid;
  match cur with
  | None => mret IpcError
  | Some sender =>
      oep ← get_self (λ m, endpoint_at m endpoint);
      match oep with
      | None => mret IpcError
      | Some ep =>
          let receiver_waiting := bool_decide (waiting_receiver ep = Some (owner ep)) in
          if (sender =? owner ep) || is_full (pending ep) then mret IpcError
          else
            ts ← get_self tasks;
            match task_index ts sender with
            | None => mret IpcError
            | Some sender_index =>
                _ ← block_at sender_index (IpcCall endpoint) tf;
                _ ← (if receiver_waiting then
                       ts ← get_self tasks;
                       receiver_index ← unwrap (task_index ts (owner ep));
                       receiver ← task_at receiver_index;
                       _ ← on_hw (set_message (trap_frame receiver) sender ws);
                       _ ← wake_at receiver_index;
                       upd_endpoint endpoint (set_waiting None)
                     else ep_push endpoint (mkMessage sender ws 0));
                fp ← schedule tf;
                mret (Blocked fp)
            end
      end
  end.

Definition ipc_recv (endpoint tf : Z) : T IpcResult :=
  cur ← get_self current_pid;
  match cur with
  | None => mret IpcError
  | Some receiver =>
      oep ← get_self (λ m, endpoint_at m endpoint);
      match oep with
      | None => mret IpcError
      | Some ep =>
          if negb (owner ep =? receiver) then mret IpcError
          else
            o ← ep_pop endpoint;
            match o with
            | Some message =>
                _ ← on_hw (set_message tf (sender message) (words message));
                mret Continue
            | None =>
                _ ← upd_endpoint endpoint (set_waiting (Some receiver));
                idx ← get_self current_index;
                match idx with
                | None => mret IpcError
                | Some i =>
                    _ ← block_at i (IpcRecv endpoint) tf;
                    fp ← schedule tf;
                    mret (Blocked fp)
                end
            end
      end
  end.

(** The checks [ipc_reply] and [ipc_reply_buf] share: the slot of a client that waits
    on an endpoint of the replier. *)
Definition reply_target (client : Z) : T (result nat) :=
  replier ←? (o ← get_self current_pid; mret (ok_or o));
  ts ← get_self tasks;
  match task_index ts client with
  | None => mret Err
  | Some index =>
      t ← task_at index;
      match waiting_for t with
      | Some (IpcCall waiting_endpoint) =>
          oep ← get_self (λ m, endpoint_at m waiting_endpoint);
          match oep with
          | Some ep => if owner ep =? replier then mret (Ok index) else mret Err
          | None => mret Err
          end
      | _ => mret Err
      end
  end.
Definition set_reply (frame : Z) (ws : list Z) : M unit :=
  _ ← store (frame +' off_a0) (word ws 0);
  _ ← store (frame +' off_a1) (word ws 1);
  _ ← store (frame +' off_a2) (word ws 2);
  store (frame +' off_a3) (word ws 3).

Definition ipc_reply (client : Z) (ws : list Z) : T (result unit) :=
  index ←? reply_target client;
  t ← task_at index;
  if negb (bool_decide (state t = Sleeping)) then mret Err
  else
    _ ← on_hw (set_reply (trap_frame t) ws);
    _ ← wake_at index;
    mret (Ok tt).

(** One byte of [ipc_reply_buf], from the replier's space to the caller's. *)
Definition reply_byte (replier_pt caller_pt user_buf caller_buf_addr i : Z) : M (result unit) :=
  src_pa ←? (o ← virt_to_phys replier_pt (user_buf +' i); mret (ok_or o));
  dst_pa ←? (o ← virt_to_phys caller_pt (caller_buf_addr +' i); mret (ok_or o));
  b ← gets (λ s, load8 (mem s) src_pa);
  _ ← modify (set_mem (λ m, store8 m dst_pa b));
  mret (Ok tt).

(** The page table of the last task with this PID. *)
Definition pagetable_of (ts : list (option Task)) (p : option Z) : option Z :=
  foldl (λ acc slot, match slot with
                     | Some t => if bool_decide (Some (pid t) = p) then Some (pagetable t) else acc
                     | None => acc
                     end) None ts.

Definition ipc_reply_buf (client : Z) (ws : list Z) (user_buf buf_len : Z) : T (result unit) :=
  index ←? reply_target client;
  ts ← get_self tasks;
  cur ← get_self current_pid;
  let replier_pt_opt := if 0 <? buf_len then pagetable_of ts cur else None in
  let caller_pt := default 0 (pagetable_of ts (Some client)) in
  t ← task_at index;
  if negb (bool_decide (state t = Sleeping)) then mret Err
  else
    let frame := trap_frame t in
    caller_buf_addr ← on_hw (load (frame +' off_a5));
    caller_buf_capacity ← on_hw (load (frame +' off_a6));
    let copy_len := Z.min (Z.min buf_len caller_buf_capacity) IPC_BUF_SIZE in
    _ ← on_hw (set_reply frame ws);
    _ ← on_hw (store (frame +' off_a5) copy_len);
    _ ←? (if 0 <? copy_len then
            replier_pt ← unwrap replier_pt_opt;
            on_hw (try_foreach (seqZ 0 copy_len)
                     (reply_byte replier_pt caller_pt user_buf caller_buf_addr))
          else mret (Ok tt));
    _ ← wake_at index;
    mret (Ok tt).

(** [mem_copy_from_user]: the bytes of [dst] after the copy, and whether it succeeded.
    Bytes copied before a failure stay. *)
Fixpoint copy_from_user (idxs : list Z) (pt user_src : Z) (dst : list Z) :
  M (result unit * list Z) :=
  match idxs with
  | [] => mret (Ok tt, dst)
  | i :: idxs =>
      o ← virt_to_phys pt (user_src +' i);
      match o with
      | None => mret (Err, dst)
      | Some pa =>
          b ← gets (λ s, load8 (mem s) pa);
          copy_from_user idxs pt user_src (<[Z.to_nat i := b]> dst)
      end
  end.
Definition mem_copy_from_user (pt : Z) (dst : list Z) (user_src len : Z) :
  M (result unit * list Z) :=
  copy_from_user (seqZ 0 (Z.min len (Z.of_nat (length dst)))) pt user_src dst.

Definition put_user_byte (pt user_dst : Z) (src : list Z) (i : Z) : M (result unit) :=
  pa ←? (o ← virt_to_phys pt (user_dst +' i); mret (ok_or o));
  b ← unwrap (src !! Z.to_nat i);
  _ ← modify (set_mem (λ m, store8 m pa b));
  mret (Ok tt).
Definition mem_copy_to_user (pt user_dst : Z) (src : list Z) (len : Z) : M (result unit) :=
  try_foreach (seqZ 0 (Z.min len (Z.of_nat (length src)))) (put_user_byte pt user_dst src).

(** [&buf[..n]], which panics when [n] is out of bounds. *)
Definition slice_to (buf : list Z) (n : Z) : T (list Z) :=
  if n <=? Z.of_nat (length buf) then mret (take (Z.to_nat n) buf) else panic.

(** The part of [ipc_call_buf] that fills the endpoint's [copy_buf]. *)
Definition stage_buffer (endpoint user_buf buf_len : Z) : T (result unit) :=
  if 0 <? buf_len then
    o ← get_self current;
    match o with
    | None => mret Err
    | Some t =>
        oep ← get_self (λ m, endpoint_at m endpoint);
        ep ← unwrap oep;
        ep_buf ← slice_to (copy_buf ep) buf_len;
        r ← on_hw (mem_copy_from_user (pagetable t) ep_buf user_buf buf_len);
        _ ← upd_endpoint endpoint
              (set_copy (r.2 ++ drop (Z.to_nat buf_len) (copy_buf ep)));
        match r.1 with
        | Err => mret Err
        | Ok _ => _ ← upd_endpoint endpoint (set_copy_len buf_len); mret (Ok tt)
        end
    end
  else _ ← upd_endpoint endpoint (set_copy_len 0); mret (Ok tt).

(** The part of [ipc_call_buf] that hands the message to a blocked receiver. *)
Definition deliver_buf (endpoint sender : Z) (ws : list Z) (buf_len own : Z) : T unit :=
  ts ← get_self tasks;
  receiver_index ← unwrap (task_index ts own);
  receiver ← task_at receiver_index;
  let frame := trap_frame receiver in
  _ ← on_hw (set_message frame sender ws);
  oep ← get_self (λ m, endpoint_at m endpoint);
  ep ← unwrap oep;
  _ ← (if (0 <? buf_len) && negb (recv_buf_addr ep =? 0) then
         let copy_len := Z.min buf_len (recv_buf_capacity ep) in
         ep_buf ← slice_to (copy_buf ep) copy_len;
         r ← on_hw (mem_copy_to_user (pagetable receiver) (recv_buf_addr ep) ep_buf copy_len);
         on_hw (store (frame +' off_a5) (if is_ok r then copy_len else 0))
       else on_hw (store (frame +' off_a5) 0));
  _ ← upd_endpoint endpoint (set_recv_buf 0 0);
  _ ← wake_at receiver_index;
  upd_endpoint endpoint (set_waiting None).

Definition ipc_call_buf (endpoint : Z) (ws : list Z) (user_buf buf_len tf : Z) : T IpcResult :=
  cur ← get_self current_pid;
  match cur with
  | None => mret IpcError
  | Some sender =>
      oep ← get_self (λ m, endpoint_at m endpoint);
      match oep with
      | None => mret IpcError
      | Some ep =>
          let receiver_waiting := bool_decide (waiting_receiver ep = Some (owner ep)) in
          let buffered_blocked := has_buffered ep && negb receiver_waiting in
          if (sender =? owner ep) || is_full (pending ep) || buffered_blocked then mret IpcError
          else if IPC_BUF_SIZE <? buf_len then mret IpcError
          else
            r ← stage_buffer endpoint user_buf buf_len;
            match r with
            | Err => mret IpcError
            | Ok _ =>
                ts ← get_self tasks;
                match task_index ts sender with
                | None => mret IpcError
                | Some sender_index =>
                    _ ← block_at sender_index (IpcCall endpoint) tf;
                    _ ← (if receiver_waiting then deliver_buf endpoint sender ws buf_len (owner ep)
                         else
                           _ ← (if 0 <? buf_len then upd_endpoint endpoint (set_buffered true)
                                else mret tt);
                           ep_push endpoint (mkMessage sender ws (u16 buf_len)));
                    fp ← schedule tf;
                    mret (Blocked fp)
                end
            end
      end
  end.

(** A queued message is handed over together with its buffer. *)
Definition take_buffered (endpoint : Z) (message : Message) (user_buf capacity tf : Z) : T unit :=
  if 0 <? buf_len message then
    _ ← upd_endpoint endpoint (set_buffered false);
    let copy_len := Z.min (buf_len message) capacity in
    o ← get_self current;
    match o with
    | None => on_hw (store (tf +' off_a5) 0)
    | Some t =>
        oep ← get_self (λ m, endpoint_at m endpoint);
        ep ← unwrap oep;
        ep_buf ← slice_to (copy_buf ep) copy_len;
        r ← on_hw (mem_copy_to_user (pagetable t) user_buf ep_buf copy_len);
        on_hw (store (tf +' off_a5) (if is_ok r then copy_len else 0))
    end
  else on_hw (store (tf +' off_a5) 0).

Definition ipc_recv_buf (endpoint user_buf capacity tf : Z) : T IpcResult :=
  cur ← get_self current_pid;
  match cur with
  | None => mret IpcError
  | Some receiver =>
      oep ← get_self (λ m, endpoint_at m endpoint);
      match oep with
      | None => mret IpcError
      | Some ep =>
          if negb (owner ep =? receiver) then mret IpcError
          else
            o ← ep_pop endpoint;
            match o with
            | Some message =>
                _ ← on_hw (set_message tf (sender message) (words message));
                _ ← take_buffered endpoint message user_buf capacity tf;
                mret Continue
            | None =>
                _ ← upd_endpoint endpoint (set_waiting (Some receiver));
                _ ← upd_endpoint endpoint (set_recv_buf user_buf capacity);
                idx ← get_self current_index;
                match idx with
                | None => mret IpcError
                | Some i =>
                    _ ← block_at i (IpcRecv endpoint) tf;
                    fp ← schedule tf;
                    mret (Blocked fp)
                end
            end
      end
  end.

(** ** The UART's interrupt *)

(** [grant_uart], with the manager already unwrapped. *)
Definition grant_uart (p : Z) : T (result unit) :=
  own ← get_self uart_owner;
  if negb (is_none own) then mret Err
  else
    ts ← get_self tasks;
    match find_task ts p with
    | None => mret Err
    | Some t =>
        _ ←? on_hw (pgtable_set_flags (pagetable t) UART_PAGE PAGE_SIZE
                      (Z.lor (Z.lor PTE_R PTE_W) PTE_U));
        _ ← upd_self (set_uart_owner (Some p));
        mret (Ok tt)
    end.

Definition wait_uart_irq (tf : Z) : T (result Z) :=
  cur ← get_self current_pid;
  own ← get_self uart_owner;
  if bool_decide (cur = Some 0) || negb (bool_decide (cur = own)) then mret Err
  else
    idx ← get_self current_index;
    match idx with
    | None => mret Err
    | Some i =>
        _ ← block_at i UartRx tf;
        _ ← on_hw (plic_enable UART0_IRQ);
        fp ← schedule tf;
        mret (Ok fp)
    end.

(** Waiting for the UART. *)
Definition waits_uart (slot : option Task) : bool :=
  match slot with
  | Some t => bool_decide (state t = Sleeping) && bool_decide (waiting_for t = Some UartRx)
  | None => false
  end.
Fixpoint wake_uart_from (idxs : list nat) (woke : bool) : T bool :=
  match idxs with
  | [] => mret woke
  | i :: idxs =>
      slot ← get_self (λ m, mjoin (tasks m !! i));
      if waits_uart slot then
        t ← unwrap slot;
        _ ← upd_task i (set_state Ready);
        _ ← upd_task i (set_waiting_for None);
        _ ← on_hw (store (trap_frame t +' off_a0) 0);
        _ ← add_runnable;
        wake_uart_from idxs true
      else wake_uart_from idxs woke
  end.
Definition wake_uart : T bool := wake_uart_from (seq 0 (Z.to_nat MAX_TASKS)) false.
Definition translate_user (va : Z) : T (option Z) :=
  o ← get_self current;
  match o with None => mret None | Some t => on_hw (virt_to_phys (pagetable t) va) end.

(** ** Rules for methods *)

Section rules.
Implicit Types (s : tsys).

Lemma wp_on_hw {A} (m : M A) Q s :
  wp m (λ a h, Q a (mkTsys (self s) h)) (hw s) → wp (on_hw m) Q s.
Proof. unfold wp, on_hw. by destruct (m (hw s)) as [[]| |]. Qed.
Lemma wp_get_self {A} (f : TaskManager → A) Q s : Q (f (self s)) s → wp (get_self f) Q s.
Proof. done. Qed.
Lemma wp_upd_self f (Q : unit → tsys → Prop) s :
  Q tt (mkTsys (f (self s)) (hw s)) → wp (upd_self f) Q s.
Proof. done. Qed.
Lemma wp_unwrap {A} (o : option A) a Q s : o = Some a → Q a s → wp (unwrap o : T A) Q s.
Proof. by intros ->. Qed.
Lemma wp_task_at i t Q s : tasks (self s) !! i = Some (Some t) → Q t s → wp (task_at i) Q s.
Proof.
  intros H HQ. unfold task_at. apply wp_bind, wp_get_self. rewrite H.
  by apply wp_unwrap with t.
Qed.
Lemma wp_upd_task i f t (Q : unit → tsys → Prop) s :
  tasks (self s) !! i = Some (Some t) →
  Q tt (mkTsys (set_tasks (alter (fmap f) i) (self s)) (hw s)) → wp (upd_task i f) Q s.
Proof.
  intros H HQ. unfold upd_task. apply wp_bind. by apply wp_task_at with t.
Qed.
Lemma wp_put_task i slot (Q : unit → tsys → Prop) s :
  (i < length (tasks (self s)))%nat →
  Q tt (mkTsys (set_tasks (<[i := slot]>) (self s)) (hw s)) → wp (put_task i slot) Q s.
Proof.
  intros H HQ. unfold put_task. apply wp_bind, wp_get_self.
  by rewrite bool_decide_true.
Qed.

Lemma position_Some {A} (p : A → bool) (l : list A) i :
  position p l = Some i ↔
  (∃ x, l !! i = Some x ∧ p x = true) ∧ ∀ j x, (j < i)%nat → l !! j = Some x → p x = false.
Proof.
  revert i. induction l as [|y l IH]; intros i; cbn [position].
  - split; [done|]. intros [(x & Hx & _) _]. by destruct i.
  - destruct (p y) eqn:E.
    + split.
      * intros [= <-]. split; [by exists y|]. lia.
      * intros [(x & Hx & Hp) Hlt]. destruct i as [|i]; [done|].
        specialize (Hlt 0%nat y ltac:(lia) eq_refl). congruence.
    + destruct i as [|i].
      * split; [by destruct (position p l)|]. intros [(x & [= ->] & Hp) _]. congruence.
      * assert (S <$> position p l = Some (S i) ↔ position p l = Some i) as ->.
        { destruct (position p l); simpl; split; congruence. }
        rewrite IH. split; intros [Hx Hlt]; (split; [exact Hx|]); intros j x Hj Hjx.
        -- destruct j as [|j]; [by injection Hjx as <-|]. apply (Hlt j x); [lia|done].
        -- apply (Hlt (S j) x); [lia|done].
Qed.
Lemma position_None {A} (p : A → bool) (l : list A) :
  position p l = None ↔ ∀ i x, l !! i = Some x → p x = false.
Proof.
  induction l as [|y l IH]; cbn [position]; [done|]. destruct (p y) eqn:E.
  - split; [done|]. intros H. specialize (H 0%nat y eq_refl). congruence.
  - assert (S <$> position p l = None ↔ position p l = None) as -> by (by destruct (position p l)).
    rewrite IH. split; intros H i x Hx; [|by apply (H (S i) x)].
    destruct i as [|i]; [by injection Hx as <-|]. by apply (H i x).
Qed.
Lemma task_index_Some ts p i :
  task_index ts p = Some i → ∃ t, ts !! i = Some (Some t) ∧ pid t = p.
Proof.
  intros [([t|] & Ht & Hp) _]%position_Some; [|done].
  exists t. split; [done|]. by apply Z.eqb_eq.
Qed.
Lemma current_index_Some m i :
  current_index m = Some i → ∃ t, tasks m !! i = Some (Some t) ∧ current_pid m = Some (pid t).
Proof.
  unfold current_index. destruct (current_pid m) as [p|]; [|done]. cbn [mbind option_bind].
  intros (t & Ht & <-)%task_index_Some. by exists t.
Qed.
End rules.
