(* ===== verification/Space.v ===== *)
(** What a task owns in physical memory, and that releasing a task gives back exactly
    that: facts about [free_user_space], [free_task] and [reap_detached_zombies] of
    [Task.v].

    [owns h t b] says that page [b] belongs to task [t]: a table of its page table, a
    page its image or heap is mapped to, its user stack or its kernel stack.
    [spaces_ok] is the memory invariant of the process manager: every task's address
    space is well-formed and no page belongs to two tasks. *)

From S2P Require Import Prelude Arch Page Memory Machine Pgtable Vm Trap Ipc Task.

(** The pages of a range, as [(lo..hi).step_by(PAGE_SIZE)] visits them. *)
Definition page_range (lo hi va : Z) : Prop := lo ≤ va < hi ∧ va mod PAGE_SIZE = 0.
Definition image_lo (t : Task) : Z := page_down (image_base t).
Definition image_hi (t : Task) : Z := page_down (image_base t +' image_size t +' PAGE_SIZE -' 1).
Definition heap_hi (t : Task) : Z :=
  match align_up (heap_end t) with Ok v => v | Err => heap_base t end.
Definition user_page (t : Task) (va : Z) : Prop :=
  page_range (image_lo t) (image_hi t) va ∨ page_range (heap_base t) (heap_hi t) va.

(** A page of user data. *)
Definition data_page (m : memory) (t : Task) (b : Z) : Prop :=
  ∃ va, user_page t va ∧ pte_to_pa <$> pt_lookup m (pagetable t) va = Some b.
(** What [free_address_space] releases, and what [free_task] releases. *)
Definition space_page (m : memory) (t : Task) (b : Z) : Prop :=
  is_table m (pagetable t) b ∨ data_page m t b ∨ (user_stack t ≠ 0 ∧ b = user_stack t).
Definition owns (m : memory) (t : Task) (b : Z) : Prop :=
  space_page m t b ∨ b = kernel_stack t.

(** The addresses a task may use: its image, its heap and its stack page. *)
Definition STACK_VA : Z := USER_STACK_TOP - PAGE_SIZE.
Definition user_va (t : Task) (va : Z) : Prop :=
  user_page t va ∨ (user_stack t ≠ 0 ∧ va = STACK_VA).
(** The page at [va] is the physical page [b]. *)
Definition maps (m : memory) (t : Task) (va b : Z) : Prop :=
  pte_to_pa <$> pt_lookup m (pagetable t) va = Some b.
Definition user_bit (pte : Z) : bool := negb (Z.land pte PTE_U =? 0).
Definition page_of (va : Z) : Z := va - va mod PAGE_SIZE.

(** What user code can reach through its page table: each page of its own once, never a
    table, and nothing else but the UART. *)
Record user_ok (m : memory) (t : Task) : Prop := {
  user_stack_mapped : user_stack t ≠ 0 → maps m t STACK_VA (user_stack t);
  user_inj va va' b :
    user_va t va → user_va t va' → maps m t va b → maps m t va' b → va = va';
  user_apart va b : user_va t va → maps m t va b → ¬ is_table m (pagetable t) b;
  user_only va pte :
    0 ≤ va < 2 ^ 39 → pt_lookup m (pagetable t) va = Some pte →
    kernel_va va = false ∨ user_bit pte = true →
    user_va t (page_of va) ∨ page_of va = UART_PAGE ∧ pte_to_pa pte = UART_PAGE;
}.
(** The kernel's pages are mapped to themselves. *)
Definition kernel_mapped (m : memory) (root : Z) : Prop :=
  ∀ v, 0 ≤ v < 2 ^ 39 → kernel_va v = true → pte_to_pa <$> pt_lookup m root v = Some (page_of v).
(** [len] bytes from [va] that a user program may call its own. *)
Definition user_range (va len : Z) : Prop :=
  ∀ i, 0 ≤ i < len → 0 ≤ va + i < 2 ^ 39 ∧ kernel_va (va + i) = false.
(** The lowest page of the kernel's own mappings, where the PLIC begins. *)
Definition USER_LIMIT : Z := 0x0c000000.

(** The ranges a task's fields describe. *)
Record layout_ok (t : Task) : Prop := {
  lay_image : 0 ≤ image_base t ∧ 0 ≤ image_size t ∧ image_base t + image_size t ≤ USER_LIMIT;
  lay_heap : page_aligned (heap_base t) ∧ heap_base t ≤ heap_end t ≤ USER_LIMIT;
  lay_stack : page_aligned (user_stack t) ∧ user_stack t < 2 ^ 56;
  lay_kstack : page_aligned (kernel_stack t) ∧ kernel_stack t < 2 ^ 56;
  lay_root : pagetable t < 2 ^ 56;
  (** The trap frame and the two [satp] words above it are in the kernel stack. *)
  lay_frame : kernel_stack t ≤ trap_frame t ∧
              trap_frame t + FRAME_SIZE + 16 ≤ kernel_stack t + PAGE_SIZE;
}.
Record space_ok (h : mach) (t : Task) : Prop := {
  space_layout : layout_ok t;
  space_ready : pt_ready h (pagetable t);
  space_leaves : leaves_ok (mem h) (pagetable t);
  space_kstack : ¬ is_table (mem h) (pagetable t) (kernel_stack t);
  space_user : user_ok (mem h) t;
  space_kernel : kernel_mapped (mem h) (pagetable t);
}.

Lemma align_up_spec v :
  0 ≤ v ≤ 2 ^ 63 →
  ∃ w, align_up v = Ok w ∧ page_aligned w ∧ v ≤ w < v + PAGE_SIZE.
Proof.
  intros Hv. unfold align_up, checked_add, PAGE_SIZE.
  assert ((v + (4096 - 1) <? 2 ^ 64) = true) as -> by lia. cbn [fmap option_fmap option_map ok_or].
  rewrite page_down_spec by (unfold is_u64; lia). unfold PAGE_SIZE.
  pose proof (Z.div_mod (v + (4096 - 1)) 4096). pose proof (Z.mod_pos_bound (v + (4096 - 1)) 4096).
  eexists. split; [done|]. split; [split; [lia|]|unfold PAGE_SIZE; lia].
  replace (v + (4096 - 1) - (v + (4096 - 1)) mod 4096) with ((v + (4096 - 1)) / 4096 * 4096) by lia.
  by apply Z.mod_mul.
Qed.


Section release.
Implicit Types (h : mach) (m : memory) (t : Task).

(** One page of the loops: [unmap_page] that also accepts a missing table. *)
Lemma free_user_page_unmap pt va h :
  free_user_page pt va h =
    match unmap_page pt va true h with
    | Done (_, h') => Done (tt, h') | Panic => Panic | Diverge => Diverge
    end.
Proof.
  unfold free_user_page, unmap_page, try_bind, mbind, st_bind. rewrite walk_read.
  destruct (slot (mem h) pt va) as [e|]; [|done]. cbn [mret st_ret ok_or].
  unfold mret, st_ret, load, gets. cbn [ok_or].
  destruct (pte_valid (load64 (mem h) e)); cbn [negb]; [|done].
  by destruct (page_free _ h) as [[[] h']| |].
Qed.
Lemma free_user_page_wp h pt va :
  pages_wf h → pt_wf (mem h) pt →
  wp (free_user_page pt va) (λ _ h', pt_same h h' pt ∧
    (∀ b, is_alloc h' b ↔ is_alloc h b ∧ ¬ (pte_to_pa <$> pt_lookup (mem h) pt va = Some b)) ∧
    ∀ v, pt_lookup (mem h') pt v =
      if decide (same_vpn va v) then None else pt_lookup (mem h) pt v) h.
Proof.
  intros Hp Hw. unfold wp. rewrite free_user_page_unmap.
  pose proof (unmap_page_wp h pt va true Hp Hw) as H. unfold wp in H.
  destruct (unmap_page pt va true h) as [[[[]|] h']| |]; [|..|done|done].
  - destruct H as (_ & Hs & Hal & Hlk). split; [done|]. split; [|done].
    intros b. rewrite Hal. split; intros [? Hn]; (split; [done|]); [|by intros [_ ?]].
    intros Hb. by apply Hn.
  - destruct H as [Hsl ->]. split; [by apply pt_same_refl|].
    assert (pt_lookup (mem h) pt va = None) as Hlk by (unfold pt_lookup; by rewrite Hsl).
    rewrite Hlk. split.
    + intros b. cbn. split; [done|tauto].
    + intros v. case_decide; [|done]. by rewrite (pt_lookup_same_vpn _ _ va v).
Qed.

(** [for x in l { body }] as a loop whose body cannot fail. *)
Lemma foreach_try {A} (l : list A) (body : A → M unit) h :
  foreach l body h =
    match try_foreach l (λ x, _ ← body x; mret (Ok tt)) h with
    | Done (_, h') => Done (tt, h') | Panic => Panic | Diverge => Diverge
    end.
Proof.
  revert h. induction l as [|x l IH]; intros h; [done|].
  cbn [foreach try_foreach]. unfold try_bind, mbind, st_bind.
  destruct (body x h) as [[[] h']| |]; [apply IH|done..].
Qed.

(** Releasing the pages of a range. *)
Lemma free_range_wp h pt lo n :
  pages_wf h → pt_wf (mem h) pt → page_aligned lo → 0 ≤ n → lo + n * PAGE_SIZE ≤ 2 ^ 39 →
  wp (foreach ((λ k, lo + k * PAGE_SIZE) <$> seqZ 0 n) (free_user_page pt)) (λ _ h',
    pt_same h h' pt ∧
    rewritten_upto (mem h) (mem h') pt lo n (λ _, None) ∧
    ∀ b, is_alloc h' b ↔ is_alloc h b ∧
      ¬ ∃ va, page_range lo (lo + n * PAGE_SIZE) va ∧
          pte_to_pa <$> pt_lookup (mem h) pt va = Some b) h.
Proof.
  intros Hp Hw Hlo Hn Hb.
  pose proof (rewriting_loop_wp pt (λ _, None) (λ v, _ ← free_user_page pt v; mret (Ok tt))
    (λ _ _, False) (λ m v b, pte_to_pa <$> pt_lookup m pt v = Some b)) as H.
  ospecialize (H _ _ h lo n (λ k, lo + k * PAGE_SIZE)
    (λ v, _ ← free_user_page pt v; mret (Ok tt)) Hp Hw Hlo Hn Hb _).
  - intros s va Hp' Hw'. apply wp_bind. eapply wp_mono; [by apply free_user_page_wp|].
    intros _ s' (Hs & Hal & Hlk). apply wp_ret. split; [tauto|]. split; [done|]. split; [done|].
    intros v. rewrite Hlk. case_decide; [|done]. by destruct (pt_lookup (mem s) pt v).
  - intros m m' va _ ->. done.
  - done.
  - unfold wp in *. rewrite foreach_try.
    destruct (try_foreach _ _ h) as [[r h']| |]; [|done..].
    destruct H as (Hs & k & Hk & Hr & _ & Hrw & Hal).
    assert (k = n) as -> by (destruct r; [done|tauto]).
    split; [done|]. split; [done|]. intros b. rewrite Hal.
    destruct Hlo as [Hlo0 Hlom]. unfold page_range, PAGE_SIZE in *.
    split; intros [Ha Hn']; (split; [done|]).
    + intros (va & [Hva Hvm] & Hl). apply Hn'. exists ((va - lo) / 4096).
      pose proof (Z.div_mod (va - lo) 4096). pose proof (Z.mod_pos_bound (va - lo) 4096).
      assert ((va - lo) mod 4096 = 0) as Hm by (rewrite Zminus_mod, Hvm, Hlom; done).
      replace (lo + (va - lo) / 4096 * 4096) with va by lia. split; [lia|done].
    + intros (i & Hi & Hl). apply Hn'. exists (lo + i * 4096). split; [|done].
      split; [lia|]. by rewrite Z.mod_add.
Qed.

(** The same loop over [(lo..hi).step_by(PAGE_SIZE)]. *)
Lemma range_step_pages lo hi :
  page_aligned lo → page_aligned hi →
  range_step lo hi PAGE_SIZE = (λ k, lo + k * PAGE_SIZE) <$> seqZ 0 ((hi - lo) / PAGE_SIZE).
Proof.
  intros [_ Hl] [_ Hh]. unfold range_step. do 2 f_equal. unfold PAGE_SIZE in *.
  assert ((hi - lo) mod 4096 = 0) as Hm by (rewrite Zminus_mod, Hl, Hh; done).
  pose proof (Z.div_mod (hi - lo) 4096).
  symmetry. apply Z.div_unique with 4095; lia.
Qed.

(** [leaves_ok] survives the removal of entries. *)
Lemma leaves_ok_removed m m' pt lo n :
  leaves_ok m pt → rewritten_upto m m' pt lo n (λ _, None) → leaves_ok m' pt.
Proof.
  intros H Hrw va pte Hva Hl. rewrite Hrw in Hl by done. case_decide.
  - by destruct (pt_lookup m pt va).
  - by apply (H va).
Qed.

Lemma page_range_aligned lo hi n :
  page_aligned lo → page_aligned hi → lo ≤ hi → n = (hi - lo) / PAGE_SIZE →
  lo + n * PAGE_SIZE = hi.
Proof.
  intros [_ Hl] [_ Hh] Hle ->. unfold PAGE_SIZE in *.
  assert ((hi - lo) mod 4096 = 0) as Hm by (rewrite Zminus_mod, Hl, Hh; done).
  pose proof (Z.div_mod (hi - lo) 4096). lia.
Qed.
Lemma free_pages_wp h pt lo hi :
  pages_wf h → pt_wf (mem h) pt → page_aligned lo → page_aligned hi → lo ≤ hi → hi ≤ 2 ^ 39 →
  wp (foreach (range_step lo hi PAGE_SIZE) (free_user_page pt)) (λ _ h',
    pt_same h h' pt ∧
    (leaves_ok (mem h) pt → leaves_ok (mem h') pt) ∧
    (∀ v, 0 ≤ v < 2 ^ 39 → pt_lookup (mem h') pt v =
       if decide (lo ≤ v < hi) then None else pt_lookup (mem h) pt v) ∧
    ∀ b, is_alloc h' b ↔ is_alloc h b ∧
      ¬ ∃ va, page_range lo hi va ∧ pte_to_pa <$> pt_lookup (mem h) pt va = Some b) h.
Proof.
  intros Hp Hw Hlo Hhi Hle Hb. rewrite range_step_pages by done.
  set (n := (hi - lo) / PAGE_SIZE).
  assert (0 ≤ n) by (unfold n, PAGE_SIZE; apply Z.div_pos; lia).
  assert (lo + n * PAGE_SIZE = hi) as Hn by (by apply page_range_aligned).
  eapply wp_mono; [apply free_range_wp; (done || lia)|].
  intros _ h' (Hs & Hrw & Hal). rewrite Hn in Hal. split; [done|]. split; [|split; [|done]].
  - intros Hl. by apply (leaves_ok_removed _ _ _ _ _ Hl Hrw).
  - intros v Hv. rewrite Hrw, Hn by done. case_decide; [|done]. by destruct (pt_lookup (mem h) pt v).
Qed.

(** The bounds of the two loops. *)
Lemma layout_ranges t :
  layout_ok t →
  (page_aligned (image_lo t) ∧ page_aligned (image_hi t) ∧ image_lo t ≤ image_hi t ∧
   image_hi t ≤ 2 ^ 39) ∧
  (page_aligned (heap_hi t) ∧ heap_base t ≤ heap_hi t ∧ heap_hi t ≤ 2 ^ 39).
Proof.
  intros [(Hi1 & Hi2 & Hi3) (Hh1 & Hh2) _ _ _ _]. unfold USER_LIMIT, PAGE_SIZE in *.
  destruct Hh1 as [Hh0 Hhm]. split.
  - assert (image_base t +' image_size t +' PAGE_SIZE -' 1 = image_base t + image_size t + 4095) as E.
    { unfold u64, PAGE_SIZE. rewrite (Z.mod_small (image_base t + image_size t)) by lia.
      rewrite (Z.mod_small (_ + 4096)) by lia. rewrite Z.mod_small by lia. lia. }
    unfold image_lo, image_hi. rewrite E.
    destruct (page_down_aligned (image_base t)) as [? ?]; [unfold is_u64; lia|].
    destruct (page_down_aligned (image_base t + image_size t + 4095)) as [? ?]; [unfold is_u64; lia|].
    unfold PAGE_SIZE in *. split_and!; try done; lia.
  - destruct (align_up_spec (heap_end t)) as (w & E & Hw & Hb); [lia|].
    unfold heap_hi. rewrite E. unfold PAGE_SIZE in *. split_and!; try done; lia.
Qed.

(** [free_address_space] releases what belongs to the address space, all of it and
    nothing else, and writes only into its own tables. *)
Lemma free_address_space_wp h t :
  space_ok h t →
  wp (free_address_space t) (λ _ h', pages_wf h' ∧ same_globals h h' ∧
    (∀ a, (∀ b, is_table (mem h) (pagetable t) b → ¬ in_page b a) →
       load64 (mem h') a = load64 (mem h) a) ∧
    ∀ b, is_alloc h' b ↔ is_alloc h b ∧ ¬ space_page (mem h) t b) h.
Proof.
  intros [Hlay [Hp Hw Ho] Hl _ _ _]. destruct (layout_ranges t Hlay) as [(Hia & Hib & Hic & Hid) (Hha & Hhb & Hhc)].
  destruct Hlay as [_ [Hhal _] [Hsa Hsb] _ Hroot _].
  unfold free_address_space, free_user_space. fold (image_lo t) (image_hi t) (heap_hi t).
  apply wp_bind. eapply wp_mono; [apply (free_pages_wp h (pagetable t)); done|].
  intros _ h1 (Hs1 & Hl1 & Hlk1 & Hal1). specialize (Hl1 Hl).
  apply wp_bind. eapply wp_mono.
  { apply (free_pages_wp h1 (pagetable t)); try done; apply Hs1. }
  intros _ h2 (Hs2 & Hl2 & Hlk2 & Hal2). specialize (Hl2 Hl1).
  pose proof (pt_same_trans _ _ _ _ Hs1 Hs2) as Hs.
  apply wp_bind. eapply wp_mono with (Q1 := λ _ h3, pages_wf h3 ∧ mem h3 = mem h2 ∧
    same_globals h2 h3 ∧ ∀ b, is_alloc h3 b ↔ is_alloc h2 b ∧ ¬ (user_stack t ≠ 0 ∧ b = user_stack t)).
  { destruct (Z.eqb_spec (user_stack t) 0) as [E|E]; cbn [negb].
    - apply wp_ret. split_and!; try done; [apply Hs|]. intros b. split; [|tauto].
      intros. split; [done|]. by intros [? _].
    - eapply wp_mono; [apply page_free_addr_wp; [apply Hs|done|done]|].
      intros _ h3 (? & ? & ? & Hal3). split_and!; try done. intros b. rewrite Hal3. tauto. }
  intros _ h3 (Hp3 & Hm3 & Hg3 & Hal3). eapply wp_mono.
  { apply pgtable_free_wp; [exact Hp3|apply Hw|exact Hroot|rewrite Hm3; exact Hl2]. }
  intros _ h4 (Hp4 & Hm4 & Hg4 & Hal4). split; [exact Hp4|]. split.
  { eapply same_globals_trans; [apply Hs|]. by eapply same_globals_trans. }
  split.
  { intros a Ha. rewrite Hm4, Hm3. by apply (same_frame _ _ _ Hs). }
  intros b. rewrite Hal4, Hm3, (pt_same_table _ _ _ _ Hs), Hal3, Hal2, Hal1.
  assert ((¬ (∃ va, page_range (image_lo t) (image_hi t) va ∧
                pte_to_pa <$> pt_lookup (mem h) (pagetable t) va = Some b) ∧
           ¬ (∃ va, page_range (heap_base t) (heap_hi t) va ∧
                pte_to_pa <$> pt_lookup (mem h1) (pagetable t) va = Some b)) ↔
          ¬ data_page (mem h) t b) as Hdata.
  { destruct Hhal as [Hh0 _]. destruct Hia as [Hi0 _]. unfold data_page, user_page. split.
    - intros [H1 H2] (va & [Hr|Hr] & Hva); [by apply H1; exists va|].
      destruct (decide (image_lo t ≤ va < image_hi t)).
      + apply H1. exists va. split; [|done]. split; [done|]. apply Hr.
      + apply H2. exists va. split; [done|]. destruct Hr as [? _].
        rewrite Hlk1 by lia. by rewrite decide_False.
    - intros Hn. split; intros (va & Hr & Hva); apply Hn; exists va; [by split; [left|]|].
      split; [by right|]. destruct Hr as [? _]. rewrite Hlk1 in Hva by lia.
      by case_decide. }
  unfold space_page. tauto.
Qed.
Lemma free_task_wp h t :
  space_ok h t →
  wp (free_task t) (λ _ h', pages_wf h' ∧ same_globals h h' ∧
    (∀ a, (∀ b, is_table (mem h) (pagetable t) b → ¬ in_page b a) →
       load64 (mem h') a = load64 (mem h) a) ∧
    ∀ b, is_alloc h' b ↔ is_alloc h b ∧ ¬ owns (mem h) t b) h.
Proof.
  intros Hok. unfold free_task. apply wp_bind.
  eapply wp_mono; [by apply free_address_space_wp|].
  intros _ h1 (Hp1 & Hg1 & Hf1 & Hal1).
  destruct (lay_kstack _ (space_layout _ _ Hok)) as [Hka Hkb].
  eapply wp_mono; [by apply page_free_addr_wp|].
  intros _ h2 (Hp2 & Hm2 & Hg2 & Hal2). split; [done|]. split; [by eapply same_globals_trans|].
  split; [intros a Ha; rewrite Hm2; by apply Hf1|].
  intros b. rewrite Hal2, Hal1. unfold owns. tauto.
Qed.
End release.

(** ** The memory invariant of the process manager *)

Record spaces_ok (h : mach) (ts : list (option Task)) : Prop := {
  spaces_pages : pages_wf h;
  spaces_task i t : ts !! i = Some (Some t) → space_ok h t;
  spaces_alloc i t b : ts !! i = Some (Some t) → owns (mem h) t b → is_alloc h b;
  spaces_disjoint i j t t' b :
    ts !! i = Some (Some t) → ts !! j = Some (Some t') →
    owns (mem h) t b → owns (mem h) t' b → i = j;
  (** User data is not in the kernel stack. *)
  spaces_apart i t va :
    ts !! i = Some (Some t) → user_va t va → ¬ maps (mem h) t va (kernel_stack t);
}.

Section invariant.
Implicit Types (h : mach) (m : memory) (t : Task) (ts : list (option Task)).

(** The memory of [t]'s tables is untouched. *)
Definition tables_same h h' t : Prop :=
  ∀ b a, is_table (mem h) (pagetable t) b → in_page b a → load64 (mem h') a = load64 (mem h) a.

Lemma space_page_frame h h' t b :
  tables_same h h' t → space_page (mem h') t b ↔ space_page (mem h) t b.
Proof.
  intros H. unfold space_page, data_page. rewrite (is_table_frame (mem h) (mem h')) by done.
  assert (∀ va, pt_lookup (mem h') (pagetable t) va = pt_lookup (mem h) (pagetable t) va) as Hl
    by (intros; by apply pt_lookup_frame).
  assert ((∃ va, user_page t va ∧ pte_to_pa <$> pt_lookup (mem h') (pagetable t) va = Some b) ↔
          ∃ va, user_page t va ∧ pte_to_pa <$> pt_lookup (mem h) (pagetable t) va = Some b) as ->.
  { split; intros (va & ? & ?); exists va; (split; [done|]); [by rewrite <- Hl|by rewrite Hl]. }
  done.
Qed.
Lemma owns_frame h h' t b :
  tables_same h h' t → owns (mem h') t b ↔ owns (mem h) t b.
Proof. intros H. unfold owns. by rewrite (space_page_frame h h' t). Qed.
(** A page a task can use is one it owns. *)
Lemma user_va_space m t va b :
  user_ok m t → user_va t va → maps m t va b → space_page m t b.
Proof.
  intros Hu [Hva|[Hs ->]] Hb; right.
  - left. by exists va.
  - right. split; [done|]. pose proof (user_stack_mapped _ _ Hu Hs) as Hm. unfold maps in *. congruence.
Qed.
Lemma user_va_owned m t va b : user_ok m t → user_va t va → maps m t va b → owns m t b.
Proof. intros Hu Hva Hb. left. by apply (user_va_space m t va b). Qed.
Lemma user_ok_frame h h' t : tables_same h h' t → user_ok (mem h) t → user_ok (mem h') t.
Proof.
  intros H Hu.
  assert (∀ va, pt_lookup (mem h') (pagetable t) va = pt_lookup (mem h) (pagetable t) va) as Hl
    by (intros; by apply pt_lookup_frame).
  destruct Hu as [Hs Hi Ha Ho]. split; unfold maps in *.
  - rewrite Hl. apply Hs.
  - intros va va' b. rewrite !Hl. apply Hi.
  - intros va b. rewrite Hl, (is_table_frame (mem h) (mem h')) by done. apply Ha.
  - intros va pte. rewrite Hl. apply Ho.
Qed.
Lemma space_ok_frame h h' t :
  tables_same h h' t → pages_wf h' →
  (∀ b, is_table (mem h) (pagetable t) b → is_alloc h' b) →
  space_ok h t → space_ok h' t.
Proof.
  intros H Hp Hal [Hlay [_ Hw _] Hl Hk Hu Hkm]. split; [done|split; [done|..]|..].
  - by apply (pt_wf_frame (mem h)).
  - intros a Ha. apply Hal. by apply (is_table_frame (mem h) (mem h')).
  - intros va pte Hva. rewrite (pt_lookup_frame (mem h)) by done. by apply Hl.
  - by rewrite (is_table_frame (mem h) (mem h')).
  - by apply (user_ok_frame h).
  - intros v Hv Hkv. rewrite (pt_lookup_frame (mem h)) by done. by apply Hkm.
Qed.
Lemma maps_frame h h' t va b : tables_same h h' t → maps (mem h') t va b ↔ maps (mem h) t va b.
Proof. intros H. unfold maps. by rewrite (pt_lookup_frame (mem h)). Qed.

(** Two pages that are not the same do not overlap. *)
Lemma pages_apart b b' a :
  page_aligned b → page_aligned b' → in_page b a → in_page b' a → b = b'.
Proof.
  intros Hb Hb' H H'. destruct (decide (b = b')); [done|].
  pose proof (page_aligned_ne b b' Hb Hb'). unfold in_page in *. lia.
Qed.
Lemma owns_aligned h ts i t b :
  spaces_ok h ts → ts !! i = Some (Some t) → owns (mem h) t b → page_aligned b.
Proof.
  intros H Ht Hb. eapply is_alloc_aligned; [apply H|]. by eapply (spaces_alloc _ _ H).
Qed.

(** The kernel stack is not part of the address space. *)
Lemma kstack_no_space h t :
  space_ok h t → (∀ va, user_va t va → ¬ maps (mem h) t va (kernel_stack t)) →
  ¬ space_page (mem h) t (kernel_stack t).
Proof.
  intros Hok Hap. pose proof (space_user _ _ Hok) as Hu. intros [Hb|[(va & Hva & Hm)|[Hs E]]].
  - by apply (space_kstack _ _ Hok).
  - apply (Hap va); [by left|done].
  - apply (Hap STACK_VA); [by right|]. rewrite E. by apply Hu.
Qed.
Lemma kstack_no_space_page h ts i t :
  spaces_ok h ts → ts !! i = Some (Some t) → ¬ space_page (mem h) t (kernel_stack t).
Proof.
  intros H Ht. apply kstack_no_space; [by apply (spaces_task _ _ H i)|]. intros va. by apply (spaces_apart _ _ H i).
Qed.
(** A write that touches no task's tables. *)
Lemma spaces_ok_mem h h' ts :
  PAGE_ALLOCATOR h' = PAGE_ALLOCATOR h →
  (∀ i t, ts !! i = Some (Some t) → tables_same h h' t) →
  spaces_ok h ts → spaces_ok h' ts.
Proof.
  intros Hpa Hts [Hp Ht Ha Hd Hx].
  assert (∀ b, is_alloc h' b ↔ is_alloc h b) as Hal by (intros b; unfold is_alloc; by rewrite Hpa).
  assert (pages_wf h') as Hp' by (unfold pages_wf; by rewrite Hpa).
  split; [done|..].
  - intros i t E. apply (space_ok_frame h); [by eapply Hts|done| |by eapply Ht].
    intros b Hb. apply Hal, (Ha i t); [done|left; by left].
  - intros i t b E. rewrite (owns_frame h h' t) by by eapply Hts. rewrite Hal. by apply (Ha i).
  - intros i j t t' b E E'. rewrite (owns_frame h h' t) by by eapply Hts.
    rewrite (owns_frame h h' t') by by eapply Hts. by apply Hd.
  - intros i t va E. rewrite (maps_frame h h' t) by by eapply Hts. by apply (Hx i).
Qed.

(** Writing inside the kernel stack of a task. *)
Lemma kernel_stack_tables h h' ts i t :
  spaces_ok h ts → ts !! i = Some (Some t) →
  (∀ a, ¬ in_page (kernel_stack t) a → load64 (mem h') a = load64 (mem h) a) →
  ∀ j t', ts !! j = Some (Some t') → tables_same h h' t'.
Proof.
  intros H Ht Hout j t' Ht' b a Hb Ha. apply Hout. intros Hin.
  assert (owns (mem h) t' b) as Ho by (left; by left).
  assert (owns (mem h) t (kernel_stack t)) as Hk by by right.
  assert (b = kernel_stack t) as ->.
  { apply (pages_apart _ _ a); [by apply (owns_aligned h ts j t')|by apply (owns_aligned h ts i t)|done..]. }
  assert (j = i) as -> by by apply (spaces_disjoint _ _ H j i t' t (kernel_stack t)).
  rewrite Ht in Ht'. injection Ht' as <-. by apply (space_kstack _ _ (spaces_task _ _ H i t Ht)).
Qed.
Lemma spaces_ok_stack_write h ts i t f :
  spaces_ok h ts → ts !! i = Some (Some t) →
  (∀ m a, ¬ in_page (kernel_stack t) a → load64 (f m) a = load64 m a) →
  spaces_ok (set_mem f h) ts.
Proof.
  intros H Ht Hout. apply (spaces_ok_mem h); [done| |done].
  apply (kernel_stack_tables h _ ts i t); [done|done|]. intros a. apply Hout.
Qed.

(** Updates of the fields that do not describe the address space. *)
Definition same_space t t' : Prop :=
  trap_frame t' = trap_frame t ∧ kernel_stack t' = kernel_stack t ∧
  user_stack t' = user_stack t ∧ pagetable t' = pagetable t ∧
  image_base t' = image_base t ∧ image_size t' = image_size t ∧
  heap_base t' = heap_base t ∧ heap_end t' = heap_end t.
Lemma same_space_owns m t t' b : same_space t t' → owns m t' b ↔ owns m t b.
Proof.
  intros (H1 & H2 & H3 & H4 & H5 & H6 & H7 & H8).
  unfold owns, space_page, data_page, user_page, image_lo, image_hi, heap_hi.
  by rewrite H2, H3, H4, H5, H6, H7, H8.
Qed.
(** The fields that describe what user code sees. *)
Definition same_user t t' : Prop :=
  user_stack t' = user_stack t ∧ pagetable t' = pagetable t ∧
  image_base t' = image_base t ∧ image_size t' = image_size t ∧
  heap_base t' = heap_base t ∧ heap_end t' = heap_end t.
Lemma same_space_same_user t t' : same_space t t' → same_user t t'.
Proof. by intros (_ & _ & H). Qed.
Lemma same_user_va t t' va : same_user t t' → user_va t' va ↔ user_va t va.
Proof.
  intros (H3 & H4 & H5 & H6 & H7 & H8).
  unfold user_va, user_page, image_lo, image_hi, heap_hi. by rewrite H3, H5, H6, H7, H8.
Qed.
Lemma same_user_maps m t t' va b : same_user t t' → maps m t' va b ↔ maps m t va b.
Proof. intros (_ & H & _). unfold maps. by rewrite H. Qed.
Lemma same_user_ok m t t' : same_user t t' → user_ok m t → user_ok m t'.
Proof.
  intros H [Hs Hi Ha Ho]. pose proof (λ va, same_user_va t t' va H) as Hv.
  pose proof (λ va b, same_user_maps m t t' va b H) as Hm.
  destruct H as (H3 & H4 & _). split; intros *; rewrite ?Hv, ?Hm, ?H3, ?H4;
    [apply Hs|apply Hi|apply Ha|apply Ho].
Qed.
Lemma same_space_ok h t t' : same_space t t' → space_ok h t → space_ok h t'.
Proof.
  intros H [Hlay ? ? ? Hu ?]. pose proof (same_user_ok (mem h) t t' (same_space_same_user t t' H) Hu) as Hu'.
  destruct H as (H1 & H2 & H3 & H4 & H5 & H6 & H7 & H8). destruct Hlay.
  split; rewrite ?H2, ?H4; try done. split; rewrite ?H1, ?H2, ?H3, ?H4, ?H5, ?H6, ?H7, ?H8; done.
Qed.
(** Slot by slot, at most such fields changed. *)
Definition same_slots ts ts' : Prop :=
  ∀ i t', ts' !! i = Some (Some t') → ∃ t, ts !! i = Some (Some t) ∧ same_space t t'.
Lemma same_slots_refl ts : same_slots ts ts.
Proof. intros i t H. exists t. done. Qed.
Lemma same_slots_trans ts1 ts2 ts3 : same_slots ts1 ts2 → same_slots ts2 ts3 → same_slots ts1 ts3.
Proof.
  intros H1 H2 i t3 E3. destruct (H2 i t3 E3) as (t2 & E2 & S2).
  destruct (H1 i t2 E2) as (t1 & E1 & S1). exists t1. split; [done|].
  unfold same_space in *. intuition congruence.
Qed.
Lemma same_slots_alter ts i f :
  (∀ t, same_space t (f t)) → same_slots ts (alter (fmap f) i ts).
Proof.
  intros Hf j t' E. destruct (decide (j = i)) as [->|Hne].
  - rewrite list_lookup_alter_eq in E. destruct (ts !! i) as [[t|]|] eqn:Et; simplify_eq/=.
    exists t. split; [done|]. apply Hf.
  - rewrite list_lookup_alter_ne in E by done. exists t'. done.
Qed.
Lemma spaces_ok_slots h ts ts' : same_slots ts ts' → spaces_ok h ts → spaces_ok h ts'.
Proof.
  intros Hs [Hp Ht Ha Hd Hx]. split; [done|..].
  - intros i t' (t & E & S)%Hs. apply (same_space_ok _ t); [done|by apply (Ht i)].
  - intros i t' b (t & E & S)%Hs. rewrite (same_space_owns _ t) by done. by apply (Ha i).
  - intros i j t1' t2' b (t1 & E1 & S1)%Hs (t2 & E2 & S2)%Hs.
    rewrite (same_space_owns _ t1 t1'), (same_space_owns _ t2 t2') by done. by apply Hd.
  - intros i t' va (t & E & S)%Hs. pose proof (same_space_same_user t t' S) as S'.
    rewrite (same_user_va t t'), (same_user_maps _ t t') by done. pose proof S as (_ & -> & _). by apply (Hx i).
Qed.

(** Task [t]'s pages are as before. *)
Definition kept h h' t : Prop :=
  ∀ b a, owns (mem h) t b → in_page b a → load64 (mem h') a = load64 (mem h) a.
Lemma kept_tables h h' t : kept h h' t → tables_same h h' t.
Proof. intros H b a Hb. apply H. left. by left. Qed.
Lemma kept_refl h t : kept h h t.
Proof. by intros ???. Qed.
Lemma kept_trans h1 h2 h3 t : kept h1 h2 t → kept h2 h3 t → kept h1 h3 t.
Proof.
  intros H1 H2 b a Hb Ha. rewrite (H2 b a); [by apply (H1 b)| |done].
  apply (owns_frame h1 h2); [by apply kept_tables|done].
Qed.

(** [free_task] on one task leaves the others' spaces as they were. *)
Lemma free_slot_wp h ts i t :
  spaces_ok h ts → ts !! i = Some (Some t) →
  wp (free_task t) (λ _ h', spaces_ok h' (<[i := None]> ts) ∧ same_globals h h' ∧
    (∀ j t', j ≠ i → ts !! j = Some (Some t') → kept h h' t') ∧
    ∀ b, is_alloc h' b ↔ is_alloc h b ∧ ¬ owns (mem h) t b) h.
Proof.
  intros H Ht. eapply wp_mono; [apply free_task_wp; by apply (spaces_task _ _ H i)|].
  intros _ h' (Hp & Hg & Hf & Hal).
  assert (∀ j t' b a, j ≠ i → ts !! j = Some (Some t') → owns (mem h) t' b → in_page b a →
    load64 (mem h') a = load64 (mem h) a) as Hown.
  { intros j t' b a Hj Ht' Hb Hin. apply Hf. intros b' Hb' Hin'.
    assert (owns (mem h) t b') as Ho by (left; by left).
    assert (b = b') as <-.
    { apply (pages_apart _ _ a); [by apply (owns_aligned h ts j t')|by apply (owns_aligned h ts i t)|done..]. }
    apply Hj. by apply (spaces_disjoint _ _ H j i t' t b). }
  assert (∀ j t', j ≠ i → ts !! j = Some (Some t') → tables_same h h' t') as Hts.
  { intros j t' Hj Ht' b a Hb Hin. apply (Hown j t' b a Hj Ht'); [left; by left|done]. }
  split; [|split; [done|split; [|done]]].
  - assert (∀ j t', <[i:=None]> ts !! j = Some (Some t') → j ≠ i ∧ ts !! j = Some (Some t')) as Hj.
    { intros j t' E. destruct (decide (j = i)) as [->|Hne].
      - rewrite list_lookup_insert_eq in E by by eapply lookup_lt_Some. done.
      - by rewrite list_lookup_insert_ne in E. }
    split; [done|..].
    + intros j t' [Hne E]%Hj. apply (space_ok_frame h); [by eapply Hts|done| |by eapply spaces_task].
      intros b Hb. apply Hal. split; [eapply (spaces_alloc _ _ H); [done|left; by left]|].
      intros Ho. apply Hne. apply (spaces_disjoint _ _ H j i t' t b); try done. left. by left.
    + intros j t' b [Hne E]%Hj Hb. rewrite (owns_frame h h' t') in Hb by by apply (Hts j t').
      apply Hal. split; [by eapply (spaces_alloc _ _ H)|].
      intros Ho. apply Hne. by apply (spaces_disjoint _ _ H j i t' t b).
    + intros j k t1 t2 b [Hne1 E1]%Hj [Hne2 E2]%Hj Hb1 Hb2.
      rewrite (owns_frame h h' t1) in Hb1 by by apply (Hts j t1).
      rewrite (owns_frame h h' t2) in Hb2 by by apply (Hts k t2).
      by apply (spaces_disjoint _ _ H j k t1 t2 b).
    + intros j t' va [Hne E]%Hj Hva. rewrite (maps_frame h h' t') by by apply (Hts j t').
      by apply (spaces_apart _ _ H j).
  - intros j t' Hj Ht' b a. by apply (Hown j t' b a).
Qed.
End invariant.

(** ** A change of one task's space *)

(** Task [t] becomes [t']: the pages of the others stay theirs, untouched, and what [t']
    owns was [t]'s or free. *)
Record space_step (h h' : mach) (t t' : Task) : Prop := {
  step_globals : same_globals h h';
  step_space : space_ok h' t';
  step_alloc b : is_alloc h b → ¬ owns (mem h) t b → is_alloc h' b;
  step_mem b a : is_alloc h b → ¬ owns (mem h) t b → in_page b a →
    load64 (mem h') a = load64 (mem h) a;
  step_owns b : owns (mem h') t' b → is_alloc h' b ∧ (owns (mem h) t b ∨ ¬ is_alloc h b);
  step_apart va : user_va t' va → ¬ maps (mem h') t' va (kernel_stack t');
}.

Section steps.
Implicit Types (h : mach) (t : Task) (ts : list (option Task)).

Lemma step_kept h h' ts i t t' j u :
  space_step h h' t t' → spaces_ok h ts → ts !! i = Some (Some t) → j ≠ i →
  ts !! j = Some (Some u) →
  (∀ b, owns (mem h) u b → is_alloc h b ∧ ¬ owns (mem h) t b) ∧
  tables_same h h' u ∧ ∀ b, owns (mem h') u b ↔ owns (mem h) u b.
Proof.
  intros Hst H Ht Hne Hu.
  assert (∀ b, owns (mem h) u b → is_alloc h b ∧ ¬ owns (mem h) t b) as Ho.
  { intros b Hb. split; [by apply (spaces_alloc _ _ H j u)|]. intros Hb'. apply Hne.
    by apply (spaces_disjoint _ _ H j i u t b). }
  assert (tables_same h h' u) as Hts.
  { intros b a Hb. destruct (Ho b) as [??]; [left; by left|]. by apply (step_mem _ _ _ _ Hst). }
  split; [done|]. split; [done|]. intros b. by apply owns_frame.
Qed.
Lemma spaces_ok_step h h' ts i t t' :
  space_step h h' t t' → spaces_ok h ts → ts !! i = Some (Some t) → spaces_ok h' (<[i := Some t']> ts).
Proof.
  intros Hst H Ht.
  pose proof (λ j u, step_kept h h' ts i t t' j u Hst H Ht) as Hk.
  assert (∀ j u, <[i:=Some t']> ts !! j = Some (Some u) →
    (j = i ∧ u = t') ∨ (j ≠ i ∧ ts !! j = Some (Some u))) as Hj.
  { intros j u E. destruct (decide (j = i)) as [->|Hne].
    - rewrite list_lookup_insert_eq in E by by eapply lookup_lt_Some. left. by injection E as ->.
    - rewrite list_lookup_insert_ne in E by done. by right. }
  assert (∀ j u b, j ≠ i → ts !! j = Some (Some u) → owns (mem h') u b → owns (mem h') t' b → False) as Hx.
  { intros j u b Hne Hu Hb Hb'. destruct (Hk j u Hne Hu) as (Ho & _ & Hf).
    destruct (Ho b) as [Ha Hn]; [by apply Hf|]. by destruct (step_owns _ _ _ _ Hst b Hb') as [_ [?|?]]. }
  split.
  - apply (ready_pages _ _ (space_ready _ _ (step_space _ _ _ _ Hst))).
  - intros j u [[-> ->]|[Hne E]]%Hj; [apply Hst|]. destruct (Hk j u Hne E) as (Ho & Hts & _).
    apply (space_ok_frame h); [done|apply (ready_pages _ _ (space_ready _ _ (step_space _ _ _ _ Hst)))| |].
    + intros b Hb. destruct (Ho b) as [??]; [left; by left|]. by apply (step_alloc _ _ _ _ Hst).
    + by apply (spaces_task _ _ H j).
  - intros j u b [[-> ->]|[Hne E]]%Hj Hb; [by apply (step_owns _ _ _ _ Hst)|].
    destruct (Hk j u Hne E) as (Ho & _ & Hf). destruct (Ho b) as [??]; [by apply Hf|].
    by apply (step_alloc _ _ _ _ Hst).
  - intros j k u v b [[-> ->]|[Hne E]]%Hj [[-> ->]|[Hne' E']]%Hj Hb Hb'; [done| | |].
    + by destruct (Hx k v b).
    + by destruct (Hx j u b).
    + destruct (Hk j u Hne E) as (_ & _ & Hf), (Hk k v Hne' E') as (_ & _ & Hf').
      apply (spaces_disjoint _ _ H j k u v b); [done|done|by apply Hf|by apply Hf'].
  - intros j u va [[-> ->]|[Hne E]]%Hj Hva; [by apply (step_apart _ _ _ _ Hst)|].
    destruct (Hk j u Hne E) as (_ & Hts & _). rewrite (maps_frame h h' u) by done.
    by apply (spaces_apart _ _ H j).
Qed.
End steps.

(** ** Reaping *)

Definition reap1 (cur : option Z) (slot : option Task) : option Task :=
  if detached cur slot then None else slot.

Section reaping.
Implicit Types (h : mach) (t : Task) (ts : list (option Task)) (s : tsys).

(** The slots after the first [k] were visited. *)
Definition reaped_upto (cur : option Z) k ts : list (option Task) :=
  (reap1 cur <$> take k ts) ++ drop k ts.
Lemma lookup_reaped_upto cur k ts i :
  reaped_upto cur k ts !! i =
    (λ slot, if decide (i < k)%nat then reap1 cur slot else slot) <$> ts !! i.
Proof.
  unfold reaped_upto. destruct (decide (k ≤ length ts)%nat) as [Hk|Hk].
  - destruct (decide (i < k)%nat).
    + rewrite lookup_app_l by (rewrite length_fmap, length_take; lia).
      rewrite list_lookup_fmap, lookup_take_lt by done. done.
    + rewrite lookup_app_r by (rewrite length_fmap, length_take; lia).
      rewrite length_fmap, length_take, Nat.min_l by lia. rewrite lookup_drop.
      replace (k + (i - k))%nat with i by lia. by destruct (ts !! i).
  - rewrite take_ge, drop_ge, app_nil_r, list_lookup_fmap by lia.
    destruct (ts !! i) as [slot|] eqn:E; [|done]. cbn [fmap option_fmap option_map].
    apply lookup_lt_Some in E. by rewrite decide_True by lia.
Qed.
Lemma reaped_upto_step cur k ts slot :
  ts !! k = Some slot → reaped_upto cur (S k) ts = <[k := reap1 cur slot]> (reaped_upto cur k ts).
Proof.
  intros Hk. apply list_eq. intros i. rewrite lookup_reaped_upto.
  assert (k < length (reaped_upto cur k ts))%nat as Hlen.
  { apply lookup_lt_is_Some. rewrite lookup_reaped_upto, Hk. by eexists. }
  destruct (decide (i = k)) as [->|Hne].
  - rewrite list_lookup_insert_eq by done. rewrite Hk. cbn. by rewrite decide_True by lia.
  - rewrite list_lookup_insert_ne by done. rewrite lookup_reaped_upto.
    destruct (ts !! i); [|done]. cbn. f_equal.
    destruct (decide (i < S k)%nat), (decide (i < k)%nat); (done || lia).
Qed.
Lemma reaped_all cur ts k : (length ts ≤ k)%nat → reaped_upto cur k ts = reap1 cur <$> ts.
Proof. intros H. unfold reaped_upto. by rewrite take_ge, drop_ge, app_nil_r by lia. Qed.

Lemma set_tasks_id s ts : ts = tasks (self s) → mkTsys (set_tasks (λ _, ts) (self s)) (hw s) = s.
Proof. intros ->. by destruct s as [[] ?]. Qed.

Record reap_inv s k s' : Prop := {
  reap_self : self s' = set_tasks (λ ts, reaped_upto (current_pid (self s)) k ts) (self s);
  reap_spaces : spaces_ok (hw s') (tasks (self s'));
  reap_glob : same_globals (hw s) (hw s');
  reap_kept i t : tasks (self s) !! i = Some (Some t) →
    (k ≤ i)%nat ∨ detached (current_pid (self s)) (Some t) = false → kept (hw s) (hw s') t;
  reap_alloc b : is_alloc (hw s') b ↔ is_alloc (hw s) b ∧
    ¬ ∃ i t, (i < k)%nat ∧ tasks (self s) !! i = Some (Some t) ∧
        detached (current_pid (self s)) (Some t) = true ∧ owns (mem (hw s)) t b;
}.

Lemma reap_inv_0 s : spaces_ok (hw s) (tasks (self s)) → reap_inv s 0 s.
Proof.
  intros H. split; [by destruct s as [[] ?]|done|done| |].
  - intros. apply kept_refl.
  - intros b. split; [|tauto]. intros Hb. split; [done|]. intros (i & t & Hi & _). lia.
Qed.

Lemma reap_inv_step s k s' :
  (k < length (tasks (self s)))%nat → reap_inv s k s' →
  wp (slot ← get_self (λ m, mjoin (tasks m !! k));
      if detached (current_pid (self s)) slot then
        t ← unwrap slot; _ ← put_task k None; on_hw (free_task t)
      else mret tt) (λ _ s'', reap_inv s (S k) s'') s'.
Proof.
  intros Hk [Hs Hsp Hg Hkept Hal]. set (cur := current_pid (self s)) in *.
  set (ts := tasks (self s)) in *.
  apply lookup_lt_is_Some in Hk as [slot Hslot].
  assert (tasks (self s') = reaped_upto cur k ts) as Hts by (by rewrite Hs).
  assert (tasks (self s') !! k = Some slot) as Hk'.
  { rewrite Hts, lookup_reaped_upto, Hslot. cbn. by rewrite decide_False by lia. }
  apply wp_bind, wp_get_self. rewrite Hk'. cbn [mjoin option_join].
  destruct (detached cur slot) eqn:Ed.
  - destruct slot as [t|]; [|done]. apply wp_bind, wp_unwrap with t; [done|].
    apply wp_bind, wp_put_task; [by eapply lookup_lt_Some|]. apply wp_on_hw. cbn [self hw].
    eapply wp_mono; [by apply (free_slot_wp (hw s') (tasks (self s')) k t)|].
    intros _ h (Hsp' & Hg' & Hkept' & Hal'). split; cbn [self hw].
    + rewrite Hs. unfold set_tasks at 1. cbn. unfold set_tasks. f_equal. fold ts cur.
      rewrite (reaped_upto_step _ _ _ (Some t)) by done. unfold reap1. by rewrite Ed.
    + exact Hsp'.
    + by eapply same_globals_trans.
    + intros i t' Ht' Hor.
      assert (i ≠ k) as Hne.
      { intros ->. fold ts in Ht'. rewrite Hslot in Ht'. injection Ht' as <-.
        destruct Hor as [?|Hd]; [lia|]. fold cur in Hd. congruence. }
      eapply kept_trans; [apply (Hkept i t'); [done|]|].
      { destruct Hor; [left; lia|by right]. }
      apply (Hkept' i t' Hne). rewrite Hts, lookup_reaped_upto. fold ts in Ht'. rewrite Ht'.
      cbn. case_decide; [|done]. destruct Hor as [?|Hd]; [lia|]. fold cur in Hd. unfold reap1. by rewrite Hd.
    + intros b. rewrite Hal', Hal.
      rewrite (owns_frame (hw s) (hw s') t) by (apply kept_tables, (Hkept k t); [done|left; lia]).
      split.
      * intros [[Ha H1] H2]. split; [done|]. intros (i & t' & Hi & Ht' & Hd & Ho).
        destruct (decide (i = k)) as [->|].
        { fold ts in Ht'. rewrite Hslot in Ht'. by injection Ht' as <-. }
        apply H1. exists i, t'. split; [lia|done].
      * intros [Ha H1]. split; [split; [done|]|].
        { intros (i & t' & Hi & Ht'). apply H1. exists i, t'. split; [lia|done]. }
        intros Ho. apply H1. exists k, t. split; [lia|done].
  - apply wp_ret. split.
    + rewrite Hs. unfold set_tasks. f_equal. fold ts cur. rewrite (reaped_upto_step _ _ _ slot) by done.
      unfold reap1. rewrite Ed. rewrite list_insert_id; [done|]. by rewrite <- Hts.
    + done.
    + done.
    + intros i t' Ht' Hor. apply (Hkept i t'); [done|].
      destruct Hor; [left; lia|by right].
    + intros b. rewrite Hal. split; intros [Ha H1]; (split; [done|]);
        intros (i & t' & Hi & Ht' & Hd & Ho); fold cur in Hd.
      * destruct (decide (i = k)) as [->|].
        { fold ts in Ht'. rewrite Hslot in Ht'. injection Ht' as ->. congruence. }
        apply H1. exists i, t'. split; [lia|done].
      * apply H1. exists i, t'. split; [lia|done].
Qed.

(** Reaping terminates, empties exactly the slots of detached zombies, releases
    exactly their pages, and leaves every other task's space and kernel stack alone. *)
Lemma reap_wp s :
  spaces_ok (hw s) (tasks (self s)) → length (tasks (self s)) = Z.to_nat MAX_TASKS →
  wp reap_detached_zombies (λ _ s', reap_inv s (Z.to_nat MAX_TASKS) s') s.
Proof.
  intros Hsp Hlen. unfold reap_detached_zombies. apply wp_bind, wp_get_self.
  apply wp_foreach with (I := λ dn s', dn = seq 0 (length dn) ∧ reap_inv s (length dn) s').
  - split; [done|]. by apply reap_inv_0.
  - intros dn x rest s' Hl [Hdn Hinv].
    assert (x = length dn ∧ (length dn < Z.to_nat MAX_TASKS)%nat) as [-> Hlt].
    { assert (seq 0 (Z.to_nat MAX_TASKS) !! length dn = Some x) as E
        by (by rewrite Hl, list_lookup_middle).
      apply lookup_seq in E. lia. }
    eapply wp_mono; [apply reap_inv_step; [lia|done]|].
    intros [] s'' Hinv'. rewrite length_app. cbn [length]. rewrite Nat.add_1_r. split; [|done].
    rewrite seq_S, <- Hdn. done.
  - intros s' [_ Hinv]. by rewrite length_seq in Hinv.
Qed.
End reaping.
