(* ===== verification/Sched.v ===== *)
(** The scheduler of [Task.v]: round-robin selection, context saving, and progress.

    [rr_pick] is the abstract policy: the first runnable slot, cyclically, after the
    current one.  [schedule] and [exit_next] are shown to follow it, with the idle
    task only when nothing else can run. *)

From S2P Require Import Prelude Arch Page Memory Machine Pgtable Vm Trap Ipc Task Space.

Definition NTASKS : nat := Z.to_nat MAX_TASKS.

(** The slots in the order they are tried from [start]. *)
Definition rr_order (start : nat) : list nat :=
  (λ offset, ((start + offset) mod NTASKS)%nat) <$> seq 0 NTASKS.
Definition slot_runnable (ts : list (option Task)) (i : nat) : bool := runnable (mjoin (ts !! i)).
Definition rr_pick (ts : list (option Task)) (start : nat) : option nat :=
  k ← position (slot_runnable ts) (rr_order start); rr_order start !! k.

(** Where the search starts for the current slot. *)
Definition rr_start (cur : option nat) : nat :=
  match cur with None => 0%nat | Some i => ((i + 1) mod NTASKS)%nat end.

(** The state after the task [t] at [i] was dispatched. *)
Definition dispatched (i : nat) (t : Task) (m : TaskManager) : TaskManager :=
  set_current_pid (Some (pid t)) (set_tasks (alter (fmap (set_state Running)) i) m).

(** The task that runs next: the round-robin choice, else the idle task. *)
Definition next_slot (ts : list (option Task)) (start : nat) : option nat :=
  match rr_pick ts start with
  | Some i => Some i
  | None => task_index ts IDLE_PID
  end.

Section selection.
Implicit Types (s : tsys) (ts : list (option Task)).

Lemma rr_order_lookup start k : (k < NTASKS)%nat →
  rr_order start !! k = Some ((start + k) mod NTASKS)%nat.
Proof. intros H. unfold rr_order. rewrite list_lookup_fmap, lookup_seq_lt by done. done. Qed.
Lemma length_rr_order start : length (rr_order start) = NTASKS.
Proof. unfold rr_order. by rewrite length_fmap, length_seq. Qed.

(** The choice is a runnable slot, and no slot tried before it is runnable. *)
Lemma rr_pick_Some ts start i :
  rr_pick ts start = Some i →
  slot_runnable ts i = true ∧
  ∃ k, (k < NTASKS)%nat ∧ i = ((start + k) mod NTASKS)%nat ∧
    ∀ j, (j < k)%nat → slot_runnable ts ((start + j) mod NTASKS)%nat = false.
Proof.
  unfold rr_pick. destruct (position _ _) as [k|] eqn:E; [|done]. cbn [mbind option_bind].
  intros Hi. apply position_Some in E as [(x & Hx & Hp) Hlt].
  rewrite Hi in Hx. injection Hx as <-. split; [done|]. exists k.
  assert (k < NTASKS)%nat as Hk by (rewrite <- (length_rr_order start); by eapply lookup_lt_Some).
  rewrite rr_order_lookup in Hi by done. injection Hi as <-. split; [done|]. split; [done|].
  intros j Hj. apply (Hlt j); [done|]. apply rr_order_lookup. lia.
Qed.
Lemma rr_order_covers start i :
  (i < NTASKS)%nat → ∃ k, (k < NTASKS)%nat ∧ i = ((start + k) mod NTASKS)%nat.
Proof.
  intros Hi. exists ((i + NTASKS - start mod NTASKS) mod NTASKS)%nat.
  assert (NTASKS ≠ 0%nat) as Hn by done. pose proof (Nat.mod_upper_bound start NTASKS Hn).
  split; [by apply Nat.mod_upper_bound|].
  rewrite Nat.Div0.add_mod_idemp_r, <- (Nat.Div0.add_mod_idemp_l start).
  replace (start mod NTASKS + (i + NTASKS - start mod NTASKS))%nat with (i + 1 * NTASKS)%nat by lia.
  rewrite Nat.Div0.mod_add. by rewrite Nat.mod_small.
Qed.
Lemma rr_pick_None ts start :
  rr_pick ts start = None → ∀ i, (i < NTASKS)%nat → slot_runnable ts i = false.
Proof.
  unfold rr_pick. intros H i Hi. destruct (rr_order_covers start i Hi) as (k & Hk & ->).
  pose proof (rr_order_lookup start k Hk) as E.
  destruct (position _ _) as [k'|] eqn:Ep; cbn [mbind option_bind] in H.
  - apply position_Some in Ep as [(x & Hx & _) _]. congruence.
  - rewrite position_None in Ep. by apply (Ep k).
Qed.

Lemma wp_dispatch i t Q s :
  tasks (self s) !! i = Some (Some t) →
  Q (trap_frame t) (mkTsys (dispatched i t (self s)) (hw s)) → wp (dispatch i) Q s.
Proof.
  intros H HQ. unfold dispatch. apply wp_bind, wp_task_at with t; [done|].
  apply wp_bind, wp_upd_task with t; [done|]. apply wp_bind, wp_upd_self, wp_ret. exact HQ.
Qed.
Lemma slot_runnable_task ts i :
  slot_runnable ts i = true → ∃ t, ts !! i = Some (Some t) ∧ state t = Ready ∧ pid t ≠ IDLE_PID.
Proof.
  unfold slot_runnable, runnable. destruct (ts !! i) as [[t|]|]; [|done..].
  intros [Hp Hs%bool_decide_eq_true]%andb_true_iff. exists t.
  split; [done|]. split; [done|]. apply negb_true_iff, Z.eqb_neq in Hp. done.
Qed.

(** [schedule_from] and [dispatch_idle] compute the policy. *)
Lemma schedule_from_wp start Q s :
  (match rr_pick (tasks (self s)) start with
   | Some i => ∀ t, tasks (self s) !! i = Some (Some t) →
       Q (Some (trap_frame t)) (mkTsys (dispatched i t (self s)) (hw s))
   | None => Q None s
   end) →
  wp (schedule_from start (seq 0 NTASKS)) Q s.
Proof.
  unfold rr_pick, rr_order. generalize (seq 0 NTASKS). intros l.
  induction l as [|k l IH]; intros HQ; [exact HQ|].
  cbn [schedule_from fmap list_fmap position] in *.
  apply wp_bind, wp_get_self. unfold slot_runnable at 1 in HQ. unfold NTASKS in HQ.
  destruct (runnable (mjoin (tasks (self s) !! _))) eqn:Er in HQ |- *.
  - destruct (slot_runnable_task (tasks (self s)) _ Er) as (t & Ht & _).
    cbn [mbind option_bind] in HQ. apply wp_bind, wp_dispatch with t; [exact Ht|].
    apply wp_ret. by apply HQ.
  - apply IH. destruct (position _ _) as [j|] eqn:Ep in HQ |- *; [|exact HQ]. exact HQ.
Qed.
Lemma dispatch_idle_wp Q s :
  (match task_index (tasks (self s)) IDLE_PID with
   | Some i => ∀ t, tasks (self s) !! i = Some (Some t) →
       Q (Some (trap_frame t)) (mkTsys (dispatched i t (self s)) (hw s))
   | None => Q None s
   end) →
  wp dispatch_idle Q s.
Proof.
  intros HQ. unfold dispatch_idle. apply wp_bind, wp_get_self.
  destruct (task_index _ _) as [i|] eqn:E; [|exact HQ].
  destruct (task_index_Some _ _ _ E) as (t & Ht & _).
  apply wp_bind, wp_dispatch with t; [done|]. apply wp_ret. by apply HQ.
Qed.
End selection.

(** ** The whole of [schedule] *)

(** The outgoing task gives up the CPU. *)
Definition yield_task (t : Task) : Task :=
  if bool_decide (state t = Running) then set_state Ready t else t.
(** The task table as the search sees it: detached zombies gone, the outgoing task
    ready again unless it sleeps or died. *)
Definition settled (m : TaskManager) : list (option Task) :=
  let ts := reap1 (current_pid m) <$> tasks m in
  match current_index m with
  | None => ts
  | Some c => alter (fmap yield_task) c ts
  end.

Section schedule.
Implicit Types (s : tsys) (ts : list (option Task)).

Lemma yield_same_space t : same_space t (yield_task t).
Proof. unfold yield_task. by destruct (bool_decide _). Qed.
Lemma set_state_same_space x t : same_space t (set_state x t).
Proof. done. Qed.

Lemma position_fmap {A B} (p : B → bool) (f : A → B) (l : list A) :
  position p (f <$> l) = position (λ x, p (f x)) l.
Proof. induction l as [|x l IH]; [done|]. cbn. destruct (p (f x)); [done|]. by rewrite IH. Qed.
Lemma position_ext {A} (p q : A → bool) (l : list A) :
  (∀ x, p x = q x) → position p l = position q l.
Proof. intros H. induction l as [|x l IH]; [done|]. cbn. rewrite H, IH. done. Qed.

(** Reaping never removes the current task. *)
Lemma task_index_reaped ts p : task_index (reap1 (Some p) <$> ts) p = task_index ts p.
Proof.
  unfold task_index. rewrite position_fmap. apply position_ext. intros [t|]; [|done].
  unfold reap1, detached. cbn [has_pid]. destruct (Z.eqb_spec (pid t) p) as [E|Hne].
  - rewrite (bool_decide_false (Some (pid t) ≠ Some p)) by (intros H; by apply H; rewrite E).
    rewrite andb_false_r. cbn [has_pid]. by apply Z.eqb_eq.
  - destruct (_ && _); [done|]. cbn [has_pid]. by apply Z.eqb_neq.
Qed.
Lemma current_index_reaped m :
  current_index (set_tasks (fmap (reap1 (current_pid m))) m) = current_index m.
Proof.
  unfold current_index. cbn [set_tasks current_pid tasks].
  destruct (current_pid m) as [p|]; [|done]. cbn [mbind option_bind]. apply task_index_reaped.
Qed.

(** Saving a frame into the kernel stack of the task at [i]. *)
Lemma frame_write_out t (m : memory) f a :
  layout_ok t → ¬ in_page (kernel_stack t) a →
  load64 (store_words m (trap_frame t) (frame_words f)) a = load64 m a.
Proof.
  intros [_ _ _ _ _ [H1 H2]] Ha. apply load64_write_frame_out. intros Hin. apply Ha.
  unfold in_frame, in_page, FRAME_SIZE, FRAME_WORDS in *. lia.
Qed.

Lemma save_current_wp tf Q s :
  spaces_ok (hw s) (tasks (self s)) →
  (∀ h, spaces_ok h (tasks (self s)) → same_globals (hw s) h →
     (∀ i t, current_index (self s) = Some i → tasks (self s) !! i = Some (Some t) →
        h = set_mem (λ m, store_words m (trap_frame t)
                            (frame_words (frame_at (mem (hw s)) tf))) (hw s)) →
     (current_index (self s) = None → h = hw s) →
     Q (current_index (self s))
       (mkTsys (set_tasks (λ ts, match current_index (self s) with
                                 | None => ts
                                 | Some c => alter (fmap yield_task) c ts end) (self s)) h)) →
  wp (save_current tf) Q s.
Proof.
  intros Hsp HQ. unfold save_current. apply wp_bind, wp_get_self.
  destruct (current_index (self s)) as [c|] eqn:Ec.
  2: { apply wp_ret. specialize (HQ (hw s) Hsp (same_globals_refl _)).
       assert (mkTsys (set_tasks (λ ts, ts) (self s)) (hw s) = s) as E by by destruct s as [[] ?].
       rewrite E in HQ. by apply HQ. }
  destruct (current_index_Some _ _ Ec) as (t & Ht & _).
  apply wp_bind, wp_task_at with t; [done|]. apply wp_bind, wp_on_hw, wp_gets.
  apply wp_bind, wp_on_hw, wp_modify.
  match goal with |- context [mkTsys _ (set_mem ?f _)] => set (h := set_mem f (hw s)) end.
  assert (spaces_ok h (tasks (self s))) as Hsp'.
  { apply (spaces_ok_stack_write _ _ c t); [done|done|]. intros m a Ha.
    apply frame_write_out; [|done]. apply (spaces_task _ _ Hsp c t Ht). }
  specialize (HQ h Hsp' ltac:(done)).
  assert (∀ s0, s0 = mkTsys (set_tasks (λ ts, alter (fmap yield_task) c ts) (self s)) h →
    Q (Some c) s0) as HQ'.
  { intros s0 ->. apply HQ; [|done]. intros i t' [= <-] E. rewrite Ht in E. by injection E as <-. }
  apply wp_bind. cbn [self hw]. destruct (bool_decide (state t = Running)) eqn:Er.
  - apply wp_upd_task with t; [done|]. apply wp_ret, HQ'. cbn [self hw]. f_equal.
    unfold set_tasks. f_equal. apply list_eq. intros i.
    destruct (decide (i = c)) as [->|Hne]; [|by rewrite !list_lookup_alter_ne].
    rewrite !list_lookup_alter_eq, Ht. cbn. unfold yield_task. by rewrite Er.
  - apply wp_ret, wp_ret, HQ'. f_equal. destruct (self s) as [cp ts np rc es uo]. unfold set_tasks.
    cbn in *. f_equal. apply list_eq. intros i.
    destruct (decide (i = c)) as [->|Hne]; [|by rewrite list_lookup_alter_ne].
    rewrite list_lookup_alter_eq, Ht. cbn. unfold yield_task. by rewrite Er.
Qed.

Lemma length_settled m : length (settled m) = length (tasks m).
Proof. unfold settled. destruct (current_index m); rewrite ?length_alter, length_fmap; done. Qed.

(** [schedule] as a whole, from any state whose spaces are well-formed: the frame at
    [tf] is saved into the outgoing task, no other surviving task's kernel stack
    changes, and the task [next_slot] chooses runs. *)
Lemma schedule_wp tf s Q :
  spaces_ok (hw s) (tasks (self s)) → length (tasks (self s)) = NTASKS →
  (∀ h, let ts := settled (self s) in
     spaces_ok h ts → same_globals (hw s) h →
     (∀ i t, current_index (self s) = Some i → tasks (self s) !! i = Some (Some t) →
        (∀ a, in_frame tf a → in_page (kernel_stack t) a) →
        frame_at (mem h) (trap_frame t) = frame_at (mem (hw s)) tf) →
     (∀ i t, current_index (self s) ≠ Some i → tasks (self s) !! i = Some (Some t) →
        detached (current_pid (self s)) (Some t) = false → kept (hw s) h t) →
     (∀ i t, current_index (self s) = Some i → tasks (self s) !! i = Some (Some t) →
        ∀ b a, space_page (mem (hw s)) t b → in_page b a → load64 (mem h) a = load64 (mem (hw s)) a) →
     let m := set_tasks (λ _, ts) (self s) in
     match next_slot ts (rr_start (current_index (self s))) with
     | Some i => ∀ t, ts !! i = Some (Some t) → Q (trap_frame t) (mkTsys (dispatched i t m) h)
     | None => Q tf (mkTsys m h)
     end) →
  wp (schedule tf) Q s.
Proof.
  intros Hsp Hlen HQ. unfold schedule. apply wp_bind. eapply wp_mono; [by apply reap_wp|].
  intros [] s1 [Hs1 Hsp1 Hg1 Hk1 Ha1].
  assert (self s1 = set_tasks (fmap (reap1 (current_pid (self s)))) (self s)) as E1.
  { rewrite Hs1. unfold set_tasks. rewrite reaped_all by (rewrite Hlen; done). done. }
  assert (current_index (self s1) = current_index (self s)) as Ec
    by (rewrite E1; apply current_index_reaped).
  apply wp_bind, save_current_wp; [done|]. intros h Hsp2 Hg2 Hsave Hnone.
  rewrite Ec in *.
  assert (set_tasks (λ ts, match current_index (self s) with
            | None => ts | Some c => alter (fmap yield_task) c ts end) (self s1) =
          set_tasks (λ _, settled (self s)) (self s)) as E2.
  { rewrite E1. unfold set_tasks, settled. cbn. done. }
  rewrite E2. fold (rr_start (current_index (self s))).
  specialize (HQ h). cbv zeta in HQ.
  assert (spaces_ok h (settled (self s))) as Hsp3.
  { apply (spaces_ok_slots h (tasks (self s1))); [|done]. rewrite E1. unfold settled. cbn [tasks set_tasks].
    destruct (current_index (self s)); [apply same_slots_alter, yield_same_space|apply same_slots_refl]. }
  specialize (HQ Hsp3 (same_globals_trans _ _ _ Hg1 Hg2)).
  assert (∀ i t, current_index (self s) = Some i → tasks (self s) !! i = Some (Some t) →
    (∀ a, in_frame tf a → in_page (kernel_stack t) a) →
    frame_at (mem h) (trap_frame t) = frame_at (mem (hw s)) tf) as Hframe.
  { intros i t Hi Ht Hin.
    assert (detached (current_pid (self s)) (Some t) = false) as Hd.
    { destruct (current_index_Some _ _ Hi) as (t' & Ht' & Hp). rewrite Ht in Ht'. injection Ht' as <-.
      unfold detached. rewrite Hp.
      rewrite (bool_decide_false (Some (pid t) ≠ Some (pid t))) by (intros H; by apply H).
      apply andb_false_r. }
    rewrite (Hsave i t Hi).
    - cbn [mem set_mem]. rewrite frame_at_write. apply frame_at_ext. intros a Ha.
      apply (Hk1 i t Ht (or_intror Hd) (kernel_stack t)); [by right|by apply Hin].
    - rewrite E1. cbn [tasks set_tasks]. rewrite list_lookup_fmap, Ht. cbn. unfold reap1. by rewrite Hd. }
  assert (∀ i t, tasks (self s) !! i = Some (Some t) → detached (current_pid (self s)) (Some t) = false →
    tasks (self s1) !! i = Some (Some t)) as Ht1.
  { intros i t Ht Hd. rewrite E1. cbn [tasks set_tasks]. rewrite list_lookup_fmap, Ht. cbn. unfold reap1. by rewrite Hd. }
  assert (∀ i t b a, tasks (self s) !! i = Some (Some t) → detached (current_pid (self s)) (Some t) = false →
    owns (mem (hw s)) t b → (current_index (self s) = Some i → b ≠ kernel_stack t) → in_page b a →
    load64 (mem h) a = load64 (mem (hw s)) a) as Hown.
  { intros i t b a Ht Hd Hb Hnk Ha. pose proof (Hk1 i t Ht (or_intror Hd)) as Hks.
    rewrite <- (Hks b a) by done. pose proof (Ht1 i t Ht Hd) as Htl.
    destruct (current_index (self s)) as [c|] eqn:Ecur; [|by rewrite Hnone].
    destruct (current_index_Some _ _ Ec) as (u & Hu & _).
    rewrite (Hsave c u eq_refl Hu). cbn [mem set_mem].
    apply frame_write_out; [apply (spaces_task _ _ Hsp1 c u Hu)|]. intros Hin.
    apply (owns_frame (hw s) (hw s1)) in Hb; [|by apply kept_tables].
    assert (b = kernel_stack u) as ->.
    { apply (pages_apart _ _ a); [by apply (owns_aligned _ _ i t b Hsp1)|
        apply (lay_kstack _ (space_layout _ _ (spaces_task _ _ Hsp1 c u Hu)))|done|done]. }
    assert (i = c) as -> by (apply (spaces_disjoint _ _ Hsp1 i c t u (kernel_stack u) Htl Hu); [done|by right]).
    rewrite Htl in Hu. injection Hu as <-. by apply Hnk. }
  assert (∀ i t, current_index (self s) ≠ Some i → tasks (self s) !! i = Some (Some t) →
    detached (current_pid (self s)) (Some t) = false → kept (hw s) h t) as Hothers.
  { intros i t Hi Ht Hd b a Hb. by apply (Hown i t b a Ht Hd Hb). }
  assert (∀ i t, current_index (self s) = Some i → tasks (self s) !! i = Some (Some t) →
    ∀ b a, space_page (mem (hw s)) t b → in_page b a → load64 (mem h) a = load64 (mem (hw s)) a) as Hself.
  { intros i t Hi Ht b a Hb. apply (Hown i t b a Ht); [|by left|].
    - destruct (current_index_Some _ _ Hi) as (u & Hu & Hp). rewrite Ht in Hu. injection Hu as <-.
      unfold detached. rewrite Hp. rewrite (bool_decide_false (Some (pid t) ≠ Some (pid t))) by (intros H; by apply H).
      apply andb_false_r.
    - intros _ ->. by apply (kstack_no_space_page _ _ i t Hsp). }
  specialize (HQ Hframe Hothers Hself). unfold next_slot in HQ.
  apply wp_bind, schedule_from_wp. cbn [self hw]. cbn [tasks set_tasks].
  destruct (rr_pick (settled (self s)) _) as [i|] eqn:Ep.
  - intros t Ht. apply wp_ret. by apply HQ.
  - apply wp_bind, dispatch_idle_wp. cbn [self hw]. cbn [tasks set_tasks].
    destruct (task_index (settled (self s)) IDLE_PID) as [i|].
    + intros t Ht. apply wp_ret. by apply HQ.
    + apply wp_ret. exact HQ.
Qed.
End schedule.
