(* ===== verification/Inv.v ===== *)
(** The invariant of the process manager and the methods that keep it.

    [tm_mid] is what holds between the steps of a method: PIDs are unique, the idle
    task exists and never sleeps, at most the current task is running,
    [runnable_count] counts the ready and running tasks, endpoints are well-formed and
    a waiting receiver is asleep on its endpoint.  [tm_ok] adds that the current task
    runs; it holds whenever user code does. *)

From S2P Require Import Prelude Arch Page Memory Machine Pgtable Vm Trap Ipc Task Space Sched.

(** Counted by [runnable_count]: ready or running, and not idle. *)
Definition active_state (x : TaskState) : bool :=
  match x with Ready | Running => true | _ => false end.
Definition active (slot : option Task) : bool :=
  match slot with
  | Some t => negb (pid t =? IDLE_PID) && active_state (state t)
  | None => false
  end.

Definition unique_pids (ts : list (option Task)) : Prop :=
  ∀ i j t t', ts !! i = Some (Some t) → ts !! j = Some (Some t') → pid t = pid t' → i = j.

(** A receiver recorded as waiting sleeps on its own endpoint. *)
Definition receiver_ok (ts : list (option Task)) (e : Z) (ep : Endpoint) : Prop :=
  ∀ r, waiting_receiver ep = Some r → r = owner ep ∧
    ∃ i t, ts !! i = Some (Some t) ∧ pid t = r ∧ state t = Sleeping ∧
      waiting_for t = Some (IpcRecv e).
Record endpoint_ok (ep : Endpoint) : Prop := {
  ep_queue : MsgQueue_wf (pending ep);
  ep_buf : length (copy_buf ep) = Z.to_nat IPC_BUF_SIZE;
  (** The messages' buffers fit, and the buffer of a waiting receiver is its own. *)
  ep_lens : Forall (λ m, 0 ≤ buf_len m ≤ IPC_BUF_SIZE) (queue_list (pending ep));
  ep_recv : 0 ≤ recv_buf_capacity ep ∧ user_range (recv_buf_addr ep) (Z.min (recv_buf_capacity ep) IPC_BUF_SIZE);
}.
(** A change of the queue, and one of the other fields. *)
Lemma endpoint_ok_queue ep q :
  endpoint_ok ep → MsgQueue_wf q → Forall (λ m, 0 ≤ buf_len m ≤ IPC_BUF_SIZE) (queue_list q) →
  endpoint_ok (set_pending q ep).
Proof. by intros [? ? ? ?] ? ?. Qed.
Lemma endpoint_ok_waiting ep o : endpoint_ok ep → endpoint_ok (set_waiting o ep).
Proof. by intros [? ? ? ?]. Qed.

Record tm_core (m : TaskManager) : Prop := {
  tm_len : length (tasks m) = NTASKS;
  tm_elen : length (endpoints m) = Z.to_nat MAX_ENDPOINTS;
  tm_pids : unique_pids (tasks m);
  tm_idle : ∃ i t, tasks m !! i = Some (Some t) ∧ pid t = IDLE_PID ∧ active_state (state t) = true;
  tm_running i t : tasks m !! i = Some (Some t) → state t = Running → current_pid m = Some (pid t);
  tm_count : runnable_count m = countb active (tasks m);
}.
Record tm_mid (m : TaskManager) : Prop := {
  mid_core : tm_core m;
  tm_endpoint e ep : endpoint_at m e = Some ep → endpoint_ok ep ∧ receiver_ok (tasks m) e ep;
}.
Coercion mid_core : tm_mid >-> tm_core.
(** The current task exists, with this state. *)
Definition current_is (m : TaskManager) (P : Task → Prop) : Prop :=
  ∃ i t, current_index m = Some i ∧ tasks m !! i = Some (Some t) ∧ P t.
Record tm_ok (m : TaskManager) : Prop := {
  ok_mid : tm_mid m;
  ok_current : current_is m (λ t, state t = Running);
}.
Record kernel_ok (s : tsys) : Prop := {
  k_tm : tm_ok (self s);
  k_spaces : spaces_ok (hw s) (tasks (self s));
}.
(** The same between the steps of a method. *)
Record kernel_mid (s : tsys) : Prop := {
  km_tm : tm_mid (self s);
  km_spaces : spaces_ok (hw s) (tasks (self s));
}.

Section counting.
Implicit Types (ts : list (option Task)).

Lemma countb_fmap {A B} (g : B → bool) (f : A → B) (l : list A) :
  countb g (f <$> l) = countb (λ x, g (f x)) l.
Proof. induction l as [|x l IH]; [done|]. cbn. f_equal. apply IH. Qed.
Lemma alter_insert ts i f slot : ts !! i = Some slot → alter f i ts = <[i := f slot]> ts.
Proof.
  intros H. apply list_eq. intros j. destruct (decide (j = i)) as [->|].
  - rewrite list_lookup_alter_eq, H, list_lookup_insert_eq; [done|by eapply lookup_lt_Some].
  - by rewrite list_lookup_alter_ne, list_lookup_insert_ne.
Qed.
(** Changing one task changes the count by its change of activity. *)
Definition b2z (b : bool) : Z := if b then 1 else 0.
Lemma count_alter ts i t f :
  ts !! i = Some (Some t) →
  countb active (alter (fmap f) i ts) =
    countb active ts + b2z (active (Some (f t))) - b2z (active (Some t)).
Proof.
  intros H. rewrite (alter_insert _ _ _ (Some t)) by done. by rewrite (countb_insert _ _ _ _ (Some t)).
Qed.
Lemma count_put ts i slot old :
  ts !! i = Some old →
  countb active (<[i := slot]> ts) = countb active ts + b2z (active slot) - b2z (active old).
Proof. intros H. by rewrite (countb_insert _ _ _ _ old). Qed.
Lemma count_bound ts : length ts = NTASKS → 0 ≤ countb active ts ≤ 16.
Proof.
  intros H. pose proof (countb_nonneg active ts). pose proof (countb_length active ts).
  rewrite H in *. unfold NTASKS, MAX_TASKS in *. lia.
Qed.
Lemma count_active_pos ts i t :
  ts !! i = Some (Some t) → active (Some t) = true → 0 < countb active ts.
Proof. intros H Ha. apply (countb_pos _ _ (Some t)); [by eapply list_elem_of_lookup_2|done]. Qed.
End counting.

(** ** Pointwise updates of the table *)

Section tables.
Implicit Types (ts : list (option Task)).

Lemma alter_lookup_Some ts i f j t' :
  alter (fmap f) i ts !! j = Some (Some t') →
  ∃ t, ts !! j = Some (Some t) ∧ t' = if decide (i = j) then f t else t.
Proof.
  destruct (decide (i = j)) as [->|Hne].
  - rewrite list_lookup_alter_eq. destruct (ts !! j) as [[t|]|]; [|done..].
    intros [= <-]. by exists t.
  - rewrite list_lookup_alter_ne by done. intros ->. by exists t'.
Qed.
Lemma alter_lookup ts i f t :
  ts !! i = Some (Some t) → alter (fmap f) i ts !! i = Some (Some (f t)).
Proof. intros H. by rewrite list_lookup_alter_eq, H. Qed.
Lemma alter_lookup_other ts i f j : i ≠ j → alter (fmap f) i ts !! j = ts !! j.
Proof. intros H. by rewrite list_lookup_alter_ne. Qed.

(** The slot of a task is found by its PID. *)
Lemma task_index_unique ts i t :
  unique_pids ts → ts !! i = Some (Some t) → task_index ts (pid t) = Some i.
Proof.
  intros Hu Ht. destruct (task_index ts (pid t)) as [j|] eqn:E.
  - destruct (task_index_Some _ _ _ E) as (t' & Ht' & Hp). f_equal. by apply (Hu j i t' t).
  - unfold task_index in E. rewrite position_None in E. specialize (E i _ Ht).
    cbn [has_pid] in E. by rewrite Z.eqb_refl in E.
Qed.
Lemma unique_pids_alter ts i f :
  (∀ t, pid (f t) = pid t) → unique_pids ts → unique_pids (alter (fmap f) i ts).
Proof.
  intros Hf Hu j k t t' (u & Hj & ->)%alter_lookup_Some (u' & Hk & ->)%alter_lookup_Some Hp.
  apply (Hu j k u u' Hj Hk). repeat case_decide; rewrite ?Hf in Hp; done.
Qed.
Lemma unique_pids_sub ts ts' :
  (∀ i t', ts' !! i = Some (Some t') → ∃ t, ts !! i = Some (Some t) ∧ pid t' = pid t) →
  unique_pids ts → unique_pids ts'.
Proof.
  intros H Hu i j t t' (u & Hi & Hp)%H (u' & Hj & Hp')%H E.
  apply (Hu i j u u' Hi Hj). congruence.
Qed.
End tables.

(** ** Scheduling keeps the invariant *)

Section schedule_inv.
Implicit Types (s : tsys) (ts : list (option Task)).

Lemma reap1_Some cur slot t : reap1 cur slot = Some t → slot = Some t.
Proof. unfold reap1. by destruct (detached cur slot). Qed.
Lemma reap1_live cur t : state t ≠ Zombie → reap1 cur (Some t) = Some t.
Proof. intros H. unfold reap1, detached. by rewrite bool_decide_false. Qed.

(** A slot of the settled table comes from the same slot, with Running made Ready. *)
Lemma settled_Some m i t' :
  tm_core m → settled m !! i = Some (Some t') →
  ∃ t, tasks m !! i = Some (Some t) ∧ t' = yield_task t.
Proof.
  intros Hm. unfold settled. assert (∀ j u, (reap1 (current_pid m) <$> tasks m) !! j = Some (Some u) →
    tasks m !! j = Some (Some u)) as Hr.
  { intros j u. rewrite list_lookup_fmap. destruct (tasks m !! j) as [slot|]; [|done].
    intros [= E%reap1_Some]. by subst. }
  destruct (current_index m) as [c|] eqn:Ec.
  - intros (t & Ht%Hr & ->)%alter_lookup_Some. exists t. split; [done|].
    case_decide as Hci; [done|]. unfold yield_task. case_bool_decide as Hst; [|done]. exfalso.
    apply Hci. destruct (current_index_Some _ _ Ec) as (u & Hu & Hp).
    pose proof (tm_running _ Hm i t Ht Hst) as Hp'. rewrite Hp in Hp'. injection Hp' as Hp'.
    by apply (tm_pids _ Hm c i u t).
  - intros Ht%Hr. exists t'. split; [done|]. unfold yield_task. case_bool_decide as Hst; [|done].
    exfalso. pose proof (tm_running _ Hm i t' Ht Hst) as Hp.
    pose proof (task_index_unique _ _ _ (tm_pids _ Hm) Ht) as Hi.
    unfold current_index in Ec. rewrite Hp in Ec. cbn [mbind option_bind] in Ec. congruence.
Qed.
(** A task that is not a zombie stays. *)
Lemma settled_live m i t :
  tm_core m → tasks m !! i = Some (Some t) → state t ≠ Zombie →
  settled m !! i = Some (Some (yield_task t)).
Proof.
  intros Hm Ht Hz.
  assert (is_Some (settled m !! i)) as [[t'|] Hs].
  { apply lookup_lt_is_Some. rewrite length_settled. by eapply lookup_lt_Some. }
  - destruct (settled_Some m i t' Hm Hs) as (u & Hu & ->). congruence.
  - exfalso. unfold settled in Hs.
    assert ((reap1 (current_pid m) <$> tasks m) !! i = Some (Some t)) as Hr
      by (rewrite list_lookup_fmap, Ht; cbn; by rewrite reap1_live).
    destruct (current_index m) as [c|]; [|congruence].
    destruct (decide (c = i)) as [->|].
    + by rewrite (alter_lookup _ _ _ _ Hr) in Hs.
    + rewrite alter_lookup_other in Hs by done. congruence.
Qed.
Lemma active_yield t : active (Some (yield_task t)) = active (Some t).
Proof. unfold yield_task. case_bool_decide as H; [|done]. cbn. by rewrite H. Qed.
Lemma active_reap1 cur slot : active (reap1 cur slot) = active slot.
Proof.
  unfold reap1. destruct slot as [t|]; [|done]. destruct (detached cur (Some t)) eqn:E; [|done].
  unfold detached in E. apply andb_true_iff in E as [E _]. apply andb_true_iff in E as [E _].
  apply bool_decide_eq_true in E. cbn. rewrite E. by rewrite andb_false_r.
Qed.
Lemma count_settled m : tm_core m → countb active (settled m) = countb active (tasks m).
Proof.
  intros Hm. unfold settled.
  assert (countb active (reap1 (current_pid m) <$> tasks m) = countb active (tasks m)) as Hr.
  { rewrite countb_fmap. apply countb_ext. intros slot _. apply active_reap1. }
  destruct (current_index m) as [c|] eqn:Ec; [|done].
  destruct (current_index_Some m c Ec) as (t & Ht & Hp).
  rewrite (count_alter _ _ t).
  - rewrite active_yield, Hr. lia.
  - rewrite list_lookup_fmap, Ht. cbn. f_equal. unfold reap1, detached. rewrite Hp.
    rewrite (bool_decide_false (Some (pid t) ≠ Some (pid t))) by (intros H; by apply H).
    by rewrite andb_false_r.
Qed.

Lemma yield_sleeping t : state t = Sleeping → yield_task t = t.
Proof. intros H. unfold yield_task. by rewrite bool_decide_false by (rewrite H; done). Qed.
Lemma yield_not_running t : state (yield_task t) ≠ Running.
Proof. unfold yield_task. by case_bool_decide. Qed.
Lemma yield_pid t : pid (yield_task t) = pid t.
Proof. unfold yield_task. by case_bool_decide. Qed.
Lemma yield_active_state t : active_state (state (yield_task t)) = active_state (state t).
Proof. unfold yield_task. case_bool_decide as H; [|done]. cbn. by rewrite H. Qed.

(** Some task is always chosen: a runnable one, or idle. *)
Lemma next_slot_some m start :
  tm_core m → ∃ i t, next_slot (settled m) start = Some i ∧
    settled m !! i = Some (Some t) ∧ state t = Ready.
Proof.
  intros Hm. unfold next_slot. destruct (rr_pick (settled m) start) as [i|] eqn:E.
  - destruct (rr_pick_Some _ _ _ E) as [(t & Ht & Hs & _)%slot_runnable_task _]. by exists i, t.
  - destruct (tm_idle _ Hm) as (i & t & Ht & Hp & Ha).
    assert (settled m !! i = Some (Some (yield_task t))) as Hs.
    { apply settled_live; [done..|]. intros Hz. by rewrite Hz in Ha. }
    assert (unique_pids (settled m)) as Hu.
    { apply (unique_pids_sub (tasks m)); [|apply Hm]. intros j t' Hj.
      destruct (settled_Some m j t' Hm Hj) as (u & Hu & ->). exists u. by rewrite yield_pid. }
    pose proof (task_index_unique _ _ _ Hu Hs) as Hi. rewrite yield_pid, Hp in Hi.
    exists i, (yield_task t). split; [done|]. split; [done|].
    pose proof (yield_active_state t) as Ha'. rewrite Ha in Ha'.
    pose proof (yield_not_running t). destruct (state (yield_task t)); (done || congruence).
Qed.

(** Sleeping tasks sleep in both tables, on the same channel, so receivers still wait. *)
Definition sleepers_kept ts ts' : Prop :=
  ∀ i t, ts !! i = Some (Some t) → state t = Sleeping →
    ∃ t', ts' !! i = Some (Some t') ∧ pid t' = pid t ∧ state t' = Sleeping ∧
      waiting_for t' = waiting_for t.
Lemma sleepers_kept_trans ts1 ts2 ts3 :
  sleepers_kept ts1 ts2 → sleepers_kept ts2 ts3 → sleepers_kept ts1 ts3.
Proof.
  intros H1 H2 i t Ht Hs. destruct (H1 i t Ht Hs) as (t2 & Ht2 & Hp2 & Hs2 & Hw2).
  destruct (H2 i t2 Ht2 Hs2) as (t3 & Ht3 & Hp3 & Hs3 & Hw3).
  exists t3. split; [done|]. split; [congruence|]. split; [done|congruence].
Qed.
Lemma sleepers_kept_alter ts i t f :
  ts !! i = Some (Some t) → state t ≠ Sleeping → sleepers_kept ts (alter (fmap f) i ts).
Proof.
  intros Ht Hs j u Hu Hsl. exists u. rewrite alter_lookup_other; [done|]. intros ->. congruence.
Qed.
Lemma receiver_ok_kept ts ts' e ep : sleepers_kept ts ts' → receiver_ok ts e ep → receiver_ok ts' e ep.
Proof.
  intros H Hr r Hw. destruct (Hr r Hw) as (Ho & i & t & Ht & Hp & Hs & Hf).
  destruct (H i t Ht Hs) as (t' & Ht' & Hp' & Hs' & Hf').
  split; [done|]. exists i, t'. split; [done|]. split; [congruence|]. split; [done|congruence].
Qed.

(** Dispatching a ready task of the settled table. *)
Lemma dispatched_core m i t :
  tm_core m → settled m !! i = Some (Some t) → state t = Ready →
  tm_core (dispatched i t (set_tasks (λ _, settled m) m)).
Proof.
  intros Hm Ht Hs. set (ts := settled m) in *.
  assert (∀ j t', alter (fmap (set_state Running)) i ts !! j = Some (Some t') →
    ∃ u, tasks m !! j = Some (Some u) ∧
      t' = if decide (i = j) then set_state Running (yield_task u) else yield_task u) as Hinv.
  { intros j t' (u' & Hu' & ->)%alter_lookup_Some.
    destruct (settled_Some m j u' Hm Hu') as (u & Hu & ->). by exists u. }
  split; cbn [dispatched set_current_pid set_tasks tasks endpoints current_pid runnable_count].
  - rewrite length_alter. unfold ts. rewrite length_settled. apply Hm.
  - apply Hm.
  - apply (unique_pids_sub (tasks m)); [|apply Hm]. intros j t' (u & Hu & ->)%Hinv. exists u.
    split; [done|]. case_decide; by rewrite <- (yield_pid u).
  - destruct (tm_idle _ Hm) as (j & u & Hj & Hp & Ha).
    assert (ts !! j = Some (Some (yield_task u))) as Hs'.
    { apply settled_live; [done..|]. intros Hz. by rewrite Hz in Ha. }
    destruct (decide (i = j)) as [<-|Hne].
    + eexists i, _. split; [by apply alter_lookup|]. by rewrite <- (yield_pid u) in Hp.
    + eexists j, _. rewrite alter_lookup_other by done. split; [done|].
      by rewrite yield_pid, yield_active_state.
  - intros j t' (u & Hu' & ->)%Hinv Hrun. case_decide as E; [subst j|by apply yield_not_running in Hrun].
    f_equal. destruct (settled_Some m i t Hm Ht) as (u' & Hu'' & ->). by simplify_eq.
  - rewrite (count_alter _ _ t) by done. unfold ts. rewrite count_settled by done.
    rewrite <- (tm_count _ Hm). cbn. rewrite Hs. cbn. lia.
Qed.
Lemma dispatched_current m i t :
  tm_core (dispatched i t m) → tasks m !! i = Some (Some t) →
  current_index (dispatched i t m) = Some i ∧
  tasks (dispatched i t m) !! i = Some (Some (set_state Running t)).
Proof.
  intros Hc Ht. assert (tasks (dispatched i t m) !! i = Some (Some (set_state Running t))) as Hi
    by by apply alter_lookup.
  split; [|done]. unfold current_index. cbn [dispatched set_current_pid current_pid mbind option_bind].
  change (pid t) with (pid (set_state Running t)). apply task_index_unique; [apply Hc|done].
Qed.
Lemma settled_sleepers m : tm_core m → sleepers_kept (tasks m) (settled m).
Proof.
  intros Hm i t Ht Hs. exists (yield_task t). split; [apply settled_live; [done..|by rewrite Hs]|].
  by rewrite (yield_sleeping t Hs).
Qed.
Lemma dispatched_ok m i t :
  tm_mid m → settled m !! i = Some (Some t) → state t = Ready →
  tm_ok (dispatched i t (set_tasks (λ _, settled m) m)).
Proof.
  intros Hm Ht Hs. pose proof (dispatched_core m i t Hm Ht Hs) as Hc.
  destruct (dispatched_current _ _ _ Hc Ht) as [Hci Hti].
  split; [split; [done|]|].
  - intros e ep He. destruct (tm_endpoint _ Hm e ep He) as [Hok Hr]. split; [done|].
    apply (receiver_ok_kept (tasks m)); [|done].
    apply sleepers_kept_trans with (settled m); [apply settled_sleepers, (mid_core _ Hm)|].
    apply sleepers_kept_alter with t; [done|]. by rewrite Hs.
  - exists i, (set_state Running t). done.
Qed.

(** What a switch keeps of each live task: who it is, what it waits for, its space and
    whether it can run.  The frame at [tf] is saved for the current task, and the
    kernel stacks of the others are untouched. *)
Definition task_kept (t t' : Task) : Prop :=
  pid t' = pid t ∧ waiting_for t' = waiting_for t ∧ same_space t t' ∧
  active_state (state t') = active_state (state t) ∧ (state t = Sleeping → state t' = Sleeping).
Definition sched_keeps (tf : Z) s s' : Prop :=
  ∀ i t, tasks (self s) !! i = Some (Some t) → state t ≠ Zombie →
    ∃ t', tasks (self s') !! i = Some (Some t') ∧ task_kept t t' ∧
      (current_index (self s) ≠ Some i → ∀ a, in_page (kernel_stack t) a →
         load64 (mem (hw s')) a = load64 (mem (hw s)) a) ∧
      (current_index (self s) = Some i → (∀ a, in_frame tf a → in_page (kernel_stack t) a) →
         frame_at (mem (hw s')) (trap_frame t) = frame_at (mem (hw s)) tf) ∧
      ∀ b a, space_page (mem (hw s)) t b → in_page b a → load64 (mem (hw s')) a = load64 (mem (hw s)) a.
Lemma task_kept_yield t : task_kept t (yield_task t).
Proof.
  unfold yield_task, task_kept, same_space. case_bool_decide as H; [|tauto]. cbn. rewrite H.
  split_and!; (done || congruence).
Qed.
Lemma task_kept_run t t' : task_kept t t' → state t' = Ready → task_kept t (set_state Running t').
Proof.
  intros (H1 & H2 & H3 & H4 & H5) H. split_and!; try done.
  - cbn. rewrite <- H4, H. done.
  - intros Hs. rewrite (H5 Hs) in H. done.
Qed.

(** The manager after [schedule], by the policy: the chosen slot of the settled table
    runs. *)
Definition scheduled (m m' : TaskManager) (fp : Z) : Prop :=
  ∃ i t, next_slot (settled m) (rr_start (current_index m)) = Some i ∧
    settled m !! i = Some (Some t) ∧ state t = Ready ∧ fp = trap_frame t ∧
    m' = dispatched i t (set_tasks (λ _, settled m) m).

(** [schedule] returns the frame of a task that is now running, and the invariant
    holds; what it does not touch stays, the memory of every live task included. *)
Lemma schedule_mid_wp tf s :
  kernel_mid s →
  wp (schedule tf) (λ fp s', kernel_ok s' ∧ same_globals (hw s) (hw s') ∧
    scheduled (self s) (self s') fp ∧ sched_keeps tf s s' ∧
    current_is (self s') (λ t, trap_frame t = fp)) s.
Proof.
  intros [Hm Hsp]. apply schedule_wp; [done|apply (mid_core _ Hm)|]. intros h. cbv zeta.
  intros Hsp' Hg Hframe Hothers Hself.
  destruct (next_slot_some (self s) (rr_start (current_index (self s))) Hm) as (i & t & Hnext & Ht & Hst).
  rewrite Hnext. intros t' Ht'. rewrite Ht in Ht'. injection Ht' as <-.
  pose proof (dispatched_ok _ _ _ Hm Ht Hst) as Hok.
  destruct (dispatched_current _ _ _ (mid_core _ (ok_mid _ Hok)) Ht) as [Hci Hti].
  split; [split; [exact Hok|]|].
  - apply (spaces_ok_slots h (settled (self s))); [|done]. cbn. apply same_slots_alter. done.
  - split; [done|]. split; [by exists i, t|]. split; [|by exists i, (set_state Running t)].
    intros j u Hu Hz. cbn [self hw dispatched set_current_pid set_tasks tasks].
    pose proof (settled_live (self s) j u (mid_core _ Hm) Hu Hz) as Hj.
    assert (detached (current_pid (self s)) (Some u) = false) as Hd by (unfold detached; by rewrite bool_decide_false).
    exists (if decide (i = j) then set_state Running (yield_task u) else yield_task u).
    split; [|split; [|split; [|split]]].
    + case_decide as E; [subst j; by apply alter_lookup|by rewrite alter_lookup_other].
    + case_decide as E; [|apply task_kept_yield]. apply task_kept_run; [apply task_kept_yield|].
      subst j. rewrite Ht in Hj. by injection Hj as <-.
    + intros Hne a Ha. apply (Hothers j u Hne Hu Hd (kernel_stack u)); [by right|done].
    + intros Hcur Hin. by apply (Hframe j u).
    + intros b a Hb. destruct (decide (current_index (self s) = Some j)) as [Hc|Hc]; [by apply (Hself j u Hc Hu b)|].
      apply (Hothers j u Hc Hu Hd b). by left.
Qed.
End schedule_inv.

(** ** Sleeping and waking *)

Definition sleep_task (ch : WaitChannel) (t : Task) : Task :=
  set_waiting_for (Some ch) (set_state Sleeping t).
Definition wake_task (t : Task) : Task := set_waiting_for None (set_state Ready t).
Definition blocked (i : nat) (ch : WaitChannel) (m : TaskManager) : TaskManager :=
  set_runnable_count (λ n, Z.max 0 (n - 1)) (set_tasks (alter (fmap (sleep_task ch)) i) m).
Definition woken (i : nat) (m : TaskManager) : TaskManager :=
  set_runnable_count (λ n, u32 (n + 1)) (set_tasks (alter (fmap wake_task) i) m).

Section sleeping.
Implicit Types (s : tsys) (ts : list (option Task)) (t : Task).

Lemma alter_alter {A} (l : list (option A)) i (f g : A → A) :
  alter (fmap f) i (alter (fmap g) i l) = alter (fmap (λ x, f (g x))) i l.
Proof.
  apply list_eq. intros j. destruct (decide (j = i)) as [->|Hne].
  - rewrite !list_lookup_alter_eq. by destruct (l !! i) as [[t|]|].
  - by rewrite !list_lookup_alter_ne.
Qed.

(** [block_at] saves the frame and puts the task to sleep. *)
Lemma block_at_wp i t ch tf Q s :
  spaces_ok (hw s) (tasks (self s)) → tasks (self s) !! i = Some (Some t) →
  (∀ h, spaces_ok h (tasks (blocked i ch (self s))) → same_globals (hw s) h →
     h = set_mem (λ m, store_words m (trap_frame t) (frame_words (frame_at (mem (hw s)) tf))) (hw s) →
     Q tt (mkTsys (blocked i ch (self s)) h)) →
  wp (block_at i ch tf) Q s.
Proof.
  intros Hsp Ht HQ. unfold block_at.
  apply wp_bind, wp_upd_task with t; [done|].
  apply wp_bind, wp_upd_task with (set_state Sleeping t); [by apply alter_lookup|].
  apply wp_bind, wp_task_at with (sleep_task ch t).
  { apply (alter_lookup _ _ (set_waiting_for (Some ch)) (set_state Sleeping t)). by apply alter_lookup. }
  apply wp_bind, wp_on_hw, wp_gets. apply wp_bind, wp_on_hw, wp_modify. cbn [self hw].
  apply wp_upd_self. cbn [self hw].
  assert (set_tasks (alter (fmap (set_waiting_for (Some ch))) i)
            (set_tasks (alter (fmap (set_state Sleeping)) i) (self s)) =
          set_tasks (alter (fmap (sleep_task ch)) i) (self s)) as ->.
  { unfold set_tasks. cbn. by rewrite alter_alter. }
  apply HQ; [|done|done].
  apply (spaces_ok_slots _ (tasks (self s))); [by apply same_slots_alter|].
  apply (spaces_ok_stack_write _ _ i t); [done|done|].
  intros m a Ha. apply (frame_write_out t); [|done]. apply (spaces_task _ _ Hsp i t Ht).
Qed.
Lemma wake_at_wp i t Q s :
  tasks (self s) !! i = Some (Some t) →
  Q tt (mkTsys (woken i (self s)) (hw s)) → wp (wake_at i) Q s.
Proof.
  intros Ht HQ. unfold wake_at.
  apply wp_bind, wp_upd_task with t; [done|].
  apply wp_bind, wp_upd_task with (set_state Ready t); [by apply alter_lookup|].
  apply wp_upd_self. cbn [self hw].
  assert (set_tasks (alter (fmap (set_waiting_for None)) i)
            (set_tasks (alter (fmap (set_state Ready)) i) (self s)) =
          set_tasks (alter (fmap wake_task) i) (self s)) as ->.
  { unfold set_tasks. cbn. by rewrite alter_alter. }
  exact HQ.
Qed.

(** A table update at one slot that keeps the PID, with the count adjusted. *)
Lemma tm_core_update m i t f n :
  tm_core m → tasks m !! i = Some (Some t) → (∀ u, pid (f u) = pid u) →
  (pid t = IDLE_PID → active_state (state (f t)) = true) →
  (state (f t) = Running → state t = Running) →
  n = runnable_count m + b2z (active (Some (f t))) - b2z (active (Some t)) →
  tm_core (set_runnable_count (λ _, n) (set_tasks (alter (fmap f) i) m)).
Proof.
  intros Hm Ht Hpid Hidle Hrun Hn.
  split; cbn [set_runnable_count set_tasks tasks endpoints current_pid runnable_count].
  - rewrite length_alter. apply Hm.
  - apply Hm.
  - apply unique_pids_alter; [done|apply Hm].
  - destruct (tm_idle _ Hm) as (j & u & Hj & Hp & Ha). destruct (decide (i = j)) as [->|Hne].
    + rewrite Ht in Hj. injection Hj as <-. exists j, (f t). split; [by apply alter_lookup|].
      rewrite Hpid. split; [done|]. by apply Hidle.
    + exists j, u. by rewrite alter_lookup_other.
  - intros j t' (u & Hu & ->)%alter_lookup_Some Hr. case_decide as E.
    + subst j. rewrite Ht in Hu. injection Hu as <-. rewrite Hpid. by apply (tm_running _ Hm i), Hrun.
    + by apply (tm_running _ Hm j).
  - rewrite (count_alter _ _ t) by done. by rewrite <- (tm_count _ Hm).
Qed.

Lemma blocked_core m i t ch :
  tm_core m → tasks m !! i = Some (Some t) → state t = Running → pid t ≠ IDLE_PID →
  tm_core (blocked i ch m).
Proof.
  intros Hm Ht Hs Hp.
  assert (active (Some t) = true) as Ha by (cbn; rewrite Hs, (proj2 (Z.eqb_neq _ _) Hp); done).
  pose proof (count_active_pos _ _ _ Ht Ha) as Hpos. rewrite <- (tm_count _ Hm) in Hpos.
  pose proof (tm_core_update m i t (sleep_task ch) (Z.max 0 (runnable_count m - 1)) Hm Ht) as H.
  apply H; [done|done|done|]. rewrite Ha. cbn. rewrite andb_false_r. cbn. lia.
Qed.
Lemma woken_core m i t :
  tm_core m → tasks m !! i = Some (Some t) → state t = Sleeping → tm_core (woken i m).
Proof.
  intros Hm Ht Hs.
  assert (pid t ≠ IDLE_PID) as Hp.
  { intros Hp. destruct (tm_idle _ Hm) as (j & u & Hj & Hpu & Ha).
    assert (i = j) as -> by (apply (tm_pids _ Hm i j t u); congruence).
    rewrite Ht in Hj. injection Hj as <-. by rewrite Hs in Ha. }
  pose proof (count_bound _ (tm_len _ Hm)) as Hb. rewrite <- (tm_count _ Hm) in Hb.
  pose proof (tm_core_update m i t wake_task (u32 (runnable_count m + 1)) Hm Ht) as H.
  apply H; [done|done|done|]. unfold u32. rewrite Z.mod_small by lia.
  cbn. rewrite Hs, (proj2 (Z.eqb_neq _ _) Hp). cbn. lia.
Qed.

Lemma blocked_sleepers m i t ch :
  tasks m !! i = Some (Some t) → state t = Running → sleepers_kept (tasks m) (tasks (blocked i ch m)).
Proof. intros Ht Hs. apply sleepers_kept_alter with t; [done|]. by rewrite Hs. Qed.
End sleeping.

(** ** Endpoints *)

Definition eps_ok (m : TaskManager) : Prop :=
  ∀ e ep, endpoint_at m e = Some ep → endpoint_ok ep ∧ receiver_ok (tasks m) e ep.
Definition with_endpoint (e : Z) (f : Endpoint → Endpoint) (m : TaskManager) : TaskManager :=
  set_endpoints (alter (fmap f) (Z.to_nat e)) m.

Section endpoints.
Implicit Types (s : tsys) (m : TaskManager) (ep : Endpoint).

Lemma endpoint_at_nonneg m e ep : endpoint_at m e = Some ep → 0 ≤ e.
Proof. unfold endpoint_at. destruct (0 <=? e) eqn:E; [lia|done]. Qed.
Lemma endpoint_at_with m e f e' :
  0 ≤ e → endpoint_at (with_endpoint e f m) e' =
    if decide (e = e') then f <$> endpoint_at m e' else endpoint_at m e'.
Proof.
  intros He. unfold endpoint_at, with_endpoint. cbn [set_endpoints endpoints].
  destruct (0 <=? e') eqn:E; [|by case_decide]. apply Z.leb_le in E. case_decide as Heq.
  - subst e'. rewrite list_lookup_alter_eq. by destruct (endpoints m !! Z.to_nat e) as [[]|].
  - rewrite list_lookup_alter_ne by lia. done.
Qed.
Lemma with_endpoint_twice e f g m : with_endpoint e f (with_endpoint e g m) = with_endpoint e (λ x, f (g x)) m.
Proof. unfold with_endpoint, set_endpoints. cbn. by rewrite alter_alter. Qed.
Lemma with_endpoint_id e m : with_endpoint e (λ x, x) m = m.
Proof.
  destruct m. unfold with_endpoint, set_endpoints. cbn. f_equal. apply list_eq. intros j.
  destruct (decide (j = Z.to_nat e)) as [->|]; [|by rewrite list_lookup_alter_ne].
  rewrite list_lookup_alter_eq. by destruct (endpoints !! _) as [[]|].
Qed.
Lemma with_endpoint_ext e f g m ep :
  endpoint_at m e = Some ep → f ep = g ep → with_endpoint e f m = with_endpoint e g m.
Proof.
  intros Hep Hfg. unfold with_endpoint, set_endpoints. f_equal. apply list_eq. intros j.
  unfold endpoint_at in Hep. destruct (Z.leb_spec 0 e); [|done].
  destruct (decide (j = Z.to_nat e)) as [->|Hne]; [|by rewrite !list_lookup_alter_ne].
  rewrite !list_lookup_alter_eq. destruct (endpoints m !! Z.to_nat e) as [[]|]; [|done..].
  injection Hep as ->. cbn. by rewrite Hfg.
Qed.
Lemma wp_upd_endpoint e f ep (Q : unit → tsys → Prop) s :
  endpoint_at (self s) e = Some ep →
  Q tt (mkTsys (with_endpoint e f (self s)) (hw s)) → wp (upd_endpoint e f) Q s.
Proof.
  intros He HQ. unfold upd_endpoint. apply wp_bind, wp_get_self.
  apply wp_bind, wp_unwrap with ep; [done|]. by apply wp_upd_self.
Qed.
Lemma wp_on_queue {A} e ep (q : st MsgQueue A) Q s :
  endpoint_at (self s) e = Some ep →
  wp q (λ a q', Q a (mkTsys (with_endpoint e (set_pending q') (self s)) (hw s))) (pending ep) →
  wp (on_queue e q) Q s.
Proof.
  intros He H. unfold wp, on_queue in *. rewrite He.
  destruct (q (pending ep)) as [[a q']| |]; [|done..].
  unfold mbind, st_bind, upd_endpoint, get_self, gets, upd_self, modify. cbn.
  unfold mbind, st_bind. rewrite He. exact H.
Qed.
Lemma wp_ep_push e ep msg Q s :
  endpoint_at (self s) e = Some ep → MsgQueue_wf (pending ep) →
  (∀ q, MsgQueue_wf q →
     queue_list q = (if is_full (pending ep) then queue_list (pending ep)
                     else queue_list (pending ep) ++ [msg]) →
     Q tt (mkTsys (with_endpoint e (set_pending q) (self s)) (hw s))) →
  wp (ep_push e msg) Q s.
Proof.
  intros He Hwf HQ. unfold ep_push. apply wp_bind, wp_on_queue with ep; [done|].
  eapply wp_mono; [by apply push_wp|]. intros r q (Hq & Hr). apply wp_ret, HQ; [done|].
  rewrite is_full_spec by done. destruct r as [[]|].
  - by rewrite bool_decide_false by apply Hr; apply Hr.
  - destruct Hr as [Hl ->]. by rewrite bool_decide_true.
Qed.
Lemma wp_ep_pop e ep Q s :
  endpoint_at (self s) e = Some ep → MsgQueue_wf (pending ep) →
  (∀ r q, MsgQueue_wf q →
     match r with
     | Some m => queue_list (pending ep) = m :: queue_list q
     | None => queue_list (pending ep) = [] ∧ q = pending ep
     end → Q r (mkTsys (with_endpoint e (set_pending q) (self s)) (hw s))) →
  wp (ep_pop e) Q s.
Proof.
  intros He Hwf HQ. apply wp_on_queue with ep; [done|].
  eapply wp_mono; [by apply pop_wp|]. intros r q (Hq & Hr). by apply HQ.
Qed.

(** Updating one endpoint keeps the others. *)
Lemma eps_ok_with m e f :
  eps_ok m → 0 ≤ e →
  (∀ ep, endpoint_at m e = Some ep → endpoint_ok (f ep) ∧ receiver_ok (tasks m) e (f ep)) →
  eps_ok (with_endpoint e f m).
Proof.
  intros Hm He Hf e' ep'. rewrite endpoint_at_with by done. case_decide as E; [|apply Hm].
  subst e'. intros (ep & Hep & ->)%fmap_Some. by apply Hf.
Qed.
Lemma tm_core_with m e f : tm_core m → tm_core (with_endpoint e f m).
Proof.
  intros [? ? ? ? ? ?]. split; try done. cbn [with_endpoint set_endpoints endpoints].
  by rewrite length_alter.
Qed.
Lemma eps_ok_kept m m' :
  endpoints m' = endpoints m → sleepers_kept (tasks m) (tasks m') → eps_ok m → eps_ok m'.
Proof.
  intros He Hs Hm e ep Hep. unfold endpoint_at in Hep. rewrite He in Hep.
  destruct (Hm e ep Hep) as [? Hr]. split; [done|]. by apply (receiver_ok_kept (tasks m)).
Qed.
Lemma tm_mid_intro m : tm_core m → eps_ok m → tm_mid m.
Proof. by split. Qed.
Lemma tm_mid_eps m : tm_mid m → eps_ok m.
Proof. intros [_ H]. exact H. Qed.
End endpoints.
