(* ===== verification/IpcFacts.v ===== *)
(** The IPC operations of [Task.v]: they keep the kernel invariant, never panic, and
    deliver messages.  Each operation's lemma has the form of a total specification:
    from a state with [kernel_ok] the call returns, and the result is described. *)

From S2P Require Import Prelude Arch Page Memory Machine Pgtable Vm Trap Ipc Task Space Sched Inv.

(** ** Writing a message into a frame *)

Definition message_mem (frame sender : Z) (ws : list Z) (m : memory) : memory :=
  store64 (store64 (store64 (store64 (store64 m (frame +' off_a0) sender)
    (frame +' off_a1) (word ws 0)) (frame +' off_a2) (word ws 1))
    (frame +' off_a3) (word ws 2)) (frame +' off_a4) (word ws 3).
Definition reply_mem (frame : Z) (ws : list Z) (m : memory) : memory :=
  store64 (store64 (store64 (store64 m (frame +' off_a0) (word ws 0))
    (frame +' off_a1) (word ws 1)) (frame +' off_a2) (word ws 2)) (frame +' off_a3) (word ws 3).

Section frames.
Implicit Types (h : mach) (m : memory) (t : Task).

Lemma set_message_wp frame sender ws h (Q : unit → mach → Prop) :
  Q tt (set_mem (message_mem frame sender ws) h) → wp (set_message frame sender ws) Q h.
Proof. done. Qed.
Lemma set_reply_wp frame ws h (Q : unit → mach → Prop) :
  Q tt (set_mem (reply_mem frame ws) h) → wp (set_reply frame ws) Q h.
Proof. done. Qed.

(** A field of a task's frame lies in its kernel stack. *)
Lemma frame_field t off :
  layout_ok t → 0 ≤ off < FRAME_SIZE →
  trap_frame t +' off = trap_frame t + off ∧ in_page (kernel_stack t) (trap_frame t + off).
Proof.
  intros [_ _ _ [[Hk0 _] Hk] _ [H1 H2]] Ho. unfold FRAME_SIZE, FRAME_WORDS, PAGE_SIZE in *.
  unfold u64, in_page, PAGE_SIZE. rewrite Z.mod_small by lia. lia.
Qed.
Lemma field_store_out t off v m a :
  layout_ok t → 0 ≤ off < FRAME_SIZE → ¬ in_page (kernel_stack t) a →
  load64 (store64 m (trap_frame t +' off) v) a = load64 m a.
Proof.
  intros Hl Ho Ha. destruct (frame_field t off Hl Ho) as [-> Hin].
  apply load64_store64_ne. by intros <-.
Qed.
Ltac field_bound := unfold FRAME_SIZE, FRAME_WORDS; vm_compute; split; congruence.
Lemma message_mem_out t sender ws m a :
  layout_ok t → ¬ in_page (kernel_stack t) a →
  load64 (message_mem (trap_frame t) sender ws m) a = load64 m a.
Proof.
  intros Hl Ha. unfold message_mem. by rewrite !(field_store_out t) by (done || field_bound).
Qed.
Lemma reply_mem_out t ws m a :
  layout_ok t → ¬ in_page (kernel_stack t) a →
  load64 (reply_mem (trap_frame t) ws m) a = load64 m a.
Proof.
  intros Hl Ha. unfold reply_mem. by rewrite !(field_store_out t) by (done || field_bound).
Qed.

(** What the receiver finds in its registers. *)
Lemma message_mem_fields t sender ws m :
  layout_ok t →
  let m' := message_mem (trap_frame t) sender ws m in
  tf_a0 (frame_at m' (trap_frame t)) = sender ∧ tf_a1 (frame_at m' (trap_frame t)) = word ws 0 ∧
  tf_a2 (frame_at m' (trap_frame t)) = word ws 1 ∧ tf_a3 (frame_at m' (trap_frame t)) = word ws 2 ∧
  tf_a4 (frame_at m' (trap_frame t)) = word ws 3.
Proof.
  intros Hl m'. unfold m', message_mem.
  assert (∀ off, 0 ≤ off < FRAME_SIZE → trap_frame t +' off = trap_frame t + off) as Hoff
    by (intros; by apply frame_field).
  rewrite !Hoff by field_bound.
  unfold off_a0, off_a1, off_a2, off_a3, off_a4. cbn [frame_at tf_a0 tf_a1 tf_a2 tf_a3 tf_a4].
  repeat split; repeat (rewrite load64_store64_eq || rewrite load64_store64_ne by lia); done.
Qed.
(** What the client of a reply finds. *)
Lemma reply_mem_fields t ws m :
  layout_ok t →
  let m' := reply_mem (trap_frame t) ws m in
  tf_a0 (frame_at m' (trap_frame t)) = word ws 0 ∧ tf_a1 (frame_at m' (trap_frame t)) = word ws 1 ∧
  tf_a2 (frame_at m' (trap_frame t)) = word ws 2 ∧ tf_a3 (frame_at m' (trap_frame t)) = word ws 3.
Proof.
  intros Hl m'. unfold m', reply_mem.
  assert (∀ off, 0 ≤ off < FRAME_SIZE → trap_frame t +' off = trap_frame t + off) as Hoff
    by (intros; by apply frame_field).
  rewrite !Hoff by field_bound.
  unfold off_a0, off_a1, off_a2, off_a3. cbn [frame_at tf_a0 tf_a1 tf_a2 tf_a3].
  repeat split; repeat (rewrite load64_store64_eq || rewrite load64_store64_ne by lia); done.
Qed.
End frames.

(** ** Waking a sleeper and the endpoints *)

Section wake.
Implicit Types (m : TaskManager) (t : Task).

(** A sleeper that is no receiver. *)
Lemma woken_eps m i t :
  eps_ok m → tasks m !! i = Some (Some t) → (∀ e, waiting_for t ≠ Some (IpcRecv e)) →
  eps_ok (woken i m).
Proof.
  intros Hm Ht Hw e ep Hep. destruct (Hm e ep Hep) as [Hok Hr]. split; [done|].
  intros r Hrv. destruct (Hr r Hrv) as (Ho & j & u & Hj & Hp & Hs & Hf). split; [done|].
  exists j, u. split; [|done]. cbn. rewrite alter_lookup_other; [done|]. intros ->.
  rewrite Ht in Hj. injection Hj as ->. by apply (Hw e).
Qed.
(** The receiver of endpoint [e], which is then marked as not waiting. *)
Lemma woken_receiver_eps m i t e g :
  (∀ ep, endpoint_ok ep → endpoint_ok (g ep)) → (∀ ep, waiting_receiver (g ep) = None) →
  eps_ok m → 0 ≤ e → tasks m !! i = Some (Some t) → waiting_for t = Some (IpcRecv e) →
  eps_ok (with_endpoint e g (woken i m)).
Proof.
  intros Hg Hgw Hm He Ht Hw e' ep'. rewrite endpoint_at_with by done. case_decide as E.
  - subst e'. intros (ep & Hep & ->)%fmap_Some. destruct (Hm e ep Hep) as [Hok _]. split; [by apply Hg|].
    intros r. by rewrite Hgw.
  - intros Hep. destruct (Hm e' ep' Hep) as [Hok Hr]. split; [done|].
    intros r Hrv. destruct (Hr r Hrv) as (Ho & j & u & Hj & Hp & Hs & Hf). split; [done|].
    exists j, u. split; [|done]. cbn. rewrite alter_lookup_other; [done|]. intros ->.
    rewrite Ht in Hj. injection Hj as ->. congruence.
Qed.
Lemma current_pid_of m P : current_is m P → ∃ i t, current_index m = Some i ∧
  tasks m !! i = Some (Some t) ∧ current_pid m = Some (pid t) ∧ P t.
Proof.
  intros (i & t & Hi & Ht & HP). exists i, t. split; [done|]. split; [done|]. split; [|done].
  destruct (current_index_Some m i Hi) as (u & Hu & Hp). congruence.
Qed.
End wake.

(** The message in a task's registers. *)
Definition has_message (m : memory) (t : Task) (sender : Z) (ws : list Z) : Prop :=
  let f := frame_at m (trap_frame t) in
  tf_a0 f = sender ∧ tf_a1 f = word ws 0 ∧ tf_a2 f = word ws 1 ∧ tf_a3 f = word ws 2 ∧
  tf_a4 f = word ws 3.
(** [t] became [t'] asleep on [ch], its registers saved. *)
Definition sleeps_on (ch : WaitChannel) (m m' : memory) (t t' : Task) : Prop :=
  pid t' = pid t ∧ state t' = Sleeping ∧ waiting_for t' = Some ch ∧ same_space t t' ∧
  frame_at m' (trap_frame t) = frame_at m (trap_frame t).

(** After a switch: the invariant holds and [fp] is the frame of the running task. *)
Definition switched (fp : Z) (s : tsys) : Prop :=
  kernel_ok s ∧ current_is (self s) (λ t, trap_frame t = fp).

(** User code that makes a system call: a running task other than idle. *)
Definition in_user (s : tsys) (t : Task) : Prop :=
  ∃ i, current_index (self s) = Some i ∧ tasks (self s) !! i = Some (Some t) ∧
    current_pid (self s) = Some (pid t) ∧ state t = Running ∧ pid t ≠ IDLE_PID.

Section operations.
Implicit Types (s : tsys) (t : Task).

Lemma kernel_ok_mid s : kernel_ok s → kernel_mid s.
Proof. intros [[Hm _] Hsp]. by split. Qed.
Lemma in_user_intro s i t :
  current_index (self s) = Some i → tasks (self s) !! i = Some (Some t) → state t = Running →
  pid t ≠ IDLE_PID → in_user s t.
Proof.
  intros Hi Ht Hs Hp. exists i. split; [done|]. split; [done|]. split; [|done].
  destruct (current_index_Some _ _ Hi) as (u & Hu & E). congruence.
Qed.

(** The running task's space changes, and fields of its record that are about it. *)
Lemma kernel_ok_space s i t f h :
  kernel_ok s → in_user s t → current_index (self s) = Some i →
  (∀ u, pid (f u) = pid u) → state (f t) = state t → space_step (hw s) h t (f t) →
  let s' := mkTsys (set_tasks (alter (fmap f) i) (self s)) h in kernel_ok s' ∧ in_user s' (f t).
Proof.
  intros [[Hm _] Hsp] (j & Hj & Ht & Hp & Hrun & Hid) Hi Hpid Hst Hstep s'.
  assert (j = i) as -> by congruence. clear Hj.
  pose proof (tm_core_update (self s) i t f (runnable_count (self s)) Hm Ht Hpid) as Hc.
  assert (tm_core (self s')) as Hc'.
  { apply Hc; [by intros ?|by rewrite Hst| cbn; rewrite Hst, Hpid; lia]. }
  clear Hc. assert (tasks (self s') !! i = Some (Some (f t))) as Ht' by by apply alter_lookup.
  assert (current_index (self s') = Some i) as Hi'.
  { unfold current_index. cbn [s' self set_tasks current_pid tasks]. rewrite Hp. cbn [mbind option_bind].
    rewrite <- (Hpid t). apply task_index_unique; [apply Hc'|done]. }
  split; [split; [split|]|].
  - apply tm_mid_intro; [done|]. apply (eps_ok_kept (self s)); [done| |by apply tm_mid_eps].
    apply sleepers_kept_alter with t; [done|]. by rewrite Hrun.
  - exists i, (f t). split; [done|]. split; [done|]. by rewrite Hst.
  - cbn [s' self hw set_tasks tasks]. rewrite (alter_insert _ _ _ (Some t)) by done. by apply (spaces_ok_step (hw s) _ _ _ t).
  - exists i. rewrite Hpid, Hst. done.
Qed.

(** [schedule] at the end of a blocking operation. *)
Lemma then_schedule {A} tf s (f : Z → A) (Q : A → tsys → Prop) :
  tm_core (self s) → eps_ok (self s) → spaces_ok (hw s) (tasks (self s)) →
  (∀ fp s', switched fp s' → scheduled (self s) (self s') fp → sched_keeps tf s s' → Q (f fp) s') →
  wp (fp ← schedule tf; mret (f fp)) Q s.
Proof.
  intros Hc He Hsp HQ. apply wp_bind. eapply wp_mono.
  { apply schedule_mid_wp. by split. }
  intros fp s' (Hok & _ & Hsch & Hkeep & Hcur). apply wp_ret, HQ; [by split|done..].
Qed.
Lemma scheduled_endpoint m m' fp e : scheduled m m' fp → endpoint_at m' e = endpoint_at m e.
Proof. by intros (i & t & _ & _ & _ & _ & ->). Qed.

(** The spaces after a field write in a task's frame. *)
Lemma spaces_ok_frame_write h ts i t (f : memory → memory) :
  spaces_ok h ts → ts !! i = Some (Some t) →
  (∀ m a, layout_ok t → ¬ in_page (kernel_stack t) a → load64 (f m) a = load64 m a) →
  spaces_ok (set_mem f h) ts.
Proof.
  intros Hsp Ht Hf. apply (spaces_ok_stack_write _ _ i t); [done|done|].
  intros m a Ha. apply Hf; [|done]. apply (spaces_task _ _ Hsp i t Ht).
Qed.

(** The blocked task after the switch. *)
Lemma blocked_sleeps ch i t s s1 s' :
  sched_keeps (trap_frame t) s1 s' → tasks (self s1) !! i = Some (Some (sleep_task ch t)) → current_index (self s1) = Some i →
  layout_ok t → frame_at (mem (hw s1)) (trap_frame t) = frame_at (mem (hw s)) (trap_frame t) →
  ∃ t', tasks (self s') !! i = Some (Some t') ∧ sleeps_on ch (mem (hw s)) (mem (hw s')) t t'.
Proof.
  intros Hk Ht Hi Hl Hf. destruct (Hk i _ Ht) as (t' & Ht' & (Hp & Hw & Hss & _ & Hs) & _ & Hfr); [done|].
  exists t'. split; [done|]. split; [done|]. split; [by apply Hs|]. split; [done|].
  split; [exact Hss|]. rewrite <- Hf. apply Hfr; [done|]. cbn [sleep_task set_waiting_for set_state kernel_stack].
  intros a Ha. destruct Hl as [_ _ _ _ _ [H1 H2]].
  unfold in_frame, in_page, FRAME_SIZE, FRAME_WORDS in *. lia.
Qed.
Lemma frame_in_stack t a : layout_ok t → in_frame (trap_frame t) a → in_page (kernel_stack t) a.
Proof.
  intros [_ _ _ _ _ [H1 H2]] Ha. unfold in_frame, in_page, FRAME_SIZE, FRAME_WORDS in *. lia.
Qed.
Lemma frame_at_stack_out m m' t t' :
  layout_ok t → layout_ok t' → kernel_stack t ≠ kernel_stack t' →
  (∀ a, ¬ in_page (kernel_stack t') a → load64 m' a = load64 m a) →
  frame_at m' (trap_frame t) = frame_at m (trap_frame t).
Proof.
  intros [_ _ _ [Ha _] _ [H1 H2]] [_ _ _ [Hb _] _ _] Hne Hm. apply frame_at_ext. intros a Hin. apply Hm.
  assert (in_page (kernel_stack t) a) as Hp
    by (unfold in_frame, in_page, FRAME_SIZE, FRAME_WORDS in *; lia).
  intros Hin'. apply Hne. by apply (pages_apart _ _ a).
Qed.
Lemma stacks_differ h ts i j t u :
  spaces_ok h ts → ts !! i = Some (Some t) → ts !! j = Some (Some u) → i ≠ j →
  kernel_stack t ≠ kernel_stack u.
Proof.
  intros H Ht Hu Hne E. apply Hne. apply (spaces_disjoint _ _ H i j t u (kernel_stack t)); try done.
  - by right.
  - right. by rewrite E.
Qed.
(** The frame is saved onto itself. *)
Lemma frame_self_save h t m :
  m = store_words (mem h) (trap_frame t) (frame_words (frame_at (mem h) (trap_frame t))) →
  frame_at m (trap_frame t) = frame_at (mem h) (trap_frame t).
Proof. intros ->. apply frame_at_write. Qed.

(** A caller that blocks and does nothing else. *)
Lemma block_sleeps ch i t s h s' :
  tasks (self s) !! i = Some (Some t) → current_pid (self s) = Some (pid t) →
  tm_core (blocked i ch (self s)) → layout_ok t →
  mem h = store_words (mem (hw s)) (trap_frame t)
            (frame_words (frame_at (mem (hw s)) (trap_frame t))) →
  sched_keeps (trap_frame t) (mkTsys (blocked i ch (self s)) h) s' →
  ∃ t', tasks (self s') !! i = Some (Some t') ∧ sleeps_on ch (mem (hw s)) (mem (hw s')) t t'.
Proof.
  intros Ht Hp Hc Hl Hh Hk.
  assert (tasks (blocked i ch (self s)) !! i = Some (Some (sleep_task ch t))) as Ht1
    by by apply alter_lookup.
  apply (blocked_sleeps ch i t s _ s' Hk Ht1); [|done|].
  - unfold current_index. cbn [self blocked set_runnable_count set_tasks current_pid]. rewrite Hp.
    cbn [mbind option_bind]. change (pid t) with (pid (sleep_task ch t)).
    by apply task_index_unique; [apply Hc|].
  - cbn [hw]. rewrite Hh. by apply (frame_self_save (hw s)).
Qed.

(** What a completed [ipc_call] did with the message: handed to the waiting receiver,
    who can run again, or queued, and then the manager is as after the scheduling. *)
Definition call_delivered (e sender : Z) (ws : list Z) (ep : Endpoint) (s s' : tsys) : Prop :=
  if bool_decide (waiting_receiver ep = Some (owner ep)) then
    ∃ j u u', tasks (self s) !! j = Some (Some u) ∧ pid u = owner ep ∧
      tasks (self s') !! j = Some (Some u') ∧ same_space u u' ∧ active_state (state u') = true ∧
      waiting_for u' = None ∧ has_message (mem (hw s')) u' sender ws ∧
      endpoint_at (self s') e = Some (set_waiting None ep)
  else
    ∃ q i fp, endpoint_at (self s') e = Some (set_pending q ep) ∧
      queue_list q = queue_list (pending ep) ++ [mkMessage sender ws 0] ∧ current_index (self s) = Some i ∧
      scheduled (with_endpoint e (set_pending q) (blocked i (IpcCall e) (self s))) (self s') fp.

(** The three parts of a call: the caller [t] falls asleep, its message is handed to a waiting
    receiver or queued, and another task runs.  [ipc_call_buf] has the same parts. *)
Section calling.
Context (e : Z) (s : tsys) (i : nat) (t : Task) (ep : Endpoint).
Hypothesis ok : kernel_ok s.
Hypothesis cur : current_index (self s) = Some i.
Hypothesis at_i : tasks (self s) !! i = Some (Some t).
Hypothesis cur_pid : current_pid (self s) = Some (pid t).
Hypothesis running : state t = Running.
Hypothesis not_idle : pid t ≠ IDLE_PID.
Hypothesis at_e : endpoint_at (self s) e = Some ep.

Definition caller_asleep (s' : tsys) : Prop :=
  ∃ i t', tasks (self s) !! i = Some (Some t) ∧ tasks (self s') !! i = Some (Some t') ∧
    sleeps_on (IpcCall e) (mem (hw s)) (mem (hw s')) t t'.

Lemma calling_core : tm_core (blocked i (IpcCall e) (self s)).
Proof. apply blocked_core with t; [apply ok|done..]. Qed.
Lemma calling_eps : eps_ok (blocked i (IpcCall e) (self s)).
Proof.
  apply (eps_ok_kept (self s)); [done|by apply (blocked_sleepers (self s) i t)|apply tm_mid_eps, ok].
Qed.
Lemma calling_layout : layout_ok t.
Proof. apply (spaces_task _ _ (k_spaces _ ok) i t at_i). Qed.
(** The waiting receiver. *)
Lemma calling_receiver : waiting_receiver ep = Some (owner ep) →
  ∃ j u, tasks (self s) !! j = Some (Some u) ∧ pid u = owner ep ∧ state u = Sleeping ∧
    waiting_for u = Some (IpcRecv e) ∧ i ≠ j ∧ kernel_stack t ≠ kernel_stack u ∧
    task_index (tasks (blocked i (IpcCall e) (self s))) (owner ep) = Some j.
Proof.
  intros Hw. destruct (tm_endpoint _ (ok_mid _ (k_tm _ ok)) e ep at_e) as [_ Hr].
  destruct (Hr _ Hw) as (_ & j & u & Hj & Hpu & Hsu & Hwu).
  assert (i ≠ j) as Hij by (intros ->; congruence). exists j, u. do 5 (split; [done|]).
  split; [by apply (stacks_differ (hw s) (tasks (self s)) i j); [apply ok|..]|].
  rewrite <- Hpu. apply task_index_unique; [apply calling_core|]. cbn. by rewrite alter_lookup_other.
Qed.
(** Falling asleep: the frame is saved where it is. *)
Lemma calling_block_wp Q :
  (∀ h1, spaces_ok h1 (tasks (blocked i (IpcCall e) (self s))) → PAGE_ALLOCATOR h1 = PAGE_ALLOCATOR (hw s) →
     same_globals (hw s) h1 → frame_at (mem h1) (trap_frame t) = frame_at (mem (hw s)) (trap_frame t) →
     (∀ a, ¬ in_page (kernel_stack t) a → load64 (mem h1) a = load64 (mem (hw s)) a) →
     Q tt (mkTsys (blocked i (IpcCall e) (self s)) h1)) →
  wp (block_at i (IpcCall e) (trap_frame t)) Q s.
Proof.
  intros HQ. apply block_at_wp with t; [apply ok|done|]. intros h1 Hsp1 Hg1 Hh1.
  apply HQ; [done|by rewrite Hh1|done|rewrite Hh1; by apply (frame_self_save (hw s))|].
  intros a Ha. rewrite Hh1. cbn [mem set_mem]. apply (frame_write_out t); [|done]. apply calling_layout.
Qed.
(** The receiver in slot [j] was given the message on machine [h2]. *)
Lemma calling_deliver_wp j u g h2 Q :
  let m1 := blocked i (IpcCall e) (self s) in
  tasks (self s) !! j = Some (Some u) → state u = Sleeping → waiting_for u = Some (IpcRecv e) → i ≠ j →
  (∀ ep', endpoint_ok ep' → endpoint_ok (g ep')) → (∀ ep', waiting_receiver (g ep') = None) →
  spaces_ok h2 (tasks m1) → frame_at (mem h2) (trap_frame t) = frame_at (mem (hw s)) (trap_frame t) →
  (∀ fp s' u', switched fp s' → caller_asleep s' →
     tasks (self s') !! j = Some (Some u') → same_space u u' → active_state (state u') = true →
     waiting_for u' = None → endpoint_at (self s') e = Some (g ep) →
     (∀ a, in_page (kernel_stack u) a → load64 (mem (hw s')) a = load64 (mem h2) a) →
     (∀ b a, space_page (mem h2) u b → in_page b a → load64 (mem (hw s')) a = load64 (mem h2) a) →
     Q (Blocked fp) s') →
  wp (fp ← schedule (trap_frame t); mret (Blocked fp)) Q (mkTsys (with_endpoint e g (woken j m1)) h2).
Proof.
  intros m1 Hj Hsu Hwu Hij Hg Hgw Hsp2 Hfr HQ.
  assert (tasks m1 !! j = Some (Some u)) as Hj1 by (cbn; by rewrite alter_lookup_other).
  assert (tasks m1 !! i = Some (Some (sleep_task (IpcCall e) t))) as Hi1 by by apply alter_lookup.
  pose proof (woken_core _ _ u calling_core Hj1 Hsu) as Hc2.
  assert (tasks (with_endpoint e g (woken j m1)) !! i = Some (Some (sleep_task (IpcCall e) t))) as Ht2
    by (cbn; by rewrite alter_lookup_other).
  assert (current_index (with_endpoint e g (woken j m1)) = Some i) as Hi2.
  { unfold current_index. cbn [with_endpoint set_endpoints woken set_runnable_count set_tasks current_pid].
    change (current_pid m1) with (current_pid (self s)). rewrite cur_pid. cbn [mbind option_bind].
    change (pid t) with (pid (sleep_task (IpcCall e) t)).
    apply task_index_unique; [apply (tm_core_with _ e g Hc2)|done]. }
  pose proof (endpoint_at_nonneg _ _ _ at_e) as He0.
  apply then_schedule; cbn [self hw].
  - by apply tm_core_with.
  - by apply (woken_receiver_eps _ _ u); [..|apply calling_eps| | |].
  - apply (spaces_ok_slots _ (tasks m1)); [by apply same_slots_alter|done].
  - intros fp s' Hsw Hsch Hkeep.
    destruct (Hkeep j (wake_task u)) as (u' & Hu' & (_ & Hwu' & Hss & Ha & _) & Hmem & _ & Hdata); [by apply alter_lookup|done|].
    apply (HQ fp s' u'); [done| |done|exact Hss|by rewrite Ha|by rewrite Hwu'| | |exact Hdata].
    + destruct (blocked_sleeps (IpcCall e) i t s _ s' Hkeep Ht2 Hi2 calling_layout Hfr) as (t' & Ht' & Hsl).
      by exists i, t'.
    + rewrite (scheduled_endpoint _ _ _ e Hsch). cbn [self].
      rewrite endpoint_at_with, decide_True by done. exact (f_equal (fmap g) at_e).
    + apply Hmem. cbn [self]. rewrite Hi2. by intros [= ->].
Qed.
(** The message was queued. *)
Lemma calling_queue_wp g h1 Q :
  let m1 := blocked i (IpcCall e) (self s) in
  endpoint_ok (g ep) → waiting_receiver (g ep) = waiting_receiver ep → owner (g ep) = owner ep →
  spaces_ok h1 (tasks m1) → frame_at (mem h1) (trap_frame t) = frame_at (mem (hw s)) (trap_frame t) →
  (∀ fp s', switched fp s' → caller_asleep s' → endpoint_at (self s') e = Some (g ep) →
     scheduled (with_endpoint e g m1) (self s') fp → Q (Blocked fp) s') →
  wp (fp ← schedule (trap_frame t); mret (Blocked fp)) Q (mkTsys (with_endpoint e g m1) h1).
Proof.
  intros m1 Hg Hgw Hgo Hsp1 Hfr HQ. pose proof (endpoint_at_nonneg _ _ _ at_e) as He0.
  assert (endpoint_at m1 e = Some ep) as Hep1 by done.
  assert (tasks m1 !! i = Some (Some (sleep_task (IpcCall e) t))) as Hi1 by by apply alter_lookup.
  assert (current_index m1 = Some i) as Hi2.
  { unfold current_index. cbn [m1 blocked set_runnable_count set_tasks current_pid]. rewrite cur_pid.
    cbn [mbind option_bind]. change (pid t) with (pid (sleep_task (IpcCall e) t)).
    apply task_index_unique; [apply calling_core|done]. }
  apply then_schedule; cbn [self hw].
  - apply tm_core_with, calling_core.
  - apply eps_ok_with; [apply calling_eps|done|]. intros ep' Hep'. rewrite Hep1 in Hep'. injection Hep' as <-.
    split; [done|]. intros r. rewrite Hgw, Hgo. by apply (calling_eps e ep).
  - done.
  - intros fp s' Hsw Hsch Hkeep. apply HQ; [done| | |done].
    + destruct (blocked_sleeps (IpcCall e) i t s _ s' Hkeep Hi1 Hi2 calling_layout Hfr) as (t' & Ht' & Hsl).
      by exists i, t'.
    + rewrite (scheduled_endpoint _ _ _ e Hsch). cbn [self].
      rewrite endpoint_at_with, decide_True by done. exact (f_equal (fmap g) Hep1).
Qed.
End calling.

(** [ipc_call] either fails and changes nothing, or blocks the caller and switches. *)
Lemma ipc_call_wp e ws s t :
  kernel_ok s → in_user s t →
  wp (ipc_call e ws (trap_frame t)) (λ r s',
    match r with
    | Blocked fp => switched fp s' ∧
        ∃ ep, endpoint_at (self s) e = Some ep ∧ pid t ≠ owner ep ∧ is_full (pending ep) = false ∧
          (∃ i t', tasks (self s) !! i = Some (Some t) ∧ tasks (self s') !! i = Some (Some t') ∧
             sleeps_on (IpcCall e) (mem (hw s)) (mem (hw s')) t t') ∧
          call_delivered e (pid t) ws ep s s'
    | IpcError => s' = s ∧
        match endpoint_at (self s) e with
        | Some ep => pid t = owner ep ∨ is_full (pending ep) = true
        | None => True
        end
    | Continue => False
    end) s.
Proof.
  intros Hk (i & Hi & Ht & Hp & Hrun & Hid). pose proof Hk as [[Hm _] Hsp].
  pose proof (space_layout _ _ (spaces_task _ _ Hsp i t Ht)) as Hlay.
  unfold ipc_call. apply wp_bind, wp_get_self. rewrite Hp.
  apply wp_bind, wp_get_self. destruct (endpoint_at (self s) e) as [ep|] eqn:Hep; [|by apply wp_ret].
  cbv zeta. destruct (_ || _) eqn:Echk.
  { apply wp_ret. split; [done|]. apply orb_true_iff in Echk as [E%Z.eqb_eq|E]; auto. }
  apply orb_false_elim in Echk as [Eown%Z.eqb_neq Efull].
  apply wp_bind, wp_get_self. rewrite (task_index_unique _ i t) by (done || apply Hm).
  apply wp_bind, (calling_block_wp e s i t); [done|done|]. intros h1 Hsp1 _ Hg1 Hfr1 _.
  apply wp_bind. case_bool_decide as Hw.
  - destruct (calling_receiver e s i t ep) as (j & u & Hj & Hpu & Hsu & Hwu & Hij & Hst & Hidx); [done..|].
    assert (tasks (blocked i (IpcCall e) (self s)) !! j = Some (Some u)) as Hj1 by (cbn; by rewrite alter_lookup_other).
    apply wp_bind, wp_get_self. cbn [self hw]. apply wp_bind, wp_unwrap with j; [done|].
    apply wp_bind, wp_task_at with u; [done|]. apply wp_bind, wp_on_hw, set_message_wp. cbn [self hw].
    apply wp_bind, wake_at_wp with u; [done|]. apply wp_upd_endpoint with ep; [done|]. cbn [self hw].
    pose proof (space_layout _ _ (spaces_task _ _ Hsp j u Hj)) as Hlu.
    apply (calling_deliver_wp e s i t ep) with (u := u); try done.
    + intros ep'. apply endpoint_ok_waiting.
    + apply (spaces_ok_frame_write _ _ j u); [done|done|]. intros m a Hl Ha. by apply message_mem_out.
    + rewrite <- Hfr1. apply (frame_at_stack_out _ _ t u); [done|done|done|]. intros a Ha. by apply message_mem_out.
    + intros fp s' u' Hsw Hca Hu' Hss Ha Hwn Hep' Hmem _. split; [done|]. exists ep. do 3 (split; [done|]). split; [done|].
      unfold call_delivered. rewrite bool_decide_true by done. exists j, u, u'. do 6 (split; [done|]). split; [|done].
      unfold has_message. assert (trap_frame u' = trap_frame u) as -> by apply Hss.
      cbv zeta. rewrite (frame_at_ext (message_mem (trap_frame u) (pid t) ws (mem h1))); [by apply message_mem_fields|].
      intros a Ha'. apply Hmem. by apply (frame_in_stack u).
  - destruct (tm_endpoint _ Hm e ep Hep) as [Hepok _].
    apply wp_ep_push with ep; [done|apply Hepok|]. intros q Hq Hlist. cbn [self hw]. rewrite Efull in Hlist.
    apply (calling_queue_wp e s i t ep); try done.
    + apply endpoint_ok_queue; [done|done|]. rewrite Hlist. apply Forall_app. split; [apply Hepok|by repeat constructor].
    + intros fp s' Hsw Hca Hep' Hsch. split; [done|]. exists ep. do 3 (split; [done|]). split; [done|].
      unfold call_delivered. rewrite bool_decide_false by done. by exists q, i, fp.
Qed.

(** The same task goes on: the table and the current PID are unchanged. *)
Lemma kernel_ok_continue s s' :
  kernel_ok s → tm_core (self s') → eps_ok (self s') → spaces_ok (hw s') (tasks (self s')) →
  tasks (self s') = tasks (self s) → current_pid (self s') = current_pid (self s) → kernel_ok s'.
Proof.
  intros [[_ Hcur] _] Hc He Hsp Ht Hp. split; [split; [by split|]|done].
  destruct Hcur as (i & t & Hi & Hti & Hs). exists i, t. rewrite Ht. split; [|done].
  unfold current_index in *. by rewrite Hp, Ht.
Qed.

(** A receiver that finds no message: [g] marks it as the one who waits, and another task runs. *)
Lemma blocking_recv_wp e s i t ep g Q :
  kernel_ok s → in_user s t → current_index (self s) = Some i → endpoint_at (self s) e = Some ep →
  owner ep = pid t → endpoint_ok (g ep) → owner (g ep) = owner ep → waiting_receiver (g ep) = Some (pid t) →
  (∀ fp s', switched fp s' → endpoint_at (self s') e = Some (g ep) →
     (∃ i t', tasks (self s) !! i = Some (Some t) ∧ tasks (self s') !! i = Some (Some t') ∧
        sleeps_on (IpcRecv e) (mem (hw s)) (mem (hw s')) t t') → Q (Blocked fp) s') →
  wp (_ ← block_at i (IpcRecv e) (trap_frame t); fp ← schedule (trap_frame t); mret (Blocked fp)) Q
    (mkTsys (with_endpoint e g (self s)) (hw s)).
Proof.
  intros Hk (i' & Hi' & Ht & Hp & Hrun & Hid) Hi Hep Hown Hgok Hgo Hgw HQ.
  assert (i' = i) as -> by congruence. clear Hi'. pose proof Hk as [[Hm _] Hsp].
  pose proof (space_layout _ _ (spaces_task _ _ Hsp i t Ht)) as Hlay.
  pose proof (endpoint_at_nonneg _ _ _ Hep) as He0.
  set (m := with_endpoint e g (self s)).
  apply wp_bind, block_at_wp with t; [done|done|]. intros h1 Hsp1 Hg1 Hh1. cbn [self hw].
  assert (tm_core (blocked i (IpcRecv e) m)) as Hc
    by (apply blocked_core with t; [by apply tm_core_with, mid_core|done|done|done]).
  assert (tasks (blocked i (IpcRecv e) m) !! i = Some (Some (sleep_task (IpcRecv e) t))) as Ht2
    by by apply alter_lookup.
  assert (current_index (blocked i (IpcRecv e) m) = Some i) as Hi2.
  { unfold current_index. cbn [blocked set_runnable_count set_tasks current_pid].
    change (current_pid m) with (current_pid (self s)). rewrite Hp. cbn [mbind option_bind].
    change (pid t) with (pid (sleep_task (IpcRecv e) t)). apply task_index_unique; [apply Hc|done]. }
  apply then_schedule; cbn [self hw]; [done| |done|].
  - intros e' ep' Hep'. change (endpoint_at m e' = Some ep') in Hep'.
    unfold m in Hep'. rewrite endpoint_at_with in Hep' by done. case_decide as E.
    + subst e'. rewrite Hep in Hep'. injection Hep' as <-. split; [done|].
      intros r Hr. rewrite Hgw in Hr. injection Hr as <-. split; [congruence|].
      by exists i, (sleep_task (IpcRecv e) t).
    + destruct (tm_endpoint _ Hm e' ep' Hep') as [Hok Hr']. split; [done|].
      apply (receiver_ok_kept (tasks (self s))); [|done].
      by apply (blocked_sleepers m i t (IpcRecv e)).
  - intros fp s' Hsw Hsch Hkeep. apply HQ; [done| |].
    + rewrite (scheduled_endpoint _ _ _ e Hsch). cbn [self]. change (endpoint_at m e = Some (g ep)).
      unfold m. rewrite endpoint_at_with, decide_True by done. exact (f_equal (fmap _) Hep).
    + destruct (blocked_sleeps (IpcRecv e) i t s _ s' Hkeep Ht2 Hi2 Hlay) as (t' & Ht' & Hsl).
      { cbn [hw]. rewrite Hh1. by apply (frame_self_save (hw s)). }
      by exists i, t'.
Qed.

(** [ipc_recv] fails and changes nothing, delivers the oldest queued message into the
    caller's registers, or blocks the caller as the endpoint's receiver. *)
Lemma ipc_recv_wp e s t :
  kernel_ok s → in_user s t →
  wp (ipc_recv e (trap_frame t)) (λ r s',
    match r with
    | Blocked fp => switched fp s' ∧
        ∃ ep, endpoint_at (self s) e = Some ep ∧ owner ep = pid t ∧ queue_list (pending ep) = [] ∧
          endpoint_at (self s') e = Some (set_waiting (Some (pid t)) ep) ∧
          ∃ i t', tasks (self s) !! i = Some (Some t) ∧ tasks (self s') !! i = Some (Some t') ∧
            sleeps_on (IpcRecv e) (mem (hw s)) (mem (hw s')) t t'
    | IpcError => s' = s ∧ ∀ ep, endpoint_at (self s) e = Some ep → owner ep ≠ pid t
    | Continue => kernel_ok s' ∧ in_user s' t ∧
        ∃ ep m q, endpoint_at (self s) e = Some ep ∧ owner ep = pid t ∧
          queue_list (pending ep) = m :: queue_list q ∧
          self s' = with_endpoint e (set_pending q) (self s) ∧
          hw s' = set_mem (message_mem (trap_frame t) (sender m) (words m)) (hw s) ∧
          has_message (mem (hw s')) t (sender m) (words m)
    end) s.
Proof.
  intros Hk (i & Hi & Ht & Hp & Hrun & Hid). pose proof Hk as [[Hm _] Hsp].
  pose proof (mid_core _ Hm) as Hc. pose proof (tm_mid_eps _ Hm) as Heps.
  pose proof (space_layout _ _ (spaces_task _ _ Hsp i t Ht)) as Hlay.
  unfold ipc_recv. apply wp_bind, wp_get_self. rewrite Hp.
  apply wp_bind, wp_get_self. destruct (endpoint_at (self s) e) as [ep|] eqn:Hep; [|by apply wp_ret].
  destruct (Z.eqb_spec (owner ep) (pid t)) as [Hown|Hown]; cbn [negb].
  2: { apply wp_ret. split; [done|]. by intros ep' [= <-]. }
  pose proof (endpoint_at_nonneg _ _ _ Hep) as He0. destruct (Heps e ep Hep) as [Hepok Hrcv].
  apply wp_bind, wp_ep_pop with ep; [done|apply Hepok|]. intros r q Hq Hr.
  set (m1 := with_endpoint e (set_pending q) (self s)).
  assert (tm_core m1) as Hc1 by by apply tm_core_with.
  assert (eps_ok m1) as He1.
  { apply eps_ok_with; [done|done|]. intros ep' Hep'. rewrite Hep in Hep'. injection Hep' as <-.
    split; [|done]. apply endpoint_ok_queue; [done|done|]. pose proof (ep_lens _ Hepok) as Hl. destruct r as [msg|].
    - rewrite Hr in Hl. by apply Forall_cons in Hl as [_ ?].
    - by destruct Hr as [_ ->]. }
  destruct r as [msg|].
  - apply wp_bind, wp_on_hw, set_message_wp, wp_ret. cbn [self hw].
    assert (spaces_ok (set_mem (message_mem (trap_frame t) (sender msg) (words msg)) (hw s))
              (tasks (self s))) as Hsp1.
    { apply (spaces_ok_frame_write _ _ i t); [done|done|].
      intros m a Hl Ha. by apply message_mem_out. }
    split; [by apply (kernel_ok_continue s)|]. split; [by exists i|].
    exists ep, msg, q. do 5 (split; [done|]). by apply message_mem_fields.
  - destruct Hr as [Hempty ->]. apply wp_bind, wp_upd_endpoint with (set_pending (pending ep) ep).
    { cbn [self]. unfold m1. by rewrite endpoint_at_with, decide_True, Hep. }
    cbn [self hw]. unfold m1. rewrite with_endpoint_twice.
    apply wp_bind, wp_get_self. cbn [self hw].
    assert (∀ g, current_index (with_endpoint e g (self s)) = Some i) as -> by done.
    assert (set_waiting (Some (pid t)) (set_pending (pending ep) ep) = set_waiting (Some (pid t)) ep) as E by by destruct ep.
    apply (blocking_recv_wp e s i t ep); [done|by exists i|done..| |done|done|].
    + rewrite E. by apply endpoint_ok_waiting.
    + intros fp s' Hsw Hep' Hsl. rewrite E in Hep'. split; [done|]. by exists ep.
Qed.

(** The client of a reply is found exactly when it waits on an endpoint of the
    replier. *)
Definition reply_slot (m : TaskManager) (client : Z) (i : nat) (t : Task) : Prop :=
  tasks m !! i = Some (Some t) ∧ pid t = client ∧
  ∃ e ep, waiting_for t = Some (IpcCall e) ∧ endpoint_at m e = Some ep ∧
    current_pid m = Some (owner ep).
Lemma reply_target_wp client s Q :
  unique_pids (tasks (self s)) →
  (∀ i t, reply_slot (self s) client i t → Q (Ok i) s) →
  ((∀ i t, ¬ reply_slot (self s) client i t) → Q Err s) → wp (reply_target client) Q s.
Proof.
  intros Hun HOk HErr. unfold reply_target. apply wp_try_bind, wp_bind, wp_get_self, wp_ret.
  destruct (current_pid (self s)) as [p|] eqn:Hp; cbn [ok_or].
  2: { apply HErr. intros i t (_ & _ & e & ep & _ & _ & E). congruence. }
  apply wp_bind, wp_get_self. destruct (task_index _ client) as [i|] eqn:Ei.
  2: { apply wp_ret, HErr. intros i t (Ht & <- & _). by rewrite (task_index_unique _ i t) in Ei. }
  destruct (task_index_Some _ _ _ Ei) as (t & Ht & Hpt).
  assert (∀ j u, reply_slot (self s) client j u → u = t) as Hsame.
  { intros j u (Hu & Hpu & _). assert (j = i) as -> by (apply (Hun j i u t); congruence).
    rewrite Ht in Hu. by injection Hu. }
  apply wp_bind, wp_task_at with t; [done|].
  destruct (waiting_for t) as [[| |e|]|] eqn:Ew;
    try (apply wp_ret, HErr; intros j u Hu; pose proof (Hsame j u Hu) as ->;
         destruct Hu as (_ & _ & ? & ? & ? & _); congruence).
  apply wp_bind, wp_get_self. destruct (endpoint_at (self s) e) as [ep|] eqn:Hep.
  2: { apply wp_ret, HErr. intros j u Hu. pose proof (Hsame j u Hu) as ->.
       destruct Hu as (_ & _ & ? & ? & ? & ? & _). congruence. }
  destruct (Z.eqb_spec (owner ep) p) as [<-|Hne].
  - apply wp_ret, (HOk i t). split; [done|]. split; [done|]. by exists e, ep.
  - apply wp_ret, HErr. intros j u Hu. pose proof (Hsame j u Hu) as ->.
    destruct Hu as (_ & _ & ? & ? & ? & ? & ?). congruence.
Qed.

(** Waking a sleeper that is no receiver keeps the invariant. *)
Lemma woken_ok s i c h :
  kernel_ok s → tasks (self s) !! i = Some (Some c) → state c = Sleeping →
  (∀ e, waiting_for c ≠ Some (IpcRecv e)) → spaces_ok h (tasks (self s)) →
  kernel_ok (mkTsys (woken i (self s)) h).
Proof.
  intros [[Hm Hcur] _] Hi Hs Hw Hsp. pose proof (mid_core _ Hm) as Hc.
  split; [split; [split|]|]; cbn [self hw].
  - by apply (woken_core _ _ c).
  - apply (woken_eps _ _ c); [by apply tm_mid_eps|done|done].
  - destruct (current_pid_of _ _ Hcur) as (j & u & Hj & Hu & Hpu & Hsu). exists j, u.
    assert (i ≠ j) as Hne by (intros ->; congruence).
    assert (tasks (woken i (self s)) !! j = Some (Some u)) as Hu'
      by (cbn; by rewrite alter_lookup_other).
    split; [|done]. unfold current_index. cbn [woken set_runnable_count set_tasks current_pid].
    rewrite Hpu. apply task_index_unique; [apply (woken_core _ _ c Hc Hi Hs)|done].
  - apply (spaces_ok_slots _ (tasks (self s))); [by apply same_slots_alter|done].
Qed.

(** The one who wakes a sleeper runs on. *)
Lemma woken_user s i c t h :
  kernel_ok (mkTsys (woken i (self s)) h) → in_user s t → tasks (self s) !! i = Some (Some c) → state c = Sleeping →
  in_user (mkTsys (woken i (self s)) h) t.
Proof.
  intros Hk (j & Hj & Ht & Hp & Hrun & Hid) Hi Hc. assert (i ≠ j) as Hne by (intros ->; congruence).
  assert (tasks (woken i (self s)) !! j = Some (Some t)) as Ht' by (cbn; by rewrite alter_lookup_other).
  exists j. split; [|done]. unfold current_index. cbn [self]. change (current_pid (woken i (self s))) with (current_pid (self s)).
  rewrite Hp. apply task_index_unique; [apply Hk|done].
Qed.

(** [ipc_reply] wakes the client with the reply in its registers, or fails. *)
Lemma ipc_reply_wp client ws s :
  kernel_ok s →
  wp (ipc_reply client ws) (λ r s',
    match r with
    | Ok _ => kernel_ok s' ∧ current_pid (self s') = current_pid (self s) ∧
        ∃ i c, reply_slot (self s) client i c ∧ state c = Sleeping ∧
          self s' = woken i (self s) ∧ hw s' = set_mem (reply_mem (trap_frame c) ws) (hw s)
    | Err => s' = s ∧ ∀ i c, reply_slot (self s) client i c → state c ≠ Sleeping
    end) s.
Proof.
  intros Hk. pose proof Hk as [[Hm Hcur] Hsp].
  pose proof (mid_core _ Hm) as Hc. pose proof (tm_mid_eps _ Hm) as Heps.
  unfold ipc_reply. apply wp_try_bind, reply_target_wp; [apply Hc| |].
  2: { intros Hno. split; [done|]. intros i c Hr. by apply Hno in Hr. }
  intros i c Hslot. pose proof Hslot as (Hi & Hpc & e & ep & Hw & Hep & Hown).
  apply wp_bind, wp_task_at with c; [done|].
  case_bool_decide as Hs; cbn [negb].
  2: { apply wp_ret. split; [done|]. intros j u (Hu & Hpu & _).
       assert (j = i) as -> by (apply (tm_pids _ Hc j i u c); congruence). congruence. }
  apply wp_bind, wp_on_hw, set_reply_wp. cbn [self hw].
  apply wp_bind, wake_at_wp with c; [done|]. apply wp_ret. cbn [self hw].
  split; [|split; [done|by exists i, c]].
  apply (woken_ok s i c); [done|done|done|intros e' E; congruence|].
  apply (spaces_ok_frame_write _ _ i c); [done|done|].
  intros m a Hl Ha. by apply reply_mem_out.
Qed.
End operations.
