(* ===== verification/ProcFacts.v ===== *)
(** Process life cycle in [Task.v]: [waitpid], [exit_current] and the UART interrupt
    keep the kernel invariant and do what they promise. *)

From S2P Require Import Prelude Arch Page Memory Machine Pgtable Vm Trap Ipc Task Space Sched Inv IpcFacts.

Section tables.
Implicit Types (s : tsys) (t : Task) (ts : list (option Task)) (m : TaskManager).

(** Emptying a zombie's slot. *)
Lemma tm_core_remove m i t :
  tm_core m → tasks m !! i = Some (Some t) → active_state (state t) = false →
  tm_core (set_tasks (<[i := None]>) m).
Proof.
  intros Hm Ht Hs.
  assert (∀ j u, <[i:=None]> (tasks m) !! j = Some (Some u) → j ≠ i ∧ tasks m !! j = Some (Some u)) as Hj.
  { intros j u E. destruct (decide (j = i)) as [->|Hne].
    - rewrite list_lookup_insert_eq in E by by eapply lookup_lt_Some. done.
    - by rewrite list_lookup_insert_ne in E. }
  split; cbn [set_tasks tasks endpoints current_pid runnable_count].
  - rewrite length_insert. apply Hm.
  - apply Hm.
  - apply (unique_pids_sub (tasks m)); [|apply Hm]. intros j u [_ E]%Hj. by exists u.
  - destruct (tm_idle _ Hm) as (j & u & Hju & Hp & Ha). exists j, u.
    rewrite list_lookup_insert_ne; [done|]. intros ->. congruence.
  - intros j u [_ E]%Hj. by apply (tm_running _ Hm j).
  - rewrite (count_put _ _ _ (Some t)) by done. rewrite (tm_count _ Hm). cbn. rewrite Hs.
    rewrite andb_false_r. cbn. lia.
Qed.
Lemma sleepers_kept_remove ts i t :
  ts !! i = Some (Some t) → state t ≠ Sleeping → sleepers_kept ts (<[i := None]> ts).
Proof.
  intros Ht Hs j u Hu Hsl. exists u. rewrite list_lookup_insert_ne; [done|]. intros ->. congruence.
Qed.

(** A change of every task that keeps PIDs and states. *)
Definition map_slot (g : Task → Task) (slot : option Task) : option Task := g <$> slot.
Lemma tm_core_map m (g : Task → Task) :
  (∀ t, pid (g t) = pid t ∧ state (g t) = state t) → tm_core m →
  tm_core (set_tasks (fmap (map_slot g)) m).
Proof.
  intros Hg Hm.
  assert (∀ j u, (map_slot g <$> tasks m) !! j = Some (Some u) →
    ∃ t, tasks m !! j = Some (Some t) ∧ u = g t) as Hj.
  { intros j u. rewrite list_lookup_fmap. destruct (tasks m !! j) as [[t|]|]; [|done..].
    intros [= <-]. by exists t. }
  split; cbn [set_tasks tasks endpoints current_pid runnable_count].
  - rewrite length_fmap. apply Hm.
  - apply Hm.
  - apply (unique_pids_sub (tasks m)); [|apply Hm]. intros j u (t & Ht & ->)%Hj. exists t.
    split; [done|]. apply Hg.
  - destruct (tm_idle _ Hm) as (j & u & Hju & Hp & Ha). exists j, (g u).
    rewrite list_lookup_fmap, Hju. cbn. destruct (Hg u) as [-> ->]. done.
  - intros j u (t & Ht & ->)%Hj. destruct (Hg t) as [-> ->]. by apply (tm_running _ Hm j).
  - rewrite countb_fmap, (tm_count _ Hm). apply countb_ext. intros [t|] _; [|done].
    cbn. by destruct (Hg t) as [-> ->].
Qed.
Lemma same_slots_map ts (g : Task → Task) :
  (∀ t, same_space t (g t)) → same_slots ts (map_slot g <$> ts).
Proof.
  intros Hg j u. rewrite list_lookup_fmap. destruct (ts !! j) as [[t|]|]; [|done..].
  intros [= <-]. exists t. split; [done|]. apply Hg.
Qed.
Lemma sleepers_kept_map ts (g : Task → Task) :
  (∀ t, pid (g t) = pid t ∧ state (g t) = state t ∧ waiting_for (g t) = waiting_for t) →
  sleepers_kept ts (map_slot g <$> ts).
Proof.
  intros Hg j u Hu Hs. exists (g u). rewrite list_lookup_fmap, Hu. destruct (Hg u) as (Hp & Hst & Hw).
  split; [done|]. split; [done|]. split; [congruence|done].
Qed.

(** Dispatching when nobody runs. *)
Lemma dispatched_idle_core m i t :
  tm_core m → (∀ j u, tasks m !! j = Some (Some u) → state u ≠ Running) →
  tasks m !! i = Some (Some t) → state t = Ready → tm_core (dispatched i t m).
Proof.
  intros Hm Hnr Ht Hs. split; cbn [dispatched set_current_pid set_tasks tasks endpoints current_pid runnable_count].
  - rewrite length_alter. apply Hm.
  - apply Hm.
  - apply unique_pids_alter; [done|apply Hm].
  - destruct (tm_idle _ Hm) as (j & u & Hj & Hp & Ha). destruct (decide (i = j)) as [->|Hne].
    + eexists j, _. split; [by apply alter_lookup|]. rewrite Ht in Hj. by injection Hj as <-.
    + exists j, u. by rewrite alter_lookup_other.
  - intros j t' (u & Hu & ->)%alter_lookup_Some Hr. case_decide as E; [|by apply Hnr in Hu].
    subst j. rewrite Ht in Hu. by injection Hu as <-.
  - rewrite (count_alter _ _ t) by done. rewrite (tm_count _ Hm). cbn. rewrite Hs. cbn. lia.
Qed.
Lemma dispatched_idle_ok m i t :
  tm_mid m → (∀ j u, tasks m !! j = Some (Some u) → state u ≠ Running) →
  tasks m !! i = Some (Some t) → state t = Ready →
  tm_ok (dispatched i t m) ∧ current_is (dispatched i t m) (λ u, trap_frame u = trap_frame t).
Proof.
  intros Hm Hnr Ht Hs. pose proof (dispatched_idle_core m i t Hm Hnr Ht Hs) as Hc.
  destruct (dispatched_current m i t Hc Ht) as [Hci Hti].
  split; [split; [apply tm_mid_intro; [done|]|]|]; [|by exists i, (set_state Running t)..].
  apply (eps_ok_kept m); [done| |by apply tm_mid_eps].
  apply sleepers_kept_alter with t; [done|]. by rewrite Hs.
Qed.

(** The search at the end of [exit_current] always finds a task to run. *)
Lemma exit_next_wp s :
  kernel_mid s → (∀ j u, tasks (self s) !! j = Some (Some u) → state u ≠ Running) →
  wp exit_next (λ o s', ∃ fp, o = Some fp ∧ switched fp s' ∧
    endpoints (self s') = endpoints (self s) ∧ hw s' = hw s ∧
    ∀ j u, tasks (self s) !! j = Some (Some u) →
      tasks (self s') !! j = Some (Some u) ∨
      state u = Ready ∧ tasks (self s') !! j = Some (Some (set_state Running u))) s.
Proof.
  intros [Hm Hsp] Hnr. unfold exit_next. apply wp_bind, wp_get_self.
  assert (∀ i t, tasks (self s) !! i = Some (Some t) → state t = Ready →
    switched (trap_frame t) (mkTsys (dispatched i t (self s)) (hw s))) as Hsw.
  { intros i t Ht Hs. destruct (dispatched_idle_ok _ i t Hm Hnr Ht Hs) as [Hok Hcur].
    split; [split; [done|]|done]. apply (spaces_ok_slots _ (tasks (self s))); [|done].
    by apply same_slots_alter. }
  assert (∀ i t j u, tasks (self s) !! i = Some (Some t) → state t = Ready →
    tasks (self s) !! j = Some (Some u) →
    tasks (dispatched i t (self s)) !! j = Some (Some u) ∨
    state u = Ready ∧ tasks (dispatched i t (self s)) !! j = Some (Some (set_state Running u))) as Hother.
  { intros i t j u Ht Hs Hj. cbn. destruct (decide (i = j)) as [->|].
    - right. rewrite Ht in Hj. injection Hj as ->. split; [done|]. by apply alter_lookup.
    - left. by rewrite alter_lookup_other. }
  destruct (position runnable (tasks (self s))) as [i|] eqn:E.
  - apply position_Some in E as [([t|] & Ht & Hr) _]; [|done].
    cbn in Hr. apply andb_true_iff in Hr as [_ Hs%bool_decide_eq_true].
    apply wp_bind, wp_dispatch with t; [done|]. apply wp_ret. eexists. split; [done|].
    split; [by apply Hsw|]. do 2 (split; [done|]). intros j u. by apply Hother.
  - apply dispatch_idle_wp. destruct (tm_idle _ Hm) as (i & t & Ht & Hp & Ha).
    rewrite <- Hp, (task_index_unique _ i t) by (done || apply (mid_core _ Hm)).
    intros u Hu. rewrite Ht in Hu. injection Hu as <-.
    assert (state t = Ready) as Hs
      by (specialize (Hnr i t Ht); destruct (state t); (done || congruence)).
    eexists. split; [done|]. split; [by apply Hsw|]. do 2 (split; [done|]). intros j u. by apply Hother.
Qed.
End tables.

Section lifecycle.
Implicit Types (s : tsys) (t : Task).

(** [waitpid] reaps a dead child and releases its memory, blocks while it lives, and
    fails when there is no such child. *)
Lemma waitpid_wp p s t :
  kernel_ok s → in_user s t →
  wp (waitpid p (trap_frame t)) (λ r s',
    match r with
    | Reaped code => kernel_ok s' ∧ in_user s' t ∧
        ∃ i c, tasks (self s) !! i = Some (Some c) ∧ pid c = p ∧ parent_pid c = Some (pid t) ∧
          state c = Zombie ∧ code = exit_code c ∧
          self s' = set_tasks (<[i := None]>) (self s) ∧
          ∀ b, is_alloc (hw s') b ↔ is_alloc (hw s) b ∧ ¬ owns (mem (hw s)) c b
    | WaitBlocked fp => switched fp s' ∧
        (∃ j c, tasks (self s) !! j = Some (Some c) ∧ pid c = p ∧ parent_pid c = Some (pid t) ∧
          state c ≠ Zombie) ∧
        ∃ i t', tasks (self s) !! i = Some (Some t) ∧ tasks (self s') !! i = Some (Some t') ∧
          sleeps_on (Child p) (mem (hw s)) (mem (hw s')) t t'
    | WaitError => s' = s ∧
        ∀ j c, tasks (self s) !! j = Some (Some c) → pid c = p → parent_pid c ≠ Some (pid t)
    end) s.
Proof.
  intros Hk (i & Hi & Ht & Hp & Hrun & Hid). pose proof Hk as [[Hm _] Hsp].
  pose proof (mid_core _ Hm) as Hc. pose proof (tm_mid_eps _ Hm) as Heps.
  unfold waitpid. apply wp_bind, wp_get_self. rewrite Hp.
  rewrite bool_decide_false by congruence.
  apply wp_bind, wp_get_self. destruct (position _ _) as [j|] eqn:Ej.
  2: { apply wp_ret. split; [done|]. intros j c Hj Hcp Hpar. rewrite position_None in Ej.
       specialize (Ej j _ Hj). cbn in Ej. rewrite Hcp, Z.eqb_refl, bool_decide_true in Ej; done. }
  apply position_Some in Ej as [([c|] & Hj & Hch) _]; [|done].
  cbn in Hch. apply andb_true_iff in Hch as [Hcp%Z.eqb_eq Hpar%bool_decide_eq_true].
  apply wp_bind, wp_task_at with c; [done|]. case_bool_decide as Hz.
  - assert (j ≠ i) as Hne by (intros ->; congruence).
    apply wp_bind, wp_put_task; [by eapply lookup_lt_Some|]. cbn [self hw].
    apply wp_bind, wp_on_hw. cbn [self hw].
    eapply wp_mono; [by apply (free_slot_wp (hw s) (tasks (self s)) j c)|].
    intros _ h (Hsp' & Hg & _ & Hal). apply wp_ret.
    assert (current_index (set_tasks (<[j:=None]>) (self s)) = Some i) as Hi'.
    { unfold current_index. cbn [set_tasks current_pid tasks]. rewrite Hp. cbn [mbind option_bind].
      apply task_index_unique.
      - apply (tm_core_remove _ j c Hc Hj). by rewrite Hz.
      - by rewrite list_lookup_insert_ne. }
    assert (<[j:=None]> (tasks (self s)) !! i = Some (Some t)) as Ht'
      by (by rewrite list_lookup_insert_ne).
    split; [split; [split|done]|].
    + apply tm_mid_intro; [apply (tm_core_remove _ j c Hc Hj); by rewrite Hz|].
      apply (eps_ok_kept (self s)); [done| |done].
      apply (sleepers_kept_remove _ _ c); [done|]. by rewrite Hz.
    + by exists i, t.
    + split; [by exists i|]. exists j, c. done.
  - apply wp_bind, wp_get_self. rewrite Hi.
    apply wp_bind, block_at_wp with t; [done|done|]. intros h1 Hsp1 Hg1 Hh1.
    pose proof (blocked_core (self s) i t (Child p) Hc Ht Hrun Hid) as Hc1.
    apply then_schedule; cbn [self hw]; [done| |done|].
    + apply (eps_ok_kept (self s)); [done| |done]. by apply (blocked_sleepers _ _ t).
    + intros fp s' Hsw Hsch Hkeep. split; [done|]. split; [by exists j, c|].
      destruct (block_sleeps (Child p) i t s h1 s') as (t' & Ht' & Hsl); [done|done|done| | |done|].
      * apply (spaces_task _ _ Hsp i t Ht).
      * by rewrite Hh1.
      * by exists i, t'.
Qed.

(** [wait_uart_irq] blocks the UART's owner and unmasks the interrupt. *)
Lemma wait_uart_irq_wp s t :
  kernel_ok s → in_user s t →
  wp (wait_uart_irq (trap_frame t)) (λ r s',
    match r with
    | Ok fp => uart_owner (self s) = Some (pid t) ∧ switched fp s' ∧
        ∃ i t', tasks (self s) !! i = Some (Some t) ∧ tasks (self s') !! i = Some (Some t') ∧
          sleeps_on UartRx (mem (hw s)) (mem (hw s')) t t'
    | Err => uart_owner (self s) ≠ Some (pid t) ∧ s' = s
    end) s.
Proof.
  intros Hk (i & Hi & Ht & Hp & Hrun & Hid). pose proof Hk as [[Hm _] Hsp].
  pose proof (mid_core _ Hm) as Hc. pose proof (tm_mid_eps _ Hm) as Heps.
  unfold wait_uart_irq. apply wp_bind, wp_get_self, wp_bind, wp_get_self. rewrite Hp.
  rewrite bool_decide_false by (unfold IDLE_PID in Hid; congruence). cbn [orb].
  case_bool_decide as Ho; cbn [negb]; [|by apply wp_ret; split; [congruence|]].
  apply wp_bind, wp_get_self. rewrite Hi.
  apply wp_bind, block_at_wp with t; [done|done|]. intros h1 Hsp1 Hg1 Hh1.
  pose proof (blocked_core (self s) i t UartRx Hc Ht Hrun Hid) as Hc1.
  apply wp_bind, wp_on_hw. unfold plic_enable.
  apply wp_bind, wp_gets, wp_modify. cbn [self hw].
  apply then_schedule; cbn [self hw]; [done| | |].
  - apply (eps_ok_kept (self s)); [done| |done]. by apply (blocked_sleepers _ _ t).
  - by apply (spaces_ok_mem h1).
  - intros fp s' Hsw Hsch Hkeep. split; [done|]. split; [done|].
    match type of Hkeep with sched_keeps _ (mkTsys _ ?h) _ => set (h2 := h) in * end.
    destruct (block_sleeps UartRx i t s h2 s') as (t' & Ht' & Hsl); [done|done|done| | |done|].
    + apply (spaces_task _ _ Hsp i t Ht).
    + unfold h2. by rewrite Hh1.
    + by exists i, t'.
Qed.
End lifecycle.

(** ** exit *)

Definition zombie_task (code : Z) (t : Task) : Task := set_exit_code code (set_state Zombie t).
Definition orphan_task (p : Z) (t : Task) : Task :=
  if bool_decide (parent_pid t = Some p) then set_parent_pid None t else t.
(** The manager after the exiting task's own update. *)
Definition exited (i : nat) (code p : Z) (m : TaskManager) : TaskManager :=
  set_tasks (fmap (orphan p))
    (set_runnable_count (λ n, u32 (n - 1)) (set_tasks (alter (fmap (zombie_task code)) i) m)).

Section exit.
Implicit Types (s : tsys) (t : Task).

Lemma orphan_fields p t :
  pid (orphan_task p t) = pid t ∧ state (orphan_task p t) = state t ∧
  waiting_for (orphan_task p t) = waiting_for t ∧ exit_code (orphan_task p t) = exit_code t.
Proof. unfold orphan_task. by case_bool_decide. Qed.
Lemma exited_lookup i code p m j u :
  tasks (exited i code p m) !! j = Some (Some u) →
  ∃ t, tasks m !! j = Some (Some t) ∧
    u = orphan_task p (if decide (i = j) then zombie_task code t else t).
Proof.
  cbn. rewrite list_lookup_fmap. intros (slot & E & Hu)%fmap_Some.
  destruct slot as [v|]; [|done]. apply alter_lookup_Some in E as (t & Ht & ->).
  injection Hu as ->. by exists t.
Qed.
Lemma exited_self i code p m t :
  tasks m !! i = Some (Some t) →
  tasks (exited i code p m) !! i = Some (Some (orphan_task p (zombie_task code t))).
Proof. intros H. cbn. rewrite list_lookup_fmap, (alter_lookup _ _ _ _ H). done. Qed.

Lemma exited_core i code p m t :
  tm_core m → tasks m !! i = Some (Some t) → state t = Running → pid t ≠ IDLE_PID →
  tm_core (exited i code p m).
Proof.
  intros Hm Ht Hs Hp.
  assert (active (Some t) = true) as Ha by (cbn; rewrite Hs, (proj2 (Z.eqb_neq _ _) Hp); done).
  pose proof (count_active_pos _ _ _ Ht Ha) as Hpos.
  pose proof (count_bound _ (tm_len _ Hm)) as Hb. rewrite <- (tm_count _ Hm) in Hpos, Hb.
  apply (tm_core_map _ (orphan_task p)).
  { intros u. destruct (orphan_fields p u) as (? & ? & _). done. }
  pose proof (tm_core_update m i t (zombie_task code) (u32 (runnable_count m - 1)) Hm Ht) as H.
  apply H; [done|done|done|]. unfold u32. rewrite Z.mod_small by lia.
  rewrite Ha. cbn. rewrite andb_false_r. cbn. lia.
Qed.
Lemma exited_eps i code p m t :
  eps_ok m → tasks m !! i = Some (Some t) → state t = Running → eps_ok (exited i code p m).
Proof.
  intros Hm Ht Hs. apply (eps_ok_kept m); [done| |done].
  apply sleepers_kept_trans with (alter (fmap (zombie_task code)) i (tasks m)).
  - apply sleepers_kept_alter with t; [done|]. by rewrite Hs.
  - apply (sleepers_kept_map _ (orphan_task p)). intros u.
    by destruct (orphan_fields p u) as (? & ? & ? & _).
Qed.
Lemma exited_slots i code p m : same_slots (tasks m) (tasks (exited i code p m)).
Proof.
  apply same_slots_trans with (alter (fmap (zombie_task code)) i (tasks m)).
  - by apply same_slots_alter.
  - apply (same_slots_map _ (orphan_task p)). intros t. unfold orphan_task. by case_bool_decide.
Qed.
Lemma exited_not_running i code p m t j u :
  tm_core m → tasks m !! i = Some (Some t) → current_pid m = Some (pid t) →
  tasks (exited i code p m) !! j = Some (Some u) → state u ≠ Running.
Proof.
  intros Hm Ht Hp (v & Hv & ->)%exited_lookup. destruct (orphan_fields p
    (if decide (i = j) then zombie_task code v else v)) as (_ & -> & _).
  case_decide as E; [done|]. intros Hr. apply E.
  pose proof (tm_running _ Hm j v Hv Hr) as Hpv. apply (tm_pids _ Hm i j t v Ht Hv). congruence.
Qed.

(** What the exit of child [p] in slot [i] means to its parent [u] in slot [j]: if [u] waits for the
    child it can run again with the exit code in [a0], and the zombie is left to the scheduler to
    reap; otherwise the zombie stays [u]'s child. *)
Definition waits_child (p : Z) (u : Task) : bool :=
  bool_decide (state u = Sleeping) && bool_decide (waiting_for u = Some (Child p)).
Definition parent_told (code p : Z) (i j : nat) (u : Task) (s' : tsys) : Prop :=
  ∃ z, tasks (self s') !! i = Some (Some z) ∧
    if waits_child p u then
      parent_pid z = None ∧ tf_a0 (frame_at (mem (hw s')) (trap_frame u)) = u64 code ∧
      ∃ u', tasks (self s') !! j = Some (Some u') ∧ pid u' = pid u ∧ same_space u u' ∧
        active_state (state u') = true ∧ waiting_for u' = None
    else parent_pid z = Some (pid u).

(** A state between the exit and the switch: nobody runs, and slot [i] is the zombie. *)
Record exit_mid (i : nat) (code p : Z) (eps : list (option Endpoint)) (s : tsys) : Prop := {
  em_mid : kernel_mid s;
  em_idle j u : tasks (self s) !! j = Some (Some u) → state u ≠ Running;
  em_zombie : ∃ z, tasks (self s) !! i = Some (Some z) ∧ state z = Zombie ∧ exit_code z = code ∧ pid z = p;
  em_eps : endpoints (self s) = eps;
}.

Lemma parent_told_orphan code p i j u s' :
  parent_told code p i j (orphan_task p u) s' → parent_told code p i j u s'.
Proof. unfold parent_told, orphan_task. destruct (bool_decide (parent_pid u = Some p)); exact id. Qed.
Lemma exited_mid code s t i :
  kernel_ok s → tasks (self s) !! i = Some (Some t) → current_pid (self s) = Some (pid t) → state t = Running →
  pid t ≠ IDLE_PID → exit_mid i code (pid t) (endpoints (self s)) (mkTsys (exited i code (pid t) (self s)) (hw s)).
Proof.
  intros Hk Ht Hp Hrun Hid. pose proof Hk as [[Hm _] Hsp]. pose proof (mid_core _ Hm) as Hc. split; cbn [self hw].
  - split; cbn [self hw].
    + apply tm_mid_intro; [exact (exited_core i code (pid t) _ t Hc Ht Hrun Hid)|]. apply (exited_eps _ _ _ _ t); [by apply tm_mid_eps|done|done].
    + apply (spaces_ok_slots _ (tasks (self s))); [apply exited_slots|done].
  - intros j u Hj. by apply (exited_not_running i code (pid t) (self s) t j u).
  - eexists. split; [by apply exited_self|].
    destruct (orphan_fields (pid t) (zombie_task code t)) as (-> & -> & _ & ->). done.
  - done.
Qed.

Lemma alter_parent_core m c x :
  tm_core m → tm_core (set_tasks (alter (fmap (set_parent_pid x)) c) m).
Proof.
  intros Hm. destruct (tasks m !! c) as [[t|]|] eqn:Et.
  - pose proof (tm_core_update m c t (set_parent_pid x) (runnable_count m) Hm Et) as H.
    assert (tm_core (set_runnable_count (λ _, runnable_count m)
              (set_tasks (alter (fmap (set_parent_pid x)) c) m))) as H'.
    { apply H; try done; [|by cbn; lia]. intros Hp. destruct (tm_idle _ Hm) as (j & u & Hj & Hpu & Ha).
      assert (c = j) as -> by (apply (tm_pids _ Hm c j t u); congruence).
      rewrite Et in Hj. by injection Hj as <-. }
    by destruct m.
  - assert (alter (fmap (set_parent_pid x)) c (tasks m) = tasks m) as E.
    { apply list_eq. intros j. destruct (decide (j = c)) as [->|]; [by rewrite list_lookup_alter_eq, Et|].
      by rewrite list_lookup_alter_ne. }
    destruct m. unfold set_tasks in *. cbn in *. by rewrite E.
  - assert (alter (fmap (set_parent_pid x)) c (tasks m) = tasks m) as E.
    { apply list_eq. intros j. destruct (decide (j = c)) as [->|]; [by rewrite list_lookup_alter_eq, Et|].
      by rewrite list_lookup_alter_ne. }
    destruct m. unfold set_tasks in *. cbn in *. by rewrite E.
Qed.

(** Waking the parent, if it waits for this child. *)
Lemma wake_parent_wp j u p code i eps Q s :
  exit_mid i code p eps s → i ≠ j → tasks (self s) !! j = Some (Some u) →
  (∀ z, tasks (self s) !! i = Some (Some z) → parent_pid z = Some (pid u)) →
  (∀ s', exit_mid i code p eps s' → parent_told code p i j u s' → Q tt s') →
  wp (wake_parent j p code) Q s.
Proof.
  intros [[Hm Hsp] Hnr (z & Hz & Hzs & Hzc & Hzp) He] Hne Hj Hpar HQ. unfold wake_parent.
  pose proof (mid_core _ Hm) as Hc. pose proof (tm_mid_eps _ Hm) as Heps.
  apply wp_bind, wp_task_at with u; [done|]. fold (waits_child p u).
  destruct (waits_child p u) eqn:Ew.
  2: { apply wp_ret, HQ; [split; [by split|done|by exists z|done]|]. exists z. rewrite Ew. split; [done|]. by apply Hpar. }
  pose proof Ew as [Hs%bool_decide_eq_true Hw%bool_decide_eq_true]%andb_true_iff.
  apply wp_bind, wp_upd_task with u; [done|]. cbn [self hw].
  apply wp_bind, wp_upd_task with (set_state Ready u); [by apply alter_lookup|]. cbn [self hw].
  apply wp_bind, wp_on_hw, wp_modify. apply wp_bind, wp_upd_self. cbn [self hw].
  set (h := set_mem (λ m, store64 m (trap_frame u +' off_a0) (u64 code)) (hw s)).
  assert (set_runnable_count (λ n, u32 (n + 1))
            (set_tasks (alter (fmap (set_waiting_for None)) j)
               (set_tasks (alter (fmap (set_state Ready)) j) (self s))) = woken j (self s)) as ->.
  { unfold woken, set_runnable_count, set_tasks. cbn. by rewrite alter_alter. }
  assert (spaces_ok h (tasks (woken j (self s)))) as Hsp1.
  { apply (spaces_ok_slots _ (tasks (self s))); [by apply same_slots_alter|].
    apply (spaces_ok_frame_write _ _ j u); [done|done|].
    intros m a Hl Ha. apply (field_store_out u); [done|vm_compute; split; congruence|done]. }
  assert (tasks (woken j (self s)) !! i = Some (Some z)) as Hz1 by (cbn; by rewrite alter_lookup_other).
  assert (tasks (woken j (self s)) !! j = Some (Some (wake_task u))) as Hj1 by by apply alter_lookup.
  assert (∀ k v, tasks (woken j (self s)) !! k = Some (Some v) → state v ≠ Running) as Hnr1.
  { intros k v (w & Hw' & ->)%alter_lookup_Some. case_decide; [done|by apply (Hnr k)]. }
  assert (tm_core (woken j (self s))) as Hc1 by by apply (woken_core _ _ u).
  assert (eps_ok (woken j (self s))) as He1.
  { apply (woken_eps _ _ u); [done|done|]. intros e E. congruence. }
  apply wp_bind, wp_get_self. cbn [self hw].
  rewrite <- Hzp at 1. rewrite (task_index_unique _ i z) by (done || apply Hc1).
  apply wp_upd_task with z; [done|]. apply HQ; cbn [self hw].
  - split; cbn [self hw].
    + split; cbn [self hw].
      * apply tm_mid_intro; [by apply alter_parent_core|].
        apply (eps_ok_kept (woken j (self s))); [done| |done]. intros k x Hx Hxs.
        destruct (decide (i = k)) as [->|].
        -- exists (set_parent_pid None x). split; [by apply alter_lookup|done].
        -- exists x. cbn. by rewrite alter_lookup_other.
      * apply (spaces_ok_slots _ (tasks (woken j (self s)))); [by apply same_slots_alter|done].
    + intros k x (w & Hw' & ->)%alter_lookup_Some. pose proof (Hnr1 k w Hw'). by case_decide.
    + exists (set_parent_pid None z). split; [by apply alter_lookup|done].
    + done.
  - exists (set_parent_pid None z). rewrite Ew. split; [by apply alter_lookup|]. split; [done|]. split.
    + cbn [hw h mem set_mem frame_at tf_a0].
      destruct (frame_field u off_a0 (space_layout _ _ (spaces_task _ _ Hsp j u Hj)) ltac:(by vm_compute)) as [-> _].
      apply load64_store64_eq.
    + exists (wake_task u). split; [|done]. change (alter (fmap (set_parent_pid None)) i (tasks (woken j (self s))) !! j = Some (Some (wake_task u))). by rewrite alter_lookup_other.
Qed.

(** The whole of [exit_current] for a user task: it always finds another task to run, leaves a
    zombie with the exit code behind, and tells the parent. *)
Lemma exit_current_wp code s t i :
  kernel_ok s → in_user s t → current_index (self s) = Some i →
  wp (exit_current code) (λ o s', ∃ fp z, o = Some fp ∧ switched fp s' ∧
    tasks (self s') !! i = Some (Some z) ∧ state z = Zombie ∧ exit_code z = code ∧ pid z = pid t ∧
    (∀ j u, i ≠ j → tasks (self s) !! j = Some (Some u) → parent_pid t = Some (pid u) →
       parent_told code (pid t) i j u s') ∧
    endpoints (self s') = endpoints (self s)) s.
Proof.
  intros Hk (i' & Hi' & Ht & Hp & Hrun & Hid) Hi. rewrite Hi in Hi'. injection Hi' as <-.
  pose proof Hk as [[Hm _] Hsp]. pose proof (mid_core _ Hm) as Hc.
  unfold exit_current. apply wp_bind, wp_get_self. rewrite Hp, bool_decide_false by congruence.
  apply wp_bind, wp_get_self. rewrite Hi. apply wp_bind.
  set (eps := endpoints (self s)).
  set (told := λ s', ∀ j u, i ≠ j → tasks (self s) !! j = Some (Some u) → parent_pid t = Some (pid u) →
    parent_told code (pid t) i j u s').
  assert (∀ s1, exit_mid i code (pid t) eps s1 → told s1 →
    wp (_ ← upd_self (set_current_pid None); exit_next) (λ o s', ∃ fp z, o = Some fp ∧ switched fp s' ∧
      tasks (self s') !! i = Some (Some z) ∧ state z = Zombie ∧ exit_code z = code ∧ pid z = pid t ∧
      told s' ∧ endpoints (self s') = eps) s1) as Hrest.
  { intros s1 [[Hm1 Hsp1] Hnr (z & Hz & Hzs & Hzc & Hzp) He1] Htold. apply wp_bind, wp_upd_self.
    assert (kernel_mid (mkTsys (set_current_pid None (self s1)) (hw s1))) as Hk1.
    { split; cbn [self hw]; [|done]. destruct Hm1 as [[] He]. split; [split; try done|done].
      intros j u Hj Hr. by apply Hnr in Hj. }
    eapply wp_mono; [by apply exit_next_wp|]. intros o s2 (fp & -> & Hsw & He2 & Hh & Hother).
    assert (tasks (self s2) !! i = Some (Some z)) as Hz2
      by (destruct (Hother i z Hz) as [?|[Hr _]]; [done|congruence]).
    exists fp, z. do 6 (split; [done|]). split; [|rewrite He2; exact He1].
    intros j u Hne Hj Hpar. destruct (Htold j u Hne Hj Hpar) as (z' & Hz' & Hu). exists z'.
    rewrite Hz in Hz'. injection Hz' as <-. split; [done|]. destruct (waits_child _ _); [|done].
    destruct Hu as (Hpz & Ha0 & u' & Hu' & Hpu & Hss & Hact & Hw). split; [done|]. rewrite Hh. split; [done|].
    destruct (Hother j u' Hu') as [?|[_ ?]]; [by exists u'|]. by exists (set_state Running u'). }
  apply wp_bind, wp_upd_task with t; [done|]. cbn [self hw].
  apply wp_bind, wp_upd_task with (set_state Zombie t); [by apply alter_lookup|]. cbn [self hw].
  apply wp_bind, wp_task_at with (zombie_task code t).
  { apply (alter_lookup _ _ (set_exit_code code) (set_state Zombie t)). by apply alter_lookup. }
  apply wp_bind, wp_upd_self, wp_bind, wp_upd_self. cbn [self hw].
  assert (set_tasks (fmap (orphan (pid (zombie_task code t))))
            (set_runnable_count (λ n, u32 (n - 1))
               (set_tasks (alter (fmap (set_exit_code code)) i)
                  (set_tasks (alter (fmap (set_state Zombie)) i) (self s)))) =
          exited i code (pid t) (self s)) as ->.
  { unfold exited, set_runnable_count, set_tasks. cbn. by rewrite alter_alter. }
  pose proof (exited_core i code (pid t) _ t Hc Ht Hrun Hid) as Hc1.
  pose proof (exited_mid code s t i Hk Ht Hp Hrun Hid) as Hem. fold eps in Hem.
  cbn [parent_pid zombie_task set_exit_code set_state].
  destruct (parent_pid t) as [pp|] eqn:Hpp; [|by apply wp_ret, Hrest].
  apply wp_bind, wp_get_self. cbn [self hw].
  assert (∀ j u, i ≠ j → tasks (self s) !! j = Some (Some u) →
    tasks (exited i code (pid t) (self s)) !! j = Some (Some (orphan_task (pid t) u))) as Hex.
  { intros j u Hne Hj. cbn. by rewrite list_lookup_fmap, alter_lookup_other, Hj. }
  destruct (task_index _ pp) as [j|] eqn:Ej.
  2: { apply wp_ret, Hrest; [done|]. intros j u Hne Hj [= ->].
       destruct (orphan_fields (pid t) u) as (Hpu & _). rewrite <- Hpu in Ej.
       rewrite (task_index_unique _ j (orphan_task (pid t) u)) in Ej; [done|apply Hc1|by apply Hex]. }
  destruct (task_index_Some _ _ _ Ej) as (v & Hv & Hpv). destruct (decide (i = j)) as [<-|Hne].
  - unfold wake_parent. apply wp_bind, wp_task_at with v; [done|].
    rewrite (exited_self i code (pid t) _ t Ht) in Hv. injection Hv as <-.
    destruct (orphan_fields (pid t) (zombie_task code t)) as (Hpo & -> & _). apply wp_ret, Hrest; [done|].
    intros j u Hne Hj [= ->]. exfalso. apply Hne. apply (tm_pids _ Hm i j t u); [done|done|].
    by rewrite <- Hpv, Hpo.
  - destruct (exited_lookup i code (pid t) (self s) j v Hv) as (u & Hu & ->). rewrite decide_False in * by done.
    destruct (orphan_fields (pid t) u) as (Hpu & _). rewrite Hpu in Hpv.
    apply (wake_parent_wp j (orphan_task (pid t) u) (pid t) code i eps); [done|done|exact Hv| |].
    + intros z Hz. cbn [self] in Hz. rewrite (exited_self i code (pid t) _ t Ht) in Hz. injection Hz as <-.
      unfold orphan_task at 1. rewrite bool_decide_false; [cbn; congruence|]. cbn. rewrite Hpp. intros [= E].
      apply Hne, (tm_pids _ Hm i j t u); [done|done|congruence].
    + intros s' Hm' Htold. apply Hrest; [done|]. intros j' u' Hne' Hj' [= E].
      assert (j' = j) as -> by (apply (tm_pids _ Hm j' j u' u); [done|done|congruence]).
      rewrite Hu in Hj'. injection Hj' as <-. by apply parent_told_orphan.
Qed.
End exit.
