(* ===== verification/Create.v ===== *)
(** Creating tasks: [create_idle] and [create_user_image] of [Task.v] either add a
    task whose address space joins the memory invariant, or give every page back.

    [extends h h'] is what such an operation may do to the rest of the machine: pages
    allocated in [h] stay allocated and keep their contents. *)

From S2P Require Import Prelude Arch Page Memory Machine Pgtable Vm Trap Ipc Task Space Sched Inv.

Record extends (h h' : mach) : Prop := {
  ext_pages : pages_wf h';
  ext_globals : same_globals h h';
  ext_alloc b : is_alloc h b → is_alloc h' b;
  ext_mem b a : is_alloc h b → in_page b a → load64 (mem h') a = load64 (mem h) a;
}.

Section extension.
Implicit Types (h : mach) (t : Task) (ts : list (option Task)).

Lemma wp_and {S A} (m : st S A) (Q1 Q2 : A → S → Prop) s :
  wp m Q1 s → wp m Q2 s → wp m (λ a s', Q1 a s' ∧ Q2 a s') s.
Proof. unfold wp. by destruct (m s) as [[]| |]. Qed.

Lemma extends_refl h : pages_wf h → extends h h.
Proof. by split. Qed.
Lemma extends_trans h1 h2 h3 : extends h1 h2 → extends h2 h3 → extends h1 h3.
Proof.
  intros [? Hg1 Ha1 Hm1] [? Hg2 Ha2 Hm2]. split; [done|by eapply same_globals_trans|auto|].
  intros b a Hb Hin. rewrite (Hm2 b a) by auto. by apply (Hm1 b).
Qed.
(** The tasks' tables are untouched and their pages still allocated. *)
Lemma spaces_ok_frame h h' ts :
  pages_wf h' → (∀ i t, ts !! i = Some (Some t) → tables_same h h' t) →
  (∀ i t b, ts !! i = Some (Some t) → owns (mem h) t b → is_alloc h' b) →
  spaces_ok h ts → spaces_ok h' ts.
Proof.
  intros Hp Hts Ha [_ Ht Hal Hd Hx]. split; [done|..].
  - intros i t E. apply (space_ok_frame h); [by apply (Hts i)|done| |by apply (Ht i)].
    intros b Hb. apply (Ha i t); [done|left; by left].
  - intros i t b E. rewrite (owns_frame h h' t) by by apply (Hts i). by apply (Ha i).
  - intros i j t t' b E E'. rewrite (owns_frame h h' t) by by apply (Hts i).
    rewrite (owns_frame h h' t') by by apply (Hts j). by apply Hd.
  - intros i t va E. rewrite (maps_frame h h' t) by by apply (Hts i). by apply (Hx i).
Qed.
Lemma spaces_ok_extends h h' ts : extends h h' → spaces_ok h ts → spaces_ok h' ts.
Proof.
  intros [Hp _ Ha Hm] H. apply (spaces_ok_frame h); [done| | |done].
  - intros i t E b a Hb Hin. apply (Hm b); [|done]. apply (spaces_alloc _ _ H i t b E). left. by left.
  - intros i t b E Hb. by apply Ha, (spaces_alloc _ _ H i t).
Qed.

(** The steps that build something out of fresh pages, relative to a first state [h0]. *)
Lemma extends_grows h0 s s' root :
  extends h0 s → pt_grows s s' root → (∀ b, is_table (mem s) root b → ¬ is_alloc h0 b) →
  extends h0 s' ∧ ∀ b, is_table (mem s') root b → ¬ is_alloc h0 b.
Proof.
  intros [Hp Hg Ha Hm] H Hnew.
  assert (∀ b, is_table (mem s') root b → ¬ is_alloc h0 b) as Hnew'.
  { intros b Hb. destruct (grows_tables_new _ _ _ H b Hb) as [Hb'|Hb']; [by apply Hnew|]. auto. }
  split; [|done]. split.
  - apply H.
  - eapply same_globals_trans; [done|apply H].
  - intros b Hb. by apply (grows_alloc _ _ _ H), Ha.
  - intros b a Hb Hin. rewrite (grows_frame _ _ _ H a); [by apply (Hm b)|].
    intros t Ht Hin'. apply (Hnew' t Ht).
    assert (is_alloc s' t) as Hta by by apply (grows_owned _ _ _ H).
    assert (is_alloc s' b) as Hba by by apply (grows_alloc _ _ _ H), Ha.
    apply is_alloc_aligned in Hta as [Hta _]; [|apply H].
    apply is_alloc_aligned in Hba as [Hba _]; [|apply H].
    by rewrite (pages_apart t b a).
Qed.
Lemma extends_write h0 h p f :
  extends h0 h → is_alloc h p → ¬ is_alloc h0 p →
  (∀ m a, ¬ in_page p a → load64 (f m) a = load64 m a) → extends h0 (set_mem f h).
Proof.
  intros [Hp Hg Ha Hm] Hpa Hnp Hf. split; [done|done|done|].
  intros b a Hb Hin. cbn [mem set_mem]. rewrite Hf; [by apply (Hm b)|].
  intros Hin'. apply Hnp. pose proof (Ha b Hb) as Hb'.
  apply is_alloc_aligned in Hb' as [Hb' _]; [|done].
  apply is_alloc_aligned in Hpa as [Hpa _]; [|done]. by rewrite (pages_apart p b a).
Qed.
(** Giving back pages that were not allocated in [h0]. *)
Lemma extends_freed h0 h h' (P : Z → Prop) :
  extends h0 h → pages_wf h' → mem h' = mem h → same_globals h h' →
  (∀ b, is_alloc h' b ↔ is_alloc h b ∧ ¬ P b) → (∀ b, P b → ¬ is_alloc h0 b) → extends h0 h'.
Proof.
  intros [Hp Hg Ha Hm] Hp' Hmem Hg' Hal HP. split; [done|by eapply same_globals_trans| |].
  - intros b Hb. apply Hal. split; [auto|]. intros HPb. by apply (HP b).
  - intros b a Hb Hin. rewrite Hmem. by apply (Hm b).
Qed.

Lemma page_alloc_ext h :
  pages_wf h →
  wp page_alloc (λ r h', match r with
    | None => h' = h ∧ free_count h = 0
    | Some a => extends h h' ∧ page_aligned a ∧ a + PAGE_SIZE < 2 ^ 56 ∧ ¬ is_alloc h a ∧
        (∀ b, is_alloc h' b ↔ b = a ∨ is_alloc h b) ∧ free_count h' = free_count h - 1
    end) h.
Proof.
  intros Hp. eapply wp_mono; [by apply page_alloc_wp|].
  intros [a|] h' (Hp' & Hm & Hg & _ & H); [|by destruct H].
  destruct H as (Ha & Hb & _ & Hna & Hal & Hf & _). split; [|done].
  split; [done|done| |].
  - intros b Hb'. apply Hal. by right.
  - intros b x _ _. by rewrite Hm.
Qed.
Lemma pgtable_create_ext h :
  pages_wf h →
  wp pgtable_create (λ r h', match r with
    | None => h' = h ∧ free_count h = 0
    | Some root => extends h h' ∧ page_aligned root ∧ root + PAGE_SIZE < 2 ^ 56 ∧
        ¬ is_alloc h root ∧ (∀ b, is_alloc h' b ↔ b = root ∨ is_alloc h b) ∧
        free_count h' = free_count h - 1 ∧ blank (mem h') root ∧ pt_ready h' root
    end) h.
Proof.
  intros Hp. eapply wp_mono; [by apply pgtable_create_wp|].
  intros [a|] h' (Hp' & Hg & _ & H); [|by destruct H].
  destruct H as (Ha & Hb & _ & Hna & Hal & Hf & _ & Hbl & Hout). split_and!; try done.
  - split; [done|done| |].
    + intros b Hb'. apply Hal. by right.
    + intros b x Hb' Hin. apply Hout. intros Hin'. apply Hna.
      apply is_alloc_aligned in Hb' as Hba; [|done]. destruct Hba as [Hba _].
      by rewrite (pages_apart a b x).
  - split; [done|by apply blank_pt_wf|]. intros b Ht. apply blank_tables in Ht; [|done].
    apply Hal. by left.
Qed.
End extension.

(** ** Mapping with a permission keeps last-level entries recognisable *)

Section mapping.
Implicit Types (s : mach) (m : memory).

Lemma leaves_ok_mapped m m' root va pa flags k :
  leaves_ok m root → pte_leaf flags = true → mapped_upto m m' root va pa flags k → leaves_ok m' root.
Proof.
  intros Hl Hf Hm v pte Hv. rewrite Hm by done. case_decide; [|by apply Hl].
  intros [= <-]. by rewrite pte_leaf_pa_to_pte, pte_leaf_lor_V.
Qed.
Lemma free_count_nonneg s : pages_wf s → 0 ≤ free_count s.
Proof.
  intros (pa & E & Hwf & _). unfold free_count. rewrite E. by apply wf_free_bounds.
Qed.
(** [map] with one of R, W, X in the flags, whatever its result. *)
Lemma pgtable_map_safe s root va pa size flags :
  pt_ready s root → leaves_ok (mem s) root → pte_leaf flags = true →
  page_aligned va → page_aligned pa → 0 < size → va + size ≤ 2 ^ 39 → pa + size ≤ 2 ^ 56 →
  wp (pgtable_map root va pa size flags) (λ r s',
    pt_grows s s' root ∧ leaves_ok (mem s') root) s.
Proof.
  intros [Hp Hw Ho] Hl Hf Hva Hpa H0 Hv Hb.
  eapply wp_mono; [apply pgtable_map_wp; try done; by apply free_count_nonneg|].
  intros r s' (Hg & _ & Hr). split; [done|]. destruct r as [[]|].
  - destruct Hr as (_ & Hm & _). by eapply leaves_ok_mapped.
  - destruct Hr as (k & _ & Hm & _). by eapply leaves_ok_mapped.
Qed.
(** A table that maps nothing but (some of) the kernel's pages. *)
Definition kernel_part (m : memory) (root : Z) : Prop :=
  ∀ v pte, 0 ≤ v < 2 ^ 39 → pt_lookup m root v = Some pte → kernel_entry v = Some pte.
Lemma kernel_part_leaves m root : kernel_part m root → leaves_ok m root.
Proof.
  intros H v pte Hv Hl. specialize (H v pte Hv Hl). unfold kernel_entry in H.
  destruct (kernel_va v); [|done]. injection H as <-. rewrite pte_leaf_identity.
  by destruct (kernel_start <=? v).
Qed.
Lemma kernel_part_user m root v pte :
  kernel_part m root → 0 ≤ v < 2 ^ 39 → pt_lookup m root v = Some pte →
  kernel_va v = true ∧ user_bit pte = false.
Proof.
  intros H Hv Hl. split; [specialize (H v pte Hv Hl); unfold kernel_entry in H; by destruct (kernel_va v)|]. destruct (kernel_entry_translate v pte Hv (H v pte Hv Hl)) as (_ & _ & HU).
  unfold user_bit. by rewrite HU.
Qed.
Lemma kernel_entry_pa v pte :
  0 ≤ v < 2 ^ 39 → kernel_entry v = Some pte → pte_to_pa pte = page_of v.
Proof.
  intros Hv. unfold kernel_entry. destruct (kernel_va v); [|done]. intros [= <-].
  unfold identity_entry, page_of. pose proof (Z.div_mod v 4096). pose proof (Z.mod_pos_bound v 4096).
  unfold PAGE_SIZE. rewrite pte_to_pa_of; [lia|split; [lia|unfold PAGE_SIZE; by apply Z.mod_mul]|lia|].
  by destruct (_ <=? v).
Qed.
(** Mapping a part of the kernel's range. *)
Lemma then_map s0 s root va size flags (k : unit → M (result unit)) Q :
  pt_grows s0 s root → kernel_part (mem s) root → page_aligned va → 0 < size →
  size mod PAGE_SIZE = 0 → va + size ≤ 2 ^ 39 →
  (∀ v, va ≤ v < va + size → kernel_entry v = Some (identity_entry v flags)) →
  (∀ s', pt_grows s0 s' root → kernel_part (mem s') root → Q Err s') →
  (∀ s', pt_grows s0 s' root → kernel_part (mem s') root →
     (∀ v, 0 ≤ v < 2 ^ 39 → va ≤ v < va + size ∨ pt_lookup (mem s) root v ≠ None →
        pt_lookup (mem s') root v ≠ None) → wp (k tt) Q s') →
  wp (try_bind k (pgtable_map root va va size flags)) Q s.
Proof.
  intros Hg Hk Hva H0 Hsz Hv He HErr HOk. apply wp_try_bind.
  assert (size / PAGE_SIZE * PAGE_SIZE = size) as Hn
    by (unfold PAGE_SIZE in *; pose proof (Z.div_mod size 4096); lia).
  assert (∀ m' j, 0 ≤ j ≤ size / PAGE_SIZE → mapped_upto (mem s) m' root va va flags j →
    kernel_part m' root) as Hpart.
  { intros m' j Hj Hm v pte Hvb. rewrite (mapped_identity _ _ _ _ _ _ Hva Hm) by done.
    case_decide; [|by apply Hk]. intros <-. apply He. unfold PAGE_SIZE in *. lia. }
  eapply wp_mono.
  { apply pgtable_map_wp; try done; try apply Hg; [apply free_count_nonneg, Hg|lia]. }
  intros r s' (Hg' & _ & Hr). pose proof (pt_grows_trans _ _ _ _ Hg Hg') as Hg2. destruct r as [[]|].
  - destruct Hr as (_ & Hm & _). apply HOk; [done| |].
    + apply (Hpart _ (size / PAGE_SIZE)); [unfold PAGE_SIZE in *; lia|done].
    + intros v Hvb Hor. rewrite (mapped_identity _ _ _ _ _ _ Hva Hm) by done. rewrite Hn.
      case_decide; [done|]. by destruct Hor.
  - destruct Hr as (j & Hj & Hm & _). apply HErr; [done|]. apply (Hpart _ j); [lia|done].
Qed.
(** The entries of one of the kernel's ranges. *)
#[local] Ltac range_entry H := intros v Hv; apply H;
    unfold kernel_va, plic_va, kernel_start, kernel_size, UART_PAGE, PAGE_SIZE in *;
    [lia|destruct (Z.leb_spec 0x80200000 v); (done || lia)].
Lemma map_kernel_safe s root :
  pt_ready s root → kernel_part (mem s) root →
  wp (map_kernel root) (λ r s', pt_grows s s' root ∧ kernel_part (mem s') root ∧
    (r = Ok tt → ∀ v, 0 ≤ v < 2 ^ 39 → pt_lookup (mem s') root v = kernel_entry v)) s.
Proof.
  intros Hr Hl. assert (pt_grows s s root) as Hg by (destruct Hr; by apply pt_grows_refl).
  set (Q := λ r s', _). unfold map_kernel, map_plic.
  assert (page_aligned kernel_start) by (split; [unfold kernel_start; lia|done]).
  assert (page_aligned UART_PAGE) by (split; [unfold UART_PAGE; lia|done]).
  assert (page_aligned 0x0c000000 ∧ page_aligned 0x0c002000 ∧ page_aligned 0x0c201000) as (? & ? & ?)
    by (repeat split; lia || done).
  assert (∀ s', pt_grows s s' root → kernel_part (mem s') root → Q Err s') as HErr by done.
  assert (∀ v fl, kernel_va v = true → (if kernel_start <=? v then PTE_RWX else Z.lor PTE_R PTE_W) = fl →
    kernel_entry v = Some (identity_entry v fl)) as Hent
    by (intros v fl Hv <-; unfold kernel_entry; by rewrite Hv).
  apply (then_map s); try done; [range_entry Hent|]. intros s1 Hg1 Hl1 Hm1.
  apply (then_map s); try done; [range_entry Hent|]. intros s2 Hg2 Hl2 Hm2.
  apply wp_try_bind. cbn [try_foreach].
  apply (then_map s); try done; [range_entry Hent|]. intros s3 Hg3 Hl3 Hm3.
  apply (then_map s); try done; [range_entry Hent|]. intros s4 Hg4 Hl4 Hm4.
  apply (then_map s); try done; [range_entry Hent|]. intros s5 Hg5 Hl5 Hm5.
  apply wp_ret, wp_ret. split; [done|]. split; [done|]. intros _ v Hv.
  destruct (pt_lookup (mem s5) root v) as [pte|] eqn:E; [symmetry; by apply Hl5|].
  unfold kernel_entry. destruct (kernel_va v) eqn:Ek; [|done]. exfalso. revert E.
  unfold kernel_va, plic_va in Ek. apply Hm5; [done|].
  repeat (apply orb_true_iff in Ek as [Ek|Ek]); apply andb_true_iff in Ek as [E1%Z.leb_le E2%Z.ltb_lt].
  - right. apply Hm4; [done|]. right. apply Hm3; [done|]. right. apply Hm2; [done|]. right.
    apply Hm1; [done|]. by left.
  - right. apply Hm4; [done|]. right. apply Hm3; [done|]. right. apply Hm2; [done|]. by left.
  - right. apply Hm4; [done|]. right. apply Hm3; [done|]. by left.
  - right. apply Hm4; [done|]. by left.
  - by left.
Qed.
(** On a blank table [map_kernel] fails only for want of pages. *)
Lemma map_kernel_blank s root :
  pt_ready s root → blank (mem s) root →
  wp (map_kernel root) (λ r s', (pt_grows s s' root ∧ kernel_part (mem s') root ∧
      (r = Ok tt → ∀ v, 0 ≤ v < 2 ^ 39 → pt_lookup (mem s') root v = kernel_entry v)) ∧
    (24 ≤ free_count s → r = Ok tt ∧ free_count s - 24 ≤ free_count s')) s.
Proof.
  intros Hr Hb. assert (kernel_part (mem s) root) as Hl
    by (intros v pte _; by rewrite blank_lookup).
  pose proof (map_kernel_safe s root Hr Hl) as Hs.
  destruct (decide (24 ≤ free_count s)) as [Hf|Hf].
  - pose proof (map_kernel_wp s root Hr ltac:(intros; by apply blank_lookup) Hf) as Hw.
    eapply wp_mono; [apply (wp_and _ _ _ _ Hs Hw)|]. by intros r s' [H (-> & _ & Hf' & _)].
  - eapply wp_mono; [exact Hs|]. intros r s' H. split; [done|]. lia.
Qed.
End mapping.

(** ** The first frame of a task *)

Section context.
Implicit Types (h : mach) (t : Task).

(** [init_context] writes into the kernel stack only: the frame, then the [satp]
    values of the kernel and of the task, which [trap.S] reads. *)
Lemma init_context_wp ks pt frame kpt h :
  KERNEL_PAGETABLE h = Some kpt → page_aligned ks → ks < 2 ^ 56 →
  wp (init_context ks pt frame) (λ fp h',
    fp = ks + PAGE_SIZE - 16 - FRAME_SIZE ∧
    (∃ f, h' = set_mem f h ∧ ∀ m a, ¬ in_page ks a → load64 (f m) a = load64 m a) ∧
    frame_at (mem h') fp = frame ∧ load64 (mem h') (fp + FRAME_SIZE) = satp_of kpt ∧
    load64 (mem h') (fp + FRAME_SIZE + 8) = satp_of pt) h.
Proof.
  intros Hk [Hks _] Hb. unfold init_context.
  assert (ks +' PAGE_SIZE -' 16 -' FRAME_SIZE = ks + PAGE_SIZE - 16 - FRAME_SIZE) as ->.
  { unfold u64, FRAME_SIZE, FRAME_WORDS, PAGE_SIZE.
    rewrite (Z.mod_small (ks + 4096)) by lia. rewrite (Z.mod_small (_ - 16)) by lia.
    rewrite Z.mod_small by lia. lia. }
  set (fp := ks + PAGE_SIZE - 16 - FRAME_SIZE).
  assert (fp +' FRAME_SIZE = fp + FRAME_SIZE ∧ fp + FRAME_SIZE +' 8 = fp + FRAME_SIZE + 8) as [-> ->].
  { unfold fp, u64, FRAME_SIZE, FRAME_WORDS, PAGE_SIZE. rewrite !Z.mod_small by lia. lia. }
  apply wp_bind. unfold write_frame. apply wp_modify. apply wp_bind. unfold kernel_satp.
  apply wp_bind, wp_gets. cbn [KERNEL_PAGETABLE set_mem]. rewrite Hk. cbn [unwrap].
  apply wp_bind, wp_ret, wp_ret. unfold store. apply wp_bind, wp_modify. apply wp_bind, wp_modify, wp_ret.
  cbn [mem set_mem]. split; [done|]. split; [|split; [|split]].
  - exists (λ m, store64 (store64 (store_words m fp (frame_words frame)) (fp + FRAME_SIZE) (satp_of kpt))
                   (fp + FRAME_SIZE + 8) (satp_of pt)). split; [by destruct h|].
    intros m a Ha. unfold in_page in Ha. unfold fp, FRAME_SIZE, FRAME_WORDS, PAGE_SIZE in *.
    rewrite !load64_store64_ne by lia. apply load64_write_frame_out.
    unfold in_frame, FRAME_SIZE, FRAME_WORDS. lia.
  - rewrite <- (frame_at_write (mem h) fp frame) at 2. apply frame_at_ext. intros a Ha.
    unfold in_frame in Ha. rewrite !load64_store64_ne by lia. done.
  - rewrite load64_store64_ne by lia. apply load64_store64_eq.
  - apply load64_store64_eq.
Qed.

(** A task without an image, a heap and a user stack has no address of its own. *)
Definition no_user t : Prop :=
  image_base t = 0 ∧ image_size t = 0 ∧ heap_base t = 0 ∧ heap_end t = 0 ∧ user_stack t = 0.
Lemma no_user_va t va : no_user t → ¬ user_va t va.
Proof.
  intros (H1 & H2 & H3 & H4 & H5). unfold user_va, user_page, image_lo, image_hi, heap_hi.
  rewrite H1, H2, H3, H4, H5.
  assert (page_down (0 +' 0 +' PAGE_SIZE -' 1) = 0) as -> by reflexivity.
  assert (page_down 0 = 0) as -> by reflexivity. assert (align_up 0 = Ok 0) as -> by reflexivity.
  unfold page_range. lia.
Qed.
Lemma no_user_ok m t :
  no_user t → (∀ va pte, 0 ≤ va < 2 ^ 39 → pt_lookup m (pagetable t) va = Some pte →
     kernel_va va = true ∧ user_bit pte = false) →
  user_ok m t.
Proof.
  intros H Hk. pose proof (λ va, no_user_va t va H) as Hno. split.
  - destruct H as (_ & _ & _ & _ & H). intros Hs. by destruct Hs.
  - intros va va' b Hva. by destruct (Hno va).
  - intros va b Hva. by destruct (Hno va).
  - intros va pte Hva Hl Hu. destruct (Hk va pte Hva Hl), Hu; congruence.
Qed.

(** A task whose image and heap are empty owns its tables and its two stacks. *)
Lemma empty_owns m t b :
  no_user t → owns m t b ↔ is_table m (pagetable t) b ∨ b = kernel_stack t.
Proof.
  intros H. pose proof (λ va, no_user_va t va H) as Hno. unfold owns, space_page.
  split; [|tauto]. intros [[?|[(va & Hva & _)|[Hs _]]]|?]; [by left| | |by right].
  - by destruct (Hno va); left.
  - by destruct H as (_ & _ & _ & _ & ?).
Qed.
End context.

(** ** The idle task *)

(** Adding a task whose pages belong to no other. *)
Lemma spaces_ok_insert h ts i t :
  spaces_ok h ts → ts !! i = Some None → space_ok h t →
  (∀ b, owns (mem h) t b → is_alloc h b ∧
     ∀ j u, ts !! j = Some (Some u) → ¬ owns (mem h) u b) →
  (∀ va, user_va t va → ¬ maps (mem h) t va (kernel_stack t)) → spaces_ok h (<[i := Some t]> ts).
Proof.
  intros H Hi Ht Ho Hx.
  assert (∀ j u, <[i:=Some t]> ts !! j = Some (Some u) →
    (j = i ∧ u = t) ∨ (j ≠ i ∧ ts !! j = Some (Some u))) as Hj.
  { intros j u E. destruct (decide (j = i)) as [->|Hne].
    - rewrite list_lookup_insert_eq in E by by eapply lookup_lt_Some. left. by injection E as ->.
    - rewrite list_lookup_insert_ne in E by done. by right. }
  split; [apply H|..].
  - intros j u [[-> ->]|[_ E]]%Hj; [done|by apply (spaces_task _ _ H j)].
  - intros j u b [[-> ->]|[_ E]]%Hj Hb; [by apply Ho|by apply (spaces_alloc _ _ H j u)].
  - intros j k u v b [[-> ->]|[Hne E]]%Hj [[-> ->]|[Hne' E']]%Hj Hb Hb'; [done| | |].
    + exfalso. by apply (proj2 (Ho b Hb) k v).
    + exfalso. by apply (proj2 (Ho b Hb') j u).
    + by apply (spaces_disjoint _ _ H j k u v b).
  - intros j u va [[-> ->]|[_ E]]%Hj; [by apply Hx|by apply (spaces_apart _ _ H j)].
Qed.
Lemma spaces_ok_add h0 h ts i t :
  spaces_ok h0 ts → extends h0 h → ts !! i = Some None → space_ok h t →
  (∀ b, owns (mem h) t b → is_alloc h b ∧ ¬ is_alloc h0 b) →
  (∀ va, user_va t va → ¬ maps (mem h) t va (kernel_stack t)) → spaces_ok h (<[i := Some t]> ts).
Proof.
  intros H0 He Hi Ht Ho Hx. apply spaces_ok_insert; [by apply (spaces_ok_extends h0)|done|done| |done].
  intros b [Ha Hn]%Ho. split; [done|]. intros j u Hu Hb. apply Hn, (spaces_alloc _ _ H0 j u b Hu).
  apply (owns_frame h0 h u); [|done]. intros b' a Hb' Hin. apply (ext_mem _ _ He b'); [|done].
  apply (spaces_alloc _ _ H0 j u b' Hu). left. by left.
Qed.

Definition idle_frame (ks entry : Z) : TrapFrame :=
  initial_frame (ks +' PAGE_SIZE -' 16) entry (Z.lor SSTATUS_SPP SSTATUS_SPIE).

Section idle.
Implicit Types (s : tsys) (h : mach).

(** What [create_idle] leaves behind when it succeeds. *)
Record idle_created (entry : Z) s s' (i : nat) (t : Task) : Prop := {
  ic_slot : position is_none (tasks (self s)) = Some i;
  ic_self : self s' = set_tasks (<[i := Some t]>) (self s);
  ic_fields : pid t = IDLE_PID ∧ state t = Ready ∧ parent_pid t = None ∧ waiting_for t = None;
  ic_spaces : spaces_ok (hw s') (tasks (self s'));
  ic_alloc b : is_alloc (hw s') b ↔ is_alloc (hw s) b ∨ owns (mem (hw s')) t b;
  ic_frame : frame_at (mem (hw s')) (trap_frame t) = idle_frame (kernel_stack t) entry;
  ic_globals : same_globals (hw s) (hw s');
  ic_free : 26 ≤ free_count (hw s) → free_count (hw s) - 26 ≤ free_count (hw s');
}.

(** A page table with the kernel's map and a kernel stack, all fresh since [h0]. *)
Record idle_parts (h0 h : mach) (ks pt : Z) : Prop := {
  ip_extends : extends h0 h;
  ip_ready : pt_ready h pt;
  ip_kernel : kernel_part (mem h) pt;
  ip_new b : is_table (mem h) pt b → ¬ is_alloc h0 b;
  ip_stack : page_aligned ks ∧ ks + PAGE_SIZE < 2 ^ 56 ∧ ¬ is_alloc h0 ks ∧ ¬ is_table (mem h) pt ks;
  ip_root : pt + PAGE_SIZE < 2 ^ 56;
  ip_alloc b : is_alloc h b ↔ is_alloc h0 b ∨ is_table (mem h) pt b ∨ b = ks;
}.
(** [map_kernel] on a table just created after the stack [ks]. *)
Lemma idle_parts_wp h0 h1 h2 ks pt :
  extends h0 h1 → extends h1 h2 → pt_ready h2 pt → blank (mem h2) pt →
  page_aligned ks → ks + PAGE_SIZE < 2 ^ 56 → pt + PAGE_SIZE < 2 ^ 56 →
  ¬ is_alloc h0 ks → ¬ is_alloc h1 pt →
  (∀ b, is_alloc h1 b ↔ b = ks ∨ is_alloc h0 b) → (∀ b, is_alloc h2 b ↔ b = pt ∨ is_alloc h1 b) →
  wp (map_kernel pt) (λ r h3, idle_parts h0 h3 ks pt ∧
    (r = Ok tt → kernel_mapped (mem h3) pt) ∧
    (24 ≤ free_count h2 → r = Ok tt ∧ free_count h2 - 24 ≤ free_count h3)) h2.
Proof.
  intros He1 He2 Hr Hbl Hksa Hksb Hptb Hksn Hptn Hal1 Hal2.
  assert (∀ b, is_table (mem h2) pt b → ¬ is_alloc h0 b) as Hnew.
  { intros b Hb%blank_tables; [subst b|done]. intros Hb. by apply Hptn, (ext_alloc _ _ He1). }
  eapply wp_mono; [by apply map_kernel_blank|]. intros r h3 [(Hg & Hkp & Hkm) Hok]. split; [|split; [|done]].
  2: { intros Er v Hv Hkv. rewrite (Hkm Er v Hv). destruct (kernel_entry v) as [pte|] eqn:E.
       - cbn. f_equal. by apply kernel_entry_pa.
       - unfold kernel_entry in E. by rewrite Hkv in E. }
  destruct (extends_grows _ _ _ _ (extends_trans _ _ _ He1 He2) Hg Hnew) as [He3 Hnew3].
  split; [done|by eapply grows_ready|done|done| |done|].
  - split; [done|]. split; [done|]. split; [done|]. intros [Hb|Hb]%(grows_tables_new _ _ _ Hg).
    + apply blank_tables in Hb; [|done]. subst ks. apply Hptn, Hal1. by left.
    + apply Hb, Hal2. right. apply Hal1. by left.
  - intros b. split.
    + intros [Hb|Hb]%(grows_alloc_new _ _ _ Hg); [|by right; left].
      apply Hal2 in Hb as [->|Hb]; [|apply Hal1 in Hb as [->|Hb]; auto].
      right. left. apply (grows_tables _ _ _ pt Hg). by apply blank_tables.
    + intros [Hb|[Hb| ->]]; [by apply He3|by apply (grows_owned _ _ _ Hg)|].
      apply (grows_alloc _ _ _ Hg), Hal2. right. apply Hal1. by left.
Qed.
(** Giving both back. *)
Lemma idle_undo_wp h0 h ks pt :
  idle_parts h0 h ks pt →
  wp (_ ← pgtable_free pt; page_free ks) (λ _ h', extends h0 h' ∧
    ∀ b, is_alloc h' b ↔ is_alloc h0 b) h.
Proof.
  intros [He Hr Hk Hnew (Hksa & Hksb & Hksn & Hksnt) Hptb Hal]. unfold PAGE_SIZE in Hksb, Hptb.
  apply wp_bind. eapply wp_mono.
  { apply pgtable_free_wp; [apply He|apply Hr|lia|by apply kernel_part_leaves]. }
  intros _ h4 (Hp4 & Hm4 & Hg4 & Hal4).
  eapply wp_mono; [apply page_free_addr_wp; [done|done|lia]|].
  intros _ h5 (Hp5 & Hm5 & Hg5 & Hal5).
  assert (∀ b, is_alloc h5 b ↔ is_alloc h b ∧ ¬ (is_table (mem h) pt b ∨ b = ks)) as Hal'
    by (intros b; rewrite Hal5, Hal4; tauto).
  split; [apply (extends_freed _ _ _ (λ b, is_table (mem h) pt b ∨ b = ks) He); try done|].
  - congruence.
  - by eapply same_globals_trans.
  - intros b [Hb| ->]; [by apply Hnew|done].
  - intros b. rewrite Hal', Hal. split; [tauto|]. intros Hb. split; [by left|].
    intros [Hb'| ->]; [by apply (Hnew b)|done].
Qed.
(** The rest of [create_idle]: the first frame and the slot. *)
Lemma idle_finish_wp entry kpt s h i ks pt :
  spaces_ok (hw s) (tasks (self s)) → KERNEL_PAGETABLE (hw s) = Some kpt →
  position is_none (tasks (self s)) = Some i → idle_parts (hw s) h ks pt →
  kernel_mapped (mem h) pt →
  wp (tf ← on_hw (init_context ks pt (idle_frame ks entry));
      _ ← put_task i (Some (mkTask IDLE_PID Ready tf ks 0 entry pt 0 0 0 0 0 None None));
      mret (Ok IDLE_PID)) (λ r s', r = Ok IDLE_PID ∧ ∃ t,
        (26 ≤ free_count (hw s) → free_count (hw s) - 26 ≤ free_count h) →
        idle_created entry s s' i t) (mkTsys (self s) h).
Proof.
  intros Hsp Hk Epos [He Hr Hkp Hnew (Hksa & Hksb & Hksn & Hksnt) Hptb Hal] Hkm. unfold PAGE_SIZE in Hksb, Hptb.
  pose proof Epos as [([u|] & Hslot & Hn) _]%position_Some; [done|clear Hn].
  apply wp_bind, wp_on_hw. cbn [self hw]. eapply wp_mono.
  { apply (init_context_wp ks pt _ kpt); [|done|lia]. by pose proof (ext_globals _ _ He) as (-> & _). }
  intros tf h4 (-> & (f & -> & Hf) & Hframe & _ & _).
  apply wp_bind, wp_put_task; [by eapply lookup_lt_Some|]. apply wp_ret. cbn [self hw].
  set (t := mkTask _ _ _ _ _ _ _ _ _ _ _ _ _ _). set (h4 := set_mem f h) in *.
  assert (is_alloc h ks) as Hksal by (apply Hal; auto).
  pose proof (extends_write _ _ _ _ He Hksal Hksn Hf) as He4. fold h4 in He4.
  assert (tables_same h h4 t) as Hts.
  { intros b a Hb Hin. apply Hf. intros Hin'. apply Hksnt.
    assert (is_alloc h b) as Hba by by apply (ready_owned _ _ Hr).
    apply is_alloc_aligned in Hba as [Hba _]; [|apply He]. by rewrite (pages_apart ks b a). }
  assert (no_user t) as Hnu by done.
  assert (∀ b, owns (mem h4) t b ↔ is_table (mem h) pt b ∨ b = ks) as Hown.
  { intros b. rewrite (owns_frame h h4 t b Hts). by apply empty_owns. }
  assert (space_ok h4 t) as Hst.
  { apply (space_ok_frame h); [done|apply He4|intros b Hb; by apply (ready_owned _ _ Hr)|].
    split; [|done|by apply kernel_part_leaves|done| |done].
    - split; cbn [t image_base image_size heap_base heap_end user_stack kernel_stack pagetable trap_frame];
        unfold USER_LIMIT, FRAME_SIZE, FRAME_WORDS, PAGE_SIZE; try done; try lia.
      split; [done|lia].
    - apply no_user_ok; [done|]. intros va pte. by apply kernel_part_user. }
  split; [done|]. exists t. intros Hfree. split; try done.
  - cbn [self hw tasks set_tasks]. apply (spaces_ok_add (hw s)); try done.
    + intros b [Hb| ->]%Hown; [|done]. split; [by apply (ready_owned _ _ Hr)|by apply Hnew].
    + intros va Hva. by destruct (no_user_va t va Hnu).
  - cbn [hw]. intros b. rewrite Hown. apply Hal.
  - exact (ext_globals _ _ He4).
Qed.

Lemma create_idle_wp entry kpt s :
  spaces_ok (hw s) (tasks (self s)) → KERNEL_PAGETABLE (hw s) = Some kpt →
  wp (create_idle entry) (λ r s',
    match r with
    | Ok p => p = IDLE_PID ∧ task_index (tasks (self s)) IDLE_PID = None ∧
        ∃ i t, idle_created entry s s' i t
    | Err => self s' = self s ∧ extends (hw s) (hw s') ∧
        (∀ b, is_alloc (hw s') b ↔ is_alloc (hw s) b) ∧
        (task_index (tasks (self s)) IDLE_PID ≠ None ∨ position is_none (tasks (self s)) = None ∨
         free_count (hw s) < 26)
    end) s.
Proof.
  intros Hsp Hk. pose proof (spaces_pages _ _ Hsp) as Hp. pose proof (extends_refl _ Hp) as Hrefl.
  unfold create_idle. apply wp_bind, wp_get_self.
  destruct (task_index _ IDLE_PID) as [i0|] eqn:Eidle; cbn [is_none].
  { apply wp_ret. split_and!; try done. by left. }
  destruct (position is_none _) as [i|] eqn:Epos.
  2: { apply wp_ret. split_and!; try done. right. by left. }
  apply wp_try_bind, wp_bind, wp_on_hw. eapply wp_mono; [by apply page_alloc_ext|].
  intros [ks|] h1; cbn [ok_or].
  2: { intros [-> Hf]. apply wp_ret. cbn [self hw]. split_and!; try done. right. right. lia. }
  intros (He1 & Hksa & Hksb & Hksn & Hal1 & Hf1). apply wp_ret.
  apply wp_bind, wp_on_hw. cbn [self hw]. eapply wp_mono; [apply pgtable_create_ext, He1|].
  intros [pt|] h2.
  2: { intros [-> Hf]. apply wp_bind, wp_on_hw. cbn [self hw]. unfold PAGE_SIZE in Hksb.
       eapply wp_mono; [apply page_free_addr_wp; [apply He1|done|lia]|].
       intros _ h3 (Hp3 & Hm3 & Hg3 & Hal3). apply wp_ret. cbn [self hw]. split; [done|]. split.
       - apply (extends_freed _ _ _ (λ b, b = ks) He1); try done. by intros b ->.
       - split; [|right; right; lia]. intros b. rewrite Hal3, Hal1. split; [tauto|].
         intros Hb. split; [by right|]. by intros ->. }
  intros (He2 & Hpta & Hptb & Hptn & Hal2 & Hf2 & Hblank & Hready).
  apply wp_bind, wp_on_hw. cbn [self hw]. eapply wp_mono; [by apply (idle_parts_wp (hw s) h1 h2 ks pt)|].
  intros r h3 (Hparts & Hkm & Hok). cbn [self hw]. destruct r as [[]|].
  - eapply wp_mono; [by apply (idle_finish_wp entry kpt s h3 i ks pt); auto|].
    intros r s' [-> [t Ht]]. split; [done|]. split; [done|]. exists i, t. apply Ht. intros H26.
    destruct Hok as [_ ?]; lia.
  - apply wp_bind, wp_on_hw. cbn [self hw]. pose proof (idle_undo_wp _ _ _ _ Hparts) as Hu.
    unfold wp, mbind, st_bind in Hu. unfold wp at 1.
    destruct (pgtable_free pt h3) as [[[] h4]| |]; [|done..]. apply wp_bind, wp_on_hw. cbn [self hw].
    unfold wp. destruct (page_free ks h4) as [[[] h5]| |]; [|done..]. destruct Hu as [He5 Hal5]. cbn.
    split; [done|]. split; [done|]. split; [done|]. right. right.
    destruct (decide (24 ≤ free_count h2)) as [Hf|]; [by destruct (Hok Hf)|lia].
Qed.
End idle.

(** ** A user task from a loaded image *)

(** The image as [create_user_image] receives it: its fields, no task yet (the user
    stack stands in for the kernel stack it does not have). *)
Definition image_task (pt user_stack entry image_base image_size heap : Z) : Task :=
  mkTask 0 Ready user_stack user_stack user_stack entry pt 0 image_base image_size heap heap
    None None.
(** A loaded address space that belongs to no task. *)
Record loaded (h : mach) (ts : list (option Task)) (img : Task) : Prop := {
  loaded_ok : space_ok h img;
  loaded_pages b : space_page (mem h) img b →
    is_alloc h b ∧ ∀ i t, ts !! i = Some (Some t) → ¬ owns (mem h) t b;
}.

Section user.
Implicit Types (s : tsys) (h : mach) (t img : Task) (ts : list (option Task)).

(** Giving the image up releases exactly its pages. *)
Lemma release_image_wp h ts img :
  spaces_ok h ts → loaded h ts img →
  wp (free_address_space img) (λ _ h', spaces_ok h' ts ∧ same_globals h h' ∧
    ∀ b, is_alloc h' b ↔ is_alloc h b ∧ ¬ space_page (mem h) img b) h.
Proof.
  intros Hsp [Hok Hpg]. eapply wp_mono; [by apply free_address_space_wp|].
  intros _ h' (Hp & Hg & Hm & Hal). split; [|done].
  apply (spaces_ok_frame h); [done| | |done].
  - intros i t E b a Hb Hin. apply Hm. intros b' Hb' Hin'.
    assert (owns (mem h) t b) as Ho by (left; by left).
    destruct (Hpg b') as [Hal' Hno]; [by left|]. apply (Hno i t E).
    apply is_alloc_aligned in Hal' as [Hba _]; [|apply Hsp].
    assert (is_alloc h b) as Hab by by apply (spaces_alloc _ _ Hsp i t).
    apply is_alloc_aligned in Hab as [Hab _]; [|apply Hsp].
    by rewrite (pages_apart b' b a).
  - intros i t b E Hb. apply Hal. split; [by apply (spaces_alloc _ _ Hsp i t)|].
    intros Hb'. by apply (proj2 (Hpg b Hb') i t).
Qed.

Lemma tm_core_add m i t f :
  tm_core m → tasks m !! i = Some None → pid t ≠ IDLE_PID → state t = Ready →
  task_index (tasks m) (pid t) = None →
  tm_core (set_runnable_count (λ n, u32 (n + 1)) (set_tasks (<[i := Some t]>) (set_next_pid f m))).
Proof.
  intros Hm Hi Hp Hs Hnew.
  assert (∀ j u, <[i:=Some t]> (tasks m) !! j = Some (Some u) →
    (j = i ∧ u = t) ∨ (j ≠ i ∧ tasks m !! j = Some (Some u) ∧ pid u ≠ pid t)) as Hj.
  { intros j u E. destruct (decide (j = i)) as [->|Hne].
    - rewrite list_lookup_insert_eq in E by by eapply lookup_lt_Some. left. by injection E as ->.
    - rewrite list_lookup_insert_ne in E by done. right. split; [done|]. split; [done|].
      intros E'. unfold task_index in Hnew. rewrite position_None in Hnew.
      specialize (Hnew j _ E). cbn in Hnew. by apply Z.eqb_neq in Hnew. }
  pose proof (count_bound _ (tm_len _ Hm)) as Hb.
  assert (countb active (tasks m) < 16) as Hlt.
  { assert (countb active (<[i:=Some t]> (tasks m)) ≤ 16) as H
      by (apply count_bound; rewrite length_insert; apply Hm).
    rewrite (count_put _ _ _ None) in H by done. cbn in H.
    rewrite Hs, (proj2 (Z.eqb_neq _ _) Hp) in H. cbn in H. lia. }
  split; cbn [set_runnable_count set_tasks set_next_pid tasks endpoints current_pid runnable_count].
  - rewrite length_insert. apply Hm.
  - apply Hm.
  - intros j k u v [[-> ->]|(? & E & Hu)]%Hj [[-> ->]|(? & E' & Hv)]%Hj Hpid; try done.
    by apply (tm_pids _ Hm j k u v).
  - destruct (tm_idle _ Hm) as (j & u & Hju & Hpu & Ha). exists j, u.
    rewrite list_lookup_insert_ne; [done|]. intros ->. congruence.
  - intros j u [[-> ->]|(? & E & _)]%Hj Hr; [congruence|by apply (tm_running _ Hm j)].
  - rewrite (count_put _ _ _ None), (tm_count _ Hm) by done. cbn.
    rewrite Hs, (proj2 (Z.eqb_neq _ _) Hp). cbn. unfold u32. rewrite Z.mod_small by lia. lia.
Qed.
Lemma sleepers_kept_add ts i slot : ts !! i = Some None → sleepers_kept ts (<[i := slot]> ts).
Proof.
  intros Hi j u Hu Hsl. exists u. rewrite list_lookup_insert_ne; [done|]. intros ->. congruence.
Qed.

(** What [create_user_image] leaves behind when it succeeds. *)
Record user_created (entry : Z) (img : Task) s s' (p : Z) (t : Task) : Prop := {
  uc_pid : p = next_pid (self s) ∧ pid t = p;
  uc_slot : ∃ i, position is_none (tasks (self s)) = Some i ∧
    tasks (self s') = <[i := Some t]> (tasks (self s)) ∧
    runnable_count (self s') = runnable_count (self s) + 1;
  uc_kept : current_pid (self s') = current_pid (self s) ∧ endpoints (self s') = endpoints (self s) ∧
    uart_owner (self s') = uart_owner (self s) ∧ next_pid (self s') = u32 (p + 1);
  uc_state : state t = Ready ∧ parent_pid t = current_pid (self s) ∧ waiting_for t = None;
  uc_entry : Task.entry t = entry;
  uc_space : pagetable t = pagetable img ∧ user_stack t = user_stack img ∧
    image_base t = image_base img ∧ image_size t = image_size img ∧
    heap_base t = heap_base img ∧ heap_end t = heap_base img;
  uc_frame : frame_at (mem (hw s')) (trap_frame t) =
    initial_frame USER_STACK_TOP entry (Z.lor SSTATUS_SPIE SSTATUS_SUM);
  uc_alloc b : is_alloc (hw s') b ↔ is_alloc (hw s) b ∨ b = kernel_stack t;
  uc_machine : extends (hw s) (hw s') ∧ free_count (hw s') = free_count (hw s) - 1;
}.

Lemma create_user_image_wp pt us entry base size kpt s :
  let img := image_task pt us entry base size (base + size) in
  kernel_mid s → KERNEL_PAGETABLE (hw s) = Some kpt → loaded (hw s) (tasks (self s)) img →
  next_pid (self s) ≠ IDLE_PID → task_index (tasks (self s)) (next_pid (self s)) = None →
  wp (create_user_image pt us entry base size) (λ r s', kernel_mid s' ∧
    match r with
    | Ok p => ∃ t, user_created entry img s s' p t
    | Err => self s' = self s ∧
        (∀ b, is_alloc (hw s') b ↔ is_alloc (hw s) b ∧ ¬ space_page (mem (hw s)) img b) ∧
        (position is_none (tasks (self s)) = None ∨ free_count (hw s) = 0)
    end) s.
Proof.
  intros img [Hm Hsp] Hk Hld Hnp Hnew. pose proof (mid_core _ Hm) as Hc.
  pose proof (space_layout _ _ (loaded_ok _ _ _ Hld)) as [(Hb0 & Hs0 & Hlim) [[Hal0 Halm] _] [Hus1 Hus2] _ Hpt _].
  cbn [img image_task image_base image_size heap_base user_stack pagetable] in *.
  unfold create_user_image.
  assert (checked_add base size = Some (base + size)) as ->.
  { unfold checked_add. destruct (Z.ltb_spec (base + size) (2 ^ 64)) as [|Hge]; [done|].
    unfold USER_LIMIT in Hlim. lia. }
  cbv zeta. set (abandon := _ ← on_hw (free_user_space _ _ _ _ _ _); _).
  assert (∀ Hwhy : position is_none (tasks (self s)) = None ∨ free_count (hw s) = 0,
    wp abandon (λ r s', kernel_mid s' ∧
      match r with
      | Ok p => ∃ t, user_created entry img s s' p t
      | Err => self s' = self s ∧
          (∀ b, is_alloc (hw s') b ↔ is_alloc (hw s) b ∧ ¬ space_page (mem (hw s)) img b) ∧
          (position is_none (tasks (self s)) = None ∨ free_count (hw s) = 0)
      end) s) as Hgive.
  { intros Hwhy. apply wp_bind, wp_on_hw. eapply wp_mono; [by apply (release_image_wp _ _ img Hsp)|].
    intros _ h' (Hsp' & _ & Hal). apply wp_ret. split; [by split|]. done. }
  destruct (Z.ltb_spec HEAP_LIMIT (base + size)); [unfold HEAP_LIMIT, USER_LIMIT, USER_STACK_TOP, PAGE_SIZE in *; lia|]. rewrite Halm. cbn [orb negb Z.eqb].
  apply wp_bind, wp_get_self. destruct (position is_none _) as [i|] eqn:Epos; [|by apply Hgive; left].
  pose proof Epos as [([u|] & Hslot & Hn) _]%position_Some; [done|clear Hn].
  apply wp_bind, wp_on_hw. eapply wp_mono; [apply page_alloc_ext, Hsp|].
  intros [ks|] h1.
  2: { intros [-> Hf]. assert (mkTsys (self s) (hw s) = s) as -> by by destruct s.
       apply Hgive. by right. }
  intros (He1 & Hksa & Hksb & Hksn & Hal1 & Hfree). unfold PAGE_SIZE in Hksb.
  apply wp_bind, wp_get_self, wp_bind, wp_upd_self. cbn [self hw].
  apply wp_bind, wp_on_hw. cbn [self hw]. eapply wp_mono.
  { apply (init_context_wp ks pt _ kpt); [|done|lia].
    pose proof (ext_globals _ _ He1) as (-> & _). done. }
  intros tf h2 (-> & (f & -> & Hf) & Hframe & _ & _).
  apply wp_bind, wp_get_self. cbn [self hw].
  apply wp_bind, wp_put_task; [by eapply lookup_lt_Some|]. cbn [self hw].
  apply wp_bind, wp_upd_self, wp_ret. cbn [self hw].
  match goal with |- context [<[i := Some ?x]>] => set (t := x) end.
  set (h2 := set_mem f h1) in *.
  assert (is_alloc h1 ks) as Hksal by (apply Hal1; auto).
  pose proof (extends_write _ _ _ _ He1 Hksal Hksn Hf) as He2. fold h2 in He2.
  assert (space_ok h2 t) as Hst.
  { destruct (loaded_ok _ _ _ Hld) as [Hlay Hr Hl _ Hu Hkm].
    apply (space_ok_frame (hw s)).
    - intros b a Hb Hin. apply (ext_mem _ _ He2 b); [|done]. by apply (ready_owned _ _ Hr).
    - apply He2.
    - intros b Hb. apply (ext_alloc _ _ He2). by apply (ready_owned _ _ Hr).
    - split; [|exact Hr|exact Hl| |apply (same_user_ok _ img); [repeat split|exact Hu]|exact Hkm].
      + destruct Hlay as [L1 L2 L3 _ L5 _]. split; [exact L1|exact L2|exact L3| |exact L5|];
          cbn [t kernel_stack trap_frame]; unfold FRAME_SIZE, FRAME_WORDS, PAGE_SIZE;
          [split; [exact Hksa|lia]|lia].
      + intros Hb. apply Hksn. by apply (ready_owned _ _ Hr). }
  assert (∀ b, owns (mem h2) t b → is_alloc h2 b ∧
    ∀ j v, tasks (self s) !! j = Some (Some v) → ¬ owns (mem h2) v b) as Hown.
  { intros b Hb. rewrite (owns_frame (hw s) h2 t) in Hb.
    2: { intros b' a Hb' Hin. apply (ext_mem _ _ He2 b'); [|done].
         by apply (ready_owned _ _ (space_ready _ _ (loaded_ok _ _ _ Hld))). }
    assert (∀ j v, tasks (self s) !! j = Some (Some v) → owns (mem h2) v b → owns (mem (hw s)) v b) as Hv.
    { intros j v E Hb'. apply (owns_frame (hw s) h2 v); [|done]. intros b' a Hb'' Hin.
      apply (ext_mem _ _ He2 b'); [|done]. apply (spaces_alloc _ _ Hsp j v b' E). left. by left. }
    destruct Hb as [Hb| ->].
    - destruct (loaded_pages _ _ _ Hld b Hb) as [Hba Hno]. split; [by apply He2|].
      intros j v E Hb'. by apply (Hno j v E), (Hv j v E).
    - split; [done|]. intros j v E Hb'. apply Hksn. by apply (spaces_alloc _ _ Hsp j v ks E), (Hv j v E). }
  assert (∀ va, user_va t va → ¬ maps (mem h2) t va (kernel_stack t)) as Hapart.
  { intros va Hva Hma. pose proof (loaded_ok _ _ _ Hld) as Hok.
    assert (tables_same (hw s) h2 img) as Hti.
    { intros b a Hb Hin. apply (ext_mem _ _ He2 b); [|done]. by apply (ready_owned _ _ (space_ready _ _ Hok)). }
    apply (maps_frame _ _ img _ _ Hti) in Hma. apply Hksn. apply (loaded_pages _ _ _ Hld).
    exact (user_va_space (mem (hw s)) img va ks (space_user _ _ Hok) Hva Hma). }
  assert (runnable_count (self s) + 1 = u32 (runnable_count (self s) + 1)) as Hcnt.
  { pose proof (count_bound _ (tm_len _ Hc)) as Hb. rewrite <- (tm_count _ Hc) in Hb.
    unfold u32. rewrite Z.mod_small by lia. done. }
  split.
  - split; cbn [self hw].
    + apply tm_mid_intro; [by apply tm_core_add|].
      apply (eps_ok_kept (self s)); [done|by apply sleepers_kept_add|by apply tm_mid_eps].
    + apply spaces_ok_insert; [exact (spaces_ok_extends _ _ _ He2 Hsp)|exact Hslot|exact Hst|exact Hown|exact Hapart].
  - exists t. split; cbn [self hw].
    + exact (conj eq_refl eq_refl).
    + exists i. split; [exact Epos|]. split; [exact eq_refl|exact (eq_sym Hcnt)].
    + repeat split.
    + repeat split.
    + exact eq_refl.
    + repeat split.
    + exact Hframe.
    + intros b. rewrite (or_comm (is_alloc (hw s) b)). exact (Hal1 b).
    + exact (conj He2 Hfree).
Qed.
End user.
