(* ===== verification/Build.v ===== *)
(** Building a fresh address space: what [fork] and the program loader have in common.

    [building h0 h pt us ex] describes a construction that started on machine [h0] and
    stands at [h]: the new page table [pt] contains the kernel's map and maps the user
    pages [us] (physical page by virtual page); [ex] are further fresh pages.  All these
    pages were free in [h0], what [h0] had allocated is untouched, and every new page is
    accounted for. *)

From S2P Require Import Prelude Arch Page Memory Machine Pgtable Vm Trap Ipc Task Space Sched Inv Create.

Record building (h0 h : mach) (pt : Z) (us : gmap Z Z) (ex : list Z) : Prop := {
  b_ext : extends h0 h;
  b_ready : pt_ready h pt;
  b_root : pt + PAGE_SIZE < 2 ^ 56;
  b_leaves : leaves_ok (mem h) pt;
  b_new b : is_table (mem h) pt b → ¬ is_alloc h0 b;
  b_kernel v : 0 ≤ v < 2 ^ 39 → kernel_va v = true → pt_lookup (mem h) pt v = kernel_entry v;
  b_entries v : 0 ≤ v < 2 ^ 39 → kernel_va v = false →
    pte_to_pa <$> pt_lookup (mem h) pt v = us !! page_of v;
  b_keys va b : us !! va = Some b →
    page_aligned va ∧ va + PAGE_SIZE ≤ 2 ^ 39 ∧ kernel_va va = false;
  b_pages va b : us !! va = Some b → ¬ is_alloc h0 b ∧ ¬ is_table (mem h) pt b ∧ b ∉ ex;
  b_inj va va' b : us !! va = Some b → us !! va' = Some b → va = va';
  b_extra b : b ∈ ex → ¬ is_alloc h0 b ∧ ¬ is_table (mem h) pt b;
  b_nodup : NoDup ex;
  b_alloc b : is_alloc h b ↔ is_alloc h0 b ∨ is_table (mem h) pt b ∨
    (∃ va, us !! va = Some b) ∨ b ∈ ex;
}.

Section pages.

Lemma page_of_spec v : page_of v ≤ v < page_of v + PAGE_SIZE ∧ page_of v mod PAGE_SIZE = 0.
Proof.
  unfold page_of, PAGE_SIZE. pose proof (Z.div_mod v 4096). pose proof (Z.mod_pos_bound v 4096).
  split; [lia|]. replace (v - v mod 4096) with (v / 4096 * 4096) by lia. by apply Z.mod_mul.
Qed.
Lemma page_of_aligned va : va mod PAGE_SIZE = 0 → page_of va = va.
Proof. unfold page_of. lia. Qed.
Lemma page_of_range va v : va mod PAGE_SIZE = 0 → va ≤ v < va + PAGE_SIZE ↔ page_of v = va.
Proof.
  intros Hm. pose proof (page_of_spec v) as [Hb Hp]. unfold PAGE_SIZE in *. split; [|lia].
  intros Hv. pose proof (Z.div_mod va 4096). pose proof (Z.div_mod (page_of v) 4096). lia.
Qed.
Lemma page_of_lookup m pt va : 0 ≤ va < 2 ^ 39 → pt_lookup m pt (page_of va) = pt_lookup m pt va.
Proof.
  intros Hva. apply pt_lookup_same_vpn. pose proof (page_of_spec va) as [Hb Hm]. unfold PAGE_SIZE in *.
  pose proof (Z.div_mod va 4096). pose proof (Z.div_mod (page_of va) 4096).
  pose proof (Z.mod_pos_bound va 4096). apply same_vpn_div; lia.
Qed.
(** The kernel's map consists of whole pages. *)
Lemma kernel_va_page v : kernel_va (page_of v) = kernel_va v.
Proof.
  assert (∀ lo n, lo mod 4096 = 0 → n mod 4096 = 0 →
    ((lo <=? page_of v) && (page_of v <? lo + n)) = ((lo <=? v) && (v <? lo + n))) as H.
  { intros lo n Hlo Hn. pose proof (page_of_spec v) as [Hb Hp]. unfold PAGE_SIZE in *.
    pose proof (Z.div_mod lo 4096). pose proof (Z.div_mod n 4096). pose proof (Z.div_mod (page_of v) 4096).
    destruct (Z.leb_spec lo (page_of v)), (Z.leb_spec lo v), (Z.ltb_spec (page_of v) (lo + n)),
      (Z.ltb_spec v (lo + n)); (done || lia). }
  unfold kernel_va, plic_va. by rewrite !H.
Qed.
Lemma kernel_va_limit v : kernel_va v = true → USER_LIMIT ≤ v < 2 ^ 39.
Proof.
  unfold kernel_va, plic_va, USER_LIMIT, kernel_start, kernel_size, UART_PAGE, PAGE_SIZE. lia.
Qed.
Lemma kernel_va_stack : kernel_va STACK_VA = false.
Proof. by vm_compute. Qed.
End pages.

Section building.
Context (h0 : mach).
Implicit Types (h : mach) (m : memory) (us : gmap Z Z) (ex : list Z).

(** Pages outside the tables of [pt] are untouched. *)
Definition contents_kept (pt : Z) h h' : Prop :=
  ∀ b a, is_alloc h b → ¬ is_table (mem h) pt b → in_page b a → load64 (mem h') a = load64 (mem h) a.

Lemma building_page_aligned h pt us ex va b :
  building h0 h pt us ex → us !! va = Some b → page_aligned b ∧ b + PAGE_SIZE < 2 ^ 56.
Proof.
  intros H Hb. apply (is_alloc_aligned h); [apply H|]. apply (b_alloc _ _ _ _ _ H). eauto.
Qed.

(** A further fresh page. *)
Lemma building_alloc_wp h pt us ex :
  building h0 h pt us ex →
  wp page_alloc (λ r h', match r with
    | None => h' = h ∧ free_count h = 0
    | Some p => building h0 h' pt us (p :: ex) ∧ mem h' = mem h ∧ page_aligned p ∧
        p + PAGE_SIZE < 2 ^ 56 ∧ ¬ is_alloc h p ∧ (∀ b, is_alloc h b → is_alloc h' b) ∧
        free_count h' = free_count h - 1
    end) h.
Proof.
  intros [He [Hp Hw Ho] Hroot Hl Hn Hk Hes Hks Hps Hi Hx Hnd Hal].
  eapply wp_mono; [by apply page_alloc_wp|].
  intros [p|] h' (Hp' & Hm & Hg & _ & H); [|by destruct H].
  destruct H as (Hpa & Hpb & _ & Hpn & Hal' & Hf & _).
  assert (extends h h') as He' by (split; [done|done|intros; apply Hal'; auto|intros; by rewrite Hm]).
  assert (∀ b, is_alloc h b → b ≠ p) as Hne by (intros b Hb ->; done).
  split; [|split_and!; try done; intros b Hb; apply Hal'; auto].
  split; rewrite ?Hm; try done.
  - by apply (extends_trans _ h).
  - split; [done|by rewrite Hm|]. intros b. rewrite Hm. intros Hb. apply Hal'. right. by apply Ho.
  - intros va b Hb. destruct (Hps va b Hb) as (H1 & H2 & H3). split_and!; try done.
    apply not_elem_of_cons. split; [|done]. apply Hne, Hal. eauto.
  - intros b [->|Hb]%elem_of_cons; [|by apply Hx]. split.
    + intros Hb. by apply Hpn, (ext_alloc _ _ He).
    + intros Hb. by apply Hpn, Ho.
  - apply NoDup_cons. split; [|done]. intros Hin. apply Hpn, Hal. auto.
  - intros b. rewrite Hal', Hal, elem_of_cons. tauto.
Qed.

(** Writing into fresh pages that are no tables. *)
Lemma building_write h pt us ex p f :
  building h0 h pt us ex → is_alloc h p → ¬ is_alloc h0 p → ¬ is_table (mem h) pt p →
  (∀ m a, ¬ in_page p a → load64 (f m) a = load64 m a) →
  building h0 (set_mem f h) pt us ex.
Proof.
  intros [He [Hp Hw Ho] Hroot Hl Hn Hk Hes Hks Hps Hi Hx Hnd Hal] Hpa Hpn Hpt Hf.
  set (h' := set_mem f h).
  assert (∀ b a, is_table (mem h) pt b → in_page b a → load64 (mem h') a = load64 (mem h) a) as Hm.
  { intros b a Hb Hin. apply Hf. intros Hin'. apply Hpt.
    pose proof (Ho b Hb) as Hb'. apply is_alloc_aligned in Hb' as [Hb' _]; [|done].
    apply is_alloc_aligned in Hpa as [Hpa _]; [|done]. by rewrite (pages_apart p b a). }
  assert (∀ v, pt_lookup (mem h') pt v = pt_lookup (mem h) pt v) as Hlk
    by (intros; by apply pt_lookup_frame).
  assert (∀ b, is_table (mem h') pt b ↔ is_table (mem h) pt b) as Htb
    by (intros; by apply is_table_frame).
  split; try done.
  - by apply (extends_write _ _ p).
  - split; [done|by apply (pt_wf_frame (mem h))|]. intros b Hb. by apply Ho, Htb.
  - intros v pte Hv. rewrite Hlk. by apply Hl.
  - intros b. rewrite Htb. by apply Hn.
  - intros v. rewrite Hlk. by apply Hk.
  - intros v. rewrite Hlk. by apply Hes.
  - intros va b Hb. rewrite Htb. by apply (Hps va).
  - intros b. rewrite Htb. by apply Hx.
  - intros b. rewrite Htb. apply Hal.
Qed.

(** Adding tables and entries, with the pages redistributed between [us] and [ex]. *)
Lemma building_grown h h' pt us ex us' ex' :
  building h0 h pt us ex → pt_grows h h' pt → leaves_ok (mem h') pt →
  (∀ v, 0 ≤ v < 2 ^ 39 → kernel_va v = true → pt_lookup (mem h') pt v = kernel_entry v) →
  (∀ v, 0 ≤ v < 2 ^ 39 → kernel_va v = false → pte_to_pa <$> pt_lookup (mem h') pt v = us' !! page_of v) →
  (∀ va b, us' !! va = Some b → page_aligned va ∧ va + PAGE_SIZE ≤ 2 ^ 39 ∧ kernel_va va = false) →
  (∀ b, ((∃ va, us' !! va = Some b) ∨ b ∈ ex') ↔ ((∃ va, us !! va = Some b) ∨ b ∈ ex)) →
  (∀ va b, us' !! va = Some b → b ∉ ex') →
  (∀ va va' b, us' !! va = Some b → us' !! va' = Some b → va = va') → NoDup ex' →
  building h0 h' pt us' ex'.
Proof.
  intros [He [Hp Hw Ho] Hroot Hl Hn _ _ _ Hps _ Hx _ Hal] Hg Hl' Hk' Hes' Hks' Heq Hx' Hi' Hnd'.
  destruct (extends_grows _ _ _ _ He Hg Hn) as [He' Hn'].
  assert (∀ b, (∃ va, us' !! va = Some b) ∨ b ∈ ex' → ¬ is_alloc h0 b ∧ ¬ is_table (mem h') pt b) as Hfresh.
  { intros b Hb%Heq. assert (is_alloc h b) as Hba by (apply Hal; tauto).
    assert (¬ is_alloc h0 b ∧ ¬ is_table (mem h) pt b) as [H1 H2].
    { destruct Hb as [[va Hb]|Hb]; [|by apply Hx]. by destruct (Hps va b Hb) as (? & ? & _). }
    split; [done|]. by intros [Hb'|Hb']%(grows_tables_new _ _ _ Hg). }
  split; try done.
  - split; apply Hg.
  - intros va b Hb. destruct (Hfresh b) as [? ?]; [left; by exists va|]. split; [done|].
    split; [done|by apply (Hx' va)].
  - intros b Hb. apply Hfresh. by right.
  - intros b. rewrite Heq. split.
    + intros [Hb|Hb]%(grows_alloc_new _ _ _ Hg); [|auto]. apply Hal in Hb as [Hb|[Hb|Hb]]; [auto| |auto].
      right. left. by apply (grows_tables _ _ _ b Hg).
    + intros [Hb|[Hb|Hb]]; [by apply He'|by apply (grows_owned _ _ _ Hg)|].
      apply (grows_alloc _ _ _ Hg), Hal. auto.
Qed.
Lemma grows_contents h h' pt : pages_wf h → pt_grows h h' pt → contents_kept pt h h'.
Proof.
  intros Hp Hg b a Hb Hnb Hin. apply (grows_frame _ _ _ Hg). intros t Ht Hin'.
  assert (is_alloc h' t) as Hta by by apply (grows_owned _ _ _ Hg).
  assert (is_alloc h' b) as Hba by by apply (grows_alloc _ _ _ Hg).
  apply is_alloc_aligned in Hta as [Hta _]; [|apply Hg].
  apply is_alloc_aligned in Hba as [Hba _]; [|apply Hg].
  rewrite (pages_apart t b a) in Ht by done. by apply (grows_tables_new _ _ _ Hg) in Ht as [?|?].
Qed.
(** One page, as [mapped_upto] describes it. *)
Lemma mapped_page m m' pt va pa flags :
  va mod PAGE_SIZE = 0 → mapped_upto m m' pt va pa flags 1 →
  ∀ v, 0 ≤ v < 2 ^ 39 → pt_lookup m' pt v =
    if decide (page_of v = va) then Some (pa_to_pte pa (Z.lor flags PTE_V)) else pt_lookup m pt v.
Proof.
  intros Hvam Hm v Hv. rewrite Hm, Z.mul_1_l by done. pose proof (page_of_range va v Hvam) as Hpr.
  destruct (decide (page_of v = va)) as [E|E].
  - apply Hpr in E. rewrite decide_True by done. assert ((v - va) / PAGE_SIZE = 0) as ->; [|by rewrite Z.add_0_r].
    apply Z.div_small. lia.
  - rewrite decide_False; [done|]. intros Hin. by apply E, Hpr.
Qed.
(** The page [p] of [ex] becomes the page at [va]. *)
Lemma building_add h h' pt us ex1 ex2 p va flags :
  building h0 h pt us (ex1 ++ p :: ex2) → pt_grows h h' pt → leaves_ok (mem h') pt →
  page_aligned va → va + PAGE_SIZE ≤ 2 ^ 39 → 0 ≤ Z.lor flags PTE_V < 2 ^ 10 →
  kernel_va va = false → us !! va = None →
  (∀ v, 0 ≤ v < 2 ^ 39 → pt_lookup (mem h') pt v =
     if decide (page_of v = va) then Some (pa_to_pte p (Z.lor flags PTE_V)) else pt_lookup (mem h) pt v) →
  building h0 h' pt (<[va := p]> us) (ex1 ++ ex2).
Proof.
  intros H Hg Hl' Hva Hvb Hfb Hkv Hun Hlk.
  assert (∀ b, b ∈ ex1 ++ p :: ex2 ↔ b = p ∨ b ∈ ex1 ++ ex2) as Hexs
    by (intros b; rewrite !elem_of_app, elem_of_cons; tauto).
  pose proof (b_nodup _ _ _ _ _ H) as Hnd. rewrite <- Permutation_middle in Hnd.
  apply NoDup_cons in Hnd as [Hpx Hnd].
  assert (∀ a b, us !! a = Some b → b ≠ p ∧ b ∉ ex1 ++ ex2) as Hup.
  { intros a b Hb. destruct (b_pages _ _ _ _ _ H a b Hb) as (_ & _ & Hin). rewrite Hexs in Hin. tauto. }
  destruct (is_alloc_aligned h p) as [Hpal Hpb]; [apply H|apply (b_alloc _ _ _ _ _ H); do 3 right; apply list_elem_of_middle|].
  apply (building_grown h h' pt us (ex1 ++ p :: ex2)); try done.
  - intros v Hv Hkt. rewrite Hlk by done. rewrite decide_False; [by apply H|]. intros E.
    rewrite <- kernel_va_page, E in Hkt. congruence.
  - intros v Hv Hkf. rewrite Hlk by done. case_decide as E.
    + rewrite E, lookup_insert_eq. cbn. f_equal. apply pte_to_pa_of; [done|unfold PAGE_SIZE in Hpb; lia|done].
    + rewrite lookup_insert_ne by done. by apply H.
  - intros a b. rewrite lookup_insert_Some. intros [[<- <-]|[_ Hb]]; [done|by apply (b_keys _ _ _ _ _ H a b)].
  - intros b. rewrite Hexs. split.
    + intros [(a & [[<- <-]|[_ Hb]]%lookup_insert_Some)|Hb]; [auto|left; by exists a|auto].
    + intros [(a & Hb)|[->|Hb]]; [left; exists a| |auto].
      * rewrite lookup_insert_ne; [done|]. intros ->. congruence.
      * left. exists va. apply lookup_insert_eq.
  - intros a b. rewrite lookup_insert_Some. intros [[<- <-]|[_ Hb]]; [done|by apply (Hup a)].
  - intros a a' b. rewrite !lookup_insert_Some. intros [[<- <-]|[_ Hb]] [[<- E]|[_ Hb']]; try done.
    + by destruct (Hup a' p Hb').
    + subst b. by destruct (Hup a p Hb).
    + by apply (b_inj _ _ _ _ _ H a a' b).
Qed.
(** A fresh page of [ex] is mapped at [va]. *)
Lemma building_map_wp h pt us ex1 ex2 p va flags :
  building h0 h pt us (ex1 ++ p :: ex2) → page_aligned va → va + PAGE_SIZE ≤ 2 ^ 39 →
  pte_leaf flags = true → 0 ≤ Z.lor flags PTE_V < 2 ^ 10 →
  wp (pgtable_map pt va p PAGE_SIZE flags) (λ r h', contents_kept pt h h' ∧
    (∀ b, is_alloc h b → is_alloc h' b) ∧
    (kernel_va va = false → us !! va = None → 2 ≤ free_count h →
       r = Ok tt ∧ free_count h - 2 ≤ free_count h') ∧
    match r with
    | Ok _ => us !! va = None ∧ kernel_va va = false ∧
        building h0 h' pt (<[va := p]> us) (ex1 ++ ex2) ∧
        ∀ v, 0 ≤ v < 2 ^ 39 → pt_lookup (mem h') pt v =
          if decide (page_of v = va) then Some (pa_to_pte p (Z.lor flags PTE_V))
          else pt_lookup (mem h) pt v
    | Err => building h0 h' pt us (ex1 ++ p :: ex2) ∧
        ∀ v, 0 ≤ v < 2 ^ 39 → pt_lookup (mem h') pt v = pt_lookup (mem h) pt v
    end) h.
Proof.
  intros H Hva Hvb Hfl Hfb. pose proof (b_ready _ _ _ _ _ H) as [Hp Hw Ho].
  pose proof (b_leaves _ _ _ _ _ H) as Hl.
  destruct (is_alloc_aligned h p) as [Hpal Hpb]; [done|apply (b_alloc _ _ _ _ _ H); do 3 right; apply list_elem_of_middle|].
  eapply wp_mono.
  { apply pgtable_map_wp; try done; [by apply free_count_nonneg|lia]. }
  change (PAGE_SIZE / PAGE_SIZE) with 1. intros r h' (Hg & _ & Hr).
  split; [by apply grows_contents|]. split; [exact (grows_alloc _ _ _ Hg)|]. pose proof Hva as [Hva0 Hvam].
  assert (0 ≤ va < 2 ^ 39) as Hvr by (unfold PAGE_SIZE in *; lia).
  split.
  { intros Hkv Hun Hf. pose proof (missing_bound (mem h) pt va) as Hmb.
    assert (one_region va 1) as Hreg by (intros i Hi; assert (i = 0) as -> by lia; by rewrite Z.add_0_r).
    destruct r as [[]|].
    - destruct Hr as (_ & _ & Hc). split; [done|]. specialize (Hc Hreg ltac:(lia)). lia.
    - destruct Hr as (k & Hk & _ & [Hbad|[_ Hc]]); [|specialize (Hc Hreg); lia].
      destruct Hbad. assert (k = 0) as -> by lia. rewrite Z.add_0_r.
      pose proof (b_entries _ _ _ _ _ H va Hvr Hkv) as E. rewrite page_of_aligned, Hun in E by done.
      by destruct (pt_lookup (mem h) pt va). }
  destruct r as [[]|].
  - destruct Hr as (Hnone & Hm & _). specialize (Hnone 0 ltac:(lia)). rewrite Z.add_0_r in Hnone.
    pose proof (mapped_page _ _ _ _ _ _ Hvam Hm) as Hlk.
    assert (kernel_va va = false) as Hkv.
    { destruct (kernel_va va) eqn:E; [|done]. rewrite (b_kernel _ _ _ _ _ H va Hvr E) in Hnone.
      unfold kernel_entry in Hnone. by rewrite E in Hnone. }
    assert (us !! va = None) as Hun.
    { pose proof (b_entries _ _ _ _ _ H va Hvr Hkv) as E. by rewrite Hnone, page_of_aligned in E. }
    split; [done|]. split; [done|]. split; [|exact Hlk].
    apply (building_add h h' pt us ex1 ex2 p va flags); try done. by eapply leaves_ok_mapped.
  - destruct Hr as (k & Hk' & Hm & _). assert (k = 0) as -> by lia.
    assert (∀ v, 0 ≤ v < 2 ^ 39 → pt_lookup (mem h') pt v = pt_lookup (mem h) pt v) as Hlk.
    { intros v Hv. rewrite Hm by done. rewrite decide_False; [done|lia]. }
    split; [|done]. pose proof H as [_ _ _ _ _ Hk Hes Hks Hps Hi _ Hnd _].
    apply (building_grown h h' pt us (ex1 ++ p :: ex2)); try done.
    + intros v pte Hv. rewrite Hlk by done. by apply Hl.
    + intros v Hv. rewrite Hlk by done. by apply Hk.
    + intros v Hv. rewrite Hlk by done. by apply Hes.
    + intros va' b Hb. by destruct (b_pages _ _ _ _ _ H va' b Hb) as (_ & _ & ?).
Qed.
(** What adding a page leaves: the old user pages untouched and mapped as before. *)
Lemma kept_lookup h h' pt us ex p f :
  building h0 h pt us ex → is_alloc h' p → ¬ is_alloc h p → pages_wf h' → mem h' = f (mem h) →
  (∀ m a, ¬ in_page p a → load64 (f m) a = load64 m a) →
  ∀ b a, is_alloc h b → in_page b a → load64 (mem h') a = load64 (mem h) a.
Proof.
  intros H Hp' Hp Hpw Hm Hf b a Hb Ha. rewrite Hm, Hf; [done|]. intros Hin. apply Hp.
  apply is_alloc_aligned in Hp' as [Hpa _]; [|done].
  pose proof Hb as Hb'. apply is_alloc_aligned in Hb' as [Hba _]; [|apply H].
  by rewrite (pages_apart p b a).
Qed.
(** The step of every loop that fills an address space: a fresh page, written by [f],
    becomes the page at [va]. *)
Lemma building_page_wp h pt us ex va flags (f : Z → memory → memory) :
  building h0 h pt us ex → page_aligned va → va + PAGE_SIZE ≤ 2 ^ 39 →
  pte_leaf flags = true → 0 ≤ Z.lor flags PTE_V < 2 ^ 10 →
  (∀ p m a, page_aligned p → p + PAGE_SIZE < 2 ^ 56 → ¬ in_page p a → load64 (f p m) a = load64 m a) →
  wp (page ←? (o ← page_alloc; mret (ok_or o));
      _ ← modify (set_mem (f page)); pgtable_map pt va page PAGE_SIZE flags) (λ r h',
    (∃ us' ex', building h0 h' pt us' ex') ∧
    (kernel_va va = false → us !! va = None → 3 ≤ free_count h →
       r = Ok tt ∧ free_count h - 3 ≤ free_count h') ∧
    (r = Ok tt → ∃ p, page_aligned p ∧ p + PAGE_SIZE < 2 ^ 56 ∧ us !! va = None ∧
       kernel_va va = false ∧ building h0 h' pt (<[va := p]> us) ex ∧
       (∀ a, in_page p a → load64 (mem h') a = load64 (f p (mem h)) a) ∧ contents_kept pt h h' ∧
       ∀ v, 0 ≤ v < 2 ^ 39 → pt_lookup (mem h') pt v =
         if decide (page_of v = va) then Some (pa_to_pte p (Z.lor flags PTE_V))
         else pt_lookup (mem h) pt v)) h.
Proof.
  intros H Hva Hvb Hfl Hfb Hf. apply wp_try_bind, wp_bind. eapply wp_mono; [by apply building_alloc_wp|].
  intros [p|] h1; cbn [ok_or].
  2: { intros [-> Hz]. apply wp_ret. split; [by exists us, ex|]. split; [lia|done]. }
  intros (H1 & Hm1 & Hpa & Hpb & Hpn & Hal1 & Hf1). apply wp_ret, wp_bind, wp_modify.
  pose proof (b_extra _ _ _ _ _ H1 p (list_elem_of_here _ _)) as [Hp0 Hpt].
  assert (is_alloc h1 p) as Hp1 by (apply (b_alloc _ _ _ _ _ H1); do 3 right; by left).
  assert (∀ m a, ¬ in_page p a → load64 (f p m) a = load64 m a) as Hfp by (intros; by apply Hf).
  pose proof (building_write _ _ _ _ p (f p) H1 Hp1 Hp0 Hpt Hfp) as H2. set (h2 := set_mem (f p) h1) in *.
  assert (∀ b a, is_alloc h b → in_page b a → load64 (mem h2) a = load64 (mem h) a) as Hkeep.
  { apply (kept_lookup h h2 pt us ex p (f p)); [done..|apply H2|by rewrite <- Hm1|done]. }
  assert (∀ b, is_table (mem h2) pt b ↔ is_table (mem h) pt b) as Htab.
  { intros b. apply is_table_frame. intros b' a Hb'. apply Hkeep.
    by apply (ready_owned _ _ (b_ready _ _ _ _ _ H)). }
  eapply wp_mono; [by apply (building_map_wp h2 pt us [] ex p va flags)|].
  intros r h3 (Hck & _ & Hok & Hr). change (free_count h2) with (free_count h1) in Hok.
  split; [|split].
  - destruct r as [[]|]; [exists (<[va:=p]> us), ex; by apply Hr|exists us, (p :: ex); by apply Hr].
  - intros Hkv Hun Hfr. destruct Hok as [-> ?]; [done|done|lia|]. split; [done|lia].
  - intros ->. destruct Hr as (Hun & Hkv & H3 & Hlk). exists p. do 5 (split; [done|]). split; [|split].
    + intros a Ha. rewrite (Hck p a); [by cbn; rewrite Hm1|done| |done].
      destruct (b_extra _ _ _ _ _ H2 p (list_elem_of_here _ _)) as [_ ?]. done.
    + intros b a Hb Hnb Ha. rewrite (Hck b a); [by apply (Hkeep b)|by apply Hal1|by rewrite Htab|done].
    + intros v Hv. rewrite Hlk by done. case_decide; [done|]. apply pt_lookup_frame. intros b a Hb.
      apply Hkeep. by apply (ready_owned _ _ (b_ready _ _ _ _ _ H)).
Qed.
End building.

(** ** The first and the last step *)

(** A user task's address space before it has an image: the kernel's map and a stack. *)
Definition stack_flags : Z := Z.lor (Z.lor PTE_R PTE_W) PTE_U.

Section ends.
Implicit Types (h : mach) (t : Task) (us : gmap Z Z) (ex : list Z).

(** A new page table with the kernel's map; [ex] are pages allocated before it. *)
Lemma building_start_wp h0 h h2 pt ex :
  extends h0 h → NoDup ex → (∀ b, is_alloc h b ↔ is_alloc h0 b ∨ b ∈ ex) →
  (∀ b, b ∈ ex → ¬ is_alloc h0 b) →
  extends h h2 → pt_ready h2 pt → blank (mem h2) pt → pt + PAGE_SIZE < 2 ^ 56 → ¬ is_alloc h pt →
  (∀ b, is_alloc h2 b ↔ b = pt ∨ is_alloc h b) →
  wp (map_kernel pt) (λ r h', extends h0 h' ∧ contents_kept pt h2 h' ∧
    (r = Ok tt → building h0 h' pt ∅ ex) ∧
    (24 ≤ free_count h2 → r = Ok tt ∧ free_count h2 - 24 ≤ free_count h')) h2.
Proof.
  intros He Hnd Hal Hex He2 Hr Hbl Hptb Hptn Hal2.
  assert (∀ b, is_table (mem h2) pt b ↔ b = pt) as Htab by (intros; by apply blank_tables).
  assert (∀ b, is_table (mem h2) pt b → ¬ is_alloc h0 b) as Hnew.
  { intros b ->%Htab Hb. by apply Hptn, (ext_alloc _ _ He). }
  eapply wp_mono; [by apply map_kernel_blank|]. intros r h' [(Hg & Hkp & Hkm) Hok].
  destruct (extends_grows _ _ _ _ (extends_trans _ _ _ He He2) Hg Hnew) as [He3 Hnew3].
  split; [done|]. split; [apply grows_contents; [apply Hr|done]|]. split; [|done].
  intros ->. specialize (Hkm eq_refl).
  assert (∀ b, b ∈ ex → ¬ is_table (mem h') pt b) as Hxt.
  { intros b Hb [->%Htab|Hb']%(grows_tables_new _ _ _ Hg); [apply Hptn|apply Hb', Hal2; right];
      apply Hal; auto. }
  split; try done.
  - by eapply grows_ready.
  - by apply kernel_part_leaves.
  - intros v Hv _. by apply Hkm.
  - intros v Hv Hkv. rewrite Hkm by done. unfold kernel_entry. by rewrite Hkv.
  - intros b Hb. split; [by apply Hex|by apply Hxt].
  - intros b. split.
    + intros [Hb|Hb]%(grows_alloc_new _ _ _ Hg); [|auto]. apply Hal2 in Hb as [->|Hb].
      * right. left. apply (grows_tables _ _ _ pt Hg). by apply Htab.
      * apply Hal in Hb as [?|?]; auto.
    + intros [Hb|[Hb|[[va Hb]|Hb]]]; [by apply He3|by apply (grows_owned _ _ _ Hg)|done|].
      apply (grows_alloc _ _ _ Hg), Hal2. right. apply Hal. auto.
Qed.

(** A task's own addresses are below the kernel's. *)
Lemma user_page_limit t va :
  layout_ok t → user_page t va → 0 ≤ va < USER_LIMIT ∧ va mod PAGE_SIZE = 0.
Proof.
  intros Hlay Hva. destruct (layout_ranges t Hlay) as [(Hia & Hib & _) (Hha & _)].
  assert (∀ w, page_aligned w → w < USER_LIMIT + PAGE_SIZE → w ≤ USER_LIMIT) as Hup.
  { intros w [_ Ha] Hw. unfold USER_LIMIT, PAGE_SIZE in *. pose proof (Z.div_mod w 4096). lia. }
  assert (image_hi t ≤ USER_LIMIT ∧ heap_hi t ≤ USER_LIMIT) as [Hi Hh].
  { destruct Hlay as [(H1 & H2 & H3) ([H4 _] & H5) _ _ _ _]. split; (apply Hup; [done|]).
    - unfold image_hi.
      assert (image_base t +' image_size t +' PAGE_SIZE -' 1 = image_base t + image_size t + 4095) as ->.
      { unfold USER_LIMIT in H3. unfold u64, PAGE_SIZE. rewrite (Z.mod_small (image_base t + image_size t)) by lia.
        rewrite (Z.mod_small (_ + 4096)) by lia. rewrite Z.mod_small by lia. lia. }
      destruct (page_down_aligned (image_base t + image_size t + 4095)) as [_ Hb];
        unfold is_u64, USER_LIMIT, PAGE_SIZE in *; lia.
    - unfold heap_hi. destruct (align_up_spec (heap_end t)) as (w & -> & _ & Hb);
        unfold USER_LIMIT, PAGE_SIZE in *; lia. }
  destruct Hia as [? _]. destruct (proj1 (lay_heap _ Hlay)) as [? _].
  destruct Hva as [[Hva Hm]|[Hva Hm]]; (split; [lia|done]).
Qed.
Lemma user_page_spec t va :
  layout_ok t → user_page t va →
  0 ≤ va < 2 ^ 39 ∧ page_of va = va ∧ kernel_va va = false ∧ va ≠ STACK_VA.
Proof.
  intros Hlay Hva. destruct (user_page_limit t va Hlay Hva) as [Hr Hm].
  split; [unfold USER_LIMIT in Hr; lia|]. split; [by apply page_of_aligned|]. split.
  - destruct (kernel_va va) eqn:E; [|done]. apply kernel_va_limit in E. lia.
  - unfold USER_LIMIT, STACK_VA, USER_STACK_TOP, PAGE_SIZE in *. lia.
Qed.
Lemma user_va_spec t va :
  layout_ok t → user_va t va → 0 ≤ va < 2 ^ 39 ∧ page_of va = va ∧ kernel_va va = false.
Proof.
  intros Hlay [Hva|[_ ->]]; [|by vm_compute].
  by destruct (user_page_spec t va Hlay Hva) as (? & ? & ? & _).
Qed.

(** The finished space, seen as a task's. *)
Record built (h0 h : mach) (us : gmap Z Z) (ex : list Z) (t : Task) : Prop := {
  built_building : building h0 h (pagetable t) us ex;
  built_layout : layout_ok t;
  built_stack : us !! STACK_VA = Some (user_stack t) ∧ user_stack t ≠ 0;
  built_pages va b : us !! va = Some b → user_va t va;
  built_kstack : ¬ is_table (mem h) (pagetable t) (kernel_stack t);
}.
Lemma built_maps h0 h us ex t va b :
  built h0 h us ex t → user_va t va → maps (mem h) t va b ↔ us !! va = Some b.
Proof.
  intros [Hb Hlay _ _ _] Hva. destruct (user_va_spec t va Hlay Hva) as (Hr & Hp & Hk).
  unfold maps. by rewrite (b_entries _ _ _ _ _ Hb), Hp.
Qed.
Lemma built_user_ok h0 h us ex t : built h0 h us ex t → user_ok (mem h) t.
Proof.
  intros Ht. pose proof (λ va b, built_maps h0 h us ex t va b Ht) as Hm.
  pose proof Ht as [Hb Hlay [Hs Hs0] Hp _].
  assert (user_va t STACK_VA) as Hsv by by right.
  split.
  - intros _. by apply Hm.
  - intros va va' b Hva Hva' H1%Hm H2%Hm; [|done..]. by apply (b_inj _ _ _ _ _ Hb va va' b).
  - intros va b Hva H1%Hm; [|done]. by apply (b_pages _ _ _ _ _ Hb va b).
  - intros va pte Hva Hl Hu. left. destruct (kernel_va va) eqn:E.
    + rewrite (b_kernel _ _ _ _ _ Hb va Hva E) in Hl.
      destruct (kernel_entry_translate va pte Hva Hl) as (_ & _ & HU). destruct Hu as [?|Hu]; [congruence|].
      unfold user_bit in Hu. by rewrite HU in Hu.
    + pose proof (b_entries _ _ _ _ _ Hb va Hva E) as H. rewrite Hl in H. symmetry in H.
      by apply (Hp _ (pte_to_pa pte)).
Qed.
Lemma built_space_ok h0 h us ex t : built h0 h us ex t → space_ok h t.
Proof.
  intros Ht. pose proof (built_user_ok _ _ _ _ _ Ht) as Hu. destruct Ht as [Hb Hlay _ _ Hk].
  split; try done; [apply Hb|apply Hb|].
  intros v Hv Hkv. rewrite (b_kernel _ _ _ _ _ Hb v Hv Hkv).
  destruct (kernel_entry v) as [pte|] eqn:E; [cbn; f_equal; by apply kernel_entry_pa|].
  unfold kernel_entry in E. by rewrite Hkv in E.
Qed.
(** Its pages, exactly. *)
Lemma built_space_page h0 h us ex t b :
  built h0 h us ex t →
  space_page (mem h) t b ↔ is_table (mem h) (pagetable t) b ∨ ∃ va, us !! va = Some b.
Proof.
  intros Ht. pose proof (λ va b, built_maps h0 h us ex t va b Ht) as Hm.
  pose proof (built_user_ok _ _ _ _ _ Ht) as Hu. pose proof Ht as [Hb Hlay [Hs Hs0] Hp _]. split.
  - intros [?|[(va & Hva & Hb')|[_ ->]]]; [by left|right; exists va|right; by exists STACK_VA].
    apply Hm; [by left|done].
  - intros [?|[va Hb']]; [by left|]. pose proof (Hp va b Hb') as Hva.
    apply (user_va_space (mem h) t va b); [done..|]. by apply Hm.
Qed.
(** With the kernel stack the only further page, nothing else was allocated. *)
Lemma built_exact h0 h us t b :
  built h0 h us [kernel_stack t] t → is_alloc h b ↔ is_alloc h0 b ∨ owns (mem h) t b.
Proof.
  intros Ht. rewrite (b_alloc _ _ _ _ _ (built_building _ _ _ _ _ Ht)). unfold owns.
  rewrite (built_space_page _ _ _ _ _ b Ht), list_elem_of_singleton. tauto.
Qed.
Lemma built_fresh h0 h us ex t b :
  built h0 h us ex t → space_page (mem h) t b → is_alloc h b ∧ ¬ is_alloc h0 b.
Proof.
  intros Ht Hb. apply (built_space_page _ _ _ _ _ b Ht) in Hb.
  pose proof (built_building _ _ _ _ _ Ht) as H. split.
  - apply (b_alloc _ _ _ _ _ H). destruct Hb; auto.
  - destruct Hb as [Hb|[va Hb]]; [by apply (b_new _ _ _ _ _ H)|].
    by destruct (b_pages _ _ _ _ _ H va b Hb) as (? & _).
Qed.
End ends.
