(* ===== verification/Buffers.v ===== *)
(** User memory as the kernel's copy loops see it: [mem_copy_from_user] and
    [mem_copy_to_user] of [Task.v].

    [virt_to_phys] translates kernel addresses too (every page table maps the kernel) and does
    not look at the user bit, so the loops are safe for buffers outside the kernel's
    ranges only: [user_range]. *)

From S2P Require Import Prelude Arch Page Memory Machine Pgtable Vm Trap Ipc Task Space Sched Inv IpcFacts Create Build.

(** The byte that task [t] sees at [va]. *)
Definition user_byte (m : memory) (t : Task) (va : Z) : option Z := load8 m <$> translate m (pagetable t) va.

(** At most the bytes of [t] in [va, va + len) differ. *)
Record user_written (h h' : mach) (t : Task) (va len : Z) : Prop := {
  uw_alloc : PAGE_ALLOCATOR h' = PAGE_ALLOCATOR h;
  uw_globals : same_globals h h';
  uw_page a : (∀ v b, va ≤ v < va + len → maps (mem h) t (page_of v) b → ¬ in_page b a) →
    load64 (mem h') a = load64 (mem h) a;
  uw_byte x : (∀ v, va ≤ v < va + len → translate (mem h) (pagetable t) v ≠ Some x) →
    load8 (mem h') x = load8 (mem h) x;
}.

Section translation.
Implicit Types (m : memory) (t : Task) (h : mach).

Lemma translate_page m root v pa :
  0 ≤ v < 2 ^ 39 → translate m root v = Some pa →
  ∃ b, pte_to_pa <$> pt_lookup m root (page_of v) = Some b ∧ pa = b + v mod PAGE_SIZE ∧
    page_aligned b ∧ in_page b pa.
Proof.
  intros Hv. unfold translate. change (PAGE_SIZE - 1) with (Z.ones 12). rewrite Z.land_ones, <- page_of_lookup by lia.
  destruct (pt_lookup m root (page_of v)) as [pte|]; [|done]. intros [= <-].
  pose proof (pte_to_pa_aligned pte) as Ha. pose proof (pte_to_pa_bound pte) as Hb.
  exists (pte_to_pa pte). split; [done|].
  change (2 ^ 12) with 4096.
  pose proof (Z.mod_pos_bound v 4096 ltac:(lia)) as Hm. destruct Ha as [Ha0 Ham].
  unfold PAGE_SIZE, in_page, u64 in *. rewrite Z.mod_small by lia. split; [done|]. split; [by split|]. unfold PAGE_SIZE. lia.
Qed.
(** A user address leads to a page of the task's own. *)
Lemma user_translate m t v pa :
  user_ok m t → 0 ≤ v < 2 ^ 39 → kernel_va v = false → translate m (pagetable t) v = Some pa →
  ∃ b, user_va t (page_of v) ∧ maps m t (page_of v) b ∧ pa = b + v mod PAGE_SIZE ∧
    page_aligned b ∧ in_page b pa.
Proof.
  intros Hu Hv Hk Ht. destruct (translate_page _ _ _ _ Hv Ht) as (b & E & Hpa & Ha & Hin). exists b.
  split; [|done]. rewrite page_of_lookup in E by done.
  destruct (pt_lookup m (pagetable t) v) as [pte|] eqn:El; [|done].
  destruct (user_only _ _ Hu v pte Hv El (or_introl Hk)) as [?|[Hp _]]; [done|].
  rewrite <- kernel_va_page, Hp in Hk. by vm_compute in Hk.
Qed.
Lemma user_translate_inj m t v v' pa :
  user_ok m t → 0 ≤ v < 2 ^ 39 → kernel_va v = false → 0 ≤ v' < 2 ^ 39 → kernel_va v' = false →
  translate m (pagetable t) v = Some pa → translate m (pagetable t) v' = Some pa → v = v'.
Proof.
  intros Hu Hv Hk Hv' Hk' (b & Huv & Hm & -> & [_ Ha] & _)%user_translate (b' & Huv' & Hm' & E & [_ Ha'] & _)%user_translate; try done.
  pose proof (Z.mod_pos_bound v 4096 ltac:(lia)). pose proof (Z.mod_pos_bound v' 4096 ltac:(lia)). unfold PAGE_SIZE in *.
  assert (b = b') as <-.
  { pose proof (Z.div_mod b 4096 ltac:(lia)). pose proof (Z.div_mod b' 4096 ltac:(lia)). lia. }
  pose proof (user_inj _ _ Hu _ _ b Huv Huv' Hm Hm') as Ep. unfold page_of, PAGE_SIZE in Ep. lia.
Qed.

Lemma user_written_refl h t va len : user_written h h t va len.
Proof. by split. Qed.
(** The page tables of [t] are out of reach. *)
Lemma written_tables h h' t va len :
  user_ok (mem h) t → pages_wf h → (∀ b, is_table (mem h) (pagetable t) b → is_alloc h b) →
  user_range va len → user_written h h' t va len → tables_same h h' t.
Proof.
  intros Hu Hp Ho Hr Hw b a Hb Hin. apply (uw_page _ _ _ _ _ Hw). intros v b' Hv Hm Hin'.
  destruct (Hr (v - va)) as [Hvb Hk]; [lia|]. replace (va + (v - va)) with v in * by lia.
  assert (∃ pa, translate (mem h) (pagetable t) v = Some pa) as [pa Ht].
  { unfold translate. rewrite <- page_of_lookup by done. unfold maps in Hm.
    destruct (pt_lookup (mem h) (pagetable t) (page_of v)); [by eexists|done]. }
  destruct (user_translate _ _ _ _ Hu Hvb Hk Ht) as (b'' & Huv & Hm' & _ & Ha & _).
  assert (b'' = b') as -> by (unfold maps in *; congruence).
  apply (user_apart _ _ Hu _ _ Huv Hm). assert (b' = b) as ->; [|done].
  apply (pages_apart b' b a); [done| |done|done]. apply (is_alloc_aligned h); [done|by apply Ho].
Qed.
Lemma translate_same h h' t v : tables_same h h' t → translate (mem h') (pagetable t) v = translate (mem h) (pagetable t) v.
Proof. intros H. unfold translate. by rewrite (pt_lookup_frame (mem h)). Qed.
(** A byte of a task whose pages keep their contents. *)
Lemma user_byte_kept h h' t v :
  user_ok (mem h) t → (∀ b a, space_page (mem h) t b → in_page b a → load64 (mem h') a = load64 (mem h) a) →
  0 ≤ v < 2 ^ 39 → kernel_va v = false → user_byte (mem h') t v = user_byte (mem h) t v.
Proof.
  intros Hu Hm Hv Hk. unfold user_byte. rewrite (translate_same h) by (intros b a Hb; apply Hm; by left).
  destruct (translate (mem h) (pagetable t) v) as [pa|] eqn:Et; [|done]. cbn. f_equal.
  destruct (user_translate _ _ _ _ Hu Hv Hk Et) as (b & Huv & Hb & -> & Ha & _).
  apply load8_page; [done|by apply Z.mod_pos_bound|]. intros a. by apply Hm, (user_va_space _ _ _ _ Hu Huv).
Qed.
End translation.

Section copying.
Implicit Types (h : mach) (t : Task) (src dst : list Z).

(** One byte more. *)
Lemma user_written_snoc h h' t va len pa b :
  user_ok (mem h) t → user_range va (len + 1) → 0 ≤ len → user_written h h' t va len →
  translate (mem h) (pagetable t) (va + len) = Some pa →
  user_written h (set_mem (λ m, store8 m pa b) h') t va (len + 1).
Proof.
  intros Hu Hr Hlen [Hal Hg Hp Hb] Ht. destruct (Hr len) as [Hvb Hk]; [lia|].
  destruct (user_translate _ _ _ _ Hu Hvb Hk Ht) as (p & Huv & Hm & _ & Ha & Hin). split; [done|done| |].
  - intros a Hout. cbn [mem set_mem]. rewrite load64_store8_ne.
    + apply Hp. intros v p' Hv. apply Hout. lia.
    + intros <-. apply (Hout (va + len) p); [lia|done|]. by apply align8_in_page.
  - intros x Hout. cbn [mem set_mem]. rewrite load8_store8_ne.
    + apply Hb. intros v Hv. apply Hout. lia.
    + intros <-. by apply (Hout (va + len)); [lia|].
Qed.
Lemma user_range_sub va len len' : len' ≤ len → user_range va len → user_range va len'.
Proof. intros H Hr i Hi. apply Hr. lia. Qed.
Lemma user_range_add va len i : user_range va len → 0 ≤ i < len → va +' i = va + i.
Proof. intros Hr Hi. destruct (Hr i Hi) as [? _]. unfold u64. apply Z.mod_small. lia. Qed.

(** A copy loop after [x] bytes: [t] sees the bytes that [byte] gives. *)
Definition copied h h' t va (byte : Z → option Z) x : Prop :=
  user_written h h' t va x ∧ ∀ i, 0 ≤ i < x → user_byte (mem h') t (va + i) = byte i.
Lemma copied_refl h t va byte : copied h h t va byte 0.
Proof. split; [apply user_written_refl|lia]. Qed.
Lemma copied_snoc h h' t va byte x pa b :
  user_ok (mem h) t → pages_wf h → (∀ b, is_table (mem h) (pagetable t) b → is_alloc h b) →
  user_range va (x + 1) → 0 ≤ x → copied h h' t va byte x →
  translate (mem h) (pagetable t) (va + x) = Some pa → byte x = Some (Z.land b 255) →
  copied h (set_mem (λ m, store8 m pa b) h') t va byte (x + 1).
Proof.
  intros Hu Hp Ho Hr Hx [Hw Hbytes] Et Hb.
  pose proof (user_written_snoc h h' t va x pa b Hu Hr Hx Hw Et) as Hw'. split; [done|].
  pose proof (written_tables _ _ _ _ _ Hu Hp Ho Hr Hw') as Hts'.
  assert (tables_same h h' t) as Hts by (by apply (written_tables h h' t va x); [..|apply (user_range_sub va (x + 1)); [lia|]|]).
  intros i Hi. unfold user_byte. rewrite (translate_same h _ t _ Hts'). cbn [mem set_mem].
  destruct (decide (i = x)) as [->|Hne].
  - rewrite Et, Hb. cbn. f_equal. apply load8_store8_eq.
  - specialize (Hbytes i ltac:(lia)). unfold user_byte in Hbytes. rewrite (translate_same h h' t _ Hts) in Hbytes.
    destruct (translate (mem h) (pagetable t) (va + i)) as [pa'|] eqn:Et'; [|done]. rewrite <- Hbytes. cbn. f_equal.
    apply load8_store8_ne. intros ->. destruct (Hr i) as [? ?], (Hr x) as [? ?]; [lia..|].
    assert (va + i = va + x); [|lia]. by apply (user_translate_inj (mem h) t _ _ pa').
Qed.
Lemma user_written_more h h' t va x n : x ≤ n → user_written h h' t va x → user_written h h' t va n.
Proof.
  intros Hx [? ? Hpg Hby]. split; [done|done| |].
  - intros a Ha. apply Hpg. intros v b Hv. apply Ha. lia.
  - intros y Hy. apply Hby. intros v Hv. apply Hy. lia.
Qed.
(** The position of a loop over [0..n]. *)
Lemma seqZ_split n xs x rest : seqZ 0 n = xs ++ x :: rest → x = Z.of_nat (length xs) ∧ 0 ≤ x < n.
Proof.
  intros Hl. assert (seqZ 0 n !! length xs = Some x) as E by (rewrite Hl, lookup_app_r by lia; by rewrite Nat.sub_diag).
  apply lookup_seqZ in E. lia.
Qed.

(** [mem_copy_to_user] writes the bytes into the task's memory, or stops at the first
    address that is not mapped. *)
Lemma mem_copy_to_user_wp h t va src len :
  0 ≤ len → user_ok (mem h) t → pages_wf h → (∀ b, is_table (mem h) (pagetable t) b → is_alloc h b) →
  let n := Z.min len (Z.of_nat (length src)) in user_range va n →
  wp (mem_copy_to_user (pagetable t) va src len) (λ r h', user_written h h' t va n ∧ match r with
    | Ok _ => ∀ i, 0 ≤ i < n → user_byte (mem h') t (va + i) = (λ b, Z.land b 255) <$> src !! Z.to_nat i
    | Err => ∃ i, 0 ≤ i < n ∧ translate (mem h) (pagetable t) (va + i) = None
    end) h.
Proof.
  intros Hlen Hu Hp Ho n Hr. unfold mem_copy_to_user. fold n.
  apply wp_try_foreach with (I := λ xs h', copied h h' t va (λ i, (λ b, Z.land b 255) <$> src !! Z.to_nat i) (Z.of_nat (length xs))).
  - apply copied_refl.
  - intros xs x rest h1 [Hx Hxn]%seqZ_split [Hw Hbytes].
    assert (tables_same h h1 t) as Hts.
    { apply (written_tables h h1 t va (Z.of_nat (length xs))); [done|done|done| |done]. apply (user_range_sub va n); [lia|done]. }
    unfold put_user_byte. apply wp_try_bind, wp_bind. unfold wp at 1. rewrite virt_to_phys_read. apply wp_ret.
    rewrite (user_range_add va n x Hr Hxn), (translate_same h h1 t _ Hts).
    destruct (translate (mem h) (pagetable t) (va + x)) as [pa|] eqn:Et; cbn [ok_or].
    2: { split; [|by exists x]. by apply (user_written_more _ _ _ _ (Z.of_nat (length xs))); [lia|]. }
    destruct (lookup_lt_is_Some_2 src (Z.to_nat x)) as [b Hb]; [lia|]. rewrite Hb.
    apply wp_bind. cbn [unwrap]. apply wp_ret, wp_bind, wp_modify, wp_ret. rewrite length_app. cbn [length].
    replace (Z.of_nat (length xs + 1)) with (x + 1) by lia. rewrite <- Hx in *.
    apply copied_snoc; [done..| |lia|done|done|by rewrite Hb]. apply (user_range_sub va n); [lia|done].
  - intros h1 [Hw Hbytes]. assert (Z.of_nat (length (seqZ 0 n)) = n) as E by (rewrite length_seqZ; lia). by rewrite E in Hw, Hbytes.
Qed.

(** [mem_copy_from_user] only reads: it returns the bytes the task sees, or stops. *)
Lemma copy_from_user_wp n h t va : ∀ k dst,
  0 ≤ k → k + Z.of_nat n ≤ Z.of_nat (length dst) →
  wp (copy_from_user (seqZ k (Z.of_nat n)) (pagetable t) va dst) (λ r h', h' = h ∧
    length r.2 = length dst ∧
    (∀ i, ¬ (k ≤ Z.of_nat i < k + Z.of_nat n) → r.2 !! i = dst !! i) ∧
    match r.1 with
    | Ok _ => ∀ i, k ≤ i < k + Z.of_nat n → r.2 !! Z.to_nat i = user_byte (mem h) t (va +' i)
    | Err => ∃ i, k ≤ i < k + Z.of_nat n ∧ translate (mem h) (pagetable t) (va +' i) = None
    end) h.
Proof.
  induction n as [|n IH]; intros k dst Hk Hlen.
  { apply wp_ret. do 3 (split; [done|]). cbn [fst]. lia. }
  rewrite seqZ_cons by lia. replace (Z.pred (Z.of_nat (S n))) with (Z.of_nat n) by lia. replace (Z.succ k) with (k + 1) by lia.
  cbn [copy_from_user]. apply wp_bind. unfold wp at 1. rewrite virt_to_phys_read.
  destruct (translate (mem h) (pagetable t) (va +' k)) as [pa|] eqn:Et.
  2: { apply wp_ret. do 3 (split; [done|]). exists k. split; [lia|done]. }
  apply wp_bind, wp_gets. eapply wp_mono; [apply (IH (k + 1)); rewrite ?length_insert; lia|].
  intros [r bs] h' (-> & Hl & Hout & Hr). cbn [fst snd] in *. rewrite length_insert in Hl. split; [done|]. split; [done|]. split.
  - intros i Hi. rewrite Hout by lia. apply list_lookup_insert_ne. lia.
  - destruct r as [u|].
    + intros i Hi. destruct (decide (i = k)) as [->|Hne]; [|apply Hr; lia].
      rewrite Hout by lia. rewrite list_lookup_insert_eq by lia. unfold user_byte. by rewrite Et.
    + destruct Hr as (i & Hi & E). exists i. split; [lia|done].
Qed.
Lemma mem_copy_from_user_wp h t va dst len :
  0 ≤ len → let n := Z.min len (Z.of_nat (length dst)) in
  wp (mem_copy_from_user (pagetable t) dst va len) (λ r h', h' = h ∧ length r.2 = length dst ∧
    match r.1 with
    | Ok _ => ∀ i, 0 ≤ i < n → r.2 !! Z.to_nat i = user_byte (mem h) t (va +' i)
    | Err => ∃ i, 0 ≤ i < n ∧ translate (mem h) (pagetable t) (va +' i) = None
    end) h.
Proof.
  intros Hlen n. unfold mem_copy_from_user. fold n. replace n with (Z.of_nat (Z.to_nat n)) by lia.
  eapply wp_mono; [apply (copy_from_user_wp (Z.to_nat n) h t va 0 dst); lia|].
  intros [r bs] h' (-> & Hl & _ & Hr). do 2 (split; [done|]). rewrite Z.add_0_l in Hr. exact Hr.
Qed.
End copying.

(** ** Writing user memory keeps the invariant *)

Section written.
Context (h h' : mach) (ts : list (option Task)) (i : nat) (t : Task) (va len : Z).
Hypothesis spaces : spaces_ok h ts.
Hypothesis at_i : ts !! i = Some (Some t).
Hypothesis range : user_range va len.
Hypothesis written : user_written h h' t va len.

(** The pages written are data pages of [t]. *)
Lemma written_page v b : va ≤ v < va + len → maps (mem h) t (page_of v) b →
  user_va t (page_of v) ∧ owns (mem h) t b ∧ ¬ is_table (mem h) (pagetable t) b ∧ b ≠ kernel_stack t.
Proof.
  intros Hv Hm. pose proof (space_user _ _ (spaces_task _ _ spaces i t at_i)) as Hu.
  destruct (range (v - va)) as [Hvb Hk]; [lia|]. replace (va + (v - va)) with v in * by lia.
  assert (user_va t (page_of v)) as Huv.
  { unfold maps in Hm. rewrite page_of_lookup in Hm by done.
    destruct (pt_lookup (mem h) (pagetable t) v) as [pte|] eqn:El; [|done].
    destruct (user_only _ _ Hu v pte Hvb El (or_introl Hk)) as [?|[Hp _]]; [done|].
    rewrite <- kernel_va_page, Hp in Hk. by vm_compute in Hk. }
  split; [done|]. split; [by apply (user_va_owned _ _ _ _ Hu Huv)|]. split; [by apply (user_apart _ _ Hu _ _ Huv)|].
  intros ->. by apply (spaces_apart _ _ spaces i t (page_of v)).
Qed.
(** A page that some task owns, but not as such a data page, keeps its contents. *)
Lemma written_kept j u b a :
  ts !! j = Some (Some u) → owns (mem h) u b →
  (j = i → is_table (mem h) (pagetable t) b ∨ b = kernel_stack t) → in_page b a →
  load64 (mem h') a = load64 (mem h) a.
Proof.
  intros Hj Hb Hown Hin. apply (uw_page _ _ _ _ _ written). intros v b' Hv Hm Hin'.
  destruct (written_page v b' Hv Hm) as (_ & Ho & Hnt & Hnk).
  assert (b' = b) as -> by (apply (pages_apart b' b a); [by apply (owns_aligned h ts i t)|by apply (owns_aligned h ts j u)|done..]).
  destruct Hown as [?|?]; [|done|done]. by apply (spaces_disjoint _ _ spaces j i u t b).
Qed.
Lemma written_tables_same j u : ts !! j = Some (Some u) → tables_same h h' u.
Proof.
  intros Hj b a Hb. apply (written_kept j u); [done|left; by left|]. intros ->. left.
  rewrite at_i in Hj. injection Hj as <-. done.
Qed.
Lemma written_frame j u : ts !! j = Some (Some u) → frame_at (mem h') (trap_frame u) = frame_at (mem h) (trap_frame u).
Proof.
  intros Hj. apply frame_at_ext. intros a Ha. apply (written_kept j u (kernel_stack u)); [done|by right| |].
  - intros ->. right. rewrite at_i in Hj. by injection Hj as <-.
  - apply frame_in_stack; [|done]. apply (spaces_task _ _ spaces j u Hj).
Qed.
Lemma written_spaces : spaces_ok h' ts.
Proof.
  apply (spaces_ok_frame h); [| | |done].
  - destruct (spaces_pages _ _ spaces) as (pa & Hpa & Hw). exists pa. by rewrite (uw_alloc _ _ _ _ _ written).
  - intros j u Hj. by apply (written_tables_same j).
  - intros j u b Hj Hb. unfold is_alloc. rewrite (uw_alloc _ _ _ _ _ written). by apply (spaces_alloc _ _ spaces j u).
Qed.
(** The memory of the other tasks is as it was. *)
Lemma written_other j u v : ts !! j = Some (Some u) → j ≠ i → 0 ≤ v < 2 ^ 39 → kernel_va v = false →
  user_byte (mem h') u v = user_byte (mem h) u v.
Proof.
  intros Hj Hne. apply user_byte_kept; [apply (spaces_task _ _ spaces j u Hj)|].
  intros b a Hb. by apply (written_kept j u); [|left|intros ->].
Qed.
End written.

