(* ===== verification/BufferCalls.v ===== *)
(** The buffer calls of [Task.v]: [ipc_call_buf] and [ipc_recv_buf] keep the kernel
    invariant, never panic, and carry the sender's bytes to the receiver. *)

From S2P Require Import Prelude Arch Page Memory Machine Pgtable Vm Trap Ipc Task Space Sched Inv IpcFacts Create Build Buffers.

(** What a task that is handed [n] bytes finds: all of them at [addr], with [n] in a5, or 0
    there, when one of the addresses is not mapped. *)
Definition buffer_put (m : memory) (t : Task) (addr n : Z) (bs : list Z) : Prop :=
  let a5 := tf_a5 (frame_at m (trap_frame t)) in
  (a5 = n ∧ ∀ k, 0 ≤ k < n → user_byte m t (addr + k) = (λ b, Z.land b 255) <$> bs !! Z.to_nat k) ∨
  (a5 = 0 ∧ ∃ k, 0 ≤ k < n ∧ user_byte m t (addr + k) = None).

(** The machine after bytes were put into task [t] in slot [i] of [ts], and what was not touched. *)
Record buffer_step (h h' : mach) (ts : list (option Task)) (i : nat) (t : Task) (addr n : Z) (bs : list Z) : Prop := {
  bs_spaces : spaces_ok h' ts;
  bs_globals : same_globals h h';
  bs_frame a : in_frame (trap_frame t) a → a ≠ trap_frame t + off_a5 → load64 (mem h') a = load64 (mem h) a;
  bs_put : buffer_put (mem h') t addr n bs;
  bs_frames j u : ts !! j = Some (Some u) → j ≠ i → frame_at (mem h') (trap_frame u) = frame_at (mem h) (trap_frame u);
  bs_bytes j u v : ts !! j = Some (Some u) → j ≠ i → 0 ≤ v < 2 ^ 39 → kernel_va v = false →
    user_byte (mem h') u v = user_byte (mem h) u v;
}.

Section steps.
Implicit Types (s : tsys) (h : mach) (t u : Task).

(** A write into the kernel stack of [t] changes no user byte. *)
Lemma stack_write_byte h h' ts i t j u v :
  spaces_ok h ts → ts !! i = Some (Some t) →
  (∀ a, ¬ in_page (kernel_stack t) a → load64 (mem h') a = load64 (mem h) a) →
  ts !! j = Some (Some u) → 0 ≤ v < 2 ^ 39 → kernel_va v = false →
  user_byte (mem h') u v = user_byte (mem h) u v.
Proof.
  intros Hsp Ht Hm Hu. apply (user_byte_kept h h'); [apply (spaces_task _ _ Hsp j u Hu)|].
  intros b a Hb Ha. apply Hm. intros Ha'. assert (b = kernel_stack t) as ->.
  { apply (pages_apart b (kernel_stack t) a); [by apply (owns_aligned h ts j u); [..|left]| |done..].
    apply (spaces_task _ _ Hsp i t Ht). }
  assert (j = i) as -> by (apply (spaces_disjoint _ _ Hsp j i u t (kernel_stack t)); [done|done|by left|by right]).
  rewrite Ht in Hu. injection Hu as <-. by apply (kstack_no_space_page h ts i t).
Qed.
(** A result in a5, after the bytes [t] was given took the machine from [h] to [h1]. *)
Lemma buffer_step_intro h h1 ts i t addr n r bs :
  spaces_ok h ts → ts !! i = Some (Some t) → user_range addr n → user_written h h1 t addr n →
  (r = n ∧ (∀ k, 0 ≤ k < n → user_byte (mem h1) t (addr + k) = (λ b, Z.land b 255) <$> bs !! Z.to_nat k) ∨
   r = 0 ∧ ∃ k, 0 ≤ k < n ∧ translate (mem h) (pagetable t) (addr + k) = None) →
  buffer_step h (set_mem (λ m, store64 m (trap_frame t +' off_a5) r) h1) ts i t addr n bs.
Proof.
  intros Hsp Ht Hr Hw Hres. pose proof (space_layout _ _ (spaces_task _ _ Hsp i t Ht)) as Hl.
  pose proof (written_spaces h h1 ts i t addr n Hsp Ht Hr Hw) as Hsp1.
  assert (spaces_ok (set_mem (λ m, store64 m (trap_frame t +' off_a5) r) h1) ts) as Hsp2.
  { apply (spaces_ok_frame_write h1 ts i t); [done|done|]. intros m a _ Ha. by apply (field_store_out t). }
  destruct (frame_field t off_a5 Hl ltac:(by vm_compute)) as [Ef Hin].
  assert (∀ j u v, ts !! j = Some (Some u) → 0 ≤ v < 2 ^ 39 → kernel_va v = false →
    user_byte (store64 (mem h1) (trap_frame t +' off_a5) r) u v = user_byte (mem h1) u v) as Hbyte.
  { intros j u v Hu. apply (stack_write_byte h1 (set_mem (λ m, store64 m (trap_frame t +' off_a5) r) h1) ts i t j); [done|done| |done].
    intros a Ha. by apply (field_store_out t). }
  split; [done|apply Hw| | | |].
  - intros a Ha Hne. cbn [mem set_mem]. rewrite Ef, load64_store64_ne by done.
    apply (written_kept h h1 ts i t addr n Hsp Ht Hr Hw i t (kernel_stack t)); [done|by right|by right|by apply frame_in_stack].
  - unfold buffer_put. cbn [mem set_mem frame_at tf_a5]. change (trap_frame t + 8 * 14) with (trap_frame t + off_a5).
    rewrite Ef, load64_store64_eq. destruct Hres as [[-> Hb]|[-> (k & Hk & E)]]; [left|right]; (split; [done|]).
    + intros k Hk. destruct (Hr k Hk) as [Hv Hkv]. rewrite <- Hb by done. rewrite <- Ef. by apply (Hbyte i).
    + exists k. split; [done|]. destruct (Hr k Hk) as [Hv Hkv]. rewrite <- Ef, (Hbyte i) by done. unfold user_byte.
      rewrite (translate_same h), E; [done|]. by apply (written_tables_same h h1 ts i t addr n Hsp Ht Hr Hw i).
  - intros j u Hu Hne. cbn [mem set_mem]. rewrite <- (written_frame h h1 ts i t addr n Hsp Ht Hr Hw j u Hu).
    assert (kernel_stack u ≠ kernel_stack t) as Hks by by apply (stacks_differ h ts j i).
    apply (frame_at_stack_out _ _ u t); [apply (spaces_task _ _ Hsp j u Hu)|done|done|].
    intros a Ha. by apply (field_store_out t).
  - intros j u v Hu Hne Hv Hkv. cbn [mem set_mem]. rewrite (Hbyte j u v Hu Hv Hkv).
    by apply (written_other h h1 ts i t addr n Hsp Ht Hr Hw j).
Qed.

(** The kernel's copy into a task, the result in its a5. *)
Lemma put_buffer_wp i t addr n buf s Q :
  spaces_ok (hw s) (tasks (self s)) → tasks (self s) !! i = Some (Some t) →
  0 ≤ n ≤ Z.of_nat (length buf) → user_range addr n →
  (∀ h, buffer_step (hw s) h (tasks (self s)) i t addr n (take (Z.to_nat n) buf) → Q tt (mkTsys (self s) h)) →
  wp (ep_buf ← slice_to buf n;
      r ← on_hw (mem_copy_to_user (pagetable t) addr ep_buf n);
      on_hw (store (trap_frame t +' off_a5) (if is_ok r then n else 0))) Q s.
Proof.
  intros Hsp Ht Hn Hr HQ. pose proof (spaces_task _ _ Hsp i t Ht) as Hok.
  unfold slice_to. rewrite (proj2 (Z.leb_le _ _)) by lia. apply wp_bind, wp_ret, wp_bind, wp_on_hw.
  assert (Z.min n (Z.of_nat (length (take (Z.to_nat n) buf))) = n) as En by (rewrite length_take; lia).
  eapply wp_mono.
  { apply (mem_copy_to_user_wp (hw s) t addr (take (Z.to_nat n) buf) n); [lia|apply Hok|apply Hsp| |by rewrite En].
    intros b Hb. apply (spaces_alloc _ _ Hsp i t); [done|by left; left]. }
  intros r h1 [Hw Hres]. rewrite En in Hw, Hres. apply wp_on_hw, wp_modify, HQ. cbn [self hw].
  apply buffer_step_intro; [done..|]. destruct r as [[]|]; [left|right]; split; done.
Qed.
(** No bytes: a5 is 0. *)
Lemma no_buffer_wp i t addr bs s Q :
  spaces_ok (hw s) (tasks (self s)) → tasks (self s) !! i = Some (Some t) →
  (∀ h, buffer_step (hw s) h (tasks (self s)) i t addr 0 bs → Q tt (mkTsys (self s) h)) →
  wp (on_hw (store (trap_frame t +' off_a5) 0)) Q s.
Proof.
  intros Hsp Ht HQ. apply wp_on_hw, wp_modify, HQ. apply buffer_step_intro; [done|done| | |].
  - intros k. lia.
  - apply user_written_refl.
  - left. split; [done|]. lia.
Qed.
(** The message registers are not a5. *)
Lemma has_message_step h h' ts i t addr n bs sender ws :
  buffer_step h h' ts i t addr n bs → has_message (mem h) t sender ws → has_message (mem h') t sender ws.
Proof.
  intros Hb H. unfold has_message in *. cbn [frame_at tf_a0 tf_a1 tf_a2 tf_a3 tf_a4] in *.
  rewrite !(bs_frame _ _ _ _ _ _ _ _ Hb) by (unfold in_frame, FRAME_SIZE, FRAME_WORDS, off_a5; lia). exact H.
Qed.
(** What [t] was given stays while its pages do. *)
Lemma buffer_put_kept h h' t t' addr n bs :
  space_ok h t → same_space t t' → user_range addr n →
  (∀ a, in_page (kernel_stack t) a → load64 (mem h') a = load64 (mem h) a) →
  (∀ b a, space_page (mem h) t b → in_page b a → load64 (mem h') a = load64 (mem h) a) →
  buffer_put (mem h) t addr n bs → buffer_put (mem h') t' addr n bs.
Proof.
  intros Hok (Htf & _ & _ & Hpt & _) Hr Hs Hm Hb. unfold buffer_put. rewrite Htf.
  rewrite (frame_at_ext (mem h)) by (intros a Ha; apply Hs, frame_in_stack; [apply Hok|done]).
  assert (∀ k, 0 ≤ k < n → user_byte (mem h') t' (addr + k) = user_byte (mem h) t (addr + k)) as E.
  { intros k Hk. destruct (Hr k Hk). unfold user_byte at 1. rewrite Hpt. apply (user_byte_kept h h'); [apply Hok|done..]. }
  destruct Hb as [[E5 Hb]|(E5 & k & Hk & Hb)]; [left|right]; (split; [done|]).
  - intros k Hk. rewrite E by done. by apply Hb.
  - exists k. rewrite E by done. done.
Qed.
End steps.

(** ** [ipc_call_buf] *)

(** The bytes that task [t] has at [va]. *)
Definition user_bytes (m : memory) (t : Task) (va : Z) (bs : list Z) : Prop :=
  ∀ k b, bs !! k = Some b → user_byte m t (va +' Z.of_nat k) = Some b.
Definition staged (buf : list Z) (n : Z) (ep : Endpoint) : Endpoint := set_copy buf (set_copy_len n ep).

(** The room a waiting receiver has for [len] bytes. *)
Definition recv_room (ep : Endpoint) (len : Z) : Z :=
  if recv_buf_addr ep =? 0 then 0 else Z.min len (recv_buf_capacity ep).
(** What a completed [ipc_call_buf] did with the message and its bytes [bs]: handed to the
    waiting receiver, who can run again, or queued, and then the manager is as after the scheduling. *)
Definition buf_call_delivered (e sender : Z) (ws : list Z) (bs : list Z) (ep : Endpoint) (s s' : tsys) : Prop :=
  let len := Z.of_nat (length bs) in
  if bool_decide (waiting_receiver ep = Some (owner ep)) then
    ∃ j u u', tasks (self s) !! j = Some (Some u) ∧ pid u = owner ep ∧
      tasks (self s') !! j = Some (Some u') ∧ same_space u u' ∧ active_state (state u') = true ∧
      waiting_for u' = None ∧ has_message (mem (hw s')) u' sender ws ∧
      buffer_put (mem (hw s')) u' (recv_buf_addr ep) (recv_room ep len) bs
  else
    ∃ ep' i fp, current_index (self s) = Some i ∧
      scheduled (with_endpoint e (λ _, ep') (blocked i (IpcCall e) (self s))) (self s') fp ∧
      endpoint_at (self s') e = Some ep' ∧ owner ep' = owner ep ∧
      queue_list (pending ep') = queue_list (pending ep) ++ [mkMessage sender ws len] ∧
      take (length bs) (copy_buf ep') = bs ∧ has_buffered ep' = (0 <? len) || has_buffered ep.

Section call.
Implicit Types (s : tsys) (t : Task) (ep : Endpoint) (bs buf : list Z).

Lemma endpoint_ok_staged buf n ep :
  length buf = length (copy_buf ep) → endpoint_ok ep → endpoint_ok (staged buf n ep).
Proof. intros Hl [? ? ? ?]. split; try done. cbn. by rewrite Hl. Qed.
Lemma staged_ok e buf n s t ep :
  kernel_ok s → in_user s t → endpoint_at (self s) e = Some ep → length buf = length (copy_buf ep) →
  let s' := mkTsys (with_endpoint e (staged buf n) (self s)) (hw s) in
  kernel_ok s' ∧ in_user s' t ∧ endpoint_at (self s') e = Some (staged buf n ep).
Proof.
  intros Hk Hu Hep Hl s'. pose proof Hk as [[Hm _] Hsp]. pose proof (endpoint_at_nonneg _ _ _ Hep) as He0.
  destruct (tm_endpoint _ Hm e ep Hep) as [Hok Hr]. split; [|split].
  - apply (kernel_ok_continue s); [done|by apply tm_core_with, mid_core| |done..]. cbn [s' self].
    apply eps_ok_with; [by apply tm_mid_eps|done|]. intros ep' Hep'. rewrite Hep in Hep'. injection Hep' as <-.
    split; [by apply endpoint_ok_staged|done].
  - destruct Hu as (i & Hu). by exists i.
  - cbn [s' self]. by rewrite endpoint_at_with, decide_True, Hep.
Qed.

(** The sender's bytes are copied into the endpoint, or one of them is not mapped. *)
Lemma stage_buffer_wp e ub len s t ep :
  kernel_ok s → in_user s t → endpoint_at (self s) e = Some ep → 0 ≤ len ≤ IPC_BUF_SIZE →
  wp (stage_buffer e ub len) (λ r s', ∃ buf n, s' = mkTsys (with_endpoint e (staged buf n) (self s)) (hw s) ∧
    length buf = length (copy_buf ep) ∧ match r with
    | Ok _ => user_bytes (mem (hw s)) t ub (take (Z.to_nat len) buf)
    | Err => ∃ k, 0 ≤ k < len ∧ user_byte (mem (hw s)) t (ub +' k) = None
    end) s.
Proof.
  intros Hk Hu Hep Hlen. pose proof Hk as [[Hm _] Hsp].
  destruct (tm_endpoint _ Hm e ep Hep) as [Hok _]. pose proof (ep_buf _ Hok) as Hbuf.
  pose proof (endpoint_at_nonneg _ _ _ Hep) as He0.
  unfold stage_buffer. destruct (Z.ltb_spec 0 len) as [Hpos|Hz].
  - destruct Hu as (i & Hi & Ht & _). apply wp_bind, wp_get_self.
    assert (current (self s) = Some t) as -> by (unfold current; rewrite Hi; cbn; by rewrite Ht).
    apply wp_bind, wp_get_self, wp_bind, wp_unwrap with ep; [done|].
    unfold slice_to. rewrite (proj2 (Z.leb_le _ _)) by lia. apply wp_bind, wp_ret, wp_bind, wp_on_hw.
    eapply wp_mono; [apply mem_copy_from_user_wp; lia|]. intros [r bs] h (-> & Hl & Hr). cbn [fst snd] in *.
    rewrite length_take in *. apply wp_bind, wp_upd_endpoint with ep; [done|]. cbn [self hw].
    set (buf := bs ++ _).
    assert (length buf = length (copy_buf ep)) as Hlb by (unfold buf; rewrite length_app, length_drop; lia).
    destruct r as [[]|].
    + apply wp_bind, wp_upd_endpoint with (set_copy buf ep).
      { cbn [self]. by rewrite endpoint_at_with, decide_True, Hep. }
      apply wp_ret. exists buf, len. cbn [self hw]. rewrite with_endpoint_twice.
      split; [done|]. split; [done|].
      intros k b Hb. unfold buf in Hb. rewrite take_app_le, take_ge in Hb by lia.
      rewrite <- Hr by (apply lookup_lt_Some in Hb; lia). by rewrite Nat2Z.id.
    + apply wp_ret. exists buf, (copy_len ep). split; [f_equal; apply (with_endpoint_ext _ _ _ _ ep); [done|by destruct ep]|].
      split; [done|]. destruct Hr as (k & Hk' & E). exists k. split; [lia|]. unfold user_byte. by rewrite E.
  - apply wp_bind, wp_upd_endpoint with ep; [done|]. apply wp_ret. exists (copy_buf ep), 0.
    split; [f_equal; apply (with_endpoint_ext _ _ _ _ ep); [done|by destruct ep]|]. split; [done|].
    intros k b. replace (Z.to_nat len) with 0%nat by lia. done.
Qed.

(** [deliver_buf] with the receiver [u] in slot [j]. *)
Lemma deliver_buf_wp e sender ws len own s j u ep Q :
  spaces_ok (hw s) (tasks (self s)) → tasks (self s) !! j = Some (Some u) →
  task_index (tasks (self s)) own = Some j → endpoint_at (self s) e = Some ep → endpoint_ok ep →
  0 ≤ len ≤ IPC_BUF_SIZE →
  (∀ h, spaces_ok h (tasks (self s)) →
     has_message (mem h) u sender ws →
     buffer_put (mem h) u (recv_buf_addr ep) (recv_room ep len) (take (Z.to_nat len) (copy_buf ep)) →
     (∀ i t, tasks (self s) !! i = Some (Some t) → i ≠ j → frame_at (mem h) (trap_frame t) = frame_at (mem (hw s)) (trap_frame t)) →
     Q tt (mkTsys (with_endpoint e (λ x, set_waiting None (set_recv_buf 0 0 x)) (woken j (self s))) h)) →
  wp (deliver_buf e sender ws len own) Q s.
Proof.
  intros Hsp Hu Hidx Hep Hok Hlen HQ. pose proof (spaces_task _ _ Hsp j u Hu) as Hsu.
  pose proof (space_layout _ _ Hsu) as Hl. destruct Hok as [_ Hbuf _ [Hcap Hrange]].
  set (h1 := set_mem (message_mem (trap_frame u) sender ws) (hw s)).
  assert (spaces_ok h1 (tasks (self s))) as Hsp1.
  { apply (spaces_ok_frame_write _ _ j u); [done|done|]. intros m a _ Ha. by apply message_mem_out. }
  unfold deliver_buf. apply wp_bind, wp_get_self, wp_bind, wp_unwrap with j; [done|].
  apply wp_bind, wp_task_at with u; [done|]. apply wp_bind, wp_on_hw, set_message_wp. cbn [self hw]. fold h1.
  apply wp_bind, wp_get_self, wp_bind, wp_unwrap with ep; [done|]. apply wp_bind.
  assert (∀ n bs h2, buffer_step h1 h2 (tasks (self s)) j u (recv_buf_addr ep) n bs →
    n = recv_room ep len → (∀ k, (Z.of_nat k < n) → bs !! k = take (Z.to_nat len) (copy_buf ep) !! k) →
    wp (_ ← upd_endpoint e (set_recv_buf 0 0); _ ← wake_at j; upd_endpoint e (set_waiting None)) Q (mkTsys (self s) h2)) as Hend.
  { intros n bs h2 Hst -> Hbs. pose proof (endpoint_at_nonneg _ _ _ Hep) as He0.
    apply wp_bind, wp_upd_endpoint with ep; [done|]. cbn [self hw].
    apply wp_bind, wake_at_wp with u; [done|]. cbn [self hw].
    apply wp_upd_endpoint with (set_recv_buf 0 0 ep).
    { cbn [self]. change (endpoint_at (with_endpoint e (set_recv_buf 0 0) (self s)) e = Some (set_recv_buf 0 0 ep)).
      by rewrite endpoint_at_with, decide_True, Hep. }
    cbn [self hw]. change (woken j (with_endpoint e (set_recv_buf 0 0) (self s)))
      with (with_endpoint e (set_recv_buf 0 0) (woken j (self s))). rewrite with_endpoint_twice. apply HQ.
    - apply Hst.
    - apply (has_message_step _ _ _ _ _ _ _ _ _ _ Hst). by apply message_mem_fields.
    - destruct (bs_put _ _ _ _ _ _ _ _ Hst) as [[E5 Hb]|?]; [left|by right]. split; [done|].
      intros k Hk. rewrite <- Hbs by lia. by apply Hb.
    - intros i t Ht Hne. rewrite (bs_frames _ _ _ _ _ _ _ _ Hst i t Ht Hne). unfold h1.
      apply (frame_at_stack_out _ _ t u); [apply (spaces_task _ _ Hsp i t Ht)|done| |].
      + by apply (stacks_differ (hw s) (tasks (self s)) i j).
      + intros a Ha. by apply message_mem_out. }
  unfold recv_room in *. destruct (Z.eqb_spec (recv_buf_addr ep) 0) as [Ez|Ez].
  { rewrite andb_false_r. apply (no_buffer_wp j u (recv_buf_addr ep) [] (mkTsys (self s) h1)); [done|done|].
    intros h2 Hst. apply (Hend 0 []); [done|done|lia]. }
  destruct (Z.ltb_spec 0 len) as [Hpos|Hz]; cbn [andb negb].
  - apply (put_buffer_wp j u _ _ _ (mkTsys (self s) h1)); [done|done|lia| |].
    + apply (user_range_sub _ (Z.min (recv_buf_capacity ep) IPC_BUF_SIZE)); [lia|done].
    + intros h2 Hst. apply (Hend _ _ _ Hst); [done|]. intros k Hk. rewrite !lookup_take_lt by lia. done.
  - apply (no_buffer_wp j u (recv_buf_addr ep) [] (mkTsys (self s) h1)); [done|done|].
    intros h2 Hst. apply (Hend 0 []); [done|lia|lia].
Qed.

Lemma endpoint_ok_recv ep : endpoint_ok ep → endpoint_ok (set_waiting None (set_recv_buf 0 0 ep)).
Proof.
  intros [? ? ? _]. split; try done. cbn [set_waiting set_recv_buf recv_buf_capacity recv_buf_addr].
  split; [done|]. intros k Hk. change (Z.min 0 IPC_BUF_SIZE) with 0 in Hk. lia.
Qed.
Lemma recv_room_range ep len :
  endpoint_ok ep → 0 ≤ len ≤ IPC_BUF_SIZE → user_range (recv_buf_addr ep) (recv_room ep len).
Proof.
  intros [_ _ _ [? Hr]] Hlen. unfold recv_room. destruct (_ =? _); [intros k; lia|].
  by apply (user_range_sub _ (Z.min (recv_buf_capacity ep) IPC_BUF_SIZE)); [lia|].
Qed.

(** The second half of the call: the bytes are in the endpoint, and the caller sleeps. *)
Lemma send_staged_wp e ws len s i t ep Q :
  kernel_ok s → in_user s t → current_index (self s) = Some i → endpoint_at (self s) e = Some ep →
  is_full (pending ep) = false → 0 ≤ len ≤ IPC_BUF_SIZE →
  let bs := take (Z.to_nat len) (copy_buf ep) in
  (∀ fp s', switched fp s' → caller_asleep e s t s' → buf_call_delivered e (pid t) ws bs ep s s' → Q (Blocked fp) s') →
  wp (_ ← block_at i (IpcCall e) (trap_frame t);
      _ ← (if bool_decide (waiting_receiver ep = Some (owner ep)) then deliver_buf e (pid t) ws len (owner ep)
           else _ ← (if 0 <? len then upd_endpoint e (set_buffered true) else mret tt);
                ep_push e (mkMessage (pid t) ws (u16 len)));
      fp ← schedule (trap_frame t);
      mret (Blocked fp)) Q s.
Proof.
  intros Hk (i' & Hi' & Ht & Hp & Hrun & Hid) Hi Hep Hfull Hlen bs HQ. assert (i' = i) as -> by congruence. clear Hi'.
  pose proof Hk as [[Hm _] Hsp]. destruct (tm_endpoint _ Hm e ep Hep) as [Hepok _].
  assert (Z.of_nat (length bs) = len) as Hbs by (unfold bs; rewrite length_take, (ep_buf _ Hepok); lia).
  pose proof (endpoint_at_nonneg _ _ _ Hep) as He0.
  apply wp_bind, (calling_block_wp e s i t); [done|done|]. intros h1 Hsp1 _ Hg1 Hfr1 _. apply wp_bind.
  unfold buf_call_delivered in HQ. rewrite Hbs in HQ. case_bool_decide as Hw.
  - destruct (calling_receiver e s i t ep) as (j & u & Hj & Hpu & Hsu & Hwu & Hij & Hst & Hidx); [done..|].
    assert (tasks (blocked i (IpcCall e) (self s)) !! j = Some (Some u)) as Hj1 by (cbn; by rewrite alter_lookup_other).
    apply (deliver_buf_wp _ _ _ _ _ _ j u ep); [done..|]. cbn [self hw]. intros h Hsph Hmsg Hput Hfrs.
    apply (calling_deliver_wp e s i t ep) with (u := u) (g := λ x, set_waiting None (set_recv_buf 0 0 x)); try done.
    + intros ep'. apply endpoint_ok_recv.
    + rewrite <- Hfr1. apply (Hfrs i (sleep_task (IpcCall e) t)); [by apply alter_lookup|done].
    + intros fp s' u' Hsw Hca Hu' Hss Ha Hwn Hep' Hmem Hdata. apply HQ; [done..|].
      pose proof (spaces_task _ _ Hsph j u Hj1) as Hok.
      exists j, u, u'. do 6 (split; [done|]). split.
      * unfold has_message. assert (trap_frame u' = trap_frame u) as -> by apply Hss.
        rewrite (frame_at_ext (mem h)); [done|]. intros a Ha'. apply Hmem. by apply (frame_in_stack u); [apply Hok|].
      * apply (buffer_put_kept h (hw s') u); [done|done|by apply recv_room_range|done..].
  - set (g := λ x, if 0 <? len then set_buffered true x else x).
    assert (∀ q ep', set_pending q (g ep') = g (set_pending q ep')) as Hgq by (intros; unfold g; by destruct (0 <? len)).
    assert (wp (if 0 <? len then upd_endpoint e (set_buffered true) else mret tt)
      (λ _ s2, s2 = mkTsys (with_endpoint e g (blocked i (IpcCall e) (self s))) h1)
      (mkTsys (blocked i (IpcCall e) (self s)) h1)) as Hmark.
    { unfold g. destruct (0 <? len); [by apply wp_upd_endpoint with ep|]. apply wp_ret. by rewrite with_endpoint_id. }
    apply wp_bind. eapply wp_mono; [exact Hmark|]. intros _ s2 ->.
    assert (pending (g ep) = pending ep ∧ waiting_receiver (g ep) = waiting_receiver ep ∧ owner (g ep) = owner ep ∧
      copy_buf (g ep) = copy_buf ep ∧ endpoint_ok (g ep)) as (Hgp & Hgw & Hgo & Hgc & Hgok)
      by (unfold g; destruct (0 <? len); by destruct Hepok).
    apply wp_ep_push with (g ep); cbn [self].
    { rewrite endpoint_at_with, decide_True by done. exact (f_equal (fmap g) Hep). }
    { by rewrite Hgp; apply Hepok. }
    intros q Hq Hlist. rewrite Hgp, Hfull in Hlist. cbn [self hw]. rewrite with_endpoint_twice.
    assert (u16 len = len) as Eu by (unfold u16; rewrite Z.mod_small; unfold IPC_BUF_SIZE in *; lia). rewrite Eu in *.
    apply (calling_queue_wp e s i t ep) with (g := λ x, set_pending q (g x)); try done.
    + apply endpoint_ok_queue; [done|done|]. rewrite Hlist. apply Forall_app.
      split; [apply Hepok|]. constructor; [done|constructor].
    + intros fp s' Hsw Hca Hep' Hsch. apply HQ; [done..|]. exists (set_pending q (g ep)), i, fp. split; [done|].
      split; [by rewrite (with_endpoint_ext e (λ _, set_pending q (g ep)) (λ x, set_pending q (g x)) _ ep)|]. do 3 (split; [done|]). split.
      * cbn [set_pending copy_buf]. rewrite Hgc. by replace (length bs) with (Z.to_nat len) by lia.
      * unfold g. by destruct (0 <? len).
Qed.

(** The staged bytes do not show in the outcome. *)
Lemma buf_call_staged e sender ws bs buf n ep s s' :
  buf_call_delivered e sender ws bs (staged buf n ep) (mkTsys (with_endpoint e (staged buf n) (self s)) (hw s)) s' →
  buf_call_delivered e sender ws bs ep s s'.
Proof.
  unfold buf_call_delivered. change (waiting_receiver (staged buf n ep)) with (waiting_receiver ep).
  change (owner (staged buf n ep)) with (owner ep). case_bool_decide; [done|].
  intros (ep' & i & fp & Hi & Hsch & Hrest). exists ep', i, fp. split; [done|]. split; [|done].
  cbn [self] in Hsch. change (blocked i (IpcCall e) (with_endpoint e (staged buf n) (self s)))
    with (with_endpoint e (staged buf n) (blocked i (IpcCall e) (self s))) in Hsch.
  by rewrite with_endpoint_twice in Hsch.
Qed.
(** Why [ipc_call_buf] fails. *)
Definition buf_call_refused e ub len s t : Prop :=
  match endpoint_at (self s) e with
  | None => True
  | Some ep => pid t = owner ep ∨ is_full (pending ep) = true ∨
      has_buffered ep = true ∧ waiting_receiver ep ≠ Some (owner ep) ∨
      IPC_BUF_SIZE < len ∨ ∃ k, 0 ≤ k < len ∧ user_byte (mem (hw s)) t (ub +' k) = None
  end.
(** [ipc_call_buf] either fails, leaving the tasks and the machine as they were, or blocks
    the caller and passes on the message and the bytes. *)
Lemma ipc_call_buf_wp e ws ub len s t :
  kernel_ok s → in_user s t → 0 ≤ len →
  wp (ipc_call_buf e ws ub len (trap_frame t)) (λ r s',
    match r with
    | Blocked fp => switched fp s' ∧ ∃ ep bs, endpoint_at (self s) e = Some ep ∧ pid t ≠ owner ep ∧
        is_full (pending ep) = false ∧ (has_buffered ep = true → waiting_receiver ep = Some (owner ep)) ∧
        len ≤ IPC_BUF_SIZE ∧ Z.of_nat (length bs) = len ∧ user_bytes (mem (hw s)) t ub bs ∧
        caller_asleep e s t s' ∧ buf_call_delivered e (pid t) ws bs ep s s'
    | IpcError => kernel_ok s' ∧ in_user s' t ∧ tasks (self s') = tasks (self s) ∧ hw s' = hw s ∧ buf_call_refused e ub len s t
    | Continue => False
    end) s.
Proof.
  intros Hk Hu Hlen. pose proof Hu as (i & Hi & Ht & Hp & Hrun & Hid). pose proof Hk as [[Hm _] Hsp].
  unfold ipc_call_buf, buf_call_refused. apply wp_bind, wp_get_self. rewrite Hp.
  apply wp_bind, wp_get_self. destruct (endpoint_at (self s) e) as [ep|] eqn:Hep; [|by apply wp_ret].
  cbv zeta. destruct (_ || _) eqn:Echk.
  { apply wp_ret. do 4 (split; [done|]). apply orb_true_iff in Echk as [[?%Z.eqb_eq|?]%orb_true_iff|[? Hn]%andb_true_iff]; [by left|by right; left|].
    right; right; left. split; [done|]. by apply negb_true_iff, bool_decide_eq_false in Hn. }
  apply orb_false_elim in Echk as [[Eown%Z.eqb_neq Efull]%orb_false_elim Ebuf].
  destruct (Z.ltb_spec IPC_BUF_SIZE len) as [|Hmax].
  { apply wp_ret. do 4 (split; [done|]). by do 3 right; left. }
  destruct (tm_endpoint _ Hm e ep Hep) as [Hepok _].
  apply wp_bind. eapply wp_mono; [by apply (stage_buffer_wp e ub len s t ep)|].
  intros r s1 (buf & n & -> & Hlb & Hr). destruct (staged_ok e buf n s t ep Hk Hu Hep Hlb) as (Hk1 & Hu1 & Hep1).
  set (s1 := mkTsys _ _) in *. destruct r as [[]|].
  2: { apply wp_ret. do 4 (split; [done|]). by do 4 right. }
  apply wp_bind, wp_get_self. cbn [s1 self]. change (tasks (with_endpoint e (staged buf n) (self s))) with (tasks (self s)).
  rewrite (task_index_unique _ i t) by (done || apply Hm).
  apply (send_staged_wp e ws len s1 i t (staged buf n ep)); [done..|].
  intros fp s' Hsw Hca Hd. split; [done|]. exists ep, (take (Z.to_nat len) buf).
  do 3 (split; [done|]). split.
  { intros E. rewrite E in Ebuf. by apply negb_false_iff, bool_decide_eq_true in Ebuf. }
  split; [done|]. split; [rewrite length_take, Hlb, (ep_buf _ Hepok); lia|]. split; [done|]. split; [exact Hca|]. by apply (buf_call_staged _ _ _ _ buf n).
Qed.
End call.

(** ** [ipc_recv_buf] *)

Section recv.
Implicit Types (s : tsys) (t : Task) (ep : Endpoint).

(** A queued message's bytes, in the endpoint's [copy_buf], are handed over. *)
Lemma take_buffered_wp e msg ub cap s i t ep Q :
  spaces_ok (hw s) (tasks (self s)) → current_index (self s) = Some i → tasks (self s) !! i = Some (Some t) →
  endpoint_at (self s) e = Some ep → endpoint_ok ep → 0 ≤ buf_len msg ≤ IPC_BUF_SIZE →
  0 ≤ cap → user_range ub (Z.min cap IPC_BUF_SIZE) →
  (∀ h, spaces_ok h (tasks (self s)) → (∀ sender ws, has_message (mem (hw s)) t sender ws → has_message (mem h) t sender ws) →
     buffer_put (mem h) t ub (Z.min (buf_len msg) cap) (copy_buf ep) →
     Q tt (mkTsys (with_endpoint e (λ x, if 0 <? buf_len msg then set_buffered false x else x) (self s)) h)) →
  wp (take_buffered e msg ub cap (trap_frame t)) Q s.
Proof.
  intros Hsp Hi Ht Hep Hok Hlen Hcap Hr HQ. pose proof (endpoint_at_nonneg _ _ _ Hep) as He0.
  pose proof (ep_buf _ Hok) as Hbuf. unfold take_buffered. destruct (Z.ltb_spec 0 (buf_len msg)) as [Hpos|Hz].
  - apply wp_bind, wp_upd_endpoint with ep; [done|]. cbn [self hw]. apply wp_bind, wp_get_self. cbn [self hw].
    set (m := with_endpoint e (set_buffered false) (self s)) in *.
    assert (current m = Some t) as ->.
    { unfold current. change (current_index m) with (current_index (self s)). rewrite Hi.
      cbn [mbind option_bind]. change (tasks m) with (tasks (self s)). by rewrite Ht. }
    apply wp_bind, wp_get_self. cbn [self hw]. apply wp_bind, wp_unwrap with (set_buffered false ep).
    { unfold m. by rewrite endpoint_at_with, decide_True, Hep. }
    apply (put_buffer_wp i t ub (Z.min (buf_len msg) cap) (copy_buf ep) (mkTsys m (hw s))); [done|done|lia| |].
    { by apply (user_range_sub _ (Z.min cap IPC_BUF_SIZE)); [lia|]. }
    intros h Hst. cbn [self hw] in *. apply HQ; [apply Hst|intros sender ws; apply (has_message_step _ _ _ _ _ _ _ _ _ _ Hst)|].
    destruct (bs_put _ _ _ _ _ _ _ _ Hst) as [[E5 Hb]|?]; [left|by right]. split; [done|].
    intros k Hk. rewrite Hb, lookup_take_lt by lia. done.
  - assert (mkTsys (with_endpoint e (λ x, x) (self s)) (hw s) = s) as Es by (rewrite with_endpoint_id; by destruct s).
    apply (no_buffer_wp i t ub (copy_buf ep)); [done|done|]. intros h Hst. rewrite <- (with_endpoint_id e (self s)).
    apply HQ; [apply Hst|intros sender ws; apply (has_message_step _ _ _ _ _ _ _ _ _ _ Hst)|].
    replace (Z.min (buf_len msg) cap) with 0 by lia. apply (bs_put _ _ _ _ _ _ _ _ Hst).
Qed.

(** [ipc_recv_buf] fails and changes nothing, delivers the oldest queued message and its bytes,
    or blocks the caller, whose buffer the endpoint then names. *)
Lemma ipc_recv_buf_wp e ub cap s t :
  kernel_ok s → in_user s t → 0 ≤ cap → user_range ub (Z.min cap IPC_BUF_SIZE) →
  wp (ipc_recv_buf e ub cap (trap_frame t)) (λ r s',
    match r with
    | Blocked fp => switched fp s' ∧
        ∃ ep, endpoint_at (self s) e = Some ep ∧ owner ep = pid t ∧ queue_list (pending ep) = [] ∧
          endpoint_at (self s') e = Some (set_recv_buf ub cap (set_waiting (Some (pid t)) ep)) ∧
          ∃ i t', tasks (self s) !! i = Some (Some t) ∧ tasks (self s') !! i = Some (Some t') ∧
            sleeps_on (IpcRecv e) (mem (hw s)) (mem (hw s')) t t'
    | IpcError => s' = s ∧ ∀ ep, endpoint_at (self s) e = Some ep → owner ep ≠ pid t
    | Continue => kernel_ok s' ∧ in_user s' t ∧
        ∃ ep m q, endpoint_at (self s) e = Some ep ∧ owner ep = pid t ∧
          queue_list (pending ep) = m :: queue_list q ∧
          endpoint_at (self s') e = Some (if 0 <? buf_len m then set_buffered false (set_pending q ep) else set_pending q ep) ∧
          has_message (mem (hw s')) t (sender m) (words m) ∧
          buffer_put (mem (hw s')) t ub (Z.min (buf_len m) cap) (copy_buf ep)
    end) s.
Proof.
  intros Hk Hu Hcap Hr. pose proof Hu as (i & Hi & Ht & Hp & Hrun & Hid). pose proof Hk as [[Hm _] Hsp].
  pose proof (tm_mid_eps _ Hm) as Heps. pose proof (space_layout _ _ (spaces_task _ _ Hsp i t Ht)) as Hlay.
  unfold ipc_recv_buf. apply wp_bind, wp_get_self. rewrite Hp.
  apply wp_bind, wp_get_self. destruct (endpoint_at (self s) e) as [ep|] eqn:Hep; [|by apply wp_ret].
  destruct (Z.eqb_spec (owner ep) (pid t)) as [Hown|Hown]; cbn [negb].
  2: { apply wp_ret. split; [done|]. by intros ep' [= <-]. }
  pose proof (endpoint_at_nonneg _ _ _ Hep) as He0. destruct (Heps e ep Hep) as [Hepok Hrcv].
  apply wp_bind, wp_ep_pop with ep; [done|apply Hepok|]. intros r q Hq Hres.
  destruct r as [msg|].
  - assert (0 ≤ buf_len msg ≤ IPC_BUF_SIZE ∧ Forall (λ m, 0 ≤ buf_len m ≤ IPC_BUF_SIZE) (queue_list q)) as [Hlen Hlens].
    { pose proof (ep_lens _ Hepok) as Hl. rewrite Hres in Hl. by apply Forall_cons in Hl. }
    pose proof (endpoint_ok_queue ep q Hepok Hq Hlens) as Hqok.
    apply wp_bind, wp_on_hw, set_message_wp, wp_bind. cbn [self hw].
    set (m1 := with_endpoint e (set_pending q) (self s)). set (h1 := set_mem _ _).
    assert (spaces_ok h1 (tasks (self s))) as Hsp1.
    { apply (spaces_ok_frame_write _ _ i t); [done|done|]. intros m a Hl Ha. by apply message_mem_out. }
    assert (endpoint_at m1 e = Some (set_pending q ep)) as Hep1 by (unfold m1; by rewrite endpoint_at_with, decide_True, Hep).
    apply (take_buffered_wp e msg ub cap (mkTsys m1 h1) i t (set_pending q ep)); [done..|].
    intros h Hsph Hmsg Hput. apply wp_ret. cbn [self hw] in *. unfold m1. rewrite with_endpoint_twice.
    match goal with |- context [with_endpoint e ?f (self s)] => set (g := f) end.
    assert (endpoint_at (with_endpoint e g (self s)) e = Some (g ep)) as Hep2 by (by rewrite endpoint_at_with, decide_True, Hep).
    split; [|split].
    + apply (kernel_ok_continue s); [done|by apply tm_core_with, mid_core| |done..]. cbn [self].
      apply eps_ok_with; [done|done|]. intros ep' Hep'. rewrite Hep in Hep'. injection Hep' as <-.
      unfold g. destruct (0 <? _); (split; [|done]); [by destruct Hqok|done].
    + by exists i.
    + exists ep, msg, q. do 3 (split; [done|]). split; [exact Hep2|]. split; [|done].
      apply Hmsg. by apply message_mem_fields.
  - destruct Hres as [Hempty ->]. apply wp_bind, wp_upd_endpoint with (set_pending (pending ep) ep).
    { cbn [self]. by rewrite endpoint_at_with, decide_True, Hep. }
    cbn [self hw]. rewrite with_endpoint_twice. apply wp_bind, wp_upd_endpoint with (set_waiting (Some (pid t)) (set_pending (pending ep) ep)).
    { cbn [self]. by rewrite endpoint_at_with, decide_True, Hep. }
    cbn [self hw]. rewrite with_endpoint_twice.
    apply wp_bind, wp_get_self. cbn [self hw].
    assert (∀ g, current_index (with_endpoint e g (self s)) = Some i) as -> by done.
    assert (set_pending (pending ep) ep = ep) as E by by destruct ep.
    apply (blocking_recv_wp e s i t ep); [done..| |done|done|]; rewrite ?E.
    + destruct Hepok. by split.
    + intros fp s' Hsw Hep' Hsl. split; [done|]. exists ep. rewrite <- E. done.
Qed.
End recv.

(** ** [ipc_reply_buf] *)

Section reply.
Implicit Types (s : tsys) (h : mach) (t c : Task) (ts : list (option Task)).

Lemma pagetable_of_spec ts p v :
  (∀ i t, ts !! i = Some (Some t) → pid t = p → pagetable t = v) →
  (∃ i t, ts !! i = Some (Some t) ∧ pid t = p) → pagetable_of ts (Some p) = Some v.
Proof.
  unfold pagetable_of. generalize (@None Z). induction ts as [|slot ts IH]; intros acc Hall (i & t & Hi & Hp).
  { by rewrite lookup_nil in Hi. }
  assert (∀ j u, ts !! j = Some (Some u) → pid u = p → pagetable u = v) as Hall' by (intros j u; apply (Hall (S j) u)).
  cbn [foldl]. destruct i as [|i]; [|apply IH; [done|by exists i, t]].
  cbn in Hi. injection Hi as ->. rewrite bool_decide_true by congruence. rewrite (Hall 0%nat t) by done.
  clear IH Hall Hp t acc. induction ts as [|slot ts IH]; [done|]. cbn [foldl].
  assert (match slot with Some t => if bool_decide (Some (pid t) = Some p) then Some (pagetable t) else Some v | None => Some v end = Some v) as ->.
  { destruct slot as [t|]; [|done]. case_bool_decide as E; [|done]. f_equal. apply (Hall' 0%nat t); [done|congruence]. }
  apply IH. intros j u. apply (Hall' (S j) u).
Qed.
Lemma pagetable_of_unique ts i t : unique_pids ts → ts !! i = Some (Some t) → pagetable_of ts (Some (pid t)) = Some (pagetable t).
Proof.
  intros Hu Ht. apply pagetable_of_spec; [|by exists i, t]. intros j u Hj Hp.
  assert (i = j) as <- by by apply (Hu i j t u). congruence.
Qed.

(** The copy loop, from the replier [t] to the client [c]. *)
Lemma reply_bytes_wp h ts i j t c ub ca n :
  spaces_ok h ts → ts !! j = Some (Some t) → ts !! i = Some (Some c) → j ≠ i →
  user_range ub n → user_range ca n → 0 ≤ n →
  wp (try_foreach (seqZ 0 n) (reply_byte (pagetable t) (pagetable c) ub ca)) (λ r h', user_written h h' c ca n ∧ match r with
    | Ok _ => ∀ k, 0 ≤ k < n → user_byte (mem h') c (ca + k) = user_byte (mem h) t (ub + k)
    | Err => ∃ k, 0 ≤ k < n ∧ (user_byte (mem h) t (ub + k) = None ∨ user_byte (mem h) c (ca + k) = None)
    end) h.
Proof.
  intros Hsp Ht Hc Hne Hru Hrc Hn. pose proof (space_user _ _ (spaces_task _ _ Hsp i c Hc)) as Hu.
  assert (∀ b, is_table (mem h) (pagetable c) b → is_alloc h b) as Ho
    by (intros b Hb; apply (spaces_alloc _ _ Hsp i c); [done|by left; left]).
  apply wp_try_foreach with (I := λ xs h', copied h h' c ca (λ k, user_byte (mem h) t (ub + k)) (Z.of_nat (length xs))).
  - apply copied_refl.
  - intros xs x rest h1 [Hx Hxn]%seqZ_split Hcp. rewrite <- Hx in Hcp. pose proof Hcp as [Hw _].
    assert (user_range ca x) as Hrx by (by apply (user_range_sub ca n); [lia|]).
    pose proof (written_tables_same h h1 ts i c ca x Hsp Hc Hrx Hw) as Hts. destruct (Hru x Hxn) as [Hv Hkv].
    pose proof (written_other h h1 ts i c ca x Hsp Hc Hrx Hw j t (ub + x) Ht Hne Hv Hkv) as Hsrc.
    unfold reply_byte. apply wp_try_bind, wp_bind. unfold wp at 1. rewrite virt_to_phys_read. apply wp_ret.
    rewrite (user_range_add ub n x Hru Hxn), (translate_same h h1 t _ (Hts j t Ht)).
    unfold user_byte in Hsrc at 2. destruct (translate (mem h) (pagetable t) (ub + x)) as [pa|] eqn:Es; cbn [ok_or].
    2: { split; [by apply (user_written_more _ _ _ _ x); [lia|]|]. exists x. split; [done|]. left. unfold user_byte. by rewrite Es. }
    apply wp_try_bind, wp_bind. unfold wp at 1. rewrite virt_to_phys_read. apply wp_ret.
    rewrite (user_range_add ca n x Hrc Hxn), (translate_same h h1 c _ (Hts i c Hc)).
    destruct (translate (mem h) (pagetable c) (ca + x)) as [pb|] eqn:Ed; cbn [ok_or].
    2: { split; [by apply (user_written_more _ _ _ _ x); [lia|]|]. exists x. split; [done|]. right. unfold user_byte. by rewrite Ed. }
    apply wp_bind, wp_gets, wp_bind, wp_modify, wp_ret. rewrite length_app. cbn [length].
    replace (Z.of_nat (length xs + 1)) with (x + 1) by lia.
    unfold user_byte in Hsrc. rewrite (translate_same h h1 t _ (Hts j t Ht)), Es in Hsrc. cbn in Hsrc. injection Hsrc as Hsrc.
    apply copied_snoc; [done|apply Hsp|done| |lia|done|done|].
    + by apply (user_range_sub ca n); [lia|].
    + unfold user_byte. rewrite Es. cbn. by rewrite load8_byte, Hsrc.
  - intros h1 [Hw Hb]. assert (Z.of_nat (length (seqZ 0 n)) = n) as E by (rewrite length_seqZ; lia). by rewrite E in Hw, Hb.
Qed.

(** The bytes a sleeping client has room for, by its saved registers. *)
Definition reply_room (h : mach) (c : Task) (len : Z) : Z :=
  Z.min (Z.min len (tf_a6 (frame_at (mem h) (trap_frame c)))) IPC_BUF_SIZE.
Definition reply_addr (h : mach) (c : Task) : Z := tf_a5 (frame_at (mem h) (trap_frame c)).
(** A reply with its buffer in the client's registers and memory. *)
Record reply_done s s' t c (ws : list Z) (ub len : Z) : Prop := {
  rd_words : let f := frame_at (mem (hw s')) (trap_frame c) in
    tf_a0 f = word ws 0 ∧ tf_a1 f = word ws 1 ∧ tf_a2 f = word ws 2 ∧ tf_a3 f = word ws 3;
  rd_len : tf_a5 (frame_at (mem (hw s')) (trap_frame c)) = reply_room (hw s) c len;
  rd_bytes k : 0 ≤ k < reply_room (hw s) c len →
    user_byte (mem (hw s')) c (reply_addr (hw s) c + k) = user_byte (mem (hw s)) t (ub + k);
}.

(** The registers of the reply, then the bytes, then the rest of the call. *)
Lemma reply_copy_wp s i j t c ws ub len opt (K : T (result unit)) Q :
  spaces_ok (hw s) (tasks (self s)) → tasks (self s) !! j = Some (Some t) → tasks (self s) !! i = Some (Some c) → j ≠ i →
  let n := reply_room (hw s) c len in let ca := reply_addr (hw s) c in
  user_range ub n → user_range ca n → (0 < n → opt = Some (pagetable t)) →
  (∀ h, spaces_ok h (tasks (self s)) → (∀ self', reply_done s (mkTsys self' h) t c ws ub len) → wp K Q (mkTsys (self s) h)) →
  (∀ h k, spaces_ok h (tasks (self s)) → 0 ≤ k < n →
     user_byte (mem (hw s)) t (ub + k) = None ∨ user_byte (mem (hw s)) c (ca + k) = None → Q Err (mkTsys (self s) h)) →
  wp (_ ← on_hw (set_reply (trap_frame c) ws);
      _ ← on_hw (store (trap_frame c +' off_a5) n);
      _ ←? (if 0 <? n then
              replier_pt ← unwrap opt;
              on_hw (try_foreach (seqZ 0 n) (reply_byte replier_pt (pagetable c) ub ca))
            else mret (Ok tt));
      K) Q s.
Proof.
  intros Hsp Ht Hc Hne n ca Hru Hrc Hopt HQ HErr. pose proof (spaces_task _ _ Hsp i c Hc) as Hok.
  pose proof (space_layout _ _ Hok) as Hl.
  apply wp_bind, wp_on_hw, set_reply_wp. cbn [self hw]. apply wp_bind, wp_on_hw, wp_modify. cbn [self hw].
  match goal with |- context [mkTsys (self s) ?x] => set (h1 := x) end.
  assert (∀ a, ¬ in_page (kernel_stack c) a → load64 (mem h1) a = load64 (mem (hw s)) a) as Hout.
  { intros a Ha. cbn [h1 mem set_mem]. rewrite (field_store_out c) by (done || by vm_compute). by apply reply_mem_out. }
  assert (spaces_ok h1 (tasks (self s))) as Hsp1.
  { change h1 with (set_mem (λ m, store64 (reply_mem (trap_frame c) ws m) (trap_frame c +' off_a5) n) (hw s)).
    apply (spaces_ok_frame_write _ _ i c); [done|done|].
    intros m a _ Ha. rewrite (field_store_out c) by (done || by vm_compute). by apply reply_mem_out. }
  destruct (frame_field c off_a5 Hl ltac:(by vm_compute)) as [Ef _].
  pose proof (reply_mem_fields c ws (mem (hw s)) Hl) as Hfields. cbv zeta in Hfields.
  assert (let f := frame_at (mem h1) (trap_frame c) in
    (tf_a0 f = word ws 0 ∧ tf_a1 f = word ws 1 ∧ tf_a2 f = word ws 2 ∧ tf_a3 f = word ws 3) ∧ tf_a5 f = n) as [Hws H5].
  { cbn [h1 mem set_mem frame_at tf_a0 tf_a1 tf_a2 tf_a3 tf_a5] in *. rewrite Ef.
    change (trap_frame c + 8 * 14) with (trap_frame c + off_a5). rewrite load64_store64_eq.
    split; [|done]. rewrite !load64_store64_ne by (unfold off_a5; lia). exact Hfields. }
  assert (∀ k u v, tasks (self s) !! k = Some (Some u) → 0 ≤ v < 2 ^ 39 → kernel_va v = false →
    user_byte (mem h1) u v = user_byte (mem (hw s)) u v) as Hbyte
    by (intros k u v Hk; by apply (stack_write_byte (hw s) h1 (tasks (self s)) i c k)).
  apply wp_try_bind. destruct (Z.ltb_spec 0 n) as [Hpos|Hz].
  - apply wp_bind, wp_unwrap with (pagetable t); [by apply Hopt|]. apply wp_on_hw. cbn [self hw]. eapply wp_mono.
    { apply (reply_bytes_wp h1 (tasks (self s)) i j t c ub ca n); (done || lia). }
    intros r h [Hw Hr]. pose proof (written_spaces h1 h _ i c ca n Hsp1 Hc Hrc Hw) as Hsph. destruct r as [[]|].
    + apply HQ; [done|]. intros self'. pose proof (written_frame h1 h _ i c ca n Hsp1 Hc Hrc Hw i c Hc) as Hfr.
      split; cbn [hw]; rewrite ?Hfr; [done|done|]. intros k Hk. fold ca n in Hk |- *. rewrite Hr by done.
      destruct (Hru k Hk). by apply (Hbyte j).
    + destruct Hr as (k & Hk & Hr). apply (HErr h k); [done|done|]. destruct (Hru k Hk), (Hrc k Hk).
      by rewrite (Hbyte j t), (Hbyte i c) in Hr by done.
  - apply wp_ret, HQ; [done|]. intros self'. split; cbn [hw]; [done|done|]. fold n. lia.
Qed.

(** [ipc_reply_buf] wakes the client with the reply and the bytes, or fails without waking it;
    an address that is not mapped leaves the reply's registers changed. *)
Lemma ipc_reply_buf_wp client ws ub len s t :
  kernel_ok s → in_user s t →
  (∀ i c, reply_slot (self s) client i c → state c = Sleeping →
     user_range ub (reply_room (hw s) c len) ∧ user_range (reply_addr (hw s) c) (reply_room (hw s) c len)) →
  wp (ipc_reply_buf client ws ub len) (λ r s', kernel_ok s' ∧ in_user s' t ∧
    match r with
    | Ok _ => ∃ i c, reply_slot (self s) client i c ∧ state c = Sleeping ∧ self s' = woken i (self s) ∧
        reply_done s s' t c ws ub len
    | Err => self s' = self s ∧
        (s' = s ∧ (∀ i c, reply_slot (self s) client i c → state c ≠ Sleeping) ∨
         ∃ i c k, reply_slot (self s) client i c ∧ state c = Sleeping ∧ 0 ≤ k < reply_room (hw s) c len ∧
           (user_byte (mem (hw s)) t (ub + k) = None ∨ user_byte (mem (hw s)) c (reply_addr (hw s) c + k) = None))
    end) s.
Proof.
  intros Hk Hu Hhonest. pose proof Hu as (j & Hj & Ht & Hp & Hrun & Hid). pose proof Hk as [[Hm _] Hsp].
  pose proof (tm_pids _ Hm) as Hun.
  unfold ipc_reply_buf. apply wp_try_bind, reply_target_wp; [done| |].
  2: { intros Hno. do 3 (split; [done|]). left. split; [done|]. intros i c Hr. by apply Hno in Hr. }
  intros i c Hslot. pose proof Hslot as (Hi & Hpc & e & ep & Hw & Hep & Hown).
  apply wp_bind, wp_get_self, wp_bind, wp_get_self, wp_bind, wp_task_at with c; [done|].
  case_bool_decide as Hs; cbn [negb].
  2: { apply wp_ret. do 3 (split; [done|]). left. split; [done|]. intros i' u (Hu' & Hpu & _).
       assert (i' = i) as -> by (apply (Hun i' i u c); congruence). congruence. }
  destruct (Hhonest i c Hslot Hs) as [Hru Hrc]. assert (j ≠ i) as Hne by (intros ->; congruence).
  pose proof (space_layout _ _ (spaces_task _ _ Hsp i c Hi)) as Hl.
  apply wp_bind, wp_on_hw, wp_gets, wp_bind, wp_on_hw, wp_gets. cbn [self hw].
  destruct (frame_field c off_a5 Hl ltac:(by vm_compute)) as [E5 _], (frame_field c off_a6 Hl ltac:(by vm_compute)) as [E6 _].
  assert (load64 (mem (hw s)) (trap_frame c +' off_a5) = reply_addr (hw s) c) as -> by (by rewrite E5).
  assert (load64 (mem (hw s)) (trap_frame c +' off_a6) = tf_a6 (frame_at (mem (hw s)) (trap_frame c))) as -> by (by rewrite E6).
  cbv zeta. cbn [self hw]. fold (reply_room (hw s) c len). subst client. rewrite (pagetable_of_unique _ i c Hun Hi).
  cbn [default]. rewrite Hp, (pagetable_of_unique _ j t Hun Ht).
  assert (mkTsys (self s) (hw s) = s) as Es by by destruct s. rewrite !Es.
  apply (reply_copy_wp s i j t c); [done..| | |].
  - intros Hn. rewrite (proj2 (Z.ltb_lt _ _)); [done|]. unfold reply_room in Hn. lia.
  - intros h Hsph Hdone. apply wp_bind, wake_at_wp with c; [done|]. apply wp_ret. cbn [self hw].
    assert (kernel_ok (mkTsys (woken i (self s)) h)) as Hk'.
    { apply (woken_ok s i c); [done|done|done|intros e' E; congruence|done]. }
    split; [done|]. split; [by apply (woken_user s i c)|]. exists i, c. do 3 (split; [done|]). apply Hdone.
  - intros h k Hsph Hkn Hnone. split; [by destruct Hk|]. split; [by exists j|]. split; [done|]. right. by exists i, c, k.
Qed.
End reply.
