(* ===== verification/Fork.v ===== *)
(** [fork] of [Task.v]: the child is a copy of its parent.  Every page of the parent's
    image, heap and stack has a fresh copy at the same address with the same
    permissions, the child's registers are the parent's with 0 in [a0], and the memory
    invariant holds with the child added. *)

From S2P Require Import Prelude Arch Page Memory Machine Pgtable Vm Trap Ipc Task Space Sched Inv IpcFacts Create Build.

(** Page [p] of [m'] holds what page [b] of [m] holds. *)
Definition page_eq (m : memory) (b : Z) (m' : memory) (p : Z) : Prop :=
  ∀ k, 0 ≤ k < 512 → load64 m' (p + 8 * k) = load64 m (b + 8 * k).
(** The bits of an entry that [fork] copies. *)
Definition fork_flags (pte : Z) : Z := Z.land pte 0x3fe.

(** How many pages [fork] copies at most, besides the stack, and what it asks of the
    parent: the heap is above the image and mapped. *)
Definition range_count (lo hi : Z) : Z := (hi - lo) / PAGE_SIZE.
Definition fork_count (t : Task) : Z :=
  range_count (image_lo t) (image_hi t) + range_count (heap_base t) (heap_hi t).
Record forkable (m : memory) (t : Task) : Prop := {
  fork_heap_above : image_hi t ≤ heap_base t;
  fork_heap_mapped va :
    page_range (heap_base t) (heap_hi t) va → is_Some (pt_lookup m (pagetable t) va);
}.

Section ranges.
Lemma elem_of_range_step lo hi x :
  page_aligned lo → page_aligned hi → lo ≤ hi →
  x ∈ range_step lo hi PAGE_SIZE ↔ page_range lo hi x.
Proof.
  intros Hlo Hhi Hle. rewrite range_step_pages by done.
  pose proof (page_range_aligned lo hi ((hi - lo) / PAGE_SIZE) Hlo Hhi Hle eq_refl) as Hn.
  rewrite list_elem_of_fmap. setoid_rewrite elem_of_seqZ. destruct Hlo as [Hlo0 Hlom].
  unfold page_range, PAGE_SIZE in *. split.
  - intros (k & -> & Hk). split; [lia|]. by rewrite Z.mod_add.
  - intros [Hx Hm]. exists ((x - lo) / 4096). pose proof (Z.div_mod (x - lo) 4096).
    assert ((x - lo) mod 4096 = 0) as Hm' by (rewrite Zminus_mod, Hm, Hlom; done).
    split; [lia|]. lia.
Qed.
Lemma range_step_count lo hi :
  page_aligned lo → page_aligned hi → lo ≤ hi →
  NoDup (range_step lo hi PAGE_SIZE) ∧
  Z.of_nat (length (range_step lo hi PAGE_SIZE)) = range_count lo hi.
Proof.
  intros Hlo Hhi Hle. rewrite range_step_pages by done. unfold range_count, PAGE_SIZE. split.
  - apply NoDup_fmap_2_strong; [intros; lia|apply NoDup_seqZ].
  - rewrite length_fmap, length_seqZ. pose proof (Z.div_pos (hi - lo) 4096). lia.
Qed.
Lemma fork_flags_bound pte : 0 ≤ Z.lor (fork_flags pte) PTE_V < 2 ^ 10.
Proof.
  apply lor_bound; [lia| |by vm_compute]. unfold fork_flags. rewrite Z.land_comm. by apply land_bound.
Qed.
Lemma fork_flags_leaf pte : pte_leaf (fork_flags pte) = pte_leaf pte.
Proof. unfold pte_leaf, fork_flags. rewrite <- Z.land_assoc. done. Qed.
Lemma page_eq_kept m b m1 m2 p :
  page_eq m b m1 p → (∀ a, in_page p a → load64 m2 a = load64 m1 a) → page_eq m b m2 p.
Proof.
  intros H Hk k Hk'. rewrite Hk; [by apply H|]. unfold in_page, PAGE_SIZE. lia.
Qed.
End ranges.

(** ** Copying the pages *)

Section copying.
(** The machine before the call, the parent and its tables. *)
Context (h0 : mach) (t : Task) (cpt : Z).
Hypothesis parent_ok : space_ok h0 t.
Hypothesis parent_alloc : ∀ b, owns (mem h0) t b → is_alloc h0 b.
Implicit Types (h : mach) (us : gmap Z Z) (ex : list Z).

(** The child so far: copies of the parent's pages at the addresses of [P]. *)
Record forked (h : mach) (us : gmap Z Z) (ex : list Z) (P : Z → Prop) : Prop := {
  fk_building : building h0 h cpt us ex;
  fk_copied va p : us !! va = Some p → ∃ pte,
    pt_lookup (mem h0) (pagetable t) va = Some pte ∧
    pt_lookup (mem h) cpt va = Some (pa_to_pte p (Z.lor (fork_flags pte) PTE_V)) ∧
    page_eq (mem h0) (pte_to_pa pte) (mem h) p;
  fk_dom va : is_Some (us !! va) ↔ P va ∧ is_Some (pt_lookup (mem h0) (pagetable t) va);
}.

(** The parent's view does not change meanwhile. *)
Lemma parent_same h : extends h0 h → tables_same h0 h t.
Proof.
  intros He b a Hb Hin. apply (ext_mem _ _ He b); [|done]. apply parent_alloc. left. by left.
Qed.
Lemma source_pte_wp h va Q :
  extends h0 h → Q (pt_lookup (mem h0) (pagetable t) va) h → wp (source_pte (pagetable t) va) Q h.
Proof.
  intros He HQ. unfold source_pte. apply wp_otry_bind. unfold wp at 1. rewrite walk_read.
  assert (pt_lookup (mem h) (pagetable t) va = pt_lookup (mem h0) (pagetable t) va) as Hlk.
  { apply pt_lookup_frame. by apply parent_same. }
  rewrite <- Hlk in HQ. unfold pt_lookup in HQ. destruct (slot (mem h) (pagetable t) va) as [e|]; [|done].
  apply wp_bind, wp_gets, wp_ret. exact HQ.
Qed.

Lemma forked_weaken h us ex P P' :
  (∀ va, P va ↔ P' va) → forked h us ex P → forked h us ex P'.
Proof. intros H [? ? Hd]. split; [done..|]. intros va. by rewrite <- H. Qed.

(** What a step of the copy promises, and that it succeeds for a page [va] not yet
    copied when three pages are free (the copy and two tables). *)
Definition fork_post ex (P : Z → Prop) (r : result unit) h : Prop :=
  (∃ us ex', building h0 h cpt us ex') ∧ (r = Ok tt → ∃ us, forked h us ex P).
Definition fork_step h ex P va (good : Prop) (r : result unit) h' : Prop :=
  fork_post ex (λ v, P v ∨ v = va) r h' ∧
  (good → ¬ P va → 3 ≤ free_count h → r = Ok tt ∧ free_count h - 3 ≤ free_count h').
Lemma fork_step_weaken h ex P va (good good' : Prop) r h' :
  (good' → good) → fork_step h ex P va good r h' → fork_step h ex P va good' r h'.
Proof. intros Hg [Hp Hs]. split; [done|]. auto. Qed.

(** A copied page, and the mapping of the copy. *)
Lemma fork_copy_wp h us ex P va pte :
  forked h us ex P → user_va t va → layout_ok t →
  pt_lookup (mem h0) (pagetable t) va = Some pte →
  wp (fork_copy cpt va pte) (fork_step h ex P va True) h.
Proof.
  intros [Hb Hc Hd] Hva Hlay Hpte. destruct (user_va_spec t va Hlay Hva) as (Hvr & Hvp & Hkv).
  assert (page_aligned va ∧ va + PAGE_SIZE ≤ 2 ^ 39) as [Hval Hvb].
  { pose proof (page_of_spec va) as [_ Hm]. rewrite Hvp in Hm. split; [split; [lia|done]|].
    unfold PAGE_SIZE in *. pose proof (Z.div_mod va 4096). lia. }
  set (b := pte_to_pa pte).
  assert (is_alloc h0 b) as Hba.
  { apply parent_alloc, (user_va_owned _ _ va); [apply parent_ok|done|]. unfold maps. by rewrite Hpte. }
  eapply wp_mono.
  { apply (building_page_wp h0 h cpt us ex va (fork_flags pte) (λ p m, copy_page m b p)); try done.
    - rewrite fork_flags_leaf. by apply (space_leaves _ _ parent_ok va).
    - apply fork_flags_bound.
    - intros p m a _ _. apply load64_copy_page_out. }
  intros r h' (Hbd & Hroom & Hok). split; [split; [done|]|].
  2: { intros _ Hn Hf. apply Hroom; [done| |done]. destruct (us !! va) eqn:E; [|done].
       destruct Hn. apply Hd. by rewrite E. }
  intros ->. destruct (Hok eq_refl) as
    (p & Hpa & Hpb & Hun & _ & Hb' & Hnew & Hck & Hlk). exists (<[va := p]> us). split; [done| |].
  - intros va' p'. rewrite lookup_insert_Some. intros [[<- <-]|[Hne Hp']].
    + exists pte. split; [done|]. split; [by rewrite Hlk, decide_True by done|].
      intros k Hk. rewrite Hnew by (unfold in_page, PAGE_SIZE; lia). rewrite load64_copy_page by done.
      apply (ext_mem _ _ (b_ext _ _ _ _ _ Hb) b); [done|]. unfold in_page, PAGE_SIZE. lia.
    + destruct (Hc va' p' Hp') as (pte' & H1 & H2 & H3). exists pte'. split; [done|].
      destruct (b_keys _ _ _ _ _ Hb va' p' Hp') as ([Hv0 Hvm] & Hv1 & _). split.
      * rewrite Hlk, decide_False; [done| |unfold PAGE_SIZE in *; lia].
        rewrite page_of_aligned by done. congruence.
      * apply (page_eq_kept _ _ (mem h)); [done|]. intros a. apply Hck.
        -- apply (b_alloc _ _ _ _ _ Hb). eauto.
        -- by destruct (b_pages _ _ _ _ _ Hb va' p' Hp') as (_ & ? & _).
  - intros v. destruct (decide (v = va)) as [->|Hne].
    + rewrite lookup_insert_eq, Hpte. split; [intros _; split; [by right|done]|done].
    + rewrite lookup_insert_ne, Hd by done. split; [intros [? ?]; auto|]. intros [[?|?] ?]; done.
Qed.
Lemma fork_image_page_wp h us ex P va :
  forked h us ex P → user_va t va →
  wp (fork_image_page (pagetable t) cpt va) (fork_step h ex P va True) h.
Proof.
  intros H Hva. pose proof (b_ext _ _ _ _ _ (fk_building _ _ _ _ H)) as He.
  unfold fork_image_page. apply wp_bind, source_pte_wp; [done|].
  destruct (pt_lookup (mem h0) (pagetable t) va) as [pte|] eqn:Hpte.
  - apply (fork_copy_wp _ us); try done. apply parent_ok.
  - apply wp_ret. split; [|intros; split; [done|lia]].
    split; [exists us, ex; apply H|]. intros _. exists us. destruct H as [? ? Hd]. split; [done..|].
    intros v. rewrite Hd. split; [tauto|]. intros [[?| ->] Hs]; [done|]. rewrite Hpte in Hs. by destruct Hs.
Qed.
Lemma fork_heap_page_wp h us ex P va :
  forked h us ex P → user_va t va →
  wp (fork_heap_page (pagetable t) cpt va)
    (fork_step h ex P va (is_Some (pt_lookup (mem h0) (pagetable t) va))) h.
Proof.
  intros H Hva. pose proof (b_ext _ _ _ _ _ (fk_building _ _ _ _ H)) as He.
  unfold fork_heap_page. apply wp_try_bind, wp_bind, source_pte_wp; [done|]. apply wp_ret.
  destruct (pt_lookup (mem h0) (pagetable t) va) as [pte|] eqn:Hpte; cbn [ok_or].
  - eapply wp_mono; [apply (fork_copy_wp _ us); try done; apply parent_ok|].
    intros r h'. by apply fork_step_weaken.
  - split; [split; [exists us, ex; apply H|done]|]. by intros [? ?].
Qed.
Lemma fork_loop_wp (body : Z → M (result unit)) (good : Z → Prop) l h us ex P :
  (∀ h us P va, va ∈ l → forked h us ex P → wp (body va) (fork_step h ex P va (good va)) h) →
  forked h us ex P →
  wp (try_foreach l body) (λ r h', fork_post ex (λ v, P v ∨ v ∈ l) r h' ∧
    (NoDup l → (∀ va, va ∈ l → good va ∧ ¬ P va) → 3 * Z.of_nat (length l) ≤ free_count h →
     r = Ok tt ∧ free_count h - 3 * Z.of_nat (length l) ≤ free_count h')) h.
Proof.
  intros Hbody H.
  set (room := NoDup l ∧ (∀ va, va ∈ l → good va ∧ ¬ P va) ∧ 3 * Z.of_nat (length l) ≤ free_count h).
  apply wp_try_foreach with (I := λ dn h', (∃ us', forked h' us' ex (λ v, P v ∨ v ∈ dn)) ∧
    (room → free_count h - 3 * Z.of_nat (length dn) ≤ free_count h')).
  - split; [|intros _; cbn; lia]. exists us.
    apply (forked_weaken _ _ _ P); [|done]. intros va. rewrite elem_of_nil. tauto.
  - intros dn x rest h' Hl [[us' H'] Hroom]. assert (x ∈ l) as Hx by (rewrite Hl; apply list_elem_of_middle).
    eapply wp_mono; [by apply (Hbody h' us')|]. intros r h'' [[Hb Hok] Hs].
    assert (room → r = Ok tt ∧ free_count h' - 3 ≤ free_count h'') as Hstep.
    { intros Hr. specialize (Hroom Hr). destruct Hr as (Hnd & Hg & Hf). destruct (Hg x Hx) as [Hgx Hpx].
      rewrite Hl in Hnd, Hf. rewrite length_app in Hf. cbn [length] in Hf. apply Hs; [done| |lia].
      intros [?|Hin]; [done|]. apply NoDup_app in Hnd as (_ & Hnd & _). apply (Hnd x Hin). by left. }
    destruct r as [[]|].
    + split.
      * destruct (Hok eq_refl) as [us'' H'']. exists us''.
        apply (forked_weaken _ _ _ _ (λ v, P v ∨ v ∈ dn ++ [x])) in H''; [done|].
        intros va. rewrite elem_of_app, list_elem_of_singleton. tauto.
      * intros Hr. specialize (Hroom Hr). destruct (Hstep Hr). rewrite length_app. cbn [length]. lia.
    + split; [by split|]. intros. by destruct Hstep as [? _].
  - intros h' [[us' H'] Hroom]. split; [split; [exists us', ex; apply H'|]|].
    + intros _. by exists us'.
    + intros ???. split; [done|]. by apply Hroom.
Qed.
End copying.

Section loops.
Implicit Types (s : tsys) (h : mach) (us : gmap Z Z).

(** The fresh stacks and the new table with the kernel's map. *)
Lemma fork_start_wp (k : Z → Z → Z → T (result Z)) Q s :
  pages_wf (hw s) →
  (∀ h, extends (hw s) h → free_count (hw s) < 27 → Q Err (mkTsys (self s) h)) →
  (∀ h ks cus cpt, building (hw s) h cpt ∅ [cus; ks] → page_aligned ks → page_aligned cus →
     (27 ≤ free_count (hw s) → free_count (hw s) - 27 ≤ free_count h) →
     wp (k ks cus cpt) Q (mkTsys (self s) h)) →
  wp (ks ←? (o ← on_hw page_alloc; mret (ok_or o));
      cus ←? (o ← on_hw page_alloc; mret (ok_or o));
      cpt ←? (o ← on_hw pgtable_create; mret (ok_or o));
      _ ←? on_hw (map_kernel cpt); k ks cus cpt) Q s.
Proof.
  intros Hp HErr Hk. apply wp_try_bind, wp_bind, wp_on_hw. eapply wp_mono; [by apply page_alloc_ext|].
  intros [ks|] h1; [|intros [-> Hz]; apply wp_ret, HErr; [by apply extends_refl|lia]].
  intros (He1 & Hksa & Hksb & Hksn & Hal1 & Hf1). apply wp_ret. cbn [ok_or].
  apply wp_try_bind, wp_bind, wp_on_hw. cbn [self hw]. eapply wp_mono; [apply page_alloc_ext, He1|].
  intros [cus|] h2; [|intros [-> Hz]; apply wp_ret, HErr; [done|lia]].
  intros (He2 & Hcusa & Hcusb & Hcusn & Hal2 & Hf2). apply wp_ret. cbn [ok_or].
  pose proof (extends_trans _ _ _ He1 He2) as He02.
  apply wp_try_bind, wp_bind, wp_on_hw. cbn [self hw]. eapply wp_mono; [apply pgtable_create_ext, He2|].
  intros [cpt|] h3; [|intros [-> Hz]; apply wp_ret, HErr; [done|lia]].
  intros (He3 & Hpta & Hptb & Hptn & Hal3 & Hf3 & Hbl & Hr). apply wp_ret. cbn [ok_or].
  apply wp_try_bind, wp_on_hw. cbn [self hw]. eapply wp_mono.
  { apply (building_start_wp (hw s) h2 h3 cpt [cus; ks]); try done.
    - apply NoDup_cons. split; [|by apply NoDup_singleton]. rewrite list_elem_of_singleton. intros ->.
      apply Hcusn, Hal1. by left.
    - intros b. rewrite Hal2, Hal1, !elem_of_cons, elem_of_nil. tauto.
    - intros b. rewrite !elem_of_cons, elem_of_nil. intros [->|[->|[]]]; [|done].
      intros Hb. by apply Hcusn, (ext_alloc _ _ He1). }
  intros r h4 (He4 & _ & Hb & Hf4). destruct r as [[]|].
  - apply Hk; [by apply Hb|done|done|]. intros ?. destruct Hf4; lia.
  - apply HErr; [done|]. destruct (Z.lt_ge_cases (free_count (hw s)) 27); [done|].
    destruct Hf4; [lia|done].
Qed.

(** The pages of the image and of the heap. *)
Lemma fork_ranges_wp (k : T (result Z)) Q h0 t cpt ex s :
  space_ok h0 t → (∀ b, owns (mem h0) t b → is_alloc h0 b) →
  building h0 (hw s) cpt ∅ ex →
  (∀ h, extends h0 h → ¬ (forkable (mem h0) t ∧ 3 * fork_count t ≤ free_count (hw s)) →
     Q Err (mkTsys (self s) h)) →
  (∀ h us, forked h0 t cpt h us ex (user_page t) →
     (forkable (mem h0) t → 3 * fork_count t ≤ free_count (hw s) →
        free_count (hw s) - 3 * fork_count t ≤ free_count h) → wp k Q (mkTsys (self s) h)) →
  let start := page_down (image_base t) in
  let end_ := page_down (image_base t +' image_size t +' PAGE_SIZE -' 1) in
  wp (_ ←? on_hw (try_foreach (range_step start end_ PAGE_SIZE) (fork_image_page (pagetable t) cpt));
      heap_mapped_end ←? mret (align_up (heap_end t));
      _ ←? on_hw (try_foreach (range_step (heap_base t) heap_mapped_end PAGE_SIZE)
                    (fork_heap_page (pagetable t) cpt)); k) Q s.
Proof.
  intros Hok Hown Hb HErr Hk start end_. pose proof (space_layout _ _ Hok) as Hlay.
  destruct (layout_ranges t Hlay) as [(Hia & Hib & Hic & _) (Hha & Hhb & _)].
  pose proof (proj1 (lay_heap _ Hlay)) as Hhal.
  destruct (range_step_count (image_lo t) (image_hi t)) as [Hnd1 Hn1]; [done..|].
  destruct (range_step_count (heap_base t) (heap_hi t)) as [Hnd2 Hn2]; [done..|].
  assert (0 ≤ range_count (heap_base t) (heap_hi t)) as Hc2 by lia.
  change start with (image_lo t). change end_ with (image_hi t). unfold fork_count in *.
  apply wp_try_bind, wp_on_hw. eapply wp_mono.
  { apply (fork_loop_wp h0 t cpt _ (λ _, True) _ (hw s) ∅ ex (λ _, False)).
    - intros h us P va Hva Hf. apply (fork_image_page_wp h0 t cpt Hok Hown h us); [done|]. left. left.
      by apply elem_of_range_step.
    - split; [done| |]; intros va; rewrite lookup_empty; [done|]. split; [by intros [? ?]|tauto]. }
  intros r h1 [[(us' & ex' & Hb1) Hok1] Hr1]. rewrite Hn1 in Hr1.
  destruct r as [[]|]; [|apply HErr; [by apply (b_ext _ _ _ _ _ Hb1)|]; intros [_ ?];
    destruct Hr1; (done || lia || (intros; tauto))].
  destruct (Hok1 eq_refl) as [us1 H1]. clear us' ex' Hb1 Hok1.
  destruct (align_up_spec (heap_end t)) as (w & Ew & _).
  { destruct Hlay as [_ ([? _] & ?) _ _ _ _]. unfold USER_LIMIT in *. lia. }
  assert (heap_hi t = w) as Hw by (unfold heap_hi; by rewrite Ew). rewrite Ew.
  apply wp_try_bind, wp_ret. rewrite <- Hw. apply wp_try_bind, wp_on_hw. cbn [self hw]. eapply wp_mono.
  { apply (fork_loop_wp h0 t cpt _ (λ va, is_Some (pt_lookup (mem h0) (pagetable t) va)) _ h1 us1 ex); [|exact H1].
    intros h us P va Hva Hf. apply (fork_heap_page_wp h0 t cpt Hok Hown h us); [done|]. left. right.
    by apply elem_of_range_step. }
  intros r h2 [[(us' & ex' & Hb2) Hok2] Hr2]. rewrite Hn2 in Hr2.
  assert (forkable (mem h0) t → 3 * (range_count (image_lo t) (image_hi t) +
            range_count (heap_base t) (heap_hi t)) ≤ free_count (hw s) →
          r = Ok tt ∧ free_count (hw s) - 3 * (range_count (image_lo t) (image_hi t) +
            range_count (heap_base t) (heap_hi t)) ≤ free_count h2) as Hroom.
  { intros [Hab Hma] Hf. destruct Hr1 as [_ Hf1]; [done|by intros; tauto|lia|].
    destruct Hr2 as [-> Hf2]; [done| |lia|split; [done|lia]].
    intros va Hva. rewrite elem_of_range_step in Hva by done. split; [by apply Hma|]. intros [[]|Hva'].
    apply elem_of_range_step in Hva'; [|done..]. destruct Hva as [? _], Hva' as [? _]. lia. }
  destruct r as [[]|].
  - destruct (Hok2 eq_refl) as [us2 H2]. apply (Hk h2 us2); [|by intros; apply Hroom].
    apply (forked_weaken _ _ _ _ _ _ _ (user_page t)) in H2; [done|].
    intros va. unfold user_page. rewrite !elem_of_range_step by done. tauto.
  - apply HErr; [by apply (b_ext _ _ _ _ _ Hb2)|]. intros [? ?]. by destruct Hroom.
Qed.
End loops.

(** ** The child's stack, its first frame and its slot *)

(** The page at [va] of the new table [cpt] is a copy of [t]'s, or neither is mapped. *)
Definition copied_page (m m' : memory) (t : Task) (cpt va : Z) : Prop :=
  match pt_lookup m (pagetable t) va with
  | None => pt_lookup m' cpt va = None
  | Some pte => ∃ p, pt_lookup m' cpt va = Some (pa_to_pte p (Z.lor (fork_flags pte) PTE_V)) ∧
      page_eq m (pte_to_pa pte) m' p
  end.
(** The finished copy of [t]'s space; [ks] is the child's kernel stack. *)
Record child_space (h0 h : mach) (t : Task) (cpt cus ks : Z) (us : gmap Z Z) : Prop := {
  cs_building : building h0 h cpt us [ks];
  cs_stack : us !! STACK_VA = Some cus;
  cs_copied va p : va ≠ STACK_VA → us !! va = Some p → ∃ pte,
    pt_lookup (mem h0) (pagetable t) va = Some pte ∧
    pt_lookup (mem h) cpt va = Some (pa_to_pte p (Z.lor (fork_flags pte) PTE_V)) ∧
    page_eq (mem h0) (pte_to_pa pte) (mem h) p;
  cs_dom va : va ≠ STACK_VA →
    is_Some (us !! va) ↔ user_page t va ∧ is_Some (pt_lookup (mem h0) (pagetable t) va);
  cs_stack_eq : user_stack t ≠ 0 → page_eq (mem h0) (user_stack t) (mem h) cus;
}.

Section stack.
Implicit Types (s : tsys) (h : mach) (us : gmap Z Z).

(** The copies, in any later memory that keeps the fresh pages. *)
Definition fresh_kept h0 h (m' : memory) : Prop :=
  ∀ b a, is_alloc h b → ¬ is_alloc h0 b → in_page b a → load64 m' a = load64 (mem h) a.
Lemma child_lookup h0 h t cpt cus ks us m' va :
  child_space h0 h t cpt cus ks us → fresh_kept h0 h m' → pt_lookup m' cpt va = pt_lookup (mem h) cpt va.
Proof.
  intros [Hb _ _ _ _] Hm. apply pt_lookup_frame. intros b a Hb'. apply Hm.
  - by apply (ready_owned _ _ (b_ready _ _ _ _ _ Hb)).
  - by apply (b_new _ _ _ _ _ Hb).
Qed.
Lemma child_page h0 h t cpt cus ks us m' va p :
  child_space h0 h t cpt cus ks us → fresh_kept h0 h m' → us !! va = Some p →
  ∀ a, in_page p a → load64 m' a = load64 (mem h) a.
Proof.
  intros [Hb _ _ _ _] Hm Hp a. apply Hm; [apply (b_alloc _ _ _ _ _ Hb); eauto|].
  by destruct (b_pages _ _ _ _ _ Hb va p Hp).
Qed.
Lemma child_copied h0 h t cpt cus ks us m' va :
  layout_ok t → child_space h0 h t cpt cus ks us → fresh_kept h0 h m' → user_page t va →
  copied_page (mem h0) m' t cpt va.
Proof.
  intros Hlay H Hm Hva. destruct (user_page_spec t va Hlay Hva) as (Hv & Hp & Hk & Hne).
  unfold copied_page. rewrite (child_lookup h0 h t cpt cus ks us m') by done.
  destruct (pt_lookup (mem h0) (pagetable t) va) as [pte|] eqn:E.
  - destruct (proj2 (cs_dom _ _ _ _ _ _ _ H va Hne)) as [p Hus]; [by rewrite E|].
    destruct (cs_copied _ _ _ _ _ _ _ H va p Hne Hus) as (pte' & E' & Hl & Heq).
    rewrite E in E'. injection E' as <-. exists p. split; [done|].
    apply (page_eq_kept _ _ (mem h)); [done|]. by apply (child_page h0 h t cpt cus ks us m' va).
  - pose proof (b_entries _ _ _ _ _ (cs_building _ _ _ _ _ _ _ H) va Hv Hk) as Hes. rewrite Hp in Hes.
    destruct (us !! va) as [p|] eqn:Eus; [|by destruct (pt_lookup (mem h) cpt va)].
    destruct (proj1 (cs_dom _ _ _ _ _ _ _ H va Hne)) as [_ [pte Hpte]]; [by rewrite Eus|]. congruence.
Qed.

(** Writing the child's kernel stack. *)
Lemma child_write h0 h t cpt cus ks us f :
  child_space h0 h t cpt cus ks us → (∀ m a, ¬ in_page ks a → load64 (f m) a = load64 m a) →
  child_space h0 (set_mem f h) t cpt cus ks us.
Proof.
  intros [Hb Hs Hc Hd He] Hf. destruct (b_extra _ _ _ _ _ Hb ks) as [Hk0 Hkt]; [by left|].
  assert (is_alloc h ks) as Hka by (apply (b_alloc _ _ _ _ _ Hb); do 3 right; by left).
  assert (∀ b a, is_alloc h b → b ≠ ks → in_page b a → load64 (mem (set_mem f h)) a = load64 (mem h) a) as Hm.
  { intros b a Hba Hne Hin. apply Hf. intros Hin'. apply Hne.
    apply is_alloc_aligned in Hba as [Hba _]; [|apply Hb].
    apply is_alloc_aligned in Hka as [Hka _]; [|apply Hb]. by apply (pages_apart b ks a). }
  assert (∀ va p, us !! va = Some p → is_alloc h p ∧ p ≠ ks) as Hus.
  { intros va p Hp. split; [apply (b_alloc _ _ _ _ _ Hb); eauto|]. intros ->.
    destruct (b_pages _ _ _ _ _ Hb va ks Hp) as (_ & _ & Hn). apply Hn. by left. }
  split; [by apply (building_write _ _ _ _ _ ks)|done| |done|].
  - intros va p Hne Hp. destruct (Hc va p Hne Hp) as (pte & H1 & H2 & H3). exists pte. split; [done|].
    destruct (Hus va p Hp) as [Hpa Hpk]. split.
    + rewrite <- H2. apply pt_lookup_frame. intros b a Hb'. apply Hm; [|by intros ->].
      by apply (ready_owned _ _ (b_ready _ _ _ _ _ Hb)).
    + apply (page_eq_kept _ _ (mem h)); [done|]. intros a. by apply (Hm p).
  - intros Hs0. destruct (Hus _ _ Hs) as [Hpa Hpk]. apply (page_eq_kept _ _ (mem h)); [by apply He|].
    intros a. by apply (Hm cus).
Qed.

(** The copy of the user stack. *)
Lemma fork_stack_wp (k : T (result Z)) Q h0 t cpt cus ks us s :
  space_ok h0 t → (∀ b, owns (mem h0) t b → is_alloc h0 b) →
  forked h0 t cpt (hw s) us [cus; ks] (user_page t) →
  (∀ h, extends h0 h → free_count (hw s) < 2 → Q Err (mkTsys (self s) h)) →
  (∀ h us', child_space h0 h t cpt cus ks us' → wp k Q (mkTsys (self s) h)) →
  wp (_ ← on_hw (modify (set_mem (λ m, copy_page m (user_stack t) cus)));
      _ ←? on_hw (pgtable_map cpt (USER_STACK_TOP - PAGE_SIZE) cus PAGE_SIZE
                    (Z.lor (Z.lor PTE_R PTE_W) PTE_U)); k) Q s.
Proof.
  intros Hok Hown [Hb Hc Hd] HErr Hk. pose proof (space_layout _ _ Hok) as Hlay.
  destruct (b_extra _ _ _ _ _ Hb cus) as [Hc0 Hct]; [by left|].
  assert (is_alloc (hw s) cus) as Hca by (apply (b_alloc _ _ _ _ _ Hb); do 3 right; by left).
  apply wp_bind, wp_on_hw, wp_modify. set (h1 := set_mem _ (hw s)).
  assert (building h0 h1 cpt us [cus; ks]) as Hb1.
  { apply (building_write _ _ _ _ _ cus); [done..|]. intros m a. apply load64_copy_page_out. }
  assert (∀ b a, is_alloc (hw s) b → b ≠ cus → in_page b a → load64 (mem h1) a = load64 (mem (hw s)) a) as Hm1.
  { intros b a Hba Hne Hin. apply load64_copy_page_out. intros Hin'. apply Hne.
    apply is_alloc_aligned in Hba as [Hba _]; [|apply Hb].
    apply is_alloc_aligned in Hca as [Hca _]; [|apply Hb]. by apply (pages_apart b cus a). }
  apply wp_try_bind, wp_on_hw. cbn [self hw]. fold STACK_VA. eapply wp_mono.
  { apply (building_map_wp h0 h1 cpt us [] [ks] cus STACK_VA); (done || by vm_compute). }
  intros r h2 (Hck & _ & Hf2 & Hr). destruct r as [[]|].
  2: { destruct Hr as [Hr _]. apply HErr; [by apply (b_ext _ _ _ _ _ Hr)|].
       destruct (Z.lt_ge_cases (free_count (hw s)) 2); [done|]. destruct Hf2 as [? _]; [done| |done|done].
       destruct (us !! STACK_VA) eqn:E; [|done]. destruct (proj1 (Hd STACK_VA)) as [Hsv _]; [by rewrite E|].
       by destruct (user_page_spec t _ Hlay Hsv) as (_ & _ & _ & ?). }
  destruct Hr as (Hun & _ & Hb2 & Hlk). cbn [app] in Hb2. apply (Hk h2 (<[STACK_VA := cus]> us)). split.
  - exact Hb2.
  - apply lookup_insert_eq.
  - intros va p Hne. rewrite lookup_insert_ne by done. intros Hp.
    destruct (Hc va p Hp) as (pte & H1 & H2 & H3). exists pte. split; [done|].
    destruct (b_keys _ _ _ _ _ Hb va p Hp) as ([Hv0 Hvm] & Hv1 & _).
    destruct (b_pages _ _ _ _ _ Hb va p Hp) as (_ & Hpt & Hpx).
    assert (is_alloc (hw s) p) as Hpa by (apply (b_alloc _ _ _ _ _ Hb); eauto).
    assert (p ≠ cus) as Hpc by (intros ->; apply Hpx; by left). split.
    + rewrite Hlk, decide_False; [| |unfold PAGE_SIZE in *; lia].
      * rewrite <- H2. apply pt_lookup_frame. intros b a Hb'. apply Hm1; [|by intros ->].
        by apply (ready_owned _ _ (b_ready _ _ _ _ _ Hb)).
      * by rewrite page_of_aligned.
    + apply (page_eq_kept _ _ (mem (hw s))); [done|]. intros a Ha. rewrite (Hck p a); [by apply (Hm1 p)|done| |done].
      by destruct (b_pages _ _ _ _ _ Hb1 va p Hp) as (_ & ? & _).
  - intros va Hne. rewrite lookup_insert_ne by done. apply Hd.
  - intros Hs0 j Hj. assert (in_page cus (cus + 8 * j)) as Hin by (unfold in_page, PAGE_SIZE; lia).
    rewrite (Hck cus); [|done| |done].
    + cbn [h1 mem set_mem]. rewrite load64_copy_page by done.
      apply (ext_mem _ _ (b_ext _ _ _ _ _ Hb) (user_stack t)); [|unfold in_page, PAGE_SIZE; lia].
      apply Hown. left. right. by right.
    + by destruct (b_extra _ _ _ _ _ Hb1 cus (list_elem_of_here _ _)).
Qed.
End stack.

(** ** The theorem's content *)

(** What a successful [fork] leaves behind: the child [c] of the caller [t]. *)
Record fork_done (s s' : tsys) (t c : Task) (p : Z) : Prop := {
  fd_pid : p = next_pid (self s) ∧ pid c = p ∧ next_pid (self s') = u32 (p + 1);
  fd_state : state c = Ready ∧ parent_pid c = Some (pid t) ∧ waiting_for c = None;
  fd_slot : ∃ i, position is_none (tasks (self s)) = Some i ∧
    tasks (self s') = <[i := Some c]> (tasks (self s));
  fd_others : current_pid (self s') = current_pid (self s) ∧ endpoints (self s') = endpoints (self s) ∧
    uart_owner (self s') = uart_owner (self s);
  fd_layout : entry c = entry t ∧ image_base c = image_base t ∧ image_size c = image_size t ∧
    heap_base c = heap_base t ∧ heap_end c = heap_end t;
  fd_pages va : user_page t va → copied_page (mem (hw s)) (mem (hw s')) t (pagetable c) va;
  fd_stack : maps (mem (hw s')) c STACK_VA (user_stack c) ∧
    (user_stack t ≠ 0 → page_eq (mem (hw s)) (user_stack t) (mem (hw s')) (user_stack c));
  fd_child_frame : frame_at (mem (hw s')) (trap_frame c) =
    with_a0 (frame_at (mem (hw s)) (trap_frame t)) 0;
  fd_frame : frame_at (mem (hw s')) (trap_frame t) = with_a0 (frame_at (mem (hw s)) (trap_frame t)) p;
  fd_kept b a : is_alloc (hw s) b → in_page b a → a ≠ trap_frame t + off_a0 →
    load64 (mem (hw s')) a = load64 (mem (hw s)) a;
  fd_alloc b : is_alloc (hw s') b ↔ is_alloc (hw s) b ∨ owns (mem (hw s')) c b;
}.

(** What a failed one leaves: at most some allocated pages and a used PID. *)
Record fork_failed (s s' : tsys) : Prop := {
  ff_self : self s' = set_next_pid (λ _, next_pid (self s')) (self s);
  ff_next : next_pid (self s') = next_pid (self s) ∨ next_pid (self s') = u32 (next_pid (self s) + 1);
  ff_machine : extends (hw s) (hw s');
}.

Section finish.
Implicit Types (s : tsys) (h : mach) (us : gmap Z Z).

Lemma child_built h0 h t c us :
  layout_ok c → user_stack c ≠ 0 → (∀ va, user_page c va ↔ user_page t va) →
  child_space h0 h t (pagetable c) (user_stack c) (kernel_stack c) us →
  built h0 h us [kernel_stack c] c.
Proof.
  intros Hlay Hs0 Hup H. pose proof (cs_building _ _ _ _ _ _ _ H) as Hb. split.
  - exact Hb.
  - exact Hlay.
  - split; [apply (cs_stack _ _ _ _ _ _ _ H)|done].
  - intros va b Hva. destruct (decide (va = STACK_VA)) as [->|Hne]; [by right|]. left. apply Hup.
    apply (cs_dom _ _ _ _ _ _ _ H va Hne). by exists b.
  - by destruct (b_extra _ _ _ _ _ Hb _ (list_elem_of_here _ _)).
Qed.
(** Adding a ready task with the next PID keeps the invariant, and who is current. *)
Lemma kernel_ok_add s h i c t :
  kernel_ok s → in_user s t → position is_none (tasks (self s)) = Some i →
  pid c = next_pid (self s) → pid c ≠ IDLE_PID → task_index (tasks (self s)) (pid c) = None →
  state c = Ready → spaces_ok h (<[i := Some c]> (tasks (self s))) →
  let s' := mkTsys (set_runnable_count (λ n, u32 (n + 1)) (set_tasks (<[i := Some c]>)
              (set_next_pid (λ n, u32 (n + 1)) (self s)))) h in
  kernel_ok s' ∧ in_user s' t.
Proof.
  intros [[Hm _] _] (j & Hj & Ht & Hp & Hrun & Hid) Hpos Hpc Hpi Hnew Hst Hsp s'.
  pose proof Hpos as [([u|] & Hslot & Hn) _]%position_Some; [done|clear Hn].
  assert (i ≠ j) as Hne by (intros ->; congruence).
  assert (tm_core (self s')) as Hc by (apply tm_core_add; [apply Hm|done..]).
  assert (tasks (self s') !! j = Some (Some t)) as Ht' by (cbn; by rewrite list_lookup_insert_ne).
  assert (current_index (self s') = Some j) as Hj'.
  { unfold current_index. cbn [s' self set_runnable_count set_tasks set_next_pid current_pid tasks]. rewrite Hp.
    apply task_index_unique; [apply Hc|done]. }
  split; [split; [split|]|by exists j].
  - apply tm_mid_intro; [done|]. apply (eps_ok_kept (self s)); [done| |by apply tm_mid_eps].
    by apply sleepers_kept_add.
  - by exists j, t.
  - exact Hsp.
Qed.

(** The child's record. *)
Definition fork_task (p ks cus cpt : Z) (t : Task) : Task :=
  mkTask p Ready (ks + PAGE_SIZE - 16 - FRAME_SIZE) ks cus (entry t) cpt 0 (image_base t)
    (image_size t) (heap_base t) (heap_end t) (Some (pid t)) None.
Lemma fork_task_space h0 h t p ks cus cpt us :
  layout_ok t → child_space h0 h t cpt cus ks us → page_aligned ks → page_aligned cus →
  let c := fork_task p ks cus cpt t in
  built h0 h us [ks] c ∧ ∀ va, user_va c va → ¬ maps (mem h) c va ks.
Proof.
  intros Hlay Hcs Hks Hcus c. pose proof (cs_building _ _ _ _ _ _ _ Hcs) as Hb.
  pose proof (b_ext _ _ _ _ _ Hb) as He.
  assert (∀ b, is_alloc h b → b < 2 ^ 56 ∧ b ≠ 0) as Hbd.
  { intros b Hb'. destruct (is_alloc_aligned _ _ (ext_pages _ _ He) Hb') as [_ Hbb].
    apply is_alloc_pos in Hb'; [|apply He]. unfold PAGE_SIZE in Hbb. lia. }
  destruct (Hbd ks) as [Hk1 _]; [apply (b_alloc _ _ _ _ _ Hb); do 3 right; by left|].
  destruct (Hbd cus) as [Hc1 Hc0].
  { apply (b_alloc _ _ _ _ _ Hb). right. right. left. exists STACK_VA. apply Hcs. }
  pose proof (b_root _ _ _ _ _ Hb) as Hroot. unfold PAGE_SIZE in Hroot.
  assert (built h0 h us [ks] c) as Hbt.
  { apply (child_built h0 h t c us); try done. destruct Hlay as [L1 L2 _ _ _ _].
    split; cbn [c fork_task image_base image_size heap_base heap_end user_stack kernel_stack pagetable trap_frame];
      [done|done|by split|by split|lia|]. unfold FRAME_SIZE, FRAME_WORDS, PAGE_SIZE. lia. }
  split; [done|]. intros va Hva Hma. apply (built_maps h0 h us [ks] c va ks Hbt Hva) in Hma.
  destruct (b_pages _ _ _ _ _ Hb va ks Hma) as (_ & _ & Hn). apply Hn. by left.
Qed.

(** Storing a call's result. *)
Lemma frame_store_a0 m p v : frame_at (store64 m (p + off_a0) v) p = with_a0 (frame_at m p) v.
Proof.
  unfold frame_at, with_a0. cbn [tf_ra tf_sp tf_gp tf_tp tf_t0 tf_t1 tf_t2 tf_s0 tf_s1 tf_a1 tf_a2 tf_a3
    tf_a4 tf_a5 tf_a6 tf_a7 tf_s2 tf_s3 tf_s4 tf_s5 tf_s6 tf_s7 tf_s8 tf_s9 tf_s10 tf_s11 tf_t3 tf_t4
    tf_t5 tf_t6 tf_sstatus tf_sepc]. unfold off_a0. change (8 * 9) with 72.
  f_equal; (apply load64_store64_eq || (apply load64_store64_ne; lia)).
Qed.

(** The machine with the child's space, after the parent's result is stored. *)
Lemma fork_result s h t i ks cus cpt us slot :
  let p := next_pid (self s) in let c := fork_task p ks cus cpt t in
  let h' := set_mem (λ m, store64 m (trap_frame t +' off_a0) p) h in
  let s' := mkTsys (set_runnable_count (λ n, u32 (n + 1)) (set_tasks (<[slot := Some c]>)
              (set_next_pid (λ n, u32 (n + 1)) (self s)))) h' in
  kernel_ok s → in_user s t → tasks (self s) !! i = Some (Some t) → p ≠ IDLE_PID →
  task_index (tasks (self s)) p = None → position is_none (tasks (self s)) = Some slot →
  child_space (hw s) h t cpt cus ks us → page_aligned ks → page_aligned cus →
  frame_at (mem h) (trap_frame c) = with_a0 (frame_at (mem (hw s)) (trap_frame t)) 0 →
  fork_done s s' t c p ∧ kernel_ok s' ∧ in_user s' t.
Proof.
  intros p c h' s' Hk Hu Ht Hp0 Hnew Hpos Hcs Hks Hcus Hframe. pose proof (k_spaces _ Hk) as Hsp.
  pose proof (space_layout _ _ (spaces_task _ _ Hsp i t Ht)) as Hlay.
  pose proof Hpos as [([u|] & Hslot & Hn) _]%position_Some; [done|clear Hn].
  pose proof (cs_building _ _ _ _ _ _ _ Hcs) as Hb. pose proof (b_ext _ _ _ _ _ Hb) as He.
  destruct (fork_task_space (hw s) h t p ks cus cpt us Hlay Hcs Hks Hcus) as [Hbt Hapart]. fold c in Hbt, Hapart.
  assert (is_alloc (hw s) (kernel_stack t)) as Hkt by (apply (spaces_alloc _ _ Hsp i t); [done|by right]).
  destruct (b_extra _ _ _ _ _ Hb ks) as [Hkn Hkt']; [by left|].
  assert (is_alloc h ks) as Hka by (apply (b_alloc _ _ _ _ _ Hb); do 3 right; by left).
  destruct (frame_field t off_a0 Hlay ltac:(by vm_compute)) as [Eoff Hoff].
  assert (mem h' = store64 (mem h) (trap_frame t + off_a0) p) as Hm' by (cbn [h' mem set_mem]; by rewrite Eoff).
  assert (fresh_kept (hw s) h (mem h')) as Hfresh.
  { intros b a Hb' Hnb Hin. rewrite Hm', load64_store64_ne; [done|]. intros <-.
    apply Hnb. rewrite (pages_apart b (kernel_stack t) (trap_frame t + off_a0)); try done; [|apply Hlay].
    apply (is_alloc_aligned h); [apply He|done]. }
  assert (tables_same h h' c) as Hts.
  { intros b a Hb'. apply Hfresh; [by apply (ready_owned _ _ (b_ready _ _ _ _ _ Hb))|by apply (b_new _ _ _ _ _ Hb)]. }
  assert (spaces_ok h' (<[slot := Some c]> (tasks (self s)))) as Hsp'.
  { assert (spaces_ok h (<[slot := Some c]> (tasks (self s)))) as Hsp1.
    { apply (spaces_ok_add (hw s)); try done; [by eapply built_space_ok|]. intros b [Hb'| ->]; [|done].
      by apply (built_fresh (hw s) h us [ks] c). }
    apply (spaces_ok_frame_write h _ i t); [done| |].
    - rewrite list_lookup_insert_ne; [done|]. intros ->. congruence.
    - intros m a Hl Ha. by apply (field_store_out t). }
  split; [|by apply (kernel_ok_add s h' slot c t)]. split; try done; cbn [self hw s'].
  - by exists slot.
  - intros va Hva. by apply (child_copied (hw s) h t cpt cus ks us).
  - split.
    + apply (maps_frame h h' c); [done|]. apply (built_maps (hw s) h us [ks] c); [done|by right; split; [apply Hbt|]|].
      apply Hcs.
    + intros Hs0. apply (page_eq_kept _ _ (mem h)); [by apply Hcs|]. intros a.
      apply (child_page (hw s) h t cpt cus ks us _ STACK_VA); [done|done|apply Hcs].
  - rewrite <- Hframe. apply frame_at_ext. intros a Ha. apply (Hfresh ks); [done|done|].
    apply (frame_in_stack c); [apply Hbt|done].
  - rewrite Hm', frame_store_a0. f_equal. apply frame_at_ext. intros a Ha.
    apply (ext_mem _ _ He (kernel_stack t)); [done|]. by apply frame_in_stack.
  - intros b a Hba Ha Hne. rewrite Hm', load64_store64_ne by done. by apply (ext_mem _ _ He b).
  - intros b. rewrite (owns_frame h h' c) by done. by apply (built_exact (hw s) h us c b Hbt).
Qed.
(** The end of [fork]: the child's first frame, its slot, the parent's result. *)
Lemma fork_finish_wp Q s h t i ks cus cpt us kpt :
  let p := next_pid (self s) in
  kernel_ok s → in_user s t → tasks (self s) !! i = Some (Some t) → p ≠ IDLE_PID →
  task_index (tasks (self s)) p = None → KERNEL_PAGETABLE (hw s) = Some kpt →
  child_space (hw s) h t cpt cus ks us → page_aligned ks → page_aligned cus →
  (∀ s', fork_failed s s' → position is_none (tasks (self s)) = None → Q Err s') →
  (∀ s' c, fork_done s s' t c p → kernel_ok s' → in_user s' t → Q (Ok p) s') →
  wp (pid ← get_self next_pid;
      _ ← upd_self (set_next_pid (λ n, u32 (n + 1)));
      frame ← on_hw (read_frame (trap_frame t));
      child_tf ← on_hw (init_context ks cpt (with_a0 frame 0));
      let child := mkTask pid Ready child_tf ks cus (entry t) cpt 0 (image_base t) (image_size t)
                     (heap_base t) (heap_end t) (Some (Task.pid t)) None in
      ts ← get_self tasks;
      match position is_none ts with
      | None => mret Err
      | Some slot =>
          _ ← put_task slot (Some child);
          _ ← add_runnable;
          _ ← on_hw (store (trap_frame t +' off_a0) pid);
          mret (Ok pid)
      end) Q (mkTsys (self s) h).
Proof.
  intros p Hk Hu Ht Hp0 Hnew Hkpt Hcs Hks Hcus HErr Hok. pose proof (k_spaces _ Hk) as Hsp.
  pose proof (cs_building _ _ _ _ _ _ _ Hcs) as Hb. pose proof (b_ext _ _ _ _ _ Hb) as He.
  pose proof (space_layout _ _ (spaces_task _ _ Hsp i t Ht)) as Hlay.
  assert (is_alloc h ks) as Hka by (apply (b_alloc _ _ _ _ _ Hb); do 3 right; by left).
  apply wp_bind, wp_get_self, wp_bind, wp_upd_self, wp_bind, wp_on_hw, wp_gets. cbn [self hw].
  apply wp_bind, wp_on_hw. cbn [self hw]. eapply wp_mono.
  { apply (init_context_wp ks cpt _ kpt h); [|done|].
    - destruct (ext_globals _ _ He) as (Hg & _). congruence.
    - destruct (is_alloc_aligned h ks) as [_ Hkb]; [apply He|done|]. unfold PAGE_SIZE in Hkb. lia. }
  intros fp h1 (-> & (f & -> & Hf) & Hframe & _). apply (child_write _ _ _ _ _ _ _ f) in Hcs; [|done].
  apply wp_bind, wp_get_self. cbn [self hw tasks set_next_pid].
  destruct (position is_none (tasks (self s))) as [slot|] eqn:Hpos.
  2: { apply wp_ret, HErr; [|done]. split; [done|by right|]. apply (b_ext _ _ _ _ _ (cs_building _ _ _ _ _ _ _ Hcs)). }
  apply wp_bind, wp_put_task.
  { pose proof Hpos as [(u & Hslot & _) _]%position_Some. by eapply lookup_lt_Some. }
  apply wp_bind, wp_upd_self, wp_bind, wp_on_hw, wp_modify, wp_ret. cbn [self hw].
  destruct (fork_result s _ t i ks cus cpt us slot Hk Hu Ht Hp0 Hnew Hpos Hcs Hks Hcus) as (Hd & Hk' & Hu').
  - etransitivity; [exact Hframe|]. f_equal. apply frame_at_ext. intros a Ha. apply (ext_mem _ _ He (kernel_stack t)).
    + apply (spaces_alloc _ _ Hsp i t); [done|by right].
    + by apply frame_in_stack.
  - by apply (Hok _ _ Hd).
Qed.

(** A failed [fork] changes no task. *)
Lemma fork_failed_ok s s' t :
  kernel_ok s → in_user s t → fork_failed s s' → kernel_ok s' ∧ in_user s' t.
Proof.
  intros [[Hm Hr] Hsp] (j & Hj) [Hs _ He]. split.
  - split; rewrite Hs; [split; [|done]|].
    + split; [by destruct (mid_core _ Hm)|]. intros e ep Hep. apply (tm_endpoint _ Hm e ep Hep).
    + by apply (spaces_ok_extends (hw s)).
  - exists j. unfold current_index. rewrite Hs. exact Hj.
Qed.

Lemma fork_count_nonneg t : layout_ok t → 0 ≤ fork_count t.
Proof.
  intros Hlay. destruct (layout_ranges t Hlay) as [(? & ? & ? & _) (? & ? & _)].
  unfold fork_count, range_count, PAGE_SIZE.
  pose proof (Z.div_pos (image_hi t - image_lo t) 4096). pose proof (Z.div_pos (heap_hi t - heap_base t) 4096). lia.
Qed.
(** [fork]: the parent gets the child's PID, the child a copy of everything. *)
Lemma fork_wp s t kpt :
  let p := next_pid (self s) in
  kernel_ok s → in_user s t → KERNEL_PAGETABLE (hw s) = Some kpt →
  p ≠ IDLE_PID → task_index (tasks (self s)) p = None →
  wp (fork (trap_frame t)) (λ r s', kernel_ok s' ∧ in_user s' t ∧
    match r with
    | Ok q => q = p ∧ ∃ c, fork_done s s' t c p
    | Err => fork_failed s s' ∧ ¬ (is_Some (position is_none (tasks (self s))) ∧
        forkable (mem (hw s)) t ∧ 29 + 3 * fork_count t ≤ free_count (hw s))
    end) s.
Proof.
  intros p Hk Hu Hkpt Hp0 Hnew. pose proof Hu as (i & Hi & Ht & Hcur & _ & Hid).
  pose proof (k_spaces _ Hk) as Hsp. pose proof (spaces_pages _ _ Hsp) as Hpw.
  pose proof (spaces_task _ _ Hsp i t Ht) as Hok.
  assert (∀ b, owns (mem (hw s)) t b → is_alloc (hw s) b) as Hown by (intros b; by apply (spaces_alloc _ _ Hsp i t)).
  set (room := is_Some _ ∧ _). assert (∀ s', fork_failed s s' → ¬ room →
    kernel_ok s' ∧ in_user s' t ∧ fork_failed s s' ∧ ¬ room) as Hfail.
  { intros s' Hf Hr. destruct (fork_failed_ok s s' t) as [??]; done. }
  assert (∀ h, extends (hw s) h → fork_failed s (mkTsys (self s) h)) as Hext.
  { intros h He. split; [by destruct s as [[] ?]|by left|done]. }
  pose proof (fork_count_nonneg t (space_layout _ _ Hok)) as Hcn.
  unfold fork. apply wp_bind, wp_get_self. rewrite Hcur.
  destruct (bool_decide_reflect (Some (pid t) = Some IDLE_PID)) as [E|_]; [congruence|].
  apply wp_bind, wp_get_self. rewrite Hi. apply wp_bind, wp_task_at with t; [done|].
  apply fork_start_wp; [done| |].
  { intros h He Hf. apply Hfail; [by apply Hext|]. intros (_ & _ & ?). lia. }
  intros h ks cus cpt Hb Hks Hcus Hf1.
  apply fork_ranges_wp with (hw s) [cus; ks]; [done|done|done| |]; cbn [self hw].
  { intros h1 He Hf. apply Hfail; [by apply Hext|]. intros (_ & ? & ?). apply Hf. split; [done|lia]. }
  intros h1 us H1 Hf2.
  apply (fork_stack_wp _ _ (hw s) t cpt cus ks us (mkTsys (self s) h1)); [done|done|done| |]; cbn [self hw].
  { intros h2 He Hf. apply Hfail; [by apply Hext|]. intros (_ & ? & ?). specialize (Hf1 ltac:(lia)).
    specialize (Hf2 ltac:(done) ltac:(lia)). lia. }
  intros h2 us2 H2. apply (fork_finish_wp _ s h2 t i ks cus cpt us2 kpt); try done.
  - intros s' Hf Hp. apply Hfail; [done|]. intros ([? ?] & _). congruence.
  - intros s' c Hd Hk' Hu'. split; [done|]. split; [done|]. split; [done|]. by exists c.
Qed.
End finish.
