(* ===== verification/Heap.v ===== *)
(** [sbrk] of [Task.v]: growing maps fresh zeroed pages between the old and the new end of
    the heap, a growth that fails is undone, shrinking unmaps and releases exactly the
    pages above the new end.

    [grown h us ex] describes a machine on which the pages [us] (physical page by virtual
    page) were added to the space of [t] since machine [h0]; [ex] are further fresh pages. *)

From S2P Require Import Prelude Arch Page Memory Machine Pgtable Vm Trap Ipc Task Space Sched Inv IpcFacts Create Build Fork.

Definition zero_filled (m : memory) (p : Z) : Prop := ∀ k, 0 ≤ k < 512 → load64 m (p + 8 * k) = 0.
(** The entry of a heap page. *)
Definition heap_entry (p : Z) : Z := pa_to_pte p (Z.lor stack_flags PTE_V).

Section ranges.
Implicit Types (h : mach).

Lemma page_range_index lo hi va :
  page_aligned lo → page_aligned hi → lo ≤ hi →
  page_range lo hi va ↔ ∃ i, 0 ≤ i < (hi - lo) / PAGE_SIZE ∧ va = lo + i * PAGE_SIZE.
Proof.
  intros Hlo Hhi Hle. rewrite <- elem_of_range_step, range_step_pages by done.
  rewrite list_elem_of_fmap. setoid_rewrite elem_of_seqZ. rewrite Z.add_0_l. split.
  - intros (k & -> & ?). by exists k.
  - intros (k & ? & ->). by exists k.
Qed.
Lemma page_range_page_of lo hi v :
  page_aligned lo → page_aligned hi → page_range lo hi (page_of v) ↔ lo ≤ v < hi.
Proof.
  intros [_ Hlo] [_ Hhi]. pose proof (page_of_spec v) as [Hpv Hpm].
  unfold page_range, PAGE_SIZE in *. pose proof (Z.div_mod lo 4096). pose proof (Z.div_mod hi 4096).
  pose proof (Z.div_mod (page_of v) 4096). split; [lia|]. intros ?. split; [lia|done].
Qed.
(** [unmap] on whole pages, with release: the pages below some [mid] are gone. *)
Lemma unmap_range_wp h pt lo hi :
  pages_wf h → pt_wf (mem h) pt → page_aligned lo → page_aligned hi → lo < hi → hi ≤ 2 ^ 39 →
  wp (pgtable_unmap pt lo (hi - lo) true) (λ r h', pt_same h h' pt ∧
    (leaves_ok (mem h) pt → leaves_ok (mem h') pt) ∧
    ∃ mid, page_aligned mid ∧ lo ≤ mid ≤ hi ∧
    match r with Ok _ => mid = hi | Err => mid < hi ∧ slot (mem h) pt mid = None end ∧
    (∀ v, 0 ≤ v < 2 ^ 39 →
       pt_lookup (mem h') pt v = if decide (lo ≤ v < mid) then None else pt_lookup (mem h) pt v) ∧
    ∀ b, is_alloc h' b ↔ is_alloc h b ∧
      ¬ ∃ va, page_range lo mid va ∧ pte_to_pa <$> pt_lookup (mem h) pt va = Some b) h.
Proof.
  intros Hp Hw Hlo Hhi Hlt Hb. eapply wp_mono; [apply pgtable_unmap_wp; (done || lia)|].
  pose proof (page_range_aligned lo hi ((hi - lo) / PAGE_SIZE) Hlo Hhi ltac:(lia) eq_refl) as Hn.
  intros r h' (Hs & k & Hk & Hr & Hrw & Hal). split; [done|]. split.
  { intros Hl. by apply (leaves_ok_removed _ _ _ _ _ Hl Hrw). }
  assert (page_aligned (lo + k * PAGE_SIZE)) as Hmid.
  { destruct Hlo as [? Hm]. split; [unfold PAGE_SIZE in *; lia|]. unfold PAGE_SIZE in *. by rewrite Z.mod_add. }
  exists (lo + k * PAGE_SIZE). unfold PAGE_SIZE in *. split; [done|]. split; [lia|]. split; [|split].
  - destruct r; [by subst k|]. split; [lia|apply Hr].
  - intros v Hv. rewrite Hrw by done. unfold PAGE_SIZE. case_decide; [|done]. by destruct (pt_lookup (mem h) pt v).
  - intros b. rewrite Hal. split; intros [Ha Hnf]; (split; [done|]).
    + intros (va & Hva & E). apply Hnf. split; [done|]. apply page_range_index in Hva as (i & Hi & ->); [|done|done|lia].
      exists i. split; [|done]. unfold PAGE_SIZE in Hi. replace (lo + k * 4096 - lo) with (k * 4096) in Hi by lia.
      by rewrite Z.div_mul in Hi by lia.
    + intros (_ & i & Hi & E). apply Hnf. exists (lo + i * 4096). split; [|done].
      apply page_range_index; [done|done|lia|]. exists i. unfold PAGE_SIZE. split; [|done].
      replace (lo + k * 4096 - lo) with (k * 4096) by lia. by rewrite Z.div_mul by lia.
Qed.
End ranges.

Section growing.
Context (h0 : mach) (t : Task).
Hypothesis task_ok : space_ok h0 t.
Hypothesis task_alloc : ∀ b, owns (mem h0) t b → is_alloc h0 b.
Implicit Types (h : mach) (us : gmap Z Z) (ex : list Z).

Record grown (lo e : Z) h us ex : Prop := {
  gr_ready : pt_ready h (pagetable t);
  gr_globals : same_globals h0 h;
  gr_leaves : leaves_ok (mem h) (pagetable t);
  gr_tables b : is_table (mem h0) (pagetable t) b → is_table (mem h) (pagetable t) b;
  gr_new b : is_table (mem h) (pagetable t) b → is_table (mem h0) (pagetable t) b ∨ ¬ is_alloc h0 b;
  gr_lookup v : 0 ≤ v < 2 ^ 39 → pt_lookup (mem h) (pagetable t) v =
    match us !! page_of v with Some p => Some (heap_entry p) | None => pt_lookup (mem h0) (pagetable t) v end;
  gr_dom va : is_Some (us !! va) ↔ page_range lo e va;
  gr_unmapped va : page_range lo e va → pt_lookup (mem h0) (pagetable t) va = None;
  gr_pages va p : us !! va = Some p →
    page_aligned p ∧ p + PAGE_SIZE < 2 ^ 56 ∧ ¬ is_alloc h0 p ∧ ¬ is_table (mem h) (pagetable t) p ∧
    ¬ p ∈ ex ∧ zero_filled (mem h) p;
  gr_inj va va' p : us !! va = Some p → us !! va' = Some p → va = va';
  gr_extra b : b ∈ ex → ¬ is_alloc h0 b ∧ ¬ is_table (mem h) (pagetable t) b;
  gr_alloc b : is_alloc h b ↔
    is_alloc h0 b ∨ is_table (mem h) (pagetable t) b ∨ (∃ va, us !! va = Some b) ∨ b ∈ ex;
  gr_mem b a : is_alloc h0 b → ¬ is_table (mem h0) (pagetable t) b → in_page b a →
    load64 (mem h) a = load64 (mem h0) a;
}.

Lemma table_alloc b : is_table (mem h0) (pagetable t) b → is_alloc h0 b.
Proof. intros Hb. apply task_alloc. left. by left. Qed.
Lemma grown_start e : grown e e h0 ∅ [].
Proof.
  pose proof task_ok as [_ Hr Hl _ _ _]. split; try done.
  - by left.
  - intros va. rewrite lookup_empty. split; [by intros [??]|]. intros [? _]. lia.
  - intros va [? _]. lia.
  - intros b Hb. by apply elem_of_nil in Hb.
  - intros b. split; [auto|]. intros [?|[?|[[va Hb]|Hb]]]; [done|by apply table_alloc|done|by apply elem_of_nil in Hb].
Qed.

(** A page of [ex] was free in [h0]; no page is used twice. *)
Lemma grown_alloc_wp lo e h us :
  grown lo e h us [] →
  wp page_alloc (λ r h', match r with
    | None => h' = h ∧ free_count h = 0
    | Some p => page_aligned p ∧ p + PAGE_SIZE < 2 ^ 56 ∧ grown lo e h' us [p] ∧
        free_count h' = free_count h - 1
    end) h.
Proof.
  intros [[Hp Hw Ho] Hg Hl Ht Hn Hlk Hd Hun Hps Hi Hx Hal Hm].
  eapply wp_mono; [by apply page_alloc_wp|].
  intros [p|] h' (Hp' & Hmem & Hg' & _ & H); [|by destruct H].
  destruct H as (Hpa & Hpb & _ & Hpn & Hal' & Hf & _).
  split; [done|]. split; [done|]. split; [|done]. split; rewrite ?Hmem; try done.
  - split; [done|by rewrite Hmem|]. intros b. rewrite Hmem. intros Hb. apply Hal'. right. by apply Ho.
  - by eapply same_globals_trans.
  - intros va b Hb. destruct (Hps va b Hb) as (H1 & H2 & H3 & H4 & _ & H6). split_and!; try done.
    rewrite list_elem_of_singleton. intros ->. apply Hpn, Hal. eauto.
  - intros b ->%list_elem_of_singleton. split; intros Hb; apply Hpn, Hal; auto.
  - intros b. rewrite Hal', Hal, elem_of_nil, list_elem_of_singleton. tauto.
Qed.
Lemma grown_free_wp lo e h us p :
  grown lo e h us [p] → page_aligned p → p + PAGE_SIZE < 2 ^ 56 →
  wp (page_free p) (λ _ h', grown lo e h' us []) h.
Proof.
  intros [[Hp Hw Ho] Hg Hl Ht Hn Hlk Hd Hun Hps Hi Hx Hal Hm] Hpa Hpb.
  destruct (Hx p (list_elem_of_here _ _)) as [Hp0 Hpt].
  eapply wp_mono; [apply page_free_addr_wp; [done|done|unfold PAGE_SIZE in *; lia]|].
  intros _ h' (Hp' & Hmem & Hg' & Hal'). split; rewrite ?Hmem; try done.
  - split; [done|by rewrite Hmem|]. intros b. rewrite Hmem. intros Hb. apply Hal'.
    split; [by apply Ho|]. by intros ->.
  - by eapply same_globals_trans.
  - intros va b Hb. destruct (Hps va b Hb) as (H1 & H2 & H3 & H4 & _ & H6). split_and!; try done.
    apply not_elem_of_nil.
  - intros b Hb. by apply elem_of_nil in Hb.
  - intros b. rewrite Hal', Hal, elem_of_nil, list_elem_of_singleton. split; [tauto|].
    intros [Hb|[Hb|[[va Hb]|[]]]]; (split; [by eauto|]).
    + by intros ->.
    + by intros ->.
    + destruct (Hps va b Hb) as (_ & _ & _ & _ & Hne & _). by rewrite list_elem_of_singleton in Hne.
Qed.
Lemma grown_zero lo e h us p :
  grown lo e h us [p] → page_aligned p →
  grown lo e (set_mem (λ m, zero_page m p) h) us [p] ∧ zero_filled (mem (set_mem (λ m, zero_page m p) h)) p.
Proof.
  intros [[Hp Hw Ho] Hg Hl Ht Hn Hlk Hd Hun Hps Hi Hx Hal Hm] Hpa. set (h' := set_mem _ h).
  destruct (Hx p (list_elem_of_here _ _)) as [Hp0 Hpt].
  assert (is_alloc h p) as Hpal by (apply Hal; do 3 right; by left).
  assert (∀ b a, is_alloc h b → b ≠ p → in_page b a → load64 (mem h') a = load64 (mem h) a) as Hkeep.
  { intros b a Hb Hne Hin. apply load64_zero_page_out. intros Hin'. apply Hne.
    apply is_alloc_aligned in Hb as [Hb _]; [|done]. by apply (pages_apart b p a). }
  assert (∀ b a, is_table (mem h) (pagetable t) b → in_page b a → load64 (mem h') a = load64 (mem h) a) as Htm.
  { intros b a Hb. apply Hkeep; [by apply Ho|]. by intros ->. }
  assert (∀ v, pt_lookup (mem h') (pagetable t) v = pt_lookup (mem h) (pagetable t) v) as Hlk'
    by (intros; by apply pt_lookup_frame).
  assert (∀ b, is_table (mem h') (pagetable t) b ↔ is_table (mem h) (pagetable t) b) as Htb
    by (intros; by apply is_table_frame).
  split; [|intros k; by apply load64_zero_page]. split.
  - split; [exact Hp|by apply (pt_wf_frame (mem h))|]. intros b Hb. by apply Ho, Htb.
  - exact Hg.
  - intros v pte Hv. rewrite Hlk'. by apply Hl.
  - intros b Hb. by apply Htb, Ht.
  - intros b Hb. by apply Hn, Htb.
  - intros v Hv. rewrite Hlk'. by apply Hlk.
  - exact Hd.
  - exact Hun.
  - intros va b Hb. destruct (Hps va b Hb) as (H1 & H2 & H3 & H4 & H5 & H6).
    do 3 (split; [done|]). split; [by rewrite Htb|]. split; [done|]. intros k Hk.
    rewrite (Hkeep b); [by apply H6|by apply Hal; eauto| |unfold in_page, PAGE_SIZE; lia].
    intros ->. apply H5. by left.
  - exact Hi.
  - intros b. rewrite Htb. apply Hx.
  - intros b. rewrite Htb. apply Hal.
  - intros b a Hb Hnb Hin. rewrite (Hkeep b); [by apply (Hm b)|by apply Hal; auto|by intros ->|done].
Qed.
(** More tables and entries, the pages redistributed between [us] and [ex]. *)
Lemma grown_grows lo e e' h h' us us' ex ex' :
  grown lo e h us ex → pt_grows h h' (pagetable t) → leaves_ok (mem h') (pagetable t) →
  (∀ v, 0 ≤ v < 2 ^ 39 → pt_lookup (mem h') (pagetable t) v =
    match us' !! page_of v with
    | Some p => Some (heap_entry p)
    | None => pt_lookup (mem h0) (pagetable t) v
    end) →
  (∀ va, is_Some (us' !! va) ↔ page_range lo e' va) →
  (∀ va, page_range lo e' va → pt_lookup (mem h0) (pagetable t) va = None) →
  (∀ b, ((∃ va, us' !! va = Some b) ∨ b ∈ ex') ↔ ((∃ va, us !! va = Some b) ∨ b ∈ ex)) →
  (∀ b, (∃ va, us !! va = Some b) ∨ b ∈ ex → (∃ va, us' !! va = Some b) →
    page_aligned b ∧ b + PAGE_SIZE < 2 ^ 56 ∧ ¬ b ∈ ex' ∧ zero_filled (mem h) b) →
  (∀ va va' p, us' !! va = Some p → us' !! va' = Some p → va = va') →
  grown lo e' h' us' ex'.
Proof.
  intros [[Hp Hw Ho] Hg Hl Ht Hn Hlk Hd Hun Hps Hi Hx Hal Hm] Hgr Hl' Hlk' Hd' Hun' Heq Hps' Hi'.
  assert (∀ b, (∃ va, us !! va = Some b) ∨ b ∈ ex → is_alloc h b ∧ ¬ is_alloc h0 b ∧
    ¬ is_table (mem h) (pagetable t) b ∧ ¬ is_table (mem h') (pagetable t) b) as Hfr.
  { intros b Hb. assert (is_alloc h b) as Hba by (apply Hal; tauto). split; [done|].
    assert (¬ is_alloc h0 b ∧ ¬ is_table (mem h) (pagetable t) b) as [? ?].
    { destruct Hb as [[va Hb]|Hb]; [|by apply Hx]. by destruct (Hps va b Hb) as (_ & _ & ? & ? & _). }
    do 2 (split; [done|]). by intros [?|?]%(grows_tables_new _ _ _ Hgr). }
  pose proof (grows_contents h h' (pagetable t) Hp Hgr) as Hck. split; try done.
  - split; apply Hgr.
  - eapply same_globals_trans; [done|apply Hgr].
  - intros b Hb. by apply (grows_tables _ _ _ b Hgr), Ht.
  - intros b [Hb|Hb]%(grows_tables_new _ _ _ Hgr); [by apply Hn|right]. intros Hb'. apply Hb, Hal. by left.
  - intros va b Hb. assert ((∃ va, us !! va = Some b) ∨ b ∈ ex) as Hb' by (apply Heq; left; by exists va).
    destruct (Hfr b Hb') as (Ha & ? & Hnt & ?). destruct (Hps' b Hb') as (? & ? & ? & Hz); [by exists va|].
    do 5 (split; [done|]). intros k Hk. rewrite (Hck b); [by apply Hz|done|done|unfold in_page, PAGE_SIZE; lia].
  - intros b Hb. destruct (Hfr b) as (_ & ? & _ & ?); [apply Heq; by right|done].
  - intros b. rewrite Heq. split.
    + intros [Hb|Hb]%(grows_alloc_new _ _ _ Hgr); [|auto]. apply Hal in Hb as [Hb|[Hb|Hb]]; [auto| |auto].
      right. left. by apply (grows_tables _ _ _ b Hgr).
    + intros [Hb|[Hb|Hb]]; [|by apply (grows_owned _ _ _ Hgr)|]; apply (grows_alloc _ _ _ Hgr), Hal; auto.
  - intros b a Hb Hnb Hin. rewrite (Hck b a); [by apply (Hm b)|apply Hal; auto| |done].
    by intros [?|?]%Hn.
Qed.
(** The fresh page [p] becomes the page at [e]. *)
Lemma grown_map_wp lo e h us p :
  grown lo e h us [p] → zero_filled (mem h) p → page_aligned p → p + PAGE_SIZE < 2 ^ 56 →
  page_aligned lo → page_aligned e → lo ≤ e → e + PAGE_SIZE ≤ 2 ^ 39 →
  wp (pgtable_map (pagetable t) e p PAGE_SIZE stack_flags) (λ r h', match r with
    | Ok _ => grown lo (e + PAGE_SIZE) h' (<[e := p]> us) [] ∧ free_count h - 2 ≤ free_count h'
    | Err => grown lo e h' us [p] ∧
        ¬ (pt_lookup (mem h0) (pagetable t) e = None ∧ 2 ≤ free_count h)
    end) h.
Proof.
  intros H Hz Hpa Hpb Hloa Hea Hle Heb. pose proof H as [[Hp Hw Ho] Hg Hl Ht Hn Hlk Hd Hun Hps Hi Hx Hal Hm].
  eapply wp_mono.
  { apply pgtable_map_wp; try done; [by apply free_count_nonneg|lia]. }
  change (PAGE_SIZE / PAGE_SIZE) with 1. intros r h' (Hgr & _ & Hr).
  pose proof (missing_bound (mem h) (pagetable t) e) as Hmb. destruct Hea as [He0 Hem], Hloa as [Hl0 Hlm].
  assert (0 ≤ e < 2 ^ 39) as Her by (unfold PAGE_SIZE in *; lia).
  assert (one_region e 1) as Hreg by (intros i Hi1; assert (i = 0) as -> by lia; by rewrite Z.add_0_r).
  assert (us !! e = None) as Hue.
  { destruct (us !! e) eqn:E; [|done]. destruct (proj1 (Hd e)) as [? _]; [by rewrite E|lia]. }
  assert (pt_lookup (mem h) (pagetable t) e = pt_lookup (mem h0) (pagetable t) e) as Elk
    by (by rewrite Hlk, page_of_aligned, Hue).
  assert (∀ a b, us !! a = Some b → b ≠ p) as Hup.
  { intros a b Hb ->. destruct (Hps a p Hb) as (_ & _ & _ & _ & Hin & _). by rewrite list_elem_of_singleton in Hin. }
  destruct r as [[]|].
  - destruct Hr as (Hnone & Hmu & Hf). split; [|specialize (Hf Hreg); lia].
    pose proof (mapped_page _ _ _ _ _ _ Hem Hmu) as Hlk'.
    assert (∀ va, page_range lo (e + PAGE_SIZE) va ↔ page_range lo e va ∨ va = e) as Hrange.
    { intros va. unfold page_range, PAGE_SIZE in *. pose proof (Z.div_mod va 4096). pose proof (Z.div_mod e 4096).
      split; [|intros [?| ->]; lia]. intros [? ?]. destruct (decide (va < e)); [left; lia|right; lia]. }
    apply (grown_grows lo e _ h h' us _ [p]); try done.
    + by apply (leaves_ok_mapped (mem h) _ _ e p stack_flags 1).
    + intros v Hv. rewrite Hlk' by done. case_decide as E; [by rewrite E, lookup_insert_eq|].
      rewrite lookup_insert_ne by done. by apply Hlk.
    + intros va. rewrite Hrange, <- Hd. destruct (decide (va = e)) as [->|Hne].
      * rewrite lookup_insert_eq. split; [by right|done].
      * rewrite lookup_insert_ne by done. split; [by left|by intros [?|?]].
    + intros va [Hva| ->]%Hrange; [by apply Hun|]. rewrite <- Elk. specialize (Hnone 0 ltac:(lia)).
      by rewrite Z.add_0_r in Hnone.
    + intros b. rewrite elem_of_nil, list_elem_of_singleton. split.
      * intros [(a & [[<- <-]|[_ Hb]]%lookup_insert_Some)|[]]; [by right|left; by exists a].
      * intros [(a & Hb)| ->]; left; [exists a|exists e; apply lookup_insert_eq].
        rewrite lookup_insert_ne; [done|]. intros ->. congruence.
    + intros b Hb _. rewrite list_elem_of_singleton in Hb. destruct Hb as [[va Hb]| ->].
      * destruct (Hps va b Hb) as (? & ? & _ & _ & _ & ?). split_and!; try done. apply not_elem_of_nil.
      * split_and!; try done. apply not_elem_of_nil.
    + intros a a' b. rewrite !lookup_insert_Some. intros [[<- <-]|[_ Hb]] [[<- E]|[_ Hb']]; try done.
      * by destruct (Hup a' p).
      * subst b. by destruct (Hup a p).
      * by apply (Hi a a' b).
  - destruct Hr as (k & Hk' & Hmu & Hr). assert (k = 0) as -> by lia.
    assert (∀ v, 0 ≤ v < 2 ^ 39 → pt_lookup (mem h') (pagetable t) v = pt_lookup (mem h) (pagetable t) v) as Hlk'.
    { intros v Hv. rewrite Hmu by done. rewrite decide_False; [done|lia]. }
    split.
    + apply (grown_grows lo e e h h' us us [p] [p]); try done.
      * intros v pte Hv. rewrite Hlk' by done. by apply Hl.
      * intros v Hv. rewrite Hlk' by done. by apply Hlk.
      * intros b _ [va Hb]. by destruct (Hps va b Hb) as (? & ? & _ & _ & ? & ?).
    + rewrite Z.add_0_r in Hr. intros [Hnone Hfree]. destruct Hr as [Hr|[_ Hr]]; [congruence|].
      specialize (Hr Hreg). lia.
Qed.
(** Where a page of [us] is found. *)
Lemma grown_maps lo e h us ex va p :
  grown lo e h us ex → us !! va = Some p → 0 ≤ lo → e ≤ 2 ^ 39 →
  pt_lookup (mem h) (pagetable t) va = Some (heap_entry p) ∧ pte_to_pa (heap_entry p) = p.
Proof.
  intros H Hus Hlo He. destruct (proj1 (gr_dom _ _ _ _ _ H va)) as [Hr Hm]; [by rewrite Hus|].
  split; [rewrite (gr_lookup _ _ _ _ _ H) by lia; by rewrite page_of_aligned, Hus|].
  destruct (gr_pages _ _ _ _ _ H va p Hus) as (Hpa & Hpb & _). unfold heap_entry, PAGE_SIZE in *.
  apply pte_to_pa_of; [done|lia|done].
Qed.
(** The pages a growth would release are those of [us]. *)
Lemma grown_released lo e h us ex b :
  grown lo e h us ex → 0 ≤ lo → e ≤ 2 ^ 39 →
  (∃ va, page_range lo e va ∧ pte_to_pa <$> pt_lookup (mem h) (pagetable t) va = Some b) ↔
  ∃ va, us !! va = Some b.
Proof.
  intros H Hlo He. split.
  - intros (va & Hva & E). destruct (proj2 (gr_dom _ _ _ _ _ H va) Hva) as [p Hus]. exists va.
    destruct (grown_maps _ _ _ _ _ _ _ H Hus Hlo He) as [El Ep]. rewrite El in E. cbn in E. congruence.
  - intros (va & Hus). exists va. destruct (grown_maps _ _ _ _ _ _ _ H Hus Hlo He) as [-> Ep].
    split; [apply (gr_dom _ _ _ _ _ H); by rewrite Hus|]. cbn. by f_equal.
Qed.
(** Undoing a partial growth. *)
Lemma grown_undone lo e h h' us :
  grown lo e h us [] → page_aligned lo → page_aligned e → e ≤ 2 ^ 39 →
  pt_same h h' (pagetable t) → leaves_ok (mem h') (pagetable t) →
  (∀ v, 0 ≤ v < 2 ^ 39 → pt_lookup (mem h') (pagetable t) v =
     if decide (lo ≤ v < e) then None else pt_lookup (mem h) (pagetable t) v) →
  (∀ b, is_alloc h' b ↔ is_alloc h b ∧
     ¬ ∃ va, page_range lo e va ∧ pte_to_pa <$> pt_lookup (mem h) (pagetable t) va = Some b) →
  grown lo lo h' ∅ [].
Proof.
  intros H Hloa Hea Heb Hs Hl' Hlk' Hal'. pose proof H as [[Hp Hw Ho] Hg Hl Ht Hn Hlk Hd Hun Hps Hi Hx Hal Hm].
  pose proof (proj1 Hloa) as Hl0.
  assert (∀ va, page_range lo lo va → False) as Hemp by (intros va [? _]; lia).
  assert (∀ b, is_alloc h' b ↔ is_alloc h b ∧ ¬ ∃ va, us !! va = Some b) as Hal2.
  { intros b. rewrite Hal', (grown_released lo e h us []) by done. done. }
  split; try done.
  - split; [apply Hs|apply Hs|]. intros b Hb%(pt_same_table _ _ _ _ Hs). apply Hal2.
    split; [by apply Ho|]. intros [va Hus]. by destruct (Hps _ _ Hus) as (_ & _ & _ & ? & _).
  - eapply same_globals_trans; [done|apply Hs].
  - intros b Hb. by apply (pt_same_table _ _ _ _ Hs), Ht.
  - intros b Hb%(pt_same_table _ _ _ _ Hs). by apply Hn.
  - intros v Hv. rewrite lookup_empty, Hlk' by done. pose proof (page_range_page_of lo e v Hloa Hea) as Hpe.
    case_decide as Hv'.
    + symmetry. rewrite <- page_of_lookup by done. by apply Hun, Hpe.
    + rewrite Hlk by done. destruct (us !! page_of v) eqn:E; [|done]. destruct Hv'. apply Hpe, Hd. by rewrite E.
  - intros va. rewrite lookup_empty. split; [by intros [??]|]. by intros ?%Hemp.
  - by intros va ?%Hemp.
  - intros b Hb. by apply elem_of_nil in Hb.
  - intros b. rewrite Hal2, (pt_same_table _ _ _ _ Hs), Hal, !elem_of_nil. split.
    + intros [[?|[?|[?|[]]]] ?]; [auto|auto|done].
    + intros [Hb|[Hb|[[va Hb]|[]]]]; [| |done]; (split; [auto|]); intros [va Hus];
        by destruct (Hps _ _ Hus) as (_ & _ & ? & ? & _).
  - intros b a Hb Hnb Hin. rewrite (same_frame _ _ _ Hs); [by apply (Hm b)|].
    intros b' Hb' Hin'. apply Hnb. assert (b' = b) as ->.
    { apply (pages_apart _ _ a); [|by apply (is_alloc_aligned h); [|apply Hal; left]|done..].
      apply (is_alloc_aligned h); [done|by apply Ho]. }
    by apply Hn in Hb' as [?|?].
Qed.
Lemma grown_undo_wp lo e h us :
  grown lo e h us [] → page_aligned lo → page_aligned e → lo ≤ e → e ≤ 2 ^ 39 →
  wp (sbrk_undo (pagetable t) lo e) (λ _ h', grown lo lo h' ∅ []) h.
Proof.
  intros H Hloa Hea Hle Heb. pose proof (gr_ready _ _ _ _ _ H) as [Hp Hw _]. unfold sbrk_undo.
  pose proof (proj1 Hloa) as Hl0. destruct (Z.ltb_spec lo e) as [Hlt|Hge].
  2: { apply wp_ret. assert (e = lo) as -> by lia. assert (us = ∅) as ->; [|done].
       apply map_empty. intros va. destruct (us !! va) eqn:E; [|done].
       destruct (proj1 (gr_dom _ _ _ _ _ H va)) as [? _]; [by rewrite E|lia]. }
  assert (e -' lo = e - lo) as -> by (unfold u64; rewrite Z.mod_small; lia).
  apply wp_bind. eapply wp_mono; [by apply unmap_range_wp|].
  intros r h' (Hs & Hl & mid & Hma & Hmb & Hr & Hlk & Hal). apply wp_ret.
  assert (mid = e) as ->.
  { destruct r; [done|]. destruct Hr as [Hlt' Hsl].
    destruct (proj2 (gr_dom _ _ _ _ _ H mid)) as [p Hus]; [split; [lia|apply Hma]|].
    destruct (grown_maps _ _ _ _ _ _ _ H Hus) as [E _]; [done|done|].
    apply slot_of_lookup in E as (? & E & _). congruence. }
  apply (grown_undone lo e h h' us); try done. apply Hl, H.
Qed.
(** Nothing but memory keeps the growth from completing. *)
Lemma sbrk_grow_wp fuel lo e new h us :
  grown lo e h us [] → page_aligned lo → page_aligned e → page_aligned new → lo ≤ e ≤ new → new ≤ 2 ^ 39 →
  range_count e new < Z.of_nat fuel →
  wp (sbrk_grow fuel (pagetable t) lo new e) (λ r h', match r with
    | Ok _ => ∃ us', grown lo new h' us' []
    | Err => grown lo lo h' ∅ [] ∧
        ¬ ((∀ va, page_range e new va → pt_lookup (mem h0) (pagetable t) va = None) ∧
           3 * range_count e new ≤ free_count h)
    end) h.
Proof.
  intros H Hlo. revert e h us H. induction fuel as [|fuel IH]; intros e h us H He Hnew Hle Hnb Hfuel.
  { unfold range_count, PAGE_SIZE in Hfuel. pose proof (Z.div_pos (new - e) 4096). lia. }
  cbn [sbrk_grow]. destruct (Z.ltb_spec e new) as [Hlt|Hge].
  2: { apply wp_ret. assert (e = new) as -> by lia. by exists us. }
  assert (e + PAGE_SIZE ≤ new ∧ page_aligned (e + PAGE_SIZE)) as [Hen Hea].
  { destruct He as [? Hm], Hnew as [_ Hm']. unfold page_aligned, PAGE_SIZE in *. pose proof (Z.div_mod e 4096).
    pose proof (Z.div_mod new 4096). split; [lia|]. split; [lia|]. rewrite Z.add_mod, Hm by lia. done. }
  assert (range_count e new = range_count (e + PAGE_SIZE) new + 1 ∧ 0 ≤ range_count (e + PAGE_SIZE) new) as [Hrc Hrc0].
  { unfold range_count, PAGE_SIZE in *. replace (new - e) with (new - (e + 4096) + 1 * 4096) by lia.
    rewrite Z.div_add by lia. split; [done|]. apply Z.div_pos; lia. }
  apply wp_bind. eapply wp_mono; [by apply (grown_alloc_wp lo e)|]. intros [p|] h1.
  2: { intros [-> Hz]. apply wp_bind. eapply wp_mono; [apply (grown_undo_wp lo e h us); (done || lia)|].
       intros ? h2 H2. apply wp_ret. split; [done|]. intros [_ ?]. lia. }
  intros (Hpa & Hpb & H1 & Hf1). apply wp_bind, wp_modify.
  destruct (grown_zero lo e h1 us p H1 Hpa) as [H2 Hz]. set (h2 := set_mem _ h1) in *.
  apply wp_bind. eapply wp_mono; [apply (grown_map_wp lo e h2 us p); (done || lia)|].
  intros [[]|] h3.
  - intros [H3 Hf3]. assert (e +' PAGE_SIZE = e + PAGE_SIZE) as ->.
    { destruct He. unfold u64, PAGE_SIZE in *. rewrite Z.mod_small; lia. }
    eapply wp_mono; [apply (IH (e + PAGE_SIZE) h3 (<[e:=p]> us)); (done || (unfold PAGE_SIZE in *; lia))|].
    intros [[]|] h4; [done|]. intros [H4 Hn]. split; [done|]. intros [Hun Hfr]. apply Hn.
    change (free_count h2) with (free_count h1) in Hf3. split; [|lia].
    intros va [Hva Hvm]. apply Hun. split; [unfold PAGE_SIZE in *; lia|done].
  - intros [H3 Hn]. apply wp_bind. eapply wp_mono; [by apply (grown_free_wp lo e)|]. intros ? h4 H4.
    apply wp_bind. eapply wp_mono; [apply (grown_undo_wp lo e h4 us); (done || lia)|].
    intros ? h5 H5. apply wp_ret. split; [done|]. intros [Hun Hfr]. apply Hn.
    change (free_count h2) with (free_count h1). split; [|lia]. apply Hun. split; [lia|apply He].
Qed.

(** ** The finished growth *)

Hypothesis task_apart : ∀ va, user_va t va → ¬ maps (mem h0) t va (kernel_stack t).
Lemma heap_layout ne : heap_base t ≤ ne ≤ USER_LIMIT → layout_ok (set_heap_end ne t).
Proof. intros Hne. destruct (space_layout _ _ task_ok) as [? [? _] ? ? ? ?]. by split. Qed.

Section finished.
Context (lo e ne : Z) (h : mach) (us : gmap Z Z).
Hypothesis H : grown lo e h us [].
Hypothesis lo_eq : lo = heap_hi t.
Hypothesis ne_bound : heap_base t ≤ ne ≤ USER_LIMIT.
Hypothesis e_eq : e = heap_hi (set_heap_end ne t).
Hypothesis lo_e : lo ≤ e.
#[local] Abbreviation t' := (set_heap_end ne t).

Lemma grown_user_page va : user_page t' va ↔ user_page t va ∨ page_range lo e va.
Proof.
  destruct (layout_ranges t (space_layout _ _ task_ok)) as [_ (_ & Hhb & _)].
  unfold user_page. change (image_lo t') with (image_lo t). change (image_hi t') with (image_hi t).
  change (heap_base t') with (heap_base t). rewrite <- e_eq, <- lo_eq in *. unfold page_range. split.
  - intros [?|[? ?]]; [auto|]. destruct (decide (va < lo)); [left; right|right]; (split; [lia|done]).
  - intros [[?|[? ?]]|[? ?]]; [auto|right; split; [lia|done]..].
Qed.
Lemma grown_user_va va : user_va t' va ↔ user_va t va ∨ page_range lo e va.
Proof. unfold user_va. rewrite grown_user_page. cbn. tauto. Qed.
Lemma grown_in_heap va : page_range lo e va → user_page t' va.
Proof. intros Hva. apply grown_user_page. by right. Qed.
(** A page of the new space is one of [us] or one of the old space. *)
Lemma grown_page va b :
  user_va t' va → maps (mem h) t' va b →
  us !! va = Some b ∨ us !! va = None ∧ user_va t va ∧ maps (mem h0) t va b.
Proof.
  intros Hva Hm. destruct (user_va_spec t' va (heap_layout ne ne_bound) Hva) as (Hr & Hp & _).
  unfold maps in Hm. cbn [set_heap_end pagetable] in Hm. rewrite (gr_lookup _ _ _ _ _ H), Hp in Hm by done.
  destruct (us !! va) as [p|] eqn:Eus; [left|right].
  - cbn in Hm. destruct (gr_pages _ _ _ _ _ H va p Eus) as (Hpa & Hpb & _). unfold heap_entry, PAGE_SIZE in *.
    rewrite pte_to_pa_of in Hm by (done || lia). congruence.
  - split; [done|]. split; [|done]. apply grown_user_va in Hva as [?|Hva]; [done|].
    apply (gr_dom _ _ _ _ _ H) in Hva. rewrite Eus in Hva. by destruct Hva.
Qed.
Lemma grown_maps_old va b : maps (mem h0) t va b → 0 ≤ va < 2 ^ 39 → page_of va = va → maps (mem h) t va b.
Proof.
  intros Hm Hr Hp. unfold maps. rewrite (gr_lookup _ _ _ _ _ H), Hp by done.
  destruct (us !! va) eqn:Eus; [|done]. unfold maps in Hm.
  rewrite (gr_unmapped _ _ _ _ _ H) in Hm; [done|]. apply (gr_dom _ _ _ _ _ H). by rewrite Eus.
Qed.
Lemma grown_fresh va b :
  us !! va = Some b → is_alloc h b ∧ ¬ is_alloc h0 b ∧ ¬ is_table (mem h) (pagetable t) b.
Proof.
  intros Eus. destruct (gr_pages _ _ _ _ _ H va b Eus) as (_ & _ & ? & ? & _). split; [|done].
  apply (gr_alloc _ _ _ _ _ H). eauto.
Qed.
Lemma grown_old va b : user_va t va → maps (mem h0) t va b → is_alloc h0 b ∧ ¬ is_table (mem h) (pagetable t) b.
Proof.
  intros Hva Hm. pose proof (space_user _ _ task_ok) as Hu.
  assert (is_alloc h0 b) as Ha by (apply task_alloc; by apply (user_va_owned _ _ va)).
  split; [done|]. intros [Ht|?]%(gr_new _ _ _ _ _ H); [|done]. by apply (user_apart _ _ Hu va b).
Qed.
Lemma grown_user_ok : user_ok (mem h) t'.
Proof.
  pose proof (space_user _ _ task_ok) as Hu. split.
  - intros Hs. apply grown_maps_old; [by apply Hu|by vm_compute..].
  - intros va va' b Hva Hva' [E|(_ & Hv & E)]%grown_page [E'|(_ & Hv' & E')]%grown_page; try done.
    + by apply (gr_inj _ _ _ _ _ H va va' b).
    + destruct (grown_fresh _ _ E) as (_ & Hn & _). by destruct (grown_old _ _ Hv' E').
    + destruct (grown_fresh _ _ E') as (_ & Hn & _). by destruct (grown_old _ _ Hv E).
    + by apply (user_inj _ _ Hu va va' b).
  - intros va b Hva [E|(_ & Hv & E)]%grown_page; [|by apply (grown_old va)|done].
    by destruct (grown_fresh _ _ E) as (_ & _ & ?).
  - intros va pte Hva Hl Hb. cbn [set_heap_end pagetable] in Hl. rewrite (gr_lookup _ _ _ _ _ H) in Hl by done.
    destruct (us !! page_of va) as [p|] eqn:Eus.
    + left. apply grown_user_va. right. apply (gr_dom _ _ _ _ _ H). by rewrite Eus.
    + destruct (user_only _ _ Hu va pte Hva Hl Hb) as [?|?]; [left; apply grown_user_va; by left|by right].
Qed.
Lemma grown_space_ok : space_ok h t'.
Proof.
  pose proof task_ok as [Hlay _ _ Hk _ Hkm]. pose proof (heap_layout ne ne_bound) as Hlay'.
  split; [done|apply H|apply H| |apply grown_user_ok|].
  - intros [Ht|Ha]%(gr_new _ _ _ _ _ H); [done|]. apply Ha, task_alloc. by right.
  - intros v Hv Hkv. cbn [set_heap_end pagetable]. rewrite (gr_lookup _ _ _ _ _ H) by done.
    destruct (us !! page_of v) eqn:Eus; [|by apply Hkm].
    assert (page_range lo e (page_of v)) as Hr by (apply (gr_dom _ _ _ _ _ H); by rewrite Eus).
    apply grown_in_heap in Hr. destruct (user_page_spec t' _ Hlay' Hr) as (_ & _ & Hkf & _).
    rewrite kernel_va_page in Hkf. congruence.
Qed.
Lemma grown_owns b :
  owns (mem h) t' b → is_alloc h b ∧ (owns (mem h0) t b ∨ ¬ is_alloc h0 b).
Proof.
  pose proof (space_user _ _ task_ok) as Hu.
  assert (owns (mem h0) t b → is_alloc h b ∧ (owns (mem h0) t b ∨ ¬ is_alloc h0 b)) as Hold.
  { intros Ho. split; [|by left]. apply (gr_alloc _ _ _ _ _ H). left. by apply task_alloc. }
  intros [[Ht|[(va & Hva & Hm)|Hs]]| ->].
  - split; [by apply (ready_owned _ _ (gr_ready _ _ _ _ _ H))|].
    apply (gr_new _ _ _ _ _ H) in Ht as [Ht|?]; [left; left; by left|by right].
  - destruct (grown_page va b) as [E|(_ & Hv & E)]; [by left|done| |].
    + destruct (grown_fresh _ _ E) as (? & ? & _). split; [done|by right].
    + apply Hold. by apply (user_va_owned _ _ va).
  - apply Hold. left. right. by right.
  - apply Hold. by right.
Qed.
Lemma grown_step : space_step h0 h t t'.
Proof.
  pose proof (space_user _ _ task_ok) as Hu. split.
  - apply H.
  - apply grown_space_ok.
  - intros b Hb _. apply (gr_alloc _ _ _ _ _ H). by left.
  - intros b a Hb Hn. apply (gr_mem _ _ _ _ _ H b a Hb). intros Ht. apply Hn. left. by left.
  - apply grown_owns.
  - intros va Hva [E|(_ & Hv & E)]%grown_page; [|by apply (task_apart va)|done].
    destruct (grown_fresh _ _ E) as (_ & Hn & _). apply Hn, task_alloc. by right.
Qed.
End finished.

(** ** Shrinking *)

(** The pages of [lo, mid) are gone; [t'] is [t] with its heap ending at [lo], or [t]. *)
Section shrinking.
Context (lo mid ne : Z) (h : mach).
#[local] Abbreviation t' := (set_heap_end ne t).
Hypothesis same : pt_same h0 h (pagetable t).
Hypothesis leaves : leaves_ok (mem h) (pagetable t).
Hypothesis lookups : ∀ v, 0 ≤ v < 2 ^ 39 → pt_lookup (mem h) (pagetable t) v =
  if decide (lo ≤ v < mid) then None else pt_lookup (mem h0) (pagetable t) v.
Hypothesis allocs : ∀ b, is_alloc h b ↔ is_alloc h0 b ∧
  ¬ ∃ va, page_range lo mid va ∧ maps (mem h0) t va b.
Hypothesis ne_bound : heap_base t ≤ ne ≤ USER_LIMIT.
Hypothesis range_ok : heap_base t ≤ lo ∧ lo ≤ mid ≤ heap_hi t.
Hypothesis aligned : page_aligned lo ∧ page_aligned mid.
Hypothesis ne_eq : heap_hi t' = lo ∧ mid = heap_hi t ∨ ne = heap_end t.

Lemma shrunk_user_page va : user_page t' va → user_page t va.
Proof.
  unfold user_page. change (image_lo t') with (image_lo t). change (image_hi t') with (image_hi t).
  change (heap_base t') with (heap_base t). unfold page_range.
  assert (heap_hi t' ≤ heap_hi t) as Hle.
  { destruct ne_eq as [[-> _]| ->]; [lia|]. unfold heap_hi. cbn. lia. }
  intros [?|[? ?]]; [auto|right]. split; [lia|done].
Qed.
Lemma shrunk_user_va va : user_va t' va → user_va t va.
Proof. intros [?|?]; [left; by apply shrunk_user_page|by right]. Qed.
Lemma shrunk_user_left va : user_va t va → ¬ lo ≤ va < mid → user_va t' va.
Proof.
  destruct ne_eq as [[E Em]| ->]; [|by destruct t]. intros [[?|[? ?]]|?] Hn; [by left; left| |by right].
  left. right. unfold page_range. rewrite E. change (heap_base t') with (heap_base t). split; [lia|done].
Qed.
(** Pages of the released range belong to the heap of [t]. *)
Lemma shrunk_in_heap va : page_range lo mid va → user_page t va.
Proof. intros [? ?]. right. unfold page_range. split; [lia|done]. Qed.
Lemma shrunk_maps va b :
  0 ≤ va < 2 ^ 39 → maps (mem h) t' va b ↔ ¬ lo ≤ va < mid ∧ maps (mem h0) t va b.
Proof.
  intros Hva. unfold maps. cbn [set_heap_end pagetable]. rewrite lookups by done. case_decide; cbn.
  - split; [done|tauto].
  - tauto.
Qed.
Lemma shrunk_page va b :
  user_va t' va → maps (mem h) t' va b → user_va t va ∧ ¬ lo ≤ va < mid ∧ maps (mem h0) t va b.
Proof.
  intros Hva Hm. destruct (user_va_spec t' va (heap_layout ne ne_bound) Hva) as (Hr & _).
  apply shrunk_maps in Hm; [|done]. split; [by apply shrunk_user_va|done].
Qed.
Lemma shrunk_stack_out : ¬ lo ≤ STACK_VA < mid.
Proof.
  intros Hin. assert (user_page t STACK_VA) as Hs by (apply shrunk_in_heap; by split).
  by destruct (user_page_spec t _ (space_layout _ _ task_ok) Hs) as (_ & _ & _ & ?).
Qed.
Lemma shrunk_user_ok : user_ok (mem h) t'.
Proof.
  pose proof (space_user _ _ task_ok) as Hu. split.
  - intros Hs. apply shrunk_maps; [by vm_compute|]. split; [apply shrunk_stack_out|by apply Hu].
  - intros va va' b Hva Hva' (Hv & _ & E)%shrunk_page (Hv' & _ & E')%shrunk_page; try done.
    by apply (user_inj _ _ Hu va va' b).
  - intros va b Hva (Hv & _ & E)%shrunk_page; [|done]. cbn [set_heap_end pagetable].
    rewrite (pt_same_table _ _ _ _ same). by apply (user_apart _ _ Hu va).
  - intros va pte Hva Hl Hb. cbn [set_heap_end pagetable] in Hl. rewrite lookups in Hl by done. case_decide as Hd; [done|].
    destruct (user_only _ _ Hu va pte Hva Hl Hb) as [Hv|?]; [left|by right].
    apply shrunk_user_left; [done|]. intros Hin. apply Hd. apply page_range_page_of; [apply aligned..|].
    split; [done|apply page_of_spec].
Qed.
Lemma shrunk_alloc va b : user_va t va → ¬ lo ≤ va < mid → maps (mem h0) t va b → is_alloc h b.
Proof.
  intros Hv Hn E. pose proof (space_user _ _ task_ok) as Hu. apply allocs.
  split; [by apply task_alloc, (user_va_owned _ _ va)|]. intros (va' & Hva' & E').
  assert (user_va t va') as Hv' by (left; by apply shrunk_in_heap).
  rewrite (user_inj _ _ Hu va va' b Hv Hv' E E') in Hn. by destruct Hva'.
Qed.
Lemma shrunk_table_alloc b : is_table (mem h0) (pagetable t) b → is_alloc h b.
Proof.
  intros Hb. apply allocs. split; [apply task_alloc; left; by left|]. intros (va & Hva & E).
  apply (user_apart _ _ (space_user _ _ task_ok) va b); [left; by apply shrunk_in_heap|done|done].
Qed.
Lemma shrunk_space_ok : space_ok h t'.
Proof.
  pose proof task_ok as [Hlay _ _ Hk _ Hkm].
  split; [by apply heap_layout| |done| |apply shrunk_user_ok|].
  - split; [apply same|apply same|]. intros b Hb%(pt_same_table _ _ _ _ same). by apply shrunk_table_alloc.
  - cbn [set_heap_end pagetable kernel_stack]. by rewrite (pt_same_table _ _ _ _ same).
  - intros v Hv Hkv. cbn [set_heap_end pagetable]. rewrite lookups by done. case_decide as Hd; [|by apply Hkm].
    assert (user_page t (page_of v)) as Hp.
    { apply shrunk_in_heap. apply page_range_page_of; [apply aligned..|done]. }
    destruct (user_page_spec t _ Hlay Hp) as (_ & _ & Hkf & _). rewrite kernel_va_page in Hkf. congruence.
Qed.
Lemma shrunk_owns b : owns (mem h) t' b → is_alloc h b ∧ owns (mem h0) t b.
Proof.
  pose proof (space_user _ _ task_ok) as Hu. intros [[Ht|[(va & Hva & Hm)|[Hs ->]]]| ->].
  - apply (pt_same_table _ _ _ _ same) in Ht. split; [by apply shrunk_table_alloc|left; by left].
  - destruct (shrunk_page va b) as (Hv & Hn & E); [by left|done|].
    split; [by apply (shrunk_alloc va)|by apply (user_va_owned _ _ va)].
  - split; [|left; right; by right]. apply (shrunk_alloc STACK_VA); [by right|apply shrunk_stack_out|by apply Hu].
  - split; [|by right]. apply allocs. split; [apply task_alloc; by right|]. intros (va & Hva & E).
    apply (task_apart va); [left; by apply shrunk_in_heap|done].
Qed.
Lemma shrunk_step : space_step h0 h t t'.
Proof.
  split.
  - apply same.
  - apply shrunk_space_ok.
  - intros b Hb Hn. apply allocs. split; [done|]. intros (va & Hva & E). apply Hn.
    apply (user_va_owned _ _ va); [apply task_ok|left; by apply shrunk_in_heap|done].
  - intros b a Hb Hn Hin. apply (same_frame _ _ _ same). intros b' Hb' Hin'. apply Hn.
    assert (b' = b) as <-; [|left; by left]. pose proof (ready_pages _ _ (space_ready _ _ task_ok)) as Hp.
    apply (pages_apart _ _ a); [|by apply (is_alloc_aligned h0)|done..].
    apply (is_alloc_aligned h0); [done|]. apply task_alloc. left. by left.
  - intros b Hb%shrunk_owns. tauto.
  - intros va Hva (Hv & _ & E)%shrunk_page; [|done]. by apply (task_apart va).
Qed.
End shrinking.
End growing.

(** ** What [sbrk] does *)

(** The heap of [t] grew from page [lo] to page [hi]. *)
Record heap_grew (h h' : mach) (t : Task) (lo hi : Z) : Prop := {
  hg_new va : page_range lo hi va → pt_lookup (mem h) (pagetable t) va = None ∧
    ∃ p, pt_lookup (mem h') (pagetable t) va = Some (heap_entry p) ∧
      maps (mem h') t va p ∧ ¬ is_alloc h p ∧ zero_filled (mem h') p;
  hg_rest v : 0 ≤ v < 2 ^ 39 → ¬ lo ≤ v < hi →
    pt_lookup (mem h') (pagetable t) v = pt_lookup (mem h) (pagetable t) v;
  hg_mem b a : is_alloc h b → ¬ is_table (mem h) (pagetable t) b → in_page b a →
    load64 (mem h') a = load64 (mem h) a;
  hg_alloc b : is_alloc h' b ↔ is_alloc h b ∨ is_table (mem h') (pagetable t) b ∨
    ∃ va, page_range lo hi va ∧ maps (mem h') t va b;
}.
(** It shrank from page [hi] to page [lo]. *)
Record heap_shrank (h h' : mach) (t : Task) (lo hi : Z) : Prop := {
  hs_lookup v : 0 ≤ v < 2 ^ 39 → pt_lookup (mem h') (pagetable t) v =
    if decide (lo ≤ v < hi) then None else pt_lookup (mem h) (pagetable t) v;
  hs_mem b a : is_alloc h b → ¬ is_table (mem h) (pagetable t) b → in_page b a →
    load64 (mem h') a = load64 (mem h) a;
  hs_alloc b : is_alloc h' b ↔ is_alloc h b ∧ ¬ ∃ va, page_range lo hi va ∧ maps (mem h) t va b;
}.
(** On success the heap ends at [ne]; only the task's own record changes. *)
Record sbrk_done (s s' : tsys) (t : Task) (ne : Z) : Prop := {
  sd_bound : heap_base t ≤ ne ≤ USER_LIMIT;
  sd_self : ∃ i, current_index (self s) = Some i ∧
    self s' = set_tasks (alter (fmap (set_heap_end ne)) i) (self s);
  sd_grown : heap_hi t ≤ heap_hi (set_heap_end ne t) →
    heap_grew (hw s) (hw s') t (heap_hi t) (heap_hi (set_heap_end ne t));
  sd_shrunk : heap_hi (set_heap_end ne t) ≤ heap_hi t →
    heap_shrank (hw s) (hw s') t (heap_hi (set_heap_end ne t)) (heap_hi t);
}.
(** On failure the manager is as before, and the machine but for further tables, or pages
    released up to one whose table is missing. *)
Inductive sbrk_failed (s s' : tsys) (t : Task) (ne : Z) : Prop :=
  | SbrkRange : hw s' = hw s → ¬ heap_base t ≤ ne ≤ HEAP_LIMIT → sbrk_failed s s' t ne
  | SbrkMemory (lo hi : Z) :
      lo = heap_hi t → hi = heap_hi (set_heap_end ne t) → lo < hi → heap_grew (hw s) (hw s') t lo lo →
      ¬ ((∀ va, page_range lo hi va → pt_lookup (mem (hw s)) (pagetable t) va = None) ∧
         3 * range_count lo hi ≤ free_count (hw s)) → sbrk_failed s s' t ne
  | SbrkHole (lo mid : Z) :
      lo = heap_hi (set_heap_end ne t) → lo ≤ mid < heap_hi t → heap_shrank (hw s) (hw s') t lo mid →
      slot (mem (hw s)) (pagetable t) mid = None → sbrk_failed s s' t ne.

Section sbrk.
Implicit Types (s : tsys) (t : Task) (h : mach).

Lemma grown_grew h0 t lo e h us :
  grown h0 t lo e h us [] → page_aligned lo → page_aligned e → e ≤ 2 ^ 39 → heap_grew h0 h t lo e.
Proof.
  intros H Hlo Hea He. pose proof H as [_ _ _ _ _ Hlk Hd Hun Hps _ _ Hal Hm]. pose proof (proj1 Hlo) as Hl0.
  assert (∀ va p, us !! va = Some p → pt_lookup (mem h) (pagetable t) va = Some (heap_entry p) ∧ maps (mem h) t va p) as Hmaps.
  { intros va p Hus. destruct (grown_maps _ _ _ _ _ _ _ _ _ H Hus Hl0 He) as [E Ep]. split; [done|].
    unfold maps. rewrite E. cbn. by f_equal. }
  split.
  - intros va Hva. split; [by apply Hun|]. destruct (proj2 (Hd va) Hva) as [p Hus]. exists p.
    destruct (Hmaps va p Hus). by destruct (Hps va p Hus) as (_ & _ & ? & _ & _ & ?).
  - intros v Hv Hn. rewrite Hlk by done. destruct (us !! page_of v) eqn:E; [|done].
    destruct Hn. apply page_range_page_of; [done..|]. apply Hd. by rewrite E.
  - done.
  - intros b. rewrite Hal, elem_of_nil. split.
    + intros [?|[?|[[va Hus]|[]]]]; [auto|auto|]. right. right. exists va.
      split; [apply Hd; by rewrite Hus|by apply Hmaps].
    + intros [?|[?|(va & Hva & Hm')]]; [auto|auto|]. destruct (proj2 (Hd va) Hva) as [p Hus].
      destruct (Hmaps va p Hus) as [_ Hm2]. right. right. left. exists va. unfold maps in *. congruence.
Qed.
Lemma released_shrank h0 t lo mid h :
  space_ok h0 t → (∀ b, owns (mem h0) t b → is_alloc h0 b) →
  pt_same h0 h (pagetable t) →
  (∀ v, 0 ≤ v < 2 ^ 39 → pt_lookup (mem h) (pagetable t) v =
     if decide (lo ≤ v < mid) then None else pt_lookup (mem h0) (pagetable t) v) →
  (∀ b, is_alloc h b ↔ is_alloc h0 b ∧ ¬ ∃ va, page_range lo mid va ∧ maps (mem h0) t va b) →
  heap_shrank h0 h t lo mid.
Proof.
  intros Hok Hown Hs Hlk Hal. split; [done| |done]. intros b a Hb Hn Hin.
  apply (same_frame _ _ _ Hs). intros b' Hb' Hin'. apply Hn. assert (b' = b) as <-; [|done].
  pose proof (ready_pages _ _ (space_ready _ _ Hok)) as Hp.
  apply (pages_apart _ _ a); [|by apply (is_alloc_aligned h0)|done..].
  apply (is_alloc_aligned h0); [done|]. apply Hown. left. by left.
Qed.
(** A change of the machine under an unchanged record. *)
Lemma kernel_ok_machine s i t h :
  kernel_ok s → in_user s t → tasks (self s) !! i = Some (Some t) → space_step (hw s) h t t →
  kernel_ok (mkTsys (self s) h) ∧ in_user (mkTsys (self s) h) t.
Proof.
  intros [Htm Hsp] Hu Ht Hst. split; [split; [done|]|exact Hu]. cbn [self hw].
  rewrite <- (list_insert_id _ _ _ Ht). by apply (spaces_ok_step (hw s) _ _ _ t).
Qed.

Lemma heap_hi_spec t :
  0 ≤ heap_end t ≤ HEAP_LIMIT →
  align_up (heap_end t) = Ok (heap_hi t) ∧ page_aligned (heap_hi t) ∧
  heap_end t ≤ heap_hi t ≤ HEAP_LIMIT.
Proof.
  intros Ht. destruct (align_up_spec (heap_end t)) as (w & Ew & Hw & Hb).
  { split; [lia|]. etransitivity; [apply Ht|]. by vm_compute. }
  unfold heap_hi. rewrite Ew. split; [done|]. split; [done|]. split; [lia|]. destruct Hw as [_ Hm].
  assert (HEAP_LIMIT mod PAGE_SIZE = 0) as Hl by by vm_compute. unfold PAGE_SIZE in *.
  pose proof (Z.div_mod w 4096). pose proof (Z.div_mod HEAP_LIMIT 4096). lia.
Qed.
(** The kernel's own mappings stop a growth at [USER_LIMIT]. *)
Lemma grown_limit h0 t lo e h us :
  space_ok h0 t → grown h0 t lo e h us [] → lo ≤ USER_LIMIT → e ≤ USER_LIMIT.
Proof.
  intros Hok H Hlo. destruct (Z.le_gt_cases e USER_LIMIT) as [?|Hgt]; [done|exfalso].
  assert (pt_lookup (mem h0) (pagetable t) USER_LIMIT = None) as E.
  { apply (gr_unmapped _ _ _ _ _ _ _ H). split; [lia|done]. }
  pose proof (space_kernel _ _ Hok USER_LIMIT ltac:(by vm_compute) ltac:(by vm_compute)) as Hk.
  by rewrite E in Hk.
Qed.
Lemma SBRK_FUEL_enough lo hi :
  0 ≤ lo ≤ hi → hi ≤ HEAP_LIMIT → range_count lo hi < Z.of_nat SBRK_FUEL.
Proof.
  intros Hlo Hhi. unfold SBRK_FUEL. rewrite Z2Nat.id by (vm_compute; discriminate).
  unfold range_count. pose proof (Z.div_le_mono (hi - lo) HEAP_LIMIT PAGE_SIZE). unfold PAGE_SIZE in *. lia.
Qed.
Definition sbrk_post (s : tsys) (t : Task) (inc : Z) (r : result Z) (s' : tsys) : Prop :=
  kernel_ok s' ∧ match r with
  | Ok old => old = heap_end t ∧ in_user s' (set_heap_end (heap_end t + inc) t) ∧
      sbrk_done s s' t (heap_end t + inc)
  | Err => in_user s' t ∧ self s' = self s ∧ sbrk_failed s s' t (heap_end t + inc)
  end.

(** The three cases after the checks, for a new end [ne]. *)
Section cases.
Context (s : tsys) (i : nat) (t : Task) (inc : Z).
#[local] Abbreviation ne := (heap_end t + inc).
Hypothesis Hk : kernel_ok s.
Hypothesis Hu : in_user s t.
Hypothesis Hi : current_index (self s) = Some i.
Hypothesis Ht : tasks (self s) !! i = Some (Some t).
Hypothesis ne_bound : heap_base t ≤ ne ≤ HEAP_LIMIT.
#[local] Abbreviation lo := (heap_hi t).
#[local] Abbreviation hi := (heap_hi (set_heap_end ne t)).

Lemma sbrk_space : space_ok (hw s) t ∧ (∀ b, owns (mem (hw s)) t b → is_alloc (hw s) b) ∧
  ∀ va, user_va t va → ¬ maps (mem (hw s)) t va (kernel_stack t).
Proof.
  destruct Hk as [_ Hsp]. split; [by apply (spaces_task _ _ Hsp i)|].
  split; [intros b; by apply (spaces_alloc _ _ Hsp i t)|intros va; by apply (spaces_apart _ _ Hsp i t)].
Qed.
Lemma sbrk_ends :
  (align_up (heap_end t) = Ok lo ∧ page_aligned lo ∧ heap_end t ≤ lo ≤ HEAP_LIMIT) ∧
  (align_up ne = Ok hi ∧ page_aligned hi ∧ ne ≤ hi ≤ HEAP_LIMIT) ∧
  0 ≤ heap_base t ≤ heap_end t ∧ lo ≤ USER_LIMIT.
Proof.
  destruct sbrk_space as (Hok & _). destruct (space_layout _ _ Hok) as [_ ([Hb Hbm] & Hhe) _ _ _ _].
  assert (USER_LIMIT ≤ HEAP_LIMIT) as Hul by by vm_compute.
  split; [apply heap_hi_spec; lia|]. split; [apply (heap_hi_spec (set_heap_end ne t)); cbn; lia|].
  split; [lia|]. destruct (heap_hi_spec t) as (E & [_ Hm] & _); [lia|].
  destruct (align_up_spec (heap_end t)) as (w & Ew & _ & Hb').
  { split; [lia|]. transitivity USER_LIMIT; [lia|by vm_compute]. }
  rewrite Ew in E. injection E as ->. assert (USER_LIMIT mod PAGE_SIZE = 0) as Hl by by vm_compute.
  unfold PAGE_SIZE in *. pose proof (Z.div_mod lo 4096). pose proof (Z.div_mod USER_LIMIT 4096). lia.
Qed.
(** The record's update after the machine reached [h]. *)
Lemma sbrk_finish_wp h :
  ne ≤ USER_LIMIT → space_step (hw s) h t (set_heap_end ne t) →
  (lo ≤ hi → heap_grew (hw s) h t lo hi) → (hi ≤ lo → heap_shrank (hw s) h t hi lo) →
  wp (_ ← upd_task i (set_heap_end ne); mret (Ok (heap_end t))) (sbrk_post s t inc) (mkTsys (self s) h).
Proof.
  intros Hnb Hst Hg Hs. apply wp_bind, wp_upd_task with t; [done|]. apply wp_ret. cbn [self hw].
  destruct (kernel_ok_space s i t (set_heap_end ne) h) as [Hk' Hu']; [done..|].
  split; [done|]. split; [done|]. split; [done|]. split; [lia| |done|done]. by exists i.
Qed.
(** A failure that leaves the machine [h]. *)
Lemma sbrk_fail h :
  space_step (hw s) h t (set_heap_end (heap_end t) t) → sbrk_failed s (mkTsys (self s) h) t ne →
  sbrk_post s t inc Err (mkTsys (self s) h).
Proof.
  intros Hst Hf. assert (set_heap_end (heap_end t) t = t) as E by by destruct t. rewrite E in Hst.
  destruct (kernel_ok_machine s i t h) as [Hk' Hu']; done.
Qed.
Lemma sbrk_grow_case :
  lo < hi →
  wp (_ ←? on_hw (sbrk_grow SBRK_FUEL (pagetable t) lo hi lo);
      _ ← upd_task i (set_heap_end ne); mret (Ok (heap_end t))) (sbrk_post s t inc) s.
Proof.
  intros Hlt. destruct sbrk_space as (Hok & Hown & Hap). destruct sbrk_ends as ((_ & Hla & Hlb) & (_ & Hha & Hhb) & Hb & Hll).
  apply wp_try_bind, wp_on_hw. eapply wp_mono.
  { apply (sbrk_grow_wp (hw s) t SBRK_FUEL lo lo hi (hw s) ∅); try done.
    - by apply grown_start.
    - lia.
    - etransitivity; [apply Hhb|by vm_compute].
    - apply SBRK_FUEL_enough; lia. }
  assert (hi ≤ 2 ^ 39) as Hh39 by (etransitivity; [apply Hhb|by vm_compute]).
  intros [[]|] h.
  - intros [us H]. pose proof (grown_limit _ _ _ _ _ _ Hok H Hll) as Hlim.
    apply sbrk_finish_wp; [lia| | |lia].
    + apply (grown_step (hw s) t Hok Hown Hap lo hi ne h us H); (done || lia).
    + intros _. by apply (grown_grew _ _ _ _ _ us).
  - intros [H Hn]. apply sbrk_fail.
    + apply (grown_step (hw s) t Hok Hown Hap lo lo (heap_end t) h ∅ H); [done| |by destruct t|lia].
      split; [lia|]. apply (proj2 (proj2 (lay_heap _ (space_layout _ _ Hok)))).
    + apply (SbrkMemory _ _ _ _ lo hi); try done. apply (grown_grew _ _ _ _ _ ∅); (done || lia).
Qed.
Lemma sbrk_shrink_case :
  hi < lo →
  wp (_ ←? on_hw (pgtable_unmap (pagetable t) hi (lo -' hi) true);
      _ ← upd_task i (set_heap_end ne); mret (Ok (heap_end t))) (sbrk_post s t inc) s.
Proof.
  intros Hlt. destruct sbrk_space as (Hok & Hown & Hap). destruct sbrk_ends as ((_ & Hla & Hlb) & (_ & Hha & Hhb) & Hb & Hll).
  pose proof (space_ready _ _ Hok) as [Hp Hw _].
  assert (lo ≤ 2 ^ 39) as Hl39 by (etransitivity; [apply Hlb|by vm_compute]).
  assert (lo -' hi = lo - hi) as -> by (unfold u64; rewrite Z.mod_small; lia).
  apply wp_try_bind, wp_on_hw. eapply wp_mono; [by apply unmap_range_wp|].
  intros r h (Hs & Hl & mid & Hma & Hmb & Hr & Hlk & Hal). specialize (Hl (space_leaves _ _ Hok)).
  pose proof (released_shrank (hw s) t hi mid h Hok Hown Hs Hlk Hal) as Hsh.
  assert (heap_base t ≤ hi) as Hbh by lia.
  pose proof (proj2 (proj2 (lay_heap _ (space_layout _ _ Hok)))) as Hel.
  destruct r as [[]|]; cbn [self hw].
  - subst mid. apply sbrk_finish_wp; [lia| |lia|done].
    apply (shrunk_step (hw s) t Hok Hown Hap hi lo ne h); (done || lia || by left).
  - destruct Hr as [Hml Hsl]. apply sbrk_fail.
    + apply (shrunk_step (hw s) t Hok Hown Hap hi mid (heap_end t) h); (done || lia || by right).
    + apply (SbrkHole _ _ _ _ hi mid); (done || lia).
Qed.
Lemma sbrk_same_case :
  lo = hi → wp (_ ← upd_task i (set_heap_end ne); mret (Ok (heap_end t))) (sbrk_post s t inc) s.
Proof.
  intros E. destruct sbrk_space as (Hok & Hown & Hap). destruct sbrk_ends as ((_ & Hla & Hlb) & (_ & Hha & Hhb) & Hb & Hll).
  pose proof (grown_start (hw s) t Hok Hown lo) as H.
  assert (lo ≤ 2 ^ 39) as Hl39 by (etransitivity; [apply Hlb|by vm_compute]).
  pose proof (sbrk_finish_wp (hw s)) as Hf. assert (mkTsys (self s) (hw s) = s) as Es by by destruct s.
  rewrite Es in Hf. apply Hf.
  - lia.
  - apply (grown_step (hw s) t Hok Hown Hap lo lo ne (hw s) ∅ H); (done || lia).
  - intros _. rewrite <- E. by apply (grown_grew _ _ _ _ _ ∅).
  - intros _. rewrite <- E. apply released_shrank; try done.
    + apply pt_same_refl; apply (space_ready _ _ Hok).
    + intros v Hv. rewrite decide_False; [done|lia].
    + intros b. split; [|tauto]. intros ?. split; [done|]. intros (va & [? _] & _). lia.
Qed.
End cases.

Lemma sbrk_wp s t inc :
  kernel_ok s → in_user s t → wp (sbrk inc) (sbrk_post s t inc) s.
Proof.
  intros Hk Hu. pose proof Hu as (i & Hi & Ht & Hcur & Hrun & Hid). pose proof (k_spaces _ Hk) as Hsp.
  pose proof (space_layout _ _ (spaces_task _ _ Hsp i t Ht)) as Hlay. destruct (lay_heap _ Hlay) as [[Hb0 _] Hhe].
  assert (¬ heap_base t ≤ heap_end t + inc ≤ HEAP_LIMIT → sbrk_post s t inc Err s) as Hrange.
  { intros Hn. split; [done|]. split; [done|]. split; [done|]. by apply SbrkRange. }
  unfold sbrk. apply wp_bind, wp_get_self. rewrite Hcur.
  destruct (bool_decide_reflect (Some (pid t) = Some IDLE_PID)) as [E|_]; [congruence|].
  apply wp_bind, wp_get_self. rewrite Hi. apply wp_bind, wp_task_at with t; [done|].
  assert (HEAP_LIMIT < 2 ^ 64) as Hhl by by vm_compute.
  unfold checked_add_signed. destruct ((0 <=? heap_end t + inc) && (heap_end t + inc <? 2 ^ 64)) eqn:Ec.
  2: { apply wp_ret, Hrange. lia. }
  destruct ((heap_end t + inc <? heap_base t) || (HEAP_LIMIT <? heap_end t + inc)) eqn:Er.
  { apply wp_ret, Hrange. lia. }
  assert (heap_base t ≤ heap_end t + inc ≤ HEAP_LIMIT) as Hne by lia.
  destruct (sbrk_ends s i t inc Hk Ht Hne) as ((-> & _) & (-> & _) & _).
  apply wp_try_bind, wp_ret, wp_try_bind, wp_ret.
  destruct (Z.ltb_spec (heap_hi t) (heap_hi (set_heap_end (heap_end t + inc) t))) as [?|Hge].
  { by apply sbrk_grow_case. }
  destruct (Z.ltb_spec (heap_hi (set_heap_end (heap_end t + inc) t)) (heap_hi t)) as [?|Hle].
  { by apply sbrk_shrink_case. }
  apply wp_try_bind, wp_ret. apply sbrk_same_case; (done || lia).
Qed.
End sbrk.
