(* ===== verification/Demo.v ===== *)
(** A concrete kernel, for the witnesses: booted, with the idle task, a server asleep
    in [ipc_recv] on endpoint 1 and a client running.  Also the two small operations
    its construction needs, [register_endpoint] and [set_current]. *)

From S2P Require Import Prelude Arch Page Memory Machine Pgtable Vm Trap Ipc Task Space Sched Inv IpcFacts Create Build.

Section setup.
Implicit Types (s : tsys) (m : TaskManager) (t : Task).

(** The machine part of a method keeps the manager. *)
Lemma kernel_mid_hw s h :
  kernel_mid s → spaces_ok h (tasks (self s)) → kernel_mid (mkTsys (self s) h).
Proof. by intros [? ?] ?. Qed.

(** [register_endpoint] installs an idle endpoint for an existing owner, or changes
    nothing. *)
Lemma register_endpoint_wp e p s :
  0 ≤ e → kernel_mid s →
  wp (register_endpoint e p) (λ r s', kernel_mid s' ∧ hw s' = hw s ∧
    tasks (self s') = tasks (self s) ∧ current_pid (self s') = current_pid (self s) ∧
    next_pid (self s') = next_pid (self s) ∧ uart_owner (self s') = uart_owner (self s) ∧
    match r with
    | Ok _ => e < MAX_ENDPOINTS ∧ endpoint_at (self s) e = None ∧
        is_Some (task_index (tasks (self s)) p) ∧
        (∃ ep, endpoint_at (self s') e = Some ep ∧ owner ep = p ∧ waiting_receiver ep = None ∧
           queue_list (pending ep) = [] ∧ has_buffered ep = false) ∧
        ∀ e', e' ≠ e → endpoint_at (self s') e' = endpoint_at (self s) e'
    | Err => s' = s ∧ (MAX_ENDPOINTS ≤ e ∨ endpoint_at (self s) e ≠ None ∨
        task_index (tasks (self s)) p = None)
    end) s.
Proof.
  intros He [Hm Hsp]. unfold register_endpoint. apply wp_bind, wp_get_self.
  destruct (_ || _) eqn:Ec.
  { apply wp_ret. do 7 (split; [done|]). apply orb_true_iff in Ec as [Ec%Z.leb_le|Ec]; [by left|].
    right. left. by destruct (endpoint_at (self s) e). }
  apply orb_false_elim in Ec as [Hlt%Z.leb_gt Hno%negb_false_iff].
  apply wp_bind, wp_get_self. destruct (task_index _ p) as [i|] eqn:Ei.
  2: { apply wp_ret. do 7 (split; [done|]). by right; right. }
  apply wp_bind, wp_upd_self, wp_ret. cbn [self hw].
  set (ep := mkEndpoint p None MsgQueue_new _ _ _ _ _).
  pose proof (tm_elen _ Hm) as Hel.
  assert (Z.to_nat e < length (endpoints (self s)))%nat as Hlen
    by (rewrite Hel; unfold MAX_ENDPOINTS in *; lia).
  assert (∀ e', endpoint_at (set_endpoints (<[Z.to_nat e:=Some ep]>) (self s)) e' =
    if decide (e' = e) then Some ep else endpoint_at (self s) e') as Hat.
  { intros e'. unfold endpoint_at. cbn [set_endpoints endpoints].
    destruct (Z.leb_spec 0 e'); [|by rewrite decide_False by lia]. case_decide as E.
    - subst e'. by rewrite list_lookup_insert_eq.
    - by rewrite list_lookup_insert_ne by lia. }
  split; [split; cbn [self hw]; [|done]|].
  - split.
    + destruct (mid_core _ Hm). split; try done. cbn [set_endpoints endpoints].
      by rewrite length_insert.
    + intros e' ep'. rewrite Hat. case_decide.
      * intros [= <-]. split; [|by intros r].
        split; [apply MsgQueue_new_wf|apply (length_replicate (Z.to_nat IPC_BUF_SIZE))|constructor|].
        split; [done|]. intros j. change (Z.min _ _) with 0. lia.
      * intros Hep. by apply (tm_endpoint _ Hm).
  - do 5 (split; [done|]). split; [done|]. split; [by destruct (endpoint_at (self s) e)|].
    split; [done|]. split.
    + exists ep. rewrite Hat, decide_True by done. done.
    + intros e' Hne. by rewrite Hat, decide_False.
Qed.

(** The first dispatch: a ready task runs when nothing else does. *)
Lemma first_dispatch i t s :
  kernel_mid s → current_pid (self s) = None → tasks (self s) !! i = Some (Some t) → state t = Ready →
  let s' := mkTsys (dispatched i t (self s)) (hw s) in
  kernel_ok s' ∧ current_index (self s') = Some i ∧
  tasks (self s') = <[i := Some (set_state Running t)]> (tasks (self s)).
Proof.
  intros [Hm Hsp] Hcur Ht Hs. pose proof (mid_core _ Hm) as Hc.
  assert (tm_core (dispatched i t (self s))) as Hc'.
  { split; cbn [dispatched set_current_pid set_tasks tasks endpoints current_pid runnable_count].
    - rewrite length_alter. apply Hc.
    - apply Hc.
    - by apply unique_pids_alter; [|apply Hc].
    - destruct (tm_idle _ Hc) as (j & u & Hj & Hp & Ha). destruct (decide (i = j)) as [<-|Hne].
      + exists i, (set_state Running t). split; [by apply alter_lookup|]. split; [|done]. cbn. congruence.
      + exists j, u. by rewrite alter_lookup_other.
    - intros j u (v & Hv & ->)%alter_lookup_Some Hr. case_decide as E.
      + subst j. rewrite Ht in Hv. by injection Hv as <-.
      + pose proof (tm_running _ Hc j v Hv Hr). congruence.
    - rewrite (count_alter _ _ t), (tm_count _ Hc) by done. cbn. rewrite Hs. cbn. lia. }
  destruct (dispatched_current _ i t Hc' Ht) as [H1 H2]. split; [split; [split|]; cbn [self hw]|].
  - apply tm_mid_intro; [done|]. apply (eps_ok_kept (self s)); [done| |by apply tm_mid_eps].
    apply sleepers_kept_alter with t; [done|]. by rewrite Hs.
  - by exists i, (set_state Running t).
  - apply (spaces_ok_slots _ (tasks (self s))); [by apply same_slots_alter|done].
  - split; [done|]. cbn. by rewrite (alter_insert _ _ _ _ Ht).
Qed.
Lemma set_current_wp p i t s :
  kernel_mid s → current_pid (self s) = None → tasks (self s) !! i = Some (Some t) → pid t = p →
  state t = Ready →
  wp (set_current p) (λ _ s', kernel_ok s' ∧ hw s' = hw s ∧ endpoints (self s') = endpoints (self s) ∧
    current_index (self s') = Some i ∧ tasks (self s') = <[i := Some (set_state Running t)]> (tasks (self s)) ∧
    next_pid (self s') = next_pid (self s)) s.
Proof.
  intros Hk Hcur Ht <- Hs. unfold set_current. apply wp_bind, wp_get_self.
  rewrite (task_index_unique _ i t) by (done || apply Hk).
  apply wp_bind, wp_upd_task with t; [done|]. apply wp_upd_self. cbn [self hw]. fold (dispatched i t (self s)).
  by destruct (first_dispatch i t s) as (? & ? & ?).
Qed.
End setup.

(** ** The construction *)

(** A loaded program with an empty image at 0x10000: the kernel's map and a user stack. *)
Definition demo_image : M (result (Z * Z)) :=
  pt ←? (o ← pgtable_create; mret (ok_or o));
  _ ←? map_kernel pt;
  us ←? (o ← page_alloc; mret (ok_or o));
  _ ←? pgtable_map pt STACK_VA us PAGE_SIZE stack_flags;
  mret (Ok (pt, us)).
Definition demo_user (entry : Z) : T (result Z) :=
  r ←? on_hw demo_image;
  create_user_image r.1 r.2 entry 0x10000 0.
Definition demo_setup : T (result Z) :=
  _ ←? create_idle kernel_start;
  server ←? demo_user 0x10000;
  client ←? demo_user 0x10040;
  _ ←? register_endpoint 1 server;
  mret (Ok server).
(** The client runs. *)
Definition demo_run : T unit :=
  r ← demo_setup;
  _ ← expect r;
  set_current 2.
Definition demo_start : tsys := mkTsys TaskManager_new (set_kernel_pagetable (Some demo_root) demo).

Section construction.
Implicit Types (s : tsys) (h : mach) (t : Task).

(** The entry point is not part of the space. *)
Lemma image_task_entry h0 h us ex pt st e e' :
  built h0 h us ex (image_task pt st e 0x10000 0 (0x10000 + 0)) →
  built h0 h us ex (image_task pt st e' 0x10000 0 (0x10000 + 0)).
Proof. intros [? [] ? ? ?]. split; try done. Qed.
(** A space built from pages that were free, seen as a loaded image. *)
Lemma built_loaded h0 h us ex ts img :
  spaces_ok h0 ts → built h0 h us ex img → loaded h ts img.
Proof.
  intros Hsp Hb. split; [by eapply built_space_ok|].
  intros b Hp. destruct (built_fresh _ _ _ _ _ b Hb Hp) as [Ha Hn]. split; [done|].
  intros i t Ht Ho. apply Hn. pose proof (b_ext _ _ _ _ _ (built_building _ _ _ _ _ Hb)) as He.
  apply (spaces_alloc _ _ Hsp i t b Ht). apply (owns_frame h0 h t); [|done].
  intros b' a Hb' Hin. apply (ext_mem _ _ He b'); [|done].
  apply (spaces_alloc _ _ Hsp i t b' Ht). left. by left.
Qed.
(** What the witnesses use of a demo program's space. *)
Record demo_space h t : Prop := {
  dsp_layout : image_base t = 0x10000 ∧ image_size t = 0 ∧ heap_base t = 0x10000 ∧ heap_end t = 0x10000;
  dsp_entry : pt_lookup (mem h) (pagetable t) STACK_VA =
    Some (pa_to_pte (user_stack t) (Z.lor stack_flags PTE_V));
  dsp_stack : user_stack t ≠ 0;
  dsp_empty v : 0 ≤ v < 2 ^ 39 → kernel_va v = false → page_of v ≠ STACK_VA →
    pt_lookup (mem h) (pagetable t) v = None;
}.
Lemma demo_image_wp h :
  pages_wf h → 32 ≤ free_count h →
  wp demo_image (λ r h', ∃ pt us, r = Ok (pt, us) ∧ free_count h - 28 ≤ free_count h' ∧
    pt_lookup (mem h') pt STACK_VA = Some (pa_to_pte us (Z.lor stack_flags PTE_V)) ∧ us ≠ 0 ∧
    built h h' {[STACK_VA := us]} [] (image_task pt us 0x10000 0x10000 0 (0x10000 + 0))) h.
Proof.
  intros Hp Hf. unfold demo_image. apply wp_try_bind, wp_bind.
  eapply wp_mono; [by apply pgtable_create_ext|]. intros [pt|] h1; [|intros [_ ?]; lia].
  intros (He1 & Hpta & Hptb & Hptn & Hal1 & Hf1 & Hbl & Hr). apply wp_ret. cbn [ok_or].
  apply wp_try_bind. eapply wp_mono.
  { apply (building_start_wp h h h1 pt []); [by apply extends_refl|by apply NoDup_nil| | |done..].
    - intros b. rewrite elem_of_nil. tauto.
    - intros b Hb. by apply elem_of_nil in Hb. }
  intros r h2 (_ & _ & Hbd & Hok). destruct Hok as [-> Hf2]; [lia|]. specialize (Hbd eq_refl).
  apply wp_try_bind, wp_bind. eapply wp_mono; [by apply building_alloc_wp|].
  intros [us|] h3; [|intros [_ ?]; lia]. intros (Hb3 & Hm3 & Hua & Hub & _ & _ & Hf3). apply wp_ret. cbn [ok_or].
  apply wp_try_bind. eapply wp_mono; [by apply (building_map_wp h h3 pt ∅ [] [])|].
  intros r h4 (_ & _ & Hok & H4). destruct Hok as [-> Hf4]; [done|done|lia|].
  destruct H4 as (_ & _ & Hb4 & Hlk). apply wp_ret. exists pt, us. split; [done|]. split; [lia|].
  split; [by rewrite Hlk, decide_True by by vm_compute|].
  rewrite insert_empty in Hb4. cbn [app] in Hb4. unfold PAGE_SIZE in *.
  destruct (b_extra _ _ _ _ _ Hb3 us) as [Hu0 Hut]; [by left|].
  assert (us ≠ 0) as Hus0.
  { intros ->. assert (is_alloc h3 0) as H0 by (apply (b_alloc _ _ _ _ _ Hb3); do 3 right; by left).
    apply is_alloc_pos in H0; [lia|apply Hb3]. }
  split; [done|]. split; cbn [image_task pagetable user_stack kernel_stack].
  - exact Hb4.
  - destruct Hua as [Hus Husm]. split;
      cbn [image_task image_base image_size heap_base heap_end user_stack kernel_stack pagetable trap_frame];
      unfold USER_LIMIT, FRAME_SIZE, FRAME_WORDS, PAGE_SIZE in *;
      [lia|split; [by split; [lia|]|lia]|split; [by split|lia]|split; [by split|lia]|lia|lia].
  - rewrite lookup_singleton_eq. done.
  - intros va b Hb. apply lookup_singleton_Some in Hb as [<- _]. by right.
  - destruct (b_pages _ _ _ _ _ Hb4 STACK_VA us) as (_ & ? & _); [apply lookup_singleton_eq|done].
Qed.

Lemma demo_user_wp entry kpt i s :
  kernel_mid s → KERNEL_PAGETABLE (hw s) = Some kpt → next_pid (self s) ≠ IDLE_PID →
  task_index (tasks (self s)) (next_pid (self s)) = None → 32 ≤ free_count (hw s) →
  position is_none (tasks (self s)) = Some i →
  wp (demo_user entry) (λ r s', kernel_mid s' ∧ r = Ok (next_pid (self s)) ∧
    KERNEL_PAGETABLE (hw s') = Some kpt ∧ free_count (hw s) - 29 ≤ free_count (hw s') ∧
    current_pid (self s') = current_pid (self s) ∧ endpoints (self s') = endpoints (self s) ∧
    next_pid (self s') = u32 (next_pid (self s) + 1) ∧
    ∃ t, tasks (self s') = <[i := Some t]> (tasks (self s)) ∧ pid t = next_pid (self s) ∧
      state t = Ready ∧ demo_space (hw s') t) s.
Proof.
  intros Hk Hkpt Hnp Hnew Hf Hpos. pose proof Hk as [Hm Hsp].
  unfold demo_user. apply wp_try_bind, wp_on_hw.
  eapply wp_mono; [apply demo_image_wp; [apply Hsp|done]|].
  intros r h (pt & us & -> & Hf' & Hlk & Hus & Hb). cbn [fst snd].
  pose proof (b_ext _ _ _ _ _ (built_building _ _ _ _ _ Hb)) as He.
  pose proof (image_task_entry (hw s) h {[STACK_VA := us]} [] pt us 0x10000 entry Hb) as Hb'.
  assert (KERNEL_PAGETABLE h = Some kpt) as Hkpt2
    by (pose proof (ext_globals _ _ He) as (-> & _); done).
  eapply wp_mono.
  { apply (create_user_image_wp pt us entry 0x10000 0 kpt).
    - split; cbn [self hw]; [done|]. by apply (spaces_ok_extends (hw s)).
    - done.
    - by apply (built_loaded (hw s) h {[STACK_VA := us]} []).
    - done.
    - done. }
  intros r s' [Hk' Hr']. split; [done|]. destruct r as [p|].
  - destruct Hr' as (t & [[-> Hp] (i' & Hi' & Ht & _) (Hc1 & Hc2 & _ & Hc4) (Hs & _) _ Hspc _ _ [He3 Hf3]]).
    cbn [self hw] in *. rewrite Hpos in Hi'. injection Hi' as <-. split; [done|].
    split; [pose proof (ext_globals _ _ He3) as (-> & _); done|]. split; [lia|].
    do 3 (split; [done|]). exists t. do 3 (split; [done|]).
    destruct Hspc as (H1 & H2 & H3 & H4 & H5 & H6).
    assert (∀ v, pt_lookup (mem (hw s')) pt v = pt_lookup (mem h) pt v) as Hsame.
    { intros v. apply pt_lookup_frame. intros b a Hb2. apply (ext_mem _ _ He3).
      apply (built_fresh _ _ _ _ _ b Hb). by left. }
    split; rewrite ?H1, ?H2; cbn [image_task pagetable user_stack]; [by rewrite H3, H4, H5, H6| |done|].
    + by rewrite Hsame.
    + intros v Hv Hkv Hne. rewrite Hsame. pose proof (b_entries _ _ _ _ _ (built_building _ _ _ _ _ Hb) v Hv Hkv) as E.
      cbn [image_task pagetable] in E. rewrite lookup_singleton_ne in E by done. by destruct (pt_lookup (mem h) pt v).
  - destruct Hr' as (_ & _ & [Hn|Hn]); cbn [self hw] in Hn; [congruence|lia].
Qed.

(** The manager with only the idle task in it. *)
Lemma idle_only_core t :
  pid t = IDLE_PID → state t = Ready →
  tm_core (set_tasks (<[0%nat := Some t]>) TaskManager_new).
Proof.
  intros Hp Hs.
  assert (∀ j u, <[0%nat:=Some t]> (replicate NTASKS None) !! j = Some (Some u) → j = 0%nat ∧ u = t) as Hj.
  { intros j u E. destruct (decide (j = 0%nat)) as [->|Hne].
    - rewrite list_lookup_insert_eq in E by (rewrite length_replicate; vm_compute; lia).
      by injection E as ->.
    - rewrite list_lookup_insert_ne in E by done. by apply lookup_replicate in E as [? _]. }
  split; cbn [set_tasks TaskManager_new tasks endpoints current_pid runnable_count].
  - by rewrite length_insert, length_replicate.
  - by rewrite length_replicate.
  - intros j k u v [-> ->]%Hj [-> ->]%Hj. done.
  - exists 0%nat, t. split; [done|]. by rewrite Hs.
  - intros j u [-> ->]%Hj. congruence.
  - rewrite (count_put _ _ _ None) by done. cbn. by rewrite Hp.
Qed.

Lemma no_tasks_spaces h : pages_wf h → spaces_ok h (replicate (Z.to_nat MAX_TASKS) None).
Proof.
  intros Hp. split; [done|..].
  - intros i t Ht. by apply lookup_replicate in Ht as [? _].
  - intros i t b Ht. by apply lookup_replicate in Ht as [? _].
  - intros i j t t' b Ht. by apply lookup_replicate in Ht as [? _].
  - intros i t va Ht. by apply lookup_replicate in Ht as [? _].
Qed.
(** [create_idle] on the empty manager. *)
Lemma first_idle_wp entry kpt start :
  self start = TaskManager_new → KERNEL_PAGETABLE (hw start) = Some kpt →
  pages_wf (hw start) → 26 ≤ free_count (hw start) →
  wp (create_idle entry) (λ r s, r = Ok IDLE_PID ∧ kernel_mid s ∧
    KERNEL_PAGETABLE (hw s) = Some kpt ∧ free_count (hw start) - 26 ≤ free_count (hw s) ∧
    ∃ t0, pid t0 = IDLE_PID ∧ state t0 = Ready ∧ self s = set_tasks (<[0%nat := Some t0]>) TaskManager_new) start.
Proof.
  intros Hself Hkpt Hpages Hfree. eapply wp_mono.
  { apply (create_idle_wp entry kpt); [|done]. rewrite Hself. by apply no_tasks_spaces. }
  intros r s0 H0. destruct r as [p0|].
  2: { rewrite Hself in H0. destruct H0 as (_ & _ & _ & [?|[?|Hlt]]); [done|done|lia]. }
  destruct H0 as (-> & _ & i & t0 & [Hi Hs0 (Hp0 & Hst0 & _) Hsp0 _ _ Hg0 Hf0]).
  rewrite Hself in Hi, Hs0. vm_compute in Hi. injection Hi as <-. specialize (Hf0 Hfree).
  split; [done|]. split; [|split; [|split; [done|by exists t0]]].
  - split; [|done]. rewrite Hs0. split; [by apply idle_only_core|].
    intros e ep He. exfalso. unfold endpoint_at in He. destruct (0 <=? e); [|done].
    cbn [set_tasks TaskManager_new endpoints] in He.
    destruct (replicate _ _ !! Z.to_nat e) as [o|] eqn:E; [|done].
    apply lookup_replicate in E as [-> _]. done.
  - destruct Hg0 as (-> & _); exact Hkpt.
Qed.
Lemma demo_idle_wp start :
  self start = TaskManager_new → KERNEL_PAGETABLE (hw start) = Some demo_root →
  pages_wf (hw start) → 2000 ≤ free_count (hw start) →
  wp (create_idle kernel_start) (λ r s, r = Ok IDLE_PID ∧ kernel_mid s ∧
    KERNEL_PAGETABLE (hw s) = Some demo_root ∧ 1900 ≤ free_count (hw s) ∧
    ∃ t0, pid t0 = IDLE_PID ∧ state t0 = Ready ∧ self s = set_tasks (<[0%nat := Some t0]>) TaskManager_new) start.
Proof.
  intros Hself Hkpt Hpages Hfree. eapply wp_mono; [apply (first_idle_wp kernel_start demo_root); (done || lia)|].
  intros r s (Hr & Hk & Hroot & Hf & t0 & Hp & Hst & Hs). split; [done|]. split; [done|]. split; [done|]. split; [lia|].
  by exists t0.
Qed.
(** The kernel the witnesses run on: the client [t] is in user mode. *)
Record demo_state s t : Prop := {
  ds_ok : kernel_ok s;
  ds_user : in_user s t;
  ds_pid : pid t = 2;
  ds_root : KERNEL_PAGETABLE (hw s) = Some demo_root;
  ds_next : next_pid (self s) = 3;
  ds_fresh : task_index (tasks (self s)) 3 = None;
  ds_slot : position is_none (tasks (self s)) = Some 3%nat;
  ds_free : 1800 ≤ free_count (hw s);
  ds_space : demo_space (hw s) t;
  ds_endpoint : ∃ ep, endpoint_at (self s) 1 = Some ep ∧ owner ep = 1 ∧ queue_list (pending ep) = [] ∧
    has_buffered ep = false ∧ waiting_receiver ep = None;
  (** The idle task, the server and the client. *)
  ds_tasks : ∃ t0 t1, tasks (self s) = Some t0 :: Some t1 :: Some t :: replicate 13 None ∧
    pid t0 = 0 ∧ pid t1 = 1 ∧ state t0 = Ready ∧ state t1 = Ready;
  ds_server : ∃ u, tasks (self s) !! 1%nat = Some (Some u) ∧ pid u = 1 ∧ state u = Ready;
}.
Lemma demo_setup_wp start :
  self start = TaskManager_new → KERNEL_PAGETABLE (hw start) = Some demo_root →
  pages_wf (hw start) → 2000 ≤ free_count (hw start) →
  wp demo_setup (λ r s, r = Ok 1 ∧ kernel_mid s ∧ current_pid (self s) = None ∧
    KERNEL_PAGETABLE (hw s) = Some demo_root ∧ 1800 ≤ free_count (hw s) ∧ next_pid (self s) = 3 ∧
    (∃ t0 t1 t2, tasks (self s) = Some t0 :: Some t1 :: Some t2 :: replicate 13 None ∧
      pid t0 = 0 ∧ pid t1 = 1 ∧ pid t2 = 2 ∧ state t0 = Ready ∧ state t1 = Ready ∧ state t2 = Ready ∧
      demo_space (hw s) t2) ∧
    ∃ ep, endpoint_at (self s) 1 = Some ep ∧ owner ep = 1 ∧ queue_list (pending ep) = [] ∧
      has_buffered ep = false ∧ waiting_receiver ep = None) start.
Proof.
  intros Hself Hkpt Hpages Hfree.
  unfold demo_setup. apply wp_try_bind. eapply wp_mono; [by apply demo_idle_wp|].
  intros r s0 (-> & Hk0 & Hkpt0 & Hf0 & t0 & Hp0 & Hst0 & Hs0).
  assert (tasks (self s0) = Some t0 :: replicate 15 None) as Ht0 by (by rewrite Hs0).
  apply wp_try_bind. eapply wp_mono.
  { apply (demo_user_wp 0x10000 demo_root 1%nat); [done|done|by rewrite Hs0| | |].
    - rewrite Ht0, Hs0. cbn. by rewrite Hp0.
    - lia.
    - by rewrite Ht0. }
  intros r s1 (Hk1 & -> & Hkpt1 & Hf1 & Hc1 & He1 & Hn1 & t1 & Ht1 & Hp1 & Hst1 & _).
  rewrite Hs0 in Hp1, Hn1, Hc1, He1 |- *. cbn [set_tasks TaskManager_new next_pid current_pid endpoints] in *.
  rewrite Ht0 in Ht1. cbn [insert list_insert] in Ht1.
  apply wp_try_bind. eapply wp_mono.
  { apply (demo_user_wp 0x10040 demo_root 2%nat); [done|done|by rewrite Hn1| | |].
    - rewrite Ht1, Hn1. cbn. by rewrite Hp0, Hp1.
    - lia.
    - by rewrite Ht1. }
  intros r s2 (Hk2 & -> & Hkpt2 & Hf2 & Hc2 & He2 & Hn2 & t2 & Ht2 & Hp2 & Hst2 & Hsp2).
  rewrite Ht1 in Ht2. cbn [insert list_insert] in Ht2.
  apply wp_try_bind. eapply wp_mono; [by apply register_endpoint_wp|].
  intros r s3 (Hk3 & Hh3 & Ht3 & Hc3 & Hn3 & _ & Hr3).
  assert (endpoint_at (self s2) 1 = None) as Hno by (unfold endpoint_at; by rewrite He2, He1).
  destruct r as [[]|].
  - apply wp_ret. split; [done|]. split; [done|]. split; [by rewrite Hc3, Hc2, Hc1|].
    rewrite Hh3. split; [done|]. split; [lia|]. split; [by rewrite Hn3, Hn2, Hn1|]. split.
    + exists t0, t1, t2. rewrite Ht3, Ht2. split; [done|]. rewrite Hp0, Hp1, Hp2, Hn1. done.
    + destruct Hr3 as (_ & _ & _ & (ep & Hep & Ho & Hw & Hq & Hb) & _). by exists ep.
  - exfalso.
    destruct Hr3 as (_ & [Hr3|[Hr3|Hr3]]); [done|done|].
    rewrite Ht2 in Hr3. unfold task_index in Hr3. cbn [position has_pid] in Hr3.
    rewrite Hp0 in Hr3. change (IDLE_PID =? 0 + 1) with false in Hr3. cbn in Hr3. by rewrite Hp1 in Hr3.
Qed.

Lemma demo_run_wp start :
  self start = TaskManager_new → KERNEL_PAGETABLE (hw start) = Some demo_root →
  pages_wf (hw start) → 2000 ≤ free_count (hw start) →
  wp demo_run (λ _ s, ∃ t, demo_state s t) start.
Proof.
  intros. unfold demo_run. apply wp_bind. eapply wp_mono; [by apply demo_setup_wp|].
  intros r s (-> & Hk & Hcur & Hkpt & Hf & Hn & (t0 & t1 & t2 & Ht & Hp0 & Hp1 & Hp2 & Hs0 & Hs1 & Hs2 & Hsp) & ep & Hep & Ho & Hq & Hb & Hw).
  apply wp_bind, wp_ret. eapply wp_mono.
  { by apply (set_current_wp 2 2%nat t2); [| |rewrite Ht| |]. }
  intros _ s' (Hk' & Hh & He & Hi & Ht' & Hn'). rewrite Ht in Ht'. cbn in Ht'.
  exists (set_state Running t2). split; rewrite ?Hh; try done.
  - by apply (in_user_intro s' 2%nat); [|rewrite Ht'| |change (pid t2 ≠ IDLE_PID); rewrite Hp2].
  - by rewrite Hn'.
  - rewrite Ht'. unfold task_index. cbn. by rewrite Hp0, Hp1, Hp2.
  - by rewrite Ht'.
  - by destruct Hsp.
  - exists ep. unfold endpoint_at. rewrite He. done.
  - exists t0, t1. by rewrite Ht'.
  - exists t1. by rewrite Ht'.
Qed.
End construction.

Lemma demo_start_facts :
  self demo_start = TaskManager_new ∧ KERNEL_PAGETABLE (hw demo_start) = Some demo_root ∧
  pages_wf (hw demo_start) ∧ 2000 ≤ free_count (hw demo_start).
Proof.
  destruct demo_facts as (_ & Hr & _ & _).
  split; [exact eq_refl|]. split; [exact eq_refl|]. split; [exact (ready_pages _ _ Hr)|].
  vm_compute. discriminate.
Qed.
(** The kernel the witnesses run on. *)
Lemma demo_kernel_from start :
  self start = TaskManager_new → KERNEL_PAGETABLE (hw start) = Some demo_root →
  pages_wf (hw start) → 2000 ≤ free_count (hw start) → ∃ s t, demo_run start = Done (tt, s) ∧ demo_state s t.
Proof.
  intros H1 H2 H3 H4. pose proof (demo_run_wp start H1 H2 H3 H4) as H.
  apply wp_Done in H as ([] & s & E & t & H). exists s, t. exact (conj E H).
Qed.
Lemma demo_kernel_run : ∃ s t, demo_run demo_start = Done (tt, s) ∧ demo_state s t.
Proof.
  destruct demo_start_facts as (H1 & H2 & H3 & H4). exact (demo_kernel_from demo_start H1 H2 H3 H4).
Qed.
Lemma demo_kernel_state : ∃ s t, demo_state s t.
Proof. destruct demo_kernel_run as (s & t & H). exists s, t. exact (proj2 H). Qed.
Lemma demo_kernel : ∃ s t, kernel_ok s ∧ in_user s t ∧ pid t = 2 ∧
  (∃ ep, endpoint_at (self s) 1 = Some ep ∧ owner ep = 1 ∧ queue_list (pending ep) = []) ∧
  ∃ u, tasks (self s) !! 1%nat = Some (Some u) ∧ pid u = 1 ∧ state u = Ready.
Proof.
  destruct demo_kernel_state as (s & t & [H1 H2 H3 _ _ _ _ _ _ (ep & H4 & H5 & H6 & _) _ H7]). exists s, t.
  do 3 (split; [done|]). split; [by exists ep|done].
Qed.
