(* ===== verification/Contracts.v ===== *)
(** The contracts of the process manager: what each method of [Task.v] promises to its
    callers, as total specifications from a state with the kernel invariant.  The
    proofs apply the lemmas of the preceding files; the witnesses run on the kernel of
    [Demo.v]. *)

From S2P Require Import Prelude Arch Page Memory Machine Pgtable Vm Trap Ipc Task Space Sched Inv IpcFacts ProcFacts Create Demo.

(** ** Fairness of the round robin *)

(** How many slots are tried before [j]. *)
Definition rr_dist (start j : nat) : nat := ((j + NTASKS - start mod NTASKS) mod NTASKS)%nat.

Section fairness.
Implicit Types (s : tsys) (ts : list (option Task)).

Lemma mod_wrap a : (a < 2 * NTASKS → a mod NTASKS = if decide (a < NTASKS) then a else a - NTASKS)%nat.
Proof.
  intros H. case_decide; [by apply Nat.mod_small|].
  replace a with (a - NTASKS + 1 * NTASKS)%nat at 1 by lia. rewrite Nat.Div0.mod_add.
  apply Nat.mod_small. lia.
Qed.
Lemma rr_dist_eq start j :
  (j < NTASKS)%nat →
  rr_dist start j = (if decide (start mod NTASKS ≤ j) then j - start mod NTASKS
                     else j + NTASKS - start mod NTASKS)%nat.
Proof.
  intros Hj. unfold rr_dist. pose proof (Nat.mod_upper_bound start NTASKS ltac:(done)).
  rewrite mod_wrap by lia. repeat case_decide; lia.
Qed.
Lemma rr_dist_spec start j :
  (j < NTASKS)%nat → (rr_dist start j < NTASKS)%nat ∧ ((start + rr_dist start j) mod NTASKS)%nat = j.
Proof.
  intros Hj. rewrite <- Nat.Div0.add_mod_idemp_l, rr_dist_eq by done.
  pose proof (Nat.mod_upper_bound start NTASKS ltac:(done)).
  split; [case_decide; lia|]. rewrite mod_wrap by (case_decide; lia). repeat case_decide; lia.
Qed.
(** A slot passed over is nearer the next time. *)
Lemma rr_pick_nearer ts start i j :
  rr_pick ts start = Some i → (j < NTASKS)%nat → slot_runnable ts j = true → i ≠ j →
  (rr_dist (rr_start (Some i)) j < rr_dist start j)%nat.
Proof.
  intros (_ & k & Hk & Hi & Hfirst)%rr_pick_Some Hj Hr Hne.
  assert (i < NTASKS)%nat by (rewrite Hi; by apply Nat.mod_upper_bound).
  destruct (rr_dist_spec start j Hj) as [Hd Ed].
  assert (k < rr_dist start j)%nat as Hlt.
  { destruct (Nat.lt_trichotomy k (rr_dist start j)) as [?|[->|Hgt]]; [done|congruence|].
    specialize (Hfirst _ Hgt). rewrite Ed, Hr in Hfirst. done. }
  rewrite !rr_dist_eq in * by done. unfold rr_start. rewrite Nat.Div0.mod_mod.
  pose proof (Nat.mod_upper_bound start NTASKS ltac:(done)).
  rewrite <- Nat.Div0.add_mod_idemp_l, mod_wrap in Hi by lia.
  clear Ed Hfirst. rewrite (mod_wrap (i + 1)) by lia. repeat case_decide; lia.
Qed.
Lemma ready_slot_runnable m j t :
  tm_core m → tasks m !! j = Some (Some t) → state t = Ready → pid t ≠ IDLE_PID →
  slot_runnable (settled m) j = true.
Proof.
  intros Hm Ht Hs Hp. unfold slot_runnable.
  rewrite (settled_live m j t Hm Ht) by (by rewrite Hs). cbn [mjoin option_join runnable].
  assert (yield_task t = t) as -> by (unfold yield_task; by rewrite bool_decide_false by (by rewrite Hs)).
  rewrite Hs, bool_decide_true by done. rewrite (proj2 (Z.eqb_neq _ _) Hp). done.
Qed.
(** One call of [schedule], seen from a ready slot. *)
Lemma schedule_step s s' tf fp j t :
  kernel_mid s → schedule tf s = Done (fp, s') → tasks (self s) !! j = Some (Some t) →
  state t = Ready → pid t ≠ IDLE_PID →
  ∃ i, current_index (self s') = Some i ∧
    (i = j ∨ rr_dist (rr_start (Some i)) j < rr_dist (rr_start (current_index (self s))) j)%nat.
Proof.
  intros Hk Hsch Ht Hs Hp. pose proof (schedule_mid_wp tf s Hk) as H. unfold wp in H.
  rewrite Hsch in H. destruct H as (Hk' & _ & (i & u & Hnext & Hu & _ & _ & Hm') & _).
  pose proof (mid_core _ (km_tm _ Hk)) as Hc.
  pose proof (ready_slot_runnable _ j t Hc Ht Hs Hp) as Hr.
  assert (j < NTASKS)%nat as Hj by (rewrite <- (tm_len _ Hc); by eapply lookup_lt_Some).
  exists i. split.
  - pose proof (mid_core _ (ok_mid _ (k_tm _ Hk'))) as Hc'. rewrite Hm' in Hc' |- *.
    by apply (dispatched_current _ i u Hc' Hu).
  - destruct (decide (i = j)) as [|Hne]; [by left|right]. apply (rr_pick_nearer (settled (self s))); try done.
    unfold next_slot in Hnext. destruct (rr_pick _ _) as [i'|] eqn:E; [done|].
    by rewrite (rr_pick_None _ _ E j Hj) in Hr.
Qed.
End fairness.

(** [C14] No ready task starves.  Take any run of the kernel in which [schedule] is
    called again and again ([s k] before the [k]th call, [s' k] after it), with
    anything in between that leaves the running task current: a task other than idle
    that is ready as long as it has not been chosen is made the current task by one of
    the first 16 calls. *)
Theorem schedule_no_starvation (s s' : nat → tsys) (tf fp : nat → Z) (j : nat) :
  (∀ k, kernel_mid (s k)) → (∀ k, schedule (tf k) (s k) = Done (fp k, s' k)) →
  (∀ k, current_index (self (s (S k))) = current_index (self (s' k))) →
  (∀ k, (∀ l, (l < k)%nat → current_index (self (s' l)) ≠ Some j) →
     ∃ t, tasks (self (s k)) !! j = Some (Some t) ∧ state t = Ready ∧ pid t ≠ IDLE_PID) →
  ∃ k, (k < NTASKS)%nat ∧ current_index (self (s' k)) = Some j.
Proof.
  intros Hmid Hsch Hcur Hready.
  assert (∀ n k, (∀ l, (l < k)%nat → current_index (self (s' l)) ≠ Some j) →
    (rr_dist (rr_start (current_index (self (s k)))) j < n)%nat →
    ∃ k', (k ≤ k' < k + n)%nat ∧ current_index (self (s' k')) = Some j) as Hind.
  { induction n as [|n IH]; intros k Hno Hd; [lia|].
    destruct (Hready k Hno) as (t & Ht & Hs & Hp).
    destruct (schedule_step _ _ _ _ j t (Hmid k) (Hsch k) Ht Hs Hp) as (i & Hi & Hor).
    destruct (decide (i = j)) as [->|Hne]; [exists k; split; [lia|done]|].
    destruct Hor as [?|Hlt]; [done|].
    destruct (IH (S k)) as (k' & Hk' & Hj').
    - intros l Hl. destruct (decide (l = k)) as [->|]; [rewrite Hi; congruence|apply Hno; lia].
    - rewrite Hcur, Hi. lia.
    - exists k'. split; [lia|done]. }
  destruct (Hready 0%nat) as (t & Ht & _); [lia|].
  assert (j < NTASKS)%nat as Hj.
  { rewrite <- (tm_len _ (mid_core _ (km_tm _ (Hmid 0%nat)))). by eapply lookup_lt_Some. }
  destruct (Hind NTASKS 0%nat) as (k & Hk & Hkj); [lia|by apply rr_dist_spec|].
  exists k. split; [lia|done].
Qed.

(** A run of timer ticks. *)
Definition tick (tf : Z) (s : tsys) : tsys :=
  match schedule tf s with Done (_, s') => s' | _ => s end.
Definition tick_frame (tf : Z) (s : tsys) : Z :=
  match schedule tf s with Done (fp, _) => fp | _ => tf end.
Definition ticks (tf : Z) (s : tsys) (k : nat) : tsys := Nat.iter k (tick tf) s.
Lemma tick_step tf s :
  kernel_mid s → schedule tf s = Done (tick_frame tf s, tick tf s) ∧ kernel_ok (tick tf s) ∧
    sched_keeps tf s (tick tf s).
Proof.
  intros Hk. pose proof (schedule_mid_wp tf s Hk) as H. unfold wp, tick, tick_frame in *.
  destruct (schedule tf s) as [[fp s']| |]; [|done..]. by destruct H as (? & _ & _ & ? & _).
Qed.
Lemma ticks_mid tf s k : kernel_mid s → kernel_mid (ticks tf s k).
Proof.
  intros Hs. induction k as [|k IH]; [done|]. apply kernel_ok_mid. cbn.
  by destruct (tick_step tf (ticks tf s k) IH) as (_ & ? & _).
Qed.
Lemma ticks_ready tf s j t k :
  kernel_mid s → tasks (self s) !! j = Some (Some t) → state t = Ready → pid t ≠ IDLE_PID →
  (∀ l, (l < k)%nat → current_index (self (ticks tf s (S l))) ≠ Some j) →
  ∃ t', tasks (self (ticks tf s k)) !! j = Some (Some t') ∧ state t' = Ready ∧ pid t' ≠ IDLE_PID.
Proof.
  intros Hk Ht Hs Hp. induction k as [|k IH]; intros Hno; [by exists t|].
  destruct IH as (u & Hu & Hsu & Hpu); [intros l Hl; apply Hno; lia|].
  destruct (tick_step tf (ticks tf s k) (ticks_mid tf s k Hk)) as (_ & Hok & Hkeep).
  destruct (Hkeep j u Hu) as (u' & Hu' & (Hpid & _ & _ & Ha & _) & _); [by rewrite Hsu|].
  exists u'. split; [done|]. split; [|by rewrite Hpid].
  rewrite Hsu in Ha. destruct (state u') eqn:E; try done. exfalso.
  apply (Hno k); [lia|]. pose proof (mid_core _ (ok_mid _ (k_tm _ Hok))) as Hc.
  pose proof (tm_running _ Hc j u' Hu' E) as Hcur. unfold current_index.
  change (ticks tf s (S k)) with (tick tf (ticks tf s k)). rewrite Hcur. cbn [mbind option_bind].
  by apply task_index_unique; [apply Hc|].
Qed.
Lemma schedule_no_starvation_witness :
  ∃ s k, (k < NTASKS)%nat ∧ current_index (self (ticks 0 s (S k))) = Some 1%nat.
Proof.
  destruct demo_kernel as (s & t & Hk & _ & _ & _ & u & Hu & Hpu & Hsu). exists s.
  pose proof (kernel_ok_mid s Hk) as Hm.
  apply (schedule_no_starvation (ticks 0 s) (λ k, ticks 0 s (S k)) (λ _, 0)
           (λ k, tick_frame 0 (ticks 0 s k)) 1%nat).
  - intros k. by apply ticks_mid.
  - intros k. by apply tick_step, ticks_mid.
  - done.
  - intros k Hno. apply (ticks_ready 0 s 1%nat u k Hm Hu Hsu); [by rewrite Hpu|exact Hno].
Defined.

(** [C15] The scheduler.  From any state between two steps of the kernel, [schedule]
    returns (it neither panics nor loops), establishes the kernel invariant with a
    running current task whose frame it returns, and follows the policy [scheduled]:
    detached zombies are reaped, the outgoing task becomes ready again unless it sleeps
    or died, and the first ready slot after it, cyclically, runs; the idle task runs only if no slot is
    ready.  Every live task keeps its identity, space and wait channel; the interrupted registers are
    saved for the outgoing task and no other kernel stack is written. *)
Theorem schedule_correct tf s :
  kernel_mid s →
  ∃ fp s', schedule tf s = Done (fp, s') ∧ kernel_ok s' ∧ scheduled (self s) (self s') fp ∧
    sched_keeps tf s s' ∧ current_is (self s') (λ t, trap_frame t = fp) ∧
    same_globals (hw s) (hw s').
Proof.
  intros Hk. pose proof (schedule_mid_wp tf s Hk) as H.
  apply wp_Done in H as (fp & s' & E & ? & ? & ? & ? & ?). by exists fp, s'.
Qed.
Lemma schedule_correct_witness :
  ∃ s fp s', schedule 0 s = Done (fp, s') ∧ kernel_ok s' ∧ scheduled (self s) (self s') fp ∧
    sched_keeps 0 s s' ∧ current_is (self s') (λ t, trap_frame t = fp) ∧
    same_globals (hw s) (hw s').
Proof.
  destruct demo_kernel as (s & t & Hk & _). exists s.
  apply (schedule_correct 0 s). exact (kernel_ok_mid s Hk).
Defined.

(** ** Memory *)



(** ** Inter-process communication *)

(** [C16] [ipc_call].  A user task that calls endpoint [e] either gets an error and
    nothing changes (the endpoint does not exist, it is the caller's own, or its queue
    is full), or it sleeps on the endpoint with its registers saved, another task
    runs, and the message is not lost: if the owner was waiting in [recv] it finds the
    caller's PID and the four words in [a0]-[a4] and can run again, otherwise the message is the last
    one in the endpoint's queue.  The kernel invariant holds afterwards. *)
Theorem ipc_call_correct e ws s t :
  kernel_ok s → in_user s t →
  ∃ r s', ipc_call e ws (trap_frame t) s = Done (r, s') ∧ kernel_ok s' ∧
    match r with
    | Blocked fp => current_is (self s') (λ u, trap_frame u = fp) ∧
        ∃ ep, endpoint_at (self s) e = Some ep ∧ pid t ≠ owner ep ∧ is_full (pending ep) = false ∧
          (∃ i t', tasks (self s) !! i = Some (Some t) ∧ tasks (self s') !! i = Some (Some t') ∧
             sleeps_on (IpcCall e) (mem (hw s)) (mem (hw s')) t t') ∧
          call_delivered e (pid t) ws ep s s'
    | IpcError => s' = s ∧
        match endpoint_at (self s) e with
        | Some ep => pid t = owner ep ∨ is_full (pending ep) = true
        | None => True
        end
    | Continue => False
    end.
Proof.
  intros Hk Hu. pose proof (ipc_call_wp e ws s t Hk Hu) as H.
  apply wp_Done in H as (r & s' & E & H). exists r, s'. split; [done|].
  destruct r as [|fp|]; [done| |].
  - destruct H as ([? ?] & H). done.
  - split; [by destruct H as [-> _]|done].
Qed.
Lemma ipc_call_correct_witness :
  ∃ s t r s', ipc_call 1 [10; 20; 30; 40] (trap_frame t) s = Done (r, s') ∧ kernel_ok s' ∧
    match r with
    | Blocked fp => current_is (self s') (λ u, trap_frame u = fp) ∧
        ∃ ep, endpoint_at (self s) 1 = Some ep ∧ pid t ≠ owner ep ∧ is_full (pending ep) = false ∧
          (∃ i t', tasks (self s) !! i = Some (Some t) ∧ tasks (self s') !! i = Some (Some t') ∧
             sleeps_on (IpcCall 1) (mem (hw s)) (mem (hw s')) t t') ∧
          call_delivered 1 (pid t) [10; 20; 30; 40] ep s s'
    | IpcError => s' = s ∧
        match endpoint_at (self s) 1 with
        | Some ep => pid t = owner ep ∨ is_full (pending ep) = true
        | None => True
        end
    | Continue => False
    end.
Proof.
  destruct demo_kernel as (s & t & Hk & Hu & _). exists s, t.
  exact (ipc_call_correct 1 [10; 20; 30; 40] s t Hk Hu).
Defined.

(** [C17] [ipc_recv].  Only the owner of an endpoint may receive on it; another task gets
    an error and nothing changes.  If a message is queued, the oldest one is removed from
    the queue and put in the caller's [a0]-[a4], and the caller goes on; if the queue is
    empty, the caller sleeps as the endpoint's receiver with its registers saved and
    another task runs.  The kernel invariant holds afterwards. *)
Theorem ipc_recv_correct e s t :
  kernel_ok s → in_user s t →
  ∃ r s', ipc_recv e (trap_frame t) s = Done (r, s') ∧ kernel_ok s' ∧
    match r with
    | Blocked fp => current_is (self s') (λ u, trap_frame u = fp) ∧
        ∃ ep, endpoint_at (self s) e = Some ep ∧ owner ep = pid t ∧ queue_list (pending ep) = [] ∧
          endpoint_at (self s') e = Some (set_waiting (Some (pid t)) ep) ∧
          ∃ i t', tasks (self s) !! i = Some (Some t) ∧ tasks (self s') !! i = Some (Some t') ∧
            sleeps_on (IpcRecv e) (mem (hw s)) (mem (hw s')) t t'
    | IpcError => s' = s ∧ ∀ ep, endpoint_at (self s) e = Some ep → owner ep ≠ pid t
    | Continue => in_user s' t ∧
        ∃ ep m q, endpoint_at (self s) e = Some ep ∧ owner ep = pid t ∧
          queue_list (pending ep) = m :: queue_list q ∧
          self s' = with_endpoint e (set_pending q) (self s) ∧
          has_message (mem (hw s')) t (sender m) (words m)
    end.
Proof.
  intros Hk Hu. pose proof (ipc_recv_wp e s t Hk Hu) as H.
  apply wp_Done in H as (r & s' & E & H). exists r, s'. split; [done|].
  destruct r as [|fp|].
  - destruct H as (? & ? & ep & m & q & ? & ? & ? & ? & _ & ?). split; [done|]. split; [done|].
    by exists ep, m, q.
  - destruct H as ([? ?] & H). done.
  - split; [by destruct H as [-> _]|done].
Qed.
Lemma ipc_recv_correct_witness :
  ∃ s t r s', ipc_recv 2 (trap_frame t) s = Done (r, s') ∧ kernel_ok s' ∧
    match r with
    | Blocked fp => current_is (self s') (λ u, trap_frame u = fp) ∧
        ∃ ep, endpoint_at (self s) 2 = Some ep ∧ owner ep = pid t ∧ queue_list (pending ep) = [] ∧
          endpoint_at (self s') 2 = Some (set_waiting (Some (pid t)) ep) ∧
          ∃ i t', tasks (self s) !! i = Some (Some t) ∧ tasks (self s') !! i = Some (Some t') ∧
            sleeps_on (IpcRecv 2) (mem (hw s)) (mem (hw s')) t t'
    | IpcError => s' = s ∧ ∀ ep, endpoint_at (self s) 2 = Some ep → owner ep ≠ pid t
    | Continue => in_user s' t ∧
        ∃ ep m q, endpoint_at (self s) 2 = Some ep ∧ owner ep = pid t ∧
          queue_list (pending ep) = m :: queue_list q ∧
          self s' = with_endpoint 2 (set_pending q) (self s) ∧
          has_message (mem (hw s')) t (sender m) (words m)
    end.
Proof.
  destruct demo_kernel as (s & t & Hk & Hu & _). exists s, t.
  exact (ipc_recv_correct 2 s t Hk Hu).
Defined.

(** [C18] [ipc_reply].  A reply reaches a task only if that task is asleep in a call to
    an endpoint the replier owns; then exactly that task is woken, with the four words
    in [a0]-[a3], and the replier stays current.  Otherwise it is an error and nothing
    changes: no task can wake, or write into the registers of, a task that did not call it. *)
Theorem ipc_reply_correct client ws s :
  kernel_ok s →
  ∃ r s', ipc_reply client ws s = Done (r, s') ∧ kernel_ok s' ∧
    match r with
    | Ok _ => current_pid (self s') = current_pid (self s) ∧
        ∃ i c, reply_slot (self s) client i c ∧ state c = Sleeping ∧
          self s' = woken i (self s) ∧ hw s' = set_mem (reply_mem (trap_frame c) ws) (hw s)
    | Err => s' = s ∧ ∀ i c, reply_slot (self s) client i c → state c ≠ Sleeping
    end.
Proof.
  intros Hk. pose proof (ipc_reply_wp client ws s Hk) as H.
  apply wp_Done in H as (r & s' & E & H). exists r, s'. split; [done|].
  destruct r as [[]|]; [by destruct H|]. split; [by destruct H as [-> _]|done].
Qed.
Lemma ipc_reply_correct_witness :
  ∃ s r s', ipc_reply 1 [1; 2; 3; 4] s = Done (r, s') ∧ kernel_ok s' ∧
    match r with
    | Ok _ => current_pid (self s') = current_pid (self s) ∧
        ∃ i c, reply_slot (self s) 1 i c ∧ state c = Sleeping ∧
          self s' = woken i (self s) ∧ hw s' = set_mem (reply_mem (trap_frame c) [1; 2; 3; 4]) (hw s)
    | Err => s' = s ∧ ∀ i c, reply_slot (self s) 1 i c → state c ≠ Sleeping
    end.
Proof.
  destruct demo_kernel as (s & t & Hk & _). exists s. exact (ipc_reply_correct 1 [1; 2; 3; 4] s Hk).
Defined.

(** ** Processes *)

(** [C22] [waitpid].  It succeeds only on a zombie child of the caller: its slot is emptied, its
    exit code returned, and the pages it owned, exactly these, are free again.  If the child lives,
    the caller sleeps on it with its registers saved; if there is no such child, it is an error
    and nothing changes. *)
Theorem waitpid_correct p s t :
  kernel_ok s → in_user s t →
  ∃ r s', waitpid p (trap_frame t) s = Done (r, s') ∧ kernel_ok s' ∧
    match r with
    | Reaped code => in_user s' t ∧
        ∃ i c, tasks (self s) !! i = Some (Some c) ∧ pid c = p ∧ parent_pid c = Some (pid t) ∧
          state c = Zombie ∧ code = exit_code c ∧
          self s' = set_tasks (<[i := None]>) (self s) ∧
          ∀ b, is_alloc (hw s') b ↔ is_alloc (hw s) b ∧ ¬ owns (mem (hw s)) c b
    | WaitBlocked fp => current_is (self s') (λ u, trap_frame u = fp) ∧
        (∃ j c, tasks (self s) !! j = Some (Some c) ∧ pid c = p ∧ parent_pid c = Some (pid t) ∧
          state c ≠ Zombie) ∧
        ∃ i t', tasks (self s) !! i = Some (Some t) ∧ tasks (self s') !! i = Some (Some t') ∧
          sleeps_on (Child p) (mem (hw s)) (mem (hw s')) t t'
    | WaitError => s' = s ∧
        ∀ j c, tasks (self s) !! j = Some (Some c) → pid c = p → parent_pid c ≠ Some (pid t)
    end.
Proof.
  intros Hk Hu. pose proof (waitpid_wp p s t Hk Hu) as H.
  apply wp_Done in H as (r & s' & E & H). exists r, s'. split; [done|].
  destruct r as [code|fp|]; [by destruct H| |].
  - destruct H as ([? ?] & H). done.
  - split; [by destruct H as [-> _]|done].
Qed.
Lemma waitpid_correct_witness :
  ∃ s t r s', waitpid 7 (trap_frame t) s = Done (r, s') ∧ kernel_ok s' ∧
    match r with
    | Reaped code => in_user s' t ∧
        ∃ i c, tasks (self s) !! i = Some (Some c) ∧ pid c = 7 ∧ parent_pid c = Some (pid t) ∧
          state c = Zombie ∧ code = exit_code c ∧
          self s' = set_tasks (<[i := None]>) (self s) ∧
          ∀ b, is_alloc (hw s') b ↔ is_alloc (hw s) b ∧ ¬ owns (mem (hw s)) c b
    | WaitBlocked fp => current_is (self s') (λ u, trap_frame u = fp) ∧
        (∃ j c, tasks (self s) !! j = Some (Some c) ∧ pid c = 7 ∧ parent_pid c = Some (pid t) ∧
          state c ≠ Zombie) ∧
        ∃ i t', tasks (self s) !! i = Some (Some t) ∧ tasks (self s') !! i = Some (Some t') ∧
          sleeps_on (Child 7) (mem (hw s)) (mem (hw s')) t t'
    | WaitError => s' = s ∧
        ∀ j c, tasks (self s) !! j = Some (Some c) → pid c = 7 → parent_pid c ≠ Some (pid t)
    end.
Proof.
  destruct demo_kernel as (s & t & Hk & Hu & _). exists s, t. exact (waitpid_correct 7 s t Hk Hu).
Defined.

(** [C24] [exit_current] never leaves the machine without a task: called by any user task it
    returns (no panic) the frame of another task, which now runs, with the kernel
    invariant; the caller is a zombie that carries the exit code.  Its parent is told: a parent
    asleep in [waitpid] on the caller can run again with the exit code in [a0], and the zombie
    has no parent any more (the scheduler reaps it); any other parent keeps the zombie as its
    child, to be reaped by a later [waitpid]. *)
Theorem exit_current_correct code s t i :
  kernel_ok s → in_user s t → current_index (self s) = Some i →
  ∃ fp s' z, exit_current code s = Done (Some fp, s') ∧ kernel_ok s' ∧
    current_is (self s') (λ u, trap_frame u = fp) ∧
    tasks (self s') !! i = Some (Some z) ∧ state z = Zombie ∧ exit_code z = code ∧ pid z = pid t ∧
    (∀ j u, i ≠ j → tasks (self s) !! j = Some (Some u) → parent_pid t = Some (pid u) →
       parent_told code (pid t) i j u s') ∧
    endpoints (self s') = endpoints (self s).
Proof.
  intros Hk Hu Hi. pose proof (exit_current_wp code s t i Hk Hu Hi) as H.
  apply wp_Done in H as (o & s' & E & fp & z & -> & [? ?] & Hz). by exists fp, s', z.
Qed.
Lemma exit_current_correct_witness :
  ∃ s t i fp s' z, exit_current 42 s = Done (Some fp, s') ∧ kernel_ok s' ∧
    current_is (self s') (λ u, trap_frame u = fp) ∧
    tasks (self s') !! i = Some (Some z) ∧ state z = Zombie ∧ exit_code z = 42 ∧ pid z = pid t ∧
    (∀ j u, i ≠ j → tasks (self s) !! j = Some (Some u) → parent_pid t = Some (pid u) →
       parent_told 42 (pid t) i j u s') ∧
    endpoints (self s') = endpoints (self s).
Proof.
  destruct demo_kernel as (s & t & Hk & Hu & _). destruct Hu as (i & Hi & Hrest). exists s, t, i.
  refine (exit_current_correct 42 s t i Hk _ Hi). exists i. exact (conj Hi Hrest).
Defined.
