(* ===== verification/BufferContracts.v ===== *)
(** The contracts of the buffer calls: what a client sends with [ipc_call_buf] is what the
    server gets from [ipc_recv_buf], and [ipc_reply_buf] carries bytes back.  The witnesses
    run a call of the client of [Demo], 64 bytes of its stack, up to the server's turn. *)

From S2P Require Import Prelude Arch Page Memory Machine Pgtable Vm Trap Ipc Task Space Sched Inv IpcFacts ProcFacts Create Build Buffers BufferCalls Demo Contracts.

(** ** The server's turn *)

Section turn.
Implicit Types (s : tsys) (m : TaskManager) (t : Task).

(** A task that alone is ready, besides idle, is the one that runs. *)
Lemma only_ready_runs m m' fp j t :
  tm_core m → tm_core m' → scheduled m m' fp → tasks m !! j = Some (Some t) → state t = Ready → pid t ≠ IDLE_PID →
  (∀ i u, tasks m !! i = Some (Some u) → i ≠ j → pid u = IDLE_PID ∨ state u = Sleeping) →
  current_index m' = Some j ∧ tasks m' !! j = Some (Some (set_state Running t)) ∧
  ∀ i u, i ≠ j → tasks m !! i = Some (Some u) → state u = Sleeping → tasks m' !! i = Some (Some u).
Proof.
  intros Hc Hc' (i & u & Hnext & Hu & Hst & _ & ->) Ht Hs Hp Hothers.
  pose proof (ready_slot_runnable m j t Hc Ht Hs Hp) as Hr.
  assert (j < NTASKS)%nat as Hj by (rewrite <- (tm_len _ Hc); by eapply lookup_lt_Some).
  assert (i = j) as ->.
  { unfold next_slot in Hnext. destruct (rr_pick _ _) as [k|] eqn:E; [|by rewrite (rr_pick_None _ _ E j Hj) in Hr].
    injection Hnext as <-. destruct (rr_pick_Some _ _ _ E) as [(v & Hv & Hsv & Hpv)%slot_runnable_task _].
    destruct (decide (k = j)) as [|Hne]; [done|]. destruct (settled_Some m k v Hc Hv) as (w & Hw & ->).
    destruct (Hothers k w Hw Hne) as [Hi|Hi].
    - by rewrite yield_pid in Hpv.
    - rewrite (yield_sleeping w Hi) in Hsv. congruence. }
  rewrite (settled_live m j t Hc Ht) in Hu by (by rewrite Hs).
  assert (yield_task t = t) as E by (unfold yield_task; by rewrite bool_decide_false by (by rewrite Hs)).
  rewrite E in Hu. injection Hu as <-.
  destruct (dispatched_current _ j t Hc') as [H1 H2].
  { cbn. by rewrite (settled_live m j t Hc Ht), E by (by rewrite Hs). }
  split; [done|]. split; [done|]. intros k v Hne Hv Hsl. cbn. rewrite alter_lookup_other by done.
  by rewrite (settled_live m k v Hc Hv), (yield_sleeping v Hsl) by (by rewrite Hsl).
Qed.
End turn.

(** ** The demo's call *)

Definition DEMO_WORDS : list Z := [10; 20; 30; 40].
(** The client with its buffer in a5 and a6: 64 bytes at the bottom of its stack page. *)
Definition with_buffer (t : Task) (s : tsys) : tsys :=
  mkTsys (self s) (set_mem (λ m, store64 (store64 m (trap_frame t +' off_a5) STACK_VA) (trap_frame t +' off_a6) 64) (hw s)).

(** The client [c], before the call [t], waits for its reply and the server [u] is in user mode. *)
Record demo_called (s : tsys) (t : Task) (s1 : tsys) (u c : Task) : Prop := {
  dc_ok : kernel_ok s;
  dc_user : in_user s t;
  dc_pid : pid t = 2;
  dc_endpoint : ∃ ep, endpoint_at (self s) 1 = Some ep ∧ owner ep = 1 ∧ queue_list (pending ep) = [] ∧ waiting_receiver ep = None;
  dc_call : ∃ fp, ipc_call_buf 1 DEMO_WORDS STACK_VA 64 (trap_frame t) s = Done (Blocked fp, s1);
  dc_ok' : kernel_ok s1;
  dc_server : in_user s1 u;
  dc_server_pid : pid u = 1;
  dc_client : (reply_slot (self s1) 2 2 c ∧ waiting_for c = Some (IpcCall 1)) ∧ state c = Sleeping;
  dc_buffer : reply_addr (hw s1) c = STACK_VA ∧ reply_room (hw s1) c 64 = 64;
}.

Section call.
Implicit Types (s : tsys) (t : Task).

Lemma stack_range n : n ≤ PAGE_SIZE → user_range STACK_VA n.
Proof.
  intros Hn k Hk. unfold PAGE_SIZE in *. change STACK_VA with 0x3ffff000. split; [lia|].
  rewrite <- kernel_va_page, (proj1 (page_of_range 0x3ffff000 (0x3ffff000 + k) eq_refl)); [apply kernel_va_stack|].
  unfold PAGE_SIZE. lia.
Qed.
Lemma stack_byte h t k : demo_space h t → 0 ≤ k < PAGE_SIZE → is_Some (user_byte (mem h) t (STACK_VA + k)).
Proof.
  intros Hd Hk. destruct (stack_range PAGE_SIZE (Z.le_refl _) k Hk) as [Hv _]. unfold user_byte, translate.
  assert (pt_lookup (mem h) (pagetable t) (STACK_VA + k) = pt_lookup (mem h) (pagetable t) STACK_VA) as ->.
  { rewrite <- page_of_lookup by done. f_equal. apply page_of_range; [done|]. lia. }
  rewrite (dsp_entry _ _ Hd). by eexists.
Qed.
Lemma with_buffer_facts s t :
  demo_state s t → let s' := with_buffer t s in
  kernel_ok s' ∧ in_user s' t ∧
  (∀ k, 0 ≤ k < PAGE_SIZE → is_Some (user_byte (mem (hw s')) t (STACK_VA + k))) ∧
  tf_a5 (frame_at (mem (hw s')) (trap_frame t)) = STACK_VA ∧ tf_a6 (frame_at (mem (hw s')) (trap_frame t)) = 64.
Proof.
  intros [Hk Hu _ _ _ _ _ _ Hd _ _ _] s'. pose proof Hu as (i & Hi & Ht & _). pose proof Hk as [Htm Hsp].
  pose proof (space_layout _ _ (spaces_task _ _ Hsp i t Ht)) as Hl.
  assert (∀ m a, ¬ in_page (kernel_stack t) a →
    load64 (store64 (store64 m (trap_frame t +' off_a5) STACK_VA) (trap_frame t +' off_a6) 64) a = load64 m a) as Hout.
  { intros m a Ha. by rewrite !(field_store_out t) by (done || by vm_compute). }
  split; [|split; [|split]].
  - split; [exact Htm|]. apply (spaces_ok_frame_write _ _ i t); [done|done|]. intros m a _. apply Hout.
  - exact Hu.
  - intros k Hkb. destruct (stack_range PAGE_SIZE (Z.le_refl _) k Hkb) as [Hv Hkv].
    rewrite (stack_write_byte (hw s) (hw s') (tasks (self s)) i t i t); [by apply stack_byte|done..| |done|done|done].
    intros a. apply Hout.
  - destruct (frame_field t off_a5 Hl ltac:(by vm_compute)) as [E5 _], (frame_field t off_a6 Hl ltac:(by vm_compute)) as [E6 _].
    unfold s', with_buffer. cbn [hw mem set_mem frame_at tf_a5 tf_a6]. rewrite E5, E6. unfold off_a5, off_a6. split.
    + rewrite load64_store64_ne by lia. by rewrite load64_store64_eq.
    + by rewrite load64_store64_eq.
Qed.

(** The call is queued, and the server runs. *)
Lemma demo_called_from s0 t : demo_state s0 t → ∃ s1 u c, demo_called (with_buffer t s0) t s1 u c.
Proof.
  intros Hd. destruct (with_buffer_facts s0 t Hd) as (Hk & Hu & Hbytes & H5 & H6).
  destruct Hd as [_ _ Hpid _ _ _ _ _ _ (ep & Hep & Ho & Hq & Hb & Hw) (t0 & t1 & Ht & Hp0 & Hp1 & Hs0 & Hs1) _].
  set (s := with_buffer t s0) in *.
  pose proof (ipc_call_buf_wp 1 DEMO_WORDS STACK_VA 64 s t Hk Hu ltac:(done)) as H.
  apply wp_Done in H as (r & s1 & E & H). change (endpoint_at (self s) 1 = Some ep) in Hep.
  change (tasks (self s) = Some t0 :: Some t1 :: Some t :: replicate 13 None) in Ht.
  destruct r as [|fp|]; [done| |].
  2: { exfalso. destruct H as (_ & _ & _ & _ & Hr). unfold buf_call_refused in Hr. rewrite Hep in Hr.
       destruct Hr as [Hr|[Hr|[[Hr _]|[Hr|(k & Hk' & Hr)]]]]; [congruence| |congruence|done|].
       - destruct Hk as [[Hm _] _]. destruct (tm_endpoint _ Hm 1 ep Hep) as [Hok _].
         rewrite is_full_spec, Hq in Hr by apply Hok. done.
       - rewrite (user_range_add STACK_VA 64 k (stack_range 64 ltac:(done)) Hk') in Hr.
         destruct (Hbytes k) as [b Hb']; [unfold PAGE_SIZE; lia|]. congruence. }
  destruct H as ([Hk1 Hcur] & ep' & bs & Hep' & _ & _ & _ & _ & _ & _ & (i & c & Hi & Hc & Hsleep) & Hd).
  assert (ep' = ep) as -> by congruence. unfold buf_call_delivered in Hd.
  rewrite bool_decide_false in Hd by (rewrite Hw; done).
  destruct Hd as (ep1 & i' & fp' & Hi' & Hsch & Hep1 & Ho1 & _).
  pose proof Hu as (i2 & Hi2 & Ht2 & _). assert (i' = i2) as -> by congruence.
  assert (i = i2) as -> by (by apply (tm_pids _ (ok_mid _ (k_tm _ Hk)) i i2 t t)).
  assert (i2 = 2%nat) as ->.
  { apply (tm_pids _ (ok_mid _ (k_tm _ Hk)) i2 2%nat t t); [done|by rewrite Ht|done]. }
  set (m := with_endpoint 1 (λ _, ep1) (blocked 2 (IpcCall 1) (self s))) in *.
  assert (tm_core m) as Hcm.
  { apply tm_core_with, blocked_core with t; [apply Hk|done|..]; destruct Hu as (j & Hj & Hj' & _ & Hr & Hn).
    - congruence.
    - done. }
  assert (tasks m = Some t0 :: Some t1 :: Some (sleep_task (IpcCall 1) t) :: replicate 13 None) as Htm
    by (change (alter (fmap (sleep_task (IpcCall 1))) 2%nat (tasks (self s)) = Some t0 :: Some t1 :: Some (sleep_task (IpcCall 1) t) :: replicate 13 None); by rewrite Ht).
  destruct (only_ready_runs m (self s1) fp' 1%nat t1) as (Hci & Ht1 & Hkeep); [done|apply Hk1|done|by rewrite Htm|done|by rewrite Hp1| |].
  { intros j v Hj Hne. rewrite Htm in Hj. destruct j as [|[|[|j]]]; [|done| |].
    - injection Hj as <-. left. by rewrite Hp0.
    - injection Hj as <-. by right.
    - exfalso. change (replicate 13 (@None Task) !! j = Some (Some v)) in Hj. apply lookup_replicate in Hj as [? _]. done. }
  assert (Some (Some c) = Some (Some (sleep_task (IpcCall 1) t))) as Ec.
  { rewrite <- Hc. apply (Hkeep 2%nat); [done|by rewrite Htm|done]. }
  injection Ec as ->. exists s1, (set_state Running t1), (sleep_task (IpcCall 1) t).
  assert (in_user s1 (set_state Running t1)) as Hu1.
  { apply (in_user_intro s1 1%nat); [done|done|done|]. change (pid t1 ≠ IDLE_PID). by rewrite Hp1. }
  destruct Hsleep as (_ & _ & _ & _ & Hfr).
  split; [done|done|done|by exists ep|by exists fp|done|done|done| |].
  - split; [|done]. split; [|done]. split; [done|]. split; [done|]. exists 1, ep1. split; [done|]. split; [done|].
    destruct Hu1 as (j & _ & _ & -> & _). rewrite Ho1, Ho. exact (f_equal Some Hp1).
  - unfold reply_addr, reply_room. cbn [sleep_task set_waiting_for set_state trap_frame]. by rewrite Hfr, H5, H6.
Qed.
Lemma demo_call : ∃ s t s1 u c, demo_called s t s1 u c.
Proof.
  destruct demo_kernel_state as (s0 & t & Hd). destruct (demo_called_from s0 t Hd) as (s1 & u & c & H).
  by exists (with_buffer t s0), t, s1, u, c.
Qed.
End call.

(** ** The contracts *)

(** [C19] [ipc_call_buf].  A user task that calls endpoint [e] with [len] bytes at [ub] either gets
    an error for one of the reasons of [buf_call_refused] (among them: another buffered message
    is queued, the buffer is too long, a byte is not mapped), no task and no memory having changed,
    or it sleeps on the endpoint with its registers saved, another task runs, and neither message
    nor bytes are lost: a waiting owner finds the message in [a0]-[a4] and, if it waits in
    [ipc_recv_buf], the bytes in its buffer and their number in [a5]; otherwise the message is the
    last one in the queue and the bytes are in the endpoint.  The kernel invariant holds afterwards. *)
Theorem ipc_call_buf_correct e ws ub len s t :
  kernel_ok s → in_user s t → 0 ≤ len →
  ∃ r s', ipc_call_buf e ws ub len (trap_frame t) s = Done (r, s') ∧ kernel_ok s' ∧
    match r with
    | Blocked fp => current_is (self s') (λ u, trap_frame u = fp) ∧
        ∃ ep bs, endpoint_at (self s) e = Some ep ∧ ¬ buf_call_refused e ub len s t ∧
          Z.of_nat (length bs) = len ∧ user_bytes (mem (hw s)) t ub bs ∧
          caller_asleep e s t s' ∧ buf_call_delivered e (pid t) ws bs ep s s'
    | IpcError => in_user s' t ∧ tasks (self s') = tasks (self s) ∧ hw s' = hw s ∧ buf_call_refused e ub len s t
    | Continue => False
    end.
Proof.
  intros Hk Hu Hlen. pose proof (ipc_call_buf_wp e ws ub len s t Hk Hu Hlen) as H.
  apply wp_Done in H as (r & s' & E & H). exists r, s'. split; [done|].
  destruct r as [|fp|]; [done| |by destruct H as (? & H)].
  destruct H as ([? ?] & ep & bs & Hep & Hne & Hfull & Hbuf & Hmax & Hl & Hb & Hrest). split; [done|]. split; [done|].
  exists ep, bs. split; [done|]. split; [|done].
  unfold buf_call_refused. rewrite Hep. intros [?|[?|[[? Hn]|[?|(k & Hk' & Hnone)]]]]; [done|congruence| |lia|].
  - by apply Hn, Hbuf.
  - destruct (lookup_lt_is_Some_2 bs (Z.to_nat k)) as [b E']; [lia|]. specialize (Hb _ _ E').
    rewrite Z2Nat.id in Hb by lia. congruence.
Qed.
Lemma ipc_call_buf_correct_witness :
  ∃ s t fp s', ipc_call_buf 1 DEMO_WORDS STACK_VA 64 (trap_frame t) s = Done (Blocked fp, s') ∧ kernel_ok s' ∧
    ∃ bs, Z.of_nat (length bs) = 64 ∧ user_bytes (mem (hw s)) t STACK_VA bs.
Proof.
  destruct demo_call as (s & t & s1 & u & c & [Hk Hu _ _ (fp & Hcall) _ _ _ _ _]). exists s, t, fp, s1.
  split; [exact Hcall|].
  destruct (ipc_call_buf_correct 1 DEMO_WORDS STACK_VA 64 s t Hk Hu) as (r & s' & E & Hk' & H); [lia|].
  rewrite Hcall in E. injection E as <- <-. split; [exact Hk'|].
  destruct H as (_ & ep & bs & _ & _ & Hl & Hb & _). by exists bs.
Defined.

(** [C20] Buffers arrive.  When a client's [ipc_call_buf] was queued on an endpoint with an empty
    queue, then at any later time when the endpoint is still as the call left it, [ipc_recv_buf]
    of its owner returns the client's PID and words in [a0]-[a4], and in the owner's buffer, byte
    for byte, what the client's buffer held at the call, as many bytes as the owner has room
    for, with their number in [a5]; only if a page of the owner's buffer is not mapped [a5] is 0. *)
Theorem buffer_arrives e ws ub len s t ep fp s1 va cap s2 u :
  kernel_ok s → in_user s t → 0 ≤ len →
  endpoint_at (self s) e = Some ep → queue_list (pending ep) = [] → waiting_receiver ep = None →
  ipc_call_buf e ws ub len (trap_frame t) s = Done (Blocked fp, s1) →
  kernel_ok s2 → in_user s2 u → pid u = owner ep → endpoint_at (self s2) e = endpoint_at (self s1) e →
  0 ≤ cap → user_range va (Z.min cap IPC_BUF_SIZE) →
  ∃ s3, ipc_recv_buf e va cap (trap_frame u) s2 = Done (Continue, s3) ∧ kernel_ok s3 ∧ in_user s3 u ∧
    has_message (mem (hw s3)) u (pid t) ws ∧
    let n := Z.min len cap in let a5 := tf_a5 (frame_at (mem (hw s3)) (trap_frame u)) in
    (a5 = n ∧ ∀ k, 0 ≤ k < n → user_byte (mem (hw s3)) u (va + k) = user_byte (mem (hw s)) t (ub +' k)) ∨
    (a5 = 0 ∧ ∃ k, 0 ≤ k < n ∧ user_byte (mem (hw s3)) u (va + k) = None).
Proof.
  intros Hk Hu Hlen Hep Hq Hw Hcall Hk2 Hu2 Hpid Hsame Hcap Hr.
  pose proof (ipc_call_buf_wp e ws ub len s t Hk Hu Hlen) as H. unfold wp in H. rewrite Hcall in H.
  destruct H as (_ & ep0 & bs & E0 & _ & _ & _ & Hmax & Hl & Hb & _ & Hd).
  assert (ep0 = ep) as -> by congruence. clear E0. unfold buf_call_delivered in Hd.
  rewrite bool_decide_false in Hd by (rewrite Hw; done).
  destruct Hd as (ep1 & _ & _ & _ & _ & Hep1 & Ho1 & Hq1 & Hc1 & _). rewrite Hq, Hl in Hq1. cbn [app] in Hq1.
  pose proof (ipc_recv_buf_wp e va cap s2 u Hk2 Hu2 Hcap Hr) as H. apply wp_Done in H as (r & s3 & E & H).
  rewrite Hsame in H. destruct r as [|fp'|].
  - destruct H as (Hk3 & Hu3 & ep2 & msg & q & Hep2 & _ & Hq2 & _ & Hmsg & Hput).
    assert (ep2 = ep1) as -> by congruence. rewrite Hq1 in Hq2. injection Hq2 as <- _. cbn [sender words buf_len] in *.
    exists s3. do 4 (split; [done|]). destruct Hput as [[E5 Hbytes]|?]; [left|by right]. split; [done|].
    intros k Hkn. rewrite Hbytes by done. destruct (lookup_lt_is_Some_2 bs (Z.to_nat k)) as [b Eb]; [lia|].
    pose proof (Hb _ _ Eb) as Hbk. rewrite Z2Nat.id in Hbk by lia. rewrite Hbk.
    rewrite <- Hc1, lookup_take_lt in Eb by lia. rewrite Eb. cbn.
    unfold user_byte in Hbk. apply fmap_Some in Hbk as (pa & _ & ->). by rewrite load8_byte.
  - exfalso. destruct H as (_ & ep2 & Hep2 & _ & He & _). assert (ep2 = ep1) as -> by congruence. by rewrite Hq1 in He.
  - exfalso. destruct H as [_ H]. apply (H ep1 Hep1). congruence.
Qed.
Lemma buffer_arrives_witness :
  ∃ s t s1 u s3, ipc_recv_buf 1 STACK_VA 16 (trap_frame u) s1 = Done (Continue, s3) ∧
    has_message (mem (hw s3)) u (pid t) DEMO_WORDS ∧
    let a5 := tf_a5 (frame_at (mem (hw s3)) (trap_frame u)) in
    (a5 = 16 ∧ ∀ k, 0 ≤ k < 16 → user_byte (mem (hw s3)) u (STACK_VA + k) = user_byte (mem (hw s)) t (STACK_VA +' k)) ∨
    (a5 = 0 ∧ ∃ k, 0 ≤ k < 16 ∧ user_byte (mem (hw s3)) u (STACK_VA + k) = None).
Proof.
  destruct demo_call as (s & t & s1 & u & c & [Hk Hu _ (ep & Hep & Ho & Hq & Hw) (fp & Hcall) Hk1 Hu1 Hp1 _ _]).
  exists s, t, s1, u.
  destruct (buffer_arrives 1 DEMO_WORDS STACK_VA 64 s t ep fp s1 STACK_VA 16 s1 u) as (s3 & E & _ & _ & Hmsg & H);
    [exact Hk|exact Hu|lia|exact Hep|exact Hq|exact Hw|exact Hcall|exact Hk1|exact Hu1|congruence|reflexivity|lia| |].
  - apply stack_range. vm_compute. discriminate.
  - exists s3. split; [exact E|]. split; [exact Hmsg|exact H].
Defined.

(** [C21] [ipc_reply_buf].  If the buffers are in user memory, a reply reaches only a task asleep in
    a call to an endpoint of the replier: exactly that task is woken, with the words in [a0]-[a3],
    the number of bytes in [a5], and the replier's bytes in the buffer its saved registers name.
    It fails when there is no such task, changing nothing, or when a byte of one of the two
    buffers is not mapped: then the client stays asleep.  The kernel invariant holds afterwards. *)
Theorem ipc_reply_buf_correct client ws ub len s t :
  kernel_ok s → in_user s t →
  (∀ i c, reply_slot (self s) client i c → state c = Sleeping →
     user_range ub (reply_room (hw s) c len) ∧ user_range (reply_addr (hw s) c) (reply_room (hw s) c len)) →
  ∃ r s', ipc_reply_buf client ws ub len s = Done (r, s') ∧ kernel_ok s' ∧ in_user s' t ∧
    match r with
    | Ok _ => ∃ i c, reply_slot (self s) client i c ∧ state c = Sleeping ∧ self s' = woken i (self s) ∧
        reply_done s s' t c ws ub len
    | Err => self s' = self s ∧
        (s' = s ∧ (∀ i c, reply_slot (self s) client i c → state c ≠ Sleeping) ∨
         ∃ i c k, reply_slot (self s) client i c ∧ state c = Sleeping ∧ 0 ≤ k < reply_room (hw s) c len ∧
           (user_byte (mem (hw s)) t (ub + k) = None ∨ user_byte (mem (hw s)) c (reply_addr (hw s) c + k) = None))
    end.
Proof.
  intros Hk Hu Hr. pose proof (ipc_reply_buf_wp client ws ub len s t Hk Hu Hr) as H.
  apply wp_Done in H as (r & s' & E & H). by exists r, s'.
Qed.
(** The server answers the demo's client. *)
Lemma ipc_reply_buf_correct_witness :
  ∃ s u c r s', reply_slot (self s) 2 2 c ∧ state c = Sleeping ∧ reply_room (hw s) c 64 = 64 ∧
    ipc_reply_buf 2 [1; 2; 3; 4] STACK_VA 64 s = Done (r, s') ∧ kernel_ok s' ∧
    (r = Ok tt → self s' = woken 2 (self s) ∧ reply_done s s' u c [1; 2; 3; 4] STACK_VA 64).
Proof.
  destruct demo_call as (s0 & t & s & u & c & [_ _ _ _ _ Hk Hu _ ((Hc & _) & Hs) (Ha & Hroom)]). exists s, u, c.
  assert (∀ i c', reply_slot (self s) 2 i c' → i = 2%nat ∧ c' = c) as Hone.
  { destruct Hc as (Ht & Hp & _). intros i c' (Ht' & Hp' & _).
    assert (i = 2%nat) as -> by (apply (tm_pids _ (ok_mid _ (k_tm _ Hk)) i 2%nat c' c); [exact Ht'|exact Ht|congruence]).
    split; [reflexivity|congruence]. }
  destruct (ipc_reply_buf_correct 2 [1; 2; 3; 4] STACK_VA 64 s u Hk Hu) as (r & s' & E & Hk' & _ & H).
  - intros i c' Hc' _. destruct (Hone i c' Hc') as [_ ->]. rewrite Ha, Hroom.
    split; apply stack_range; vm_compute; discriminate.
  - exists r, s'. split; [exact Hc|]. split; [exact Hs|]. split; [exact Hroom|]. split; [exact E|]. split; [exact Hk'|].
    intros ->. destruct H as (i & c' & Hc' & _ & Hw & Hd). destruct (Hone i c' Hc') as [-> ->]. by split.
Defined.
