(* ===== verification/UserContracts.v ===== *)
(** What user programs can rely on: what they can access is their own, and the calls that build
    or change an address space ([fork], [sbrk]) do what they promise.  The proofs apply
    [Space], [Fork] and [Heap]; the witnesses run on the kernel of [Demo]. *)

From S2P Require Import Prelude Arch Page Memory Machine Pgtable Vm Trap Ipc Task Space Sched Inv IpcFacts Create Build Fork Heap Demo.

(** ** Isolation *)

(** User code of task [t] can access physical page [b] through address [va]. *)
Definition user_access (m : memory) (t : Task) (va b : Z) : Prop :=
  0 ≤ va < 2 ^ 39 ∧ ∃ pte, pt_lookup m (pagetable t) va = Some pte ∧ user_bit pte = true ∧ pte_to_pa pte = b.

Section isolation.
Implicit Types (s : tsys) (t u : Task) (m : memory).

(** An access hits the UART or a page of the task's own. *)
Lemma user_access_own m t va b :
  user_ok m t → user_access m t va b → b = UART_PAGE ∨ user_va t (page_of va) ∧ maps m t (page_of va) b.
Proof.
  intros Hu (Hva & pte & Hl & Hb & <-). destruct (user_only _ _ Hu va pte Hva Hl (or_intror Hb)) as [H|[_ ?]]; [right|by left].
  split; [done|]. unfold maps. by rewrite page_of_lookup, Hl.
Qed.
Lemma demo_access s i t :
  kernel_ok s → tasks (self s) !! i = Some (Some t) → demo_space (hw s) t →
  user_access (mem (hw s)) t STACK_VA (user_stack t).
Proof.
  intros [_ Hsp] Ht [_ He _ _]. split; [by vm_compute|]. eexists. split; [exact He|].
  destruct (lay_stack _ (space_layout _ _ (spaces_task _ _ Hsp i t Ht))) as [Ha Hb].
  split; [|by apply pte_to_pa_of]. unfold user_bit.
  by rewrite land_low_pa_to_pte by (vm_compute; split; congruence).
Qed.
(** Such a page is allocated, is part of no page table and no kernel stack, and nobody else reaches it. *)
Lemma user_access_apart s i t va b :
  kernel_ok s → tasks (self s) !! i = Some (Some t) → user_access (mem (hw s)) t va b →
  b = UART_PAGE ∨
  is_alloc (hw s) b ∧
  ∀ j u, tasks (self s) !! j = Some (Some u) →
    ¬ is_table (mem (hw s)) (pagetable u) b ∧ kernel_stack u ≠ b ∧
    ∀ va', user_access (mem (hw s)) u va' b → j = i ∧ page_of va' = page_of va.
Proof.
  intros [_ Hsp] Ht Ha. pose proof (space_user _ _ (spaces_task _ _ Hsp i t Ht)) as Hut.
  destruct (user_access_own _ _ _ _ Hut Ha) as [?|[Hva Hm]]; [by left|].
  destruct (decide (b = UART_PAGE)) as [?|Hne]; [by left|right].
  pose proof (user_va_owned _ _ _ _ Hut Hva Hm) as Ho.
  split; [by apply (spaces_alloc _ _ Hsp i t)|]. intros j u Hu.
  assert (∀ b', owns (mem (hw s)) u b' → b' = b → j = i ∧ u = t) as Hsame.
  { intros b' Hb' ->. assert (j = i) as -> by by apply (spaces_disjoint _ _ Hsp j i u t b).
    split; [done|]. congruence. }
  split; [|split].
  - intros Htab. destruct (Hsame b) as [_ ->]; [left; by left|done|]. by apply (user_apart _ _ Hut _ _ Hva Hm).
  - intros E. destruct (Hsame (kernel_stack u)) as [_ ->]; [by right|done|]. subst b.
    by apply (spaces_apart _ _ Hsp i t (page_of va)).
  - intros va' Ha'. pose proof (space_user _ _ (spaces_task _ _ Hsp j u Hu)) as Huu.
    destruct (user_access_own _ _ _ _ Huu Ha') as [?|[Hva' Hm']]; [done|].
    destruct (Hsame b) as [-> ->]; [by eapply user_va_owned|done|]. split; [done|].
    by apply (user_inj _ _ Hut _ _ b).
Qed.
End isolation.

(** ** [fork] *)

Section forking.
(** Nothing but the stack is copied of a demo program. *)
Lemma demo_forkable m t :
  image_base t = 0x10000 ∧ image_size t = 0 ∧ heap_base t = 0x10000 ∧ heap_end t = 0x10000 →
  forkable m t ∧ fork_count t = 0.
Proof.
  intros (H1 & H2 & H3 & H4).
  assert (image_lo t = 0x10000 ∧ image_hi t = 0x10000 ∧ heap_hi t = 0x10000) as (E1 & E2 & E3).
  { unfold image_lo, image_hi, heap_hi. rewrite H1, H2, H4. by vm_compute. }
  split; [split|].
  - by rewrite E2, H3.
  - intros va [Hva _]. rewrite E3, H3 in Hva. lia.
  - unfold fork_count. by rewrite E1, E2, E3, H3.
Qed.
End forking.

(** [C23] [fork] duplicates the caller.  With a fresh PID it either gives the parent the
    child's PID, with every page of the image, the heap and the stack copied into fresh pages at
    the same addresses with the same permissions, the parent's registers in the child's frame but
    for 0 in [a0], the child ready in the first free slot, nothing else of the parent and of
    the other tasks changed, and exactly the child's pages newly allocated; or it fails and
    changes no task.  It fails only when the table is full, the heap is not entirely mapped
    above the image, or fewer than 29 pages and 3 per page copied are free. *)
Theorem fork_correct s t kpt :
  let p := next_pid (self s) in
  kernel_ok s → in_user s t → KERNEL_PAGETABLE (hw s) = Some kpt →
  p ≠ IDLE_PID → task_index (tasks (self s)) p = None →
  ∃ r s', fork (trap_frame t) s = Done (r, s') ∧ kernel_ok s' ∧ in_user s' t ∧
    match r with
    | Ok q => q = p ∧ ∃ c, fork_done s s' t c p
    | Err => fork_failed s s' ∧ ¬ (is_Some (position is_none (tasks (self s))) ∧
        forkable (mem (hw s)) t ∧ 29 + 3 * fork_count t ≤ free_count (hw s))
    end.
Proof.
  intros p Hk Hu Hkpt Hp Hnew. pose proof (fork_wp s t kpt Hk Hu Hkpt Hp Hnew) as H.
  apply wp_Done in H as (r & s' & E & H). by exists r, s'.
Qed.
(** The demo's client forks, and does get a child. *)
Lemma fork_correct_witness :
  ∃ s t s' c, fork (trap_frame t) s = Done (Ok 3, s') ∧ kernel_ok s' ∧ fork_done s s' t c 3.
Proof.
  destruct demo_kernel_state as (s & t & [Hk Hu _ Hroot Hnext Hfresh Hslot Hfree Hsp _ _ _]). exists s, t.
  assert (next_pid (self s) ≠ IDLE_PID) as Hp by (rewrite Hnext; discriminate).
  assert (task_index (tasks (self s)) (next_pid (self s)) = None) as Hnew by (rewrite Hnext; exact Hfresh).
  destruct (fork_correct s t demo_root Hk Hu Hroot Hp Hnew) as (r & s' & E & Hk' & _ & Hr).
  destruct r as [q|].
  - destruct Hr as [-> [c Hd]]. rewrite Hnext in E, Hd. exists s', c. split; [exact E|]. by split.
  - destruct Hr as [_ Hn]. exfalso. apply Hn. split; [rewrite Hslot; by exists 3%nat|].
    destruct (demo_forkable (mem (hw s)) t) as [Hf Hc]; [apply Hsp|]. split; [exact Hf|]. rewrite Hc. lia.
Defined.

(** ** [sbrk] *)

Section growing.
(** Two pages can be added to the demo client's heap. *)
Lemma demo_sbrk_grows s s' t :
  demo_space (hw s) t → 1800 ≤ free_count (hw s) → ¬ sbrk_failed s s' t (0x10000 + 8192).
Proof.
  intros [(_ & _ & Hb & He) _ _ Hn] Hf.
  assert (heap_hi t = 0x10000 ∧ heap_hi (set_heap_end (0x10000 + 8192) t) = 0x12000) as [E1 E2].
  { unfold heap_hi. cbn [set_heap_end heap_end heap_base]. by rewrite He. }
  intros [_ Hr|lo hi -> -> _ _ Hm|lo mid -> Hr _ _].
  - rewrite Hb in Hr. apply Hr. by vm_compute.
  - rewrite E1, E2 in Hm. apply Hm. split; [|etransitivity; [|exact Hf]; by vm_compute].
    intros va [Hva Hva']. apply Hn; [lia| |].
    + destruct (kernel_va va) eqn:E; [|done]. apply kernel_va_limit in E. unfold USER_LIMIT in E. lia.
    + rewrite page_of_aligned by done. unfold STACK_VA, USER_STACK_TOP, PAGE_SIZE. lia.
  - rewrite E1, E2 in Hr. lia.
Qed.
End growing.

(** [C25] [sbrk] moves the end of the caller's heap.  On success it returns the old end; growing
    maps a fresh zeroed page, readable and writable from user mode, at every page between
    the two ends, shrinking unmaps and releases exactly the pages between them, all other
    mappings and all contents stay, and the heap ends at or below 0x0c000000, where the
    kernel's mappings begin.  On failure the manager is unchanged and at most page tables are
    added to the machine (a partial growth is undone) or a hole of the heap was reached; it fails only
    when the new end leaves [heap_base, HEAP_LIMIT], when a page of the range is mapped, when
    three pages per page of growth are not free, or at a hole. *)
Theorem sbrk_correct s t inc :
  kernel_ok s → in_user s t →
  ∃ r s', sbrk inc s = Done (r, s') ∧ kernel_ok s' ∧
    match r with
    | Ok old => old = heap_end t ∧ in_user s' (set_heap_end (heap_end t + inc) t) ∧
        sbrk_done s s' t (heap_end t + inc)
    | Err => in_user s' t ∧ self s' = self s ∧ sbrk_failed s s' t (heap_end t + inc)
    end.
Proof.
  intros Hk Hu. pose proof (sbrk_wp s t inc Hk Hu) as H.
  apply wp_Done in H as (r & s' & E & H). by exists r, s'.
Qed.
(** The demo's client grows its empty heap by two pages. *)
Lemma sbrk_correct_witness :
  ∃ s t s', sbrk 8192 s = Done (Ok 0x10000, s') ∧ kernel_ok s' ∧ sbrk_done s s' t 0x12000.
Proof.
  destruct demo_kernel_state as (s & t & [Hk Hu _ _ _ _ _ Hfree Hsp _ _ _]). exists s, t.
  destruct (sbrk_correct s t 8192 Hk Hu) as (r & s' & E & Hk' & Hr).
  pose proof (dsp_layout _ _ Hsp) as (_ & _ & Hb & He). rewrite He in Hr.
  destruct r as [old|].
  - destruct Hr as (-> & _ & Hd). exists s'. split; [exact E|]. by split.
  - destruct Hr as (_ & _ & Hf). exfalso. exact (demo_sbrk_grows s s' t Hsp Hfree Hf).
Defined.
