(* ===== verification/Initrd.v ===== *)
(** The embedded archive of user programs: the newc CPIO reader of
    [src/src/kernel/initrd.rs] and the writer in [src/build.rs].

    Bytes are integers in [0, 256); a [&str] is its UTF-8 bytes.  [initrd_init] is
    [initrd::init] on the archive the linker embeds (the bytes between its two
    symbols); its loop has fuel, and [initrd_init_total] shows the fuel is enough. *)

From S2P Require Import Prelude.

Definition HEADER_SIZE : Z := 110.
Definition MAX_FILES : Z := 16.

Record Entry : Type := mkEntry { name : list Z; data : list Z }.
#[export] Instance Entry_eq_dec : EqDecision Entry.
Proof. solve_decision. Defined.

(** ["070701"], ["TRAILER!!!"] and ["."]. *)
Definition MAGIC : list Z := [48; 55; 48; 55; 48; 49].
Definition TRAILER : list Z := [84; 82; 65; 73; 76; 69; 82; 33; 33; 33].
Definition DOT : list Z := [46].

Definition hex_digit (byte : Z) : option Z :=
  if (48 <=? byte) && (byte <=? 57) then Some (byte - 48)
  else if (97 <=? byte) && (byte <=? 102) then Some (byte - 97 + 10)
  else if (65 <=? byte) && (byte <=? 70) then Some (byte - 65 + 10)
  else None.
Fixpoint hex_from (value : Z) (bytes : list Z) : option Z :=
  match bytes with
  | [] => Some value
  | byte :: bytes =>
      value ← checked_mul value 16;
      d ← hex_digit byte;
      value ← checked_add value d;
      hex_from value bytes
  end.
Definition hex (bytes : list Z) : option Z := hex_from 0 bytes.

(** [(value + 3) & !3]. *)
Definition align4 (value : Z) : Z := Z.land (value +' 3) (not64 3).

(** [core::str::from_utf8(b).is_ok()]: the well-formed byte sequences of Unicode's
    table 3-7. *)
Definition in_rng (lo hi b : Z) : bool := (lo <=? b) && (b <=? hi).
Fixpoint utf8_ok (bs : list Z) : bool :=
  match bs with
  | [] => true
  | b0 :: bs0 =>
      if in_rng 0x00 0x7F b0 then utf8_ok bs0
      else match bs0 with
      | [] => false
      | b1 :: bs1 =>
          if in_rng 0xC2 0xDF b0 then in_rng 0x80 0xBF b1 && utf8_ok bs1
          else match bs1 with
          | [] => false
          | b2 :: bs2 =>
              let second3 :=
                if b0 =? 0xE0 then in_rng 0xA0 0xBF b1
                else if b0 =? 0xED then in_rng 0x80 0x9F b1
                else in_rng 0xE1 0xEF b0 && in_rng 0x80 0xBF b1 in
              if in_rng 0xE0 0xEF b0 then second3 && in_rng 0x80 0xBF b2 && utf8_ok bs2
              else match bs2 with
              | [] => false
              | b3 :: bs3 =>
                  let second4 :=
                    if b0 =? 0xF0 then in_rng 0x90 0xBF b1
                    else if b0 =? 0xF4 then in_rng 0x80 0x8F b1
                    else in_rng 0xF1 0xF3 b0 && in_rng 0x80 0xBF b1 in
                  second4 && in_rng 0x80 0xBF b2 && in_rng 0x80 0xBF b3 && utf8_ok bs3
              end
          end
      end
  end.

(** [&bytes[lo..hi]], which panics out of bounds. *)
Definition slice (bytes : list Z) (lo hi : Z) : option (list Z) :=
  if (lo <=? hi) && (hi <=? Z.of_nat (length bytes))
  then Some (take (Z.to_nat (hi - lo)) (drop (Z.to_nat lo) bytes)) else None.

(** The globals [FILES] and [FILE_COUNT]. *)
Record initrd : Type := mkInitrd { FILES : list (option Entry); FILE_COUNT : Z }.
Definition initrd_empty : initrd := mkInitrd (replicate (Z.to_nat MAX_FILES) None) 0.

(** Where one iteration of the loop goes: on to the next header, or out of the loop. *)
Inductive next : Type := Stop | Next (pos : Z) (entry : Entry) | Crash.

(** One iteration, at [pos]. *)
Definition read_entry (archive : list Z) (pos : Z) : next :=
  let len := Z.of_nat (length archive) in
  match slice archive pos (pos + HEADER_SIZE) with
  | None => Crash
  | Some header =>
      match slice header 0 6, slice header 94 102, slice header 54 62 with
      | Some magic, Some nameb, Some fileb =>
          if negb (bool_decide (magic = MAGIC)) then Stop
          else match hex nameb with
          | None => Stop
          | Some namesize =>
              match hex fileb with
              | None => Stop
              | Some filesize =>
                  let name_start := pos + HEADER_SIZE in
                  match checked_add name_start namesize with
                  | None => Stop
                  | Some name_end =>
                      if (namesize =? 0) || (len <? name_end) then Stop
                      else match slice archive name_start (name_end - 1) with
                      | None => Crash
                      | Some name =>
                          if negb (utf8_ok name) then Stop
                          else if bool_decide (name = TRAILER) then Stop
                          else
                            let data_start := align4 name_end in
                            match checked_add data_start filesize with
                            | None => Stop
                            | Some data_end =>
                                if len <? data_end then Stop
                                else match slice archive data_start data_end with
                                | None => Crash
                                | Some data => Next (align4 data_end) (mkEntry name data)
                                end
                            end
                      end
                  end
              end
          end
      | _, _, _ => Crash
      end
  end.

(** The [while] loop: [pos.checked_add(HEADER_SIZE).is_some_and(|end| end <= len)]. *)
Fixpoint initrd_loop (fuel : nat) (archive : list Z) (pos : Z) (st : initrd) : outcome initrd :=
  match fuel with
  | O => Diverge
  | S fuel =>
      match checked_add pos HEADER_SIZE with
      | None => Done st
      | Some end_ =>
          if end_ <=? Z.of_nat (length archive) then
            match read_entry archive pos with
            | Crash => Panic
            | Stop => Done st
            | Next pos' e =>
                let st' :=
                  if (FILE_COUNT st <? MAX_FILES) && negb (bool_decide (name e = DOT)) then
                    mkInitrd (<[Z.to_nat (FILE_COUNT st) := Some e]> (FILES st)) (FILE_COUNT st + 1)
                  else st in
                initrd_loop fuel archive pos' st'
            end
          else Done st
      end
  end.
(** Each iteration consumes a header of 110 bytes. *)
Definition INITRD_FUEL (archive : list Z) : nat :=
  Z.to_nat (Z.of_nat (length archive) / HEADER_SIZE + 1).
Definition initrd_init (archive : list Z) : outcome initrd :=
  initrd_loop (INITRD_FUEL archive) archive 0 initrd_empty.

(** [initrd::find]. *)
Definition initrd_find (st : initrd) (nm : list Z) : option (list Z) :=
  e ← head (filter (λ e, name e = nm) (omap id (take (Z.to_nat (FILE_COUNT st)) (FILES st))));
  Some (data e).

(** ** The writer, [append_newc_entry] and the archive loop of [build.rs] *)

Definition hex_char (d : Z) : Z := if d <? 10 then 48 + d else 97 + (d - 10).
(** The [k] low hexadecimal digits of [n], the most significant first. *)
Fixpoint hex_digits (k : nat) (n : Z) : list Z :=
  match k with
  | O => []
  | S k => hex_digits k (n / 16) ++ [hex_char (n mod 16)]
  end.
(** [{:08x}]. *)
Definition fmt_08x (n : Z) : list Z := hex_digits (Nat.max 8 (Z.to_nat (Z.log2 n / 4 + 1))) n.

Definition newc_header (ino filesize namesize : Z) : list Z :=
  MAGIC ++ fmt_08x ino ++ fmt_08x 0x81ED ++ fmt_08x 0 ++ fmt_08x 0 ++ fmt_08x 1 ++ fmt_08x 0 ++
  fmt_08x filesize ++ fmt_08x 0 ++ fmt_08x 0 ++ fmt_08x 0 ++ fmt_08x 0 ++ fmt_08x namesize ++
  fmt_08x 0.
(** [while archive.len() % 4 != 0 { archive.push(0) }]. *)
Definition pad4 (archive : list Z) : list Z :=
  archive ++ replicate (Z.to_nat ((- Z.of_nat (length archive)) mod 4)) 0.
Definition append_newc_entry (archive nm dat : list Z) (ino : Z) : outcome (list Z) :=
  let namesize := Z.of_nat (length nm) + 1 in
  let header := newc_header ino (Z.of_nat (length dat)) namesize in
  if bool_decide (length header = 110%nat) then
    Done (pad4 (pad4 (archive ++ header ++ nm ++ [0]) ++ dat))
  else Panic.
Fixpoint append_all (archive : list Z) (index : Z) (files : list Entry) : outcome (list Z) :=
  match files with
  | [] => append_newc_entry archive TRAILER [] (u32 (index + 1))
  | e :: files =>
      match append_newc_entry archive (name e) (data e) (u32 (index + 1)) with
      | Done archive => append_all archive (index + 1) files
      | Panic => Panic
      | Diverge => Diverge
      end
  end.
Definition build_archive (files : list Entry) : outcome (list Z) := append_all [] 0 files.

Section reader.
Implicit Types (a b c bs : list Z) (n v : Z).

(** [x & !(2^k - 1)] rounds down to a multiple of [2^k]. *)
Lemma align4_spec v : 0 ≤ v < 2 ^ 64 - 4 → align4 v = v + (- v) mod 4.
Proof.
  intros Hv. unfold align4, u64. rewrite Z.mod_small by lia.
  assert (Z.land (v + 3) (not64 3) = (v + 3) - (v + 3) mod 4) as ->.
  { assert (not64 3 = Z.ldiff (Z.ones 64) (Z.ones 2)) as -> by reflexivity.
    transitivity (Z.ldiff (v + 3) (Z.ones 2)).
    - apply Z.bits_inj'. intros i Hi. rewrite Z.land_spec, !Z.ldiff_spec.
      destruct (decide (i < 64)).
      + by rewrite (Z.ones_spec_low 64) by lia.
      + by rewrite (bits_above 64 (v + 3)) by lia.
    - rewrite Z.ldiff_ones_r by lia. rewrite Z.shiftr_div_pow2, Z.shiftl_mul_pow2 by lia.
      change (2 ^ 2) with 4. pose proof (Z.div_mod (v + 3) 4). lia. }
  pose proof (Z.mod_pos_bound (v + 3) 4). pose proof (Z.mod_pos_bound (- v) 4).
  pose proof (Z.div_mod (v + 3) 4). pose proof (Z.div_mod (- v) 4). lia.
Qed.

Lemma slice_app a b c :
  slice (a ++ b ++ c) (Z.of_nat (length a)) (Z.of_nat (length a) + Z.of_nat (length b)) = Some b.
Proof.
  unfold slice. rewrite !length_app.
  assert ((Z.of_nat (length a) <=? Z.of_nat (length a) + Z.of_nat (length b)) &&
    (Z.of_nat (length a) + Z.of_nat (length b) <=? Z.of_nat (length a + (length b + length c))) = true)
    as -> by (apply andb_true_intro; split; apply Z.leb_le; lia).
  rewrite Nat2Z.id, drop_app_length. f_equal.
  replace (Z.to_nat _) with (length b) by lia. by rewrite take_app_length.
Qed.
Lemma slice_Some bs lo hi :
  0 ≤ lo ≤ hi → hi ≤ Z.of_nat (length bs) →
  ∃ xs, slice bs lo hi = Some xs ∧ Z.of_nat (length xs) = hi - lo.
Proof.
  intros H1 H2. unfold slice.
  assert ((lo <=? hi) && (hi <=? Z.of_nat (length bs)) = true) as ->
    by (apply andb_true_intro; split; apply Z.leb_le; lia).
  eexists. split; [done|]. rewrite length_take, length_drop. lia.
Qed.

Lemma hex_from_bound v bs w : 0 ≤ v → hex_from v bs = Some w → 0 ≤ w < 2 ^ 64 ∨ (bs = [] ∧ w = v).
Proof.
  revert v. induction bs as [|x bs IH]; intros v Hv; cbn [hex_from]; [intros [= ->]; by right|].
  unfold checked_mul. destruct (v * 16 <? 2 ^ 64); [|done]. cbn [mbind option_bind].
  destruct (hex_digit x) as [d|] eqn:Ed; [|done]. cbn [mbind option_bind].
  assert (0 ≤ d) as Hd.
  { unfold hex_digit in Ed. repeat case_match; simplify_eq; lia. }
  unfold checked_add. destruct (v * 16 + d <? 2 ^ 64) eqn:Eb; [|done]. cbn [mbind option_bind].
  intros H. apply IH in H; [|lia]. left. destruct H as [H|[_ ->]]; lia.
Qed.
Lemma hex_bound bs w : hex bs = Some w → 0 ≤ w < 2 ^ 64.
Proof. intros H. apply hex_from_bound in H; [|lia]. destruct H as [H|[_ ->]]; lia. Qed.

(** An iteration inside the archive never reads out of bounds, and moves on. *)
Lemma read_entry_safe archive pos :
  Z.of_nat (length archive) < 2 ^ 62 → 0 ≤ pos → pos + HEADER_SIZE ≤ Z.of_nat (length archive) →
  match read_entry archive pos with
  | Crash => False
  | Stop => True
  | Next pos' _ => pos + HEADER_SIZE < pos' < 2 ^ 63
  end.
Proof.
  intros Hlen Hpos Hend. unfold read_entry, HEADER_SIZE in *.
  destruct (slice_Some archive pos (pos + 110)) as (header & -> & Hh); [lia|lia|].
  destruct (slice_Some header 0 6) as (magic & -> & _); [lia|lia|].
  destruct (slice_Some header 94 102) as (nameb & -> & _); [lia|lia|].
  destruct (slice_Some header 54 62) as (fileb & -> & _); [lia|lia|].
  destruct (negb _); [done|].
  destruct (hex nameb) as [namesize|] eqn:En; [|done]. apply hex_bound in En.
  destruct (hex fileb) as [filesize|] eqn:Ef; [|done]. apply hex_bound in Ef.
  unfold checked_add. destruct (Z.ltb_spec (pos + 110 + namesize) (2 ^ 64)) as [E1|]; [|done].
  destruct (_ || _) eqn:E2; [done|]. apply orb_false_elim in E2 as [E2 E2'].
  apply Z.eqb_neq in E2. apply Z.ltb_ge in E2'.
  destruct (slice_Some archive (pos + 110) (pos + 110 + namesize - 1)) as (nm & -> & _); [lia|lia|].
  destruct (negb _); [done|]. destruct (bool_decide _); [done|].
  assert (0 ≤ (- (pos + 110 + namesize)) mod 4 < 4) as Hm1 by (apply Z.mod_pos_bound; lia).
  rewrite (align4_spec (pos + 110 + namesize)) by lia.
  set (ds := pos + 110 + namesize + (- (pos + 110 + namesize)) mod 4) in *.
  destruct (Z.ltb_spec (ds + filesize) (2 ^ 64)) as [E3|]; [|done].
  destruct (Z.ltb_spec (Z.of_nat (length archive)) (ds + filesize)) as [|E4]; [done|].
  destruct (slice_Some archive ds (ds + filesize)) as (dat & -> & _); [lia|lia|].
  rewrite (align4_spec (ds + filesize)) by lia.
  pose proof (Z.mod_pos_bound (- (ds + filesize)) 4 ltac:(lia)). lia.
Qed.

(** The file table: [FILE_COUNT] entries, the rest empty. *)
Definition initrd_wf (st : initrd) : Prop :=
  ∃ es, Z.of_nat (length es) ≤ MAX_FILES ∧ FILE_COUNT st = Z.of_nat (length es) ∧
    FILES st = (Some <$> es) ++ replicate (Z.to_nat MAX_FILES - length es) None.
Definition initrd_entries (st : initrd) : list Entry :=
  omap id (take (Z.to_nat (FILE_COUNT st)) (FILES st)).

Lemma initrd_entries_of es :
  Z.of_nat (length es) ≤ MAX_FILES →
  initrd_entries (mkInitrd ((Some <$> es) ++ replicate (Z.to_nat MAX_FILES - length es) None)
    (Z.of_nat (length es))) = es.
Proof.
  intros H. unfold initrd_entries. cbn [FILE_COUNT FILES]. rewrite Nat2Z.id.
  rewrite take_app_le by (rewrite length_fmap; lia). rewrite take_ge by (rewrite length_fmap; lia).
  clear H. induction es as [|e es IH]; [done|]. cbn. by f_equal.
Qed.
Lemma initrd_wf_add st e :
  initrd_wf st → FILE_COUNT st < MAX_FILES →
  let st' := mkInitrd (<[Z.to_nat (FILE_COUNT st) := Some e]> (FILES st)) (FILE_COUNT st + 1) in
  initrd_wf st' ∧ initrd_entries st' = initrd_entries st ++ [e].
Proof.
  intros (es & Hle & Hc & Hf) Hlt st'.
  assert (st' = mkInitrd ((Some <$> (es ++ [e])) ++
            replicate (Z.to_nat MAX_FILES - length (es ++ [e])) None)
            (Z.of_nat (length (es ++ [e])))) as E.
  { unfold st'. rewrite Hc, Hf. f_equal; [|rewrite length_app; cbn; lia].
    rewrite Nat2Z.id, insert_app_r_alt by (by rewrite length_fmap).
    rewrite fmap_app, <- (assoc_L (++)), length_fmap, length_app. f_equal.
    cbn [length]. unfold MAX_FILES in *.
    replace (Z.to_nat 16 - length es)%nat with (S (Z.to_nat 16 - (length es + 1)))%nat by lia.
    rewrite Nat.sub_diag. done. }
  assert (Z.of_nat (length (es ++ [e])) ≤ MAX_FILES) by (rewrite length_app; cbn; lia).
  split.
  - exists (es ++ [e]). rewrite E. done.
  - rewrite E, initrd_entries_of by done.
    assert (st = mkInitrd ((Some <$> es) ++ replicate (Z.to_nat MAX_FILES - length es) None)
              (Z.of_nat (length es))) as -> by (destruct st; cbn in *; congruence).
    by rewrite initrd_entries_of.
Qed.
Lemma initrd_wf_empty : initrd_wf initrd_empty ∧ initrd_entries initrd_empty = [].
Proof. split; [by exists []|done]. Qed.

(** An archive whose length fits in the address space is read to its end, or to the
    first header it cannot use: no panic, and the fuel suffices. *)
Lemma initrd_loop_total fuel archive pos st :
  Z.of_nat (length archive) < 2 ^ 62 → 0 ≤ pos < 2 ^ 63 → initrd_wf st → (0 < fuel)%nat →
  Z.of_nat (length archive) - pos < Z.of_nat fuel * HEADER_SIZE →
  ∃ st', initrd_loop fuel archive pos st = Done st' ∧ initrd_wf st'.
Proof.
  intros Hlen. revert pos st. induction fuel as [|fuel IH]; intros pos st Hpos Hwf Hf0 Hfuel; [lia|].
  cbn [initrd_loop]. unfold checked_add.
  assert ((pos + HEADER_SIZE <? 2 ^ 64) = true) as -> by (apply Z.ltb_lt; unfold HEADER_SIZE; lia).
  destruct (pos + HEADER_SIZE <=? _) eqn:Ee; [|by exists st]. apply Z.leb_le in Ee.
  pose proof (read_entry_safe archive pos Hlen ltac:(lia) Ee) as Hr.
  destruct (read_entry archive pos) as [|pos' e|]; [by exists st| |done].
  unfold HEADER_SIZE in *. apply IH; [lia| |lia|lia].
  destruct (FILE_COUNT st <? MAX_FILES) eqn:Ec; [|done]. apply Z.ltb_lt in Ec.
  destruct (negb _); [|done]. cbn [andb]. by apply initrd_wf_add.
Qed.

(** *** The writer's hexadecimal fields *)

Lemma hex_from_app v a b : hex_from v (a ++ b) = (w ← hex_from v a; hex_from w b).
Proof.
  revert v. induction a as [|x a IH]; intros v; [done|]. cbn [app hex_from].
  destruct (checked_mul v 16); [|done]. cbn [mbind option_bind].
  destruct (hex_digit x); [|done]. cbn [mbind option_bind].
  destruct (checked_add _ _); [|done]. cbn [mbind option_bind]. apply IH.
Qed.
Lemma hex_char_digit d : 0 ≤ d < 16 → hex_digit (hex_char d) = Some d.
Proof.
  intros H. unfold hex_char, hex_digit. destruct (Z.ltb_spec d 10).
  - assert ((48 <=? 48 + d) && (48 + d <=? 57) = true) as ->
      by (apply andb_true_intro; split; apply Z.leb_le; lia). f_equal. lia.
  - assert ((48 <=? 97 + (d - 10)) && (97 + (d - 10) <=? 57) = false) as ->
      by (apply andb_false_intro2, Z.leb_gt; lia).
    assert ((97 <=? 97 + (d - 10)) && (97 + (d - 10) <=? 102) = true) as ->
      by (apply andb_true_intro; split; apply Z.leb_le; lia). f_equal. lia.
Qed.
Lemma hex_from_digits k v n :
  0 ≤ v → 0 ≤ n < 16 ^ Z.of_nat k → v * 16 ^ Z.of_nat k + n < 2 ^ 64 →
  hex_from v (hex_digits k n) = Some (v * 16 ^ Z.of_nat k + n).
Proof.
  revert n. induction k as [|k IH]; intros n Hv Hn Hb.
  - cbn in *. f_equal. lia.
  - rewrite Nat2Z.inj_succ, Z.pow_succ_r in * by lia.
    pose proof (Z.div_mod n 16 ltac:(lia)). pose proof (Z.mod_pos_bound n 16 ltac:(lia)).
    assert (0 < 16 ^ Z.of_nat k) by (apply Z.pow_pos_nonneg; lia).
    assert (0 ≤ n / 16 < 16 ^ Z.of_nat k)
      by (split; [apply Z.div_pos; lia|apply Z.div_lt_upper_bound; lia]).
    set (p := 16 ^ Z.of_nat k) in *.
    assert (0 ≤ v * p) by (apply Z.mul_nonneg_nonneg; lia).
    assert (v * (16 * p) = 16 * (v * p)) by ring.
    cbn [hex_digits]. rewrite hex_from_app, IH by lia.
    cbn [mbind option_bind hex_from]. unfold checked_mul, checked_add.
    destruct (Z.ltb_spec ((v * p + n / 16) * 16) (2 ^ 64)); [|lia].
    cbn [mbind option_bind]. rewrite hex_char_digit by lia. cbn [mbind option_bind].
    destruct (Z.ltb_spec ((v * p + n / 16) * 16 + n mod 16) (2 ^ 64)); [|lia].
    cbn [mbind option_bind]. f_equal. lia.
Qed.
Lemma length_hex_digits k n : length (hex_digits k n) = k.
Proof.
  revert n. induction k as [|k IH]; intros n; [done|]. cbn. rewrite length_app, IH. cbn. lia.
Qed.
Lemma fmt_ge n : (8 ≤ length (fmt_08x n))%nat.
Proof. unfold fmt_08x. rewrite length_hex_digits. lia. Qed.
(** A field printed with [{:08x}] that is eight characters long parses back. *)
Lemma hex_fmt n : 0 ≤ n → length (fmt_08x n) = 8%nat → hex (fmt_08x n) = Some n ∧ n < 2 ^ 32.
Proof.
  intros Hn. unfold fmt_08x. rewrite length_hex_digits. intros H. rewrite H.
  assert (n < 2 ^ 32).
  { destruct (decide (n = 0)) as [->|]; [lia|]. apply Z.log2_lt_cancel.
    change (Z.log2 (2 ^ 32)) with 32.
    pose proof (Z.div_mod (Z.log2 n) 4 ltac:(lia)).
    pose proof (Z.mod_pos_bound (Z.log2 n) 4 ltac:(lia)). lia. }
  split; [|done]. unfold hex. rewrite hex_from_digits; [f_equal|..]; change (Z.of_nat 8) with 8; lia.
Qed.
Lemma fmt_small n : 0 ≤ n < 2 ^ 32 → length (fmt_08x n) = 8%nat.
Proof.
  intros H. unfold fmt_08x. rewrite length_hex_digits.
  assert (Z.log2 n < 32).
  { destruct (decide (n = 0)) as [->|]; [cbn; lia|]. apply Z.log2_lt_pow2; lia. }
  pose proof (Z.log2_nonneg n). pose proof (Z.div_lt_upper_bound (Z.log2 n) 4 8). lia.
Qed.


Lemma Done_inj (x y : list Z) : Done x = Done y → x = y.
Proof. by intros [= ->]. Qed.
Lemma length_pad4 a : Z.of_nat (length (pad4 a)) = Z.of_nat (length a) + (- Z.of_nat (length a)) mod 4.
Proof.
  unfold pad4. rewrite length_app, length_replicate.
  pose proof (Z.mod_pos_bound (- Z.of_nat (length a)) 4). lia.
Qed.
Lemma pad4_prefix a : ∃ z, pad4 a = a ++ z.
Proof. by eexists. Qed.

(** A 110-byte header: its three fields the reader uses. *)
Lemma newc_header_slices ino fs ns :
  length (newc_header ino fs ns) = 110%nat →
  slice (newc_header ino fs ns) 0 6 = Some MAGIC ∧
  slice (newc_header ino fs ns) 54 62 = Some (fmt_08x fs) ∧
  slice (newc_header ino fs ns) 94 102 = Some (fmt_08x ns) ∧
  length (fmt_08x fs) = 8%nat ∧ length (fmt_08x ns) = 8%nat.
Proof.
  unfold newc_header. rewrite !length_app. change (length MAGIC) with 6%nat.
  pose proof (fmt_ge ino). pose proof (fmt_ge fs). pose proof (fmt_ge ns).
  assert (length (fmt_08x 0) = 8%nat) as E0 by reflexivity.
  assert (length (fmt_08x 1) = 8%nat) as E1 by reflexivity.
  assert (length (fmt_08x 0x81ED) = 8%nat) as Em by reflexivity.
  rewrite E0, E1, Em. intros Hlen.
  assert (length (fmt_08x ino) = 8%nat) as Hi by lia.
  assert (length (fmt_08x fs) = 8%nat) as Hf by lia.
  assert (length (fmt_08x ns) = 8%nat) as Hn by lia.
  revert E0 E1 Em Hi Hf Hn. clear.
  generalize (fmt_08x 0) (fmt_08x 1) (fmt_08x 0x81ED) (fmt_08x ino) (fmt_08x fs) (fmt_08x ns).
  intros z o m i f n Hz Ho Hm Hi Hf Hn.
  split_and!; [| | |done|done].
  - exact (slice_app [] MAGIC _).
  - pose proof (slice_app (MAGIC ++ i ++ m ++ z ++ z ++ o ++ z) f
      (z ++ z ++ z ++ z ++ n ++ z)) as H.
    rewrite !length_app, Hi, Hm, Hz, Ho, Hf in H. rewrite <- !(assoc_L (++)) in H. exact H.
  - pose proof (slice_app (MAGIC ++ i ++ m ++ z ++ z ++ o ++ z ++ f ++ z ++ z ++ z ++ z) n z) as H.
    rewrite !length_app, Hi, Hm, Hz, Ho, Hf, Hn in H. rewrite <- !(assoc_L (++)) in H. exact H.
Qed.

Lemma append_newc_entry_prefix acc nm dat ino acc' :
  append_newc_entry acc nm dat ino = Done acc' → ∃ z, acc' = acc ++ z.
Proof.
  unfold append_newc_entry. case_bool_decide; [|done]. intros <-%Done_inj.
  unfold pad4 at 1. unfold pad4. rewrite <- !(assoc_L (++)). by eexists.
Qed.

(** What the reader makes of an entry the writer appended. *)
Lemma read_entry_appended acc nm dat ino acc' rest :
  append_newc_entry acc nm dat ino = Done acc' →
  Z.of_nat (length (acc' ++ rest)) < 2 ^ 62 → utf8_ok nm = true →
  Z.of_nat (length acc) + HEADER_SIZE ≤ Z.of_nat (length (acc' ++ rest)) ∧
  read_entry (acc' ++ rest) (Z.of_nat (length acc)) =
    if bool_decide (nm = TRAILER) then Stop else Next (Z.of_nat (length acc')) (mkEntry nm dat).
Proof.
  unfold append_newc_entry. case_bool_decide as Hh; [|done]. intros <-%Done_inj Hlen Hu.
  set (ns := Z.of_nat (length nm) + 1) in *. set (fs := Z.of_nat (length dat)) in *.
  destruct (newc_header_slices ino fs ns Hh) as (Hmagic & Hfile & Hname & Hf8 & Hn8).
  set (header := newc_header ino fs ns) in *.
  set (A1 := acc ++ header ++ nm ++ [0]) in *. set (A2 := pad4 A1) in *. set (A4 := pad4 (A2 ++ dat)) in *.
  destruct (pad4_prefix A1) as [z1 HA2]. destruct (pad4_prefix (A2 ++ dat)) as [z2 HA4].
  assert (A4 ++ rest = acc ++ header ++ (nm ++ [0] ++ z1 ++ dat ++ z2 ++ rest)) as E1.
  { unfold A4. rewrite HA4. unfold A2. rewrite HA2. unfold A1. by rewrite <- !(assoc_L (++)). }
  assert (A4 ++ rest = (acc ++ header) ++ nm ++ ([0] ++ z1 ++ dat ++ z2 ++ rest)) as E2.
  { rewrite E1. by rewrite <- !(assoc_L (++)). }
  assert (A4 ++ rest = A2 ++ dat ++ (z2 ++ rest)) as E3.
  { unfold A4. rewrite HA4. by rewrite <- !(assoc_L (++)). }
  assert (Z.of_nat (length A1) = Z.of_nat (length acc) + 110 + ns) as L1.
  { unfold A1. rewrite !length_app, Hh. cbn [length]. lia. }
  assert (Z.of_nat (length A2) = Z.of_nat (length A1) + (- Z.of_nat (length A1)) mod 4) as L2
    by apply length_pad4.
  assert (Z.of_nat (length A4) = Z.of_nat (length A2) + fs + (- (Z.of_nat (length A2) + fs)) mod 4) as L4.
  { unfold A4. rewrite length_pad4, length_app, Nat2Z.inj_add. done. }
  pose proof (Z.mod_pos_bound (- Z.of_nat (length A1)) 4 ltac:(lia)).
  pose proof (Z.mod_pos_bound (- (Z.of_nat (length A2) + fs)) 4 ltac:(lia)).
  assert (Z.of_nat (length (A4 ++ rest)) = Z.of_nat (length A4) + Z.of_nat (length rest)) as L5
    by (rewrite length_app; lia).
  assert (1 ≤ ns) by lia. assert (0 ≤ fs) by lia.
  split; [unfold HEADER_SIZE; lia|].
  unfold read_entry, HEADER_SIZE.
  pose proof (slice_app acc header (nm ++ [0] ++ z1 ++ dat ++ z2 ++ rest)) as S1.
  rewrite Hh, <- E1 in S1. change (Z.of_nat 110) with 110 in S1. rewrite S1, Hmagic, Hname, Hfile.
  rewrite bool_decide_eq_true_2 by done. cbn [negb].
  destruct (hex_fmt ns) as [-> ?]; [lia|done|]. destruct (hex_fmt fs) as [-> ?]; [lia|done|].
  unfold checked_add. destruct (Z.ltb_spec (Z.of_nat (length acc) + 110 + ns) (2 ^ 64)); [|lia].
  rewrite <- L1. destruct (Z.eqb_spec ns 0); [lia|]. cbn [orb].
  destruct (Z.ltb_spec (Z.of_nat (length (A4 ++ rest))) (Z.of_nat (length A1))); [lia|].
  pose proof (slice_app (acc ++ header) nm ([0] ++ z1 ++ dat ++ z2 ++ rest)) as S2.
  rewrite <- E2, length_app, Hh in S2.
  replace (Z.of_nat (length A1) - 1) with
    (Z.of_nat (length acc + 110) + Z.of_nat (length nm)) by lia.
  replace (Z.of_nat (length acc) + 110) with (Z.of_nat (length acc + 110)) by lia.
  rewrite S2, Hu. cbn [negb]. case_bool_decide; [done|].
  assert (align4 (Z.of_nat (length A1)) = Z.of_nat (length A2)) as -> by (rewrite align4_spec by lia; lia).
  destruct (Z.ltb_spec (Z.of_nat (length A2) + fs) (2 ^ 64)); [|lia].
  destruct (Z.ltb_spec (Z.of_nat (length (A4 ++ rest))) (Z.of_nat (length A2) + fs)); [lia|].
  pose proof (slice_app A2 dat (z2 ++ rest)) as S3. rewrite <- E3 in S3. fold fs in S3. rewrite S3.
  do 2 f_equal. rewrite align4_spec by lia. lia.
Qed.

(** The entries the reader keeps. *)
Definition kept_files (files : list Entry) : list Entry := filter (λ e, name e ≠ DOT) files.

Lemma append_all_prefix files : ∀ acc index archive,
  append_all acc index files = Done archive → ∃ z, archive = acc ++ z.
Proof.
  induction files as [|e files IH]; intros acc index archive; cbn [append_all].
  { apply append_newc_entry_prefix. }
  destruct (append_newc_entry acc _ _ _) as [acc'| |] eqn:E; [|done|done].
  intros (z & ->)%IH. apply append_newc_entry_prefix in E as (z' & ->).
  rewrite <- (assoc_L (++)). by eexists.
Qed.

Lemma entries_full st : initrd_wf st → (FILE_COUNT st <? MAX_FILES) = false →
  ∀ xs, take 16 (initrd_entries st ++ xs) = initrd_entries st.
Proof.
  intros (es & Hle & Hc & Hf) Hfull xs. apply Z.ltb_ge in Hfull.
  assert (st = mkInitrd ((Some <$> es) ++ replicate (Z.to_nat MAX_FILES - length es) None)
            (Z.of_nat (length es))) as -> by (destruct st; cbn in *; congruence).
  rewrite initrd_entries_of by done. cbn [FILE_COUNT] in Hfull. unfold MAX_FILES in *.
  assert (length es = 16%nat) as <- by lia. apply take_app_length.
Qed.

Lemma append_all_read files : ∀ acc index archive fuel st,
  append_all acc index files = Done archive → Z.of_nat (length archive) < 2 ^ 62 →
  Forall (λ e, utf8_ok (name e) = true ∧ name e ≠ TRAILER) files → initrd_wf st → (0 < fuel)%nat →
  Z.of_nat (length archive) - Z.of_nat (length acc) < Z.of_nat fuel * HEADER_SIZE →
  ∃ st', initrd_loop fuel archive (Z.of_nat (length acc)) st = Done st' ∧ initrd_wf st' ∧
    initrd_entries st' = take 16 (initrd_entries st ++ kept_files files).
Proof.
  induction files as [|e files IH]; intros acc index archive fuel st Happ Hlen Hok Hwf Hf0 Hfuel;
    (destruct fuel as [|fuel]; [lia|]); cbn [append_all] in Happ.
  - rewrite <- (app_nil_r archive) in Hlen.
    destruct (read_entry_appended _ _ _ _ _ _ Happ Hlen eq_refl) as [Hb Hr].
    rewrite app_nil_r in Hb, Hr, Hlen. cbn [initrd_loop]. unfold checked_add, HEADER_SIZE in *.
    destruct (Z.ltb_spec (Z.of_nat (length acc) + 110) (2 ^ 64)); [|lia].
    destruct (Z.leb_spec (Z.of_nat (length acc) + 110) (Z.of_nat (length archive))); [|lia].
    rewrite Hr. rewrite bool_decide_eq_true_2 by done. exists st. split_and!; [done|done|].
    unfold kept_files. rewrite filter_nil, app_nil_r. symmetry.
    destruct Hwf as (es & Hle & Hc & Hf).
    assert (st = mkInitrd ((Some <$> es) ++ replicate (Z.to_nat MAX_FILES - length es) None)
              (Z.of_nat (length es))) as -> by (destruct st; cbn in *; congruence).
    rewrite initrd_entries_of by done. apply take_ge. unfold MAX_FILES in *. lia.
  - destruct (append_newc_entry acc _ _ _) as [acc'| |] eqn:E; [|done|done].
    apply Forall_cons in Hok as [[Hu Htr] Hok].
    destruct (append_all_prefix _ _ _ _ Happ) as [rest Hrest]. rewrite Hrest in Hlen.
    destruct (read_entry_appended _ _ _ _ _ _ E Hlen Hu) as [Hb Hr].
    rewrite <- Hrest in Hb, Hr, Hlen. cbn [initrd_loop]. unfold checked_add.
    assert (Z.of_nat (length acc) + HEADER_SIZE < Z.of_nat (length acc')) as Hadv.
    { pose proof (read_entry_safe archive (Z.of_nat (length acc)) Hlen ltac:(lia) Hb) as Hs.
      rewrite Hr, bool_decide_eq_false_2 in Hs by done. lia. }
    unfold HEADER_SIZE in *.
    destruct (Z.ltb_spec (Z.of_nat (length acc) + 110) (2 ^ 64)); [|lia].
    destruct (Z.leb_spec (Z.of_nat (length acc) + 110) (Z.of_nat (length archive))); [|lia].
    rewrite Hr, bool_decide_eq_false_2 by done. cbn [name].
    assert (Z.of_nat (length acc') ≤ Z.of_nat (length archive))
      by (rewrite Hrest, length_app; lia).
    unfold kept_files. rewrite filter_cons. fold (kept_files files).
    destruct (decide (name e ≠ DOT)) as [Hd|Hd].
    + rewrite (bool_decide_eq_false_2 (name e = DOT)) by done. cbn [negb]. rewrite andb_true_r.
      destruct e as [nm dat]. cbn [name data] in *.
      destruct (FILE_COUNT st <? MAX_FILES) eqn:Ec.
      * apply Z.ltb_lt in Ec. destruct (initrd_wf_add st (mkEntry nm dat) Hwf Ec) as [Hwf' He].
        destruct (IH _ _ _ fuel _ Happ Hlen Hok Hwf' ltac:(lia) ltac:(lia)) as (st' & R1 & R2 & R3).
        exists st'. split_and!; [exact R1|exact R2|]. rewrite R3, He.
        by rewrite <- (assoc_L (++)).
      * destruct (IH _ _ _ fuel _ Happ Hlen Hok Hwf ltac:(lia) ltac:(lia)) as (st' & R1 & R2 & R3).
        exists st'. split_and!; [exact R1|exact R2|]. rewrite R3. by rewrite !entries_full.
    + apply dec_stable in Hd. rewrite (bool_decide_eq_true_2 (name e = DOT)) by done.
      cbn [negb]. rewrite andb_false_r.
      destruct (IH _ _ _ fuel _ Happ Hlen Hok Hwf ltac:(lia) ltac:(lia)) as (st' & R1 & R2 & R3).
      by exists st'.
Qed.

(** The writer fails on nothing that fits the 32-bit fields. *)
Lemma append_newc_entry_total acc nm dat ino :
  0 ≤ ino < 2 ^ 32 → Z.of_nat (length nm) + 1 < 2 ^ 32 → Z.of_nat (length dat) < 2 ^ 32 →
  ∃ acc', append_newc_entry acc nm dat ino = Done acc'.
Proof.
  intros. unfold append_newc_entry. case_bool_decide as Hn; [by eexists|]. exfalso. apply Hn.
  unfold newc_header. rewrite !length_app.
  rewrite (fmt_small ino), (fmt_small (Z.of_nat (length dat))),
    (fmt_small (Z.of_nat (length nm) + 1)) by lia. reflexivity.
Qed.
Lemma append_all_total files : ∀ acc index,
  Forall (λ e, Z.of_nat (length (name e)) + 1 < 2 ^ 32 ∧ Z.of_nat (length (data e)) < 2 ^ 32) files →
  ∃ archive, append_all acc index files = Done archive.
Proof.
  assert (∀ x, 0 ≤ u32 x < 2 ^ 32) as Hu by (intros; apply Z.mod_pos_bound; lia).
  induction files as [|e files IH]; intros acc index Hok; cbn [append_all].
  - apply append_newc_entry_total; [done|cbn; lia|cbn; lia].
  - apply Forall_cons in Hok as [[H1 H2] Hok].
    destruct (append_newc_entry_total acc (name e) (data e) (u32 (index + 1))) as [acc' ->]; auto.
Qed.
End reader.

(** ** Properties *)

(** [C12] The boot-time scan of the embedded archive is total on every archive that
    fits the address space, however corrupt: it returns (the fuel is enough), without
    a panic (no slice out of range, no overflowing index), and the file table it
    leaves has at most [MAX_FILES] entries, [FILE_COUNT] of them, then [None]s. *)
Theorem initrd_init_total archive :
  Z.of_nat (length archive) < 2 ^ 62 →
  ∃ st, initrd_init archive = Done st ∧ initrd_wf st.
Proof.
  intros Hlen. apply initrd_loop_total; [done|lia|apply initrd_wf_empty| |];
    unfold INITRD_FUEL, HEADER_SIZE;
    pose proof (Z.div_mod (Z.of_nat (length archive)) 110);
    pose proof (Z.mod_pos_bound (Z.of_nat (length archive)) 110); lia.
Qed.
Lemma initrd_init_total_witness :
  ∃ st, initrd_init (MAGIC ++ replicate 200 0xFF) = Done st ∧ initrd_wf st.
Proof. apply initrd_init_total. cbn. lia. Defined.

(** Round trip between [build.rs] and the kernel: for any list of programs whose
    names are UTF-8, are not the trailer's and whose sizes fit the 32-bit fields, the
    build writes an archive, and the kernel's scan of it yields exactly the first
    [MAX_FILES] entries not called ["."], in order; [initrd_find] then returns the
    contents of the first of them that has the name asked for. *)
Lemma initrd_roundtrip files :
  Forall (λ e, utf8_ok (name e) = true ∧ name e ≠ TRAILER) files →
  Forall (λ e, Z.of_nat (length (name e)) + 1 < 2 ^ 32 ∧ Z.of_nat (length (data e)) < 2 ^ 32) files →
  ∃ archive, build_archive files = Done archive ∧
    (Z.of_nat (length archive) < 2 ^ 62 →
     ∃ st, initrd_init archive = Done st ∧ initrd_entries st = take 16 (kept_files files) ∧
       ∀ nm, initrd_find st nm =
         data <$> head (filter (λ e, name e = nm) (take 16 (kept_files files)))).
Proof.
  intros Hok Hsize. destruct (append_all_total files [] 0 Hsize) as [archive Ha].
  exists archive. split; [exact Ha|]. intros Hlen.
  destruct initrd_wf_empty as [Hwf Hemp].
  destruct (append_all_read files [] 0 archive (INITRD_FUEL archive) initrd_empty Ha Hlen Hok Hwf)
    as (st & Hst & _ & He);
    [unfold INITRD_FUEL, HEADER_SIZE;
     pose proof (Z.div_mod (Z.of_nat (length archive)) 110);
     pose proof (Z.mod_pos_bound (Z.of_nat (length archive)) 110); cbn [length]; lia..|].
  rewrite Hemp in He. cbn [app] in He. exists st. split_and!; [exact Hst|exact He|].
  intros nm. unfold initrd_find. fold (initrd_entries st). rewrite He.
  by destruct (head _).
Qed.
(** Two programs, an entry ["."] between them. *)
Definition demo_files : list Entry :=
  [mkEntry [105; 110; 105; 116] [1; 2; 3; 4; 5]; mkEntry DOT [9]; mkEntry [0xE4; 0xBD; 0xA0] []].
