(* ===== verification/BuildScript.v ===== *)
(** The build script ([src/build.rs]): which programs go into the ramdisk, how they are
    compiled and packed.  The compilers, the linker and the archiver are external: what a command
    does to the files is the argument [tool].  Paths, names and file contents are bytes. *)

From stdpp Require Import sorting.
From S2P Require Import Text Prelude Initrd.

(** ** The host *)

(** [Command::new(program).args(args).current_dir(dir)]. *)
Record command : Type := mkCommand { cmd : list Z; args : list (list Z); dir : option (list Z) }.
(** A successful [DirEntry]: what [file_type] says ([Some true] for a directory) and the name. *)
Record dir_entry : Type := mkDirEntry { is_dir : option bool; file_name : list Z }.
(** The regular files and the lines printed for cargo. *)
Record host : Type := mkHost { disk : gmap (list Z) (list Z); printed : list (list Z) }.
Abbreviation B := (st host).
Definition set_disk (f : gmap (list Z) (list Z) → gmap (list Z) (list Z)) (h : host) : host := mkHost (f (disk h)) (printed h).

(** [PathBuf::join] of a relative path, and of several in turn. *)
Definition join (p q : list Z) : list Z :=
  match last p with
  | None => q
  | Some c => if c =? 47 then p ++ q else p ++ 47 :: q
  end.
Definition is_file (p : list Z) (h : host) : bool := bool_decide (is_Some (disk h !! p)).
Definition println (line : list Z) : B unit := modify (λ h, mkHost (disk h) (printed h ++ [line])).
Definition lift {A} (o : outcome A) : B A :=
  match o with Done a => mret a | Panic => panic | Diverge => diverge end.

(** The order of [String]s. *)
Fixpoint bytes_le (a b : list Z) : Prop :=
  match a, b with
  | [], _ => True
  | _, [] => False
  | x :: a, y :: b => x < y ∨ x = y ∧ bytes_le a b
  end.
#[export] Instance bytes_le_dec : RelDecision bytes_le.
Proof.
  intros a. induction a as [|x a IH]; intros [|y b]; cbn; [left; done|left; done|right; tauto|].
  destruct (decide (x < y)); [left; by left|].
  destruct (decide (x = y)); [|right; tauto]. destruct (IH b); [left; by right|right; tauto].
Defined.
#[export] Instance bytes_le_total : Total bytes_le.
Proof.
  intros a. induction a as [|x a IH]; intros [|y b]; cbn; [by left|by left|by right|].
  destruct (Z.lt_total x y) as [H|[->|H]]; [left; by left| |right; by left].
  destruct (IH b); [left|right]; by right.
Qed.

(** ** The script *)

Section script.
(** [.status()]: [None] if the command cannot be started, else its success and the files after it. *)
Variable tool : command → gmap (list Z) (list Z) → option (bool * gmap (list Z) (list Z)).
(** [fs::read_dir]; an entry that cannot be read is [None]. *)
Variable read_dir : list Z → option (list (option dir_entry)).
(** The environment variable [RUSTC]. *)
Variable RUSTC : option (list Z).

(** [.status().expect(..)] and [assert!(status.success())]. *)
Definition run_tool (c : command) : B unit := λ h,
  match tool c (disk h) with
  | Some (true, d) => Done (tt, mkHost d (printed h))
  | _ => Panic
  end.
(** The commands, and the functions that run them. *)
Definition asm_cmd (src obj : list Z) : command :=
  mkCommand (str "riscv64-elf-gcc") [str "-c"; str "-march=rv64gc"; str "-mabi=lp64d"; str "-o"; obj; src] None.
Definition ar_cmd (obj archive : list Z) : command :=
  mkCommand (str "riscv64-elf-ar") [str "crs"; archive; obj] None.
Definition rustc : list Z := default (str "rustc") RUSTC.
Definition userlib_cmd (src rlib : list Z) : command :=
  mkCommand rustc
    [str "--edition=2021"; str "--crate-name=userlib"; str "--crate-type=rlib";
     str "--target=riscv64gc-unknown-none-elf"; str "-Copt-level=z"; str "-Cpanic=abort";
     str "-o"; rlib; src] None.
Definition rust_user_cmd (src elf linker_script userlib : list Z) : command :=
  mkCommand rustc
    [str "--edition=2021"; str "--crate-type=bin"; str "--target=riscv64gc-unknown-none-elf";
     str "--extern"; str "userlib=" ++ userlib; str "-Copt-level=z"; str "-Cpanic=abort";
     str "-Crelocation-model=static"; str "-Cstrip=symbols"; str "-Clink-arg=--gc-sections";
     str "-Clink-arg=-T" ++ linker_script; str "-o"; elf; src] None.
Definition c_user_cmd
    (src elf linker_script include_dir runtime posix stdio alloc fdtable startup : list Z) : command :=
  mkCommand (str "riscv64-elf-gcc")
    [str "-march=rv64gc"; str "-mabi=lp64d"; str "-mcmodel=medany"; str "-msmall-data-limit=0"; str "-O2";
     str "-ffreestanding"; str "-fno-builtin"; str "-fno-stack-protector"; str "-ffunction-sections";
     str "-fdata-sections"; str "-fno-pic"; str "-fno-pie"; str "-nostdlib"; str "-nostartfiles"; str "-no-pie";
     str "-Wl,--gc-sections"; str "-Wl,--build-id=none"; str "-s"; str "-I"; include_dir; str "-T"; linker_script;
     str "-o"; elf; startup; runtime; posix; stdio; alloc; fdtable; src] None.
Definition embed_cmd (out_dir : list Z) : command :=
  mkCommand (str "riscv64-elf-ld")
    [str "-r"; str "-b"; str "binary"; str "-o"; str "initrd-bin.o"; str "rootfs.cpio"] (Some out_dir).
Definition tag_cmd (initrd_obj abi_obj bin_obj : list Z) : command :=
  mkCommand (str "riscv64-elf-ld") [str "--no-warn-mismatch"; str "-r"; str "-o"; initrd_obj; abi_obj; bin_obj] None.
Definition compile_asm (src obj : list Z) : B unit := run_tool (asm_cmd src obj).
Definition archive_obj (obj archive : list Z) : B unit := run_tool (ar_cmd obj archive).
Definition compile_userlib (src rlib : list Z) : B unit := run_tool (userlib_cmd src rlib).
Definition compile_rust_user (src elf linker_script userlib : list Z) : B unit :=
  run_tool (rust_user_cmd src elf linker_script userlib).
Definition compile_c_user
    (src elf linker_script include_dir runtime posix stdio alloc fdtable startup : list Z) : B unit :=
  run_tool (c_user_cmd src elf linker_script include_dir runtime posix stdio alloc fdtable startup).

(** The directories with a [main], as [main] collects them, sorted. *)
Definition main_rs (programs_dir name : list Z) : list Z := join (join programs_dir name) (str "src/main.rs").
Definition main_c (programs_dir name : list Z) : list Z := join (join programs_dir name) (str "src/main.c").
Definition entry_name (e : option dir_entry) : option (list Z) :=
  e ← e;
  if bool_decide (is_dir e = Some true) && utf8_ok (file_name e) then Some (file_name e) else None.
Definition has_main (programs_dir : list Z) (h : host) (name : list Z) : bool :=
  is_file (main_rs programs_dir name) h || is_file (main_c programs_dir name) h.
Definition list_programs (programs_dir : list Z) : B (list (list Z)) :=
  entries ← unwrap (read_dir programs_dir);
  gets (λ h, merge_sort bytes_le (filter (has_main programs_dir h) (omap entry_name entries))).

Section paths.
Variables (out_dir src_dir : list Z).
Definition programs_path : list Z := join (join src_dir (str "user")) (str "programs").
Definition userlib_path : list Z := join out_dir (str "libuserlib.rlib").
Definition user_ld : list Z := join (join src_dir (str "programs")) (str "user.ld").
Definition user_file (f : list Z) : list Z := join (join src_dir (str "user")) f.

(** One program: its source decides the compiler. *)
Definition compile_program (name : list Z) : B (list Z * list Z) :=
  let rust_source := main_rs programs_path name in
  let c_source := main_c programs_path name in
  let elf := join out_dir name in
  rust ← gets (is_file rust_source);
  c ← gets (is_file c_source);
  _ ← (if (rust : bool) then compile_rust_user rust_source elf user_ld userlib_path
       else if (c : bool) then
         compile_c_user c_source elf user_ld (user_file (str "include")) (user_file (str "libc/nekos.c"))
           (user_file (str "libc/posix.c")) (user_file (str "libc/printf.c")) (user_file (str "libc/malloc.c"))
           (user_file (str "libc/fd_table.c")) (user_file (str "libc/crt0.S"))
       else panic);
  mret (name, elf).
Fixpoint compile_programs (names : list (list Z)) : B (list (list Z * list Z)) :=
  match names with
  | [] => mret []
  | n :: names => x ← compile_program n; xs ← compile_programs names; mret (x :: xs)
  end.
(** The archive: each ELF is read and appended, with its number, then the trailer. *)
Fixpoint pack_from (archive : list Z) (index : Z) (user_elfs : list (list Z * list Z)) : B (list Z) :=
  match user_elfs with
  | [] => lift (append_newc_entry archive TRAILER [] (u32 (index + 1)))
  | (name, elf) :: user_elfs =>
      h ← gets disk;
      data ← unwrap (h !! elf);
      archive ← lift (append_newc_entry archive name data (u32 (index + 1)));
      pack_from archive (index + 1) user_elfs
  end.
Definition asm_source (f : list Z) : list Z :=
  join (join (join (join src_dir (str "src")) (str "arch")) (str "riscv")) f.
Definition build_boot_code : B unit :=
  _ ← compile_asm (asm_source (str "start.S")) (join out_dir (str "start.o"));
  _ ← compile_asm (asm_source (str "trap.S")) (join out_dir (str "trap.o"));
  _ ← compile_asm (asm_source (str "user.S")) (join out_dir (str "user.o"));
  _ ← archive_obj (join out_dir (str "start.o")) (join out_dir (str "libstart.a"));
  _ ← archive_obj (join out_dir (str "trap.o")) (join out_dir (str "libtrap.a"));
  archive_obj (join out_dir (str "user.o")) (join out_dir (str "libuser.a")).
(** The archive becomes an object file, is tagged with the ABI and goes into a library. *)
Definition embed_initrd (cpio : list Z) : B unit :=
  _ ← modify (set_disk <[join out_dir (str "rootfs.cpio") := cpio]>);
  _ ← run_tool (embed_cmd out_dir);
  _ ← compile_asm (join src_dir (str "src/arch/riscv/initrd.S")) (join out_dir (str "initrd-abi.o"));
  _ ← run_tool (tag_cmd (join out_dir (str "initrd.o")) (join out_dir (str "initrd-abi.o"))
        (join out_dir (str "initrd-bin.o")));
  archive_obj (join out_dir (str "initrd.o")) (join out_dir (str "libinitrd.a")).
Definition link_directives : list (list Z) :=
  [str "cargo:rustc-link-search=native=" ++ out_dir;
   str "cargo:rustc-link-lib=static:+whole-archive=start";
   str "cargo:rustc-link-lib=static:+whole-archive=trap";
   str "cargo:rustc-link-lib=static:+whole-archive=user";
   str "cargo:rustc-link-lib=static:+whole-archive=initrd";
   str "cargo:rustc-link-arg=-T" ++ join src_dir (str "linker.ld");
   str "cargo:rerun-if-changed=src/arch/riscv/start.S";
   str "cargo:rerun-if-changed=src/arch/riscv/trap.S";
   str "cargo:rerun-if-changed=src/arch/riscv/user.S";
   str "cargo:rerun-if-changed=programs/user.ld";
   str "cargo:rerun-if-changed=user/userlib/src";
   str "cargo:rerun-if-changed=user/include";
   str "cargo:rerun-if-changed=user/libc";
   str "cargo:rerun-if-changed=user/programs";
   str "cargo:rerun-if-changed=src/arch/riscv/initrd.S";
   str "cargo:rerun-if-changed=linker.ld";
   str "cargo:rerun-if-changed=build.rs"].
(** [main], from the two variables that cargo sets. *)
Definition build_main : B unit :=
  _ ← build_boot_code;
  _ ← compile_userlib (user_file (str "userlib/src/lib.rs")) userlib_path;
  user_programs ← list_programs programs_path;
  user_elfs ← compile_programs user_programs;
  cpio ← pack_from [] 0 user_elfs;
  _ ← embed_initrd cpio;
  foreach link_directives println.
End paths.
End script.

(** ** What the script relies on, and its result *)

Lemma join_inj p a b : join p a = join p b → a = b.
Proof.
  unfold join. destruct (last p) as [c|]; [|done]. destruct (c =? 47); intros E; simplify_list_eq; done.
Qed.

(** Looking a name up among entries that are a function of it. *)
Lemma head_named (g : list Z → Entry) names nm :
  (∀ n, name (g n) = n) →
  head (filter (λ e, name e = nm) (g <$> names)) = if bool_decide (nm ∈ names) then Some (g nm) else None.
Proof.
  intros Hg. induction names as [|n names IH]; [done|]. cbn [fmap list_fmap]. rewrite filter_cons.
  destruct (decide (name (g n) = nm)) as [E|E]; rewrite Hg in E.
  - subst n. rewrite bool_decide_true by by left. done.
  - rewrite IH. do 2 case_bool_decide; set_solver.
Qed.
Lemma kept_fmap (g : list Z → Entry) names :
  (∀ n, name (g n) = n) → kept_files (g <$> names) = g <$> filter (λ n, n ≠ DOT) names.
Proof.
  intros Hg. unfold kept_files. induction names as [|n names IH]; [done|]. rewrite fmap_cons, !filter_cons.
  destruct (decide (name (g n) ≠ DOT)) as [E|E]; rewrite Hg in E; destruct (decide (n ≠ DOT)) as [E'|E'];
    rewrite ?fmap_cons, ?IH; done.
Qed.

Section correct.
Variable tool : command → gmap (list Z) (list Z) → option (bool * gmap (list Z) (list Z)).
Variable read_dir : list Z → option (list (option dir_entry)).
Variable RUSTC : option (list Z).
Variables out_dir src_dir : list Z.
Implicit Types (h : host) (d : gmap (list Z) (list Z)) (n p o : list Z) (c : command) (cs : list command).

(** If a command succeeds, it has written file [o] and no other; it may well fail. *)
Definition writes (c : command) (o : list Z) : Prop :=
  ∀ d d', tool c d = Some (true, d') → ∃ bs, d' = <[o := bs]> d.
(** What the manuals say of the output options.  Success is not assumed of any command. *)
Record tools_ok : Prop := {
  ok_asm src obj : writes (asm_cmd src obj) obj;
  ok_ar obj archive : writes (ar_cmd obj archive) archive;
  ok_userlib src rlib : writes (userlib_cmd RUSTC src rlib) rlib;
  ok_rust src elf ld lib : writes (rust_user_cmd RUSTC src elf ld lib) elf;
  ok_c src elf ld inc runtime posix stdio alloc fdtable startup :
    writes (c_user_cmd src elf ld inc runtime posix stdio alloc fdtable startup) elf;
  ok_embed : writes (embed_cmd out_dir) (join out_dir (str "initrd-bin.o"));
  ok_tag obj abi bin : writes (tag_cmd obj abi bin) obj;
}.
(** The output directory holds no program source. *)
Definition out_apart : Prop := ∀ o n,
  join out_dir o ≠ main_rs (programs_path src_dir) n ∧ join out_dir o ≠ main_c (programs_path src_dir) n.

(** The commands, one after the other, up to the first that fails. *)
Fixpoint run_all (cs : list command) (d : gmap (list Z) (list Z)) : option (gmap (list Z) (list Z)) :=
  match cs with
  | [] => Some d
  | c :: cs => match tool c d with Some (true, d') => run_all cs d' | _ => None end
  end.
(** The commands of the build before and after the archive is written. *)
Definition boot_commands : list command :=
  [asm_cmd (asm_source src_dir (str "start.S")) (join out_dir (str "start.o"));
   asm_cmd (asm_source src_dir (str "trap.S")) (join out_dir (str "trap.o"));
   asm_cmd (asm_source src_dir (str "user.S")) (join out_dir (str "user.o"));
   ar_cmd (join out_dir (str "start.o")) (join out_dir (str "libstart.a"));
   ar_cmd (join out_dir (str "trap.o")) (join out_dir (str "libtrap.a"));
   ar_cmd (join out_dir (str "user.o")) (join out_dir (str "libuser.a"));
   userlib_cmd RUSTC (user_file src_dir (str "userlib/src/lib.rs")) (userlib_path out_dir)].
Definition program_command (h : host) (n : list Z) : command :=
  let elf := join out_dir n in
  if is_file (main_rs (programs_path src_dir) n) h then
    rust_user_cmd RUSTC (main_rs (programs_path src_dir) n) elf (user_ld src_dir) (userlib_path out_dir)
  else
    c_user_cmd (main_c (programs_path src_dir) n) elf (user_ld src_dir) (user_file src_dir (str "include"))
      (user_file src_dir (str "libc/nekos.c")) (user_file src_dir (str "libc/posix.c"))
      (user_file src_dir (str "libc/printf.c")) (user_file src_dir (str "libc/malloc.c"))
      (user_file src_dir (str "libc/fd_table.c")) (user_file src_dir (str "libc/crt0.S")).
Definition embed_commands : list command :=
  [embed_cmd out_dir; asm_cmd (join src_dir (str "src/arch/riscv/initrd.S")) (join out_dir (str "initrd-abi.o"));
   tag_cmd (join out_dir (str "initrd.o")) (join out_dir (str "initrd-abi.o")) (join out_dir (str "initrd-bin.o"));
   ar_cmd (join out_dir (str "initrd.o")) (join out_dir (str "libinitrd.a"))].
(** The files that are written after the programs were packed. *)
Definition late_outputs : list (list Z) :=
  [str "rootfs.cpio"; str "initrd-bin.o"; str "initrd-abi.o"; str "initrd.o"; str "libinitrd.a"].

(** [m] runs the commands [cs] and does nothing else; it panics if one fails. *)
Definition runs (m : B unit) (cs : list command) : Prop := ∀ d pr,
  m (mkHost d pr) = match run_all cs d with Some d' => Done (tt, mkHost d' pr) | None => Panic end.
Lemma run_all_app cs cs' d : run_all (cs ++ cs') d = run_all cs d ≫= run_all cs'.
Proof.
  revert d. induction cs as [|c cs IH]; intros d; [done|]. cbn [app run_all].
  destruct (tool c d) as [[[] d']|]; [apply IH|done..].
Qed.
Lemma runs_tool c : runs (run_tool tool c) [c].
Proof. intros d pr. unfold run_tool. cbn [disk run_all]. by destruct (tool c d) as [[[] d']|]. Qed.
Lemma runs_bind (m m' : B unit) cs cs' : runs m cs → runs m' cs' → runs (_ ← m; m') (cs ++ cs').
Proof.
  intros Hm Hm' d pr. unfold mbind, st_bind. rewrite Hm, run_all_app. by destruct (run_all cs d); [apply Hm'|].
Qed.
Lemma runs_boot : runs (_ ← build_boot_code tool out_dir src_dir;
  compile_userlib tool RUSTC (user_file src_dir (str "userlib/src/lib.rs")) (userlib_path out_dir)) boot_commands.
Proof.
  apply (runs_bind _ _ (take 6 boot_commands) (drop 6 boot_commands)); [|apply runs_tool].
  do 5 (apply (runs_bind _ _ [_]); [apply runs_tool|]). apply runs_tool.
Qed.
Lemma runs_embed : runs
  (_ ← run_tool tool (embed_cmd out_dir);
   _ ← compile_asm tool (join src_dir (str "src/arch/riscv/initrd.S")) (join out_dir (str "initrd-abi.o"));
   _ ← run_tool tool (tag_cmd (join out_dir (str "initrd.o")) (join out_dir (str "initrd-abi.o"))
        (join out_dir (str "initrd-bin.o")));
   archive_obj tool (join out_dir (str "initrd.o")) (join out_dir (str "libinitrd.a"))) embed_commands.
Proof. do 3 (apply (runs_bind _ _ [_]); [apply runs_tool|]). apply runs_tool. Qed.

Hypothesis tools : tools_ok.
Hypothesis apart : out_apart.

(** Commands that write into the output directory leave all else alone, and remove nothing. *)
Definition outside d d' : Prop := ∀ p, (∀ o, p ≠ join out_dir o) → d' !! p = d !! p.
Definition into (outputs : list (list Z)) (c : command) : Prop := ∃ o, o ∈ outputs ∧ writes c (join out_dir o).
Lemma run_all_into outputs cs d d' :
  Forall (into outputs) cs → run_all cs d = Some d' →
  (∀ p, (∀ o, o ∈ outputs → p ≠ join out_dir o) → d' !! p = d !! p) ∧
  (∀ p, is_Some (d !! p) → is_Some (d' !! p)).
Proof.
  intros Hcs. revert d. induction Hcs as [|c cs (o & Ho & Hw) _ IH]; intros d; [by intros [= ->]|]. cbn [run_all].
  destruct (tool c d) as [[[] d1]|] eqn:E; [|done..]. intros E'. destruct (IH d1 E') as [IH1 IH2].
  destruct (Hw d d1 E) as [bs ->]. split; intros p Hp.
  - rewrite IH1 by done. apply lookup_insert_ne. intros <-. by apply (Hp o).
  - apply IH2. destruct (decide (join out_dir o = p)) as [<-|?]; [rewrite lookup_insert_eq; by eexists|by rewrite lookup_insert_ne].
Qed.
Lemma into_mono outputs outputs' cs : outputs ⊆ outputs' → Forall (into outputs) cs → Forall (into outputs') cs.
Proof. intros Hs Hcs. apply (Forall_impl _ _ _ Hcs). intros c (o & ? & ?). exists o. split; [by apply Hs|done]. Qed.
Lemma into_outside outputs cs d d' : Forall (into outputs) cs → run_all cs d = Some d' → outside d d'.
Proof. intros Hcs E p Hp. destruct (run_all_into outputs cs d d' Hcs E) as [H _]. by apply H. Qed.
Definition boot_outputs : list (list Z) :=
  [str "start.o"; str "trap.o"; str "user.o"; str "libstart.a"; str "libtrap.a"; str "libuser.a"; str "libuserlib.rlib"].
Lemma into_intro outputs o c : bool_decide (o ∈ outputs) = true → writes c (join out_dir o) → into outputs c.
Proof. intros Ho%bool_decide_eq_true Hw. by exists o. Qed.
Lemma boot_into : Forall (into boot_outputs) boot_commands.
Proof.
  unfold boot_commands. do 3 (apply Forall_cons; split; [eapply into_intro; [|apply ok_asm, tools]; reflexivity|]).
  do 3 (apply Forall_cons; split; [eapply into_intro; [|apply ok_ar, tools]; reflexivity|]).
  apply Forall_cons; split; [|apply Forall_nil; exact I]. eapply into_intro; [|apply ok_userlib, tools]. reflexivity.
Qed.
Lemma embed_into : Forall (into (drop 1 late_outputs)) embed_commands.
Proof.
  unfold embed_commands. apply Forall_cons; split; [eapply into_intro; [|apply ok_embed, tools]; reflexivity|].
  apply Forall_cons; split; [eapply into_intro; [|apply ok_asm, tools]; reflexivity|].
  apply Forall_cons; split; [eapply into_intro; [|apply ok_tag, tools]; reflexivity|].
  apply Forall_cons; split; [eapply into_intro; [|apply ok_ar, tools]; reflexivity|]. apply Forall_nil. exact I.
Qed.
Lemma program_writes h n : writes (program_command h n) (join out_dir n).
Proof. unfold program_command. destruct (is_file _ h); [apply ok_rust, tools|apply ok_c, tools]. Qed.

Lemma outside_source d d' pr n :
  outside d d' → is_file (main_rs (programs_path src_dir) n) (mkHost d' pr) = is_file (main_rs (programs_path src_dir) n) (mkHost d pr) ∧
    is_file (main_c (programs_path src_dir) n) (mkHost d' pr) = is_file (main_c (programs_path src_dir) n) (mkHost d pr).
Proof.
  intros Ho. unfold is_file. cbn [disk]. rewrite !Ho; [done|intros o E; destruct (apart o n) as [A1 A2]; congruence..].
Qed.

(** Compiling the programs. *)
Lemma compile_programs_run d0 pr names : ∀ d,
  Forall (λ n, has_main (programs_path src_dir) (mkHost d0 pr) n = true) names → outside d0 d →
  compile_programs tool RUSTC out_dir src_dir names (mkHost d pr) =
  match run_all (program_command (mkHost d0 pr) <$> names) d with
  | Some d' => Done ((λ n, (n, join out_dir n)) <$> names, mkHost d' pr)
  | None => Panic
  end.
Proof.
  induction names as [|n names IH]; intros d Hm Ho; [done|]. apply Forall_cons in Hm as [Hn Hm].
  cbn [compile_programs fmap list_fmap run_all].
  assert (compile_program tool RUSTC out_dir src_dir n (mkHost d pr) =
    match run_all [program_command (mkHost d0 pr) n] d with
    | Some d' => Done ((n, join out_dir n), mkHost d' pr) | None => Panic end) as E1.
  { destruct (outside_source d0 d pr n Ho) as [E1 E2]. unfold compile_program, program_command.
    unfold mbind, st_bind, gets. rewrite E1, E2. unfold has_main in Hn.
    destruct (is_file _ (mkHost d0 pr)); cbn [orb] in Hn; rewrite ?Hn; unfold compile_rust_user, compile_c_user;
      rewrite (runs_tool _ d pr); by destruct (run_all _ _). }
  unfold mbind at 1, st_bind at 1. rewrite E1. cbn [run_all].
  destruct (tool (program_command _ n) d) as [[[] d1]|] eqn:Et; [|done..].
  unfold mbind, st_bind. rewrite IH; [by destruct (run_all _ d1)|done|].
  intros p Hp. destruct (program_writes (mkHost d0 pr) n d d1 Et) as [bs ->].
  rewrite lookup_insert_ne; [by apply Ho|]. intros <-. by apply (Hp n).
Qed.
Lemma programs_compiled h names d d' n :
  run_all (program_command h <$> names) d = Some d' → n ∈ names → is_Some (d' !! join out_dir n).
Proof.
  revert d. induction names as [|m names IH]; intros d; [by intros _ ?%elem_of_nil|]. cbn [fmap list_fmap run_all].
  destruct (tool (program_command h m) d) as [[[] d1]|] eqn:E; [|done..]. intros E' [->|Hn]%elem_of_cons; [|by apply (IH d1)].
  destruct (program_writes h m d d1 E) as [bs ->]. apply (run_all_into names (program_command h <$> names) _ _) in E' as [_ H].
  - apply H. rewrite lookup_insert_eq. by eexists.
  - apply Forall_fmap, Forall_forall. intros k Hk. exists k. split; [done|]. apply program_writes.
Qed.

(** Packing. *)
Definition packed (h : host) (n : list Z) : Entry := mkEntry n (default [] (disk h !! join out_dir n)).
Lemma pack_from_run h names : ∀ acc index archive,
  (∀ n, n ∈ names → is_Some (disk h !! join out_dir n)) →
  append_all acc index (packed h <$> names) = Done archive →
  pack_from acc index ((λ n, (n, join out_dir n)) <$> names) h = Done (archive, h).
Proof.
  induction names as [|n names IH]; intros acc index archive Hf Happ; cbn [pack_from fmap list_fmap append_all] in *.
  - by rewrite Happ.
  - destruct (Hf n) as [bs E]; [by left|]. unfold mbind, st_bind, gets. rewrite E. cbn [unwrap].
    unfold packed at 1 2 in Happ. rewrite E in Happ. cbn [name data default] in Happ. change (id bs) with bs in Happ.
    change ((mret bs : B _) h) with (Done (bs, h)). cbv iota beta.
    destruct (append_newc_entry acc n bs _) as [acc'| |]; [|done|done].
    apply (IH acc' _ archive); [|done]. intros m Hm. apply Hf. by right.
Qed.
Lemma println_run lines d pr : foreach lines println (mkHost d pr) = Done (tt, mkHost d (pr ++ lines)).
Proof.
  revert pr. induction lines as [|l lines IH]; intros pr; [by rewrite app_nil_r|].
  cbn [foreach]. unfold mbind, st_bind, println at 1, modify. cbn [disk printed]. rewrite IH. by rewrite <- app_assoc.
Qed.

(** The programs of a directory with these entries. *)
Definition programs (entries : list (option dir_entry)) (h : host) : list (list Z) :=
  merge_sort bytes_le (filter (has_main (programs_path src_dir) h) (omap entry_name entries)).
Lemma elem_of_programs entries h n :
  n ∈ programs entries h ↔
  Some (mkDirEntry (Some true) n) ∈ entries ∧ utf8_ok n = true ∧ has_main (programs_path src_dir) h n = true.
Proof.
  unfold programs. rewrite merge_sort_Permutation, list_elem_of_filter, list_elem_of_omap. split.
  - intros [Hm (e & He & En)]. destruct e as [[d f]|]; [|done]. unfold entry_name in En. cbn in En.
    destruct (bool_decide _ && _) eqn:Ed; [|done]. injection En as ->.
    apply andb_prop in Ed as [Ed%bool_decide_eq_true Hu]. subst d. split; [done|]. split; [done|]. by apply Is_true_true.
  - intros (He & Hu & Hm). split; [by apply Is_true_true|]. eexists. split; [exact He|]. cbn. by rewrite Hu.
Qed.
Lemma programs_outside entries d d' pr : outside d d' → programs entries (mkHost d' pr) = programs entries (mkHost d pr).
Proof.
  intros Ho. unfold programs. f_equal. apply list_filter_iff. intros n. unfold has_main.
  destruct (outside_source d d' pr n Ho) as [-> ->]. done.
Qed.

Lemma bind_run {A C} (m : B A) (k : A → B C) h :
  (m ≫= k) h = match m h with Done (a, h') => k a h' | Panic => Panic | Diverge => Diverge end.
Proof. reflexivity. Qed.

(** [main] up to the archive, and from there. *)
Definition early_commands (entries : list (option dir_entry)) (h : host) : list command :=
  boot_commands ++ (program_command h <$> programs entries h).
Definition finish (cpio : list Z) : B unit :=
  _ ← embed_initrd tool out_dir src_dir cpio; foreach (link_directives out_dir src_dir) println.
Lemma build_main_run d pr entries :
  read_dir (programs_path src_dir) = Some entries →
  let h := mkHost d pr in let names := programs entries h in
  build_main tool read_dir RUSTC out_dir src_dir h =
  match run_all (early_commands entries h) d with
  | None => Panic
  | Some d' => (cpio ← pack_from [] 0 ((λ n, (n, join out_dir n)) <$> names); finish cpio) (mkHost d' pr)
  end.
Proof.
  intros Hdir h names. unfold early_commands. rewrite run_all_app.
  transitivity ((_ ← (_ ← build_boot_code tool out_dir src_dir;
                      compile_userlib tool RUSTC (user_file src_dir (str "userlib/src/lib.rs")) (userlib_path out_dir));
    user_programs ← list_programs read_dir (programs_path src_dir);
    user_elfs ← compile_programs tool RUSTC out_dir src_dir user_programs;
    cpio ← pack_from [] 0 user_elfs; finish cpio) h).
  { unfold build_main, finish. rewrite !bind_run. by destruct (build_boot_code _ _ _ h) as [[[] h1]| |]. }
  rewrite bind_run. unfold h at 1. rewrite (runs_boot d pr).
  destruct (run_all boot_commands d) as [d1|] eqn:E1; [|done]. pose proof (into_outside _ _ _ _ boot_into E1) as Ho.
  cbn [mbind option_bind]. rewrite bind_run.
  assert (list_programs read_dir (programs_path src_dir) (mkHost d1 pr) = Done (names, mkHost d1 pr)) as ->.
  { unfold list_programs. rewrite Hdir. rewrite bind_run. cbn [unwrap]. unfold names, h.
    rewrite <- (programs_outside entries d d1 pr Ho). reflexivity. }
  rewrite bind_run, (compile_programs_run d pr names d1); [by destruct (run_all _ d1)| |exact Ho].
  apply Forall_forall. intros n Hn. by apply elem_of_programs in Hn as (_ & _ & ?).
Qed.
Lemma finish_run cpio d pr :
  finish cpio (mkHost d pr) =
  match run_all embed_commands (<[join out_dir (str "rootfs.cpio") := cpio]> d) with
  | Some d' => Done (tt, mkHost d' (pr ++ link_directives out_dir src_dir))
  | None => Panic
  end.
Proof.
  unfold finish, embed_initrd. rewrite !bind_run. unfold modify, set_disk. cbn [disk printed]. rewrite (runs_embed _ pr).
  destruct (run_all _ _) as [d'|]; [|done]. apply println_run.
Qed.
Lemma embed_kept cpio d d' :
  run_all embed_commands (<[join out_dir (str "rootfs.cpio") := cpio]> d) = Some d' →
  d' !! join out_dir (str "rootfs.cpio") = Some cpio ∧
  ∀ n, n ∉ late_outputs → d' !! join out_dir n = d !! join out_dir n.
Proof.
  intros E. apply (run_all_into _ _ _ _ embed_into) in E as [H _]. split.
  - rewrite H; [apply lookup_insert_eq|]. intros o Ho <-%join_inj. revert Ho. apply (bool_decide_unpack _). vm_compute. exact I.
  - intros n Hn. rewrite H; [apply lookup_insert_ne|].
    + intros <-%join_inj. apply Hn. by left.
    + intros o Ho ->%join_inj. apply Hn. by right.
Qed.
Lemma archive_built h names :
  Forall (λ n, Z.of_nat (length n) + 1 < 2 ^ 32) names →
  (∀ n, n ∈ names → ∃ bs, disk h !! join out_dir n = Some bs ∧ Z.of_nat (length bs) < 2 ^ 32) →
  ∃ archive, build_archive (packed h <$> names) = Done archive.
Proof.
  intros Hl Hs. apply append_all_total, Forall_fmap, Forall_forall. intros n Hn. rewrite Forall_forall in Hl.
  destruct (Hs n Hn) as (bs & E & Hb). cbn [compose packed name data]. rewrite E. split; [by apply Hl|exact Hb].
Qed.
(** What the kernel finds in the archive. *)
Lemma packed_found h names archive :
  Forall (λ n, utf8_ok n = true ∧ n ≠ TRAILER ∧ Z.of_nat (length n) + 1 < 2 ^ 32) names →
  (∀ n, n ∈ names → ∃ bs, disk h !! join out_dir n = Some bs ∧ Z.of_nat (length bs) < 2 ^ 32) →
  build_archive (packed h <$> names) = Done archive → Z.of_nat (length archive) < 2 ^ 62 →
  ∃ st, initrd_init archive = Done st ∧
    let first := take 16 (filter (λ n, n ≠ DOT) names) in
    (∀ n, n ∈ first → initrd_find st n = disk h !! join out_dir n) ∧
    ∀ n, n ∉ first → initrd_find st n = None.
Proof.
  intros Hn Hs Harch Hlen. rewrite Forall_forall in Hn.
  destruct (initrd_roundtrip (packed h <$> names)) as (archive' & E' & Hrt).
  - apply Forall_fmap, Forall_forall. intros n Hin. by destruct (Hn n Hin) as (? & ? & _).
  - apply Forall_fmap, Forall_forall. intros n Hin. destruct (Hn n Hin) as (_ & _ & Hl), (Hs n Hin) as (bs & E1 & Hb).
    cbn [compose packed name data]. rewrite E1. by split.
  - rewrite Harch in E'. injection E' as <-. destruct (Hrt Hlen) as (st & Hst & _ & Hfind). exists st. split; [done|].
    assert (∀ n, initrd_find st n = if bool_decide (n ∈ take 16 (filter (λ n, n ≠ DOT) names))
                                    then Some (data (packed h n)) else None) as Hf.
    { intros n. rewrite Hfind, kept_fmap, <- fmap_take, head_named by done. by case_bool_decide. }
    split; intros n Hin; rewrite Hf; [|by rewrite bool_decide_false]. rewrite bool_decide_true by done.
    destruct (Hs n) as (bs & E1 & _); [|cbn [packed data]; by rewrite E1].
    apply elem_of_take in Hin as (i & Hi & _). apply list_elem_of_lookup_2 in Hi. by apply list_elem_of_filter in Hi as [_ ?].
Qed.
End correct.

(** [C13] The kernel finds what the build script packed.  The commands may fail; if one succeeds, it has
    written what its output option names and nothing else, and the output directory holds no
    sources.  Then [main] of the build script runs the commands for the boot code and the user library, and one for
    each program: the programs are the directories with a UTF-8 name and a [src/main.rs] or
    [src/main.c], in the order of their names.  If one of these commands fails, the script panics.
    Otherwise each program has its ELF file, and (each being smaller than 4 GiB) the script packs them; if one of the
    four commands that embed the archive fails, it panics, and otherwise it returns, having printed its
    directives for cargo, and the archive it leaves in [rootfs.cpio] is one
    the kernel's boot accepts, in which [initrd_find] yields for each of the first 16 names
    exactly the ELF file built for it, and nothing for any other name. *)
Theorem build_then_boot tool read_dir RUSTC out_dir src_dir entries h :
  tools_ok tool RUSTC out_dir → out_apart out_dir src_dir → read_dir (programs_path src_dir) = Some entries →
  let names := programs src_dir entries h in
  let build := build_main tool read_dir RUSTC out_dir src_dir h in
  Forall (λ n, n ≠ TRAILER ∧ Z.of_nat (length n) + 1 < 2 ^ 32 ∧ n ∉ late_outputs) names →
  Sorted bytes_le names ∧
  (∀ n, n ∈ names ↔ Some (mkDirEntry (Some true) n) ∈ entries ∧ utf8_ok n = true ∧
     has_main (programs_path src_dir) h n = true) ∧
  match run_all tool (early_commands RUSTC out_dir src_dir entries h) (disk h) with
  | None => build = Panic
  | Some d =>
      (∀ n, n ∈ names → is_Some (d !! join out_dir n)) ∧
      ((∀ n bs, n ∈ names → d !! join out_dir n = Some bs → Z.of_nat (length bs) < 2 ^ 32) →
       ∃ archive, match run_all tool (embed_commands out_dir src_dir) (<[join out_dir (str "rootfs.cpio") := archive]> d) with
       | None => build = Panic
       | Some d' =>
           build = Done (tt, mkHost d' (printed h ++ link_directives out_dir src_dir)) ∧
           (∀ n, n ∈ names → d' !! join out_dir n = d !! join out_dir n) ∧
           d' !! join out_dir (str "rootfs.cpio") = Some archive ∧
           (Z.of_nat (length archive) < 2 ^ 62 → ∃ st, initrd_init archive = Done st ∧
              let first := take 16 (filter (λ n, n ≠ DOT) names) in
              (∀ n, n ∈ first → initrd_find st n = d' !! join out_dir n) ∧
              ∀ n, n ∉ first → initrd_find st n = None)
       end)
  end.
Proof.
  intros Ht Ha Hdir names build Hnames. split; [apply Sorted_merge_sort, _|]. split; [intros n; apply elem_of_programs|].
  rewrite Forall_forall in Hnames. destruct h as [d0 pr].
  pose proof (build_main_run tool read_dir RUSTC out_dir src_dir Ht Ha d0 pr entries Hdir) as Erun. cbn [disk printed] in *.
  destruct (run_all tool (early_commands _ _ _ _ _) d0) as [d|] eqn:Eearly; [|exact Erun].
  assert (∀ n, n ∈ names → is_Some (d !! join out_dir n)) as Hsome.
  { unfold early_commands in Eearly. rewrite run_all_app in Eearly. destruct (run_all tool (boot_commands _ _ _) d0) as [d1|]; [|done].
    intros n Hn. exact (programs_compiled tool RUSTC out_dir src_dir Ht _ _ d1 d n Eearly Hn). }
  split; [exact Hsome|]. intros Hsize. set (h1 := mkHost d pr).
  assert (∀ n, n ∈ names → ∃ bs, disk h1 !! join out_dir n = Some bs ∧ Z.of_nat (length bs) < 2 ^ 32) as Hs.
  { intros n Hn. destruct (Hsome n Hn) as [bs E]. exists bs. split; [exact E|]. by apply (Hsize n). }
  destruct (archive_built out_dir h1 names) as [archive Harch]; [|exact Hs|].
  { apply Forall_forall. intros n Hn. by apply (Hnames n Hn). }
  exists archive. unfold mbind, st_bind in Erun. fold h1 names in Erun.
  rewrite (pack_from_run out_dir h1 names [] 0 archive) in Erun by done. unfold h1 in Erun. rewrite finish_run in Erun.
  destruct (run_all tool (embed_commands _ _) _) as [d'|] eqn:Eembed; [|exact Erun].
  destruct (embed_kept tool RUSTC out_dir src_dir Ht archive d d' Eembed) as [Hcpio Hkept].
  assert (∀ n, n ∈ names → d' !! join out_dir n = d !! join out_dir n) as Hsame by (intros n Hn; by apply Hkept, (Hnames n Hn)).
  split; [exact Erun|]. split; [exact Hsame|]. split; [exact Hcpio|]. intros Hlen.
  destruct (packed_found out_dir h1 names archive) as (st & Est & Hin & Hout); [|exact Hs|exact Harch|exact Hlen|].
  { apply Forall_forall. intros n Hn. apply elem_of_programs in Hn as Hp. destruct Hp as (_ & Hu & _). split; [exact Hu|].
    by destruct (Hnames n Hn) as (? & ? & _). }
  exists st. split; [exact Est|]. split; [|exact Hout]. intros n Hn. rewrite (Hin n Hn). symmetry. apply Hsame.
  apply elem_of_take in Hn as (i & Hi & _). apply list_elem_of_lookup_2 in Hi. by apply list_elem_of_filter in Hi as [_ ?].
Qed.

(** ** A build of two programs *)

(** Tools that write three bytes to their output file, and fail if their input is missing. *)
Definition demo_output (c : command) : list Z :=
  let arg k := default [] (args c !! k) in
  match dir c with
  | Some d => join d (arg 4%nat)
  | None =>
      if bool_decide (arg 0%nat = str "-c") then arg 4%nat
      else if bool_decide (arg 0%nat = str "crs") then arg 1%nat
      else if bool_decide (arg 0%nat = str "--no-warn-mismatch") then arg 3%nat
      else if bool_decide (arg 0%nat = str "-march=rv64gc") then arg 23%nat
      else if bool_decide (arg 1%nat = str "--crate-name=userlib") then arg 7%nat
      else arg 12%nat
  end.
Definition demo_input (c : command) : list Z :=
  let file := default [] (last (args c)) in
  match dir c with Some d => join d file | None => file end.
Definition demo_tool (c : command) (d : gmap (list Z) (list Z)) : option (bool * gmap (list Z) (list Z)) :=
  if bool_decide (is_Some (d !! demo_input c)) then Some (true, <[demo_output c := [1; 2; 3]]> d) else Some (false, d).
Definition demo_entries : list (option dir_entry) :=
  [Some (mkDirEntry (Some true) (str "test-c")); None; Some (mkDirEntry (Some false) (str "README"));
   Some (mkDirEntry (Some true) (str "hello")); Some (mkDirEntry (Some true) (str "target"))].
Definition demo_host : host :=
  mkHost (list_to_map ((λ p, (str "/src/" ++ p, [9])) <$>
    [str "src/arch/riscv/start.S"; str "src/arch/riscv/trap.S"; str "src/arch/riscv/user.S"; str "src/arch/riscv/initrd.S";
     str "user/userlib/src/lib.rs"; str "user/programs/test-c/src/main.c"; str "user/programs/hello/src/main.rs"])) [].

Lemma demo_tool_writes c o : demo_output c = o → writes demo_tool c o.
Proof. intros <- d d'. unfold demo_tool. case_bool_decide; [|done]. intros [= <-]. by exists [1; 2; 3]. Qed.
Lemma demo_tools_ok : tools_ok demo_tool None (str "/out").
Proof. split; intros; apply demo_tool_writes; reflexivity. Qed.
Lemma join_prefix c p q : ∃ r, join (c :: p) q = (c :: p) ++ r.
Proof.
  unfold join. destruct (last (c :: p)) as [x|] eqn:E; [|by apply last_None in E].
  destruct (x =? 47); by eexists.
Qed.
Lemma demo_apart : out_apart (str "/out") (str "/src").
Proof.
  intros o n. unfold main_rs, main_c. destruct (join_prefix 47 (str "src/user/programs") n) as [r E].
  change (47 :: str "src/user/programs") with (programs_path (str "/src")) in E. rewrite E.
  split; change (join (str "/out") o) with (str "/out" ++ 47 :: o).
  - destruct (join_prefix 47 (str "src/user/programs" ++ r) (str "src/main.rs")) as [r' E'].
    change (programs_path (str "/src") ++ r) with (47 :: str "src/user/programs" ++ r). rewrite E'. discriminate.
  - destruct (join_prefix 47 (str "src/user/programs" ++ r) (str "src/main.c")) as [r' E'].
    change (programs_path (str "/src") ++ r) with (47 :: str "src/user/programs" ++ r). rewrite E'. discriminate.
Qed.
(** The first part of the build, and that the second succeeds on any archive. *)
Definition demo_early (h : host) : option (gmap (list Z) (list Z)) :=
  run_all demo_tool (early_commands None (str "/out") (str "/src") demo_entries h) (disk h).
Definition demo_embeds (o : option (gmap (list Z) (list Z))) (archive : list Z) : bool :=
  match o with
  | Some d =>
      match run_all demo_tool (embed_commands (str "/out") (str "/src"))
              (<[join (str "/out") (str "rootfs.cpio") := archive]> d) with Some _ => true | None => false end
  | None => false
  end.
Definition demo_built (o : option (gmap (list Z) (list Z))) : bool :=
  match o with
  | Some d => forallb (λ n, bool_decide (d !! join (str "/out") n = Some [1; 2; 3])) [str "hello"; str "test-c"]
  | None => false
  end.
(** The host without the source of the user library. *)
Definition demo_broken : host := set_disk (delete (str "/src/user/userlib/src/lib.rs")) demo_host.
Lemma demo_names : programs (str "/src") demo_entries demo_host = [str "hello"; str "test-c"].
Proof. vm_compute. reflexivity. Qed.
Lemma demo_broken_names : programs (str "/src") demo_entries demo_broken = [str "hello"; str "test-c"].
Proof. vm_compute. reflexivity. Qed.
Lemma demo_names_ok :
  Forall (λ n, n ≠ TRAILER ∧ Z.of_nat (length n) + 1 < 2 ^ 32 ∧ n ∉ late_outputs) [str "hello"; str "test-c"].
Proof. apply (bool_decide_unpack _). vm_compute. exact I. Qed.
Lemma demo_early_built : demo_built (demo_early demo_host) = true.
Proof. vm_compute. reflexivity. Qed.
Lemma demo_early_embeds archive : demo_embeds (demo_early demo_host) archive = true.
Proof. vm_compute. reflexivity. Qed.
Lemma demo_early_broken : demo_early demo_broken = None.
Proof. vm_compute. reflexivity. Qed.
Lemma demo_build_facts : ∃ d, demo_early demo_host = Some d ∧
  (∀ n, n ∈ [str "hello"; str "test-c"] → d !! join (str "/out") n = Some [1; 2; 3]) ∧
  ∀ archive, is_Some (run_all demo_tool (embed_commands (str "/out") (str "/src"))
                        (<[join (str "/out") (str "rootfs.cpio") := archive]> d)).
Proof.
  pose proof demo_early_built as Hb. pose proof demo_early_embeds as He. revert Hb He.
  generalize (demo_early demo_host). intros [d|]; cbn [demo_built demo_embeds]; [|done]. intros Hb He.
  exists d. split; [done|]. split.
  - intros n Hn%list_elem_of_In. rewrite forallb_forall in Hb. by apply (bool_decide_eq_true_1 _), Hb.
  - intros archive. specialize (He archive). destruct (run_all _ _ _) as [d'|]; [by exists d'|done].
Qed.
Lemma build_then_boot_witness :
  (∃ d d' archive, demo_early demo_host = Some d ∧
    build_main demo_tool (λ _, Some demo_entries) None (str "/out") (str "/src") demo_host =
      Done (tt, mkHost d' (printed demo_host ++ link_directives (str "/out") (str "/src"))) ∧
    d' !! join (str "/out") (str "rootfs.cpio") = Some archive ∧ d' !! join (str "/out") (str "hello") = Some [1; 2; 3]) ∧
  build_main demo_tool (λ _, Some demo_entries) None (str "/out") (str "/src") demo_broken = Panic.
Proof.
  split.
  - destruct demo_build_facts as (d & E & Hout & Hembed).
    destruct (build_then_boot demo_tool (λ _, Some demo_entries) None (str "/out") (str "/src") demo_entries demo_host
      demo_tools_ok demo_apart eq_refl
      (eq_ind_r (Forall _) demo_names_ok demo_names)) as (_ & _ & H).
    change (run_all _ _ _) with (demo_early demo_host) in H at 1. rewrite E in H. destruct H as [_ H].
    destruct H as [archive H].
    { intros n bs Hin Hbs. rewrite demo_names in Hin. rewrite (Hout n Hin) in Hbs. injection Hbs as <-. reflexivity. }
    destruct (Hembed archive) as [d' E']. rewrite E' in H. destruct H as (Ebuild & Hsame & Hcpio & _).
    assert (str "hello" ∈ [str "hello"; str "test-c"]) as Hin by (left; reflexivity).
    exists d, d', archive. split; [exact E|]. split; [exact Ebuild|]. split; [exact Hcpio|].
    rewrite <- (Hout _ Hin). apply Hsame. rewrite demo_names. exact Hin.
  - destruct (build_then_boot demo_tool (λ _, Some demo_entries) None (str "/out") (str "/src") demo_entries demo_broken
      demo_tools_ok demo_apart eq_refl
      (eq_ind_r (Forall _) demo_names_ok demo_broken_names)) as (_ & _ & H).
    change (run_all _ _ _) with (demo_early demo_broken) in H at 1. rewrite demo_early_broken in H. exact H.
Defined.
