(* ===== verification/Exec.v ===== *)
(** Loading programs, [src/src/kernel/exec.rs]: the ELF checks, the segment loader
    and [load]; [spawn] and [exec] are in [Kernel.v].

    The file is the list of its bytes.  The headers are read through raw pointers
    ([read_unaligned]), little-endian; [elf_headers_in_bounds] shows that a verified
    file has every program header inside it, so that no read leaves the file. *)

From S2P Require Import Prelude Bytes Arch Page Memory Machine Pgtable Vm Trap Ipc Task Initrd.

Record Elf64Ehdr : Type := mkEhdr {
  e_ident : list Z; e_type : Z; e_machine : Z; e_version : Z; e_entry : Z; e_phoff : Z;
  e_shoff : Z; e_flags : Z; e_ehsize : Z; e_phentsize : Z; e_phnum : Z; e_shentsize : Z;
  e_shnum : Z; e_shstrndx : Z
}.
Record Elf64Phdr : Type := mkPhdr {
  p_type : Z; p_flags : Z; p_offset : Z; p_vaddr : Z; p_paddr : Z; p_filesz : Z;
  p_memsz : Z; p_align : Z
}.
Definition EHDR_SIZE : Z := 64.
Definition PHDR_SIZE : Z := 56.
Definition ELFMAG0 : Z := 0x7f.
Definition ELFMAG1 : Z := 69.
Definition ELFMAG2 : Z := 76.
Definition ELFMAG3 : Z := 70.
Definition ET_EXEC : Z := 2.
Definition EM_RISCV : Z := 243.
Definition PT_LOAD : Z := 1.
Definition PF_X : Z := 0x1.
Definition PF_W : Z := 0x2.
Definition PF_R : Z := 0x4.

Record LoadedImage : Type := mkLoadedImage {
  img_pagetable : Z; img_user_stack : Z; img_entry : Z; img_base : Z; img_size : Z
}.

Definition read_ehdr (b : list Z) : Elf64Ehdr :=
  mkEhdr (take 16 b) (le 2 b 16) (le 2 b 18) (le 4 b 20) (le 8 b 24) (le 8 b 32) (le 8 b 40)
    (le 4 b 48) (le 2 b 52) (le 2 b 54) (le 2 b 56) (le 2 b 58) (le 2 b 60) (le 2 b 62).
Definition read_phdr (b : list Z) (o : Z) : Elf64Phdr :=
  mkPhdr (le 4 b o) (le 4 b (o + 4)) (le 8 b (o + 8)) (le 8 b (o + 16)) (le 8 b (o + 24))
    (le 8 b (o + 32)) (le 8 b (o + 40)) (le 8 b (o + 48)).

Definition elf_verify (ehdr : Elf64Ehdr) (size : Z) : bool :=
  if size <? EHDR_SIZE then false
  else if negb ((byte_at (e_ident ehdr) 0 =? ELFMAG0) && (byte_at (e_ident ehdr) 1 =? ELFMAG1)
                && (byte_at (e_ident ehdr) 2 =? ELFMAG2) && (byte_at (e_ident ehdr) 3 =? ELFMAG3))
  then false
  else if negb (e_type ehdr =? ET_EXEC) then false
  else if negb (e_machine ehdr =? EM_RISCV) || negb (e_phentsize ehdr =? PHDR_SIZE) then false
  else match checked_add (e_phoff ehdr) (e_phnum ehdr *' e_phentsize ehdr) with
       | Some end_ => end_ <=? size
       | None => false
       end.

(** [copy_nonoverlapping(src, dst, n)] of file bytes. *)
Fixpoint store_bytes (m : memory) (a : Z) (bs : list Z) : memory :=
  match bs with
  | [] => m
  | b :: bs => store_bytes (store8 m a b) (a + 1) bs
  end.
Definition file_bytes (data : list Z) (off n : Z) : list Z := byte_at data <$> seqZ off n.

(** The part of a page the file fills: from [max] to [min]. *)
Definition segment_flags (phdr : Elf64Phdr) : Z :=
  let has f := negb (Z.land (p_flags phdr) f =? 0) in
  let flags := PTE_U in
  let flags := if has PF_R then Z.lor flags PTE_R else flags in
  let flags := if has PF_W then Z.lor flags PTE_W else flags in
  if has PF_X then Z.lor flags PTE_X else flags.
Definition fill_page (data : list Z) (phdr : Elf64Phdr) (page page_va : Z) (m : memory) : memory :=
  let page_end := page_va +' PAGE_SIZE in
  let file_va_start := p_vaddr phdr in
  let file_va_end := file_va_start +' p_filesz phdr in
  let copy_va_start := Z.max page_va file_va_start in
  let copy_va_end := Z.min page_end file_va_end in
  let m := zero_page m page in
  if copy_va_start <? copy_va_end then
    let src_offset := p_offset phdr +' copy_va_start -' file_va_start in
    let dst_offset := copy_va_start -' page_va in
    store_bytes m (page +' dst_offset) (file_bytes data src_offset (copy_va_end -' copy_va_start))
  else m.
Definition load_page (pt : Z) (data : list Z) (phdr : Elf64Phdr) (va_start j : Z) : M (result unit) :=
  page ←? (o ← page_alloc; mret (ok_or o));
  let page_va := va_start +' j *' PAGE_SIZE in
  _ ← modify (set_mem (fill_page data phdr page page_va));
  pgtable_map pt page_va page PAGE_SIZE (segment_flags phdr).

Definition segment_start (phdr : Elf64Phdr) : Z := page_down (p_vaddr phdr).
Definition segment_end (phdr : Elf64Phdr) : Z :=
  page_down (p_vaddr phdr +' p_memsz phdr +' PAGE_SIZE -' 1).

(** The loop over the program headers; its state is the image's extent. *)
Fixpoint load_segments (idxs : list Z) (pt : Z) (data : list Z) (ehdr : Elf64Ehdr)
  (image_start image_end : Z) : M (result (Z * Z)) :=
  match idxs with
  | [] => mret (Ok (image_start, image_end))
  | i :: idxs =>
      let phdr_offset := e_phoff ehdr +' i *' e_phentsize ehdr in
      let phdr := read_phdr data phdr_offset in
      if negb (p_type phdr =? PT_LOAD) || (p_memsz phdr =? 0) then
        load_segments idxs pt data ehdr image_start image_end
      else
        segment_file_end ←? mret (ok_or (checked_add (p_offset phdr) (p_filesz phdr)));
        if (p_memsz phdr <? p_filesz phdr) || (Z.of_nat (length data) <? segment_file_end) then
          mret Err
        else
          let va_start := segment_start phdr in
          let va_end := segment_end phdr in
          let num_pages := (va_end -' va_start) / PAGE_SIZE in
          let image_start := Z.min image_start va_start in
          let image_end := Z.max image_end va_end in
          _ ←? try_foreach (seqZ 0 num_pages) (load_page pt data phdr va_start);
          load_segments idxs pt data ehdr image_start image_end
  end.
Definition elf_load (pt : Z) (data : list Z) (ehdr : Elf64Ehdr) : M (result (Z * Z * Z)) :=
  r ←? load_segments (seqZ 0 (e_phnum ehdr)) pt data ehdr usize_max 0;
  let '(image_start, image_end) := r in
  if image_start =? usize_max then mret Err
  else mret (Ok (e_entry ehdr, image_start, image_end -' image_start)).

(** [load] (the name of the memory access here). *)
Definition load_image (files : initrd) (filename : list Z) : M (result LoadedImage) :=
  elf_data ←? mret (ok_or (initrd_find files filename));
  if Z.of_nat (length elf_data) <? EHDR_SIZE then mret Err
  else
    let ehdr := read_ehdr elf_data in
    if negb (elf_verify ehdr (Z.of_nat (length elf_data))) then mret Err
    else
      pt ←? (o ← pgtable_create; mret (ok_or o));
      _ ←? map_kernel pt;
      r ←? elf_load pt elf_data ehdr;
      let '(entry, image_base, image_size) := r in
      user_stack ←? (o ← page_alloc; mret (ok_or o));
      _ ← modify (set_mem (λ m, zero_page m user_stack));
      _ ←? pgtable_map pt (USER_STACK_TOP - PAGE_SIZE) user_stack PAGE_SIZE
             (Z.lor (Z.lor PTE_R PTE_W) PTE_U);
      mret (Ok (mkLoadedImage pt user_stack entry image_base image_size)).

Section facts.
Implicit Types (m : memory) (data bs : list Z) (phdr : Elf64Phdr).

(** Reading back bytes that were copied. *)
Lemma load8_store_bytes m a bs b :
  load8 (store_bytes m a bs) b =
    if decide (a ≤ b < a + Z.of_nat (length bs))
    then Z.land (default 0 (bs !! Z.to_nat (b - a))) 255 else load8 m b.
Proof.
  revert m a. induction bs as [|x bs IH]; intros m a; cbn [store_bytes length].
  { by rewrite decide_False by lia. }
  rewrite IH. destruct (decide (b = a)) as [->|Hne].
  - rewrite decide_False, load8_store8_eq by lia. rewrite decide_True by lia.
    by rewrite Z.sub_diag.
  - rewrite (load8_store8_ne m a b x) by done.
    destruct (decide (a + 1 ≤ b < a + 1 + Z.of_nat (length bs))) as [Hin|Hout].
    + rewrite decide_True by lia. replace (Z.to_nat (b - a)) with (S (Z.to_nat (b - (a + 1)))) by lia.
      done.
    + by rewrite decide_False by lia.
Qed.
Lemma load8_zero_page m p o : page_aligned p → 0 ≤ o < PAGE_SIZE → load8 (zero_page m p) (p + o) = 0.
Proof.
  intros [Hp Hm] Ho. Transparent load8. unfold load8. Opaque load8.
  assert (align8 (p + o) = p + 8 * (o / 8)) as ->.
  { unfold align8, PAGE_SIZE in *. pose proof (Z.div_mod p 4096). pose proof (Z.div_mod o 8).
    rewrite <- Z.add_mod_idemp_l by lia.
    assert (p mod 8 = 0) as -> by (apply Z.mod_divide; [lia|]; apply Z.mod_divide in Hm as [q ->]; [|lia];
      exists (q * 512); lia).
    rewrite Z.add_0_l. lia. }
  rewrite load64_zero_page; [by rewrite Z.shiftr_0_l|]. unfold PAGE_SIZE in Ho.
  split; [apply Z.div_pos; lia|apply Z.div_lt_upper_bound; lia].
Qed.
Lemma lookup_file_bytes data off n k :
  0 ≤ k < n → file_bytes data off n !! Z.to_nat k = Some (byte_at data (off + k)).
Proof.
  intros Hk. unfold file_bytes. rewrite list_lookup_fmap, lookup_seqZ_lt by lia. cbn.
  do 2 f_equal. lia.
Qed.
Lemma length_file_bytes data off n : length (file_bytes data off n) = Z.to_nat n.
Proof. unfold file_bytes. by rewrite length_fmap, length_seqZ. Qed.
End facts.

(** ** Properties *)

(** A verified ELF file is read inside its bounds.  If [elf_verify] accepts the header of a
    file of bytes, the header itself is in the file and so is every program
    header [elf_load] reads, at [e_phoff + i * 56] with no wrap-around. *)
Lemma elf_headers_in_bounds data i :
  Forall is_byte data → elf_verify (read_ehdr data) (Z.of_nat (length data)) = true →
  0 ≤ i < e_phnum (read_ehdr data) → Z.of_nat (length data) < 2 ^ 63 →
  EHDR_SIZE ≤ Z.of_nat (length data) ∧
  e_phoff (read_ehdr data) +' i *' e_phentsize (read_ehdr data) =
    e_phoff (read_ehdr data) + i * PHDR_SIZE ∧
  0 ≤ e_phoff (read_ehdr data) ∧
  e_phoff (read_ehdr data) + i * PHDR_SIZE + PHDR_SIZE ≤ Z.of_nat (length data).
Proof.
  intros Hb Hv Hi Hlen. unfold elf_verify in Hv.
  destruct (Z.ltb_spec (Z.of_nat (length data)) EHDR_SIZE) as [|Hsize]; [done|].
  destruct (negb _) in Hv; [done|]. destruct (negb (e_type _ =? _)) in Hv; [done|].
  destruct (_ || _) eqn:Em in Hv; [done|]. apply orb_false_elim in Em as [_ Em%negb_false_iff%Z.eqb_eq].
  rewrite Em in Hv |- *.
  assert (0 ≤ e_phnum (read_ehdr data) < 65536) as Hn by exact (le_bound 2 data 56 Hb).
  assert (0 ≤ e_phoff (read_ehdr data) < 2 ^ 64) as Ho by exact (le_bound 8 data 32 Hb).
  unfold PHDR_SIZE, EHDR_SIZE in *.
  assert (e_phnum (read_ehdr data) *' 56 = e_phnum (read_ehdr data) * 56) as E
    by (unfold u64; apply Z.mod_small; lia).
  rewrite E in Hv. unfold checked_add in Hv.
  destruct (Z.ltb_spec (e_phoff (read_ehdr data) + e_phnum (read_ehdr data) * 56) (2 ^ 64)); [|done].
  apply Z.leb_le in Hv. split; [done|]. split; [|lia].
  unfold u64. rewrite (Z.mod_small (i * 56)) by lia. rewrite Z.mod_small by lia. lia.
Qed.
(** A small ELF file: one executable segment of four file bytes, eight in memory. *)
Definition demo_elf : list Z :=
  [0x7f; 69; 76; 70] ++ replicate 12 0 ++ le_bytes 2 ET_EXEC ++ le_bytes 2 EM_RISCV ++
  le_bytes 4 1 ++ le_bytes 8 0x10000 ++ le_bytes 8 64 ++ le_bytes 8 0 ++ le_bytes 4 0 ++
  le_bytes 2 64 ++ le_bytes 2 56 ++ le_bytes 2 1 ++ replicate 6 0 ++
  le_bytes 4 PT_LOAD ++ le_bytes 4 5 ++ le_bytes 8 120 ++ le_bytes 8 0x10000 ++
  le_bytes 8 0x10000 ++ le_bytes 8 4 ++ le_bytes 8 8 ++ le_bytes 8 4096 ++ [0x13; 0; 0; 0].
Lemma demo_elf_bytes : Forall is_byte demo_elf.
Proof. vm_compute. repeat constructor; congruence. Qed.

(** A loaded page holds the file's bytes and zeros.  For a segment inside the user address space
    whose file part lies in the file, the page [fill_page] prepares for [page_va] contains at offset [o] the file
    byte of the address [page_va + o] where the segment has one, and zero elsewhere. *)
Lemma fill_page_contents data phdr page page_va m o :
  page_aligned page → page + PAGE_SIZE ≤ 2 ^ 56 → page_aligned page_va →
  page_va + PAGE_SIZE ≤ 2 ^ 39 → 0 ≤ p_vaddr phdr → 0 ≤ p_filesz phdr →
  p_vaddr phdr + p_filesz phdr ≤ 2 ^ 39 → 0 ≤ p_offset phdr →
  p_offset phdr + p_filesz phdr ≤ Z.of_nat (length data) → Z.of_nat (length data) < 2 ^ 62 →
  0 ≤ o < PAGE_SIZE →
  load8 (fill_page data phdr page page_va m) (page + o) =
    if decide (p_vaddr phdr ≤ page_va + o < p_vaddr phdr + p_filesz phdr)
    then Z.land (byte_at data (p_offset phdr + (page_va + o - p_vaddr phdr))) 255 else 0.
Proof.
  intros Hpage Hpb [Hva _] Hvb Hv0 Hf0 Hvf Ho0 Hof Hlen Ho. unfold fill_page. pose proof Hpage as [Hp0 _].
  assert (page_va +' PAGE_SIZE = page_va + PAGE_SIZE) as ->
    by (unfold u64, PAGE_SIZE in *; apply Z.mod_small; lia).
  assert (p_vaddr phdr +' p_filesz phdr = p_vaddr phdr + p_filesz phdr) as ->
    by (unfold u64; apply Z.mod_small; lia).
  set (vs := p_vaddr phdr) in *. set (ve := vs + p_filesz phdr) in *.
  set (lo := Z.max page_va vs). set (hi := Z.min (page_va + PAGE_SIZE) ve).
  destruct (Z.ltb_spec lo hi) as [Hlt|Hge].
  - assert (lo -' page_va = lo - page_va ∧ hi -' lo = hi - lo ∧
      p_offset phdr +' lo -' vs = p_offset phdr + (lo - vs)) as (-> & -> & ->).
    { unfold lo, hi, ve, PAGE_SIZE in *. unfold u64.
      rewrite (Z.mod_small (p_offset phdr + _)) by lia. rewrite !Z.mod_small by lia. lia. }
    assert (page +' (lo - page_va) = page + (lo - page_va)) as ->
      by (unfold u64, lo, hi, ve, PAGE_SIZE in *; apply Z.mod_small; lia).
    rewrite load8_store_bytes, length_file_bytes.
    destruct (decide (lo ≤ page_va + o < hi)) as [Hin|Hout].
    + rewrite decide_True by lia. rewrite decide_True by (unfold lo, hi, ve in *; lia).
      rewrite lookup_file_bytes by lia. cbn [default from_option id]. do 2 f_equal. lia.
    + rewrite decide_False by lia. rewrite decide_False by (unfold lo, hi, ve in *; lia).
      by apply load8_zero_page.
  - rewrite decide_False by (unfold lo, hi, ve in *; lia). by apply load8_zero_page.
Qed.
