(* ===== verification/Load.v ===== *)
(** The program loader of [Exec.v] builds the address space it should: facts about
    [load_image].

    [program_ok] is what the loader relies on of a program and does not check: its bytes are
    bytes, every segment is readable, writable or executable, and ends below the kernel's
    mappings, as the linker script places it.  For such a program the loader returns, never
    writes outside fresh pages, and when it succeeds every page of every segment holds the
    file's bytes and zeros with the segment's permissions. *)

From S2P Require Import Prelude Bytes Arch Page Memory Machine Pgtable Vm Trap Ipc Task Space Sched Inv IpcFacts Create Build Fork Initrd Exec.

#[local] Arguments read_ehdr : simpl never.
#[local] Arguments read_phdr : simpl never.

(** ** The program *)

Definition phdr_at (data : list Z) (i : Z) : Elf64Phdr :=
  read_phdr data (e_phoff (read_ehdr data) +' i *' e_phentsize (read_ehdr data)).
(** The segments that take part. *)
Definition loads (phdr : Elf64Phdr) : bool := (p_type phdr =? PT_LOAD) && negb (p_memsz phdr =? 0).
Definition segment_ok (phdr : Elf64Phdr) : bool :=
  if loads phdr then negb (Z.land (p_flags phdr) 7 =? 0) && (p_vaddr phdr + p_memsz phdr <=? USER_LIMIT)
  else true.
Definition is_byteb (b : Z) : bool := (0 <=? b) && (b <? 256).
Definition program_ok (data : list Z) : bool :=
  forallb is_byteb data && (Z.of_nat (length data) <? 2 ^ 62) &&
  forallb (λ i, segment_ok (phdr_at data i)) (seqZ 0 (e_phnum (read_ehdr data))).
(** The checks of [elf_load] on one segment. *)
Definition segment_in_file (data : list Z) (phdr : Elf64Phdr) : bool :=
  (p_filesz phdr <=? p_memsz phdr) && (p_offset phdr + p_filesz phdr <=? Z.of_nat (length data)).
Definition segment_va (phdr : Elf64Phdr) (va : Z) : Prop :=
  page_range (segment_start phdr) (segment_end phdr) va.
(** Page [p] holds what the program sees at [va]: file bytes, then zeros. *)
Definition page_filled (data : list Z) (phdr : Elf64Phdr) (va p : Z) (m : memory) : Prop :=
  ∀ o, 0 ≤ o < PAGE_SIZE → load8 m (p + o) =
    if decide (p_vaddr phdr ≤ va + o < p_vaddr phdr + p_filesz phdr)
    then byte_at data (p_offset phdr + (va + o - p_vaddr phdr)) else 0.

Section segments.
Implicit Types (data : list Z) (phdr : Elf64Phdr) (m : memory).

Lemma program_bytes data : program_ok data = true → Forall is_byte data.
Proof.
  unfold program_ok. rewrite !andb_true_iff, forallb_forall. intros [[H _] _].
  apply Forall_forall. intros b Hb. apply list_elem_of_In in Hb. specialize (H b Hb).
  unfold is_byteb, is_byte in *. lia.
Qed.
Lemma program_length data : program_ok data = true → Z.of_nat (length data) < 2 ^ 62.
Proof. unfold program_ok. rewrite !andb_true_iff. intros [[_ H] _]. lia. Qed.
Lemma program_segment data i :
  program_ok data = true → 0 ≤ i < e_phnum (read_ehdr data) → segment_ok (phdr_at data i) = true.
Proof.
  unfold program_ok. rewrite !andb_true_iff, !forallb_forall. intros [_ H] Hi. apply H.
  apply list_elem_of_In, elem_of_seqZ. lia.
Qed.
(** The fields of a header read from bytes. *)
Lemma phdr_bounds data i :
  Forall is_byte data → let phdr := phdr_at data i in
  is_u64 (p_vaddr phdr) ∧ is_u64 (p_memsz phdr) ∧ is_u64 (p_filesz phdr) ∧ is_u64 (p_offset phdr) ∧
  0 ≤ p_flags phdr.
Proof.
  intros Hb phdr. subst phdr. unfold phdr_at. generalize (e_phoff (read_ehdr data) +' i *' e_phentsize (read_ehdr data)).
  intros o. assert (∀ n o, 0 ≤ le n data o < 256 ^ Z.of_nat n) as H by (intros; by apply le_bound).
  pose proof (H 8%nat) as H8. pose proof (H 4%nat (o + 4)) as H4. unfold is_u64, read_phdr.
  cbn [p_vaddr p_memsz p_filesz p_offset p_flags]. change (2 ^ 64) with (256 ^ Z.of_nat 8).
  split; [apply H8|]. split; [apply H8|]. split; [apply H8|]. split; [apply H8|apply H4].
Qed.

Lemma segment_leaf phdr : Z.land (p_flags phdr) 7 ≠ 0 → pte_leaf (segment_flags phdr) = true.
Proof.
  intros Hf. unfold segment_flags.
  destruct (Z.eqb_spec (Z.land (p_flags phdr) PF_R) 0) as [E1|], (Z.eqb_spec (Z.land (p_flags phdr) PF_W) 0) as [E2|],
    (Z.eqb_spec (Z.land (p_flags phdr) PF_X) 0) as [E3|]; cbn [negb]; try by vm_compute.
  exfalso. apply Hf. change 7 with (Z.lor (Z.lor PF_R PF_W) PF_X). by rewrite !Z.land_lor_distr_r, E1, E2, E3.
Qed.
Lemma segment_flags_bound phdr : 0 ≤ Z.lor (segment_flags phdr) PTE_V < 2 ^ 10.
Proof.
  unfold segment_flags. do 3 (case_match); by vm_compute.
Qed.

Lemma segment_range phdr :
  is_u64 (p_vaddr phdr) → is_u64 (p_memsz phdr) → loads phdr = true → segment_ok phdr = true →
  page_aligned (segment_start phdr) ∧ page_aligned (segment_end phdr) ∧
  segment_start phdr ≤ p_vaddr phdr ∧ p_vaddr phdr + p_memsz phdr ≤ segment_end phdr ≤ USER_LIMIT ∧
  0 < p_memsz phdr ∧
  segment_end phdr -' segment_start phdr = segment_end phdr - segment_start phdr.
Proof.
  intros [Hv0 _] [Hm0 _] Hl Hok. unfold segment_ok in Hok. rewrite Hl in Hok.
  apply andb_true_iff in Hok as [_ Hb%Z.leb_le]. unfold loads in Hl.
  assert (0 < p_memsz phdr) as Hm by lia. unfold segment_start, segment_end, USER_LIMIT in *.
  assert (p_vaddr phdr +' p_memsz phdr +' PAGE_SIZE -' 1 = p_vaddr phdr + p_memsz phdr + 4095) as ->.
  { unfold u64, PAGE_SIZE. rewrite (Z.mod_small (p_vaddr phdr + p_memsz phdr)) by lia.
    rewrite (Z.mod_small (_ + 4096)) by lia. rewrite Z.mod_small by lia. lia. }
  destruct (page_down_aligned (p_vaddr phdr)) as [Ha1 Hb1]; [unfold is_u64; lia|].
  destruct (page_down_aligned (p_vaddr phdr + p_memsz phdr + 4095)) as [Ha2 Hb2]; [unfold is_u64; lia|].
  split; [done|]. split; [done|]. split; [lia|]. destruct Ha1 as [? ?], Ha2 as [? Hm2].
  unfold PAGE_SIZE in *. pose proof (Z.div_mod (page_down (p_vaddr phdr + p_memsz phdr + 4095)) 4096).
  split; [lia|]. split; [done|]. unfold u64. rewrite Z.mod_small; lia.
Qed.

(** [fill_page] writes its page only. *)
Lemma load64_store_bytes_out m a bs b :
  (∀ k, 0 ≤ k < Z.of_nat (length bs) → align8 (a + k) ≠ b) → load64 (store_bytes m a bs) b = load64 m b.
Proof.
  revert m a. induction bs as [|x bs IH]; intros m a H; cbn [store_bytes length] in *; [done|].
  rewrite IH.
  - apply load64_store8_ne. specialize (H 0 ltac:(lia)). by rewrite Z.add_0_r in H.
  - intros k Hk. replace (a + 1 + k) with (a + (k + 1)) by lia. apply H. lia.
Qed.
Lemma fill_page_out data phdr page page_va m a :
  page_aligned page → page + PAGE_SIZE < 2 ^ 56 → page_aligned page_va → page_va + PAGE_SIZE ≤ 2 ^ 39 →
  is_u64 (p_vaddr phdr) → ¬ in_page page a → load64 (fill_page data phdr page page_va m) a = load64 m a.
Proof.
  intros Hpa Hpb [Hv0 _] Hvb [Hu0 Hub] Ha. unfold fill_page.
  assert (page_va +' PAGE_SIZE = page_va + PAGE_SIZE) as -> by (unfold u64, PAGE_SIZE in *; apply Z.mod_small; lia).
  set (lo := Z.max page_va _). set (hi := Z.min _ _).
  assert (load64 (zero_page m page) a = load64 m a) as Hz by by apply load64_zero_page_out.
  destruct (Z.ltb_spec lo hi) as [Hlt|?]; [|done]. rewrite <- Hz. apply load64_store_bytes_out.
  rewrite length_file_bytes. destruct Hpa as [Hp0 Hpm].
  assert (lo -' page_va = lo - page_va ∧ hi -' lo = hi - lo) as (-> & ->).
  { unfold u64, lo, hi, PAGE_SIZE in *. rewrite !Z.mod_small by lia. split; reflexivity. }
  assert (page +' (lo - page_va) = page + (lo - page_va)) as ->
    by (unfold u64, lo, hi, PAGE_SIZE in *; apply Z.mod_small; lia).
  intros k Hk <-. apply Ha. apply align8_in_page; [exact (conj Hp0 Hpm)|]. unfold in_page, lo, hi, PAGE_SIZE in *. lia.
Qed.
End segments.

(** ** The loop over the segments *)

Section loading.
Context (h0 : mach) (pt : Z) (data : list Z).
Hypothesis program : program_ok data = true.
Implicit Types (h : mach) (us : gmap Z Z) (D : Z → Z → Prop).

Definition file_segment (i : Z) : Prop :=
  0 ≤ i < e_phnum (read_ehdr data) ∧ loads (phdr_at data i) = true ∧
  segment_in_file data (phdr_at data i) = true.

(** [D i va]: the page at [va] of segment [i] is loaded. *)
Record loading h us D : Prop := {
  ld_building : building h0 h pt us [];
  ld_pages i va : D i va → ∃ p, us !! va = Some p ∧
    pt_lookup (mem h) pt va = Some (pa_to_pte p (Z.lor (segment_flags (phdr_at data i)) PTE_V)) ∧
    page_filled data (phdr_at data i) va p (mem h);
  ld_dom va : is_Some (us !! va) ↔ ∃ i, D i va;
}.
Lemma loading_iff h us D D' : (∀ i va, D i va ↔ D' i va) → loading h us D → loading h us D'.
Proof.
  intros HD [Hb Hp Hd]. split; [done| |].
  - intros i va H%HD. by apply Hp.
  - intros va. rewrite Hd. split; intros [i H]; exists i; by apply HD.
Qed.

Lemma page_filled_kept phdr va p m m' :
  page_aligned p → (∀ a, in_page p a → load64 m' a = load64 m a) →
  page_filled data phdr va p m → page_filled data phdr va p m'.
Proof. intros Hp H Hf o Ho. rewrite (load8_page m) by done. by apply Hf. Qed.

(** A page of a segment. *)
Lemma segment_page i va :
  file_segment i → segment_va (phdr_at data i) va →
  page_aligned va ∧ va + PAGE_SIZE ≤ USER_LIMIT ∧ kernel_va va = false ∧ page_of va = va.
Proof.
  intros (Hi & Hl & _) [Hva Hm]. destruct (phdr_bounds data i (program_bytes _ program)) as (Hv & Hmz & _).
  destruct (segment_range _ Hv Hmz Hl (program_segment _ _ program Hi)) as ([Hs0 _] & [_ Hem] & _ & [_ Heb] & _).
  assert (USER_LIMIT mod PAGE_SIZE = 0) as HL by by vm_compute.
  assert (va + PAGE_SIZE ≤ USER_LIMIT) as Hb.
  { unfold PAGE_SIZE in *. pose proof (Z.div_mod va 4096). pose proof (Z.div_mod USER_LIMIT 4096). lia. }
  split; [split; [lia|done]|]. split; [done|]. split; [|by apply page_of_aligned].
  destruct (kernel_va va) eqn:E; [|done]. apply kernel_va_limit in E. unfold PAGE_SIZE in *. lia.
Qed.
Lemma segment_filled i va p m :
  file_segment i → segment_va (phdr_at data i) va → page_aligned p → p + PAGE_SIZE < 2 ^ 56 →
  page_filled data (phdr_at data i) va p (fill_page data (phdr_at data i) p va m).
Proof.
  intros Hs Hva Hp Hpb o Ho. destruct (segment_page i va Hs Hva) as (Hvaa & Hvab & _).
  destruct Hs as (Hi & Hl & Hin). unfold segment_in_file in Hin.
  pose proof (program_bytes _ program) as Hby. pose proof (program_length _ program) as Hlen.
  destruct (phdr_bounds data i Hby) as (Hv & Hmz & Hfz & Hof & _). unfold is_u64 in *.
  destruct (segment_range _ Hv Hmz Hl (program_segment _ _ program Hi)) as (_ & _ & _ & [He1 He2] & _).
  unfold USER_LIMIT in *. rewrite fill_page_contents; try done; try lia.
  case_decide; [|done]. pose proof (byte_at_bound data (p_offset (phdr_at data i) + (va + o - p_vaddr (phdr_at data i))) Hby) as Hb.
  unfold is_byte in Hb. change 255 with (Z.ones 8). rewrite Z.land_ones by lia. apply Z.mod_small. lia.
Qed.
Lemma load_page_wp i j va h us D :
  file_segment i → segment_va (phdr_at data i) va →
  segment_start (phdr_at data i) +' j *' PAGE_SIZE = va → loading h us D →
  wp (load_page pt data (phdr_at data i) (segment_start (phdr_at data i)) j) (λ r h',
    (∃ us' ex', building h0 h' pt us' ex') ∧
    ((∀ i', ¬ D i' va) → 3 ≤ free_count h → r = Ok tt ∧ free_count h - 3 ≤ free_count h') ∧
    (r = Ok tt → ∃ us', loading h' us' (λ i' v, D i' v ∨ i' = i ∧ v = va))) h.
Proof.
  intros Hs Hva Ej [Hb Hp Hd]. destruct (segment_page i va Hs Hva) as (Hvaa & Hvab & Hkv & Hpo).
  destruct (phdr_bounds data i (program_bytes _ program)) as (Hv & _).
  pose proof (program_segment _ _ program (proj1 Hs)) as Hok. destruct Hs as (Hi & Hl & Hin).
  assert (Z.land (p_flags (phdr_at data i)) 7 ≠ 0) as Hf7.
  { unfold segment_ok in Hok. rewrite Hl in Hok. lia. }
  unfold load_page. rewrite Ej. eapply wp_mono.
  { apply (building_page_wp h0 h pt us [] va _ (λ p m, fill_page data (phdr_at data i) p va m)); try done.
    - unfold USER_LIMIT in *. lia.
    - by apply segment_leaf.
    - apply segment_flags_bound.
    - intros p m a Hpa Hpb. apply fill_page_out; try done. unfold USER_LIMIT in *. lia. }
  intros r h' (Hbd & Hroom & Hok'). split; [done|]. split.
  { intros Hn Hf. apply Hroom; [done| |done]. destruct (us !! va) eqn:E; [|done].
    destruct (proj1 (Hd va)) as [i' Hi']; [by rewrite E|]. by destruct (Hn i'). }
  intros ->. destruct (Hok' eq_refl) as (p & Hpa & Hpb & Hun & _ & Hb' & Hnew & Hck & Hlk).
  exists (<[va := p]> us). split; [done| |].
  - intros i' v [HD|[-> ->]].
    + destruct (Hp i' v HD) as (q & Hq & El & Hfill). destruct (b_keys _ _ _ _ _ Hb v q Hq) as ([Hv0 Hvm] & Hvb & _).
      assert (v ≠ va) as Hne by (intros ->; congruence). exists q.
      split; [by rewrite lookup_insert_ne|]. split.
      * rewrite Hlk by (unfold PAGE_SIZE in *; lia). rewrite decide_False; [done|]. by rewrite page_of_aligned.
      * destruct (building_page_aligned _ _ _ _ _ _ _ Hb Hq) as [Hqa _].
        apply (page_filled_kept _ _ _ (mem h)); [done| |done]. intros a. apply Hck.
        -- apply (b_alloc _ _ _ _ _ Hb). eauto.
        -- by destruct (b_pages _ _ _ _ _ Hb v q Hq) as (_ & ? & _).
    + exists p. split; [apply lookup_insert_eq|]. split.
      * rewrite Hlk, decide_True; [done|done|]. unfold USER_LIMIT, PAGE_SIZE in *. destruct Hvaa. lia.
      * apply (page_filled_kept _ _ _ (fill_page data (phdr_at data i) p va (mem h))); [done|done|].
        by apply segment_filled.
  - intros v. destruct (decide (v = va)) as [->|Hne].
    + rewrite lookup_insert_eq. split; [|done]. intros _. exists i. by right.
    + rewrite lookup_insert_ne, Hd by done. split; intros [i' H]; exists i'; [by left|]. by destruct H as [?|[_ ?]].
Qed.
(** The pages of one segment. *)
Definition segment_count (phdr : Elf64Phdr) : Z := range_count (segment_start phdr) (segment_end phdr).
Lemma segment_count_eq phdr : segment_count phdr = (segment_end phdr - segment_start phdr) / PAGE_SIZE.
Proof. done. Qed.
Lemma load_segment_wp i h us D :
  file_segment i → loading h us D →
  let phdr := phdr_at data i in
  wp (try_foreach (seqZ 0 (segment_count phdr)) (load_page pt data phdr (segment_start phdr))) (λ r h',
    (∃ us' ex', building h0 h' pt us' ex') ∧
    ((∀ i' va, segment_va phdr va → ¬ D i' va) → 3 * segment_count phdr ≤ free_count h →
       r = Ok tt ∧ free_count h - 3 * segment_count phdr ≤ free_count h') ∧
    (r = Ok tt → ∃ us', loading h' us' (λ i' v, D i' v ∨ i' = i ∧ segment_va phdr v))) h.
Proof.
  intros Hs H phdr. set (n := segment_count phdr). pose proof Hs as (Hi & Hl & _).
  destruct (phdr_bounds data i (program_bytes _ program)) as (Hv & Hmz & _).
  destruct (segment_range _ Hv Hmz Hl (program_segment _ _ program Hi)) as (Hsa & Hea & Hse & Heb & Hm0 & _).
  fold phdr in Hsa, Hea, Hse, Heb, Hm0. unfold USER_LIMIT in Heb.
  set (vat := λ k, segment_start phdr + k * PAGE_SIZE).
  assert (∀ v, segment_va phdr v ↔ ∃ k, 0 ≤ k < n ∧ v = vat k) as Hva.
  { intros v. unfold segment_va. rewrite <- elem_of_range_step, range_step_pages by (done || lia).
    rewrite list_elem_of_fmap. setoid_rewrite elem_of_seqZ.
    unfold n, segment_count, range_count. rewrite Z.add_0_l. split; [intros (k & -> & ?)|intros (k & ? & ->)]; by exists k. }
  set (room := (∀ i' va, segment_va phdr va → ¬ D i' va) ∧ 3 * n ≤ free_count h).
  assert (0 ≤ n) as Hn by (unfold n, segment_count, range_count, PAGE_SIZE; apply Z.div_pos; lia).
  apply wp_try_foreach with (I := λ dn h', let k := Z.of_nat (length dn) in
    (∃ us', loading h' us' (λ i' v, D i' v ∨ i' = i ∧ ∃ j, 0 ≤ j < k ∧ v = vat j)) ∧
    (room → free_count h - 3 * k ≤ free_count h')).
  - cbn. split; [|lia]. exists us. apply (loading_iff h us D); [|done]. intros i' v.
    split; [by left|]. intros [?|(_ & j & ? & _)]; [done|lia].
  - intros dn x rest h' Hdn [[us' H'] Hroom]. set (k := Z.of_nat (length dn)) in *.
    assert (seqZ 0 n !! length dn = Some x) as Hx by (by rewrite Hdn, list_lookup_middle).
    apply lookup_seqZ in Hx as [-> Hlt]. rewrite Z.add_0_l. fold k.
    assert (segment_va phdr (vat k)) as Hsv by (apply Hva; exists k; lia).
    destruct (segment_page i (vat k) Hs Hsv) as ([Hk0 _] & Hkb & _).
    eapply wp_mono.
    { apply (load_page_wp i k (vat k) h' us' (λ i' v, D i' v ∨ i' = i ∧ ∃ j, 0 ≤ j < k ∧ v = vat j) Hs Hsv); [|exact H'].
      fold phdr. pose proof (proj1 Hsa) as Hs0. assert (0 ≤ k) as Hk1 by (unfold k; lia). clearbody k.
      unfold vat, USER_LIMIT, u64, PAGE_SIZE in *. rewrite (Z.mod_small (k * 4096)) by lia. apply Z.mod_small. lia. }
    intros r h'' (Hb & Hstep & Hok).
    assert (room → r = Ok tt ∧ free_count h - 3 * (k + 1) ≤ free_count h'') as Hr.
    { intros Hro. specialize (Hroom Hro). destruct Hro as [Hd Hf]. destruct Hstep as [-> ?]; [|lia|split; [done|lia]].
      intros i' [?|(-> & j & Hj & E)]; [by apply (Hd i' (vat k))|]. unfold vat, PAGE_SIZE in E. lia. }
    destruct r as [[]|].
    + rewrite length_app. cbn [length]. replace (Z.of_nat (length dn + 1)) with (k + 1) by lia.
      split; [|intros ?; by apply Hr]. destruct (Hok eq_refl) as [us'' H'']. exists us''.
      eapply loading_iff; [|exact H'']. intros i' v. split.
      * intros [[?|(-> & j & ? & ?)]|[-> ->]]; [by left|right..]; (split; [done|]); [exists j|exists k]; (split; [lia|done]).
      * intros [?|(-> & j & ? & ->)]; [by left; left|]. destruct (decide (j = k)) as [->|]; [by right|].
        left. right. split; [done|]. exists j. split; [lia|done].
    + split; [done|]. split; [|done]. intros ??. by destruct Hr.
  - intros h' [[us' H'] Hroom]. rewrite length_seqZ, Z2Nat.id in * by done. split; [|split].
    + exists us', []. apply H'.
    + intros ??. split; [done|]. by apply Hroom.
    + intros _. exists us'. eapply loading_iff; [|exact H']. intros i' v. by rewrite Hva.
Qed.
(** The image's extent: [load_segments]'s state. *)
Record extent D (st en : Z) : Prop := {
  ex_end : page_aligned en ∧ en ≤ USER_LIMIT;
  ex_start : st = usize_max ∧ en = 0 ∨ page_aligned st ∧ st < en;
  ex_in i va : D i va → st ≤ va < en;
}.
Definition with_segments D (idxs : list Z) : Z → Z → Prop := λ i va,
  D i va ∨ i ∈ idxs ∧ loads (phdr_at data i) = true ∧ segment_va (phdr_at data i) va.
Definition segments_count (idxs : list Z) : Z :=
  foldr (λ i n, (if loads (phdr_at data i) then segment_count (phdr_at data i) else 0) + n) 0 idxs.
(** What it takes to load the segments [idxs] after those of [D]: they lie in the file, no page
    belongs to two of them, and memory suffices. *)
Definition loadable D (idxs : list Z) (free : Z) : Prop :=
  NoDup idxs ∧ 3 * segments_count idxs ≤ free ∧
  ∀ i, i ∈ idxs → loads (phdr_at data i) = true → segment_in_file data (phdr_at data i) = true ∧
    ∀ j va, segment_va (phdr_at data i) va → ¬ D j va ∧
      (j ∈ idxs → j ≠ i → loads (phdr_at data j) = true → ¬ segment_va (phdr_at data j) va).

Lemma segment_count_pos i :
  0 ≤ i < e_phnum (read_ehdr data) → loads (phdr_at data i) = true →
  0 ≤ segment_count (phdr_at data i).
Proof.
  intros Hi Hl. destruct (phdr_bounds data i (program_bytes _ program)) as (Hv & Hmz & _).
  destruct (segment_range _ Hv Hmz Hl (program_segment _ _ program Hi)) as (_ & _ & ? & ? & ? & _).
  unfold segment_count, range_count, PAGE_SIZE. apply Z.div_pos; lia.
Qed.
Lemma segments_count_pos idxs : Forall (λ i, 0 ≤ i < e_phnum (read_ehdr data)) idxs → 0 ≤ segments_count idxs.
Proof.
  induction 1 as [|i idxs Hi _ IH]; [done|]. cbn [segments_count foldr] in *. fold (segments_count idxs).
  destruct (loads _) eqn:E; [|lia]. pose proof (segment_count_pos i Hi E). lia.
Qed.
Lemma extent_segment D st en i :
  0 ≤ i < e_phnum (read_ehdr data) → loads (phdr_at data i) = true → extent D st en →
  extent (λ i' v, D i' v ∨ i' = i ∧ segment_va (phdr_at data i) v)
    (Z.min st (segment_start (phdr_at data i))) (Z.max en (segment_end (phdr_at data i))).
Proof.
  intros Hi Hl [[Hea Heb] Hst Hin]. destruct (phdr_bounds data i (program_bytes _ program)) as (Hv & Hmz & _).
  destruct (segment_range _ Hv Hmz Hl (program_segment _ _ program Hi)) as (Hsa & Hse & ? & ? & ? & _).
  split.
  - split; [by apply Z.max_case|lia].
  - right. split; [|lia]. destruct Hst as [[-> _]|[Ha _]]; [|by apply Z.min_case].
    rewrite Z.min_r; [done|]. unfold usize_max, USER_LIMIT in *. lia.
  - intros i' v [HD|(_ & Hr & _)]; [specialize (Hin _ _ HD)|]; lia.
Qed.

Lemma extent_iff D D' st en : (∀ i va, D i va ↔ D' i va) → extent D st en → extent D' st en.
Proof. intros HD [? ? Hin]. split; [done|done|]. intros i va Hi%HD. by apply (Hin i). Qed.
Lemma segments_count_cons i idxs :
  segments_count (i :: idxs) =
    (if loads (phdr_at data i) then segment_count (phdr_at data i) else 0) + segments_count idxs.
Proof. done. Qed.

(** A header that is skipped, and one that is loaded. *)
Definition with_segment D (i : Z) : Z → Z → Prop := λ i' v, D i' v ∨ i' = i ∧ segment_va (phdr_at data i) v.
Lemma skip_test phdr : negb (p_type phdr =? PT_LOAD) || (p_memsz phdr =? 0) = negb (loads phdr).
Proof. unfold loads. by destruct (p_type phdr =? PT_LOAD), (p_memsz phdr =? 0). Qed.
Lemma with_segments_skip D i idxs j va :
  loads (phdr_at data i) = false → with_segments D idxs j va ↔ with_segments D (i :: idxs) j va.
Proof.
  intros Hl. unfold with_segments. rewrite elem_of_cons. split; [tauto|].
  intros [?|([->|?] & ? & ?)]; [by left|congruence|by right].
Qed.
Lemma with_segments_cons D i idxs j va :
  loads (phdr_at data i) = true →
  with_segments (with_segment D i) idxs j va ↔ with_segments D (i :: idxs) j va.
Proof.
  intros Hl. unfold with_segments, with_segment. rewrite elem_of_cons. split.
  - intros [[?|[-> ?]]|?]; [by left|right..]; tauto.
  - intros [?|([->|?] & ? & ?)]; [by left; left|left; by right|by right].
Qed.
Lemma loadable_skip D i idxs free :
  loads (phdr_at data i) = false → loadable D (i :: idxs) free → loadable D idxs free.
Proof.
  intros Hl ([_ Hnd]%NoDup_cons & Hf & Hall). rewrite segments_count_cons, Hl in Hf. split; [done|].
  split; [lia|]. intros j Hj Hlj. destruct (Hall j) as [? Hd]; [by right|done|]. split; [done|].
  intros j' va Hva. destruct (Hd j' va Hva) as [? Hd']. split; [done|]. intros Hj'. apply Hd'. by right.
Qed.
Lemma loadable_cons D i idxs free free' :
  loads (phdr_at data i) = true → loadable D (i :: idxs) free →
  free - 3 * segment_count (phdr_at data i) ≤ free' → loadable (with_segment D i) idxs free'.
Proof.
  intros Hl ([Hni Hnd]%NoDup_cons & Hf & Hall) Hf'. rewrite segments_count_cons, Hl in Hf. split; [done|].
  split; [lia|]. intros j Hj Hlj. destruct (Hall j) as [? Hd]; [by right|done|]. split; [done|].
  intros j' va Hva. destruct (Hd j' va Hva) as [? Hd']. split.
  - intros [?|[-> Hi]]; [done|]. apply (Hd i va Hva); [by left| |done|done]. by intros ->.
  - intros Hj'. apply Hd'. by right.
Qed.

Definition load_post D idxs h (r : result (Z * Z)) h' : Prop :=
  (∃ us' ex', building h0 h' pt us' ex') ∧
  (loadable D idxs (free_count h) → r ≠ Err ∧ free_count h - 3 * segments_count idxs ≤ free_count h') ∧
  match r with
  | Ok (st', en') => ∃ us', loading h' us' (with_segments D idxs) ∧ extent (with_segments D idxs) st' en' ∧
      ∀ i, i ∈ idxs → loads (phdr_at data i) = true → segment_in_file data (phdr_at data i) = true
  | Err => True
  end.
Lemma segment_check phdr :
  is_u64 (p_offset phdr) → is_u64 (p_filesz phdr) → Z.of_nat (length data) < 2 ^ 62 →
  segment_in_file data phdr = match checked_add (p_offset phdr) (p_filesz phdr) with
    | Some e => negb ((p_memsz phdr <? p_filesz phdr) || (Z.of_nat (length data) <? e))
    | None => false
    end.
Proof.
  intros [Ho _] [Hf _] Hlen. unfold segment_in_file, checked_add.
  destruct (Z.ltb_spec (p_offset phdr + p_filesz phdr) (2 ^ 64)).
  - by rewrite negb_orb, <- !Z.leb_antisym.
  - apply andb_false_iff. right. lia.
Qed.
Lemma load_segments_wp idxs h us D st en :
  Forall (λ i, 0 ≤ i < e_phnum (read_ehdr data)) idxs → loading h us D → extent D st en →
  wp (load_segments idxs pt data (read_ehdr data) st en) (load_post D idxs h) h.
Proof.
  revert h us D st en. induction idxs as [|i idxs IH]; intros h us D st en Hidx H He.
  { apply wp_ret. split; [exists us, []; apply H|]. split; [intros _; split; [done|change (segments_count []) with 0; lia]|].
    assert (∀ i va, D i va ↔ with_segments D [] i va) as HD.
    { intros i va. unfold with_segments. rewrite elem_of_nil. tauto. }
    exists us. split; [by apply (loading_iff h us D)|]. split; [by apply (extent_iff D)|].
    intros i Hi. by apply elem_of_nil in Hi. }
  apply Forall_cons in Hidx as [Hi Hidx]. cbn [load_segments]. fold (phdr_at data i). rewrite skip_test.
  destruct (loads (phdr_at data i)) eqn:Hl; cbn [negb].
  2: { eapply wp_mono; [by apply (IH h us D st en)|]. intros r h' (Hb & Hroom & Hr). split; [done|]. split.
       - intros Hld%loadable_skip; [|done]. rewrite segments_count_cons, Hl. by apply Hroom.
       - destruct r as [[st' en']|]; [|done]. destruct Hr as (us' & H' & He' & Hin). exists us'.
         pose proof (λ j va, with_segments_skip D i idxs j va Hl) as HD.
         split; [by apply (loading_iff h' us' (with_segments D idxs))|]. split; [by apply (extent_iff (with_segments D idxs))|].
         intros j [->|Hj]%elem_of_cons; [congruence|by apply Hin]. }
  assert (∀ P, (loadable D (i :: idxs) (free_count h) → segment_in_file data (phdr_at data i) = true → P) →
    loadable D (i :: idxs) (free_count h) → P) as Hfile.
  { intros P HP Hld. apply HP; [done|]. destruct Hld as (_ & _ & Hall). apply Hall; [by left|done]. }
  destruct (phdr_bounds data i (program_bytes _ program)) as (Hv & Hmz & Hfz & Hof & _).
  destruct (segment_range _ Hv Hmz Hl (program_segment _ _ program Hi)) as (_ & _ & _ & _ & _ & Hsz).
  pose proof (segment_check _ Hof Hfz (program_length _ program)) as Hck.
  assert (segment_in_file data (phdr_at data i) = false → load_post D (i :: idxs) h Err h) as Hbad.
  { intros E. split; [exists us, []; apply H|]. split; [|done]. apply Hfile. congruence. }
  apply wp_try_bind, wp_ret. destruct (checked_add _ _) as [e|]; cbn [ok_or]; [|by apply Hbad].
  destruct (_ || _); [by apply wp_ret, Hbad|]. apply wp_try_bind. rewrite Hsz, <- segment_count_eq. eapply wp_mono; [apply (load_segment_wp i h us D); [by split|done]|].
  intros r h1 (Hb1 & Hroom1 & Hok1). assert (loadable D (i :: idxs) (free_count h) →
    r = Ok tt ∧ free_count h - 3 * segment_count (phdr_at data i) ≤ free_count h1) as Hr1.
  { intros (Hnd & Hf & Hall). destruct (Hall i) as [_ Hd]; [by left|done|].
    rewrite segments_count_cons, Hl in Hf. apply Hroom1.
    - intros j va Hva. by apply (Hd j va Hva).
    - pose proof (segments_count_pos idxs Hidx). lia. }
  destruct r as [[]|].
  2: { split; [done|]. split; [|done]. intros [? _]%Hr1. done. }
  destruct (Hok1 eq_refl) as [us1 H1]. eapply wp_mono.
  { apply (IH h1 us1 (with_segment D i)); [done|exact H1|by apply extent_segment]. }
  intros r h2 (Hb2 & Hroom2 & Hr2). split; [done|]. split.
  - intros Hld. destruct (Hr1 Hld) as [_ Hf1]. rewrite segments_count_cons, Hl.
    destruct Hroom2 as [? ?]; [by apply (loadable_cons D i idxs (free_count h))|]. split; [done|lia].
  - destruct r as [[st' en']|]; [|done]. destruct Hr2 as (us2 & H2 & He2 & Hin2). exists us2.
    pose proof (λ j va, with_segments_cons D i idxs j va Hl) as HD.
    split; [by apply (loading_iff h2 us2 (with_segments (with_segment D i) idxs))|].
    split; [by apply (extent_iff (with_segments (with_segment D i) idxs))|].
    intros j [->|Hj]%elem_of_cons; [done|by apply Hin2].
Qed.
End loading.

(** ** [load] *)

(** The image as a task's space: its heap is empty and starts where the image ends. *)
Definition task_of (img : LoadedImage) : Task :=
  image_task (img_pagetable img) (img_user_stack img) (img_entry img) (img_base img) (img_size img)
    (img_base img + img_size img).
(** The program [data] is in the memory of [t], with an empty stack. *)
Record program_in (m : memory) (t : Task) (data : list Z) : Prop := {
  pi_segment i va :
    0 ≤ i < e_phnum (read_ehdr data) → loads (phdr_at data i) = true → segment_va (phdr_at data i) va →
    user_page t va ∧ ∃ p, page_aligned p ∧ p < 2 ^ 56 ∧
      pt_lookup m (pagetable t) va = Some (pa_to_pte p (Z.lor (segment_flags (phdr_at data i)) PTE_V)) ∧
      page_filled data (phdr_at data i) va p m;
  pi_only va : user_page t va → is_Some (pt_lookup m (pagetable t) va) →
    ∃ i, 0 ≤ i < e_phnum (read_ehdr data) ∧ loads (phdr_at data i) = true ∧ segment_va (phdr_at data i) va;
  pi_stack : pt_lookup m (pagetable t) STACK_VA =
      Some (pa_to_pte (user_stack t) (Z.lor stack_flags PTE_V)) ∧ user_stack t ≠ 0 ∧
    ∀ k, 0 ≤ k < 512 → load64 m (user_stack t + 8 * k) = 0;
}.
(** What [load_image] built from [data] between machines [h0] and [h]. *)
Record image_loaded (h0 h : mach) (data : list Z) (img : LoadedImage) : Prop := {
  il_entry : img_entry img = e_entry (read_ehdr data);
  il_built : ∃ us, built h0 h us [] (task_of img);
  il_program : program_in (mem h) (task_of img) data;
}.
(** A program that loads when [free] pages are free. *)
Record load_possible (data : list Z) (free : Z) : Prop := {
  lp_size : EHDR_SIZE ≤ Z.of_nat (length data);
  lp_header : elf_verify (read_ehdr data) (Z.of_nat (length data)) = true;
  lp_some : ∃ i, 0 ≤ i < e_phnum (read_ehdr data) ∧ loads (phdr_at data i) = true;
  lp_segments : loadable data (λ _ _, False) (seqZ 0 (e_phnum (read_ehdr data))) (free - 28);
}.
(** The pages it then takes at most: the root, 24 tables for the kernel's map, three for the stack
    and three per page of a segment. *)
Definition load_pages (data : list Z) : Z :=
  28 + 3 * segments_count data (seqZ 0 (e_phnum (read_ehdr data))).

Section load.
Implicit Types (h : mach) (us : gmap Z Z) (data : list Z).

Lemma loaded_segments_iff data i va :
  with_segments data (λ _ _, False) (seqZ 0 (e_phnum (read_ehdr data))) i va ↔
  0 ≤ i < e_phnum (read_ehdr data) ∧ loads (phdr_at data i) = true ∧ segment_va (phdr_at data i) va.
Proof. unfold with_segments. rewrite elem_of_seqZ, Z.add_0_l. tauto. Qed.
Lemma load_pages_pos data : program_ok data = true → 28 ≤ load_pages data.
Proof.
  intros Hp. unfold load_pages. assert (0 ≤ segments_count data (seqZ 0 (e_phnum (read_ehdr data)))); [|lia].
  apply segments_count_pos; [done|]. apply Forall_forall. intros i Hi%elem_of_seqZ. lia.
Qed.
(** The state after [elf_load]: [loading] with all segments, and the extent. *)
Definition segments_done h0 pt data h us (st en : Z) : Prop :=
  let D := with_segments data (λ _ _, False) (seqZ 0 (e_phnum (read_ehdr data))) in
  loading h0 pt data h us D ∧ extent D st en ∧ page_aligned st ∧ st < en ∧
  ∀ i, 0 ≤ i < e_phnum (read_ehdr data) → loads (phdr_at data i) = true →
    segment_in_file data (phdr_at data i) = true.
Lemma elf_load_wp h0 h pt data :
  program_ok data = true → building h0 h pt ∅ [] →
  wp (elf_load pt data (read_ehdr data)) (λ r h', extends h0 h' ∧ match r with
    | Ok (entry, base, size) => ∃ us en, entry = e_entry (read_ehdr data) ∧ size = en - base ∧
        segments_done h0 pt data h' us base en ∧
        (3 * segments_count data (seqZ 0 (e_phnum (read_ehdr data))) ≤ free_count h →
         loadable data (λ _ _, False) (seqZ 0 (e_phnum (read_ehdr data))) (free_count h) →
         free_count h - 3 * segments_count data (seqZ 0 (e_phnum (read_ehdr data))) ≤ free_count h')
    | Err => ¬ (loadable data (λ _ _, False) (seqZ 0 (e_phnum (read_ehdr data))) (free_count h) ∧
        ∃ i, 0 ≤ i < e_phnum (read_ehdr data) ∧ loads (phdr_at data i) = true)
    end) h.
Proof.
  intros Hp Hb. unfold elf_load. apply wp_try_bind. set (idxs := seqZ 0 _). set (D := λ _ _ : Z, False).
  assert (Forall (λ i, 0 ≤ i < e_phnum (read_ehdr data)) idxs) as Hidx.
  { apply Forall_forall. intros i Hi%elem_of_seqZ. lia. }
  eapply wp_mono.
  { apply (load_segments_wp h0 pt data Hp idxs h ∅ D usize_max 0 Hidx).
    - split; [done|done|]. intros va. rewrite lookup_empty. split; [by intros [? ?]|by intros [? []]].
    - split; [done|by left|by intros ???]. }
  intros r h' ((us' & ex' & Hb') & Hroom & Hr). pose proof (b_ext _ _ _ _ _ Hb') as He.
  destruct r as [[st en]|].
  2: { split; [done|]. intros [Hl _]. by destruct (Hroom Hl). }
  destruct Hr as (us & Hld & Hex & Hin).
  assert (∀ i, 0 ≤ i < e_phnum (read_ehdr data) → loads (phdr_at data i) = true → st < en) as Hne.
  { intros i Hi Hl. destruct (phdr_bounds data i (program_bytes _ Hp)) as (Hv & Hmz & _).
    destruct (segment_range _ Hv Hmz Hl (program_segment _ _ Hp Hi)) as (Hsa & _ & ? & ? & ? & _).
    destruct (ex_in _ _ _ Hex i (segment_start (phdr_at data i))) as [? ?]; [|lia].
    apply loaded_segments_iff. split; [done|]. split; [done|]. split; [lia|apply Hsa]. }
  destruct (Z.eqb_spec st usize_max) as [->|Hst]; apply wp_ret; (split; [done|]).
  - intros [_ (i & Hi & Hl)]. specialize (Hne i Hi Hl). destruct (ex_end _ _ _ Hex) as [_ ?].
    unfold usize_max, USER_LIMIT in *. lia.
  - destruct (ex_start _ _ _ Hex) as [[? _]|[Hsa Hlt]]; [done|]. exists us, en.
    destruct (ex_end _ _ _ Hex) as [_ Hel]. split; [done|]. split.
    { destruct Hsa. unfold u64, USER_LIMIT in *. rewrite Z.mod_small; lia. }
    split; [|intros _ Hld'; by apply Hroom]. split; [done|]. split; [done|]. split; [done|]. split; [done|].
    intros i Hi Hl. apply Hin; [|done]. apply elem_of_seqZ. lia.
Qed.
(** The stack page comes last. *)
Lemma image_loaded_intro h0 h h' pt data us st en p :
  program_ok data = true → segments_done h0 pt data h us st en →
  building h0 h' pt (<[STACK_VA := p]> us) [] → us !! STACK_VA = None → p ≠ 0 →
  page_aligned p → p < 2 ^ 56 → pt < 2 ^ 56 →
  (∀ v, 0 ≤ v < 2 ^ 39 → pt_lookup (mem h') pt v = if decide (page_of v = STACK_VA)
     then Some (pa_to_pte p (Z.lor stack_flags PTE_V)) else pt_lookup (mem h) pt v) →
  (∀ va q, us !! va = Some q → ∀ a, in_page q a → load64 (mem h') a = load64 (mem h) a) →
  (∀ k, 0 ≤ k < 512 → load64 (mem h') (p + 8 * k) = 0) →
  image_loaded h0 h' data (mkLoadedImage pt p (e_entry (read_ehdr data)) st (en - st)).
Proof.
  intros Hp (Hld & Hex & Hsa & Hlt & Hfile) Hb' Hun Hp0 Hpa Hpb Hptb Hlk Hkept Hz.
  destruct (ex_end _ _ _ Hex) as [[He0 Hem] Heb]. pose proof Hsa as [Hs0 Hsm].
  set (img := mkLoadedImage _ _ _ _ _).
  assert (∀ va q, us !! va = Some q → page_range st en va) as Hus.
  { intros va q Hq. destruct (proj1 (ld_dom _ _ _ _ _ _ Hld va)) as [i Hi]; [by rewrite Hq|].
    split; [by apply (ex_in _ _ _ Hex i)|]. apply loaded_segments_iff in Hi as (_ & _ & _ & ?). done. }
  assert (∀ va, page_range st en va → user_page (task_of img) va) as Hrange.
  { intros va Hva. left. unfold image_lo, image_hi. cbn [task_of image_task img img_base img_size image_base image_size].
    assert (st +' (en - st) +' PAGE_SIZE -' 1 = en + 4095) as ->.
    { unfold u64, USER_LIMIT, PAGE_SIZE in *. rewrite (Z.mod_small (st + (en - st))) by lia.
      rewrite (Z.mod_small (_ + 4096)) by lia. rewrite Z.mod_small by lia. lia. }
    rewrite !page_down_spec by (unfold is_u64, USER_LIMIT, PAGE_SIZE in *; lia).
    unfold PAGE_SIZE in *. rewrite Hsm, Z.sub_0_r. replace (en + 4095) with (en + 4095 + 0 * 4096) by lia.
    assert ((en + 4095 + 0 * 4096) mod 4096 = 4095) as ->
      by (rewrite Z.mod_add, <- Z.add_mod_idemp_l, Hem by lia; done).
    replace (en + 4095 + 0 * 4096 - 4095) with en by lia. done. }
  assert (built h0 h' (<[STACK_VA := p]> us) [] (task_of img)) as Hbt.
  { split; cbn [task_of image_task img img_pagetable img_user_stack pagetable user_stack kernel_stack].
    - exact Hb'.
    - split; cbn [task_of image_task img image_base image_size heap_base heap_end user_stack kernel_stack pagetable trap_frame
        img_base img_size img_user_stack img_pagetable].
      + lia.
      + replace (st + (en - st)) with en by lia. split; [by split|lia].
      + by split.
      + by split.
      + lia.
      + unfold FRAME_SIZE, FRAME_WORDS, PAGE_SIZE. lia.
    - split; [apply lookup_insert_eq|done].
    - intros va b [[<- _]|[_ Hb]]%lookup_insert_Some; [by right|]. left. by apply Hrange, (Hus va b).
    - by destruct (b_pages _ _ _ _ _ Hb' STACK_VA p (lookup_insert_eq _ _ _)) as (_ & ? & _). }
  split; [done|by exists (<[STACK_VA := p]> us)|]. split.
  - intros i va Hi Hl Hva. destruct (ld_pages _ _ _ _ _ _ Hld i va) as (q & Hq & El & Hfill).
    { apply loaded_segments_iff. done. }
    destruct (segment_page data Hp i va) as ([Hv0 Hvm] & Hvb & _ & Hpo); [split; [done|split; [done|by apply Hfile]]|done|].
    assert (STACK_VA ≠ va) as Hne by (intros <-; congruence).
    destruct (building_page_aligned _ _ _ _ _ _ _ (ld_building _ _ _ _ _ _ Hld) Hq) as [Hqa Hqb].
    split; [by apply Hrange, (Hus va q)|]. exists q. split; [done|]. split; [unfold PAGE_SIZE in *; lia|]. split.
    + cbn [task_of image_task img img_pagetable pagetable].
      rewrite Hlk by (unfold USER_LIMIT, PAGE_SIZE in *; lia). rewrite decide_False; congruence.
    + apply (page_filled_kept _ _ _ _ (mem h)); [done|by apply (Hkept va)|done].
  - intros va Hva [pte Hl]. pose proof (built_layout _ _ _ _ _ Hbt) as Hlay.
    destruct (user_page_spec _ va Hlay Hva) as (Hr & Hpo & Hkv & Hne).
    pose proof (b_entries _ _ _ _ _ Hb' va Hr Hkv) as E. rewrite Hpo, lookup_insert_ne in E by done.
    cbn [task_of image_task img img_pagetable pagetable] in Hl. rewrite Hl in E. cbn in E.
    destruct (proj1 (ld_dom _ _ _ _ _ _ Hld va)) as [i Hi]; [by rewrite <- E|].
    exists i. by apply loaded_segments_iff.
  - split; [|by split]. cbn [task_of image_task img img_pagetable img_user_stack pagetable user_stack]. rewrite Hlk by by vm_compute. by rewrite decide_True by by vm_compute.
Qed.
Lemma load_stack_wp h0 h pt data us st en size :
  program_ok data = true → segments_done h0 pt data h us st en → pt < 2 ^ 56 → size = en - st →
  wp (user_stack ←? (o ← page_alloc; mret (ok_or o));
      _ ← modify (set_mem (λ m, zero_page m user_stack));
      _ ←? pgtable_map pt (USER_STACK_TOP - PAGE_SIZE) user_stack PAGE_SIZE
             (Z.lor (Z.lor PTE_R PTE_W) PTE_U);
      mret (Ok (mkLoadedImage pt user_stack (e_entry (read_ehdr data)) st size))) (λ r h',
    extends h0 h' ∧ match r with
      | Ok img => image_loaded h0 h' data img ∧ (3 ≤ free_count h → free_count h - 3 ≤ free_count h')
      | Err => free_count h < 3
      end) h.
Proof.
  intros Hp Hsd Hptb ->. pose proof Hsd as (Hld & Hex & Hsa & Hlt & Hfile).
  pose proof (ld_building _ _ _ _ _ _ Hld) as Hb. apply wp_try_bind, wp_bind.
  eapply wp_mono; [by apply building_alloc_wp|]. intros [p|] h1.
  2: { intros [-> ?]. apply wp_ret. split; [by apply Hb|lia]. }
  intros (H1 & Hm1 & Hpa & Hpb & Hpn & Hal1 & Hf1). apply wp_ret. cbn [ok_or]. apply wp_bind, wp_modify.
  destruct (b_extra _ _ _ _ _ H1 p) as [Hp0 Hpt]; [by left|].
  assert (is_alloc h1 p) as Hp1 by (apply (b_alloc _ _ _ _ _ H1); do 3 right; by left).
  assert (∀ m a, ¬ in_page p a → load64 (zero_page m p) a = load64 m a) as Hz by (intros; by apply load64_zero_page_out).
  pose proof (building_write _ _ _ _ _ p _ H1 Hp1 Hp0 Hpt Hz) as H2. set (h2 := set_mem _ h1) in *.
  assert (us !! STACK_VA = None) as Hun.
  { destruct (us !! STACK_VA) eqn:E; [|done]. destruct (proj1 (ld_dom _ _ _ _ _ _ Hld STACK_VA)) as [i Hi]; [by rewrite E|].
    apply (ex_in _ _ _ Hex) in Hi. destruct (ex_end _ _ _ Hex) as [_ ?].
    assert (USER_LIMIT < STACK_VA) by by vm_compute. lia. }
  apply wp_try_bind. fold STACK_VA. fold stack_flags. eapply wp_mono.
  { apply (building_map_wp h0 h2 pt us [] [] p STACK_VA stack_flags); (done || by vm_compute). }
  intros r h3 (Hck & _ & Hroom & Hr). destruct r as [[]|].
  2: { destruct Hr as [Hr _]. split; [apply (b_ext _ _ _ _ _ Hr)|].
       destruct (Z.lt_ge_cases (free_count h) 3); [done|]. change (free_count h2) with (free_count h1) in Hroom.
       destruct Hroom as [? _]; [done|done|lia|done]. }
  destruct Hr as (_ & _ & Hb3 & Hlk). cbn [app] in Hb3. apply wp_ret. split; [apply (b_ext _ _ _ _ _ Hb3)|].
  assert (∀ b a, is_alloc h b → in_page b a → load64 (mem h2) a = load64 (mem h) a) as Hkeep.
  { apply (kept_lookup h0 h h2 pt us [] p (λ m, zero_page m p)); [done..|apply H2| |done]. by rewrite <- Hm1. }
  assert (∀ v, pt_lookup (mem h2) pt v = pt_lookup (mem h) pt v) as Hlk2.
  { intros v. apply pt_lookup_frame. intros b a Hb'. apply Hkeep. by apply (ready_owned _ _ (b_ready _ _ _ _ _ Hb)). }
  split.
  2: { intros Hf. change (free_count h2) with (free_count h1) in Hroom. destruct Hroom as [_ ?]; [done|done|lia|lia]. }
  apply (image_loaded_intro h0 h h3 pt data us); try done.
  - apply is_alloc_pos in Hp1; [lia|apply H1].
  - unfold PAGE_SIZE in Hpb. lia.
  - intros v Hv. rewrite Hlk, Hlk2 by done. done.
  - intros va q Hq a Ha. assert (is_alloc h q) as Hqa by (apply (b_alloc _ _ _ _ _ Hb); eauto).
    rewrite (Hck q a); [by apply (Hkeep q)|by apply Hal1| |done].
    by destruct (b_pages _ _ _ _ _ H2 va q Hq) as (_ & ? & _).
  - intros k Hk. rewrite (Hck p); [by apply load64_zero_page|done| |unfold in_page, PAGE_SIZE; lia].
    by destruct (b_extra _ _ _ _ _ H2 p) as [_ ?]; [by left|].
Qed.

Lemma load_image_wp files name h :
  (∀ data, initrd_find files name = Some data → program_ok data = true) → pages_wf h →
  wp (load_image files name) (λ r h', extends h h' ∧ match r with
    | Ok img => ∃ data, initrd_find files name = Some data ∧
        elf_verify (read_ehdr data) (Z.of_nat (length data)) = true ∧ image_loaded h h' data img ∧
        (load_possible data (free_count h) → free_count h - load_pages data ≤ free_count h')
    | Err => ¬ ∃ data, initrd_find files name = Some data ∧ load_possible data (free_count h)
    end) h.
Proof.
  intros Hprog Hpw. pose proof (extends_refl h Hpw) as He0. unfold load_image.
  apply wp_try_bind, wp_ret. destruct (initrd_find files name) as [data|]; cbn [ok_or].
  2: { split; [done|]. by intros (? & ? & _). }
  specialize (Hprog data eq_refl).
  assert (¬ load_possible data (free_count h) →
    ¬ ∃ data', Some data = Some data' ∧ load_possible data' (free_count h)) as Hone.
  { intros HP (? & [= <-] & Hl). by apply HP. }
  destruct (Z.ltb_spec (Z.of_nat (length data)) EHDR_SIZE) as [Hsz|_].
  { apply wp_ret. split; [done|]. apply Hone. intros [? _ _ _]. lia. }
  destruct (elf_verify (read_ehdr data) (Z.of_nat (length data))) eqn:Ev; cbn [negb].
  2: { apply wp_ret. split; [done|]. apply Hone. intros [_ ? _ _]. congruence. }
  apply wp_try_bind, wp_bind. eapply wp_mono; [by apply pgtable_create_ext|]. intros [pt|] h1.
  2: { intros [-> Hz]. apply wp_ret. split; [done|]. apply Hone. intros [_ _ _ (_ & Hf & _)].
       assert (0 ≤ segments_count data (seqZ 0 (e_phnum (read_ehdr data)))); [|lia].
       apply segments_count_pos; [done|]. apply Forall_forall. intros i Hi%elem_of_seqZ. lia. }
  intros (He1 & Hpta & Hptb & Hptn & Hal1 & Hf1 & Hbl & Hr). apply wp_ret. cbn [ok_or]. apply wp_try_bind.
  eapply wp_mono.
  { apply (building_start_wp h h h1 pt []); [done|by apply NoDup_nil| | |done..].
    - intros b. rewrite elem_of_nil. tauto.
    - intros b Hb. by apply elem_of_nil in Hb. }
  intros r h2 (He2 & _ & Hbd & Hok2). destruct r as [[]|].
  2: { split; [done|]. apply Hone. intros [_ _ _ (_ & Hf & _)].
       assert (0 ≤ segments_count data (seqZ 0 (e_phnum (read_ehdr data)))).
       { apply segments_count_pos; [done|]. apply Forall_forall. intros i Hi%elem_of_seqZ. lia. }
       destruct Hok2 as [? _]; [lia|done]. }
  specialize (Hbd eq_refl). apply wp_try_bind. eapply wp_mono; [by apply (elf_load_wp h)|].
  intros r h3 [He3 Hr3].
  assert (load_possible data (free_count h) → loadable data (λ _ _, False) (seqZ 0 (e_phnum (read_ehdr data))) (free_count h2)
    ∧ 3 * segments_count data (seqZ 0 (e_phnum (read_ehdr data))) + 3 ≤ free_count h2
    ∧ free_count h - 25 ≤ free_count h2) as Hlp.
  { intros [_ _ _ (Hnd & Hf & Hall)].
    assert (0 ≤ segments_count data (seqZ 0 (e_phnum (read_ehdr data)))).
    { apply segments_count_pos; [done|]. apply Forall_forall. intros i Hi%elem_of_seqZ. lia. }
    destruct Hok2 as [_ ?]; [lia|]. split; [|lia]. split; [done|]. split; [lia|done]. }
  destruct r as [[[entry base] size]|].
  2: { split; [done|]. apply Hone. intros Hl. apply Hr3. split; [by apply Hlp|]. apply Hl. }
  destruct Hr3 as (us & en & -> & -> & Hsd & Hf3).
  eapply wp_mono; [apply (load_stack_wp h h3 pt data us base en); (done || (unfold PAGE_SIZE in *; lia))|].
  intros r h4 [He4 Hr4]. split; [done|]. destruct r as [img|].
  { destruct Hr4 as [Him Hf4]. exists data. do 3 (split; [done|]). intros Hl.
    destruct (Hlp Hl) as (Hld & ? & ?). specialize (Hf3 ltac:(lia) Hld). specialize (Hf4 ltac:(lia)).
    unfold load_pages. lia. }
  apply Hone. intros Hl. destruct (Hlp Hl) as (Hld & ? & ?). specialize (Hf3 ltac:(lia) Hld). lia.
Qed.
End load.
