(* ===== verification/ExecFacts.v ===== *)
(** [exec]'s second half: [replace_current] of [Task.v] gives the running task the loaded
    image, releases the old one and starts the program with empty arguments. *)

From S2P Require Import Prelude Bytes Arch Page Memory Machine Pgtable Vm Trap Ipc Task Space Sched Inv IpcFacts Create Build Fork Initrd Exec Load.

Definition exec_image (img : LoadedImage) : Task → Task :=
  set_image (img_pagetable img) (img_user_stack img) (img_entry img) (img_base img) (img_size img)
    (img_base img + img_size img).
(** The registers a program starts with; the others are as [exec] left them. *)
Definition start_frame (f : TrapFrame) (entry : Z) : TrapFrame :=
  mkTrapFrame
    (tf_ra f) USER_STACK_TOP (tf_gp f) (tf_tp f) (tf_t0 f) (tf_t1 f) (tf_t2 f) (tf_s0 f)
    (tf_s1 f) 0 0 0 (tf_a3 f) (tf_a4 f) (tf_a5 f) (tf_a6 f)
    (tf_a7 f) (tf_s2 f) (tf_s3 f) (tf_s4 f) (tf_s5 f) (tf_s6 f) (tf_s7 f) (tf_s8 f)
    (tf_s9 f) (tf_s10 f) (tf_s11 f) (tf_t3 f) (tf_t4 f) (tf_t5 f) (tf_t6 f)
    (tf_sstatus f) entry.
(** What [replace_current] leaves behind; [h0] is the machine before the image was loaded. *)
Record replaced (h0 : mach) (s s' : tsys) (t : Task) (img : LoadedImage) : Prop := {
  rp_self : ∃ i, current_index (self s) = Some i ∧
    self s' = set_tasks (alter (fmap (exec_image img)) i) (self s);
  rp_frame : frame_at (mem (hw s')) (trap_frame t) = start_frame (frame_at (mem h0) (trap_frame t)) (img_entry img);
  rp_satp : load64 (mem (hw s')) (trap_frame t + FRAME_SIZE + 8) = satp_of (img_pagetable img);
  rp_image b a : is_alloc (hw s) b → ¬ is_alloc h0 b → in_page b a →
    load64 (mem (hw s')) a = load64 (mem (hw s)) a;
  rp_alloc b : is_alloc (hw s') b ↔ is_alloc (hw s) b ∧ ¬ space_page (mem h0) t b;
}.

Section replace.
Implicit Types (s : tsys) (h : mach) (t : Task) (img : LoadedImage).

(** The stores into the caller's frame. *)
Definition start_mem (tf entry pt : Z) (m : memory) : memory :=
  store64 (store64 (store64 (store64 (store64 (store64 m (tf +' FRAME_SIZE +' 8) (satp_of pt))
    (tf +' off_sp) USER_STACK_TOP) (tf +' off_sepc) entry) (tf +' off_a0) 0) (tf +' off_a1) 0)
    (tf +' off_a2) 0.
Lemma satp_word t :
  layout_ok t → trap_frame t +' FRAME_SIZE +' 8 = trap_frame t + FRAME_SIZE + 8 ∧
  in_page (kernel_stack t) (trap_frame t + FRAME_SIZE + 8).
Proof.
  intros [_ _ _ [[Hk0 _] Hk] _ [H1 H2]]. unfold FRAME_SIZE, FRAME_WORDS, PAGE_SIZE in *.
  unfold u64, in_page, PAGE_SIZE. rewrite (Z.mod_small (trap_frame t + _)) by lia. rewrite Z.mod_small by lia. lia.
Qed.
Lemma start_mem_out t entry pt m a :
  layout_ok t → ¬ in_page (kernel_stack t) a → load64 (start_mem (trap_frame t) entry pt m) a = load64 m a.
Proof.
  intros Hl Ha. unfold start_mem. rewrite !(field_store_out t) by (done || by vm_compute).
  destruct (satp_word t Hl) as [-> Hin]. apply load64_store64_ne. by intros <-.
Qed.
Lemma start_mem_frame t entry pt m :
  layout_ok t →
  frame_at (start_mem (trap_frame t) entry pt m) (trap_frame t) = start_frame (frame_at m (trap_frame t)) entry ∧
  load64 (start_mem (trap_frame t) entry pt m) (trap_frame t + FRAME_SIZE + 8) = satp_of pt.
Proof.
  intros Hl. unfold start_mem. destruct (satp_word t Hl) as [-> _].
  destruct (frame_field t off_sp Hl ltac:(by vm_compute)) as [-> _].
  destruct (frame_field t off_sepc Hl ltac:(by vm_compute)) as [-> _].
  destruct (frame_field t off_a0 Hl ltac:(by vm_compute)) as [-> _].
  destruct (frame_field t off_a1 Hl ltac:(by vm_compute)) as [-> _].
  destruct (frame_field t off_a2 Hl ltac:(by vm_compute)) as [-> _].
  generalize (trap_frame t). intros p. unfold off_sp, off_sepc, off_a0, off_a1, off_a2, FRAME_SIZE, FRAME_WORDS. split.
  - unfold frame_at, start_frame. cbn [tf_ra tf_sp tf_gp tf_tp tf_t0 tf_t1 tf_t2 tf_s0 tf_s1 tf_a0 tf_a1 tf_a2 tf_a3
      tf_a4 tf_a5 tf_a6 tf_a7 tf_s2 tf_s3 tf_s4 tf_s5 tf_s6 tf_s7 tf_s8 tf_s9 tf_s10 tf_s11 tf_t3 tf_t4
      tf_t5 tf_t6 tf_sstatus tf_sepc].
    f_equal; repeat (rewrite load64_store64_eq || rewrite load64_store64_ne by lia); done.
  - repeat (rewrite load64_store64_eq || rewrite load64_store64_ne by lia); done.
Qed.

(** The old image of [t] is released on machine [h1], which still has the new one of [img]. *)
Section step.
Context (h0 h1 h2 : mach) (t : Task) (img : LoadedImage) (us : gmap Z Z).
Hypothesis task_ok : space_ok h0 t.
Hypothesis task_alloc : ∀ b, owns (mem h0) t b → is_alloc h0 b.
Hypothesis task_apart : ∀ va, user_va t va → ¬ maps (mem h0) t va (kernel_stack t).
Hypothesis image : built h0 h1 us [] (task_of img).
Hypothesis freed : pages_wf h2 ∧ same_globals h1 h2 ∧
  (∀ a, (∀ b, is_table (mem h0) (pagetable t) b → ¬ in_page b a) → ¬ in_page (kernel_stack t) a →
     load64 (mem h2) a = load64 (mem h1) a) ∧
  ∀ b, is_alloc h2 b ↔ is_alloc h1 b ∧ ¬ space_page (mem h0) t b.

Lemma image_ext : extends h0 h1.
Proof. apply (b_ext _ _ _ _ _ (built_building _ _ _ _ _ image)). Qed.
Lemma image_page_kept b a :
  is_alloc h1 b → ¬ is_alloc h0 b → in_page b a → load64 (mem h2) a = load64 (mem h1) a.
Proof.
  intros Hb Hn Hin. pose proof image_ext as He. destruct freed as (_ & _ & Hm & _).
  assert (∀ b', is_alloc h0 b' → ¬ in_page b' a) as Hout.
  { intros b' Hb' Hin'. apply Hn. assert (b = b') as ->; [|done].
    apply (is_alloc_aligned h1) in Hb as [Hb _]; [|apply He].
    apply (ext_alloc _ _ He), (is_alloc_aligned h1) in Hb' as [Hb' _]; [|apply He]. by apply (pages_apart b b' a). }
  apply Hm; [|apply Hout, task_alloc; by right]. intros b' Hb'. apply Hout, task_alloc. left. by left.
Qed.
Lemma image_tables_same : tables_same h1 h2 (task_of img).
Proof.
  intros b a Hb. pose proof (built_building _ _ _ _ _ image) as Hbd. apply image_page_kept.
  - by apply (ready_owned _ _ (b_ready _ _ _ _ _ Hbd)).
  - by apply (b_new _ _ _ _ _ Hbd).
Qed.
Lemma image_alloc b : is_alloc h1 b → ¬ is_alloc h0 b → is_alloc h2 b.
Proof.
  intros Hb Hn. apply freed. split; [done|]. intros Hs. apply Hn, task_alloc. by left.
Qed.
Lemma exec_layout : layout_ok (exec_image img t).
Proof.
  pose proof (built_layout _ _ _ _ _ image) as [L1 L2 L3 _ L5 _].
  destruct (space_layout _ _ task_ok) as [_ _ _ K4 _ K6]. by split.
Qed.
Lemma exec_same_user : same_user (task_of img) (exec_image img t).
Proof. done. Qed.
Lemma exec_space_ok : space_ok h2 (exec_image img t).
Proof.
  pose proof (built_building _ _ _ _ _ image) as Hbd. pose proof (built_space_ok _ _ _ _ _ image) as Hok.
  assert (space_ok h2 (task_of img)) as [_ Hr Hl _ Hu Hk].
  { apply (space_ok_frame h1); [apply image_tables_same|apply freed| |done]. intros b Hb.
    apply image_alloc; [by apply (ready_owned _ _ (space_ready _ _ Hok))|by apply (b_new _ _ _ _ _ Hbd)]. }
  split; [apply exec_layout|exact Hr|exact Hl| |by apply (same_user_ok _ (task_of img))|exact Hk].
  change (¬ is_table (mem h2) (pagetable (task_of img)) (kernel_stack t)).
  rewrite (is_table_frame (mem h1) (mem h2)) by apply image_tables_same. intros Hb.
  apply (b_new _ _ _ _ _ Hbd) in Hb. apply Hb, task_alloc. by right.
Qed.
Lemma exec_pages b :
  space_page (mem h2) (exec_image img t) b → is_alloc h1 b ∧ ¬ is_alloc h0 b.
Proof.
  intros Hb. apply (built_fresh h0 h1 us [] (task_of img) b image).
  assert (owns (mem h2) (task_of img) b) as Ho by by left.
  apply (owns_frame h1 h2) in Ho as [?| ->]; [done| |apply image_tables_same].
  change (kernel_stack (task_of img)) with (user_stack (task_of img)).
  right. right. destruct (built_stack _ _ _ _ _ image). done.
Qed.
Lemma exec_step : space_step h0 h2 t (exec_image img t).
Proof.
  pose proof image_ext as He. destruct freed as (Hp & Hg & Hm & Hal). split.
  - eapply same_globals_trans; [apply He|done].
  - apply exec_space_ok.
  - intros b Hb Hn. apply Hal. split; [by apply He|]. intros Hs. apply Hn. by left.
  - intros b a Hb Hn Hin. rewrite Hm; [by apply (ext_mem _ _ He b)| |].
    + intros b' Hb' Hin'. apply Hn. assert (b' = b) as <-; [|left; by left].
      apply (pages_apart b' b a); try done; (apply (is_alloc_aligned h1); [apply He|apply He]); [|done].
      apply task_alloc. left. by left.
    + intros Hin'. apply Hn. right. apply (pages_apart b (kernel_stack t) a); try done; [|apply (space_layout _ _ task_ok)].
      apply (is_alloc_aligned h1); [apply He|by apply He].
  - intros b [Hb| ->].
    + destruct (exec_pages b Hb). split; [by apply image_alloc|by right].
    + split; [|left; by right]. apply Hal. assert (is_alloc h0 (kernel_stack t)) as Ha by (apply task_alloc; by right).
      split; [by apply He|]. by apply (kstack_no_space h0 t).
  - intros va Hva Hma. destruct (exec_pages (kernel_stack t)) as [_ Hn]; [|apply Hn, task_alloc; by right].
    apply (user_va_space _ _ va); [apply exec_space_ok|done|done].
Qed.
End step.

(** [exec] after the image was loaded on machine [h0], which took the machine to [hw s]. *)
Lemma replace_current_wp h0 s t img us :
  kernel_ok (mkTsys (self s) h0) → in_user s t → built h0 (hw s) us [] (task_of img) →
  wp (replace_current (img_pagetable img) (img_user_stack img) (img_entry img) (img_base img) (img_size img)
        (trap_frame t)) (λ r s', r = Ok tt ∧ kernel_ok s' ∧ in_user s' (exec_image img t) ∧ replaced h0 s s' t img) s.
Proof.
  intros Hk Hu Hb. pose proof Hu as (i & Hi & Ht & Hcur & Hrun & Hid). pose proof (k_spaces _ Hk) as Hsp. cbn [self hw] in Hsp.
  pose proof (spaces_task _ _ Hsp i t Ht) as Hok. pose proof (space_layout _ _ Hok) as Hlay.
  assert (∀ b, owns (mem h0) t b → is_alloc h0 b) as Hown by (intros b; by apply (spaces_alloc _ _ Hsp i t)).
  assert (∀ va, user_va t va → ¬ maps (mem h0) t va (kernel_stack t)) as Hap by (intros va; by apply (spaces_apart _ _ Hsp i t)).
  pose proof (b_ext _ _ _ _ _ (built_building _ _ _ _ _ Hb)) as He.
  destruct (built_layout _ _ _ _ _ Hb) as [(L1 & L2 & L3) ([_ L4] & _) _ _ _ _].
  cbn [task_of image_task image_base image_size heap_base] in L1, L2, L3, L4.
  assert (USER_LIMIT ≤ HEAP_LIMIT ∧ HEAP_LIMIT < 2 ^ 64) as [HL1 HL2] by by vm_compute.
  unfold replace_current, checked_add.
  assert ((img_base img + img_size img <? 2 ^ 64) = true) as -> by lia.
  assert ((HEAP_LIMIT <? img_base img + img_size img) = false) as -> by lia. rewrite L4. cbn [Z.eqb negb orb].
  apply wp_bind, wp_get_self. rewrite Hi. apply wp_bind, wp_task_at with t; [done|].
  apply wp_bind, wp_upd_task with t; [done|].
  do 6 (apply wp_bind, wp_on_hw, wp_modify). cbn [self hw].
  match goal with |- wp _ _ (mkTsys ?m ?h) => set (m1 := m);
    change h with (set_mem (start_mem (trap_frame t) (img_entry img) (img_pagetable img)) (hw s)) end.
  set (h1 := set_mem _ (hw s)).
  assert (∀ b, owns (mem h0) t b → is_alloc (hw s) b) as Hown1 by (intros b Hb'; by apply He, Hown).
  assert (∀ a, ¬ in_page (kernel_stack t) a → load64 (mem h1) a = load64 (mem (hw s)) a) as Hm1
    by (intros a; by apply start_mem_out).
  assert (tables_same h0 h1 t) as Hts.
  { intros b a Hb' Hin. rewrite Hm1.
    - apply (ext_mem _ _ He b); [|done]. apply Hown. left. by left.
    - intros Hin'. apply (space_kstack _ _ Hok). rewrite <- (pages_apart b (kernel_stack t) a); try done; [|apply Hlay].
      apply (is_alloc_aligned h0); [apply Hok|]. apply Hown. left. by left. }
  assert (space_ok h1 t) as Hok1.
  { apply (space_ok_frame h0); [done|apply He| |done]. intros b Hb'. apply (Hown1 b). left. by left. }
  apply wp_bind, wp_on_hw. cbn [self hw]. eapply wp_mono; [by apply free_address_space_wp|].
  intros _ h2 (Hp2 & Hg2 & Hm2 & Hal2). apply wp_ret.
  assert (pages_wf h2 ∧ same_globals (hw s) h2 ∧
    (∀ a, (∀ b, is_table (mem h0) (pagetable t) b → ¬ in_page b a) → ¬ in_page (kernel_stack t) a →
       load64 (mem h2) a = load64 (mem (hw s)) a) ∧
    ∀ b, is_alloc h2 b ↔ is_alloc (hw s) b ∧ ¬ space_page (mem h0) t b) as Hfreed.
  { split; [done|]. split; [done|]. split.
    - intros a Ha Hk'. rewrite Hm2; [by apply Hm1|]. intros b. rewrite (is_table_frame (mem h0) (mem h1)) by done. apply Ha.
    - intros b. rewrite Hal2, (space_page_frame h0 h1 t) by done. done. }
  pose proof (exec_step h0 (hw s) h2 t img us Hok Hown Hap Hb Hfreed) as Hst.
  destruct (kernel_ok_space (mkTsys (self s) h0) i t (exec_image img) h2 Hk Hu Hi) as [Hk' Hu']; [done|done|done|].
  split; [done|]. split; [exact Hk'|]. split; [exact Hu'|]. destruct (start_mem_frame t (img_entry img) (img_pagetable img) (mem (hw s)) Hlay) as [Hf1 Hf2].
  assert (∀ a, in_page (kernel_stack t) a → load64 (mem h2) a = load64 (mem h1) a) as Hkst.
  { intros a Ha. apply Hm2. intros b Hb' Hin. apply (is_table_frame (mem h0) (mem h1)) in Hb'; [|done].
    apply (space_kstack _ _ Hok). rewrite <- (pages_apart b (kernel_stack t) a); try done; [|apply Hlay].
    apply (is_alloc_aligned h0); [apply Hok|]. apply Hown. left. by left. }
  split.
  - by exists i.
  - transitivity (frame_at (mem h1) (trap_frame t)).
    + apply frame_at_ext. intros a Ha. apply Hkst. by apply frame_in_stack.
    + etransitivity; [exact Hf1|]. f_equal. apply frame_at_ext. intros a Ha.
      apply (ext_mem _ _ He (kernel_stack t)); [apply Hown; by right|by apply frame_in_stack].
  - rewrite <- Hf2. apply Hkst. by apply satp_word.
  - apply (image_page_kept h0 (hw s) h2 t img us); done.
  - apply Hfreed.
Qed.
End replace.
