(* ===== verification/Kernel.v ===== *)
(** The kernel as the trap entry sees it: the globals, the functions of
    [src/src/kernel/task.rs] and [ipc.rs] that lock the task manager, the timer
    ([timer.rs]), the system calls ([syscall.rs]), the trap handler ([trap.rs]) and the
    boot sequence ([main.rs]).

    Each global function locks the manager for the length of one method and nothing it
    calls locks it again, so the lock is left out.  Console output is left out.  A
    handler returns the frame to resume, or stops the machine. *)

From S2P Require Import Prelude Arch Page Memory Machine Pgtable Vm Trap Ipc Task Initrd Exec.

Record kernel : Type := mkKernel {
  TASK_MANAGER : option TaskManager;
  files : initrd;
  NEXT_TIMER : Z;
  machine : mach;
}.
Abbreviation K := (st kernel).

Definition set_manager (o : option TaskManager) (k : kernel) : kernel :=
  mkKernel o (files k) (NEXT_TIMER k) (machine k).
Definition set_files (f : initrd) (k : kernel) : kernel :=
  mkKernel (TASK_MANAGER k) f (NEXT_TIMER k) (machine k).
Definition set_next_timer (t : Z) (k : kernel) : kernel :=
  mkKernel (TASK_MANAGER k) (files k) t (machine k).

Definition on_machine {A} (m : M A) : K A := λ k,
  match m (machine k) with
  | Done (a, h) => Done (a, mkKernel (TASK_MANAGER k) (files k) (NEXT_TIMER k) h)
  | Panic => Panic
  | Diverge => Diverge
  end.
(** Run a method of the manager; [none] is the result when there is no manager. *)
Definition locked {A} (none : K A) (m : T A) : K A := λ k,
  match TASK_MANAGER k with
  | None => none k
  | Some tm =>
      match m (mkTsys tm (machine k)) with
      | Done (a, s) => Done (a, mkKernel (Some (self s)) (files k) (NEXT_TIMER k) (hw s))
      | Panic => Panic
      | Diverge => Diverge
      end
  end.

(** ** The functions of [task.rs] on the global manager *)

Definition task_init : K unit := modify (set_manager (Some TaskManager_new)).
Definition task_create_user_image (pt user_stack entry image_base image_size : Z) : K (result Z) :=
  locked (mret Err) (create_user_image pt user_stack entry image_base image_size).
Definition task_create_idle (entry : Z) : K (result Z) := locked (mret Err) (create_idle entry).
Definition task_set_current (p : Z) : K unit := locked panic (set_current p).
Definition task_current_pid : K Z :=
  o ← locked (mret None) (get_self current); mret (from_option pid 0 o).
Definition kernel_stack_top (p : Z) : K (option Z) :=
  locked (mret None) (get_self (λ m, (λ t, kernel_stack t +' PAGE_SIZE) <$> find_task (tasks m) p)).
Definition task_satp (p : Z) : K (option Z) :=
  locked (mret None) (get_self (λ m, (λ t, satp_of (pagetable t)) <$> find_task (tasks m) p)).
(** The arguments [enter_task] gives to [enter_user], which never returns. *)
Definition enter_task (p : Z) : K (Z * Z * Z * Z * Z) :=
  r ← locked panic (
    ts ← get_self tasks;
    i ← unwrap (task_index ts p);
    _ ← upd_task i (set_state Running);
    _ ← upd_self (set_current_pid (Some p));
    t ← task_at i;
    mret (entry t, kernel_stack t +' PAGE_SIZE, satp_of (pagetable t)));
  let '(entry, kernel_stack_top, user_satp) := r in
  ks ← on_machine kernel_satp;
  mret (USER_STACK_TOP, entry, kernel_stack_top -' 16, ks, user_satp).
Definition task_schedule (tf : Z) : K Z := locked panic (schedule tf).

(** What a handler ends with: the frame to resume, or the machine stops. *)
Inductive answer : Type := Resume (tf : Z) | Halted.
Definition shutdown : K answer := _ ← on_machine (sbi_call 8 0 0); mret Halted.
Definition reboot : K answer := _ ← on_machine (sbi_call 8 1 0); mret Halted.
Definition task_exit_current (code : Z) : K answer :=
  o ← locked (mret None) (exit_current code);
  match o with Some next => mret (Resume next) | None => shutdown end.
Definition task_fork (tf : Z) : K (result Z) :=
  locked (mret Err) (fork tf).
Definition task_sbrk (increment : Z) : K (result Z) := locked (mret Err) (sbrk increment).
Definition task_waitpid (p tf : Z) : K WaitResult := locked (mret WaitError) (waitpid p tf).
Definition task_register_endpoint (endpoint owner : Z) : K (result unit) :=
  locked (mret Err) (register_endpoint endpoint owner).
Definition task_ipc_call (endpoint : Z) (ws : list Z) (tf : Z) : K IpcResult :=
  locked (mret IpcError) (ipc_call endpoint ws tf).
Definition task_ipc_recv (endpoint tf : Z) : K IpcResult := locked (mret IpcError) (ipc_recv endpoint tf).
Definition task_ipc_reply (client : Z) (ws : list Z) : K (result unit) :=
  locked (mret Err) (ipc_reply client ws).
Definition task_ipc_call_buf (endpoint : Z) (ws : list Z) (user_buf buf_len tf : Z) : K IpcResult :=
  locked panic (ipc_call_buf endpoint ws user_buf buf_len tf).
Definition task_ipc_recv_buf (endpoint user_buf capacity tf : Z) : K IpcResult :=
  locked panic (ipc_recv_buf endpoint user_buf capacity tf).
Definition task_ipc_reply_buf (client : Z) (ws : list Z) (user_buf buf_len : Z) : K (result unit) :=
  locked (mret Err) (ipc_reply_buf client ws user_buf buf_len).
Definition task_grant_uart (p : Z) : K (result unit) := locked (mret Err) (grant_uart p).
Definition task_replace_current (pt user_stack entry image_base image_size tf : Z) : K (result unit) :=
  locked (mret Err) (replace_current pt user_stack entry image_base image_size tf).
Definition task_translate_user (va : Z) : K (option Z) := locked (mret None) (translate_user va).
Definition task_wait_uart_irq (tf : Z) : K (result Z) := locked (mret Err) (wait_uart_irq tf).
Definition task_wake_uart : K bool := locked (mret false) wake_uart.

(** [idle::create_idle], with the address of [idle_main]. *)
Definition idle_create_idle (idle_main : Z) : K (result Z) := task_create_idle idle_main.

(** The functions of [ipc.rs] forward to [task.rs]. *)
Definition ipc_register (endpoint owner : Z) : K (result unit) := task_register_endpoint endpoint owner.
Definition kernel_ipc_call (endpoint : Z) (ws : list Z) (tf : Z) : K IpcResult := task_ipc_call endpoint ws tf.
Definition kernel_ipc_recv (endpoint tf : Z) : K IpcResult := task_ipc_recv endpoint tf.
Definition kernel_ipc_reply (client : Z) (ws : list Z) : K (result unit) := task_ipc_reply client ws.
Definition kernel_ipc_call_buf (endpoint : Z) (ws : list Z) (user_buf buf_len tf : Z) : K IpcResult :=
  task_ipc_call_buf endpoint ws user_buf buf_len tf.
Definition kernel_ipc_recv_buf (endpoint user_buf capacity tf : Z) : K IpcResult :=
  task_ipc_recv_buf endpoint user_buf capacity tf.
Definition kernel_ipc_reply_buf (client : Z) (ws : list Z) (user_buf buf_len : Z) : K (result unit) :=
  task_ipc_reply_buf client ws user_buf buf_len.

(** [exec.rs], which locks the manager only after the image is loaded. *)
Definition spawn (filename : list Z) : K (result Z) :=
  fs ← gets files;
  image ←? on_machine (load_image fs filename);
  task_create_user_image (img_pagetable image) (img_user_stack image) (img_entry image)
    (img_base image) (img_size image).
Definition exec (filename : list Z) (tf : Z) : K (result unit) :=
  fs ← gets files;
  image ←? on_machine (load_image fs filename);
  task_replace_current (img_pagetable image) (img_user_stack image) (img_entry image)
    (img_base image) (img_size image) tf.

(** ** The timer *)

Definition TIMER_INTERVAL : Z := 1000000.
(** [timer::init], with the value of the [time] CSR. *)
Definition timer_init (time : Z) : K unit :=
  _ ← modify (set_next_timer (time +' TIMER_INTERVAL));
  t ← gets NEXT_TIMER;
  on_machine (set_timer t).
Definition timer_handle : K unit :=
  t ← gets NEXT_TIMER;
  _ ← modify (set_next_timer (t +' TIMER_INTERVAL));
  t ← gets NEXT_TIMER;
  on_machine (set_timer t).

(** ** System calls *)

Definition SYS_EXIT : Z := 2.
Definition SYS_YIELD : Z := 4.
Definition SYS_GETPID : Z := 5.
Definition SYS_FORK : Z := 6.
Definition SYS_PS : Z := 7.
Definition SYS_EXEC : Z := 8.
Definition SYS_WAITPID : Z := 9.
Definition SYS_IPC_CALL : Z := 10.
Definition SYS_IPC_RECV : Z := 11.
Definition SYS_IPC_REPLY : Z := 12.
Definition SYS_IRQ_WAIT : Z := 13.
Definition SYS_SBRK : Z := 14.
Definition SYS_IPC_CALL_BUF : Z := 15.
Definition SYS_IPC_RECV_BUF : Z := 16.
Definition SYS_IPC_REPLY_BUF : Z := 17.
Definition SYS_SHUTDOWN : Z := 18.

(** [tf.f] and [tf.f = v]. *)
Definition get_tf (tf off : Z) : K Z := on_machine (load (tf +' off)).
Definition set_tf (tf off v : Z) : K unit := on_machine (store (tf +' off) v).

Definition sys_exit (code : Z) : K answer := task_exit_current code.
Definition sys_getpid : K Z := task_current_pid.
(** [list_all] only prints, but it unwraps the manager. *)
Definition sys_ps : K unit := locked panic (mret tt).

(** The file name, copied from user memory. *)
Fixpoint read_name (idxs : list Z) (filename_va : Z) (acc : list Z) : K (option (list Z)) :=
  match idxs with
  | [] => mret (Some acc)
  | len :: idxs =>
      pa ←! task_translate_user (filename_va +' len);
      byte ← on_machine (gets (λ s, load8 (mem s) pa));
      read_name idxs filename_va (acc ++ [byte])
  end.
Definition sys_exec (filename_va requested_len tf : Z) : K Z :=
  o ← read_name (seqZ 0 (Z.min requested_len (64 - 1))) filename_va [];
  match o with
  | None => mret usize_max
  | Some bytes =>
      if negb (utf8_ok bytes) then mret usize_max
      else r ← exec bytes tf; mret (match r with Ok _ => 0 | Err => usize_max end)
  end.

(** The last step of a call that may have blocked. *)
Definition finish_ipc (tf : Z) (r : IpcResult) : K answer :=
  match r with
  | Continue => mret (Resume tf)
  | Blocked next => mret (Resume next)
  | IpcError => _ ← set_tf tf off_a0 usize_max; mret (Resume tf)
  end.
Definition message_words (tf : Z) : K (list Z) :=
  w0 ← get_tf tf off_a1; w1 ← get_tf tf off_a2; w2 ← get_tf tf off_a3; w3 ← get_tf tf off_a4;
  mret [w0; w1; w2; w3].
Definition status {A} (r : result A) : Z := match r with Ok _ => 0 | Err => usize_max end.

Definition handle (tf : Z) : K answer :=
  syscall_num ← get_tf tf off_a7;
  sepc ← get_tf tf off_sepc;
  _ ← set_tf tf off_sepc (sepc +' 4);
  if syscall_num =? SYS_EXIT then
    a0 ← get_tf tf off_a0;
    sys_exit (as_i32 a0)
  else if syscall_num =? SYS_YIELD then
    _ ← set_tf tf off_a0 0;
    next ← task_schedule tf;
    mret (Resume next)
  else if syscall_num =? SYS_GETPID then
    p ← sys_getpid;
    _ ← set_tf tf off_a0 p;
    mret (Resume tf)
  else if syscall_num =? SYS_FORK then
    r ← task_fork tf;
    _ ← set_tf tf off_a0 (match r with Ok p => p | Err => usize_max end);
    mret (Resume tf)
  else if syscall_num =? SYS_PS then
    _ ← sys_ps;
    _ ← set_tf tf off_a0 0;
    mret (Resume tf)
  else if syscall_num =? SYS_EXEC then
    a0 ← get_tf tf off_a0;
    a1 ← get_tf tf off_a1;
    r ← sys_exec a0 a1 tf;
    _ ← set_tf tf off_a0 r;
    mret (Resume tf)
  else if syscall_num =? SYS_WAITPID then
    a0 ← get_tf tf off_a0;
    r ← task_waitpid (u32 a0) tf;
    match r with
    | Reaped exit_code => _ ← set_tf tf off_a0 (u64 exit_code); mret (Resume tf)
    | WaitBlocked next => mret (Resume next)
    | WaitError => _ ← set_tf tf off_a0 usize_max; mret (Resume tf)
    end
  else if syscall_num =? SYS_IPC_CALL then
    endpoint ← get_tf tf off_a0;
    ws ← message_words tf;
    r ← kernel_ipc_call endpoint ws tf;
    finish_ipc tf r
  else if syscall_num =? SYS_IPC_RECV then
    endpoint ← get_tf tf off_a0;
    r ← kernel_ipc_recv endpoint tf;
    finish_ipc tf r
  else if syscall_num =? SYS_IPC_REPLY then
    client ← get_tf tf off_a0;
    ws ← message_words tf;
    r ← kernel_ipc_reply (u32 client) ws;
    _ ← set_tf tf off_a0 (status r);
    mret (Resume tf)
  else if syscall_num =? SYS_IRQ_WAIT then
    a0 ← get_tf tf off_a0;
    if negb (a0 =? UART0_IRQ) then _ ← set_tf tf off_a0 usize_max; mret (Resume tf)
    else
      r ← task_wait_uart_irq tf;
      match r with
      | Ok next => mret (Resume next)
      | Err => _ ← set_tf tf off_a0 usize_max; mret (Resume tf)
      end
  else if syscall_num =? SYS_SBRK then
    a0 ← get_tf tf off_a0;
    r ← task_sbrk (as_isize a0);
    _ ← set_tf tf off_a0 (match r with Ok v => v | Err => usize_max end);
    mret (Resume tf)
  else if syscall_num =? SYS_IPC_CALL_BUF then
    endpoint ← get_tf tf off_a0;
    ws ← message_words tf;
    user_buf ← get_tf tf off_a5;
    buf_len ← get_tf tf off_a6;
    r ← kernel_ipc_call_buf endpoint ws user_buf buf_len tf;
    finish_ipc tf r
  else if syscall_num =? SYS_IPC_RECV_BUF then
    endpoint ← get_tf tf off_a0;
    user_buf ← get_tf tf off_a1;
    capacity ← get_tf tf off_a2;
    r ← kernel_ipc_recv_buf endpoint user_buf capacity tf;
    finish_ipc tf r
  else if syscall_num =? SYS_IPC_REPLY_BUF then
    client ← get_tf tf off_a0;
    ws ← message_words tf;
    user_buf ← get_tf tf off_a5;
    buf_len ← get_tf tf off_a6;
    r ← kernel_ipc_reply_buf (u32 client) ws user_buf buf_len;
    _ ← set_tf tf off_a0 (status r);
    mret (Resume tf)
  else if syscall_num =? SYS_SHUTDOWN then shutdown
  else panic.

(** ** The kernel's own address space

    The kernel runs on its own page table: [vm::init] writes it to [satp] ([vm.rs], 43), and the
    trap entry loads it again on every trap ([trap.S], 59-62).  That table is built by [vm::init] and
    maps exactly the addresses of [kernel_va], each to itself ([vm_init_correct]), while
    [page::init] hands out 4096 pages that begin where the kernel image ends.  An access to a page
    outside of [kernel_va] is a page fault in supervisor mode, and that is a panic.

    The operations are defined on physical memory; [paged m] is [m] run on that page table: it fails
    if [m] took a page from the allocator that the kernel cannot reach.  The callers of
    [page::alloc] write to the page they get before anything else can go wrong: [pgtable::create]
    clears it, the loader, [fork] and [sbrk] fill it, [create_user_image] builds a frame in it.
    Only [create_idle] and [fork] first take one or two stacks and then a page table: the
    allocator searches from the bottom, so if a stack is out of reach so is the table, and clearing
    that faults.  (Unless the allocator runs dry between the two, which takes a kernel image of
    less than three pages: there the code returns an error where [paged] panics.)
    Pages taken earlier were checked when they were taken, and the table itself is taken to stay as
    [vm::init] built it: the kernel does not write to it again. *)
Definition fresh_pages (k k' : kernel) : list Z :=
  take (length (taken (machine k')) - length (taken (machine k))) (taken (machine k')).
Definition paged {A} (m : K A) : K A := λ k,
  match m k with
  | Done (a, k') => if forallb kernel_va (fresh_pages k k') then Done (a, k') else Panic
  | Panic => Panic
  | Diverge => Diverge
  end.

(** ** Traps *)

(** The body of [trap_handler]. *)
Definition answer_trap (tf : Z) : K answer :=
  scause ← on_machine read_scause;
  stval ← on_machine read_stval;
  match parse_cause scause with
  | UserEcall => handle tf
  | Timer =>
      _ ← timer_handle;
      next ← task_schedule tf;
      mret (Resume next)
  | External =>
      irq ← on_machine plic_claim;
      _ ← (if irq =? UART0_IRQ then
             _ ← on_machine (plic_disable irq);
             _ ← task_wake_uart;
             mret tt
           else mret tt);
      _ ← (if negb (irq =? 0) then on_machine (plic_complete irq) else mret tt);
      next ← task_schedule tf;
      mret (Resume next)
  | InstructionPageFault => panic
  | LoadPageFault => panic
  | StorePageFault => panic
  | Unknown _ => panic
  end.
Definition trap_handler (tf : Z) : K answer := paged (answer_trap tf).

(** ** Boot *)

Definition CONSOLE_NAME : list Z := [99; 111; 110; 115; 111; 108; 101].
Definition FS_NAME : list Z := [102; 115; 45; 115; 101; 114; 118; 101; 114].
Definition SHELL_NAME : list Z := [115; 104; 101; 108; 108].
(** [kernel_main] up to [enter_user], whose arguments it returns; the linker's symbols,
    the embedded archive and the [time] CSR are arguments.  What comes after [vm::init] runs on the
    kernel's page table. *)
Definition main_paged (archive : list Z) (trap_entry idle_main time : Z) : K (Z * Z * Z * Z * Z) :=
  _ ← on_machine plic_init;
  _ ← (λ k, match initrd_init archive with
            | Done f => Done (tt, set_files f k) | Panic => Panic | Diverge => Diverge end);
  _ ← task_init;
  _ ← on_machine (trap_init trap_entry);
  _ ← timer_init time;
  r ← idle_create_idle idle_main;
  _ ← expect r;
  r ← spawn CONSOLE_NAME;
  console_pid ← expect r;
  r ← task_grant_uart console_pid;
  _ ← expect r;
  r ← ipc_register CONSOLE_ENDPOINT console_pid;
  _ ← expect r;
  r ← spawn FS_NAME;
  fs_pid ← expect r;
  r ← ipc_register FS_ENDPOINT fs_pid;
  _ ← expect r;
  r ← spawn SHELL_NAME;
  shell_pid ← expect r;
  enter_task shell_pid.
Definition kernel_main (kernel_end : Z) (archive : list Z) (trap_entry idle_main time : Z) :
  K (Z * Z * Z * Z * Z) :=
  _ ← on_machine (modify (set_pages (Some (page_init kernel_end))));
  _ ← on_machine vm_init;
  paged (main_paged archive trap_entry idle_main time).
