(* ===== verification/Traps.v ===== *)
(** Traps and system calls (definitions in [Kernel.v]): what waking the UART's waiters
    does, rules for the kernel's monad, the two interrupts and the calls without a user buffer
    or a change of the address space ([Handler] has the others), and what is fatal. *)

From S2P Require Import Prelude Arch Page Memory Machine Pgtable Vm Trap Ipc Task Space Sched Inv IpcFacts ProcFacts Initrd Exec Create Demo Kernel.

(** ** Waking the UART's waiters *)

(** A slot after [wake_uart]. *)
Definition uart_woken (slot : option Task) : option Task :=
  if waits_uart slot then wake_task <$> slot else slot.
Definition not_woken (ts : list (option Task)) (k : nat) (a : Z) : Prop :=
  ∀ j t, (k ≤ j)%nat → ts !! j = Some (Some t) → waits_uart (Some t) = true →
    ¬ in_page (kernel_stack t) a.

(** What the loop has done when it stands at slot [k] of the table of [s]. *)
Record uart_inv (s : tsys) (k : nat) (s' : tsys) : Prop := {
  ui_ok : kernel_ok s';
  ui_pid : current_pid (self s') = current_pid (self s);
  ui_before j : (j < k)%nat → tasks (self s') !! j = tasks (self s) !! j;
  ui_done j : (k ≤ j)%nat → tasks (self s') !! j = uart_woken <$> tasks (self s) !! j;
  ui_globals : same_globals (hw s) (hw s');
  ui_mem a : not_woken (tasks (self s)) k a → load64 (mem (hw s')) a = load64 (mem (hw s)) a;
  ui_a0 j t : (k ≤ j)%nat → tasks (self s) !! j = Some (Some t) → waits_uart (Some t) = true →
    tf_a0 (frame_at (mem (hw s')) (trap_frame t)) = 0;
}.

Section wake_uart.
Implicit Types s : tsys.

Lemma waits_uart_Some slot : waits_uart slot = true →
  ∃ t, slot = Some t ∧ state t = Sleeping ∧ waiting_for t = Some UartRx.
Proof.
  destruct slot as [t|]; [|done]. cbn. intros H. exists t. split; [done|].
  apply andb_prop in H as [H1 H2]. by rewrite !bool_decide_eq_true in *.
Qed.

(** One step wakes slot [k]. *)
Lemma wake_step_ok s k t :
  kernel_ok s → tasks (self s) !! k = Some (Some t) → waits_uart (Some t) = true →
  kernel_ok (mkTsys (woken k (self s)) (set_mem (λ m, store64 m (trap_frame t +' off_a0) 0) (hw s))).
Proof.
  intros Hk Ht (u & [= <-] & Hs & Hw)%waits_uart_Some.
  apply (woken_ok s k t); [done|done|done|intros e; congruence|].
  apply (spaces_ok_frame_write _ _ k t); [apply Hk|done|].
  intros m a Hl Ha. apply (field_store_out t); [done|by vm_compute|done].
Qed.

Lemma uart_inv_end s k : kernel_ok s → length (tasks (self s)) = k → uart_inv s k s.
Proof.
  intros Hk Hl. split; [done|done|done| |by apply same_globals_refl|done|].
  - intros j Hj. by rewrite lookup_ge_None_2 by lia.
  - intros j t Hj Ht. apply lookup_lt_Some in Ht. lia.
Qed.
Lemma uart_inv_skip s k s' :
  waits_uart (mjoin (tasks (self s) !! k)) = false → uart_inv s (S k) s' → uart_inv s k s'.
Proof.
  intros Hw [H1 H2 Hb H3 H4 H5 H6]. split; [done|done|intros j Hj; apply Hb; lia| |done| |].
  - intros j Hj. destruct (decide (j = k)) as [->|]; [|by apply H3; lia].
    rewrite Hb by lia. destruct (tasks (self s) !! k) as [slot|]; [|done]. cbn in *.
    unfold uart_woken. by rewrite Hw.
  - intros a Ha. apply H5. intros j t Hj. apply Ha. lia.
  - intros j t Hj Ht Hwt. destruct (decide (j = k)) as [->|]; [|by apply (H6 j t); [lia|..]].
    rewrite Ht in Hw. cbn [mjoin option_join] in Hw. congruence.
Qed.
Lemma uart_inv_wake s k t s' :
  kernel_ok s → tasks (self s) !! k = Some (Some t) → waits_uart (Some t) = true →
  uart_inv (mkTsys (woken k (self s)) (set_mem (λ m, store64 m (trap_frame t +' off_a0) 0) (hw s)))
    (S k) s' → uart_inv s k s'.
Proof.
  intros Hk Ht Hwt. set (s1 := mkTsys _ _). intros [H1 H2 Hb H3 H4 H5 H6].
  assert (∀ j, j ≠ k → tasks (self s1) !! j = tasks (self s) !! j) as Hoth
    by (intros j Hj; cbn; by rewrite alter_lookup_other).
  pose proof (spaces_task _ _ (k_spaces _ Hk) k t Ht) as Hsp. pose proof (space_layout _ _ Hsp) as Hl.
  destruct (frame_field t off_a0 Hl ltac:(by vm_compute)) as [Ef Hin].
  split; [done|done| | |done| |].
  - intros j Hj. rewrite Hb, Hoth by lia. done.
  - intros j Hj. destruct (decide (j = k)) as [->|]; [|by rewrite H3, Hoth by lia].
    rewrite Hb by lia. cbn. rewrite (alter_lookup _ _ _ _ Ht), Ht. cbn.
    unfold uart_woken. by rewrite Hwt.
  - intros a Ha. rewrite H5.
    + apply (field_store_out t); [done|by vm_compute|]. by apply (Ha k t).
    + intros j u Hj. rewrite Hoth by lia. apply Ha. lia.
  - intros j u Hj Hu Hwu. destruct (decide (j = k)) as [->|]; [|apply (H6 j u); [lia| |done]].
    2: { by rewrite Hoth by lia. }
    rewrite Ht in Hu. injection Hu as <-. cbn [frame_at tf_a0].
    change (trap_frame t + 8 * 9) with (trap_frame t + off_a0). rewrite <- Ef.
    rewrite H5.
    + apply load64_store64_eq.
    + intros i u Hi Hu Hwi Hp. rewrite Hoth in Hu by lia. rewrite Ef in Hp.
      refine (stacks_differ _ _ k i t u (k_spaces _ Hk) Ht Hu _ _); [lia|].
      pose proof (spaces_task _ _ (k_spaces _ Hk) i u Hu) as [[_ _ _ [Ha _] _ _] _ _ _].
      destruct Hl as [_ _ _ [Hb' _] _ _]. by apply (pages_apart _ _ (trap_frame t + off_a0)).
Qed.
Lemma wake_uart_from_wp n : ∀ k woke s,
  kernel_ok s → (k + n)%nat = NTASKS →
  wp (wake_uart_from (seq k n) woke) (λ r s', uart_inv s k s' ∧
    r = woke || existsb waits_uart (drop k (tasks (self s)))) s.
Proof.
  induction n as [|n IH]; intros k woke s Hk Hn; pose proof (tm_len _ (ok_mid _ (k_tm _ Hk))) as Hlen.
  - apply wp_ret. split; [apply uart_inv_end; [done|lia]|].
    rewrite drop_ge by lia. cbn. by rewrite orb_false_r.
  - cbn [wake_uart_from seq]. apply wp_bind, wp_get_self.
    destruct (lookup_lt_is_Some_2 (tasks (self s)) k ltac:(lia)) as [slot Hslot].
    rewrite (drop_S _ _ _ Hslot). cbn [existsb]. rewrite Hslot. cbn [mjoin option_join].
    destruct (waits_uart slot) eqn:Hw.
    + pose proof Hw as (t & -> & Hs & Hwf)%waits_uart_Some.
      apply wp_bind, wp_ret, wp_bind, wp_upd_task with t; [done|].
      apply wp_bind, wp_upd_task with (set_state Ready t); [by apply alter_lookup|].
      apply wp_bind, wp_on_hw, wp_modify, wp_bind, wp_upd_self. cbn [self hw].
      pose proof (wake_step_ok s k t Hk Hslot Hw) as Hk1.
      match goal with |- wp _ _ ?x => assert (x = mkTsys (woken k (self s))
        (set_mem (λ m, store64 m (trap_frame t +' off_a0) 0) (hw s))) as -> end.
      { unfold woken, set_runnable_count, set_tasks. cbn. by rewrite alter_alter. }
      eapply wp_mono; [apply (IH (S k) true); [done|lia]|]. intros r s' [Hi ->].
      split; [by apply (uart_inv_wake s k t)|]. cbn. by rewrite orb_true_r.
    + eapply wp_mono; [apply (IH (S k) woke); [done|lia]|]. intros r s' [Hi ->].
      split; [apply uart_inv_skip; [by rewrite Hslot|done]|done].
Qed.
Lemma wake_uart_wp s :
  kernel_ok s → wp wake_uart (λ r s', uart_inv s 0 s' ∧ r = existsb waits_uart (tasks (self s))) s.
Proof. intros Hk. by apply (wake_uart_from_wp (Z.to_nat MAX_TASKS) 0). Qed.
End wake_uart.

(** ** The kernel's monad *)

(** The kernel whose manager and machine are those of [s]. *)
Definition kern (f : initrd) (n : Z) (s : tsys) : kernel := mkKernel (Some (self s)) f n (hw s).
(** [s] with [v] in a field of the frame at [tf]. *)
Definition put_tf (tf off v : Z) (s : tsys) : tsys :=
  mkTsys (self s) (set_mem (λ m, store64 m (tf +' off) v) (hw s)).
Definition syscall_number (tf : Z) (s : tsys) : Z := load64 (mem (hw s)) (tf +' off_a7).

Section rules.
Context (f : initrd) (n : Z).
Implicit Types (s : tsys) (t : Task).

Lemma wp_locked {A} none (m : T A) Q s :
  wp m (λ a s', Q a (kern f n s')) s → wp (locked none m) Q (kern f n s).
Proof. unfold wp, locked. destruct s as [tm h]. cbn. by destruct (m _) as [[]| |]. Qed.
Lemma wp_on_machine {A} (m : M A) Q s :
  wp m (λ a h, Q a (kern f n (mkTsys (self s) h))) (hw s) → wp (on_machine m) Q (kern f n s).
Proof. unfold wp, on_machine. cbn. by destruct (m _) as [[]| |]. Qed.
Lemma wp_get_tf tf off Q s :
  Q (load64 (mem (hw s)) (tf +' off)) (kern f n s) → wp (get_tf tf off) Q (kern f n s).
Proof. intros H. apply wp_on_machine, wp_gets. by destruct s. Qed.
Lemma wp_set_tf tf off v (Q : unit → kernel → Prop) s :
  Q tt (kern f n (put_tf tf off v s)) → wp (set_tf tf off v) Q (kern f n s).
Proof. intros H. apply wp_on_machine, wp_modify. exact H. Qed.
Lemma wp_message_words tf (Q : list Z → kernel → Prop) s :
  (∀ ws, Q ws (kern f n s)) → wp (message_words tf) Q (kern f n s).
Proof. intros H. repeat (apply wp_bind, wp_get_tf). apply wp_ret, H. Qed.

Lemma put_tf_ok t off v s :
  kernel_ok s → in_user s t → 0 ≤ off < FRAME_SIZE →
  kernel_ok (put_tf (trap_frame t) off v s) ∧ in_user (put_tf (trap_frame t) off v s) t.
Proof.
  intros Hk Hu Ho. split; [|exact Hu]. destruct Hk as [Htm Hsp]. split; [exact Htm|].
  destruct Hu as (i & _ & Ht & _). apply (spaces_ok_frame_write _ _ i t); [done|done|].
  intros m a Hl Ha. by apply (field_store_out t).
Qed.
Lemma in_user_switched s t : kernel_ok s → in_user s t → switched (trap_frame t) s.
Proof. intros Hk (i & Hi & Ht & _). split; [done|]. by exists i, t. Qed.
(** The caller goes on with a result in [a0]. *)
Lemma wp_answer t v (Q : answer → kernel → Prop) s :
  kernel_ok s → in_user s t →
  (∀ s', switched (trap_frame t) s' → Q (Resume (trap_frame t)) (kern f n s')) →
  wp (_ ← set_tf (trap_frame t) off_a0 v; mret (Resume (trap_frame t))) Q (kern f n s).
Proof.
  intros Hk Hu HQ. apply wp_bind, wp_set_tf, wp_ret, HQ.
  destruct (put_tf_ok t off_a0 v s Hk Hu ltac:(by vm_compute)) as [??]. by apply in_user_switched.
Qed.
End rules.

(** ** System calls *)

(** The calls that do not create a task or a page mapping and pass no user buffer. *)
Definition core_call (c : Z) : bool :=
  bool_decide (c ∈ [SYS_EXIT; SYS_YIELD; SYS_GETPID; SYS_PS; SYS_WAITPID; SYS_IPC_CALL;
                    SYS_IPC_RECV; SYS_IPC_REPLY; SYS_IRQ_WAIT]).
Definition known_call (c : Z) : bool :=
  bool_decide (c ∈ [SYS_EXIT; SYS_YIELD; SYS_GETPID; SYS_FORK; SYS_PS; SYS_EXEC; SYS_WAITPID;
                    SYS_IPC_CALL; SYS_IPC_RECV; SYS_IPC_REPLY; SYS_IRQ_WAIT; SYS_SBRK;
                    SYS_IPC_CALL_BUF; SYS_IPC_RECV_BUF; SYS_IPC_REPLY_BUF; SYS_SHUTDOWN]).

Section calls.
Context (f : initrd) (n : Z).
Implicit Types (s : tsys) (t : Task).

(** The kernel resumes the frame of the task that is running, with the invariant. *)
Definition resumed (a : answer) (k : kernel) : Prop :=
  ∃ fp s, a = Resume fp ∧ k = kern f n s ∧ switched fp s.
Lemma resumed_intro fp s : switched fp s → resumed (Resume fp) (kern f n s).
Proof. intros H. by exists fp, s. Qed.
Lemma finish_ipc_wp t r s :
  kernel_ok s → match r with Continue | IpcError => in_user s t | Blocked fp => switched fp s end →
  wp (finish_ipc (trap_frame t) r) resumed (kern f n s).
Proof.
  intros Hk H. destruct r as [|fp|].
  - by apply wp_ret, resumed_intro, in_user_switched.
  - by apply wp_ret, resumed_intro.
  - apply wp_answer; [done|done|]. intros s' Hs. by apply resumed_intro.
Qed.

Lemma handle_exit t code s :
  kernel_ok s → in_user s t → wp (sys_exit code) resumed (kern f n s).
Proof.
  intros Hk Hu. destruct Hu as (i & Hi & Hrest). apply wp_bind, wp_locked. eapply wp_mono.
  { apply (exit_current_wp code s t i); [done|by exists i|done]. }
  intros o s' (fp & z & -> & Hsw & _). by apply wp_ret, resumed_intro.
Qed.
Lemma handle_waitpid t p s :
  kernel_ok s → in_user s t →
  wp (r ← task_waitpid p (trap_frame t);
      match r with
      | Reaped exit_code => _ ← set_tf (trap_frame t) off_a0 (u64 exit_code); mret (Resume (trap_frame t))
      | WaitBlocked next => mret (Resume next)
      | WaitError => _ ← set_tf (trap_frame t) off_a0 usize_max; mret (Resume (trap_frame t))
      end) resumed (kern f n s).
Proof.
  intros Hk Hu. apply wp_bind, wp_locked. eapply wp_mono; [by apply waitpid_wp|].
  intros [code|fp|] s'.
  - intros (Hk' & Hu' & _). apply wp_answer; [done|done|]. intros. by apply resumed_intro.
  - intros [Hsw _]. by apply wp_ret, resumed_intro.
  - intros [-> _]. apply wp_answer; [done|done|]. intros. by apply resumed_intro.
Qed.
Lemma handle_ipc_call t e s :
  kernel_ok s → in_user s t →
  wp (ws ← message_words (trap_frame t); r ← kernel_ipc_call e ws (trap_frame t);
      finish_ipc (trap_frame t) r) resumed (kern f n s).
Proof.
  intros Hk Hu. apply wp_bind, wp_message_words. intros ws. apply wp_bind, wp_locked.
  eapply wp_mono; [by apply ipc_call_wp|]. intros [|fp|] s'; cbn beta iota.
  - intros [].
  - intros [Hsw _]. apply finish_ipc_wp; [apply Hsw|done].
  - intros [-> _]. by apply finish_ipc_wp.
Qed.
Lemma handle_ipc_recv t e s :
  kernel_ok s → in_user s t →
  wp (r ← kernel_ipc_recv e (trap_frame t); finish_ipc (trap_frame t) r) resumed (kern f n s).
Proof.
  intros Hk Hu. apply wp_bind, wp_locked.
  eapply wp_mono; [by apply ipc_recv_wp|]. intros [|fp|] s'; cbn beta iota.
  - intros (Hk' & Hu' & _). by apply finish_ipc_wp.
  - intros [Hsw _]. apply finish_ipc_wp; [apply Hsw|done].
  - intros [-> _]. by apply finish_ipc_wp.
Qed.
Lemma handle_ipc_reply t client s :
  kernel_ok s → in_user s t →
  wp (ws ← message_words (trap_frame t); r ← kernel_ipc_reply client ws;
      _ ← set_tf (trap_frame t) off_a0 (status r); mret (Resume (trap_frame t))) resumed (kern f n s).
Proof.
  intros Hk Hu. apply wp_bind, wp_message_words. intros ws. apply wp_bind, wp_locked.
  eapply wp_mono; [by apply ipc_reply_wp|]. intros r s' Hr.
  assert (kernel_ok s' ∧ in_user s' t) as [Hk' Hu'].
  { destruct r as [[]|]; [|by destruct Hr as [-> _]].
    destruct Hr as (Hk' & Hp & i & c & Hslot & Hc & Hs & _). split; [done|].
    destruct Hu as (j & Hj & Ht & Hpt & Hrun & Hid). destruct Hslot as (Hi & _).
    assert (i ≠ j) as Hne by (intros ->; congruence).
    assert (tasks (self s') !! j = Some (Some t)) as Ht'
      by (rewrite Hs; cbn; by rewrite alter_lookup_other).
    exists j. split_and!; [|done|congruence|done|done].
    unfold current_index. rewrite Hp, Hpt. apply task_index_unique; [|done].
    apply Hk'. }
  apply wp_answer; [done|done|]. intros. by apply resumed_intro.
Qed.
Lemma handle_irq_wait t a0 s :
  kernel_ok s → in_user s t →
  wp (if negb (a0 =? UART0_IRQ) then
        _ ← set_tf (trap_frame t) off_a0 usize_max; mret (Resume (trap_frame t))
      else
        r ← task_wait_uart_irq (trap_frame t);
        match r with
        | Ok next => mret (Resume next)
        | Err => _ ← set_tf (trap_frame t) off_a0 usize_max; mret (Resume (trap_frame t))
        end) resumed (kern f n s).
Proof.
  intros Hk Hu. destruct (negb _); [by apply wp_answer; [..|intros; apply resumed_intro]|].
  apply wp_bind, wp_locked. eapply wp_mono; [by apply wait_uart_irq_wp|]. intros [fp|] s'; cbn beta iota.
  - intros (_ & Hsw & _). by apply wp_ret, resumed_intro.
  - intros [_ ->]. apply wp_answer; [done|done|]. intros. by apply resumed_intro.
Qed.
Lemma schedule_resumes tf s :
  kernel_mid s → wp (next ← task_schedule tf; mret (Resume next)) resumed (kern f n s).
Proof.
  intros Hk. apply wp_bind, wp_locked. eapply wp_mono; [by apply schedule_mid_wp|].
  intros fp s' (Hok & _ & _ & _ & Hcur). by apply wp_ret, resumed_intro.
Qed.
Lemma handle_core_wp t s :
  kernel_ok s → in_user s t → core_call (syscall_number (trap_frame t) s) = true →
  wp (handle (trap_frame t)) resumed (kern f n s).
Proof.
  intros Hk0 Hu0 Hc. unfold handle. apply wp_bind, wp_get_tf. fold (syscall_number (trap_frame t) s).
  revert Hc. generalize (syscall_number (trap_frame t) s). intros c Hc.
  apply wp_bind, wp_get_tf, wp_bind, wp_set_tf.
  match goal with |- wp _ _ (kern _ _ (put_tf _ _ ?v _)) =>
    destruct (put_tf_ok t off_sepc v s Hk0 Hu0 ltac:(by vm_compute)) as [Hk Hu] end.
  clear Hk0 Hu0. revert Hk Hu. generalize (put_tf (trap_frame t) off_sepc). intros st Hk Hu.
  match type of Hk with kernel_ok ?x => generalize dependent x end. clear s st. intros s Hk Hu.
  apply bool_decide_eq_true in Hc.
  repeat (apply elem_of_cons in Hc as [->|Hc]); [..|by apply elem_of_nil in Hc]; cbn [Z.eqb Pos.eqb];
    unfold SYS_EXIT, SYS_YIELD, SYS_GETPID, SYS_PS, SYS_FORK, SYS_EXEC, SYS_WAITPID, SYS_IPC_CALL, SYS_IPC_RECV,
      SYS_IPC_REPLY, SYS_IRQ_WAIT; cbn [Z.eqb Pos.eqb].
  - apply wp_bind, wp_get_tf. by apply (handle_exit t).
  - apply wp_bind, wp_set_tf, schedule_resumes, kernel_ok_mid.
    by apply put_tf_ok; [..|by vm_compute].
  - apply wp_bind, wp_bind, wp_locked, wp_get_self, wp_ret. cbn [kern].
    apply wp_answer; [done|done|]. intros. by apply resumed_intro.
  - apply wp_bind, wp_locked, wp_ret. apply wp_answer; [done|done|]. intros. by apply resumed_intro.
  - apply wp_bind, wp_get_tf. by apply handle_waitpid.
  - apply wp_bind, wp_get_tf. by apply handle_ipc_call.
  - apply wp_bind, wp_get_tf. by apply handle_ipc_recv.
  - apply wp_bind, wp_get_tf. by apply handle_ipc_reply.
  - apply wp_bind, wp_get_tf. by apply handle_irq_wait.
Qed.
End calls.

(** ** Traps *)

(** The cause of the trap being handled. *)
Definition trap_cause (s : tsys) : TrapCause := parse_cause (default 0 (csrs (hw s) !! SCAUSE)).
(** The interrupt the controller reports. *)
Definition pending_irq (s : tsys) : Z := default 0 (plic (hw s) !! (SCONTEXT_BASE + 4)).

Section traps.
Context (f : initrd).
Implicit Types (s : tsys) (t : Task).

(** The kernel's other globals are outside the invariant. *)
Lemma kernel_ok_hw s h :
  kernel_ok s → mem h = mem (hw s) → PAGE_ALLOCATOR h = PAGE_ALLOCATOR (hw s) →
  kernel_ok (mkTsys (self s) h).
Proof.
  intros [Htm Hsp] Hm Hp. split; [done|]. apply (spaces_ok_mem (hw s)); [done| |done].
  intros i t _ b a _ _. cbn. by rewrite Hm.
Qed.
Lemma after_wake_uart s s' :
  kernel_ok s → uart_inv s 0 s' → ∀ i t, tasks (self s') !! i = Some (Some t) → waits_uart (Some t) = false.
Proof.
  intros Hk Hi i t Ht. rewrite (ui_done _ _ _ Hi i) in Ht by lia.
  destruct (tasks (self s) !! i) as [slot|]; [|done]. cbn in Ht. injection Ht as Ht.
  unfold uart_woken in Ht. destruct (waits_uart slot) eqn:Hw; [|by subst slot].
  by apply fmap_Some in Ht as (u & _ & ->).
Qed.
Lemma scheduled_waits m m' fp :
  tm_core m → scheduled m m' fp →
  (∀ i t, tasks m !! i = Some (Some t) → waits_uart (Some t) = false) →
  ∀ i t, tasks m' !! i = Some (Some t) → waits_uart (Some t) = false.
Proof.
  intros Hc (j & u & _ & Hu & _ & _ & ->) H i t Ht. cbn in Ht.
  destruct (decide (j = i)) as [->|Hne].
  - rewrite (alter_lookup _ _ _ _ Hu) in Ht. by injection Ht as <-.
  - rewrite alter_lookup_other in Ht by done.
    destruct (settled_Some m i t Hc Ht) as (w & Hw & ->).
    specialize (H i w Hw). unfold yield_task. by case_bool_decide.
Qed.

(** A timer interrupt rearms the timer and switches. *)
Lemma trap_timer_wp tf n s :
  kernel_ok s → trap_cause s = Timer →
  wp (answer_trap tf) (λ a k, resumed f (n +' TIMER_INTERVAL) a k ∧
    sbi_calls (machine k) = (0, 0, n +' TIMER_INTERVAL) :: sbi_calls (hw s)) (kern f n s).
Proof.
  intros Hk Hc. unfold answer_trap.
  apply wp_bind, wp_on_machine, wp_gets. apply wp_bind, wp_on_machine, wp_gets. cbn [self hw].
  unfold trap_cause in Hc. rewrite Hc. apply wp_bind. unfold timer_handle.
  apply wp_bind, wp_gets, wp_bind, wp_modify, wp_bind, wp_gets.
  apply (wp_on_machine f (n +' TIMER_INTERVAL) _ _ (mkTsys (self s) (hw s))), wp_modify. cbn [self hw].
  set (s1 := mkTsys _ _). apply wp_bind, wp_locked. eapply wp_mono.
  { apply schedule_mid_wp, kernel_ok_mid. by apply (kernel_ok_hw s). }
  intros fp s' (Hok & (_ & _ & _ & Hg) & _ & _ & Hcur). apply wp_ret.
  split; [by apply resumed_intro|]. exact Hg.
Qed.
(** An interrupt of the UART wakes all who wait for it. *)
Lemma trap_external_wp tf n s :
  kernel_ok s → trap_cause s = External →
  wp (answer_trap tf) (λ a k, resumed f n a k ∧
    (pending_irq s = UART0_IRQ → ∀ tm i t, TASK_MANAGER k = Some tm →
       tasks tm !! i = Some (Some t) → waits_uart (Some t) = false)) (kern f n s).
Proof.
  intros Hk Hc. unfold answer_trap.
  apply wp_bind, wp_on_machine, wp_gets. apply wp_bind, wp_on_machine, wp_gets. cbn [self hw].
  unfold trap_cause in Hc. rewrite Hc. apply wp_bind, wp_on_machine, wp_gets. cbn [self hw].
  fold (pending_irq s). apply wp_bind.
  set (Q1 := λ (_ : unit) k, ∃ s1, k = kern f n s1 ∧ kernel_ok s1 ∧
    (pending_irq s = UART0_IRQ → ∀ i t, tasks (self s1) !! i = Some (Some t) → waits_uart (Some t) = false)).
  assert (∀ s1, Q1 tt (kern f n s1) →
    wp (_ ← (if negb (pending_irq s =? 0) then on_machine (plic_complete (pending_irq s)) else mret tt);
        next ← task_schedule tf; mret (Resume next)) (λ a k, resumed f n a k ∧
    (pending_irq s = UART0_IRQ → ∀ tm i t, TASK_MANAGER k = Some tm →
       tasks tm !! i = Some (Some t) → waits_uart (Some t) = false)) (kern f n s1)) as Hrest.
  { intros s1 (s2 & E & Hk1 & Hw). assert (self s1 = self s2 ∧ hw s1 = hw s2) as [E1 E2]
      by (unfold kern in E; by injection E).
    assert (s1 = s2) as -> by (destruct s1, s2; cbn in *; by subst). clear E E1 E2.
    assert (∀ h, mem h = mem (hw s2) → PAGE_ALLOCATOR h = PAGE_ALLOCATOR (hw s2) →
      wp (next ← task_schedule tf; mret (Resume next)) (λ a k, resumed f n a k ∧
        (pending_irq s = UART0_IRQ → ∀ tm i t, TASK_MANAGER k = Some tm →
           tasks tm !! i = Some (Some t) → waits_uart (Some t) = false))
        (kern f n (mkTsys (self s2) h))) as Hsched.
    { intros h Hm Hp. pose proof (kernel_ok_hw s2 h Hk1 Hm Hp) as Hk2.
      apply wp_bind, wp_locked. eapply wp_mono; [by apply schedule_mid_wp, kernel_ok_mid|].
      intros fp s' (Hok & _ & Hsch & _ & Hcur). apply wp_ret. split; [by apply resumed_intro|].
      intros Hirq tm i t [= <-] Ht. refine (scheduled_waits _ _ _ _ Hsch (Hw Hirq) i t Ht).
      apply Hk1. }
    apply wp_bind. destruct (negb _); [|apply wp_ret; destruct s2; by apply Hsched].
    apply wp_on_machine, wp_modify. by apply Hsched. }
  destruct (pending_irq s =? UART0_IRQ) eqn:Eirq.
  - apply wp_bind, wp_on_machine, wp_bind, wp_gets, wp_modify. cbn [self hw].
    set (s1 := mkTsys _ _).
    assert (kernel_ok s1) as Hk1 by (by apply (kernel_ok_hw s)).
    apply wp_bind, wp_locked. eapply wp_mono; [by apply wake_uart_wp|]. intros b s' [Hi _].
    apply wp_ret, Hrest. exists s'. split; [done|]. split; [apply Hi|]. intros _.
    by apply (after_wake_uart s1).
  - apply wp_ret, Hrest. exists (mkTsys (self s) (hw s)). split; [done|]. split; [by destruct s|].
    intros E. by rewrite E in Eirq.
Qed.
End traps.

(** Behind a system call the handler is [handle]. *)
Lemma trap_ecall f n tf s :
  trap_cause s = UserEcall → answer_trap tf (kern f n s) = handle tf (kern f n s).
Proof.
  intros Hc. unfold trap_cause in Hc. unfold answer_trap, on_machine, read_scause, read_stval, read_csr, gets.
  destruct s as [tm h]. cbv [mbind st_bind kern machine TASK_MANAGER files NEXT_TIMER self hw].
  cbn [self hw] in Hc. by rewrite Hc.
Qed.
Lemma switched_running fp s :
  switched fp s → current_is (self s) (λ t, state t = Running ∧ trap_frame t = fp).
Proof.
  intros [[[_ (i & t & Hi & Ht & Hr)] _] (j & u & Hj & Hu & Hfp)]. exists i, t.
  rewrite Hi in Hj. injection Hj as <-. rewrite Ht in Hu. by injection Hu as <-.
Qed.

(** The panics of the handler. *)
Lemma answer_trap_fatal tf k :
  match parse_cause (default 0 (csrs (machine k) !! SCAUSE)) with
  | InstructionPageFault | LoadPageFault | StorePageFault | Unknown _ => True
  | UserEcall => known_call (load64 (mem (machine k)) (tf +' off_a7)) = false
  | Timer | External => False
  end →
  answer_trap tf k = Panic.
Proof.
  intros H. unfold answer_trap, on_machine, read_scause, read_stval, read_csr, gets.
  destruct k as [tm f n h]. cbv [mbind st_bind machine TASK_MANAGER files NEXT_TIMER].
  cbn [machine] in H. destruct (parse_cause _); try done.
  unfold handle, get_tf, on_machine, load, gets. cbv [mbind st_bind machine TASK_MANAGER files NEXT_TIMER].
  revert H. generalize (load64 (mem h) (tf +' off_a7)). intros c Hc.
  apply bool_decide_eq_false in Hc.
  repeat (apply not_elem_of_cons in Hc as [?%Z.eqb_neq Hc]).
  repeat match goal with E : (c =? _) = false |- _ => rewrite E; clear E end. done.
Qed.
