(* ===== verification/Programs.v ===== *)
(** Running programs from the initial ramdisk: [load_image] of [Exec.v], and [exec] and
    [spawn] of [Kernel.v], which load an image and hand it to the process manager.

    The program must be [program_ok] (see [Load]); whether it can be loaded depends on the
    file and on the free pages ([load_possible]). *)

From S2P Require Import Prelude Bytes Arch Page Memory Machine Pgtable Vm Trap Ipc Task Space Sched Inv IpcFacts Create Build Fork Demo Initrd Exec Load ExecFacts Kernel Traps.

#[local] Arguments read_ehdr : simpl never.
#[local] Arguments read_phdr : simpl never.

(** ** Keeping a loaded program *)

Section keeping.
Implicit Types (s : tsys) (h : mach) (t : Task) (data : list Z) (f : initrd).

(** The ramdisk's file [name], if there is one, is a program the loader can trust. *)
Definition file_ok (f : initrd) (name : list Z) : Prop :=
  ∀ data, initrd_find f name = Some data → program_ok data = true.

(** The program stays in memory while the pages of the task do. *)
Lemma program_in_kept h h' t t' data :
  same_user t t' → user_ok (mem h) t → (user_stack t ≠ 0 → page_aligned (user_stack t)) →
  (∀ b a, space_page (mem h) t b → in_page b a → load64 (mem h') a = load64 (mem h) a) →
  program_in (mem h) t data → program_in (mem h') t' data.
Proof.
  intros Hs Hu Hal Hm [Hseg Honly Hst].
  assert (∀ va, user_page t' va ↔ user_page t va) as Hup.
  { intros va. destruct Hs as (H3 & H4 & H5 & H6 & H7 & H8).
    unfold user_page, image_lo, image_hi, heap_hi. by rewrite H5, H6, H7, H8. }
  assert (∀ va, pt_lookup (mem h') (pagetable t') va = pt_lookup (mem h) (pagetable t) va) as Hlk.
  { intros va. destruct Hs as (_ & -> & _). apply pt_lookup_frame. intros b a Hb. apply Hm. by left. }
  destruct Hs as (Hus & _). split.
  - intros i va Hi Hl Hva. rewrite Hup, Hlk. destruct (Hseg i va Hi Hl Hva) as (Hp & p & Hpa & Hpb & E & Hf).
    split; [done|]. exists p. do 3 (split; [done|]).
    apply (page_filled_kept _ _ _ _ (mem h)); [done| |done]. intros a. apply Hm. right. left.
    exists va. split; [done|]. rewrite E. cbn. f_equal. apply pte_to_pa_of; [done|done|].
    apply segment_flags_bound.
  - intros va. rewrite Hup, Hlk. apply Honly.
  - rewrite Hus, Hlk. destruct Hst as (E & Hn & Hz). split; [done|]. split; [done|].
    intros k Hk. rewrite (Hm (user_stack t)); [by apply Hz|by right; right|].
    specialize (Hal Hn). destruct Hal. unfold in_page, PAGE_SIZE. lia.
Qed.
Lemma kernel_ok_extends s h : kernel_ok s → extends (hw s) h → kernel_ok (mkTsys (self s) h).
Proof. intros [Htm Hsp] He. split; [exact Htm|]. by apply (spaces_ok_extends (hw s)). Qed.
End keeping.

(** ** The operations *)

Section operations.
Context (f : initrd) (n : Z).
Implicit Types (s : tsys) (h : mach) (t : Task) (data name : list Z).

(** What [exec] leaves behind when it succeeds. *)
Record exec_done s s' t data (img : LoadedImage) : Prop := {
  ed_user : in_user s' (exec_image img t);
  ed_entry : img_entry img = e_entry (read_ehdr data);
  ed_program : program_in (mem (hw s')) (exec_image img t) data;
  ed_self : ∃ i, current_index (self s) = Some i ∧
    self s' = set_tasks (alter (fmap (exec_image img)) i) (self s);
  ed_frame : frame_at (mem (hw s')) (trap_frame t) =
    start_frame (frame_at (mem (hw s)) (trap_frame t)) (img_entry img);
  ed_satp : load64 (mem (hw s')) (trap_frame t + FRAME_SIZE + 8) = satp_of (img_pagetable img);
  ed_released b : space_page (mem (hw s)) t b → ¬ is_alloc (hw s') b;
}.
Lemma exec_wp s t name :
  file_ok f name → kernel_ok s → in_user s t →
  wp (exec name (trap_frame t)) (λ r k, ∃ s', k = kern f n s' ∧ kernel_ok s' ∧ match r with
    | Ok _ => ∃ data img, initrd_find f name = Some data ∧ exec_done s s' t data img
    | Err => in_user s' t ∧ self s' = self s ∧ extends (hw s) (hw s') ∧
        ¬ ∃ data, initrd_find f name = Some data ∧ load_possible data (free_count (hw s))
    end) (kern f n s).
Proof.
  intros Hf Hk Hu. unfold exec. apply wp_bind, wp_gets. cbn [files kern]. apply wp_try_bind, wp_on_machine.
  eapply wp_mono; [apply load_image_wp; [done|apply Hk]|]. intros r h [He Hr].
  pose proof (kernel_ok_extends s h Hk He) as Hk1. destruct r as [img|].
  2: { exists (mkTsys (self s) h). split; [done|]. split; [done|]. split; [|done].
       destruct Hu as (i & Hu). by exists i. }
  destruct Hr as (data & Hd & _ & [Hen [us Hb] Hp] & _). apply wp_locked. cbn [self hw].
  assert (mkTsys (self s) (hw s) = s) as Es by by destruct s.
  eapply wp_mono.
  { apply (replace_current_wp (hw s) (mkTsys (self s) h) t img us); [cbn [self hw]; by rewrite Es|by destruct Hu as (i & Hu); exists i|done]. }
  intros r s' (-> & Hk' & Hu' & [Hs Hfr Hsatp Him Hal]). exists s'. split; [done|]. split; [done|].
  exists data, img. split; [done|]. split; try done.
  - apply (program_in_kept h (hw s') (task_of img)); [done| | | |done].
    + by apply (built_user_ok _ _ _ _ _ Hb).
    + intros _. apply (built_layout _ _ _ _ _ Hb).
    + intros b a Hsp Hin. destruct (built_fresh _ _ _ _ _ b Hb Hsp) as [Ha Hn].
      by apply (Him b).
  - intros b Hsp [_ Hn]%Hal. done.
Qed.

(** What [spawn] leaves behind when it succeeds. *)
Record spawned s s' p t data : Prop := {
  sp_created : ∃ h img, image_loaded (hw s) h data img ∧
    user_created (e_entry (read_ehdr data)) (task_of img) (mkTsys (self s) h) s' p t;
  sp_program : program_in (mem (hw s')) t data;
  sp_machine : extends (hw s) (hw s');
  sp_alloc b : is_alloc (hw s') b ↔ is_alloc (hw s) b ∨ owns (mem (hw s')) t b;
  sp_free : load_possible data (free_count (hw s)) →
    free_count (hw s) - load_pages data - 1 ≤ free_count (hw s');
}.
Definition spawn_possible s data : Prop :=
  load_possible data (free_count (hw s)) ∧ load_pages data < free_count (hw s) ∧
  is_Some (position is_none (tasks (self s))).
(** [create_user_image] after [load_image] took the machine from that of [s] to [h]. *)
Lemma spawned_intro s h s' p t data img :
  image_loaded (hw s) h data img →
  (load_possible data (free_count (hw s)) → free_count (hw s) - load_pages data ≤ free_count h) →
  user_created (e_entry (read_ehdr data)) (task_of img) (mkTsys (self s) h) s' p t →
  spawned s s' p t data.
Proof.
  intros Him Hf Hc. pose proof Him as [_ [us Hb] Hp].
  pose proof Hc as [_ _ _ _ _ (H1 & H2 & H3 & H4 & H5 & H6) _ Hal [He Hfr]]. cbn [hw] in Hal, He, Hfr.
  pose proof (b_ext _ _ _ _ _ (built_building _ _ _ _ _ Hb)) as He0.
  assert (same_user (task_of img) t) as Hs by (split_and!; try done; by rewrite H6).
  assert (∀ b a, space_page (mem h) (task_of img) b → in_page b a → load64 (mem (hw s')) a = load64 (mem h) a) as Hkept.
  { intros b a Hsp. apply (ext_mem _ _ He). by destruct (built_fresh _ _ _ _ _ b Hb Hsp). }
  assert (∀ b, space_page (mem (hw s')) t b ↔ space_page (mem h) (task_of img) b) as Hsp.
  { intros b. rewrite <- (space_page_frame h (hw s') (task_of img)).
    - unfold space_page, data_page, user_page, image_lo, image_hi, heap_hi. by rewrite H1, H2, H3, H4, H5, H6.
    - intros b' a Hb'. apply Hkept. by left. }
  split.
  - by exists h, img.
  - apply (program_in_kept h (hw s') (task_of img)); [done|by apply (built_user_ok _ _ _ _ _ Hb)| |done|done].
    intros _. apply (built_layout _ _ _ _ _ Hb).
  - by apply (extends_trans _ h).
  - intros b. unfold owns. rewrite Hsp, (built_space_page _ _ _ _ _ b Hb), Hal.
    rewrite (b_alloc _ _ _ _ _ (built_building _ _ _ _ _ Hb)), elem_of_nil. tauto.
  - intros Hl. specialize (Hf Hl). lia.
Qed.
Lemma spawn_wp s kpt name :
  file_ok f name → kernel_mid s → KERNEL_PAGETABLE (hw s) = Some kpt →
  next_pid (self s) ≠ IDLE_PID → task_index (tasks (self s)) (next_pid (self s)) = None →
  wp (spawn name) (λ r k, ∃ s', k = kern f n s' ∧ kernel_mid s' ∧ match r with
    | Ok p => ∃ data t, initrd_find f name = Some data ∧ spawned s s' p t data
    | Err => self s' = self s ∧
        ¬ ∃ data, initrd_find f name = Some data ∧ spawn_possible s data
    end) (kern f n s).
Proof.
  intros Hf Hk Hkpt Hp Hnew. unfold spawn. apply wp_bind, wp_gets. cbn [files kern]. apply wp_try_bind, wp_on_machine.
  eapply wp_mono; [apply load_image_wp; [done|apply Hk]|]. intros r h [He Hr].
  assert (kernel_mid (mkTsys (self s) h)) as Hk1.
  { destruct Hk as [Hm Hsp]. split; [exact Hm|]. by apply (spaces_ok_extends (hw s)). }
  destruct r as [img|].
  2: { exists (mkTsys (self s) h). split; [done|]. split; [done|]. split; [done|].
       intros (data & Hd & Hl & _). apply Hr. by exists data. }
  destruct Hr as (data & Hd & _ & Him & Hfree). apply wp_locked. cbn [self hw].
  pose proof Him as [Hen [us Hb] _]. eapply wp_mono.
  { apply (create_user_image_wp _ _ _ _ _ kpt); cbn [self hw]; [exact Hk1| | |done|done].
    - pose proof (ext_globals _ _ He) as (-> & _). done.
    - apply (built_loaded (hw s) h us [] (tasks (self s))); [apply Hk|]. exact Hb. }
  intros r s' [Hk' Hr]. exists s'. split; [by destruct s'|]. split; [exact Hk'|]. destruct r as [p|].
  - destruct Hr as (t & Ht). exists data, t. split; [done|].
    apply (spawned_intro s h s' p t data img); [done|done|]. rewrite <- Hen. exact Ht.
  - destruct Hr as (Hs & Hg & Hwhy). split; [exact Hs|].
    intros (data' & Hd' & Hl & Hlt & [i Hi]). rewrite Hd in Hd'. injection Hd' as <-.
    specialize (Hfree Hl). cbn [self hw] in Hwhy. destruct Hwhy as [Hn|Hn]; [congruence|lia].
Qed.
End operations.

(** ** A ramdisk for the witnesses *)

Definition demo_ramdisk : initrd := mkInitrd (Some (mkEntry [120] demo_elf) :: replicate 15 None) 1.
Lemma demo_ramdisk_find : initrd_find demo_ramdisk [120] = Some demo_elf.
Proof. reflexivity. Qed.
Lemma demo_ramdisk_ok : file_ok demo_ramdisk [120].
Proof. intros data. rewrite demo_ramdisk_find. intros [= <-]. by vm_compute. Qed.
Lemma demo_elf_facts :
  e_phnum (read_ehdr demo_elf) = 1 ∧ load_pages demo_elf = 31 ∧
  segments_count demo_elf (seqZ 0 1) = 1 ∧ loads (phdr_at demo_elf 0) = true ∧
  segment_in_file demo_elf (phdr_at demo_elf 0) = true ∧
  elf_verify (read_ehdr demo_elf) (Z.of_nat (length demo_elf)) = true.
Proof. by vm_compute. Qed.
Lemma demo_elf_loads free : 31 ≤ free → load_possible demo_elf free.
Proof.
  intros Hf. destruct demo_elf_facts as (Hn & _ & Hc & Hl & Hin & Hv). split.
  - by vm_compute.
  - done.
  - exists 0. rewrite Hn. split; [lia|done].
  - rewrite Hn. split; [apply NoDup_seqZ|]. rewrite Hc. split; [lia|].
    intros i Hi%elem_of_seqZ Hli. assert (i = 0) as -> by lia. split; [done|].
    intros j va _. split; [tauto|]. intros Hj%elem_of_seqZ Hne. lia.
Qed.

(** ** What the loader and its callers guarantee *)

(** [C26] The ELF loader.  For a ramdisk file that is [program_ok], [load_image] returns on
    every machine with a well-formed page allocator and touches nothing that was allocated
    before.  When it succeeds, the file exists and passed the header checks, the
    new address space contains the kernel's mappings, every page of every segment with the segment's permissions,
    the file's bytes and zeros behind them, a zeroed stack page, and nothing else, all of it in fresh
    pages.  It fails only when there is no such file, a header is bad, a segment lies outside the
    file, two segments share a page, or fewer than [load_pages] pages are free. *)
Theorem load_image_correct f name h :
  file_ok f name → pages_wf h →
  ∃ r h', load_image f name h = Done (r, h') ∧ extends h h' ∧
    match r with
    | Ok img => ∃ data, initrd_find f name = Some data ∧
        elf_verify (read_ehdr data) (Z.of_nat (length data)) = true ∧ image_loaded h h' data img ∧
        (load_possible data (free_count h) → free_count h - load_pages data ≤ free_count h')
    | Err => ¬ ∃ data, initrd_find f name = Some data ∧ load_possible data (free_count h)
    end.
Proof.
  intros Hf Hp. pose proof (load_image_wp f name h Hf Hp) as H.
  apply wp_Done in H as (r & h' & E & H). by exists r, h'.
Qed.
(** The small ELF file is loaded. *)
Lemma load_image_correct_witness :
  ∃ h img h', load_image demo_ramdisk [120] h = Done (Ok img, h') ∧
    image_loaded h h' demo_elf img ∧ img_entry img = 0x10000.
Proof.
  destruct demo_kernel_state as (s & t & [Hk _ _ _ _ _ _ Hfree _ _ _ _]). exists (hw s).
  destruct (load_image_correct demo_ramdisk [120] (hw s) demo_ramdisk_ok (spaces_pages _ _ (k_spaces _ Hk)))
    as (r & h' & E & _ & Hr).
  destruct r as [img|].
  - destruct Hr as (data & Hd & _ & Hi & _). rewrite demo_ramdisk_find in Hd. injection Hd as <-.
    exists img, h'. split; [exact E|]. split; [exact Hi|]. rewrite (il_entry _ _ _ _ Hi). reflexivity.
  - exfalso. apply Hr. exists demo_elf. split; [exact demo_ramdisk_find|]. apply demo_elf_loads. lia.
Defined.

(** [C27] [exec] replaces the caller's program.  With the kernel invariant and a program the loader
    can trust, [exec] returns to the caller with the invariant.  On success the caller keeps its
    slot, PID, parent and kernel stack, runs in the loaded image ([program_in]) with an empty heap
    behind it, its frame starts at the entry point with an empty stack and no arguments and
    the new [satp] value is in place, no other task's record changes, and all pages of the old
    address space are released.  On failure no task changes and the program could
    not be loaded. *)
Theorem exec_correct f n s t name :
  file_ok f name → kernel_ok s → in_user s t →
  ∃ r s', exec name (trap_frame t) (kern f n s) = Done (r, kern f n s') ∧ kernel_ok s' ∧
    match r with
    | Ok _ => ∃ data img, initrd_find f name = Some data ∧ exec_done s s' t data img
    | Err => in_user s' t ∧ self s' = self s ∧ extends (hw s) (hw s') ∧
        ¬ ∃ data, initrd_find f name = Some data ∧ load_possible data (free_count (hw s))
    end.
Proof.
  intros Hf Hk Hu. pose proof (exec_wp f n s t name Hf Hk Hu) as H.
  apply wp_Done in H as (r & k & E & s' & -> & H). by exists r, s'.
Qed.
(** The demo's client replaces itself by the small ELF file. *)
Lemma exec_correct_witness :
  ∃ s t s' img, exec [120] (trap_frame t) (kern demo_ramdisk 0 s) = Done (Ok tt, kern demo_ramdisk 0 s') ∧
    kernel_ok s' ∧ exec_done s s' t demo_elf img.
Proof.
  destruct demo_kernel_state as (s & t & [Hk Hu _ _ _ _ _ Hfree _ _ _ _]). exists s, t.
  destruct (exec_correct demo_ramdisk 0 s t [120] demo_ramdisk_ok Hk Hu) as (r & s' & E & Hk' & Hr).
  destruct r as [[]|].
  - destruct Hr as (data & img & Hd & Hx). rewrite demo_ramdisk_find in Hd. injection Hd as <-.
    exists s', img. split; [exact E|]. by split.
  - destruct Hr as (_ & _ & _ & Hn). exfalso. apply Hn. exists demo_elf.
    split; [exact demo_ramdisk_find|]. apply demo_elf_loads. lia.
Defined.

(** [spawn] starts a program in a new task.  Between two steps of the kernel, with a fresh
    PID and a program the loader can trust, [spawn] returns with the invariant.  On success the new
    task is in the first free slot, ready, with the program in its memory and a
    frame at its entry point; exactly the task's pages are newly allocated, and nothing that was allocated
    changes.  On failure the manager is as before, and the program could not be loaded, the table was
    full or no page was left for the kernel stack. *)
Lemma spawn_correct f n s kpt name :
  file_ok f name → kernel_mid s → KERNEL_PAGETABLE (hw s) = Some kpt →
  next_pid (self s) ≠ IDLE_PID → task_index (tasks (self s)) (next_pid (self s)) = None →
  ∃ r s', spawn name (kern f n s) = Done (r, kern f n s') ∧ kernel_mid s' ∧
    match r with
    | Ok p => ∃ data t, initrd_find f name = Some data ∧ spawned s s' p t data
    | Err => self s' = self s ∧ ¬ ∃ data, initrd_find f name = Some data ∧ spawn_possible s data
    end.
Proof.
  intros Hf Hk Hkpt Hp Hnew. pose proof (spawn_wp f n s kpt name Hf Hk Hkpt Hp Hnew) as H.
  apply wp_Done in H as (r & k & E & s' & -> & H). by exists r, s'.
Qed.
