(* ===== verification/Steady.v ===== *)
(** What the trap handler and the boot do to the page allocator, to the list of pages it has handed
    out, and to the kernel's root table, read off the code.  [keeps R m] says that whenever [m]
    returns, the machine before and the machine after are related by [R]; the tactic [steady] follows
    the code of [m].  [R] is a preorder that looks at nothing else of the machine ([Kept]), and
    perhaps holds across [page_alloc] ([KeptAlloc]) and [page_free] ([KeptFree]).

    Three relations are used: the root table is never replaced ([same_root]), nothing is taken
    ([same_taken]), and, in [Window], what was taken against what was free. *)

From S2P Require Import Prelude Arch Page Memory Machine Pgtable Vm Trap Ipc Task Initrd Exec Kernel.

Class HasMach (S : Type) := mach_of : S → mach.
#[export] Instance mach_mach : HasMach mach := λ h, h.
#[export] Instance tsys_mach : HasMach tsys := hw.
#[export] Instance kernel_mach : HasMach kernel := machine.

Definition keeps (R : mach → mach → Prop) {S} `{HasMach S} {A} (m : st S A) : Prop :=
  ∀ s a s', m s = Done (a, s') → R (mach_of s) (mach_of s').
(** The same, when the result is [Ok]. *)
Definition keeps_ok (R : mach → mach → Prop) {S} `{HasMach S} {A} (m : st S (result A)) : Prop :=
  ∀ s a s', m s = Done (Ok a, s') → R (mach_of s) (mach_of s').

Class Kept (R : mach → mach → Prop) : Prop := {
  kept_trans h1 h2 h3 : R h1 h2 → R h2 h3 → R h1 h3;
  kept_same h h' : PAGE_ALLOCATOR h' = PAGE_ALLOCATOR h → taken h' = taken h →
    KERNEL_PAGETABLE h' = KERNEL_PAGETABLE h → R h h';
}.
Class KeptAlloc (R : mach → mach → Prop) : Prop := kept_alloc : keeps R page_alloc.
Class KeptFree (R : mach → mach → Prop) : Prop := kept_free a : keeps R (page_free a).

Section rules.
Context (R : mach → mach → Prop) `{!Kept R} {S : Type} `{HasMach S}.

Lemma relates_refl h : R h h.
Proof. by apply kept_same. Qed.
Lemma keeps_ret {A} (a : A) : keeps R (mret a : st S A).
Proof. intros s b s' [= _ <-]. apply relates_refl. Qed.
Lemma keeps_gets {A} (f : S → A) : keeps R (gets f).
Proof. intros s b s' [= _ <-]. apply relates_refl. Qed.
Lemma keeps_modify (f : S → S) : (∀ s, R (mach_of s) (mach_of (f s))) → keeps R (modify f).
Proof. intros Hf s b s' [= _ <-]. apply Hf. Qed.
Lemma keeps_panic {A} : keeps R (panic : st S A).
Proof. done. Qed.
Lemma keeps_diverge {A} : keeps R (diverge : st S A).
Proof. done. Qed.
Lemma keeps_bind {A B} (m : st S A) (k : A → st S B) : keeps R m → (∀ a, keeps R (k a)) → keeps R (m ≫= k).
Proof.
  intros Hm Hk s b s'. unfold mbind, st_bind. destruct (m s) as [[a s1]| |] eqn:E; [|done..].
  intros E'. by eapply kept_trans; [apply (Hm s a)|apply (Hk a s1 b)].
Qed.
Lemma keeps_try_bind {A B} (m : st S (result A)) (k : A → st S (result B)) :
  keeps R m → (∀ a, keeps R (k a)) → keeps R (try_bind k m).
Proof. intros Hm Hk. apply keeps_bind; [done|]. intros [a|]; [apply Hk|apply keeps_ret]. Qed.
Lemma keeps_otry_bind {A B} (m : st S (option A)) (k : A → st S (option B)) :
  keeps R m → (∀ a, keeps R (k a)) → keeps R (otry_bind k m).
Proof. intros Hm Hk. apply keeps_bind; [done|]. intros [a|]; [apply Hk|apply keeps_ret]. Qed.
Lemma keeps_unwrap {A} (o : option A) : keeps R (unwrap o : st S A).
Proof. destruct o; [apply keeps_ret|apply keeps_panic]. Qed.
Lemma keeps_foreach {A} (l : list A) (body : A → st S unit) : (∀ x, keeps R (body x)) → keeps R (foreach l body).
Proof. intros Hb. induction l as [|x l IH]; [apply keeps_ret|]. apply keeps_bind; [apply Hb|done]. Qed.
Lemma keeps_try_foreach {A} (l : list A) (body : A → st S (result unit)) :
  (∀ x, keeps R (body x)) → keeps R (try_foreach l body).
Proof. intros Hb. induction l as [|x l IH]; [apply keeps_ret|]. apply keeps_try_bind; [apply Hb|done]. Qed.

(** On the way to [Ok] a step that fails does not count. *)
Lemma keeps_keeps_ok {A} (m : st S (result A)) : keeps R m → keeps_ok R m.
Proof. intros Hm s a s'. apply Hm. Qed.
Lemma keeps_ok_bind {A B} (m : st S A) (k : A → st S (result B)) :
  keeps R m → (∀ a, keeps_ok R (k a)) → keeps_ok R (m ≫= k).
Proof.
  intros Hm Hk s b s'. unfold mbind, st_bind. destruct (m s) as [[a s1]| |] eqn:E; [|done..].
  intros E'. by eapply kept_trans; [apply (Hm s a)|apply (Hk a s1 b)].
Qed.
Lemma keeps_ok_try_bind {A B} (m : st S (result A)) (k : A → st S (result B)) :
  keeps_ok R m → (∀ a, keeps_ok R (k a)) → keeps_ok R (try_bind k m).
Proof.
  intros Hm Hk s b s'. unfold try_bind, mbind, st_bind. destruct (m s) as [[[a|] s1]| |] eqn:E; [|done..].
  intros E'. by eapply kept_trans; [apply (Hm s a)|apply (Hk a s1 b)].
Qed.
Lemma keeps_ok_never {A B} (m : st S A) (k : A → st S (result B)) :
  (∀ a s b s', k a s ≠ Done (Ok b, s')) → keeps_ok R (m ≫= k).
Proof. intros Hk s b s'. unfold mbind, st_bind. destruct (m s) as [[a s1]| |]; [|done..]. intros E. by destruct (Hk a s1 b s'). Qed.
Lemma keeps_then_expect {A B} (m : st S (result A)) (k : A → st S B) :
  keeps_ok R m → (∀ a, keeps R (k a)) → keeps R (r ← m; a ← expect r; k a).
Proof.
  intros Hm Hk s b s'. unfold mbind, st_bind. destruct (m s) as [[[a|] s1]| |] eqn:E; [|done..].
  intros E'. by eapply kept_trans; [apply (Hm s a)|apply (Hk a s1 b)].
Qed.
End rules.

Create HintDb steady discriminated.
#[export] Hint Resolve keeps_ret keeps_gets keeps_panic keeps_diverge keeps_unwrap kept_alloc kept_free : steady.
#[export] Hint Extern 0 (Kept _) => exact _ : steady.
#[export] Hint Extern 0 (KeptAlloc _) => exact _ : steady.
#[export] Hint Extern 0 (KeptFree _) => exact _ : steady.

(** The code, one construct at a time; a definition without a lemma is unfolded. *)
Ltac steady_head t := match t with ?f _ => steady_head f | _ => t end.
Ltac steady_step :=
  first
    [ solve [auto with steady nocore]
    | match goal with
      | |- keeps _ (_ ≫= _) => apply keeps_bind; [exact _| |intros ?]
      | |- keeps _ (try_bind _ _) => apply keeps_try_bind; [exact _| |intros ?]
      | |- keeps _ (otry_bind _ _) => apply keeps_otry_bind; [exact _| |intros ?]
      | |- keeps _ (foreach _ _) => apply keeps_foreach; [exact _|intros ?]
      | |- keeps _ (try_foreach _ _) => apply keeps_try_foreach; [exact _|intros ?]
      | |- keeps _ (modify _) => apply keeps_modify; intros ?; by apply kept_same
      | |- keeps _ (match ?x with _ => _ end) => destruct x
      | |- keeps _ (let _ := _ in _) => cbv zeta
      | |- keeps _ ?m => let h := steady_head m in unfold h
      end ].
Ltac steady := repeat steady_step.

(** ** Computations on the machine inside those of the kernel *)

Section lift.
Context (R : mach → mach → Prop) `{!Kept R}.

Lemma keeps_on_hw {A} (m : M A) : keeps R m → keeps R (on_hw m).
Proof.
  intros Hm s a s'. unfold on_hw. destruct (m (hw s)) as [[b h]| |] eqn:E; [|done..].
  intros [= _ <-]. by apply (Hm (hw s) b).
Qed.
Lemma keeps_on_queue {A} e (m : st MsgQueue A) : keeps R (on_queue e m).
Proof.
  intros s a s'. unfold on_queue. destruct (endpoint_at (self s) e) as [ep|]; [|done].
  destruct (m (pending ep)) as [[b q]| |]; [|done..].
  unfold mbind, st_bind. destruct (upd_endpoint e (set_pending q) s) as [[[] s1]| |] eqn:E; [|done..].
  intros [= _ <-]. revert E. assert (keeps R (upd_endpoint e (set_pending q))) as H by steady. apply H.
Qed.
Lemma keeps_on_machine {A} (m : M A) : keeps R m → keeps R (on_machine m).
Proof.
  intros Hm k a k'. unfold on_machine. destruct (m (machine k)) as [[b h]| |] eqn:E; [|done..].
  intros [= _ <-]. by apply (Hm (machine k) b).
Qed.
Lemma keeps_locked {A} (none : K A) (m : T A) : keeps R none → keeps R m → keeps R (locked none m).
Proof.
  intros Hn Hm k a k'. unfold locked. destruct (TASK_MANAGER k) as [tm|]; [|apply Hn].
  destruct (m _) as [[b s]| |] eqn:E; [|done..]. intros [= _ <-]. by apply (Hm _ _ _ E).
Qed.
Lemma keeps_ok_locked {A} (none : K (result A)) (m : T (result A)) :
  keeps_ok R none → keeps_ok R m → keeps_ok R (locked none m).
Proof.
  intros Hn Hm k a k'. unfold locked. destruct (TASK_MANAGER k) as [tm|]; [|apply Hn].
  destruct (m _) as [[[b|] s]| |] eqn:E; [|done..]. intros [= _ <-]. by apply (Hm _ _ _ E).
Qed.
End lift.
#[export] Hint Resolve keeps_on_queue : steady.
#[export] Hint Extern 1 (keeps _ (on_hw _)) => apply keeps_on_hw; steady : steady.
#[export] Hint Extern 1 (keeps _ (on_machine _)) => apply keeps_on_machine; steady : steady.
#[export] Hint Extern 1 (keeps _ (locked _ _)) => apply keeps_locked; steady : steady.

(** ** Neither taking nor giving back a page *)

Section plain.
Context (R : mach → mach → Prop) `{!Kept R}.

Lemma keeps_walk_read levels pt va : keeps R (walk_levels levels pt va false).
Proof. revert pt. induction levels as [|l levels IH]; intros pt; cbn [walk_levels]; steady. Qed.
Hint Resolve keeps_walk_read : steady.
Lemma keeps_virt_to_phys pt va : keeps R (virt_to_phys pt va).
Proof. steady. Qed.
Lemma keeps_source_pte pt va : keeps R (source_pte pt va).
Proof. steady. Qed.
Lemma keeps_set_flags pt va size flags : keeps R (pgtable_set_flags pt va size flags).
Proof. steady. Qed.
Hint Resolve keeps_virt_to_phys keeps_source_pte keeps_set_flags : steady.
Lemma keeps_copy_from_user idxs pt src dst : keeps R (copy_from_user idxs pt src dst).
Proof. revert dst. induction idxs as [|i idxs IH]; intros dst; cbn [copy_from_user]; steady. Qed.
Hint Resolve keeps_copy_from_user : steady.
Lemma keeps_schedule_from start offsets : keeps R (schedule_from start offsets).
Proof. induction offsets as [|o offsets IH]; cbn [schedule_from]; steady. Qed.
Hint Resolve keeps_schedule_from : steady.
Lemma keeps_block_at i ch tf : keeps R (block_at i ch tf).
Proof. steady. Qed.
Lemma keeps_wake_uart_from idxs woke : keeps R (wake_uart_from idxs woke).
Proof. revert woke. induction idxs as [|i idxs IH]; intros woke; cbn [wake_uart_from]; steady. Qed.
Hint Resolve keeps_block_at keeps_wake_uart_from : steady.
Lemma keeps_read_name idxs va acc : keeps R (read_name idxs va acc).
Proof. revert acc. induction idxs as [|i idxs IH]; intros acc; cbn [read_name]; steady. Qed.
Lemma keeps_init_context ks pt fr : keeps R (init_context ks pt fr).
Proof. steady. Qed.
Lemma keeps_grant_uart p : keeps R (grant_uart p).
Proof. steady. Qed.
Lemma keeps_register e o : keeps R (register_endpoint e o).
Proof. steady. Qed.
Lemma keeps_enter_task p : keeps R (enter_task p).
Proof. steady. Qed.
End plain.
#[export] Hint Resolve keeps_walk_read keeps_virt_to_phys keeps_source_pte keeps_set_flags keeps_copy_from_user
  keeps_schedule_from keeps_block_at keeps_wake_uart_from keeps_read_name keeps_init_context keeps_grant_uart
  keeps_register keeps_enter_task : steady.

(** ** Taking pages *)

Section taking.
Context (R : mach → mach → Prop) `{!Kept R} `{!KeptAlloc R}.

Lemma keeps_walk_levels levels pt va alloc : keeps R (walk_levels levels pt va alloc).
Proof. revert pt. induction levels as [|l levels IH]; intros pt; cbn [walk_levels]; steady. Qed.
Hint Resolve keeps_walk_levels : steady.
Lemma keeps_map pt va pa size flags : keeps R (pgtable_map pt va pa size flags).
Proof. steady. Qed.
Hint Resolve keeps_map : steady.
Lemma keeps_map_kernel pt : keeps R (map_kernel pt).
Proof. steady. Qed.
Hint Resolve keeps_map_kernel : steady.
Lemma keeps_load_segments idxs pt data ehdr lo hi : keeps R (load_segments idxs pt data ehdr lo hi).
Proof. revert lo hi. induction idxs as [|i idxs IH]; intros lo hi; cbn [load_segments]; steady. Qed.
Hint Resolve keeps_load_segments : steady.
Lemma keeps_load_image f name : keeps R (load_image f name).
Proof. steady. Qed.
Lemma keeps_fork tf : keeps R (fork tf).
Proof. steady. Qed.
End taking.
#[export] Hint Resolve keeps_walk_levels keeps_map keeps_map_kernel keeps_load_segments keeps_load_image keeps_fork : steady.

(** Creating a task gives pages back only when it fails. *)
Section creating.
Context (R : mach → mach → Prop) `{!Kept R} `{!KeptAlloc R}.

(** A computation whose every end is [Err]. *)
Ltac never_ok :=
  intros ? ? ? ?; unfold mbind, st_bind; repeat (case_match; try done); done.
Ltac steady_ok_step :=
  match goal with
  | |- keeps_ok _ (match ?x with _ => _ end) => destruct x
  | |- keeps_ok _ (let _ := _ in _) => cbv zeta
  | |- keeps_ok _ (locked _ _) => apply keeps_ok_locked
  | |- keeps_ok _ (mret _) => apply keeps_keeps_ok; steady
  | |- keeps_ok _ (try_bind _ _) => apply keeps_ok_try_bind; [exact _|solve [apply keeps_keeps_ok; steady]|intros ?]
  | |- keeps_ok _ (_ ≫= _) => first [apply keeps_ok_never; solve [never_ok] | apply keeps_ok_bind; [exact _|solve [steady]|intros ?]]
  end.
Lemma keeps_ok_create_idle en : keeps_ok R (create_idle en).
Proof. unfold create_idle. repeat steady_ok_step. Qed.
Lemma keeps_ok_create_user_image pt us en ib size : keeps_ok R (create_user_image pt us en ib size).
Proof. unfold create_user_image. repeat steady_ok_step. Qed.
Lemma keeps_ok_spawn name : keeps_ok R (spawn name).
Proof.
  unfold spawn, task_create_user_image. repeat steady_ok_step. apply keeps_ok_create_user_image.
Qed.
Lemma keeps_ok_idle_create_idle en : keeps_ok R (idle_create_idle en).
Proof. unfold idle_create_idle, task_create_idle. repeat steady_ok_step. apply keeps_ok_create_idle. Qed.
End creating.

(** ** Giving pages back *)

Section giving.
Context (R : mach → mach → Prop) `{!Kept R} `{!KeptFree R}.

Lemma keeps_free_walk fuel pt : keeps R (free_walk fuel pt).
Proof. revert pt. induction fuel as [|fuel IH]; intros pt; cbn [free_walk]; steady. Qed.
Lemma keeps_unmap pt va size b : keeps R (pgtable_unmap pt va size b).
Proof. steady. Qed.
Hint Resolve keeps_free_walk keeps_unmap : steady.
Lemma keeps_free_task t : keeps R (free_task t).
Proof. steady. Qed.
Hint Resolve keeps_free_task : steady.
Lemma keeps_schedule tf : keeps R (schedule tf).
Proof. steady. Qed.
Hint Resolve keeps_schedule : steady.
Lemma keeps_replace_current pt us en ib size tf : keeps R (replace_current pt us en ib size tf).
Proof. steady. Qed.
Lemma keeps_exit_current code : keeps R (exit_current code).
Proof. steady. Qed.
Lemma keeps_waitpid p tf : keeps R (waitpid p tf).
Proof. steady. Qed.
Lemma keeps_wait_uart tf : keeps R (wait_uart_irq tf).
Proof. steady. Qed.
Lemma keeps_ipc_call e ws tf : keeps R (ipc_call e ws tf).
Proof. steady. Qed.
Lemma keeps_ipc_recv e tf : keeps R (ipc_recv e tf).
Proof. steady. Qed.
Lemma keeps_ipc_reply c ws : keeps R (ipc_reply c ws).
Proof. steady. Qed.
Lemma keeps_ipc_call_buf e ws ub len tf : keeps R (ipc_call_buf e ws ub len tf).
Proof. steady. Qed.
Lemma keeps_ipc_recv_buf e ub cap tf : keeps R (ipc_recv_buf e ub cap tf).
Proof. steady. Qed.
Lemma keeps_ipc_reply_buf c ws ub len : keeps R (ipc_reply_buf c ws ub len).
Proof. steady. Qed.
End giving.
#[export] Hint Resolve keeps_free_walk keeps_unmap keeps_free_task keeps_schedule keeps_replace_current keeps_exit_current
  keeps_waitpid keeps_wait_uart keeps_ipc_call keeps_ipc_recv keeps_ipc_reply keeps_ipc_call_buf keeps_ipc_recv_buf
  keeps_ipc_reply_buf : steady.

(** ** The whole handler *)

Section handler.
Context (R : mach → mach → Prop) `{!Kept R} `{!KeptAlloc R} `{!KeptFree R}.

Lemma keeps_sbrk_grow fuel pt lo hi e : keeps R (sbrk_grow fuel pt lo hi e).
Proof. revert e. induction fuel as [|fuel IH]; intros e; cbn [sbrk_grow]; steady. Qed.
Hint Resolve keeps_sbrk_grow : steady.
Lemma keeps_sbrk inc : keeps R (sbrk inc).
Proof. steady. Qed.
Lemma keeps_sys_exec va len tf : keeps R (sys_exec va len tf).
Proof. steady. Qed.
Hint Resolve keeps_sbrk keeps_sys_exec : steady.
Lemma keeps_create_user_image pt us en ib size : keeps R (create_user_image pt us en ib size).
Proof. steady. Qed.
Lemma keeps_create_idle en : keeps R (create_idle en).
Proof. steady. Qed.
Hint Resolve keeps_create_user_image keeps_create_idle : steady.
Lemma keeps_spawn name : keeps R (spawn name).
Proof. steady. Qed.
Lemma keeps_handle tf : keeps R (handle tf).
Proof. steady. Qed.
Hint Resolve keeps_handle : steady.
Lemma keeps_answer_trap tf : keeps R (answer_trap tf).
Proof. steady. Qed.
End handler.
