(* ===== verification/Window.v ===== *)
(** Which pages the kernel can reach.  The kernel's own page table maps [kernel_va], and the
    allocator manages pages beyond it ([allocator_exceeds_kernel_map]); it hands the reachable ones
    out first.  [drawn] relates the machine before and after a run of the kernel: what was taken,
    and that an unreachable page is taken only once the reachable ones have run out.  [paged_cases]
    turns this into the two outcomes of a run on the kernel's page table. *)

From S2P Require Import Prelude Arch Page Memory Machine Pgtable Vm Trap Ipc Task Initrd Exec Kernel Steady.

(** The allocator works, and its pages begin behind the start of the kernel's 16 MB. *)
Definition managed_above (h : mach) : Prop :=
  ∃ pa, PAGE_ALLOCATOR h = Some pa ∧ PageAllocator_wf pa ∧ kernel_start ≤ start_addr pa.
(** Every page that is handed out can be reached by the kernel. *)
Definition in_window (h : mach) : Prop :=
  managed_above h ∧ ∀ b, is_alloc h b → kernel_va b = true.
(** The number of free pages the kernel can reach. *)
Definition low_page (pa : PageAllocator) (i : Z) : bool :=
  kernel_va (page_addr pa i) && negb (page_bit (bitmap pa) i).
Definition low_free (h : mach) : Z :=
  match PAGE_ALLOCATOR h with
  | None => 0
  | Some pa => countb (low_page pa) (seqZ 0 (total_pages pa))
  end.

Section window.
Implicit Types (h : mach) (pa : PageAllocator) (new : list Z).

Lemma kernel_va_above a : kernel_start ≤ a → kernel_va a = (a <? kernel_start + kernel_size).
Proof.
  intros Ha. unfold kernel_va, plic_va, kernel_start, kernel_size, UART_PAGE, PAGE_SIZE in *. lia.
Qed.
Lemma low_free_nonneg h : 0 ≤ low_free h.
Proof. unfold low_free. destruct (PAGE_ALLOCATOR h); [apply countb_nonneg|done]. Qed.

(** [new] was taken between [h] and [h'] (and perhaps given back again). *)
Record drew h h' new : Prop := {
  drew_above : managed_above h';
  drew_taken : taken h' = new ++ taken h;
  drew_alloc b : is_alloc h' b → is_alloc h b ∨ b ∈ new;
  drew_low : low_free h - Z.of_nat (length new) ≤ low_free h';
  drew_high a : a ∈ new → kernel_va a = false → low_free h < Z.of_nat (length new);
}.
Definition drawn h h' : Prop := managed_above h → ∃ new, drew h h' new.

Lemma drew_trans h1 h2 h3 n1 n2 : drew h1 h2 n1 → drew h2 h3 n2 → drew h1 h3 (n2 ++ n1).
Proof.
  intros [_ Ht1 Ha1 Hl1 Hh1] [Hm Ht2 Ha2 Hl2 Hh2]. split; rewrite ?length_app.
  - done.
  - by rewrite Ht2, Ht1, (assoc_L (++)).
  - intros b [Hb|?]%Ha2; [apply Ha1 in Hb as [?|?]|]; set_solver.
  - lia.
  - intros a [Ha|Ha]%elem_of_app Hk; [specialize (Hh2 a Ha Hk)|specialize (Hh1 a Ha Hk)]; lia.
Qed.
Lemma drew_nothing h h' :
  managed_above h → PAGE_ALLOCATOR h' = PAGE_ALLOCATOR h → taken h' = taken h → drew h h' [].
Proof.
  intros Hm Hp Ht. split.
  - unfold managed_above. by rewrite Hp.
  - done.
  - intros b Hb. left. unfold is_alloc in *. by rewrite Hp in Hb.
  - unfold low_free. rewrite Hp. cbn. lia.
  - by intros a ?%elem_of_nil.
Qed.
#[export] Instance drawn_kept : Kept drawn.
Proof.
  split.
  - intros h1 h2 h3 H12 H23 Hm. destruct (H12 Hm) as [n1 H1]. destruct (H23 (drew_above _ _ _ H1)) as [n2 H2].
    eexists. by eapply drew_trans.
  - intros h h' Hp Ht _ Hm. exists []. by apply drew_nothing.
Qed.

(** Taking a page. *)
Lemma take_low pa pa' i :
  takes pa pa' i → kernel_va (page_addr pa i) = true →
  countb (low_page pa) (seqZ 0 (total_pages pa)) = countb (low_page pa') (seqZ 0 (total_pages pa')) + 1.
Proof.
  intros (Hi & Hb & Hbits & Ht & Hs & _) Hk. rewrite Ht. unfold low_page, page_addr in *. rewrite Hs.
  apply (countb_flip _ _ _ i).
  - apply NoDup_seqZ.
  - rewrite elem_of_seqZ. lia.
  - rewrite Hbits by lia. rewrite decide_True by done. apply andb_false_r.
  - by rewrite Hk, Hb.
  - intros j Hj Hne. rewrite elem_of_seqZ in Hj. rewrite Hbits by lia. by rewrite decide_False.
Qed.
Lemma take_high pa pa' i :
  kernel_start ≤ start_addr pa → takes pa pa' i → (∀ j, 0 ≤ j < i → page_bit (bitmap pa) j = true) →
  kernel_va (page_addr pa i) = false → countb (low_page pa) (seqZ 0 (total_pages pa)) = 0.
Proof.
  intros Hstart (Hi & _) Hbelow Hk. apply countb_zero. intros j Hj%elem_of_seqZ. unfold low_page.
  destruct (Z.lt_ge_cases j i); [rewrite Hbelow by lia; apply andb_false_r|].
  assert (kernel_va (page_addr pa j) = false) as ->; [|done].
  unfold page_addr, PAGE_SIZE in *. rewrite kernel_va_above in * by lia.
  apply Z.ltb_ge in Hk. apply Z.ltb_ge. lia.
Qed.
Lemma drew_one h pa pa' i :
  PAGE_ALLOCATOR h = Some pa → kernel_start ≤ start_addr pa → PageAllocator_wf pa' → takes pa pa' i →
  (∀ j, 0 ≤ j < i → page_bit (bitmap pa) j = true) →
  drew h (hand_out pa' (Some (page_addr pa i)) h) [page_addr pa i].
Proof.
  intros E Hstart Hwf' Htk Hbelow. pose proof Htk as (Hi & Hb & Hbits & Ht & Hs & _). split.
  - exists pa'. by rewrite Hs.
  - done.
  - intros b (p & [= <-] & j & Hj & -> & Hbj). rewrite Ht in Hj. rewrite Hbits in Hbj by lia.
    unfold page_addr in *. rewrite Hs. case_decide as Hd; [subst j; right; set_solver|left].
    by exists pa; split; [|exists j].
  - unfold low_free. cbn [PAGE_ALLOCATOR hand_out length]. rewrite E.
    destruct (kernel_va (page_addr pa i)) eqn:Hk; [rewrite (take_low pa pa' i) by done; lia|].
    rewrite (take_high pa pa' i) by done.
    pose proof (countb_nonneg (low_page pa') (seqZ 0 (total_pages pa'))). lia.
  - intros a ->%list_elem_of_singleton Hk. unfold low_free. rewrite E, (take_high pa pa' i) by done. cbn. lia.
Qed.
#[export] Instance drawn_alloc : KeptAlloc drawn.
Proof.
  intros h r h' E (pa & Hp & Hwf & Hstart). unfold mach_of, mach_mach in *. unfold page_alloc in E. rewrite Hp in E.
  pose proof (PageAllocator_alloc_wp pa Hwf) as H. unfold wp in H.
  destruct (PageAllocator_alloc pa) as [[[a|] pa']| |]; [| |done..]; injection E as <- <-; destruct H as [Hwf' H].
  - destruct H as (i & -> & Htk & Hbelow). eexists. by apply drew_one.
  - destruct H as [-> _]. exists []. apply drew_nothing; [by exists pa|by rewrite Hp|done].
Qed.

(** Giving a page back. *)
Lemma free_any pa a :
  PageAllocator_wf pa →
  wp (PageAllocator_free a) (λ _ pa', PageAllocator_wf pa' ∧ (pa' = pa ∨ ∃ i, gives pa pa' i)) pa.
Proof.
  intros Hwf. destruct (decide (is_u64 a)) as [Ha|Ha].
  - eapply wp_mono; [by apply PageAllocator_free_wp|]. intros _ pa' [Hwf' H]. split; [done|].
    case_decide; [right; by eexists|by left].
  - unfold wp, PageAllocator_free. destruct Hwf as [? ? Htot [Hs ?] Hr ?] eqn:E.
    assert ((a <? start_addr pa) || (start_addr pa +' total_pages pa *' PAGE_SIZE <=? a) = true) as ->; [|by split; [|left]].
    unfold is_u64, u64, MAX_PAGES, BITMAP_SIZE, PAGE_SIZE in *.
    rewrite (Z.mod_small (total_pages pa * 4096)), Z.mod_small by lia. lia.
Qed.
Lemma countb_mono {A} (f g : A → bool) (l : list A) :
  (∀ x, x ∈ l → f x = true → g x = true) → countb f l ≤ countb g l.
Proof.
  induction l as [|x l IH]; intros H; simpl; [done|]. pose proof (IH ltac:(intros; apply H; [by right|done])).
  specialize (H x ltac:(by left)). destruct (f x); [rewrite H by done; lia|destruct (g x); lia].
Qed.
#[export] Instance drawn_free : KeptFree drawn.
Proof.
  intros a h r h' E (pa & Hp & Hwf & Hstart). unfold mach_of, mach_mach in *. unfold page_free in E. rewrite Hp in E.
  pose proof (free_any pa a Hwf) as H. unfold wp in H.
  destruct (PageAllocator_free a pa) as [[[] pa']| |]; [|done..]. injection E as _ <-. exists [].
  destruct H as [Hwf' [->|(i & Hbits & Ht & Hs & _)]].
  { apply drew_nothing; [by exists pa|by rewrite Hp|done]. }
  split.
  - exists pa'. by rewrite Hs.
  - done.
  - intros b (p & [= <-] & j & Hj & -> & Hbj). left. exists pa. split; [done|]. exists j. rewrite Ht in Hj.
    unfold page_addr in *. rewrite Hs. split; [done|]. split; [done|]. rewrite Hbits in Hbj by lia. by case_decide.
  - unfold low_free. cbn [PAGE_ALLOCATOR set_pages length]. rewrite Hp, Ht.
    assert (countb (low_page pa) (seqZ 0 (total_pages pa)) ≤ countb (low_page pa') (seqZ 0 (total_pages pa))) as H; [|lia].
    apply countb_mono. intros j Hj%elem_of_seqZ. unfold low_page, page_addr. rewrite Hs, Hbits by lia.
    case_decide; [by rewrite andb_true_r; intros [? _]%andb_true_iff|done].
  - by intros b ?%elem_of_nil.
Qed.
End window.

(** ** More relations *)

Definition same_root (h h' : mach) : Prop := KERNEL_PAGETABLE h' = KERNEL_PAGETABLE h.
Definition same_taken (h h' : mach) : Prop := taken h' = taken h.
(** Pages were taken and none was given back: the free pages are fewer by what was taken. *)
Definition spent (h h' : mach) : Prop :=
  managed_above h → managed_above h' ∧
  ∃ new, taken h' = new ++ taken h ∧ free_count h' + Z.of_nat (length new) = free_count h.

#[export] Instance same_root_kept : Kept same_root.
Proof. split; [unfold same_root; congruence|done]. Qed.
#[export] Instance same_root_alloc : KeptAlloc same_root.
Proof.
  intros h r h'. unfold page_alloc. destruct (PAGE_ALLOCATOR h) as [pa|]; [|by intros [= _ <-]].
  destruct (PageAllocator_alloc pa) as [[p pa']| |]; [by intros [= _ <-]|done..].
Qed.
Lemma page_free_fields a h r h' :
  page_free a h = Done (r, h') → taken h' = taken h ∧ KERNEL_PAGETABLE h' = KERNEL_PAGETABLE h.
Proof.
  unfold page_free. destruct (PAGE_ALLOCATOR h) as [pa|]; [|by intros [= _ <-]].
  destruct (PageAllocator_free _ _) as [[[] pa']| |]; [by intros [= _ <-]|done..].
Qed.
#[export] Instance same_root_free : KeptFree same_root.
Proof. intros a h r h' E. by apply page_free_fields in E as [_ ?]. Qed.
#[export] Instance same_taken_kept : Kept same_taken.
Proof. split; [unfold same_taken; congruence|done]. Qed.
#[export] Instance same_taken_free : KeptFree same_taken.
Proof. intros a h r h' E. by apply page_free_fields in E as [? _]. Qed.
#[export] Instance spent_kept : Kept spent.
Proof.
  split.
  - intros h1 h2 h3 H12 H23 Hm. destruct (H12 Hm) as (Hm2 & n1 & E1 & F1). destruct (H23 Hm2) as (Hm3 & n2 & E2 & F2).
    split; [done|]. exists (n2 ++ n1). rewrite E2, E1, (assoc_L (++)), length_app. split; [done|lia].
  - intros h h' Hp Ht _ Hm. unfold managed_above, free_count in *. rewrite Hp. split; [done|]. exists [].
    split; [done|]. cbn. lia.
Qed.
#[export] Instance spent_alloc : KeptAlloc spent.
Proof.
  intros h r h' E Hm. destruct (drawn_alloc h r h' E Hm) as [_ [Hm' _ _ _ _]]. split; [done|].
  destruct Hm as (pa & Hp & Hwf & _). unfold mach_of, mach_mach in *. unfold page_alloc in E. rewrite Hp in E.
  unfold free_count. rewrite Hp. pose proof (PageAllocator_alloc_wp pa Hwf) as H. unfold wp in H.
  destruct (PageAllocator_alloc pa) as [[[a|] pa']| |]; [| |done..]; injection E as <- <-; destruct H as [_ H].
  - destruct H as (i & -> & (_ & _ & _ & _ & _ & Hf) & _). exists [page_addr pa i]. cbn. split; [done|lia].
  - destruct H as [-> _]. exists []. cbn. split; [done|lia].
Qed.

(** The pages the allocator manages begin where they began. *)
Definition same_start (h h' : mach) : Prop :=
  start_addr <$> PAGE_ALLOCATOR h' = start_addr <$> PAGE_ALLOCATOR h.
#[export] Instance same_start_kept : Kept same_start.
Proof. split; unfold same_start; congruence. Qed.
Lemma alloc_scan_start idxs pa r pa' : alloc_scan idxs pa = Done (r, pa') → start_addr pa' = start_addr pa.
Proof.
  revert r pa'. induction idxs as [|i idxs IH]; intros r pa'; [by intros [= _ <-]|]. cbn [alloc_scan].
  destruct (_ !! _); [|done]. case_match; [by intros [= _ <-]|apply IH].
Qed.
#[export] Instance same_start_alloc : KeptAlloc same_start.
Proof.
  intros h r h'. unfold page_alloc, same_start, mach_of, mach_mach.
  destruct (PAGE_ALLOCATOR h) as [pa|] eqn:Hp; [|by intros [= _ <-]; rewrite Hp].
  destruct (PageAllocator_alloc pa) as [[p pa']| |] eqn:E; [|done..]. intros [= _ <-]. cbn. f_equal.
  revert E. unfold PageAllocator_alloc. case_match; [by intros [= _ <-]|apply alloc_scan_start].
Qed.
#[export] Instance same_start_free : KeptFree same_start.
Proof.
  intros a h r h'. unfold page_free, same_start, mach_of, mach_mach.
  destruct (PAGE_ALLOCATOR h) as [pa|] eqn:Hp; [|by intros [= _ <-]; rewrite Hp].
  destruct (PageAllocator_free a pa) as [[[] pa']| |] eqn:E; [|done..]. intros [= _ <-]. cbn. f_equal.
  revert E. unfold PageAllocator_free. repeat case_match; intros [= <-]; done.
Qed.

(** ** Running on the kernel's page table *)

Section paging.
Context {A : Type}.
Implicit Types (m : K A) (k : kernel).

Lemma fresh_pages_new k k' new : taken (machine k') = new ++ taken (machine k) → fresh_pages k k' = new.
Proof. intros E. unfold fresh_pages. rewrite E, length_app. apply take_app_length'. lia. Qed.
Lemma in_window_drew h h' new :
  in_window h → drew h h' new → (∀ a, a ∈ new → kernel_va a = true) → in_window h'.
Proof. intros [_ Hw] [Hm _ Ha _ _] Hn. split; [done|]. intros b [?|?]%Ha; auto. Qed.
Lemma forallb_exists_false (f : Z → bool) l : forallb f l = false → ∃ x, x ∈ l ∧ f x = false.
Proof.
  induction l as [|x l IH]; [done|]. cbn [forallb]. destruct (f x) eqn:Hx.
  - cbn. intros (y & Hy & ?)%IH. exists y. split; [by right|done].
  - intros _. exists x. split; [by left|done].
Qed.
(** What takes nothing cannot fail for want of reach. *)
Lemma paged_quiet m k : keeps same_taken m → paged m k = m k.
Proof.
  intros Hm. unfold paged. destruct (m k) as [[a k']| |] eqn:E; [|done..].
  by rewrite (fresh_pages_new k k' []) by apply (Hm k a k' E).
Qed.
Lemma keeps_paged (R : mach → mach → Prop) m : keeps R m → keeps R (paged m).
Proof.
  intros Hm k a k'. unfold paged. destruct (m k) as [[b k1]| |] eqn:E; [|done..]. case_match; [|done].
  intros [= <- <-]. by apply (Hm k b).
Qed.
(** The two outcomes of a run that returns on flat memory: the same, or a fault, after more pages
    were taken than the kernel could reach. *)
Lemma paged_cases m k a k' :
  keeps drawn m → managed_above (machine k) → m k = Done (a, k') →
  (paged m k = Done (a, k') ∧ (in_window (machine k) → in_window (machine k'))) ∨
  paged m k = Panic ∧ low_free (machine k) < Z.of_nat (length (fresh_pages k k')).
Proof.
  intros Hm Hab E. destruct (Hm k a k' E Hab) as [new Hd]. unfold paged. rewrite E.
  rewrite (fresh_pages_new k k' new) by apply Hd.
  destruct (forallb kernel_va new) eqn:Hall.
  - left. split; [done|]. intros Hw. apply (in_window_drew _ _ new Hw Hd). intros b Hb.
    rewrite forallb_forall in Hall. by apply Hall, list_elem_of_In.
  - right. split; [done|]. apply forallb_exists_false in Hall as (b & Hb & Hk). by apply (drew_high _ _ _ Hd b).
Qed.
End paging.
