(* ===== verification/Handler.v ===== *)
(** All system calls: the handler's remaining branches (those of [Traps] are the calls
    without a user buffer or a change of the address space), and the whole of
    [trap_handler].  What the kernel takes on trust from the caller is [call_ok]. *)

From S2P Require Import Prelude Arch Page Memory Machine Pgtable Vm Trap Ipc Task Space Sched Inv IpcFacts ProcFacts Create Build Buffers BufferCalls Fork Heap Demo Initrd Exec Load ExecFacts Kernel Traps Programs Steady Window.

(** A register of a trapped task. *)
Definition reg (s : tsys) (t : Task) (off : Z) : Z := load64 (mem (hw s)) (trap_frame t +' off).
(** The PID counter has not come round to a PID in use. *)
Definition fresh_pid (s : tsys) : Prop :=
  next_pid (self s) ≠ IDLE_PID ∧ task_index (tasks (self s)) (next_pid (self s)) = None.
(** Every file of the ramdisk is one the loader can trust. *)
Definition files_ok (f : initrd) : Prop := ∀ name, file_ok f name.

(** System call [c] of task [t], with its arguments as the kernel expects them: the buffers
    lie in user memory, lengths are words, and a new process can have a fresh PID. *)
Inductive call_ok (s : tsys) (t : Task) (c : Z) : Prop :=
  | CoreCall : core_call c = true → call_ok s t c
  | ForkCall : c = SYS_FORK → fresh_pid s → call_ok s t c
  | ExecCall : c = SYS_EXEC → call_ok s t c
  | SbrkCall : c = SYS_SBRK → call_ok s t c
  | CallBufCall : c = SYS_IPC_CALL_BUF → 0 ≤ reg s t off_a6 → call_ok s t c
  | RecvBufCall : c = SYS_IPC_RECV_BUF → 0 ≤ reg s t off_a2 →
      user_range (reg s t off_a1) (Z.min (reg s t off_a2) IPC_BUF_SIZE) → call_ok s t c
  | ReplyBufCall : c = SYS_IPC_REPLY_BUF →
      (∀ i c', reply_slot (self s) (u32 (reg s t off_a0)) i c' → state c' = Sleeping →
         user_range (reg s t off_a5) (reply_room (hw s) c' (reg s t off_a6)) ∧
         user_range (reply_addr (hw s) c') (reply_room (hw s) c' (reg s t off_a6))) → call_ok s t c
  | ShutdownCall : c = SYS_SHUTDOWN → call_ok s t c.

Section calls.
Context (f : initrd) (n kpt : Z).
Implicit Types (s : tsys) (t : Task).

(** The branches, from the state in which [sepc] already points behind the call. *)
Lemma handle_fork t s :
  kernel_ok s → in_user s t → KERNEL_PAGETABLE (hw s) = Some kpt → fresh_pid s →
  wp (r ← task_fork (trap_frame t);
      _ ← set_tf (trap_frame t) off_a0 (match r with Ok p => p | Err => usize_max end);
      mret (Resume (trap_frame t))) (resumed f n) (kern f n s).
Proof.
  intros Hk Hu Hr [Hp Hn]. apply wp_bind, wp_locked. eapply wp_mono; [by apply (fork_wp s t kpt)|].
  intros r s' (Hk' & Hu' & _). apply wp_answer; [done|done|]. intros. by apply resumed_intro.
Qed.
(** The caller goes on as [t'], whose frame is where it was. *)
Lemma wp_answer_as t t' v s :
  kernel_ok s → in_user s t' → trap_frame t' = trap_frame t →
  wp (_ ← set_tf (trap_frame t) off_a0 v; mret (Resume (trap_frame t))) (resumed f n) (kern f n s).
Proof. intros Hk Hu <-. apply wp_answer; [done|done|]. intros. by apply resumed_intro. Qed.
Lemma handle_sbrk t s a0 :
  kernel_ok s → in_user s t →
  wp (r ← task_sbrk (as_isize a0);
      _ ← set_tf (trap_frame t) off_a0 (match r with Ok v => v | Err => usize_max end);
      mret (Resume (trap_frame t))) (resumed f n) (kern f n s).
Proof.
  intros Hk Hu. apply wp_bind, wp_locked. eapply wp_mono; [by apply sbrk_wp|].
  intros [v|] s' [Hk' Hr].
  - destruct Hr as (_ & Hu' & _). by apply (wp_answer_as t (set_heap_end (heap_end t + as_isize a0) t)).
  - destruct Hr as (Hu' & _). by apply (wp_answer_as t t).
Qed.
Lemma read_name_wp idxs va acc s : wp (read_name idxs va acc) (λ _ k, k = kern f n s) (kern f n s).
Proof.
  revert acc. induction idxs as [|i idxs IH]; intros acc; [done|]. cbn [read_name].
  assert (mkTsys (self s) (hw s) = s) as Es by by destruct s.
  apply wp_otry_bind, wp_locked. unfold translate_user. apply wp_bind, wp_get_self.
  destruct (current (self s)) as [t|]; [|by apply wp_ret].
  apply wp_on_hw. unfold wp. rewrite virt_to_phys_read. destruct (translate _ _ _) as [pa|]; rewrite Es; [|done].
  fold (wp (byte ← on_machine (gets (λ h, load8 (mem h) pa)); read_name idxs va (acc ++ [byte])) (λ _ k, k = kern f n s) (kern f n s)).
  apply wp_bind, wp_on_machine, wp_gets. rewrite Es. apply IH.
Qed.
Lemma handle_exec t s a0 a1 :
  files_ok f → kernel_ok s → in_user s t →
  wp (r ← sys_exec a0 a1 (trap_frame t); _ ← set_tf (trap_frame t) off_a0 r; mret (Resume (trap_frame t)))
    (resumed f n) (kern f n s).
Proof.
  intros Hf Hk Hu. unfold sys_exec. apply wp_bind, wp_bind. eapply wp_mono; [apply read_name_wp|].
  intros [bytes|] k ->; [|by apply wp_ret, (wp_answer_as t t)].
  destruct (negb _); [by apply wp_ret, (wp_answer_as t t)|].
  apply wp_bind. eapply wp_mono; [by apply (exec_wp f n s t bytes)|].
  intros r k (s' & -> & Hk' & Hr). apply wp_ret. destruct r as [[]|].
  - destruct Hr as (data & img & _ & Hd). by apply (wp_answer_as t (exec_image img t)); [|apply Hd|].
  - destruct Hr as (Hu' & _). by apply (wp_answer_as t t).
Qed.
Lemma handle_call_buf t e s :
  kernel_ok s → in_user s t → 0 ≤ reg s t off_a6 →
  wp (ws ← message_words (trap_frame t);
      user_buf ← get_tf (trap_frame t) off_a5; buf_len ← get_tf (trap_frame t) off_a6;
      r ← kernel_ipc_call_buf e ws user_buf buf_len (trap_frame t); finish_ipc (trap_frame t) r) (resumed f n) (kern f n s).
Proof.
  intros Hk Hu Hlen. apply wp_bind, wp_message_words. intros ws. apply wp_bind, wp_get_tf, wp_bind, wp_get_tf, wp_bind, wp_locked.
  eapply wp_mono; [by apply ipc_call_buf_wp|]. intros [|fp|] s'; cbn beta iota.
  - intros [].
  - intros [Hsw _]. apply (finish_ipc_wp f n t); [apply Hsw|done].
  - intros (Hk' & Hu' & _). by apply (finish_ipc_wp f n t).
Qed.
Lemma handle_recv_buf t e ub cap s :
  kernel_ok s → in_user s t → 0 ≤ cap → user_range ub (Z.min cap IPC_BUF_SIZE) →
  wp (r ← kernel_ipc_recv_buf e ub cap (trap_frame t); finish_ipc (trap_frame t) r) (resumed f n) (kern f n s).
Proof.
  intros Hk Hu Hcap Hr. apply wp_bind, wp_locked.
  eapply wp_mono; [by apply ipc_recv_buf_wp|]. intros [|fp|] s'; cbn beta iota.
  - intros (Hk' & Hu' & _). by apply (finish_ipc_wp f n t).
  - intros [Hsw _]. apply (finish_ipc_wp f n t); [apply Hsw|done].
  - intros [-> _]. by apply (finish_ipc_wp f n t).
Qed.
Lemma handle_reply_buf t client s :
  kernel_ok s → in_user s t →
  (∀ i c, reply_slot (self s) client i c → state c = Sleeping →
     user_range (reg s t off_a5) (reply_room (hw s) c (reg s t off_a6)) ∧
     user_range (reply_addr (hw s) c) (reply_room (hw s) c (reg s t off_a6))) →
  wp (ws ← message_words (trap_frame t);
      user_buf ← get_tf (trap_frame t) off_a5; buf_len ← get_tf (trap_frame t) off_a6;
      r ← kernel_ipc_reply_buf client ws user_buf buf_len;
      _ ← set_tf (trap_frame t) off_a0 (status r); mret (Resume (trap_frame t))) (resumed f n) (kern f n s).
Proof.
  intros Hk Hu Hr. apply wp_bind, wp_message_words. intros ws. apply wp_bind, wp_get_tf, wp_bind, wp_get_tf, wp_bind, wp_locked.
  eapply wp_mono; [by apply ipc_reply_buf_wp|]. intros r s' (Hk' & Hu' & _). by apply (wp_answer_as t t).
Qed.

(** Moving [sepc] does not change what the calls look at. *)
Lemma call_ok_put s t c v :
  kernel_ok s → in_user s t → call_ok s t c → call_ok (put_tf (trap_frame t) off_sepc v s) t c.
Proof.
  intros Hk Hu Hc. set (s1 := put_tf _ _ _ _). pose proof Hu as (i & _ & Ht & _ & Hrun & _).
  pose proof (space_layout _ _ (spaces_task _ _ (k_spaces _ Hk) i t Ht)) as Hl.
  assert (∀ off, 0 ≤ off < FRAME_SIZE → off ≠ off_sepc → reg s1 t off = reg s t off) as Hreg.
  { intros off Ho Hne. unfold reg, s1, put_tf. cbn [hw mem set_mem].
    destruct (frame_field t off Hl Ho) as [-> _], (frame_field t off_sepc Hl ltac:(by vm_compute)) as [-> _].
    apply load64_store64_ne. lia. }
  assert (∀ j c', tasks (self s) !! j = Some (Some c') → state c' = Sleeping →
    frame_at (mem (hw s1)) (trap_frame c') = frame_at (mem (hw s)) (trap_frame c')) as Hfr.
  { intros j c' Hj Hs. apply (frame_at_stack_out _ _ c' t); [apply (spaces_task _ _ (k_spaces _ Hk) j c' Hj)|done| |].
    - apply (stacks_differ (hw s) (tasks (self s)) j i); [apply Hk|done|done|]. intros ->. congruence.
    - intros a Ha. by apply (field_store_out t). }
  destruct Hc as [?|? ?|?|?|E Hlen|E Hcap Hr|E Hr|?].
  - by apply CoreCall.
  - by apply ForkCall.
  - by apply ExecCall.
  - by apply SbrkCall.
  - apply CallBufCall; [done|]. by rewrite Hreg by by vm_compute.
  - apply RecvBufCall; [done|..]; by rewrite !Hreg by by vm_compute.
  - apply ReplyBufCall; [done|]. rewrite !Hreg by by vm_compute. intros j c' Hslot Hs.
    unfold reply_room, reply_addr. rewrite (Hfr j c' (proj1 Hslot) Hs). by apply (Hr j c').
  - by apply ShutdownCall.
Qed.

(** What the handler answers: the frame of the running task, or, to [shutdown], that the machine stops. *)
Definition handled (c : Z) (a : answer) (k : kernel) : Prop :=
  resumed f n a k ∨ c = SYS_SHUTDOWN ∧ a = Halted.
Lemma resumed_handled c m k : wp m (resumed f n) k → wp m (handled c) k.
Proof. intros H. eapply wp_mono; [exact H|]. intros a k' Hr. by left. Qed.
Lemma handle_call_wp t s :
  files_ok f → KERNEL_PAGETABLE (hw s) = Some kpt → kernel_ok s → in_user s t →
  call_ok s t (syscall_number (trap_frame t) s) →
  wp (handle (trap_frame t)) (handled (syscall_number (trap_frame t) s)) (kern f n s).
Proof.
  intros Hf Hroot Hk Hu Hc. destruct (core_call (syscall_number (trap_frame t) s)) eqn:Ecore.
  { eapply wp_mono; [by apply (handle_core_wp f n)|]. intros a k Hr. by left. }
  unfold handle. apply wp_bind, wp_get_tf. fold (syscall_number (trap_frame t) s) in *.
  revert Hc Ecore. generalize (syscall_number (trap_frame t) s). intros c Hc Ecore.
  apply wp_bind, wp_get_tf, wp_bind, wp_set_tf.
  match goal with |- wp _ _ (kern _ _ (put_tf _ _ ?v _)) =>
    destruct (put_tf_ok t off_sepc v s Hk Hu ltac:(by vm_compute)) as [Hk1 Hu1];
    pose proof (call_ok_put s t c v Hk Hu Hc) as Hc1; set (s1 := put_tf (trap_frame t) off_sepc v s) in * end.
  assert (KERNEL_PAGETABLE (hw s1) = Some kpt) as Hroot1 by exact Hroot. clear Hc Hroot.
  destruct Hc1 as [?|E Hfresh|E|E|E Hlen|E Hcap Hr|E Hr|E]; [congruence|subst c..];
    unfold SYS_EXIT, SYS_YIELD, SYS_GETPID, SYS_PS, SYS_FORK, SYS_EXEC, SYS_WAITPID, SYS_IPC_CALL, SYS_IPC_RECV,
      SYS_IPC_REPLY, SYS_IRQ_WAIT, SYS_SBRK, SYS_IPC_CALL_BUF, SYS_IPC_RECV_BUF, SYS_IPC_REPLY_BUF, SYS_SHUTDOWN;
    cbn [Z.eqb Pos.eqb].
  - by apply resumed_handled, handle_fork.
  - apply resumed_handled, wp_bind, wp_get_tf, wp_bind, wp_get_tf. by apply handle_exec.
  - apply resumed_handled, wp_bind, wp_get_tf. by apply handle_sbrk.
  - apply resumed_handled, wp_bind, wp_get_tf. by apply handle_call_buf.
  - apply resumed_handled. do 3 apply wp_bind, wp_get_tf. by apply handle_recv_buf.
  - apply resumed_handled, wp_bind, wp_get_tf. by apply handle_reply_buf.
  - apply wp_bind, wp_on_machine, wp_modify, wp_ret. by right.
Qed.
End calls.

(** ** The trap handler *)

(** The body of the handler, on physical memory. *)
Lemma answer_trap_done f n kpt s tf :
  kernel_ok s → KERNEL_PAGETABLE (hw s) = Some kpt → files_ok f →
  (trap_cause s = Timer ∨ trap_cause s = External ∨
   trap_cause s = UserEcall ∧ ∃ t, in_user s t ∧ tf = trap_frame t ∧ call_ok s t (syscall_number tf s)) →
  (∃ fp s' n', answer_trap tf (kern f n s) = Done (Resume fp, kern f n' s') ∧
    kernel_ok s' ∧ KERNEL_PAGETABLE (hw s') = Some kpt ∧
    current_is (self s') (λ t, state t = Running ∧ trap_frame t = fp) ∧
    (trap_cause s = Timer → n' = n +' TIMER_INTERVAL ∧
       sbi_calls (hw s') = (0, 0, n') :: sbi_calls (hw s)) ∧
    (trap_cause s = External → pending_irq s = UART0_IRQ →
       ∀ i t, tasks (self s') !! i = Some (Some t) → waits_uart (Some t) = false)) ∨
  trap_cause s = UserEcall ∧ syscall_number tf s = SYS_SHUTDOWN ∧
    ∃ k, answer_trap tf (kern f n s) = Done (Halted, k).
Proof.
  intros Hk Hroot Hf Hcause.
  assert (∀ a k, answer_trap tf (kern f n s) = Done (a, k) → KERNEL_PAGETABLE (machine k) = Some kpt) as Hkept.
  { intros a k E. rewrite <- Hroot. exact (keeps_answer_trap same_root tf _ _ _ E). }
  destruct Hcause as [Hc|[Hc|(Hc & t & Hu & -> & Hcall)]]; rewrite Hc.
  - pose proof (trap_timer_wp f tf n s Hk Hc) as H. apply wp_Done in H as (a & k & E & H & Hsbi). left.
    destruct H as (fp & s' & -> & -> & Hsw). exists fp, s', (n +' TIMER_INTERVAL).
    split; [done|]. split; [apply Hsw|]. split; [exact (Hkept _ _ E)|]. split; [by apply switched_running|]. done.
  - pose proof (trap_external_wp f tf n s Hk Hc) as H. apply wp_Done in H as (a & k & E & H & Hw). left.
    destruct H as (fp & s' & -> & -> & Hsw). exists fp, s', n.
    split; [done|]. split; [apply Hsw|]. split; [exact (Hkept _ _ E)|]. split; [by apply switched_running|]. split; [done|].
    intros _ Hirq i u. by apply (Hw Hirq (self s')).
  - pose proof (handle_call_wp f n kpt t s Hf Hroot Hk Hu Hcall) as H. rewrite (trap_ecall f n _ s Hc) in *.
    apply wp_Done in H as (a & k & E & [H|[Hs ->]]); [left|right; split; [done|]; split; [done|by exists k]].
    destruct H as (fp & s' & -> & -> & Hsw). exists fp, s', n.
    split; [done|]. split; [apply Hsw|]. split; [exact (Hkept _ _ E)|]. split; [by apply switched_running|]. done.
Qed.

(** The system calls that take pages. *)
Definition memory_call (c : Z) : bool := bool_decide (c ∈ [SYS_FORK; SYS_EXEC; SYS_SBRK]).
(** The call takes more pages than are left of those the kernel can reach. *)
Definition out_of_reach (tf : Z) (k : kernel) : Prop :=
  ∃ a k', answer_trap tf k = Done (a, k') ∧ low_free (machine k) < Z.of_nat (length (fresh_pages k k')).

(** Nothing else takes a page. *)
Lemma after_get_tf {B} tf off (m : Z → K B) k :
  (v ← get_tf tf off; m v) k = m (load64 (mem (machine k)) (tf +' off)) k.
Proof. by destruct k. Qed.
Lemma after_read_csr {B} c (m : Z → K B) k :
  (v ← on_machine (read_csr c); m v) k = m (default 0 (csrs (machine k) !! c)) k.
Proof. by destruct k. Qed.
Lemma handle_quiet tf k a k' :
  memory_call (load64 (mem (machine k)) (tf +' off_a7)) = false →
  handle tf k = Done (a, k') → same_taken (machine k) (machine k').
Proof.
  unfold handle. rewrite after_get_tf. generalize (load64 (mem (machine k)) (tf +' off_a7)). intros c Hc.
  apply bool_decide_eq_false in Hc. rewrite !not_elem_of_cons in Hc. destruct Hc as (H1 & H2 & H3 & _).
  apply Z.eqb_neq in H1, H2, H3. rewrite H1, H2, H3. clear H1 H2 H3.
  match goal with |- ?m _ = _ → _ => assert (keeps same_taken m) as Hm by steady end.
  intros E. exact (Hm _ _ _ E).
Qed.
Lemma answer_quiet f n s tf a k' :
  (trap_cause s = Timer ∨ trap_cause s = External ∨
   trap_cause s = UserEcall ∧ memory_call (syscall_number tf s) = false) →
  answer_trap tf (kern f n s) = Done (a, k') → same_taken (hw s) (machine k').
Proof.
  intros [Hc|[Hc|[Hc Hm]]].
  3: { rewrite (trap_ecall f n _ s Hc). by apply handle_quiet. }
  all: unfold answer_trap, read_scause; rewrite after_read_csr; fold (trap_cause s) in *;
    change (parse_cause _) with (trap_cause s); rewrite Hc;
    match goal with |- ?m _ = _ → _ => assert (keeps same_taken m) as Hk by steady end;
    intros E; exact (Hk _ _ _ E).
Qed.

(** On the kernel's page table the handler does what its body does on physical memory, unless a memory
    call runs out of reachable pages. *)
Lemma trap_handler_cases f n s tf a k' :
  (trap_cause s = Timer ∨ trap_cause s = External ∨ trap_cause s = UserEcall) →
  in_window (hw s) → answer_trap tf (kern f n s) = Done (a, k') →
  (trap_handler tf (kern f n s) = Done (a, k') ∧ in_window (machine k')) ∨
  trap_cause s = UserEcall ∧ memory_call (syscall_number tf s) = true ∧
    trap_handler tf (kern f n s) = Panic ∧ out_of_reach tf (kern f n s).
Proof.
  intros Hc Hw E. unfold trap_handler.
  destruct (paged_cases (answer_trap tf) (kern f n s) a k') as [[E' Hw']|[E' Hl]];
    [apply (keeps_answer_trap drawn)|apply Hw|exact E|left; split; [exact E'|by apply Hw']|].
  assert (¬ same_taken (hw s) (machine k')) as Hn.
  { intros Ht. rewrite (fresh_pages_new (kern f n s) k' []) in Hl by exact Ht.
    pose proof (low_free_nonneg (machine (kern f n s))). change (Z.of_nat (length [])) with 0 in Hl. lia. }
  destruct Hc as [Hc|[Hc|Hc]]; [destruct Hn; apply (answer_quiet f n s tf a); auto..|].
  destruct (memory_call (syscall_number tf s)) eqn:Hm; [|destruct Hn; apply (answer_quiet f n s tf a); auto].
  right. split; [done|]. split; [done|]. split; [exact E'|]. by exists a, k'.
Qed.
Lemma trap_handler_done f n kpt s tf :
  kernel_ok s → KERNEL_PAGETABLE (hw s) = Some kpt → files_ok f → in_window (hw s) →
  (trap_cause s = Timer ∨ trap_cause s = External ∨
   trap_cause s = UserEcall ∧ ∃ t, in_user s t ∧ tf = trap_frame t ∧ call_ok s t (syscall_number tf s)) →
  (∃ fp s' n', trap_handler tf (kern f n s) = Done (Resume fp, kern f n' s') ∧
    kernel_ok s' ∧ KERNEL_PAGETABLE (hw s') = Some kpt ∧ in_window (hw s') ∧
    current_is (self s') (λ t, state t = Running ∧ trap_frame t = fp) ∧
    (trap_cause s = Timer → n' = n +' TIMER_INTERVAL ∧
       sbi_calls (hw s') = (0, 0, n') :: sbi_calls (hw s)) ∧
    (trap_cause s = External → pending_irq s = UART0_IRQ →
       ∀ i t, tasks (self s') !! i = Some (Some t) → waits_uart (Some t) = false)) ∨
  (trap_cause s = UserEcall ∧ syscall_number tf s = SYS_SHUTDOWN ∧
    ∃ k, trap_handler tf (kern f n s) = Done (Halted, k)) ∨
  trap_cause s = UserEcall ∧ memory_call (syscall_number tf s) = true ∧
    trap_handler tf (kern f n s) = Panic ∧ out_of_reach tf (kern f n s).
Proof.
  intros Hk Hroot Hf Hw Hcause.
  assert (trap_cause s = Timer ∨ trap_cause s = External ∨ trap_cause s = UserEcall) as Hc by tauto.
  destruct (answer_trap_done f n kpt s tf Hk Hroot Hf Hcause) as [(fp & s' & n' & E & Hok & Hr & H)|(He & Hs & k & E)].
  - destruct (trap_handler_cases f n s tf _ _ Hc Hw E) as [[E' Hw']|?]; [left|by right; right].
    by exists fp, s', n'.
  - destruct (trap_handler_cases f n s tf _ _ Hc Hw E) as [[E' _]|?]; [right; left|by right; right].
    split; [done|]. split; [done|]. by exists k.
Qed.

(** The demo kernel lies within the kernel's reach. *)
Lemma demo_boot_window : in_window demo_boot ∧ low_free demo_boot = 4080.
Proof.
  split; [|by vm_compute]. split.
  - exists (page_init 0x80210000). split; [done|]. split; [|by vm_compute].
    apply PageAllocator_new_wf; vm_compute; intuition congruence.
  - intros b (pa & [= <-] & i & Hi & -> & Hb). exfalso. revert Hb. unfold page_bit.
    change (bitmap (page_init 0x80210000)) with (replicate 64 0). destruct (replicate 64 0 !! _) as [w|] eqn:E.
    + apply lookup_replicate in E as [-> _]. cbn. by rewrite Z.bits_0.
    + cbn. by rewrite Z.bits_0.
Qed.
Lemma keeps_demo_run (R : mach → mach → Prop) `{!Kept R} `{!KeptAlloc R} : keeps R demo_run.
Proof.
  unfold demo_run. apply keeps_then_expect; [exact _| |intros ?; steady]. unfold demo_setup.
  apply keeps_ok_try_bind; [exact _|by apply keeps_ok_create_idle|intros _].
  assert (∀ en, keeps_ok R (demo_user en)) as Hu.
  { intros en. unfold demo_user. apply keeps_ok_try_bind; [exact _|apply keeps_keeps_ok; steady|].
    intros [pt us]. by apply keeps_ok_create_user_image. }
  do 2 (apply keeps_ok_try_bind; [exact _|apply Hu|intros ?]). apply keeps_keeps_ok. steady.
Qed.
Lemma demo_window start s t :
  hw start = set_kernel_pagetable (Some demo_root) demo → demo_run start = Done (tt, s) → demo_state s t → in_window (hw s).
Proof.
  intros Hstart E Hd.
  destruct demo_boot_window as [Hw Hl]. destruct demo_facts as (E0 & _ & _ & _).
  assert (∀ (R : mach → mach → Prop) `{!Kept R} `{!KeptAlloc R},
    (∀ h, R h (set_kernel_pagetable (Some demo_root) h)) → R demo_boot (hw s)) as Hkeeps.
  { intros R ?? Hset. assert (keeps R pgtable_create) as Hc by steady.
    eapply kept_trans; [exact (Hc _ _ _ E0)|]. eapply kept_trans; [apply Hset|]. unfold mach_of, mach_mach.
    rewrite <- Hstart. exact (keeps_demo_run R _ _ _ E). }
  destruct (Hkeeps drawn _ _) as [new Hnew]; [intros h Hh; exists []; by apply drew_nothing|apply Hw|].
  destruct (Hkeeps spent _ _) as (_ & new' & Ht & Hf); [|apply Hw|].
  { intros h Hh. split; [exact Hh|]. exists []. split; [done|]. unfold free_count. cbn. lia. }
  assert (new' = new) as -> by (apply (app_inv_tail (taken demo_boot)); rewrite <- Ht; apply Hnew).
  apply (in_window_drew demo_boot _ new); [exact Hw|exact Hnew|]. intros a Ha.
  destruct (kernel_va a) eqn:Hk; [done|exfalso]. pose proof (drew_high _ _ _ Hnew a Ha Hk) as H.
  assert (free_count demo_boot = 4096) as E1 by by vm_compute. pose proof (ds_free _ _ Hd). lia.
Qed.
Lemma demo_kernel_window : ∃ s t, demo_state s t ∧ in_window (hw s).
Proof.
  destruct demo_kernel_run as (s & t & H). exists s, t.
  exact (conj (proj2 H) (demo_window demo_start s t eq_refl (proj1 H) (proj2 H))).
Qed.

(** [C28] The kernel survives traps.  From a state with the kernel invariant and its page table
    built, in which the kernel can reach every page that is handed out, a timer interrupt, an external
    interrupt, and every system call the running task can make as [call_ok] describes are handled on
    the kernel's own page table without a panic: the handler returns the saved frame of the task that
    is then current and running, the invariant holds again and the pages handed out are again within the
    kernel's reach; only [shutdown] stops the machine.  The one exception: a [fork], [exec] or [sbrk]
    call that takes more pages than are free below the end of the kernel's map faults on the first
    page beyond it, and the kernel panics.  A timer interrupt rearms the timer one interval later;
    after a UART interrupt no task waits for the UART any more. *)
Theorem trap_handler_correct f n kpt s tf :
  kernel_ok s → KERNEL_PAGETABLE (hw s) = Some kpt → files_ok f → in_window (hw s) →
  (trap_cause s = Timer ∨ trap_cause s = External ∨
   trap_cause s = UserEcall ∧ ∃ t, in_user s t ∧ tf = trap_frame t ∧ call_ok s t (syscall_number tf s)) →
  (∃ fp s' n', trap_handler tf (kern f n s) = Done (Resume fp, kern f n' s') ∧
    kernel_ok s' ∧ KERNEL_PAGETABLE (hw s') = Some kpt ∧ in_window (hw s') ∧
    current_is (self s') (λ t, state t = Running ∧ trap_frame t = fp) ∧
    (trap_cause s = Timer → n' = n +' TIMER_INTERVAL ∧
       sbi_calls (hw s') = (0, 0, n') :: sbi_calls (hw s)) ∧
    (trap_cause s = External → pending_irq s = UART0_IRQ →
       ∀ i t, tasks (self s') !! i = Some (Some t) → waits_uart (Some t) = false)) ∨
  (trap_cause s = UserEcall ∧ syscall_number tf s = SYS_SHUTDOWN ∧
    ∃ k, trap_handler tf (kern f n s) = Done (Halted, k)) ∨
  trap_cause s = UserEcall ∧ memory_call (syscall_number tf s) = true ∧
    trap_handler tf (kern f n s) = Panic ∧ out_of_reach tf (kern f n s).
Proof. apply trap_handler_done. Qed.
(** A timer interrupt on the demo kernel. *)
Lemma trap_handler_correct_witness :
  ∃ f n s tf fp s' n', trap_handler tf (kern f n s) = Done (Resume fp, kern f n' s') ∧
    kernel_ok s' ∧ in_window (hw s') ∧ current_is (self s') (λ t, state t = Running ∧ trap_frame t = fp).
Proof.
  destruct demo_kernel_window as (s & t & [Hk _ _ Hroot _ _ _ _ _ _ _ _] & Hw).
  set (h := mkMach (mem (hw s)) (PAGE_ALLOCATOR (hw s)) (KERNEL_PAGETABLE (hw s)) (plic (hw s))
              {[SCAUSE := 2 ^ 63 + 5]} (sbi_calls (hw s)) (taken (hw s))).
  exists initrd_empty, 0, (mkTsys (self s) h), 0.
  assert (kernel_ok (mkTsys (self s) h)) as Hk'
    by exact (kernel_ok_hw s h Hk (eq_refl (mem (hw s))) (eq_refl (PAGE_ALLOCATOR (hw s)))).
  assert (trap_cause (mkTsys (self s) h) = Timer) as Hc by reflexivity.
  assert (files_ok initrd_empty) as Hf by (intros name data; discriminate).
  destruct (trap_handler_correct initrd_empty 0 demo_root (mkTsys (self s) h) 0 Hk' Hroot Hf Hw (or_introl Hc))
    as [(fp & s' & n' & E & Hok & _ & Hw' & Hcur & _)|[(E & _)|(E & _)]].
  - exists fp, s', n'. exact (conj E (conj Hok (conj Hw' Hcur))).
  - exfalso. rewrite Hc in E. discriminate.
  - exfalso. rewrite Hc in E. discriminate.
Defined.

(** ** What stops the kernel *)

(** The causes in the RISC-V numbering, an interrupt having bit 63 set: the handler knows supervisor timer
    (5) and external (9) interrupts and the environment call from user mode (8), for which there are
    sixteen numbers.  It looks at the low 31 bits of the code only. *)
Definition live_calls : list Z := [2; 4; 5; 6; 7; 8; 9; 10; 11; 12; 13; 14; 15; 16; 17; 18].
Definition fatal_trap (scause number : Z) : bool :=
  let code := scause mod 2 ^ 31 in
  if scause <? 2 ^ 63 then negb ((code =? 8) && bool_decide (number ∈ live_calls))
  else negb ((code =? 5) || (code =? 9)).

Lemma parse_cause_numbers scause number :
  is_u64 scause →
  fatal_trap scause number =
  match parse_cause scause with
  | UserEcall => negb (known_call number)
  | Timer | External => false
  | _ => true
  end.
Proof.
  intros [H0 H1]. unfold fatal_trap, parse_cause. change 0x7FFFFFFF with (Z.ones 31).
  rewrite Z.land_ones, Z.shiftr_div_pow2 by lia. change (known_call number) with (bool_decide (number ∈ live_calls)).
  generalize (scause mod 2 ^ 31). intros code.
  destruct (Z.ltb_spec scause (2 ^ 63)) as [Hlt|Hge].
  - rewrite Z.div_small by lia. cbn [negb Z.eqb]. destruct (code =? 8); [done|].
    destruct (code =? 12); [done|]. destruct (code =? 13); [done|]. by destruct (code =? 15).
  - assert (scause / 2 ^ 63 ≠ 0) as Hd.
    { pose proof (Z.div_le_mono (2 ^ 63) scause (2 ^ 63) ltac:(lia) Hge) as H. rewrite Z.div_same in H by lia. lia. }
    apply Z.eqb_neq in Hd. rewrite Hd. cbn [negb]. destruct (code =? 5); [done|]. by destruct (code =? 9).
Qed.

Lemma fatal_answer tf k scause :
  csrs (machine k) !! SCAUSE = Some scause → is_u64 scause →
  fatal_trap scause (load64 (mem (machine k)) (tf +' off_a7)) = true → answer_trap tf k = Panic.
Proof.
  intros Hs Hu Hf. apply answer_trap_fatal. rewrite Hs. cbn [default from_option id]. revert Hf.
  rewrite parse_cause_numbers by exact Hu. generalize (known_call (load64 (mem (machine k)) (tf +' off_a7))). intros b.
  destruct (parse_cause scause); try done. by intros ?%negb_true_iff.
Qed.

(** [C29] What stops the whole kernel, in the architecture's numbers.  On any exception but the environment
    call from user mode (page faults, 12, 13 and 15, among them), on any interrupt but the timer's and the
    external one, and on a system call number outside the list of live calls (1 and 3, the old read
    and write, are outside), the handler panics, whatever the state: the faulting task is not
    killed, the machine stops.  Conversely, in a consistent kernel a panic on a trap of the running task
    has one of these reasons, or else the trap is a fork (6), exec (8) or sbrk (14) call that
    takes more pages than are left within the kernel's reach; as [call_ok] says, the arguments of a live
    call are those the kernel trusts. *)
Theorem trap_handler_fatal f n kpt s t scause :
  csrs (hw s) !! SCAUSE = Some scause → is_u64 scause →
  let number := load64 (mem (hw s)) (trap_frame t +' off_a7) in
  (fatal_trap scause number = true → trap_handler (trap_frame t) (kern f n s) = Panic) ∧
  (kernel_ok s → KERNEL_PAGETABLE (hw s) = Some kpt → files_ok f → in_window (hw s) → in_user s t →
   (fatal_trap scause number = false → scause < 2 ^ 63 → call_ok s t number) →
   trap_handler (trap_frame t) (kern f n s) = Panic →
   fatal_trap scause number = true ∨
   scause < 2 ^ 63 ∧ scause mod 2 ^ 31 = 8 ∧ number ∈ [6; 8; 14] ∧ out_of_reach (trap_frame t) (kern f n s)).
Proof.
  intros Hs Hu number. pose proof (parse_cause_numbers scause number Hu) as Hnum.
  assert (trap_cause s = parse_cause scause) as Hc by (unfold trap_cause; by rewrite Hs).
  split.
  - intros Hfatal. unfold trap_handler, paged. rewrite (fatal_answer (trap_frame t) (kern f n s) scause Hs Hu Hfatal).
    reflexivity.
  - intros Hk Hroot Hf Hw Ht Hcall Hpanic. destruct (fatal_trap scause number) eqn:Hfatal; [by left|right].
    assert (trap_cause s = UserEcall → scause < 2 ^ 63 ∧ scause mod 2 ^ 31 = 8) as Hcode.
    { rewrite Hc. unfold parse_cause, fatal_trap in *. change 0x7FFFFFFF with (Z.ones 31).
      rewrite Z.land_ones, Z.shiftr_div_pow2 by lia. destruct (Z.ltb_spec scause (2 ^ 63)) as [Hlt|Hge].
      - intros _. split; [done|]. destruct (Z.eqb_spec (scause mod 2 ^ 31) 8); [done|discriminate Hfatal].
      - destruct Hu as [_ Hu]. intros H. exfalso. revert H.
        pose proof (Z.div_le_mono (2 ^ 63) scause (2 ^ 63) ltac:(lia) Hge) as H. rewrite Z.div_same in H by lia.
        destruct (Z.eqb_spec (scause / 2 ^ 63) 0); [lia|]. cbn [negb].
        repeat match goal with |- context [if ?b then _ else _] => destruct b end; discriminate. }
    destruct (trap_handler_done f n kpt s (trap_frame t) Hk Hroot Hf Hw) as [(fp & s' & n' & E & _)|[(_ & _ & k & E)|(He & Hm & _ & Ho)]].
    + rewrite Hc in *. destruct (parse_cause scause) eqn:Ep; try (by rewrite Hnum in Hfatal); [right; right|by left|by right; left].
      split; [done|]. exists t. split; [done|]. split; [done|]. apply Hcall; [done|]. by apply Hcode.
    + rewrite Hpanic in E. discriminate.
    + rewrite Hpanic in E. discriminate.
    + destruct (Hcode He) as [H1 H2]. split; [done|]. split; [done|]. split; [|done]. by apply bool_decide_eq_true in Hm.
Qed.
(** A load page fault, scause 13. *)
Lemma trap_handler_fatal_witness :
  ∃ s t, csrs (hw s) !! SCAUSE = Some 13 ∧ trap_handler (trap_frame t) (kern initrd_empty 0 s) = Panic.
Proof.
  destruct demo_kernel_state as (s & t & _).
  set (s' := mkTsys (self s) (set_csrs (λ _, {[SCAUSE := 13]}) (hw s))). exists s', t. split; [reflexivity|].
  refine (proj1 (trap_handler_fatal initrd_empty 0 0 s' t 13 eq_refl (conj _ _)) _); [discriminate|reflexivity|reflexivity].
Defined.
