(* ===== verification/Boot.v ===== *)
(** From reset to the first user program: [grant_uart] of [Task.v], [enter_task] and
    [kernel_main] of [Kernel.v].

    [booting] describes the manager between the steps of the boot: the first tasks in the first
    slots, all of them ready, nothing running. *)

From S2P Require Import Prelude Bytes Arch Page Memory Machine Pgtable Vm Trap Ipc Task Space Sched Inv IpcFacts Create Build Fork Demo Initrd Exec Load ExecFacts Kernel Traps Programs Steady Window.

#[local] Arguments read_ehdr : simpl never.
#[local] Arguments read_phdr : simpl never.

(** ** [grant_uart] *)

Definition uart_flags : Z := Z.lor (Z.lor PTE_R PTE_W) PTE_U.

Section grant.
Context (h h' : mach) (t : Task).
Hypothesis ok : space_ok h t.
Hypothesis task_alloc : ∀ b, owns (mem h) t b → is_alloc h b.
Hypothesis task_apart : ∀ va, user_va t va → ¬ maps (mem h) t va (kernel_stack t).
Hypothesis same : pt_same h h' (pagetable t).
Hypothesis alloc_same : PAGE_ALLOCATOR h' = PAGE_ALLOCATOR h.
Hypothesis lookups : ∀ v, pt_lookup (mem h') (pagetable t) v =
  if decide (same_vpn UART_PAGE v) then pt_lookup (mem h) (pagetable t) v ≫= with_flags uart_flags
  else pt_lookup (mem h) (pagetable t) v.

Lemma uart_same_vpn v : 0 ≤ v < 2 ^ 39 → same_vpn UART_PAGE v ↔ page_of v = UART_PAGE.
Proof.
  intros Hv. rewrite same_vpn_page by (done || by vm_compute). rewrite page_of_range by done.
  unfold PAGE_SIZE. tauto.
Qed.
Lemma granted_pa v :
  pte_to_pa <$> pt_lookup (mem h') (pagetable t) v = pte_to_pa <$> pt_lookup (mem h) (pagetable t) v.
Proof.
  rewrite lookups. case_decide; [|done]. destruct (pt_lookup (mem h) (pagetable t) v) as [pte|]; [|done].
  cbn. f_equal. apply pte_to_pa_of; [apply pte_to_pa_aligned|apply pte_to_pa_bound|by vm_compute].
Qed.
Lemma granted_maps va b : maps (mem h') t va b ↔ maps (mem h) t va b.
Proof. unfold maps. by rewrite granted_pa. Qed.
Lemma granted_alloc b : is_alloc h' b ↔ is_alloc h b.
Proof. unfold is_alloc. by rewrite alloc_same. Qed.
Lemma granted_user_ok : user_ok (mem h') t.
Proof.
  pose proof (space_user _ _ ok) as [Hs Hi Ha Ho]. split.
  - intros. rewrite granted_maps. by apply Hs.
  - intros va va' b ??. rewrite !granted_maps. by apply Hi.
  - intros va b ?. rewrite granted_maps, (pt_same_table _ _ _ _ same). by apply Ha.
  - intros va pte Hv. rewrite lookups. case_decide as Hd; [|by apply Ho].
    apply uart_same_vpn in Hd; [|done]. intros Hl _. right. split; [done|].
    pose proof (space_kernel _ _ ok va Hv) as Hk. rewrite <- kernel_va_page, Hd in Hk.
    specialize (Hk eq_refl). destruct (pt_lookup (mem h) (pagetable t) va) as [pte0|]; [|done].
    cbn in Hl, Hk. injection Hl as <-. injection Hk as Hk.
    rewrite pte_to_pa_of; [done|apply pte_to_pa_aligned|apply pte_to_pa_bound|by vm_compute].
Qed.
Lemma granted_space_ok : space_ok h' t.
Proof.
  pose proof ok as [Hlay [Hp Hw Ho] Hl Hk _ Hkm]. split; [done| | | |apply granted_user_ok|].
  - split; [apply same|apply same|]. intros b Hb%(pt_same_table _ _ _ _ same). by apply granted_alloc, Ho.
  - intros v pte Hv. rewrite lookups. case_decide; [|by apply Hl].
    destruct (pt_lookup _ _ v) as [pte0|]; [|done]. cbn. intros [= <-]. by rewrite pte_leaf_pa_to_pte.
  - by rewrite (pt_same_table _ _ _ _ same).
  - intros v Hv Hkv. rewrite granted_pa. by apply Hkm.
Qed.
Lemma granted_owns b : owns (mem h') t b ↔ owns (mem h) t b.
Proof.
  unfold owns, space_page, data_page. rewrite (pt_same_table _ _ _ _ same). by setoid_rewrite granted_pa.
Qed.
Lemma granted_mem b a : is_alloc h b → ¬ is_table (mem h) (pagetable t) b → in_page b a →
  load64 (mem h') a = load64 (mem h) a.
Proof.
  intros Hb Hn Hin. apply (same_frame _ _ _ same). intros b' Hb' Hin'. apply Hn.
  assert (b = b') as ->; [|done]. pose proof (ready_pages _ _ (space_ready _ _ ok)) as Hp.
  apply (pages_apart b b' a); [by apply (is_alloc_aligned h)| |done|done].
  apply (is_alloc_aligned h); [done|]. apply task_alloc. left. by left.
Qed.
Lemma granted_step : space_step h h' t t.
Proof.
  split.
  - apply same.
  - apply granted_space_ok.
  - intros b Hb _. by apply granted_alloc.
  - intros b a Hb Hn. apply granted_mem; [done|]. intros Ht. apply Hn. left. by left.
  - intros b Hb%granted_owns. split; [by apply granted_alloc, task_alloc|by left].
  - intros va Hva. rewrite granted_maps. by apply task_apart.
Qed.
End grant.

Section grant_uart.
Implicit Types (s : tsys) (t : Task) (data : list Z).

(** The UART's page of task [t] is accessible from user mode. *)
Definition uart_granted h t : Prop :=
  pt_lookup (mem h) (pagetable t) UART_PAGE = Some (pa_to_pte UART_PAGE (Z.lor uart_flags PTE_V)).
(** [grant_uart] opens the UART's page for the task with PID [p], once. *)
Lemma grant_uart_wp s i t :
  kernel_mid s → tasks (self s) !! i = Some (Some t) → uart_owner (self s) = None →
  wp (grant_uart (pid t)) (λ r s', r = Ok tt ∧ kernel_mid s' ∧
    self s' = set_uart_owner (Some (pid t)) (self s) ∧ same_globals (hw s) (hw s') ∧
    free_count (hw s') = free_count (hw s) ∧ uart_granted (hw s') t ∧
    (∀ v, page_of v ≠ UART_PAGE → 0 ≤ v < 2 ^ 39 →
       pt_lookup (mem (hw s')) (pagetable t) v = pt_lookup (mem (hw s)) (pagetable t) v) ∧
    (∀ b a, is_alloc (hw s) b → ¬ is_table (mem (hw s)) (pagetable t) b → in_page b a →
       load64 (mem (hw s')) a = load64 (mem (hw s)) a)) s.
Proof.
  intros [Hm Hsp] Ht Hown. unfold grant_uart. apply wp_bind, wp_get_self. rewrite Hown. cbn [is_none negb].
  apply wp_bind, wp_get_self. unfold find_task. rewrite (task_index_unique _ i t) by (done || apply Hm).
  cbn [mbind option_bind]. rewrite Ht. cbn [mjoin option_join].
  pose proof (spaces_task _ _ Hsp i t Ht) as Hok. pose proof Hok as [_ [Hp Hw _] _ _ _ Hkm].
  assert (kernel_va UART_PAGE = true ∧ 0 ≤ UART_PAGE < 2 ^ 39) as [Hkv Hur] by by vm_compute.
  assert (pte_to_pa <$> pt_lookup (mem (hw s)) (pagetable t) UART_PAGE = Some UART_PAGE) as Hpa by by rewrite Hkm.
  apply wp_try_bind, wp_on_hw. fold uart_flags.
  change (pgtable_set_flags (pagetable t) UART_PAGE PAGE_SIZE uart_flags)
    with (try_foreach [0] (λ offset, set_flags_page (pagetable t) (UART_PAGE +' offset) uart_flags)).
  cbn [try_foreach]. apply wp_try_bind. change (UART_PAGE +' 0) with UART_PAGE.
  eapply wp_mono; [by apply set_flags_page_wp|]. intros r h'. destruct r as [[]|].
  2: { intros [Hn _]. by rewrite Hn in Hpa. }
  intros (_ & Hs & Hal & Hlk). apply wp_ret, wp_bind, wp_upd_self, wp_ret. cbn [self hw]. split; [done|].
  assert (∀ b, owns (mem (hw s)) t b → is_alloc (hw s) b) as Hoa by (intros b; by apply (spaces_alloc _ _ Hsp i t)).
  split; [split|]; cbn [self hw].
  - split; [by destruct (mid_core _ Hm)|]. apply (tm_endpoint _ Hm).
  - assert (spaces_ok h' (<[i := Some t]> (tasks (self s)))) as H.
    { apply (spaces_ok_step (hw s) h' _ i t t); [|done|done]. apply granted_step; try done.
      intros va. by apply (spaces_apart _ _ Hsp i t). }
    by rewrite list_insert_id in H.
  - split; [done|]. split; [apply Hs|]. split; [unfold free_count; by rewrite Hal|]. split; [|split].
    + unfold uart_granted. rewrite Hlk, decide_True by done.
      destruct (pt_lookup _ _ UART_PAGE) as [pte|]; [|done]. cbn in Hpa |- *. unfold with_flags. congruence.
    + intros v Hv Hvb. rewrite Hlk, decide_False; [done|]. rewrite uart_same_vpn by done. done.
    + intros b a. by apply (granted_mem (hw s) h' t).
Qed.
End grant_uart.

(** ** Between the steps of the boot *)

(** The tasks created so far, in order; the machine below is not constrained further. *)
Record booting (kpt : Z) (s : tsys) (ts : list Task) : Prop := {
  bt_mid : kernel_mid s;
  bt_tasks : tasks (self s) = (Some <$> ts) ++ replicate (NTASKS - length ts) None;
  bt_pids : pid <$> ts = seqZ 0 (Z.of_nat (length ts));
  bt_next : next_pid (self s) = Z.of_nat (length ts);
  bt_ready : Forall (λ t, state t = Ready) ts;
  bt_current : current_pid (self s) = None;
  bt_root : KERNEL_PAGETABLE (hw s) = Some kpt;
}.

Section booting.
Context (f : initrd) (n kpt : Z).
Implicit Types (s : tsys) (t : Task) (ts : list Task) (data : list Z).

Lemma position_first ts k : position is_none ((Some <$> ts) ++ replicate (S k) None) = Some (length ts).
Proof. induction ts as [|t ts IH]; [done|]. cbn [fmap list_fmap app length]. cbn [position is_none]. by rewrite IH. Qed.
Lemma put_first ts k t :
  <[length ts := Some t]> ((Some <$> ts) ++ replicate (S k) None) = (Some <$> (ts ++ [t])) ++ replicate k None.
Proof.
  rewrite fmap_app, <- app_assoc. rewrite <- (length_fmap Some ts) at 1. rewrite insert_app_r_alt by lia.
  by rewrite Nat.sub_diag.
Qed.
Lemma bt_lookup s ts i t : booting kpt s ts → ts !! i = Some t → tasks (self s) !! i = Some (Some t).
Proof.
  intros H Ht. rewrite (bt_tasks _ _ _ H). rewrite lookup_app_l; [by rewrite list_lookup_fmap, Ht|].
  rewrite length_fmap. by eapply lookup_lt_Some.
Qed.
Lemma bt_pid s ts i t : booting kpt s ts → ts !! i = Some t → pid t = Z.of_nat i.
Proof.
  intros H Ht. assert ((pid <$> ts) !! i = Some (pid t)) as E by by rewrite list_lookup_fmap, Ht.
  rewrite (bt_pids _ _ _ H) in E. apply lookup_seqZ in E as [-> _]. lia.
Qed.
Lemma bt_fresh s ts : booting kpt s ts → task_index (tasks (self s)) (Z.of_nat (length ts)) = None.
Proof.
  intros H. destruct (task_index _ _) as [i|] eqn:E; [|done]. exfalso.
  apply task_index_Some in E as (t & Ht & Hp). rewrite (bt_tasks _ _ _ H) in Ht.
  apply lookup_app_Some in Ht as [Ht|[_ Ht]].
  - apply list_lookup_fmap_Some in Ht as (u & [= ->] & Hu). pose proof (bt_pid _ _ _ _ H Hu).
    apply lookup_lt_Some in Hu. lia.
  - by apply lookup_replicate in Ht as [? _].
Qed.
Lemma bt_tasks_length s ts : booting kpt s ts → (length ts ≤ NTASKS)%nat.
Proof.
  intros H. pose proof (tm_len _ (km_tm _ (bt_mid _ _ _ H))) as E. rewrite (bt_tasks _ _ _ H) in E.
  rewrite length_app, length_fmap in E. lia.
Qed.
(** A step that keeps the tasks. *)
Lemma booting_kept s s' ts :
  booting kpt s ts → kernel_mid s' → tasks (self s') = tasks (self s) →
  current_pid (self s') = current_pid (self s) → next_pid (self s') = next_pid (self s) →
  KERNEL_PAGETABLE (hw s') = KERNEL_PAGETABLE (hw s) → booting kpt s' ts.
Proof. intros [] ? E1 E2 E3 E4. split; rewrite ?E1, ?E2, ?E3, ?E4; done. Qed.

(** A program in memory, and that it stays there. *)
Lemma program_in_extends s h' i t data :
  kernel_mid s → tasks (self s) !! i = Some (Some t) → extends (hw s) h' →
  program_in (mem (hw s)) t data → program_in (mem h') t data.
Proof.
  intros [_ Hsp] Ht He. pose proof (spaces_task _ _ Hsp i t Ht) as Hok. apply program_in_kept.
  - done.
  - apply Hok.
  - intros _. apply Hok.
  - intros b a Hb. apply (ext_mem _ _ He). apply (spaces_alloc _ _ Hsp i t b Ht). by left.
Qed.
Lemma load_possible_mono data a b :
  load_possible data a → load_pages data ≤ b → load_possible data b.
Proof.
  intros [H1 H2 H3 (Hn & _ & Hall)] Hb. unfold load_pages in Hb. split; [done..|]. split; [done|]. split; [lia|done].
Qed.

(** [spawn] at boot. *)
Lemma spawn_boot_wp s ts name data free :
  booting kpt s ts → (0 < length ts < NTASKS)%nat → initrd_find f name = Some data →
  program_ok data = true → load_possible data free → load_pages data < free_count (hw s) →
  wp (spawn name) (λ r k, ∃ s' t, k = kern f n s' ∧ r = Ok (Z.of_nat (length ts)) ∧
    booting kpt s' (ts ++ [t]) ∧ program_in (mem (hw s')) t data ∧
    Task.entry t = e_entry (read_ehdr data) ∧ extends (hw s) (hw s') ∧
    frame_at (mem (hw s')) (trap_frame t) =
      initial_frame USER_STACK_TOP (Task.entry t) (Z.lor SSTATUS_SPIE SSTATUS_SUM) ∧
    endpoints (self s') = endpoints (self s) ∧ uart_owner (self s') = uart_owner (self s) ∧
    free_count (hw s) - load_pages data - 1 ≤ free_count (hw s')) (kern f n s).
Proof.
  intros H Hlen Hd Hok Hl Hf. pose proof (load_possible_mono data free (free_count (hw s)) Hl ltac:(lia)) as Hl'.
  destruct (NTASKS - length ts)%nat as [|k] eqn:Ek; [lia|].
  assert (position is_none (tasks (self s)) = Some (length ts)) as Hpos.
  { rewrite (bt_tasks _ _ _ H), Ek. apply position_first. }
  eapply wp_mono.
  { apply (spawn_wp f n s kpt name); [|apply H|apply H| |].
    - intros d. rewrite Hd. by intros [= <-].
    - rewrite (bt_next _ _ _ H). unfold IDLE_PID. lia.
    - rewrite (bt_next _ _ _ H). by apply bt_fresh. }
  intros r k0 (s' & -> & Hk' & Hr). destruct r as [p|].
  2: { destruct Hr as [_ Hn]. exfalso. apply Hn. exists data. split; [done|]. split; [done|]. split; [lia|].
       rewrite Hpos. by eexists. }
  destruct Hr as (d & t & Hd' & [(h & img & _ & Hc) Hp He _ Hfr]). rewrite Hd in Hd'. injection Hd' as <-.
  destruct Hc as [[Hp1 Hp2] (i & Hi & Ht & _) (Hc1 & Hc2 & Hc3 & Hc4) (Hs & _ & _) Hen _ Hframe _ _].
  cbn [self hw] in *. rewrite Hpos in Hi. injection Hi as <-. rewrite (bt_next _ _ _ H) in Hp1. subst p.
  exists s', t. split; [done|]. split; [done|]. split; [|by rewrite Hen; auto 10].
  split; rewrite ?Hc1; try apply H; try done.
  - rewrite Ht, (bt_tasks _ _ _ H), Ek, put_first, length_app. cbn [length]. do 2 f_equal. lia.
  - rewrite fmap_app, (bt_pids _ _ _ H), length_app. cbn [length fmap list_fmap]. rewrite Hp2.
    rewrite Nat2Z.inj_add, seqZ_app by lia. done.
  - rewrite Hc4, length_app. cbn [length]. unfold u32. pose proof (bt_tasks_length _ _ H) as Hb.
    unfold NTASKS, MAX_TASKS in Hb. rewrite Z.mod_small by lia. lia.
  - apply Forall_app. split; [apply H|by repeat constructor].
  - pose proof (ext_globals _ _ He) as (-> & _). apply H.
Qed.

(** [grant_uart], the registration of an endpoint and the first task, on a booting kernel. *)
Lemma grant_boot_wp s ts i t data :
  booting kpt s ts → ts !! i = Some t → uart_owner (self s) = None → program_in (mem (hw s)) t data →
  wp (task_grant_uart (Z.of_nat i)) (λ r k, ∃ s', k = kern f n s' ∧ r = Ok tt ∧ booting kpt s' ts ∧
    program_in (mem (hw s')) t data ∧ uart_granted (hw s') t ∧
    self s' = set_uart_owner (Some (Z.of_nat i)) (self s) ∧
    free_count (hw s') = free_count (hw s)) (kern f n s).
Proof.
  intros H Ht Hown Hp. pose proof (bt_lookup _ _ _ _ H Ht) as Hlk. pose proof (bt_mid _ _ _ H) as Hk.
  rewrite <- (bt_pid s ts i t H Ht). apply wp_locked. eapply wp_mono; [by apply (grant_uart_wp _ i)|].
  intros r s' (-> & Hk' & Hs & Hg & Hf & Hu & Hsame & Hm). exists s'. split; [by destruct s'|]. split; [done|].
  split; [|split; [|done]].
  - apply (booting_kept s); rewrite ?Hs; try done. by destruct Hg as (-> & _).
  - pose proof (spaces_task _ _ (km_spaces _ Hk) i t Hlk) as Hok. pose proof (space_user _ _ Hok) as Huser.
    assert (∀ va, user_va t va → page_of va ≠ UART_PAGE ∧ 0 ≤ va < 2 ^ 39) as Hva.
    { intros va Hva. destruct (user_va_spec t va (space_layout _ _ Hok) Hva) as (? & Hpo & Hkv).
      split; [|done]. rewrite Hpo. intros ->. by vm_compute in Hkv. }
    assert (∀ b a va, user_va t va → maps (mem (hw s)) t va b → in_page b a →
      load64 (mem (hw s')) a = load64 (mem (hw s)) a) as Hkept.
    { intros b a va Hv Hma. apply Hm; [|by apply (user_apart _ _ Huser va)].
      apply (spaces_alloc _ _ (km_spaces _ Hk) i t); [done|]. by apply (user_va_owned _ _ va b). }
    destruct Hp as [Hseg Honly (Hse & Hs0 & Hz)]. split.
    + intros j va Hj Hl Hsv. destruct (Hseg j va Hj Hl Hsv) as (Hup & p & Hpa & Hpb & E & Hfill).
      split; [done|]. exists p. do 2 (split; [done|]).
      assert (user_va t va) as Huv by by left. destruct (Hva va Huv) as [Hne Hb]. rewrite Hsame by done. split; [done|].
      apply (page_filled_kept _ _ _ _ (mem (hw s))); [done| |done]. intros a. apply (Hkept p a va); [done|].
      unfold maps. rewrite E. cbn. f_equal. apply pte_to_pa_of; [done|done|apply segment_flags_bound].
    + intros va Hup. destruct (Hva va) as [Hne Hb]; [by left|]. rewrite Hsame by done. by apply Honly.
    + assert (user_va t STACK_VA) as Huv by by right. destruct (Hva STACK_VA Huv) as [Hne Hb].
      rewrite Hsame by done. split; [done|]. split; [done|]. intros k Hk2. rewrite <- (Hz k Hk2).
      apply (Hkept (user_stack t) _ STACK_VA); [done|by apply Huser|].
      destruct (lay_stack _ (space_layout _ _ Hok)) as [[? _] _]. unfold in_page, PAGE_SIZE. lia.
Qed.
Lemma register_boot_wp s ts i t e :
  booting kpt s ts → ts !! i = Some t → 0 ≤ e < MAX_ENDPOINTS → endpoint_at (self s) e = None →
  wp (ipc_register e (Z.of_nat i)) (λ r k, ∃ s', k = kern f n s' ∧ r = Ok tt ∧ booting kpt s' ts ∧
    hw s' = hw s ∧ uart_owner (self s') = uart_owner (self s) ∧
    (∃ ep, endpoint_at (self s') e = Some ep ∧ owner ep = Z.of_nat i ∧ queue_list (pending ep) = []) ∧
    ∀ e', e' ≠ e → endpoint_at (self s') e' = endpoint_at (self s) e') (kern f n s).
Proof.
  intros H Ht He Hno. pose proof (bt_lookup _ _ _ _ H Ht) as Hlk. pose proof (bt_mid _ _ _ H) as Hk.
  apply wp_locked. eapply wp_mono; [apply register_endpoint_wp; [lia|done]|].
  intros r s' (Hk' & Hh & Hts & Hc & Hn & Hu & Hr). exists s'. split; [by destruct s'|].
  assert (r = Ok tt ∧ booting kpt s' ts) as [-> Hb].
  { split; [|apply (booting_kept s); rewrite ?Hh; done]. destruct r as [[]|]; [done|].
    destruct Hr as [_ [?|[?|Hr]]]; [lia|done|]. rewrite <- (bt_pid s ts i t H Ht) in Hr.
    rewrite (task_index_unique _ i t) in Hr; [done| |done]. apply Hk. }
  destruct Hr as (_ & _ & _ & (ep & Hep & Ho & _ & Hq & _) & Hoth). do 4 (split; [done|]). split; [by exists ep|done].
Qed.
Lemma enter_task_wp s ts i t :
  booting kpt s ts → ts !! i = Some t → pid t ≠ IDLE_PID →
  wp (enter_task (Z.of_nat i)) (λ r k, ∃ s', k = kern f n s' ∧ kernel_ok s' ∧
    in_user s' (set_state Running t) ∧ s' = mkTsys (dispatched i t (self s)) (hw s) ∧
    r = (USER_STACK_TOP, Task.entry t, kernel_stack t + PAGE_SIZE - 16, satp_of kpt, satp_of (pagetable t)))
    (kern f n s).
Proof.
  intros H Ht Hid. pose proof (bt_lookup _ _ _ _ H Ht) as Hlk. pose proof (bt_mid _ _ _ H) as Hk.
  assert (state t = Ready) as Hst by by apply (Forall_lookup_1 _ _ _ _ (bt_ready _ _ _ H) Ht).
  destruct (first_dispatch i t s Hk (bt_current _ _ _ H) Hlk Hst) as (Hok & Hi & Hts).
  pose proof (lay_kstack _ (space_layout _ _ (spaces_task _ _ (km_spaces _ Hk) i t Hlk))) as [[Hk0 _] Hkb].
  unfold enter_task. rewrite <- (bt_pid s ts i t H Ht). apply wp_bind, wp_locked, wp_bind, wp_get_self.
  apply wp_bind, wp_unwrap with i; [by apply task_index_unique; [apply Hk|]|].
  apply wp_bind, wp_upd_task with t; [done|]. apply wp_bind, wp_upd_self. cbn [self hw]. fold (dispatched i t (self s)).
  apply wp_bind, wp_task_at with (set_state Running t); [by apply alter_lookup|]. apply wp_ret.
  apply wp_bind, wp_on_machine. unfold kernel_satp. apply wp_bind, wp_gets. cbn [self hw].
  rewrite (bt_root _ _ _ H). apply wp_bind. cbn [unwrap]. apply wp_ret, wp_ret, wp_ret.
  eexists. split; [reflexivity|]. split; [exact Hok|]. split; [|split; [done|]].
  - apply (in_user_intro _ i); [done| |done|done]. rewrite Hts. apply list_lookup_insert_eq. by eapply lookup_lt_Some.
  - cbn [Task.entry kernel_stack pagetable set_state]. unfold PAGE_SIZE in *.
    assert (kernel_stack t +' 4096 -' 16 = kernel_stack t + 4096 - 16) as ->; [|done].
    unfold u64. rewrite (Z.mod_small (kernel_stack t + 4096)) by lia. by rewrite Z.mod_small by lia.
Qed.
End booting.

(** ** [kernel_main] *)

(** The ramdisk holds the three programs the kernel starts with, and they fit into memory. *)
Record boot_files (f : initrd) (dc df ds : list Z) : Prop := {
  bf_find : initrd_find f CONSOLE_NAME = Some dc ∧ initrd_find f FS_NAME = Some df ∧
    initrd_find f SHELL_NAME = Some ds;
  bf_ok : program_ok dc = true ∧ program_ok df = true ∧ program_ok ds = true;
  bf_load : load_possible dc MAX_PAGES ∧ load_possible df MAX_PAGES ∧ load_possible ds MAX_PAGES;
}.
(** What the boot takes: 54 pages for the kernel and what the three programs need. *)
Definition boot_pages (dc df ds : list Z) : Z := 54 + load_pages dc + load_pages df + load_pages ds.
(** A server task in slot [i], with its endpoint. *)
Definition serving (s : tsys) (i : nat) (e : Z) (data : list Z) : Prop :=
  ∃ t ep, tasks (self s) !! i = Some (Some t) ∧ pid t = Z.of_nat i ∧ state t = Ready ∧
    program_in (mem (hw s)) t data ∧ endpoint_at (self s) e = Some ep ∧ owner ep = Z.of_nat i ∧
    queue_list (pending ep) = [].
(** The machine when the kernel enters the shell, its task [t]. *)
Record booted (s : tsys) (t : Task) (dc df ds : list Z) : Prop := {
  bd_ok : kernel_ok s;
  bd_user : in_user s t;
  bd_pid : pid t = 3;
  bd_program : program_in (mem (hw s)) t ds;
  bd_console : serving s 1 CONSOLE_ENDPOINT dc;
  bd_uart : uart_owner (self s) = Some 1 ∧
    ∃ c, tasks (self s) !! 1%nat = Some (Some c) ∧ uart_granted (hw s) c;
  bd_fs : serving s 2 FS_ENDPOINT df;
}.
(** The last part of [kernel_main], after the idle task was created. *)
Definition boot_servers : K (Z * Z * Z * Z * Z) :=
  r ← spawn CONSOLE_NAME;
  console_pid ← expect r;
  r ← task_grant_uart console_pid;
  _ ← expect r;
  r ← ipc_register CONSOLE_ENDPOINT console_pid;
  _ ← expect r;
  r ← spawn FS_NAME;
  fs_pid ← expect r;
  r ← ipc_register FS_ENDPOINT fs_pid;
  _ ← expect r;
  r ← spawn SHELL_NAME;
  shell_pid ← expect r;
  enter_task shell_pid.

Section boot.
Implicit Types (s : tsys) (h : mach) (t : Task) (ts : list Task).

Lemma wp_on_machine_any {A} (m : M A) (Q : A → kernel → Prop) o f n h :
  wp m (λ a h', Q a (mkKernel o f n h')) h → wp (on_machine m) Q (mkKernel o f n h).
Proof. unfold wp, on_machine. cbn. by destruct (m _) as [[]| |]. Qed.
Lemma wp_then_expect {A B} (m : K (result A)) (k : A → K B) Q k0 :
  wp m (λ r k1, ∃ a, r = Ok a ∧ wp (k a) Q k1) k0 → wp (r ← m; a ← expect r; k a) Q k0.
Proof.
  intros H. apply wp_bind. eapply wp_mono; [exact H|]. intros r k1 (a & -> & Hk). by apply wp_bind, wp_ret.
Qed.
Lemma uart_granted_extends s h' i t :
  kernel_mid s → tasks (self s) !! i = Some (Some t) → extends (hw s) h' →
  uart_granted (hw s) t → uart_granted h' t.
Proof.
  intros [_ Hsp] Ht He Hu. unfold uart_granted. rewrite <- Hu. apply pt_lookup_frame. intros b a Hb.
  apply (ext_mem _ _ He). apply (spaces_alloc _ _ Hsp i t b Ht). left. by left.
Qed.

Lemma boot_pages_pos f dc df ds : boot_files f dc df ds → 0 ≤ boot_pages dc df ds.
Proof.
  intros [_ (Oc & Of & Os) _]. pose proof (load_pages_pos _ Oc). pose proof (load_pages_pos _ Of).
  pose proof (load_pages_pos _ Os). unfold boot_pages. lia.
Qed.

Section servers.
Context (f : initrd) (n kpt : Z) (dc df ds : list Z).
Hypothesis files : boot_files f dc df ds.
Hypothesis Hroom : boot_pages dc df ds ≤ MAX_PAGES.

(** A server stays as it is when the shell is entered. *)
Lemma serving_dispatched s ts i j t c e data :
  booting kpt s ts → ts !! i = Some c → i ≠ j → program_in (mem (hw s)) c data →
  (∃ ep, endpoint_at (self s) e = Some ep ∧ owner ep = Z.of_nat i ∧ queue_list (pending ep) = []) →
  serving (mkTsys (dispatched j t (self s)) (hw s)) i e data.
Proof.
  intros H Hc Hne Hp (ep & Hep & Ho & Hq). exists c, ep.
  split; [cbn; rewrite alter_lookup_other by done; by apply (bt_lookup kpt s ts)|].
  split; [by apply (bt_pid kpt s ts)|]. split; [by apply (Forall_lookup_1 _ _ _ _ (bt_ready _ _ _ H) Hc)|]. done.
Qed.
Lemma boot_servers_wp s t0 :
  booting kpt s [t0] → endpoints (self s) = endpoints TaskManager_new → uart_owner (self s) = None →
  MAX_PAGES - 51 ≤ free_count (hw s) →
  wp boot_servers (λ r k, ∃ s' t, k = kern f n s' ∧ booted s' t dc df ds ∧
    KERNEL_PAGETABLE (hw s') = Some kpt ∧ MAX_PAGES - boot_pages dc df ds ≤ free_count (hw s') ∧
    r = (USER_STACK_TOP, e_entry (read_ehdr ds), kernel_stack t + PAGE_SIZE - 16, satp_of kpt,
         satp_of (pagetable t))) (kern f n s).
Proof.
  intros H0 He0 Hu0 Hf0. destruct files as [(Fc & Ff & Fs) (Oc & Of & Os) (Lc & Lf & Ls)]. pose proof Hroom as Hpages. unfold boot_pages in *.
  assert (endpoint_at (self s) CONSOLE_ENDPOINT = None ∧ endpoint_at (self s) FS_ENDPOINT = None) as [Nc Nf].
  { unfold endpoint_at. rewrite He0. by vm_compute. }
  pose proof (load_pages_pos _ Oc) as Pc. pose proof (load_pages_pos _ Of) as Pf. pose proof (load_pages_pos _ Os) as Ps.
  apply wp_then_expect. eapply wp_mono; [apply (spawn_boot_wp f n kpt s [t0] CONSOLE_NAME dc MAX_PAGES); try done|].
  1: split; cbn; [lia|by vm_compute; lia]. 1: lia.
  intros r k (s1 & c & -> & -> & H1 & Pr1 & _ & _ & _ & E1 & U1 & F1). eexists. split; [done|]. cbn [app length] in *.
  apply wp_then_expect. eapply wp_mono; [apply (grant_boot_wp f n kpt s1 [t0; c] 1 c dc); [done|done|by rewrite U1|done]|].
  intros r k (s2 & -> & -> & H2 & Pr2 & G2 & S2 & F2). eexists. split; [done|].
  apply wp_then_expect. eapply wp_mono; [apply (register_boot_wp f n kpt s2 [t0; c] 1 c CONSOLE_ENDPOINT); [done|done|done|]|].
  { rewrite S2. change (endpoint_at (self s1) CONSOLE_ENDPOINT = None). unfold endpoint_at. by rewrite E1. }
  intros r k (s3 & -> & -> & H3 & M3 & U3 & Ec3 & O3). eexists. split; [done|]. rewrite <- M3 in Pr2, G2.
  apply wp_then_expect. eapply wp_mono; [apply (spawn_boot_wp f n kpt s3 [t0; c] FS_NAME df MAX_PAGES); try done|].
  1: split; cbn; [lia|by vm_compute; lia]. 1: rewrite M3, F2; lia.
  intros r k (s4 & fs & -> & -> & H4 & Pr4 & _ & X4 & _ & E4 & U4 & F4). eexists. split; [done|]. cbn [app length] in *.
  pose proof (bt_lookup _ _ _ 1 c H3 eq_refl) as T3. pose proof (bt_mid _ _ _ H3) as K3.
  apply (program_in_extends s3 (hw s4) 1 c dc K3 T3 X4) in Pr2. apply (uart_granted_extends s3 (hw s4) 1 c K3 T3 X4) in G2.
  apply wp_then_expect. eapply wp_mono; [apply (register_boot_wp f n kpt s4 [t0; c; fs] 2 fs FS_ENDPOINT); [done|done|done|]|].
  { transitivity (endpoint_at (self s3) FS_ENDPOINT); [unfold endpoint_at; by rewrite E4|]. rewrite O3, S2 by done.
    change (endpoint_at (self s1) FS_ENDPOINT = None). unfold endpoint_at. by rewrite E1. }
  intros r k (s5 & -> & -> & H5 & M5 & U5 & Ef5 & O5). eexists. split; [done|]. rewrite <- M5 in Pr2, G2, Pr4.
  apply wp_then_expect. eapply wp_mono; [apply (spawn_boot_wp f n kpt s5 [t0; c; fs] SHELL_NAME ds MAX_PAGES); try done|].
  1: split; cbn; [lia|by vm_compute; lia]. 1: rewrite M3, F2 in F4; rewrite M5; lia.
  intros r k (s6 & sh & -> & -> & H6 & Pr6 & En6 & X6 & _ & E6 & U6 & F6). eexists. split; [done|]. cbn [app length] in *.
  pose proof (bt_mid _ _ _ H5) as K5.
  pose proof (program_in_extends s5 (hw s6) 1 c dc K5 (bt_lookup _ _ _ 1 c H5 eq_refl) X6 Pr2) as Pc6.
  pose proof (program_in_extends s5 (hw s6) 2 fs df K5 (bt_lookup _ _ _ 2 fs H5 eq_refl) X6 Pr4) as Pf6.
  pose proof (uart_granted_extends s5 (hw s6) 1 c K5 (bt_lookup _ _ _ 1 c H5 eq_refl) X6 G2) as Gc6.
  pose proof (bt_pid _ _ _ 3 sh H6 eq_refl) as Psh.
  eapply wp_mono; [apply (enter_task_wp f n kpt s6 [t0; c; fs; sh] 3 sh); [done|done|by rewrite Psh]|].
  intros r k (s7 & -> & K7 & In7 & -> & ->). eexists _, (set_state Running sh). split; [done|].
  split; [|split; [apply H6|split; [cbn [hw]; rewrite M5, M3, F2 in *; lia|by rewrite En6]]].
  assert (∀ e, endpoint_at (self s6) e = endpoint_at (self s5) e) as E56 by (intros e; unfold endpoint_at; by rewrite E6).
  assert (∀ e, endpoint_at (self s4) e = endpoint_at (self s3) e) as E34 by (intros e; unfold endpoint_at; by rewrite E4).
  split; [exact K7|exact In7|exact Psh|by destruct Pr6| | |].
  - apply (serving_dispatched s6 [t0; c; fs; sh] 1 3 sh c); [done..|]. rewrite E56, O5, E34 by done. exact Ec3.
  - split; [cbn; by rewrite U6, U5, U4, U3, S2|]. exists c. split; [|exact Gc6].
    cbn. rewrite alter_lookup_other by done. by apply (bt_lookup _ _ _ 1 c H6).
  - apply (serving_dispatched s6 [t0; c; fs; sh] 2 3 sh fs); [done..|]. rewrite E56. exact Ef5.
Qed.
End servers.

(** The devices are set up without touching memory. *)
Definition devices_only h h' : Prop :=
  mem h' = mem h ∧ PAGE_ALLOCATOR h' = PAGE_ALLOCATOR h ∧ KERNEL_PAGETABLE h' = KERNEL_PAGETABLE h.
Lemma plic_init_wp h : wp plic_init (λ _, devices_only h) h.
Proof. done. Qed.
Lemma trap_init_wp a h : wp (trap_init a) (λ _, devices_only h) h.
Proof. done. Qed.
Lemma set_timer_wp a h : wp (set_timer a) (λ _, devices_only h) h.
Proof. done. Qed.
(** What [vm_init] leaves behind, given that there is room. *)
Lemma main_paged_wp archive trap_entry idle_main time f dc df ds kpt o f0 n h1 :
  initrd_init archive = Done f → boot_files f dc df ds → boot_pages dc df ds ≤ MAX_PAGES →
  pages_wf h1 → KERNEL_PAGETABLE h1 = Some kpt → MAX_PAGES - 25 ≤ free_count h1 →
  wp (main_paged archive trap_entry idle_main time) (λ r k, ∃ s t,
    k = kern f (time +' TIMER_INTERVAL) s ∧ booted s t dc df ds ∧ KERNEL_PAGETABLE (hw s) = Some kpt ∧
    MAX_PAGES - boot_pages dc df ds ≤ free_count (hw s) ∧
    r = (USER_STACK_TOP, e_entry (read_ehdr ds), kernel_stack t + PAGE_SIZE - 16, satp_of kpt,
         satp_of (pagetable t))) (mkKernel o f0 n h1).
Proof.
  intros Hinit Hfiles Hroom Hp1 Hroot Hf1. unfold main_paged.
  apply wp_bind, wp_on_machine_any. eapply wp_mono; [apply plic_init_wp|]. intros _ h2 (Hm2 & Ha2 & Hk2).
  apply wp_bind. unfold wp at 1. rewrite Hinit. unfold set_files. cbn [TASK_MANAGER files NEXT_TIMER machine].
  apply wp_bind, wp_modify. unfold set_manager. cbn [TASK_MANAGER files NEXT_TIMER machine].
  apply wp_bind, wp_on_machine_any. eapply wp_mono; [apply trap_init_wp|]. intros _ h3 (Hm3 & Ha3 & Hk3).
  apply wp_bind. unfold timer_init. apply wp_bind, wp_modify. unfold set_next_timer. cbn [TASK_MANAGER files NEXT_TIMER machine].
  apply wp_bind, wp_gets. cbn [NEXT_TIMER]. apply wp_on_machine_any. eapply wp_mono; [apply set_timer_wp|].
  intros _ h4 (Hm4 & Ha4 & Hk4).
  match goal with |- wp _ _ ?k => change k with (kern f (time +' TIMER_INTERVAL) (mkTsys TaskManager_new h4)) end.
  assert (PAGE_ALLOCATOR h4 = PAGE_ALLOCATOR h1) as Hal by congruence.
  apply wp_then_expect. unfold idle_create_idle, task_create_idle. apply wp_locked. eapply wp_mono.
  { apply (first_idle_wp idle_main kpt (mkTsys TaskManager_new h4)); cbn [self hw]; [done|congruence| |].
    - unfold pages_wf. by rewrite Hal.
    - unfold free_count. rewrite Hal. fold (free_count h1). unfold MAX_PAGES, BITMAP_SIZE in *. lia. }
  intros r s (-> & Hk & Hr & Hf & t0 & Hp & Hst & Hs). exists IDLE_PID. split; [done|].
  eapply wp_mono.
  { apply (boot_servers_wp f (time +' TIMER_INTERVAL) kpt dc df ds Hfiles Hroom s t0); rewrite ?Hs; try done.
    - split; rewrite ?Hs; try done; [cbn; by rewrite Hp|by repeat constructor].
    - cbn [hw] in Hf. unfold free_count in Hf at 1. rewrite Hal in Hf. fold (free_count h1) in Hf. lia. }
  intros r k (s' & t & -> & Hbd & Hr' & Hfree & ->). by exists s', t.
Qed.

(** What the boot does with the allocator. *)
Lemma keeps_main_paged (R : mach → mach → Prop) `{!Kept R} `{!KeptAlloc R} archive trap_entry idle_main time :
  keeps R (main_paged archive trap_entry idle_main time).
Proof.
  unfold main_paged. apply keeps_bind; [exact _|steady|intros _]. apply keeps_bind; [exact _| |intros _].
  { intros k a k'. destruct (initrd_init archive) as [f| |]; [|done..]. intros [= _ <-]. by apply kept_same. }
  do 3 (apply keeps_bind; [exact _|steady|intros _]).
  apply keeps_then_expect; [exact _|by apply keeps_ok_idle_create_idle|intros _].
  apply keeps_then_expect; [exact _|by apply keeps_ok_spawn|intros c].
  do 2 (apply keeps_then_expect; [exact _|apply keeps_keeps_ok; steady|intros _]).
  apply keeps_then_expect; [exact _|by apply keeps_ok_spawn|intros fs].
  apply keeps_then_expect; [exact _|apply keeps_keeps_ok; steady|intros _].
  apply keeps_then_expect; [exact _|by apply keeps_ok_spawn|intros sh]. steady.
Qed.
Lemma keeps_vm_init (R : mach → mach → Prop) `{!Kept R} `{!KeptAlloc R} :
  (∀ p h, R h (set_kernel_pagetable p h)) → keeps R vm_init.
Proof.
  intros Hset. unfold vm_init. apply keeps_bind; [exact _|steady|intros o].
  apply keeps_bind; [exact _|steady|intros pt].
  do 3 (apply keeps_then_expect; [exact _|apply keeps_keeps_ok; steady|intros _]).
  apply keeps_bind; [exact _|steady|intros _]. apply keeps_modify. intros h. apply Hset.
Qed.

(** The pages from the kernel's end on that the kernel can reach. *)
Lemma low_free_init h kernel_end n :
  kernel_start < kernel_end → 0 ≤ n ≤ MAX_PAGES → kernel_end + (n + 1) * PAGE_SIZE ≤ kernel_start + kernel_size →
  let h0 := set_pages (Some (page_init kernel_end)) h in
  in_window h0 ∧ n ≤ low_free h0 ∧ free_count h0 = MAX_PAGES.
Proof.
  intros H1 Hn Hend h0. destruct (page_init_facts kernel_end) as (Hal & Hst & Ht & Hwf); [unfold PAGE_SIZE in *; lia|].
  assert (∀ i, page_bit (bitmap (page_init kernel_end)) i = false) as Hbits.
  { intros i. unfold page_bit. change (bitmap (page_init kernel_end)) with (replicate 64 0).
    destruct (replicate 64 0 !! _) as [w|] eqn:E; [apply lookup_replicate in E as [-> _]|]; cbn; by rewrite Z.bits_0. }
  split; [split|split; [|exact Ht]].
  - exists (page_init kernel_end). split; [done|]. split; [done|]. lia.
  - intros b (pa & [= <-] & i & _ & _ & Hb). by rewrite Hbits in Hb.
  - unfold low_free. cbn [PAGE_ALLOCATOR h0 set_pages]. rewrite Ht.
    replace MAX_PAGES with (n + (MAX_PAGES - n)) by lia. rewrite seqZ_app by lia. rewrite countb_app.
    pose proof (countb_nonneg (low_page (page_init kernel_end)) (seqZ (0 + n) (MAX_PAGES - n))).
    assert (countb (low_page (page_init kernel_end)) (seqZ 0 n) = n) as ->; [|lia].
    rewrite (countb_ext _ (λ _, true)).
    + rewrite <- (Z2Nat.id n) at 2 by lia. rewrite <- (length_seqZ 0 n). generalize (seqZ 0 n).
      intros l. induction l as [|x l IH]; [done|]. cbn [countb foldr length] in *. unfold countb in IH. lia.
    + intros i Hi%elem_of_seqZ. unfold low_page. rewrite Hbits, andb_true_r.
      unfold page_addr, PAGE_SIZE in *. rewrite kernel_va_above by lia. apply Z.ltb_lt. lia.
Qed.
Lemma kernel_main_done kernel_end archive trap_entry idle_main time f dc df ds k0 :
  kernel_start < kernel_end → kernel_end + (boot_pages dc df ds + 1) * PAGE_SIZE ≤ kernel_start + kernel_size →
  initrd_init archive = Done f → boot_files f dc df ds →
  ∃ kpt s t, kernel_main kernel_end archive trap_entry idle_main time k0 =
      Done ((USER_STACK_TOP, e_entry (read_ehdr ds), kernel_stack t + PAGE_SIZE - 16, satp_of kpt,
             satp_of (pagetable t)), kern f (time +' TIMER_INTERVAL) s) ∧
    booted s t dc df ds ∧ KERNEL_PAGETABLE (hw s) = Some kpt ∧ in_window (hw s).
Proof.
  intros Hstart Hend Hinit Hfiles. destruct k0 as [o f0 n h].
  assert (0 ≤ boot_pages dc df ds ≤ MAX_PAGES) as Hroom.
  { destruct Hfiles as [_ (Oc & Of & Os) _]. pose proof (load_pages_pos _ Oc). pose proof (load_pages_pos _ Of).
    pose proof (load_pages_pos _ Os). unfold boot_pages, MAX_PAGES, BITMAP_SIZE, PAGE_SIZE, kernel_size in *. lia. }
  destruct (low_free_init h kernel_end (boot_pages dc df ds) Hstart Hroom Hend) as (Hw0 & Hl0 & Hf0).
  set (h0 := set_pages _ h) in *.
  assert (pages_wf h0) as Hp0.
  { destruct Hw0 as [(pa & E & Hwf & Hs) _]. exists pa. split; [done|]. split; [done|]. unfold kernel_start in Hs. lia. }
  destruct (vm_init_done h0 Hp0) as (h1 & kpt & Evm & Hroot & _ & _ & [Hp1 _ _] & Hf1 & _); [by rewrite Hf0|].
  pose proof (main_paged_wp archive trap_entry idle_main time f dc df ds kpt o f0 n h1 Hinit Hfiles (proj2 Hroom) Hp1 Hroot
    ltac:(lia)) as H.
  apply wp_Done in H as (r & k & E & s & t & -> & Hb & Hr & Hfree & ->). exists kpt, s, t.
  assert (∀ p h', drawn h' (set_kernel_pagetable p h')) as Hset1 by (intros p h' Hm; exists []; by apply drew_nothing).
  assert (∀ p h', spent h' (set_kernel_pagetable p h')) as Hset2.
  { intros p h' Hm. split; [exact Hm|]. exists []. split; [done|]. unfold free_count. cbn. lia. }
  destruct (keeps_vm_init drawn Hset1 _ _ _ Evm (proj1 Hw0)) as [n1 D1].
  destruct (keeps_vm_init spent Hset2 _ _ _ Evm (proj1 Hw0)) as (Hm1 & n1' & T1 & F1).
  destruct (keeps_main_paged drawn _ _ _ _ _ _ _ E Hm1) as [n2 D2].
  destruct (keeps_main_paged spent _ _ _ _ _ _ _ E Hm1) as (_ & n2' & T2 & F2).
  unfold mach_of, mach_mach, kernel_mach in *. cbn [machine kern] in *.
  assert (n1' = n1) as -> by (apply (app_inv_tail (taken h0)); rewrite <- T1; apply D1).
  assert (n2' = n2) as -> by (apply (app_inv_tail (taken h1)); rewrite <- T2; apply D2). clear T1 T2.
  pose proof (drew_trans _ _ _ _ _ D1 D2) as D.
  assert (Forall (λ a, kernel_va a = true) (n2 ++ n1)) as Hall.
  { apply Forall_forall. intros a Ha. destruct (kernel_va a) eqn:Hk; [done|exfalso].
    pose proof (drew_high _ _ _ D a Ha Hk) as Hh. rewrite length_app in Hh. lia. }
  split; [|split; [exact Hb|split; [exact Hr|]]].
  - unfold kernel_main. unfold mbind, st_bind, on_machine at 1, modify. cbn [machine TASK_MANAGER files NEXT_TIMER].
    fold h0. unfold on_machine. cbn [machine TASK_MANAGER files NEXT_TIMER]. rewrite Evm.
    unfold paged. rewrite E. rewrite (fresh_pages_new _ _ n2) by apply D2.
    assert (forallb kernel_va n2 = true) as ->; [|done]. apply forallb_forall. intros a Ha%list_elem_of_In.
    rewrite Forall_app, Forall_forall in Hall. by apply Hall.
  - apply (in_window_drew h0 _ (n2 ++ n1) Hw0 D). by apply Forall_forall.
Qed.
(** The pages the booted kernel hands out begin behind its image. *)
Lemma kernel_main_start kernel_end archive trap_entry idle_main time k0 r k :
  kernel_start < kernel_end ≤ kernel_start + kernel_size - PAGE_SIZE →
  kernel_main kernel_end archive trap_entry idle_main time k0 = Done (r, k) →
  ∃ e, start_addr <$> PAGE_ALLOCATOR (machine k) = Some e ∧ kernel_end ≤ e.
Proof.
  intros Hend. destruct (page_init_facts kernel_end) as (Hal & Hst & Ht & Hwf); [lia|].
  unfold kernel_main, mbind, st_bind, on_machine, modify. destruct k0 as [o f0 n h]. cbn [machine TASK_MANAGER files NEXT_TIMER].
  set (h0 := set_pages _ h). destruct (vm_init h0) as [[[] h1]| |] eqn:Evm; [|done..].
  intros E. pose proof (keeps_vm_init same_start ltac:(done) _ _ _ Evm) as H1.
  pose proof (keeps_paged same_start _ (keeps_main_paged same_start _ _ _ _) _ _ _ E) as H2.
  unfold same_start, mach_of, mach_mach, kernel_mach in *. cbn [machine] in *. exists (start_addr (page_init kernel_end)).
  rewrite H2, H1. split; [done|]. lia.
Qed.
End boot.

(** An archive with the small ELF file under the three names. *)
Definition demo_archive : list Z :=
  match build_archive [mkEntry CONSOLE_NAME demo_elf; mkEntry FS_NAME demo_elf; mkEntry SHELL_NAME demo_elf] with
  | Done a => a | _ => []
  end.
Definition demo_boot_initrd : initrd :=
  match initrd_init demo_archive with Done f => f | _ => initrd_empty end.
Lemma demo_archive_init : initrd_init demo_archive = Done demo_boot_initrd.
Proof. by vm_compute. Qed.
Lemma demo_boot_files : boot_files demo_boot_initrd demo_elf demo_elf demo_elf.
Proof.
  destruct demo_elf_facts as (_ & Hp & _).
  assert (load_possible demo_elf MAX_PAGES) as Hl by by apply demo_elf_loads.
  split.
  - clear. by vm_compute.
  - clear. by vm_compute.
  - exact (conj Hl (conj Hl Hl)).
Qed.
Lemma demo_boot_room : kernel_start < 0x80250000 ∧
  0x80250000 + (boot_pages demo_elf demo_elf demo_elf + 1) * PAGE_SIZE ≤ kernel_start + kernel_size.
Proof.
  destruct demo_elf_facts as (_ & Hp & _). unfold boot_pages. rewrite Hp. vm_compute. split; [done|discriminate].
Qed.
