(* ===== verification/Run.v ===== *)
(** The running system: user code and traps in turn, from the boot on.  A step is what the
    running task does to its registers and memory, a trap, and the kernel's answer; the
    theorem goes by induction over the steps. *)

From S2P Require Import Prelude Arch Page Memory Machine Pgtable Vm Trap Ipc Task Space Sched Inv IpcFacts Create Build Buffers Fork Demo UserContracts Initrd Exec Load ExecFacts Kernel Traps Programs Steady Window Handler Boot.

#[local] Arguments read_ehdr : simpl never.
#[local] Arguments read_phdr : simpl never.

(** Until the next trap task [t] runs in user mode: it changes pages it can access (the UART's
    registers are not memory), and the trap's entry saves its registers in its frame; the
    cause of the trap is in the control registers and in the interrupt controller. *)
Record ran (h h' : mach) (t : Task) : Prop := {
  ran_alloc : PAGE_ALLOCATOR h' = PAGE_ALLOCATOR h;
  ran_root : KERNEL_PAGETABLE h' = KERNEL_PAGETABLE h;
  ran_sbi : sbi_calls h' = sbi_calls h;
  ran_mem a : load64 (mem h') a = load64 (mem h) a ∨ in_frame (trap_frame t) a ∨
    ∃ va b, user_access (mem h) t va b ∧ b ≠ UART_PAGE ∧ in_page b a;
}.
(** A trap that [trap_handler_done] covers; the idle task makes no calls. *)
Definition trap_allowed (s : tsys) (t : Task) : Prop :=
  trap_cause s = Timer ∨ trap_cause s = External ∨
  trap_cause s = UserEcall ∧ pid t ≠ IDLE_PID ∧ call_ok s t (syscall_number (trap_frame t) s).
Definition current_task (s : tsys) (t : Task) : Prop :=
  ∃ i, current_index (self s) = Some i ∧ tasks (self s) !! i = Some (Some t).

(** One turn of user code and kernel, with the ramdisk [f]. *)
Inductive kernel_step (f : initrd) : kernel → kernel → Prop :=
  | KernelStep n s t h fp k :
      current_task s t → ran (hw s) h t → let s1 := mkTsys (self s) h in trap_allowed s1 t →
      trap_handler (trap_frame t) (kern f n s1) = Done (Resume fp, k) →
      kernel_step f (kern f n s) k.
(** What holds before each turn: the frame the kernel resumes is that of the running task, and the pages
    that are handed out begin at [e] and can all be reached by the kernel. *)
Definition kernel_inv (f : initrd) (kpt e : Z) (k : kernel) : Prop :=
  ∃ n s, k = kern f n s ∧ kernel_ok s ∧ KERNEL_PAGETABLE (hw s) = Some kpt ∧ in_window (hw s) ∧
    start_addr <$> PAGE_ALLOCATOR (hw s) = Some e.
(** The next turn from [k], whatever the running task does and whatever allowed trap comes: the kernel
    resumes a task; or stops at a [shutdown] call; or fails on a call that takes more pages than it can reach. *)
Definition next_turn (f : initrd) (k : kernel) : Prop :=
  ∃ n s t, k = kern f n s ∧ current_task s t ∧ state t = Running ∧
    ∀ h, ran (hw s) h t → let s1 := mkTsys (self s) h in let k1 := kern f n s1 in trap_allowed s1 t →
      (∃ fp k', trap_handler (trap_frame t) k1 = Done (Resume fp, k') ∧ kernel_step f k k') ∨
      (trap_cause s1 = UserEcall ∧ syscall_number (trap_frame t) s1 = SYS_SHUTDOWN ∧
        ∃ k', trap_handler (trap_frame t) k1 = Done (Halted, k')) ∨
      trap_cause s1 = UserEcall ∧ memory_call (syscall_number (trap_frame t) s1) = true ∧
        trap_handler (trap_frame t) k1 = Panic ∧ out_of_reach (trap_frame t) k1.

Section runs.
Context (f : initrd) (kpt e : Z).
Implicit Types (s : tsys) (h : mach) (t : Task) (k : kernel).

(** User code changes nothing of another task, and no page table. *)
Lemma ran_owned s h i t j u b a :
  kernel_ok s → tasks (self s) !! i = Some (Some t) → ran (hw s) h t → tasks (self s) !! j = Some (Some u) →
  owns (mem (hw s)) u b → in_page b a → (j = i → is_table (mem (hw s)) (pagetable u) b) →
  load64 (mem h) a = load64 (mem (hw s)) a.
Proof.
  intros [_ Hsp] Ht Hr Hu Hown Ha Htab.
  pose proof (owns_aligned (hw s) _ j u b Hsp Hu Hown) as Hba.
  destruct (ran_mem _ _ _ Hr a) as [?|[Hin|(va & b' & Hacc & Hne & Hin)]]; [done|exfalso..].
  - pose proof (space_layout _ _ (spaces_task _ _ Hsp i t Ht)) as Hl.
    assert (b = kernel_stack t) as -> by (apply (pages_apart b (kernel_stack t) a); [done|apply Hl|done|by apply frame_in_stack]).
    assert (j = i) as -> by (apply (spaces_disjoint _ _ Hsp j i u t (kernel_stack t)); [done..|by right]).
    rewrite Ht in Hu. injection Hu as <-. by apply (space_kstack _ _ (spaces_task _ _ Hsp i t Ht)), Htab.
  - pose proof (space_user _ _ (spaces_task _ _ Hsp i t Ht)) as Hut.
    destruct (user_access_own _ _ _ _ Hut Hacc) as [?|[Hva Hm]]; [done|].
    pose proof (user_va_owned _ _ _ _ Hut Hva Hm) as Ho'.
    assert (b' = b) as -> by (apply (pages_apart b' b a); [by apply (owns_aligned (hw s) _ i t b' Hsp Ht)|done..]).
    assert (j = i) as -> by by apply (spaces_disjoint _ _ Hsp j i u t b).
    rewrite Ht in Hu. injection Hu as <-. by apply (user_apart _ _ Hut _ _ Hva Hm), Htab.
Qed.
Lemma ran_tables s h i t j u :
  kernel_ok s → tasks (self s) !! i = Some (Some t) → ran (hw s) h t → tasks (self s) !! j = Some (Some u) →
  tables_same (hw s) h u.
Proof. intros Hk Ht Hr Hu b a Hb Ha. apply (ran_owned s h i t j u b a); try done. left. by left. Qed.
Lemma ran_kept s h i t j u :
  kernel_ok s → tasks (self s) !! i = Some (Some t) → ran (hw s) h t → tasks (self s) !! j = Some (Some u) →
  j ≠ i → kept (hw s) h u.
Proof. intros Hk Ht Hr Hu Hne b a Hb Ha. by apply (ran_owned s h i t j u b a). Qed.
Lemma ran_ok s h i t :
  kernel_ok s → tasks (self s) !! i = Some (Some t) → ran (hw s) h t → kernel_ok (mkTsys (self s) h).
Proof.
  intros Hk Ht Hr. split; [apply Hk|]. apply (spaces_ok_mem (hw s)); [apply Hr| |apply Hk].
  intros j u Hu. by apply (ran_tables s h i t j u).
Qed.
Lemma ran_window h h' t : ran h h' t → in_window h → in_window h'.
Proof.
  intros Hr [(pa & Hp & Hwf) Hw]. pose proof (ran_alloc _ _ _ Hr) as Hal. split; [exists pa; by rewrite Hal|].
  intros b Hb. apply Hw. unfold is_alloc in *. by rewrite Hal in Hb.
Qed.
(** Nothing below the allocator's first page changes: the kernel's image is there. *)
Lemma alloc_above h b : in_window h → start_addr <$> PAGE_ALLOCATOR h = Some e → is_alloc h b →
  e ≤ b < kernel_start + kernel_size.
Proof.
  intros [(pa0 & Hp0 & _ & Hs0) Hw] He Hb. pose proof (Hw b Hb) as Hk. destruct Hb as (pa & Hp & i & Hi & -> & Hb).
  rewrite Hp in *. injection He as <-. injection Hp0 as <-. unfold page_addr in *.
  rewrite kernel_va_above in Hk by (unfold PAGE_SIZE; lia). apply Z.ltb_lt in Hk. unfold PAGE_SIZE in *. lia.
Qed.
Lemma ran_image s h i t a :
  kernel_ok s → tasks (self s) !! i = Some (Some t) → ran (hw s) h t → in_window (hw s) →
  start_addr <$> PAGE_ALLOCATOR (hw s) = Some e → a < e → load64 (mem h) a = load64 (mem (hw s)) a.
Proof.
  intros Hk Ht Hr Hw He Ha. pose proof (spaces_task _ _ (k_spaces _ Hk) i t Ht) as Hok.
  assert (∀ b, owns (mem (hw s)) t b → ¬ in_page b a) as Hno.
  { intros b Hb Hin. apply (spaces_alloc _ _ (k_spaces _ Hk) i t b Ht) in Hb.
    pose proof (alloc_above _ _ Hw He Hb). unfold in_page in Hin. lia. }
  destruct (ran_mem _ _ _ Hr a) as [?|[Hin|(va & b & Hacc & Hne & Hin)]]; [done|exfalso..].
  - apply (Hno (kernel_stack t)); [by right|]. apply frame_in_stack; [apply Hok|done].
  - destruct (user_access_own _ _ _ _ (space_user _ _ Hok) Hacc) as [?|[Hva Hm]]; [done|].
    apply (Hno b); [by apply (user_va_owned _ _ _ _ (space_user _ _ Hok) Hva Hm)|done].
Qed.

(** One turn. *)
Lemma turn n s t h :
  files_ok f → kernel_inv f kpt e (kern f n s) → current_task s t → state t = Running →
  ran (hw s) h t → let s1 := mkTsys (self s) h in let k1 := kern f n s1 in trap_allowed s1 t →
  (∃ fp k, trap_handler (trap_frame t) k1 = Done (Resume fp, k) ∧ kernel_inv f kpt e k) ∨
  (trap_cause s1 = UserEcall ∧ syscall_number (trap_frame t) s1 = SYS_SHUTDOWN ∧
    ∃ k, trap_handler (trap_frame t) k1 = Done (Halted, k)) ∨
  trap_cause s1 = UserEcall ∧ memory_call (syscall_number (trap_frame t) s1) = true ∧
    trap_handler (trap_frame t) k1 = Panic ∧ out_of_reach (trap_frame t) k1.
Proof.
  intros Hf (n0 & s0 & Ek & Hk & Hroot & Hw & He) (i & Hi & Ht) Hrun Hr s1 k1 Htrap.
  assert (s0 = s) as -> by (destruct s, s0; unfold kern in Ek; cbn in *; congruence). clear Ek n0.
  pose proof (ran_ok s h i t Hk Ht Hr) as Hk1. fold s1 in Hk1.
  destruct (trap_handler_done f n kpt s1 (trap_frame t) Hk1) as [(fp & s' & n' & E & Hok & Hroot' & Hw' & _)|H].
  - cbn. by rewrite (ran_root _ _ _ Hr).
  - done.
  - by apply (ran_window (hw s) h t).
  - destruct Htrap as [?|[?|(? & Hid & Hc)]]; [by left|by right; left|right; right]. split; [done|].
    exists t. split; [by apply (in_user_intro s1 i)|done].
  - left. exists fp, (kern f n' s'). split; [exact E|]. exists n', s'. split; [done|]. split; [exact Hok|].
    split; [exact Hroot'|]. split; [exact Hw'|].
    pose proof (keeps_paged same_start _ (keeps_answer_trap same_start (trap_frame t)) k1 _ _ E) as Hs.
    unfold same_start, mach_of, kernel_mach in Hs. cbn [machine kern k1 hw s1] in Hs. rewrite Hs.
    by rewrite (ran_alloc _ _ _ Hr).
  - by right.
Qed.
Lemma inv_current n s : kernel_inv f kpt e (kern f n s) → kernel_ok s.
Proof.
  intros (n0 & s0 & Ek & Hk & _). assert (s0 = s) as -> by (destruct s, s0; unfold kern in Ek; cbn in *; congruence).
  done.
Qed.
Lemma inv_step k k' : files_ok f → kernel_inv f kpt e k → kernel_step f k k' → kernel_inv f kpt e k'.
Proof.
  intros Hf Hinv Hstep. destruct Hstep as [n s t h fp k1 Hcur Hr s1 Htrap Erun].
  pose proof Hcur as (i & Hi & Ht). assert (state t = Running) as Hrun.
  { destruct (ok_current _ (k_tm _ (inv_current n s Hinv))) as (j & u & Hj & Hu & Hs). congruence. }
  destruct (turn n s t h Hf Hinv Hcur Hrun Hr Htrap) as [(fp' & k2 & E & Hk2)|[(_ & _ & k2 & E)|(_ & _ & E & _)]];
    unfold s1 in Erun; rewrite Erun in E; [|discriminate E..]. injection E as _ ->. exact Hk2.
Qed.
Lemma inv_steps k k' : files_ok f → kernel_inv f kpt e k → rtc (kernel_step f) k k' → kernel_inv f kpt e k'.
Proof. intros Hf Hk Hrun. induction Hrun as [|k k1 k2 Hstep _ IH]; [done|]. by apply IH, (inv_step k). Qed.
Lemma inv_next k : files_ok f → kernel_inv f kpt e k → next_turn f k.
Proof.
  intros Hf Hinv. pose proof Hinv as (n & s & -> & Hk & _).
  destruct (ok_current _ (k_tm _ Hk)) as (i & t & Hi & Ht & Hrun).
  assert (current_task s t) as Hcur by by exists i. exists n, s, t. split; [done|]. split; [done|]. split; [done|].
  intros h Hr s1 k1 Htrap. destruct (turn n s t h Hf Hinv Hcur Hrun Hr Htrap) as [(fp & k & E & _)|H]; [left|by right].
  exists fp, k. split; [exact E|]. by apply (KernelStep f n s t h fp k).
Qed.
End runs.

(** From the boot on. *)
Lemma inv_booted kernel_end archive trap_entry idle_main time f dc df ds k0 regs k1 k :
  kernel_start < kernel_end → kernel_end + (boot_pages dc df ds + 1) * PAGE_SIZE ≤ kernel_start + kernel_size →
  initrd_init archive = Done f → boot_files f dc df ds → files_ok f →
  kernel_main kernel_end archive trap_entry idle_main time k0 = Done (regs, k1) →
  rtc (kernel_step f) k1 k →
  ∃ kpt e, kernel_inv f kpt e k ∧ kernel_end ≤ e.
Proof.
  intros Hstart Hend Hinit Hfiles Hf Eboot Hrun.
  destruct (kernel_main_done kernel_end archive trap_entry idle_main time f dc df ds k0 Hstart Hend Hinit Hfiles)
    as (kpt & s & t & E & Hb & Hroot & Hw).
  destruct (kernel_main_start kernel_end archive trap_entry idle_main time k0 regs k1) as (e & He & Hle).
  { pose proof (boot_pages_pos f dc df ds Hfiles). unfold PAGE_SIZE in *. lia. }
  { exact Eboot. }
  rewrite E in Eboot. injection Eboot as _ <-. exists kpt, e. split; [|exact Hle].
  apply (inv_steps f kpt e (kern f (time +' TIMER_INTERVAL) s)); [exact Hf| |exact Hrun].
  eexists _, s. split; [done|]. split; [apply Hb|]. split; [exact Hroot|]. split; [exact Hw|exact He].
Qed.

(** [C3] When the booted kernel can fail.  After a successful boot with trustworthy files, take any
    run: the running task does what it likes with its registers and with the memory it can access
    from user mode, then a timer or external interrupt or one of its system calls (as [call_ok]
    describes them) is handled on the kernel's page table, the task the kernel resumes goes on, and so forth, any number of
    times.  In every state reached the kernel invariant holds, every page handed out is one the kernel
    can reach, and the kernel knows a running task; whatever the task does and whichever of
    those traps comes, the next turn ends in the kernel resuming a task, or stopping at a
    [shutdown] call, or, and there is no other way to fail, panicking on a [fork], [exec] or [sbrk]
    call that takes more pages than are free within the kernel's 16 MB. *)
Theorem kernel_turns_correct kernel_end archive trap_entry idle_main time f dc df ds k0 regs k1 k :
  kernel_start < kernel_end → kernel_end + (boot_pages dc df ds + 1) * PAGE_SIZE ≤ kernel_start + kernel_size →
  initrd_init archive = Done f → boot_files f dc df ds → files_ok f →
  kernel_main kernel_end archive trap_entry idle_main time k0 = Done (regs, k1) →
  rtc (kernel_step f) k1 k →
  (∃ n s, k = kern f n s ∧ kernel_ok s ∧ in_window (hw s)) ∧ next_turn f k.
Proof.
  intros Hstart Hend Hinit Hfiles Hf Eboot Hrun.
  destruct (inv_booted kernel_end archive trap_entry idle_main time f dc df ds k0 regs k1 k) as (kpt & e & Hk & _); [done..|].
  split; [|by apply (inv_next f kpt e)]. destruct Hk as (n' & s' & -> & Hk & _ & Hw & _). by exists n', s'.
Qed.


(** The files of the demo's archive are trustworthy. *)
Lemma demo_files_ok : files_ok demo_boot_initrd.
Proof.
  assert (initrd_entries demo_boot_initrd = [mkEntry CONSOLE_NAME demo_elf; mkEntry FS_NAME demo_elf; mkEntry SHELL_NAME demo_elf])
    as He by by vm_compute.
  intros nm d. unfold initrd_find. fold (initrd_entries demo_boot_initrd). rewrite He. clear He.
  destruct (head _) as [e|] eqn:E; [|done]. intros [= <-]. apply head_Some_elem_of, list_elem_of_filter in E as [_ E].
  destruct demo_boot_files as [_ (Hok & _) _]. revert E Hok. generalize demo_elf. clear. intros data E Hok.
  repeat (apply elem_of_cons in E as [->|E]; [exact Hok|]). by apply elem_of_nil in E.
Qed.
Lemma ran_trap h t cause : ran h (set_csrs (λ _, {[SCAUSE := cause]}) h) t.
Proof. split; try done. intros a. by left. Qed.
Definition demo_reset : kernel := mkKernel None initrd_empty 0 (mkMach ∅ None None ∅ ∅ [] []).
Lemma demo_boots : ∃ regs k1, kernel_main 0x80250000 demo_archive 0x80200100 0x80200200 0 demo_reset = Done (regs, k1).
Proof.
  destruct (kernel_main_done 0x80250000 demo_archive 0x80200100 0x80200200 0 demo_boot_initrd demo_elf demo_elf demo_elf
    demo_reset (proj1 demo_boot_room) (proj2 demo_boot_room) demo_archive_init demo_boot_files) as (kpt & s & t & E & _).
  eexists _, _. exact E.
Qed.
(** The demo's kernel boots, takes a timer interrupt, and is ready for the next turn. *)
Lemma kernel_turns_correct_witness :
  ∃ regs k1 k, kernel_main 0x80250000 demo_archive 0x80200100 0x80200200 0 demo_reset = Done (regs, k1) ∧
    kernel_step demo_boot_initrd k1 k ∧ next_turn demo_boot_initrd k.
Proof.
  destruct demo_boots as (regs & k1 & E).
  pose proof (λ k, kernel_turns_correct 0x80250000 demo_archive 0x80200100 0x80200200 0 demo_boot_initrd demo_elf demo_elf demo_elf
    demo_reset regs k1 k (proj1 demo_boot_room) (proj2 demo_boot_room) demo_archive_init demo_boot_files demo_files_ok E) as H.
  destruct (H k1 (rtc_refl _ k1)) as [_ (n & s & t & -> & Hcur & Hrun & Hnext)].
  destruct (Hnext _ (ran_trap (hw s) t (2 ^ 63 + 5))) as [(fp & k & _ & Hstep)|[(Hc & _)|(Hc & _)]]; [left; reflexivity| | |].
  - exists regs, (kern demo_boot_initrd n s), k. split; [exact E|]. split; [exact Hstep|].
    exact (proj2 (H k (rtc_once _ _ Hstep))).
  - exfalso. discriminate Hc.
  - exfalso. discriminate Hc.
Defined.
