(* ===== verification/Userlib.v ===== *)
(** The user library's system calls ([src/user/userlib/src/syscall.rs] and [ipc.rs]): each
    function loads registers, executes [ecall] and makes its result of the registers it
    finds afterwards.  Both ends of the interface are in this repository, with their own
    constants; the theorems are that they agree, and what a program sees of an RPC and of
    a child's exit. *)

From S2P Require Import Prelude Arch Page Memory Machine Pgtable Vm Trap Ipc Task Space Sched Inv IpcFacts ProcFacts Create Build Buffers BufferCalls Demo BufferContracts Initrd Exec Kernel Traps Programs Steady Window Handler Boot Run.

(** ** The functions *)

(** One [asm!] block and what surrounds it: the registers it loads (as fields of the frame that the
    trap's entry saves them to), and what the function does with the registers after it.
    [exit] does not return: it spins. *)
Record stub (R : Type) : Type := mkStub {
  inputs : list (Z * Z);
  returned : (Z → Z) → outcome R;
}.
Arguments mkStub {R} _ _.
Arguments inputs {R} _.
Arguments returned {R} _ _.

(** [syscall.rs]. *)
Definition user_SYS_EXIT : Z := 2.
Definition user_SYS_YIELD : Z := 4.
Definition user_SYS_GETPID : Z := 5.
Definition user_SYS_FORK : Z := 6.
Definition user_SYS_PS : Z := 7.
Definition user_SYS_EXEC : Z := 8.
Definition user_SYS_WAITPID : Z := 9.
Definition user_SYS_IRQ_WAIT : Z := 13.
Definition user_SYS_SBRK : Z := 14.
Definition user_SYS_IPC_CALL_BUF : Z := 15.
Definition user_SYS_IPC_RECV_BUF : Z := 16.

Definition exit_stub (code : Z) : stub unit :=
  mkStub [(off_a0, u64 code); (off_a7, user_SYS_EXIT)] (λ _, Diverge).
Definition yield_now_stub : stub unit := mkStub [(off_a7, user_SYS_YIELD)] (λ _, Done tt).
Definition getpid_stub : stub Z :=
  mkStub [(off_a0, 0); (off_a7, user_SYS_GETPID)] (λ r, Done (u32 (r off_a0))).
Definition fork_stub : stub Z :=
  mkStub [(off_a0, 0); (off_a7, user_SYS_FORK)] (λ r, Done (as_isize (r off_a0))).
Definition ps_stub : stub unit := mkStub [(off_a0, 0); (off_a7, user_SYS_PS)] (λ _, Done tt).
(** A slice is its address and its length. *)
Definition exec_stub (ptr len : Z) : stub Z :=
  mkStub [(off_a0, ptr); (off_a1, len); (off_a7, user_SYS_EXEC)] (λ r, Done (as_isize (r off_a0))).
Definition waitpid_stub (p : Z) : stub Z :=
  mkStub [(off_a0, p); (off_a7, user_SYS_WAITPID)] (λ r, Done (as_isize (r off_a0))).
Definition irq_wait_stub (irq : Z) : stub (result unit) :=
  mkStub [(off_a0, irq); (off_a7, user_SYS_IRQ_WAIT)]
    (λ r, Done (if r off_a0 =? usize_max then Err else Ok tt)).
Definition sbrk_stub (increment : Z) : stub (result Z) :=
  mkStub [(off_a0, u64 increment); (off_a7, user_SYS_SBRK)]
    (λ r, Done (if r off_a0 =? usize_max then Err else Ok (r off_a0))).
Definition ipc_call_buf_stub (endpoint : Z) (ws : list Z) (buf buf_len : Z) : stub Z :=
  mkStub [(off_a0, endpoint); (off_a1, word ws 0); (off_a2, word ws 1); (off_a3, word ws 2);
          (off_a4, word ws 3); (off_a5, buf); (off_a6, buf_len); (off_a7, user_SYS_IPC_CALL_BUF)]
    (λ r, Done (as_isize (r off_a0))).
Definition ipc_recv_buf_stub (endpoint buf capacity : Z) : stub (Z * Z) :=
  mkStub [(off_a0, endpoint); (off_a1, buf); (off_a2, capacity); (off_a7, user_SYS_IPC_RECV_BUF)]
    (λ r, Done (as_isize (r off_a0), r off_a5)).

(** [ipc.rs], with constants of its own. *)
Definition uipc_SYS_IPC_CALL : Z := 10.
Definition uipc_SYS_IPC_RECV : Z := 11.
Definition uipc_SYS_IPC_REPLY : Z := 12.
Definition uipc_SYS_IPC_CALL_BUF : Z := 15.
Definition uipc_SYS_IPC_RECV_BUF : Z := 16.
Definition uipc_SYS_IPC_REPLY_BUF : Z := 17.
Definition uipc_ERROR : Z := usize_max.

Definition call_stub (endpoint : Z) (ws : list Z) : stub (result (list Z)) :=
  mkStub [(off_a0, endpoint); (off_a1, word ws 0); (off_a2, word ws 1); (off_a3, word ws 2);
          (off_a4, word ws 3); (off_a7, uipc_SYS_IPC_CALL)]
    (λ r, Done (if r off_a0 =? uipc_ERROR then Err
                else Ok [r off_a0; r off_a1; r off_a2; r off_a3])).
Definition recv_stub (endpoint : Z) : stub (result (Z * list Z)) :=
  mkStub [(off_a0, endpoint); (off_a7, uipc_SYS_IPC_RECV)]
    (λ r, Done (if r off_a0 =? uipc_ERROR then Err
                else Ok (u32 (r off_a0), [r off_a1; r off_a2; r off_a3; r off_a4]))).
Definition reply_stub (client : Z) (ws : list Z) : stub (result unit) :=
  mkStub [(off_a0, client); (off_a1, word ws 0); (off_a2, word ws 1); (off_a3, word ws 2);
          (off_a4, word ws 3); (off_a7, uipc_SYS_IPC_REPLY)]
    (λ r, Done (if r off_a0 =? 0 then Ok tt else Err)).
Definition recv_buf_stub (endpoint buf len : Z) : stub (result (Z * list Z * Z)) :=
  mkStub [(off_a0, endpoint); (off_a1, buf); (off_a2, len); (off_a7, uipc_SYS_IPC_RECV_BUF)]
    (λ r, Done (if r off_a0 =? uipc_ERROR then Err
                else Ok (u32 (r off_a0), [r off_a1; r off_a2; r off_a3; r off_a4], r off_a5))).
Definition call_buf_stub (endpoint : Z) (ws : list Z) (buf len : Z) : stub (result (list Z)) :=
  mkStub [(off_a0, endpoint); (off_a1, word ws 0); (off_a2, word ws 1); (off_a3, word ws 2);
          (off_a4, word ws 3); (off_a5, buf); (off_a6, len); (off_a7, uipc_SYS_IPC_CALL_BUF)]
    (λ r, Done (if r off_a0 =? uipc_ERROR then Err
                else Ok [r off_a0; r off_a1; r off_a2; r off_a3])).
Definition reply_buf_stub (client : Z) (ws : list Z) (buf len : Z) : stub (result unit) :=
  mkStub [(off_a0, client); (off_a1, word ws 0); (off_a2, word ws 1); (off_a3, word ws 2);
          (off_a4, word ws 3); (off_a5, buf); (off_a6, len); (off_a7, uipc_SYS_IPC_REPLY_BUF)]
    (λ r, Done (if r off_a0 =? 0 then Ok tt else Err)).

(** What a program's entry point makes of its [main]: it exits with 0, or with 1 after a panic. *)
Definition user_main_status {A} (o : outcome A) : option Z :=
  match o with Done _ => Some 0 | Panic => Some 1 | Diverge => None end.

(** ** What a call asks of the kernel *)

(** The calls of the library with their arguments, in Rust's types. *)
Inductive user_call : Type :=
  | UExit (code : Z) | UYield | UGetpid | UFork | UPs | UExec (ptr len : Z) | UWaitpid (p : Z)
  | UIrqWait (irq : Z) | USbrk (increment : Z)
  | UIpcCallBuf (endpoint : Z) (ws : list Z) (buf len : Z) | UIpcRecvBuf (endpoint buf capacity : Z)
  | UCall (endpoint : Z) (ws : list Z) | URecv (endpoint : Z) | UReply (client : Z) (ws : list Z)
  | URecvBuf (endpoint buf len : Z) | UCallBuf (endpoint : Z) (ws : list Z) (buf len : Z)
  | UReplyBuf (client : Z) (ws : list Z) (buf len : Z).
Definition call_inputs (c : user_call) : list (Z * Z) :=
  match c with
  | UExit code => inputs (exit_stub code)
  | UYield => inputs yield_now_stub
  | UGetpid => inputs getpid_stub
  | UFork => inputs fork_stub
  | UPs => inputs ps_stub
  | UExec ptr len => inputs (exec_stub ptr len)
  | UWaitpid p => inputs (waitpid_stub p)
  | UIrqWait irq => inputs (irq_wait_stub irq)
  | USbrk increment => inputs (sbrk_stub increment)
  | UIpcCallBuf e ws buf len => inputs (ipc_call_buf_stub e ws buf len)
  | UIpcRecvBuf e buf cap => inputs (ipc_recv_buf_stub e buf cap)
  | UCall e ws => inputs (call_stub e ws)
  | URecv e => inputs (recv_stub e)
  | UReply client ws => inputs (reply_stub client ws)
  | URecvBuf e buf len => inputs (recv_buf_stub e buf len)
  | UCallBuf e ws buf len => inputs (call_buf_stub e ws buf len)
  | UReplyBuf client ws buf len => inputs (reply_buf_stub client ws buf len)
  end.
(** The arguments that are narrower than a register are in range, and a message has four words. *)
Definition call_typed (c : user_call) : Prop :=
  match c with
  | UExit code => - 2 ^ 31 ≤ code < 2 ^ 31
  | USbrk increment => - 2 ^ 63 ≤ increment < 2 ^ 63
  | UWaitpid p => is_u32 p
  | UReply p ws | UReplyBuf p ws _ _ => is_u32 p ∧ length ws = 4%nat
  | UCall _ ws | UCallBuf _ ws _ _ | UIpcCallBuf _ ws _ _ => length ws = 4%nat
  | _ => True
  end.

(** The calls for which the kernel takes pages of memory. *)
Definition call_takes_pages (c : user_call) : bool :=
  match c with UFork | UExec _ _ | USbrk _ => true | _ => false end.

(** The kernel's part: the operation of the task manager (or of the loader), called with the arguments the
    program gave, and how its result gets back to the program in [a0]. *)
Definition answer_with (tf v : Z) : K answer := _ ← set_tf tf off_a0 v; mret (Resume tf).
Definition kernel_side (c : user_call) (tf : Z) : K answer :=
  match c with
  | UExit code => task_exit_current code
  | UYield => _ ← set_tf tf off_a0 0; next ← task_schedule tf; mret (Resume next)
  | UGetpid => p ← task_current_pid; answer_with tf p
  | UFork => r ← task_fork tf; answer_with tf (match r with Ok p => p | Err => usize_max end)
  | UPs => _ ← sys_ps; answer_with tf 0
  | UExec ptr len => r ← sys_exec ptr len tf; answer_with tf r
  | UWaitpid p =>
      r ← task_waitpid p tf;
      match r with
      | Reaped code => answer_with tf (u64 code)
      | WaitBlocked next => mret (Resume next)
      | WaitError => answer_with tf usize_max
      end
  | UIrqWait irq =>
      if irq =? UART0_IRQ then
        r ← task_wait_uart_irq tf;
        match r with Ok next => mret (Resume next) | Err => answer_with tf usize_max end
      else answer_with tf usize_max
  | USbrk increment =>
      r ← task_sbrk increment; answer_with tf (match r with Ok v => v | Err => usize_max end)
  | UCall e ws => r ← task_ipc_call e ws tf; finish_ipc tf r
  | URecv e => r ← task_ipc_recv e tf; finish_ipc tf r
  | UReply client ws => r ← task_ipc_reply client ws; answer_with tf (status r)
  | UIpcCallBuf e ws buf len | UCallBuf e ws buf len => r ← task_ipc_call_buf e ws buf len tf; finish_ipc tf r
  | UIpcRecvBuf e buf cap | URecvBuf e buf cap => r ← task_ipc_recv_buf e buf cap tf; finish_ipc tf r
  | UReplyBuf client ws buf len => r ← task_ipc_reply_buf client ws buf len; answer_with tf (status r)
  end.

(** The registers in the frame at [tf]. *)
Definition loaded (s : tsys) (tf : Z) (regs : list (Z * Z)) : Prop :=
  Forall (λ p, load64 (mem (hw s)) (tf +' p.1) = p.2) regs.
(** The state in which the kernel's part runs: [sepc] points behind the [ecall]. *)
Definition after_ecall (tf : Z) (s : tsys) : tsys :=
  put_tf tf off_sepc (load64 (mem (hw s)) (tf +' off_sepc) +' 4) s.

Section abi.
Context (f : initrd) (n : Z).
Implicit Types (s : tsys).

Lemma get_tf_run {A} tf off (k : Z → K A) s :
  mbind k (get_tf tf off) (kern f n s) = k (load64 (mem (hw s)) (tf +' off)) (kern f n s).
Proof. by destruct s. Qed.
Lemma set_tf_run {A} tf off v (k : unit → K A) s :
  mbind k (set_tf tf off v) (kern f n s) = k tt (kern f n (put_tf tf off v s)).
Proof. by destruct s. Qed.
Lemma after_ecall_reg tf off s :
  0 ≤ off < FRAME_SIZE → off ≠ off_sepc →
  load64 (mem (hw (after_ecall tf s))) (tf +' off) = load64 (mem (hw s)) (tf +' off).
Proof.
  intros Ho Hne. unfold after_ecall, put_tf. cbn [hw mem set_mem]. apply load64_store64_ne.
  unfold u64, FRAME_SIZE, FRAME_WORDS, off_sepc in *. intros E.
  assert ((tf + 256 - (tf + off)) mod 2 ^ 64 = 0) as H.
  { rewrite Zminus_mod, <- E, Z.sub_diag. done. }
  replace (tf + 256 - (tf + off)) with (256 - off) in H by lia.
  apply Z.mod_divide in H as [k H]; [|done]. lia.
Qed.
Lemma message_words_run {A} tf (k : list Z → K A) s :
  mbind k (message_words tf) (kern f n s) =
  k [load64 (mem (hw s)) (tf +' off_a1); load64 (mem (hw s)) (tf +' off_a2);
     load64 (mem (hw s)) (tf +' off_a3); load64 (mem (hw s)) (tf +' off_a4)] (kern f n s).
Proof. by destruct s. Qed.

(** The call number selects the branch; the branch finds the arguments. *)
Ltac pick_branch :=
  repeat match goal with
  | |- context [?a =? ?b] =>
      let v := eval vm_compute in (a =? b) in
      match v with true => idtac | false => idtac end; change (a =? b) with v; cbv iota
  end.
Ltac find_arguments :=
  repeat first [rewrite get_tf_run | rewrite message_words_run];
  rewrite ?after_ecall_reg by (done || by vm_compute);
  repeat match goal with E : load64 _ _ = _ |- _ => rewrite E; clear E end.

Lemma as_i32_u64 c : - 2 ^ 31 ≤ c < 2 ^ 31 → as_i32 (u64 c) = c.
Proof.
  intros Hc. unfold as_i32, u32, u64.
  assert ((c mod 2 ^ 64) mod 2 ^ 32 = c mod 2 ^ 32) as -> by (apply Z.mod_mod_divide; by exists (2 ^ 32)).
  destruct (decide (c < 0)).
  - assert (c mod 2 ^ 32 = c + 2 ^ 32) as -> by (symmetry; apply (Z.mod_unique _ _ (-1)); lia).
    destruct (Z.ltb_spec (c + 2 ^ 32) (2 ^ 31)); lia.
  - rewrite Z.mod_small by lia. destruct (Z.ltb_spec c (2 ^ 31)); lia.
Qed.
Lemma as_isize_u64 c : - 2 ^ 63 ≤ c < 2 ^ 63 → as_isize (u64 c) = c.
Proof.
  intros Hc. unfold as_isize, u64. rewrite Z.mod_mod by done. destruct (decide (c < 0)).
  - assert (c mod 2 ^ 64 = c + 2 ^ 64) as -> by (symmetry; apply (Z.mod_unique _ _ (-1)); lia).
    destruct (Z.ltb_spec (c + 2 ^ 64) (2 ^ 63)); lia.
  - rewrite Z.mod_small by lia. destruct (Z.ltb_spec c (2 ^ 63)); lia.
Qed.
Lemma u32_small p : is_u32 p → u32 p = p.
Proof. apply Z.mod_small. Qed.
Lemma four_words (ws : list Z) : length ws = 4%nat → [word ws 0; word ws 1; word ws 2; word ws 3] = ws.
Proof. destruct ws as [|a [|b [|c [|d [|]]]]]; done. Qed.

Lemma stub_handle c tf s :
  call_typed c → loaded s tf (call_inputs c) →
  handle tf (kern f n s) = kernel_side c tf (kern f n (after_ecall tf s)).
Proof.
  intros Hty Hl. unfold handle. rewrite get_tf_run, get_tf_run, set_tf_run. fold (after_ecall tf s).
  destruct c; cbn [call_inputs exit_stub inputs yield_now_stub getpid_stub fork_stub ps_stub exec_stub waitpid_stub
    irq_wait_stub sbrk_stub ipc_call_buf_stub ipc_recv_buf_stub call_stub recv_stub reply_stub recv_buf_stub
    call_buf_stub reply_buf_stub] in Hl; unfold loaded in Hl; rewrite ?Forall_cons in Hl; cbn [fst snd] in Hl;
    destruct_and? Hl; cbn [call_typed] in Hty; destruct_and? Hty;
    match goal with E : load64 _ (_ +' off_a7) = _ |- _ => rewrite E end; pick_branch; find_arguments;
    rewrite ?four_words by done; cbn [kernel_side].
  all: unfold answer_with, sys_exit, sys_getpid, kernel_ipc_call, kernel_ipc_recv, kernel_ipc_reply,
    kernel_ipc_call_buf, kernel_ipc_recv_buf, kernel_ipc_reply_buf; rewrite ?as_i32_u64, ?as_isize_u64, ?u32_small by done.
  all: try reflexivity. by destruct (irq =? UART0_IRQ).
Qed.
(** The answer comes from the kernel's page table; only three calls take pages, so for the others that
    makes no difference. *)
Lemma stub_trap c tf s :
  trap_cause s = UserEcall → call_typed c → loaded s tf (call_inputs c) →
  trap_handler tf (kern f n s) = paged (kernel_side c tf) (kern f n (after_ecall tf s)).
Proof. intros Hc Hty Hl. unfold trap_handler, paged. rewrite trap_ecall, (stub_handle c) by done. reflexivity. Qed.
Lemma kernel_side_quiet c tf : call_takes_pages c = false → keeps same_taken (kernel_side c tf).
Proof. destruct c; try discriminate; intros _; cbn [kernel_side]; steady. Qed.
Lemma stub_trap_quiet c tf s :
  trap_cause s = UserEcall → call_typed c → loaded s tf (call_inputs c) → call_takes_pages c = false →
  trap_handler tf (kern f n s) = kernel_side c tf (kern f n (after_ecall tf s)).
Proof. intros Hc Hty Hl Hq. rewrite (stub_trap c) by done. by apply paged_quiet, kernel_side_quiet. Qed.
End abi.

(** ** A call seen from the program *)

(** The running task [t] has executed the [ecall] of call [c]. *)
Definition issues (s : tsys) (t : Task) (c : user_call) : Prop :=
  in_user s t ∧ trap_cause s = UserEcall ∧ call_typed c ∧ loaded s (trap_frame t) (call_inputs c).
(** What the function returns when [t] goes on with the registers in its frame. *)
Definition result_in {R} (s : tsys) (t : Task) (st : stub R) : outcome R := returned st (reg s t).

Section programs.
Context (f : initrd) (n : Z).
Implicit Types (s : tsys) (t u : Task).

Lemma after_ecall_self tf s : self (after_ecall tf s) = self s.
Proof. done. Qed.
(** From the trap on, the kernel's part runs in a consistent kernel. *)
Lemma issued s t (c : user_call) :
  kernel_ok s → issues s t c → call_takes_pages c = false → let s1 := after_ecall (trap_frame t) s in
  kernel_ok s1 ∧ in_user s1 t ∧
  ∀ Q, wp (kernel_side c (trap_frame t)) Q (kern f n s1) → wp (trap_handler (trap_frame t)) Q (kern f n s).
Proof.
  intros Hk (Hu & Hc & Hty & Hl) Hq s1. destruct (put_tf_ok t off_sepc (load64 (mem (hw s)) (trap_frame t +' off_sepc) +' 4) s Hk Hu ltac:(by vm_compute)) as [Hk1 Hu1].
  split; [exact Hk1|]. split; [exact Hu1|]. intros Q. unfold wp. by rewrite (stub_trap_quiet f n c).
Qed.
Lemma task_layout s i t : kernel_ok s → tasks (self s) !! i = Some (Some t) → layout_ok t.
Proof. intros Hk Ht. apply (spaces_task _ _ (k_spaces _ Hk) i t Ht). Qed.
Lemma user_layout s t : kernel_ok s → in_user s t → layout_ok t.
Proof. intros Hk (i & _ & Ht & _). by apply (task_layout s i). Qed.

(** Registers and fields of the frame. *)
Lemma reg_fields s t :
  layout_ok t → let fr := frame_at (mem (hw s)) (trap_frame t) in
  reg s t off_a0 = tf_a0 fr ∧ reg s t off_a1 = tf_a1 fr ∧ reg s t off_a2 = tf_a2 fr ∧
  reg s t off_a3 = tf_a3 fr ∧ reg s t off_a4 = tf_a4 fr ∧ reg s t off_a5 = tf_a5 fr.
Proof.
  intros Hl fr. unfold reg.
  assert (∀ off, 0 ≤ off < FRAME_SIZE → trap_frame t +' off = trap_frame t + off) as E by (intros; by apply frame_field).
  rewrite !E by by vm_compute. done.
Qed.
Lemma reg_a0_put s t v : reg (put_tf (trap_frame t) off_a0 v s) t off_a0 = v.
Proof. apply load64_store64_eq. Qed.

(** The program goes on at once, with [v] in [a0]. *)
Definition answered (s1 : tsys) (t : Task) (v : Z) (s' : tsys) : Prop :=
  kernel_ok s' ∧ in_user s' t ∧ self s' = self s1 ∧ reg s' t off_a0 = v.
Lemma answer_with_wp s t v (Q : answer → kernel → Prop) :
  kernel_ok s → in_user s t →
  (∀ s', answered s t v s' → hw s' = set_mem (λ m, store64 m (trap_frame t +' off_a0) v) (hw s) →
     Q (Resume (trap_frame t)) (kern f n s')) →
  wp (answer_with (trap_frame t) v) Q (kern f n s).
Proof.
  intros Hk Hu HQ. apply wp_bind, wp_set_tf, wp_ret.
  destruct (put_tf_ok t off_a0 v s Hk Hu ltac:(by vm_compute)) as [Hk' Hu'].
  apply HQ; [|done]. split; [done|]. split; [done|]. split; [done|]. apply reg_a0_put.
Qed.

(** [ipc::call]. *)
Definition in_call (e : Z) (c c1 : Task) : Prop :=
  pid c1 = pid c ∧ state c1 = Sleeping ∧ waiting_for c1 = Some (IpcCall e).
(** The message of [sender] is in the hands of the owner, if that waited in [recv], or the last in the queue. *)
Definition message_sent (e sender : Z) (ws : list Z) (ep : Endpoint) (s s' : tsys) : Prop :=
  if bool_decide (waiting_receiver ep = Some (owner ep)) then
    ∃ j u u', tasks (self s) !! j = Some (Some u) ∧ pid u = owner ep ∧
      tasks (self s') !! j = Some (Some u') ∧ same_space u u' ∧ active_state (state u') = true ∧
      result_in s' u' (recv_stub e) = Done (Ok (sender, ws)) ∧
      endpoint_at (self s') e = Some (set_waiting None ep)
  else ∃ q, endpoint_at (self s') e = Some (set_pending q ep) ∧
      queue_list q = queue_list (pending ep) ++ [mkMessage sender ws 0].
Lemma recv_result s u e sender ws :
  layout_ok u → is_u32 sender → length ws = 4%nat → has_message (mem (hw s)) u sender ws →
  result_in s u (recv_stub e) = Done (Ok (sender, ws)).
Proof.
  intros Hl Hs Hws (H0 & H1 & H2 & H3 & H4). destruct (reg_fields s u Hl) as (E0 & E1 & E2 & E3 & E4 & _).
  unfold result_in. cbn [recv_stub returned]. rewrite E0, E1, E2, E3, E4, H0, H1, H2, H3, H4.
  rewrite (proj2 (Z.eqb_neq sender uipc_ERROR)) by (unfold is_u32, uipc_ERROR, usize_max in *; lia).
  by rewrite u32_small, four_words.
Qed.
Lemma layout_same_space t t' : same_space t t' → layout_ok t → layout_ok t'.
Proof.
  intros (E1 & E2 & E3 & E4 & E5 & E6 & E7 & E8) [].
  split; by rewrite ?E1, ?E2, ?E3, ?E4, ?E5, ?E6, ?E7, ?E8.
Qed.
Lemma call_stub_wp s (c : Task) e ws :
  kernel_ok s → issues s c (UCall e ws) → is_u32 (pid c) →
  wp (trap_handler (trap_frame c)) (λ a k, ∃ fp s', a = Resume fp ∧ k = kern f n s' ∧ switched fp s' ∧
    match endpoint_at (self s) e with
    | Some ep =>
        if (owner ep =? pid c) || is_full (pending ep) then
          answered s c usize_max s' ∧ fp = trap_frame c ∧ result_in s' c (call_stub e ws) = Done Err
        else (∃ i c1, tasks (self s) !! i = Some (Some c) ∧ tasks (self s') !! i = Some (Some c1) ∧
            in_call e c c1 ∧ same_space c c1) ∧
          message_sent e (pid c) ws ep s s'
    | None => answered s c usize_max s' ∧ fp = trap_frame c ∧ result_in s' c (call_stub e ws) = Done Err
    end) (kern f n s).
Proof.
  intros Hk Hi Hpid. pose proof Hi as (_ & _ & Hws & _). cbn [call_typed] in Hws.
  destruct (issued s c _ Hk Hi eq_refl) as (Hk1 & Hu1 & Hrun). apply Hrun. clear Hrun. cbn [kernel_side].
  set (s1 := after_ecall (trap_frame c) s) in *. apply wp_bind, wp_locked.
  eapply wp_mono; [by apply ipc_call_wp|]. intros [|fp|] s'; cbn beta iota.
  - intros [].
  - intros (Hsw & ep & Hep & Hown & Hfull & (i & c1 & Hci & Hc1 & Hp & Hs & Hw & Hss & _) & Hd).
    apply wp_ret. exists fp, s'. do 3 (split; [done|]). change (endpoint_at (self s) e = Some ep) in Hep. rewrite Hep.
    rewrite (proj2 (Z.eqb_neq _ _)), Hfull by congruence. cbn [orb].
    split; [by exists i, c1|]. unfold call_delivered in Hd. unfold message_sent. case_bool_decide.
    + destruct Hd as (j & u & u' & Hu & Hpu & Hu' & Hssu & Ha & _ & Hmsg & Hep'). exists j, u, u'.
      do 5 (split; [done|]). split; [|done]. apply recv_result; [|done..].
      apply (task_layout s' j u'); [apply Hsw|done].
    + destruct Hd as (q & _ & _ & Hep' & Hq & _). by exists q.
  - intros [-> Hr]. cbn [finish_ipc]. apply answer_with_wp; [done|done|]. intros s' Ha Hh.
    assert (switched (trap_frame c) s') as Hsw by (destruct Ha as (? & ? & _); by apply in_user_switched).
    exists (trap_frame c), s'. do 3 (split; [done|]).
    assert (result_in s' c (call_stub e ws) = Done Err) as Hres.
    { unfold result_in. cbn [call_stub returned]. destruct Ha as (_ & _ & _ & ->). done. }
    change (endpoint_at (self s1) e) with (endpoint_at (self s) e) in Hr.
    destruct (endpoint_at (self s) e) as [ep|] eqn:Hep; [|done].
    assert ((owner ep =? pid c) || is_full (pending ep) = true) as ->; [|done].
    destruct Hr as [-> | ->]; [by rewrite Z.eqb_refl|by rewrite orb_true_r].
Qed.

(** [ipc::recv]. *)
Lemma recv_stub_wp s t e :
  kernel_ok s → issues s t (URecv e) →
  (∀ ep m rest, endpoint_at (self s) e = Some ep → queue_list (pending ep) = m :: rest →
     is_u32 (sender m) ∧ length (words m) = 4%nat) →
  wp (trap_handler (trap_frame t)) (λ a k, ∃ fp s', a = Resume fp ∧ k = kern f n s' ∧ switched fp s' ∧
    match endpoint_at (self s) e with
    | Some ep =>
        if owner ep =? pid t then
          match queue_list (pending ep) with
          | m :: rest => in_user s' t ∧ fp = trap_frame t ∧
              result_in s' t (recv_stub e) = Done (Ok (sender m, words m)) ∧
              ∃ q, self s' = with_endpoint e (set_pending q) (self s) ∧ queue_list q = rest
          | [] => endpoint_at (self s') e = Some (set_waiting (Some (pid t)) ep) ∧
              ∃ i t', tasks (self s) !! i = Some (Some t) ∧ tasks (self s') !! i = Some (Some t') ∧
                pid t' = pid t ∧ state t' = Sleeping ∧ waiting_for t' = Some (IpcRecv e)
          end
        else answered s t usize_max s' ∧ fp = trap_frame t ∧ result_in s' t (recv_stub e) = Done Err
    | None => answered s t usize_max s' ∧ fp = trap_frame t ∧ result_in s' t (recv_stub e) = Done Err
    end) (kern f n s).
Proof.
  intros Hk Hi Hmsgs. destruct (issued s t _ Hk Hi eq_refl) as (Hk1 & Hu1 & Hrun). apply Hrun. clear Hrun. cbn [kernel_side].
  set (s1 := after_ecall (trap_frame t) s) in *. apply wp_bind, wp_locked.
  eapply wp_mono; [by apply ipc_recv_wp|]. intros [|fp|] s'; cbn beta iota.
  - intros (Hk' & Hu' & ep & m & q & Hep & Hown & Hq & Hs' & _ & Hmsg). apply wp_ret.
    exists (trap_frame t), s'. do 2 (split; [done|]). split; [by apply in_user_switched|].
    change (endpoint_at (self s) e = Some ep) in Hep. rewrite Hep, Hown, Z.eqb_refl, Hq. do 2 (split; [done|]).
    destruct (Hmsgs ep m (queue_list q) Hep Hq) as [Hs Hws].
    split; [|by exists q]. apply recv_result; [by apply (user_layout s')|done..].
  - intros (Hsw & ep & Hep & Hown & Hq & Hep' & i & t' & Ht & Ht' & Hp & Hs & Hw & _). apply wp_ret.
    exists fp, s'. do 3 (split; [done|]). change (endpoint_at (self s) e = Some ep) in Hep.
    rewrite Hep, Hown, Z.eqb_refl, Hq. split; [done|]. by exists i, t'.
  - intros [-> Hr]. cbn [finish_ipc]. apply answer_with_wp; [done|done|]. intros s' Ha _.
    assert (switched (trap_frame t) s') as Hsw by (destruct Ha as (? & ? & _); by apply in_user_switched).
    exists (trap_frame t), s'. do 3 (split; [done|]).
    assert (result_in s' t (recv_stub e) = Done Err) as Hres.
    { unfold result_in. cbn [recv_stub returned]. destruct Ha as (_ & _ & _ & ->). done. }
    change (endpoint_at (self s1) e) with (endpoint_at (self s) e) in Hr.
    destruct (endpoint_at (self s) e) as [ep|]; [|done]. by rewrite (proj2 (Z.eqb_neq _ _)) by by apply Hr.
Qed.

(** [ipc::reply]. *)
Lemma reply_stub_wp s t client ws :
  kernel_ok s → issues s t (UReply client ws) →
  wp (trap_handler (trap_frame t)) (λ a k, ∃ s', a = Resume (trap_frame t) ∧ k = kern f n s' ∧
    kernel_ok s' ∧ in_user s' t ∧
    ((∃ i c, reply_slot (self s) client i c ∧ state c = Sleeping ∧
        result_in s' t (reply_stub client ws) = Done (Ok tt) ∧ self s' = woken i (self s) ∧
        tasks (self s') !! i = Some (Some (wake_task c)) ∧
        ∀ e w, result_in s' (wake_task c) (call_stub e w) = Done (if word ws 0 =? usize_max then Err else Ok ws)) ∨
     answered s t usize_max s' ∧ result_in s' t (reply_stub client ws) = Done Err ∧
       ∀ i c, reply_slot (self s) client i c → state c ≠ Sleeping)) (kern f n s).
Proof.
  intros Hk Hi. pose proof Hi as (_ & _ & [_ Hws] & _).
  destruct (issued s t _ Hk Hi eq_refl) as (Hk1 & Hu1 & Hrun). apply Hrun. clear Hrun. cbn [kernel_side].
  set (s1 := after_ecall (trap_frame t) s) in *. apply wp_bind, wp_locked.
  eapply wp_mono; [by apply ipc_reply_wp|]. intros [[]|] s2; cbn beta iota.
  - intros (Hk2 & Hcur & i & c & Hslot & Hs & Hself & Hhw).
    destruct Hu1 as (j & Hj & Ht & Hpt & Hst & Hid). pose proof Hslot as (Hci & _).
    assert (i ≠ j) as Hne by (intros ->; congruence).
    assert (tasks (self s2) !! j = Some (Some t)) as Ht2 by (rewrite Hself; cbn; by rewrite alter_lookup_other).
    assert (tasks (self s2) !! i = Some (Some (wake_task c))) as Hc2 by (rewrite Hself; by apply alter_lookup).
    assert (in_user s2 t) as Hu2.
    { exists j. split; [|by rewrite Hcur]. unfold current_index. rewrite Hcur, Hpt. apply task_index_unique; [apply Hk2|done]. }
    apply answer_with_wp; [done|done|]. intros s' (Hk' & Hu' & Hself' & Ha0) Hh.
    exists s'. do 4 (split; [done|]). left. exists i, c. do 2 (split; [done|]).
    split; [unfold result_in; cbn [reply_stub returned]; by rewrite Ha0|]. split; [by rewrite Hself', Hself|]. split; [by rewrite Hself'|].
    intros e w. pose proof (task_layout s2 i _ Hk2 Hc2) as Hlc. pose proof (user_layout s2 t Hk2 Hu2) as Hlt.
    assert (frame_at (mem (hw s')) (trap_frame (wake_task c)) = frame_at (reply_mem (trap_frame c) ws (mem (hw s1))) (trap_frame c)) as Hfr.
    { rewrite Hh, Hhw. apply (frame_at_stack_out _ _ (wake_task c) t); [done|done| |].
      - by apply (stacks_differ (hw s2) (tasks (self s2)) i j); [apply Hk2|..].
      - intros a Ha. by apply (field_store_out t). }
    destruct (reg_fields s' (wake_task c) Hlc) as (E0 & E1 & E2 & E3 & _).
    destruct (reply_mem_fields c ws (mem (hw s1)) (task_layout s1 i c Hk1 Hci)) as (F0 & F1 & F2 & F3).
    unfold result_in. cbn [call_stub returned]. rewrite E0, E1, E2, E3, Hfr, F0, F1, F2, F3. unfold uipc_ERROR.
    by rewrite (four_words ws).
  - intros [-> Hno]. apply answer_with_wp; [done|done|]. intros s' Ha _. pose proof Ha as (Hk' & Hu' & _ & Ha0).
    exists s'. do 4 (split; [done|]). right. split; [done|]. split; [|done].
    unfold result_in. cbn [reply_stub returned]. by rewrite Ha0.
Qed.

(** [exit] and [waitpid]. *)
Lemma exit_stub_wp s t code i :
  kernel_ok s → issues s t (UExit code) → current_index (self s) = Some i →
  wp (trap_handler (trap_frame t)) (λ a k, ∃ fp s' z, a = Resume fp ∧ k = kern f n s' ∧ switched fp s' ∧
    tasks (self s') !! i = Some (Some z) ∧ state z = Zombie ∧ exit_code z = code ∧ pid z = pid t ∧
    ∀ j u, i ≠ j → tasks (self s) !! j = Some (Some u) → parent_pid t = Some (pid u) →
      if waits_child (pid t) u then
        ∃ u', tasks (self s') !! j = Some (Some u') ∧ active_state (state u') = true ∧ waiting_for u' = None ∧
          result_in s' u' (waitpid_stub (pid t)) = Done code
      else parent_pid z = Some (pid u)) (kern f n s).
Proof.
  intros Hk Hi Hcur. pose proof Hi as (_ & _ & Hcode & _). cbn [call_typed] in Hcode.
  destruct (issued s t _ Hk Hi eq_refl) as (Hk1 & Hu1 & Hrun). apply Hrun. clear Hrun. cbn [kernel_side]. unfold task_exit_current.
  apply wp_bind, wp_locked. eapply wp_mono; [by apply (exit_current_wp code _ t i)|].
  intros o s' (fp & z & -> & Hsw & Hz & Hzs & Hzc & Hzp & Htold & _). apply wp_ret.
  exists fp, s', z. do 7 (split; [done|]). intros j u Hne Hu Hpar.
  destruct (Htold j u Hne Hu Hpar) as (z' & Hz' & Hcase). rewrite Hz in Hz'. injection Hz' as <-.
  destruct (waits_child _ _); [|done]. destruct Hcase as (_ & Ha0 & u' & Hu' & _ & Hss & Ha & Hw).
  exists u'. do 3 (split; [done|]). unfold result_in. cbn [waitpid_stub returned].
  destruct (reg_fields s' u') as (-> & _); [apply (task_layout s' j u'); [apply Hsw|done]|].
  assert (trap_frame u' = trap_frame u) as -> by apply Hss. rewrite Ha0. f_equal. apply as_isize_u64. lia.
Qed.
Lemma waitpid_stub_wp s t p i z :
  kernel_ok s → issues s t (UWaitpid p) → tasks (self s) !! i = Some (Some z) → pid z = p →
  parent_pid z = Some (pid t) → state z = Zombie → - 2 ^ 63 ≤ exit_code z < 2 ^ 63 →
  wp (trap_handler (trap_frame t)) (λ a k, ∃ s', a = Resume (trap_frame t) ∧ k = kern f n s' ∧ kernel_ok s' ∧ in_user s' t ∧
    self s' = set_tasks (<[i := None]>) (self s) ∧ result_in s' t (waitpid_stub p) = Done (exit_code z)) (kern f n s).
Proof.
  intros Hk Hi Hz Hp Hpar Hzs Hc. pose proof (tm_pids _ (ok_mid _ (k_tm _ Hk))) as Hun.
  destruct (issued s t _ Hk Hi eq_refl) as (Hk1 & Hu1 & Hrun). apply Hrun. clear Hrun. cbn [kernel_side].
  apply wp_bind, wp_locked. eapply wp_mono; [by apply waitpid_wp|]. intros [code|fp|] s2; cbn beta iota.
  - intros (Hk2 & Hu2 & i' & z' & Hz' & Hp' & _ & _ & -> & Hself & _).
    assert (i' = i) as -> by (apply (Hun i' i z' z); [done|done|congruence]).
    change (tasks (self s) !! i = Some (Some z')) in Hz'. rewrite Hz in Hz'. injection Hz' as <-.
    apply answer_with_wp; [done|done|]. intros s' (Hk' & Hu' & Hself' & Ha0) _. exists s'. do 4 (split; [done|]).
    split; [by rewrite Hself', Hself|]. unfold result_in. cbn [waitpid_stub returned]. rewrite Ha0. f_equal. by apply as_isize_u64.
  - intros (_ & (j & c & Hj & Hpc & _ & Hcs) & _). exfalso. change (tasks (self s) !! j = Some (Some c)) in Hj.
    assert (j = i) as -> by (apply (Hun j i c z); [done|done|congruence]). rewrite Hz in Hj. injection Hj as <-. done.
  - intros [_ Hno]. exfalso. by apply (Hno i z).
Qed.
End programs.

(** ** What programs can rely on *)

(** [C7] The two sides of the system call interface agree.  Whenever a program has executed the
    [ecall] of a function of the user library, with arguments in the range of their Rust types,
    the kernel's trap handler runs exactly the operation the function stands for, with the
    arguments of the program (signs and narrow integers restored), from the state in which the
    program will go on behind the [ecall]: numbers, argument registers and conversions of
    the two sides match for all seventeen functions.  It runs on the kernel's page table, which
    matters only to [fork], [exec] and [sbrk], that take pages of memory. *)
Theorem stubs_match_kernel c f n s tf :
  trap_cause s = UserEcall → call_typed c → loaded s tf (call_inputs c) →
  trap_handler tf (kern f n s) = paged (kernel_side c tf) (kern f n (after_ecall tf s)) ∧
  (call_takes_pages c = false → trap_handler tf (kern f n s) = kernel_side c tf (kern f n (after_ecall tf s))).
Proof. intros Hc Hty Hl. split; [by apply stub_trap|by apply stub_trap_quiet]. Qed.

(** [C5] A remote procedure call, seen from the two programs.  A client's [ipc::call] with four words
    on an endpoint it does not own and whose queue has room does not return: the client sleeps,
    another task runs, and the message is with the server (as the result [Ok] of the [ipc::recv]
    it sleeps in) or last in the endpoint's queue.  Whenever later the server's [ipc::recv] finds
    that message first, it returns [Ok] of the client's PID and the four words.  Whenever later,
    while the client still sleeps in the call, the server calls [ipc::reply] with four words, that
    returns [Ok], the client can run again, and its [ipc::call] returns [Ok] of the words of the
    reply (an [Err] only if the first word of the reply is the error code itself). *)
Theorem rpc_correct f n s c e ws ep :
  kernel_ok s → issues s c (UCall e ws) → is_u32 (pid c) →
  endpoint_at (self s) e = Some ep → owner ep ≠ pid c → is_full (pending ep) = false →
  ∃ fp s1 i c1, trap_handler (trap_frame c) (kern f n s) = Done (Resume fp, kern f n s1) ∧ switched fp s1 ∧
    tasks (self s) !! i = Some (Some c) ∧ tasks (self s1) !! i = Some (Some c1) ∧ in_call e c c1 ∧ same_space c c1 ∧
    message_sent e (pid c) ws ep s s1 ∧
    (∀ n2 s2 v ep2 m rest, kernel_ok s2 → issues s2 v (URecv e) → endpoint_at (self s2) e = Some ep2 →
       owner ep2 = pid v → queue_list (pending ep2) = m :: rest → sender m = pid c → words m = ws →
       ∃ s3, trap_handler (trap_frame v) (kern f n2 s2) = Done (Resume (trap_frame v), kern f n2 s3) ∧
         kernel_ok s3 ∧ in_user s3 v ∧ tasks (self s3) = tasks (self s2) ∧
         result_in s3 v (recv_stub e) = Done (Ok (pid c, ws))) ∧
    (∀ n2 s2 v ep2 c2 ws', kernel_ok s2 → issues s2 v (UReply (pid c) ws') → endpoint_at (self s2) e = Some ep2 →
       owner ep2 = pid v → tasks (self s2) !! i = Some (Some c2) → in_call e c c2 →
       ∃ s3, trap_handler (trap_frame v) (kern f n2 s2) = Done (Resume (trap_frame v), kern f n2 s3) ∧
         kernel_ok s3 ∧ in_user s3 v ∧ result_in s3 v (reply_stub (pid c) ws') = Done (Ok tt) ∧
         tasks (self s3) !! i = Some (Some (wake_task c2)) ∧
         result_in s3 (wake_task c2) (call_stub e ws) = Done (if word ws' 0 =? usize_max then Err else Ok ws')).
Proof.
  intros Hk Hi Hpid Hep Hown Hfull. pose proof Hi as (_ & _ & Hws & _). cbn [call_typed] in Hws.
  pose proof (call_stub_wp f n s c e ws Hk Hi Hpid) as H. apply wp_Done in H as (a & k & E & fp & s1 & -> & -> & Hsw & H).
  rewrite Hep, Hfull, (proj2 (Z.eqb_neq _ _) Hown) in H. destruct H as ((i & c1 & Hc & Hc1 & Hin & Hss) & Hsent).
  exists fp, s1, i, c1. do 7 (split; [done|]). clear E. split.
  - intros n2 s2 v ep2 m rest Hk2 Hi2 Hep2 Hown2 Hq Hm Hmw.
    pose proof (recv_stub_wp f n2 s2 v e Hk2 Hi2) as H. rewrite Hep2, Hown2, Z.eqb_refl, Hq, Hm, Hmw in H.
    apply wp_Done in H as (a & k & E2 & fp' & s3 & -> & -> & Hsw3 & Hu3 & -> & Hres & q & Hs3 & _).
    + exists s3. split; [done|]. split; [apply Hsw3|]. split; [done|]. split; [by rewrite Hs3|]. exact Hres.
    + intros ep' m' rest' [= <-] E'. rewrite Hq in E'. injection E' as <- <-. rewrite Hm, Hmw. exact (conj Hpid Hws).
  - intros n2 s2 v ep2 c2 ws' Hk2 Hi2 Hep2 Hown2 Hc2 (Hp2 & Hs2 & Hw2). pose proof Hi2 as ((j & _ & _ & Hcur & _) & _).
    assert (reply_slot (self s2) (pid c) i c2) as Hslot by (split; [done|]; split; [done|]; exists e, ep2; by rewrite Hown2).
    pose proof (reply_stub_wp f n2 s2 v (pid c) ws' Hk2 Hi2) as H.
    apply wp_Done in H as (a & k & E2 & s3 & -> & -> & Hk3 & Hu3 & [H|(_ & _ & Hno)]); [|by destruct (Hno i c2)].
    destruct H as (i' & c' & (Hc' & Hp' & _) & _ & Hres & _ & Hwoken & Hcall).
    assert (i' = i) as -> by (apply (tm_pids _ (ok_mid _ (k_tm _ Hk2)) i' i c' c2); [done|done|congruence]).
    rewrite Hc2 in Hc'. injection Hc' as <-. exists s3. do 5 (split; [done|]). apply Hcall.
Qed.

(** [C6] A child's exit status reaches its parent, whichever comes first.  When a child calls [exit(code)]
    while its parent sleeps in [waitpid] on it, the parent can run again and its [waitpid] returns
    [code]; otherwise the child stays a zombie of the parent, and whenever the parent later calls
    [waitpid] on it, that returns [code] at once and the slot is free.  [code] is any [i32],
    negative ones included. *)
Theorem exit_status_correct f n s t code i j u :
  kernel_ok s → issues s t (UExit code) → current_index (self s) = Some i →
  i ≠ j → tasks (self s) !! j = Some (Some u) → parent_pid t = Some (pid u) →
  ∃ fp s1 z, trap_handler (trap_frame t) (kern f n s) = Done (Resume fp, kern f n s1) ∧ switched fp s1 ∧
    tasks (self s1) !! i = Some (Some z) ∧ state z = Zombie ∧
    if waits_child (pid t) u then
      ∃ u', tasks (self s1) !! j = Some (Some u') ∧ active_state (state u') = true ∧
        result_in s1 u' (waitpid_stub (pid t)) = Done code
    else ∀ n2 s2 v, kernel_ok s2 → issues s2 v (UWaitpid (pid t)) → pid v = pid u → tasks (self s2) !! i = Some (Some z) →
      ∃ s3, trap_handler (trap_frame v) (kern f n2 s2) = Done (Resume (trap_frame v), kern f n2 s3) ∧
        kernel_ok s3 ∧ in_user s3 v ∧ tasks (self s3) !! i = Some None ∧
        result_in s3 v (waitpid_stub (pid t)) = Done code.
Proof.
  intros Hk Hi Hcur Hne Hu Hpar. pose proof Hi as (_ & _ & Hcode & _). cbn [call_typed] in Hcode.
  pose proof (exit_stub_wp f n s t code i Hk Hi Hcur) as H.
  apply wp_Done in H as (a & k & E & fp & s1 & z & -> & -> & Hsw & Hz & Hzs & Hzc & Hzp & Htold).
  specialize (Htold j u Hne Hu Hpar). exists fp, s1, z. do 4 (split; [done|]). clear E. destruct (waits_child _ _).
  - destruct Htold as (u' & Hu' & Ha & _ & Hres). by exists u'.
  - intros n2 s2 v Hk2 Hi2 Hv Hz2. pose proof (waitpid_stub_wp f n2 s2 v (pid t) i z Hk2 Hi2 Hz2 Hzp) as H.
    rewrite Hv, Hzc in H. specialize (H Htold Hzs ltac:(lia)).
    apply wp_Done in H as (a & k & E2 & s3 & -> & -> & Hk3 & Hu3 & Hs3 & Hres). exists s3. do 3 (split; [done|]).
    split; [|done]. rewrite Hs3. cbn. apply list_lookup_insert_eq. by eapply lookup_lt_Some.
Qed.

(** ** The demo's programs *)

(** The running task [t] loads the registers of call [c] and executes [ecall]. *)
Definition load_regs (p : Z) (regs : list (Z * Z)) (m : memory) : memory :=
  foldr (λ r m, store64 m (p +' r.1) r.2) m regs.
Definition enter_call (t : Task) (c : user_call) (s : tsys) : tsys :=
  mkTsys (self s) (set_csrs (λ _, {[SCAUSE := 8]}) (set_mem (load_regs (trap_frame t) (call_inputs c)) (hw s))).

Lemma load_regs_frame t regs m a :
  layout_ok t → Forall (λ r, 0 ≤ r.1 < FRAME_SIZE) regs → ¬ in_page (kernel_stack t) a →
  load64 (load_regs (trap_frame t) regs m) a = load64 m a.
Proof.
  intros Hl Hr Ha. induction Hr as [|r regs Hr _ IH]; [done|]. cbn [load_regs foldr].
  rewrite (field_store_out t) by done. exact IH.
Qed.
Lemma load_regs_loaded t regs m :
  layout_ok t → Forall (λ r, 0 ≤ r.1 < FRAME_SIZE ∧ r.1 mod 8 = 0) regs → NoDup (fst <$> regs) →
  Forall (λ r, load64 (load_regs (trap_frame t) regs m) (trap_frame t +' r.1) = r.2) regs.
Proof.
  intros Hl. induction 1 as [|[off v] regs [Hr _] Hregs IH]; intros Hnd; [done|].
  cbn [fmap list_fmap fst] in Hnd. apply NoDup_cons in Hnd as [Hni Hnd]. constructor; cbn [load_regs foldr fst snd].
  - apply load64_store64_eq.
  - apply Forall_forall. intros r Hin. pose proof Hregs as Hregs'. rewrite Forall_forall in Hregs'.
    destruct (Hregs' r Hin) as [Hr' _]. rewrite load64_store64_ne.
    + specialize (IH Hnd). rewrite Forall_forall in IH. by apply IH.
    + rewrite !(fun o H => proj1 (frame_field t o Hl H)) by done. intros E. apply Hni.
      assert (off = r.1) as -> by lia. apply list_elem_of_fmap. by exists r.
Qed.
Lemma call_inputs_regs c :
  Forall (λ r, 0 ≤ r.1 < FRAME_SIZE ∧ r.1 mod 8 = 0) (call_inputs c) ∧ NoDup (fst <$> call_inputs c).
Proof.
  destruct c; (split; [repeat constructor; by vm_compute|apply (bool_decide_unpack _); by vm_compute]).
Qed.
Lemma entered s t (c : user_call) :
  kernel_ok s → in_user s t → call_typed c → let s' := enter_call t c s in kernel_ok s' ∧ issues s' t c.
Proof.
  intros Hk Hu Hty s'. pose proof (user_layout s t Hk Hu) as Hl. destruct (call_inputs_regs c) as [Hr Hnd].
  assert (kernel_ok s') as Hk'.
  { split; [apply Hk|]. pose proof Hu as (i & _ & Ht & _).
    apply (spaces_ok_mem (set_mem (load_regs (trap_frame t) (call_inputs c)) (hw s))); [done|done|].
    apply (spaces_ok_frame_write _ _ i t); [apply Hk|done|]. intros m a _ Ha.
    apply load_regs_frame; [done| |done]. apply (Forall_impl _ _ _ Hr). by intros r []. }
  split; [done|]. split; [exact Hu|]. split; [done|]. split; [done|]. by apply load_regs_loaded.
Qed.
(** The running task with another parent. *)
Lemma reparented s t x :
  kernel_ok s → in_user s t → ∃ s', kernel_ok s' ∧ in_user s' (set_parent_pid x t) ∧
    ∃ i, current_index (self s) = Some i ∧ current_index (self s') = Some i ∧
    ∀ j, i ≠ j → tasks (self s') !! j = tasks (self s) !! j.
Proof.
  intros Hk Hu. pose proof Hu as (i & Hi & Ht & _). pose proof (k_spaces _ Hk) as Hsp.
  assert (same_space t (set_parent_pid x t)) as Hss by done.
  assert (space_step (hw s) (hw s) t (set_parent_pid x t)) as Hstep.
  { split; [done| |done|done| |].
    - apply (same_space_ok _ t); [done|]. by apply (spaces_task _ _ Hsp i).
    - intros b Hb. rewrite (same_space_owns _ t) in Hb by done. split; [|by left]. by apply (spaces_alloc _ _ Hsp i t).
    - intros va Hva. exact (spaces_apart _ _ Hsp i t va Ht Hva). }
  destruct (kernel_ok_space s i t (set_parent_pid x) (hw s) Hk Hu Hi ltac:(done) eq_refl Hstep) as [Hk' Hu'].
  eexists. split; [exact Hk'|]. split; [exact Hu'|]. exists i. split; [done|]. split.
  - destruct Hu' as (i' & Hi' & Ht' & _). rewrite Hi'. f_equal. cbn [self set_tasks tasks] in Ht'.
    apply (tm_pids _ (ok_mid _ (k_tm _ Hk')) i' i (set_parent_pid x t) (set_parent_pid x t)); [done| |done].
    by apply alter_lookup.
  - intros j Hne. cbn. by rewrite alter_lookup_other.
Qed.

(** The demo's client calls [ipc::call]. *)
Lemma stubs_match_kernel_witness :
  ∃ s t, trap_handler (trap_frame t) (kern initrd_empty 0 s) =
    kernel_side (UCall 1 [10; 20; 30; 40]) (trap_frame t) (kern initrd_empty 0 (after_ecall (trap_frame t) s)).
Proof.
  destruct demo_kernel as (s & t & Hk & Hu & _).
  destruct (entered s t (UCall 1 [10; 20; 30; 40]) Hk Hu eq_refl) as [_ (_ & Hc & Hty & Hl)].
  exists (enter_call t (UCall 1 [10; 20; 30; 40]) s), t.
  exact (proj2 (stubs_match_kernel (UCall 1 [10; 20; 30; 40]) initrd_empty 0 _ (trap_frame t) Hc Hty Hl) eq_refl).
Defined.
(** The demo's client calls its server; the server, asked by the buffer call of [demo_called], replies. *)
Lemma rpc_correct_witness :
  ∃ s c fp s1 c1 s2 v c2 s3,
    trap_handler (trap_frame c) (kern initrd_empty 0 s) = Done (Resume fp, kern initrd_empty 0 s1) ∧ in_call 1 c c1 ∧
    trap_handler (trap_frame v) (kern initrd_empty 0 s2) = Done (Resume (trap_frame v), kern initrd_empty 0 s3) ∧
    result_in s3 v (reply_stub 2 [1; 2; 3; 4]) = Done (Ok tt) ∧
    result_in s3 (wake_task c2) (call_stub 1 [10; 20; 30; 40]) = Done (Ok [1; 2; 3; 4]).
Proof.
  destruct demo_kernel_state as (s0 & t & Hd). pose proof Hd as [Hk Hu Hpid _ _ _ _ _ _ (ep & Hep & Ho & Hq & _) (t0 & t1 & Hts & _) _].
  destruct (entered s0 t (UCall 1 [10; 20; 30; 40]) Hk Hu eq_refl) as [Hk0 Hi0].
  assert (is_u32 (pid t)) as H32 by (rewrite Hpid; unfold is_u32; lia).
  assert (owner ep ≠ pid t) as Hne by (rewrite Ho, Hpid; done).
  assert (is_full (pending ep) = false) as Hfull.
  { rewrite is_full_spec by apply (tm_endpoint _ (ok_mid _ (k_tm _ Hk)) 1 ep Hep). by rewrite Hq. }
  destruct (rpc_correct initrd_empty 0 _ t 1 [10; 20; 30; 40] ep Hk0 Hi0 H32 Hep Hne Hfull)
    as (fp & s1 & i & c1 & E1 & _ & Hti & _ & Hin & _ & _ & _ & Hreply).
  rewrite Hpid in Hreply.
  destruct (demo_called_from s0 t Hd) as (s2 & v & c2 & [_ Hu2 _ _ _ Hk2 Hv Hpv (((Hc2 & Hpc2 & Hslot) & Hw2) & Hs2) _]).
  destruct Hslot as (e & ep2 & Hw2' & Hep2 & Hcur2). rewrite Hw2 in Hw2'. injection Hw2' as <-.
  destruct (entered s2 v (UReply 2 [1; 2; 3; 4]) Hk2 Hv) as [Hk3 Hi3]; [by split|].
  assert (owner ep2 = pid v) as Hown2 by (destruct Hv as (j & _ & _ & Hj & _); congruence).
  assert (i = 2%nat) as ->.
  { apply (tm_pids _ (ok_mid _ (k_tm _ Hk)) i 2%nat t t); [exact Hti| |reflexivity]. rewrite Hts. reflexivity. }
  assert (in_call 1 t c2) as Hin2 by (split; [congruence|split; [exact Hs2|exact Hw2]]).
  destruct (Hreply 0 _ v ep2 c2 [1; 2; 3; 4] Hk3 Hi3 Hep2 Hown2 Hc2 Hin2) as (s3 & E3 & _ & _ & Hr1 & _ & Hr2).
  eexists _, t, fp, s1, c1, _, v, c2, s3. exact (conj E1 (conj Hin (conj E3 (conj Hr1 Hr2)))).
Defined.
(** The demo's client, as a child of the server, exits with -7; the server is not in [waitpid]. *)
Lemma exit_status_correct_witness :
  ∃ s t fp s1 z i, trap_handler (trap_frame t) (kern initrd_empty 0 s) = Done (Resume fp, kern initrd_empty 0 s1) ∧
    tasks (self s1) !! i = Some (Some z) ∧ state z = Zombie ∧
    ∀ n2 s2 v, kernel_ok s2 → issues s2 v (UWaitpid 2) → pid v = 1 → tasks (self s2) !! i = Some (Some z) →
      ∃ s3, trap_handler (trap_frame v) (kern initrd_empty n2 s2) = Done (Resume (trap_frame v), kern initrd_empty n2 s3) ∧
        result_in s3 v (waitpid_stub 2) = Done (-7).
Proof.
  destruct demo_kernel as (s0 & t0 & Hk0 & Hu0 & Hpid & _ & u & Hu1 & Hpu & Hsu).
  destruct (reparented s0 t0 (Some 1) Hk0 Hu0) as (s & Hk & Hu & i & Hi0 & Hi & Hoth).
  destruct (entered s _ (UExit (-7)) Hk Hu) as [Hk1 Hi1]; [split; reflexivity || discriminate|].
  assert (i ≠ 1%nat) as Hne.
  { intros ->. destruct Hu0 as (j & Hj & Ht & _ & Hr & _). rewrite Hi0 in Hj. injection Hj as <-. congruence. }
  assert (tasks (self s) !! 1%nat = Some (Some u)) as Hu' by (rewrite Hoth by exact Hne; exact Hu1).
  destruct (exit_status_correct initrd_empty 0 _ _ (-7) i 1%nat u Hk1 Hi1 Hi Hne Hu') as (fp & s1 & z & E & _ & Hz & Hzs & Hrest).
  { rewrite Hpu. reflexivity. }
  assert (waits_child (pid (set_parent_pid (Some 1) t0)) u = false) as Hw
    by (unfold waits_child; rewrite bool_decide_false by congruence; reflexivity).
  rewrite Hw in Hrest. change (pid (set_parent_pid (Some 1) t0)) with (pid t0) in Hrest. rewrite Hpid, Hpu in Hrest.
  eexists _, _, fp, s1, z, i. split; [exact E|]. split; [exact Hz|]. split; [exact Hzs|].
  intros n2 s2 v Hk2 Hi2 Hv Hz2. destruct (Hrest n2 s2 v Hk2 Hi2 Hv Hz2) as (s3 & E3 & _ & _ & _ & Hres).
  exists s3. exact (conj E3 Hres).
Defined.
