(* ===== verification/FatDisk.v ===== *)
(** The file server's RAM disk, the FAT32 geometry and the file allocation table
    ([src/user/programs/fs-server/src/main.rs], the first part).

    [RAMDISK] is a byte array of 4 MB, here a finite map from offsets to bytes that are 0
    where absent.  Every function of the server that touches it is a computation in the
    state monad [FS] over that map; the volume's geometry ([Fat32Fs]) never changes after
    [open] and is passed as an argument, as [&self] is in the source. *)

From S2P Require Import Prelude Bytes.

Definition BLOCK_SIZE : Z := 512.
Definition RAMDISK_SIZE : Z := 4 * 1024 * 1024.
Definition RAMDISK_SECTORS : Z := RAMDISK_SIZE / BLOCK_SIZE.

Abbreviation disk := (gmap Z Z).
Abbreviation FS := (st disk).

(** The byte at offset [a], [len] bytes from [off], and [bs] written at [off]. *)
Definition dbyte (d : disk) (a : Z) : Z := default 0 (d !! a).
Definition disk_bytes (d : disk) (off len : Z) : list Z := dbyte d <$> seqZ off len.
Fixpoint disk_put (d : disk) (off : Z) (bs : list Z) : disk :=
  match bs with
  | [] => d
  | b :: bs => disk_put (<[off := b]> d) (off + 1) bs
  end.

(** [disk_read(sector, buf)] for a buffer of [len] bytes: the bytes read, or [None] for
    [false].  The slice of the array panics if the end wraps around. *)
Definition disk_read (sector len : Z) : FS (option (list Z)) := λ d,
  let offset := sector *' BLOCK_SIZE in
  if RAMDISK_SIZE <? offset +' len then Done (None, d)
  else if offset <=? offset +' len then Done (Some (disk_bytes d offset len), d)
  else Panic.
Definition disk_write (sector : Z) (buf : list Z) : FS bool := λ d,
  let offset := sector *' BLOCK_SIZE in
  let len := Z.of_nat (length buf) in
  if RAMDISK_SIZE <? offset +' len then Done (false, d)
  else if offset <=? offset +' len then Done (true, disk_put d offset buf)
  else Panic.
Definition zero_block : list Z := replicate (Z.to_nat BLOCK_SIZE) 0.

(** ** The BIOS parameter block *)

Record Fat32Bpb : Type := mkBpb {
  jmp_boot : list Z; oem_name : list Z; bytes_per_sector : Z; sectors_per_cluster : Z;
  reserved_sector_count : Z; num_fats : Z; root_entry_count : Z; total_sectors_16 : Z;
  media : Z; fat_size_16 : Z; sectors_per_track : Z; num_heads : Z; hidden_sectors : Z;
  total_sectors_32 : Z; fat_size_32 : Z; ext_flags : Z; fs_version : Z;
  bpb_root_cluster : Z; fs_info : Z; backup_boot_sector : Z; reserved : list Z;
  drive_number : Z; reserved1 : Z; boot_signature : Z; volume_serial : Z;
  volume_label : list Z; fs_type : list Z;
}.
(** The packed structure read from the first bytes of a sector. *)
Definition read_bpb (b : list Z) : Fat32Bpb :=
  mkBpb (take 3 b) (take 8 (drop 3 b)) (le 2 b 11) (byte_at b 13) (le 2 b 14) (byte_at b 16)
    (le 2 b 17) (le 2 b 19) (byte_at b 21) (le 2 b 22) (le 2 b 24) (le 2 b 26) (le 4 b 28)
    (le 4 b 32) (le 4 b 36) (le 2 b 40) (le 2 b 42) (le 4 b 44) (le 2 b 48) (le 2 b 50)
    (take 12 (drop 52 b)) (byte_at b 64) (byte_at b 65) (byte_at b 66) (le 4 b 67)
    (take 11 (drop 71 b)) (take 8 (drop 82 b)).

Definition FAT32_EOC : Z := 0x0FFFFFF8.
Definition FAT32_FREE : Z := 0.
Definition ATTR_DIRECTORY : Z := 0x10.
Definition ATTR_ARCHIVE : Z := 0x20.

Record Fat32Fs : Type := mkFs {
  bpb : Fat32Bpb;
  fat_start : Z;
  data_start : Z;
  total_clusters : Z;
  root_cluster : Z;
}.
Definition spc (self : Fat32Fs) : Z := sectors_per_cluster (bpb self).

(** [open]: a volume with no sectors per cluster divides by zero. *)
Definition fs_open (bpb_sector : list Z) : outcome (option Fat32Fs) :=
  let b := read_bpb bpb_sector in
  if negb (bytes_per_sector b =? BLOCK_SIZE) then Done None
  else if negb (root_entry_count b =? 0) || negb (fat_size_16 b =? 0) then Done None
  else if (num_fats b =? 0) || (fat_size_32 b =? 0) then Done None
  else
    let fat_start := reserved_sector_count b in
    let data_start := fat_start +' num_fats b *' fat_size_32 b in
    if sectors_per_cluster b =? 0 then Panic
    else
      let total_clusters := (total_sectors_32 b -' data_start) / sectors_per_cluster b in
      Done (Some (mkFs b fat_start data_start (u32 total_clusters) (bpb_root_cluster b))).

(** ** The file allocation table *)

Definition cluster_to_sector (self : Fat32Fs) (cluster : Z) : Z :=
  data_start self +' (cluster -' 2) *' spc self.

Definition fat_next (self : Fat32Fs) (cluster : Z) : FS (option Z) :=
  let fat_offset := cluster *' 4 in
  let sector := fat_start self +' fat_offset / BLOCK_SIZE in
  let offset_in_sector := fat_offset mod BLOCK_SIZE in
  buf ←! disk_read sector BLOCK_SIZE;
  mret (Some (Z.land (le 4 buf offset_in_sector) 0x0FFFFFFF)).

Definition fat_set (self : Fat32Fs) (cluster value : Z) : FS bool :=
  let fat_offset := cluster *' 4 in
  let sector := fat_start self +' fat_offset / BLOCK_SIZE in
  let offset_in_sector := fat_offset mod BLOCK_SIZE in
  o ← disk_read sector BLOCK_SIZE;
  match o with
  | None => mret false
  | Some buf =>
      buf ← unwrap (copy_into buf offset_in_sector (le_bytes 4 value));
      disk_write sector buf
  end.

(** The search over [n] clusters from [c], and over [2..total_clusters]. *)
Fixpoint find_free_from (n : nat) (self : Fat32Fs) (c : Z) : FS (option Z) :=
  match n with
  | O => mret None
  | S n =>
      o ← fat_next self c;
      match o with
      | Some val => if val =? FAT32_FREE then mret (Some c) else find_free_from n self (c + 1)
      | None => find_free_from n self (c + 1)
      end
  end.
Definition find_free_cluster (self : Fat32Fs) : FS (option Z) :=
  find_free_from (Z.to_nat (total_clusters self - 2)) self 2.

(** The sectors of a cluster filled with zeros, whatever [disk_write] answers. *)
Definition zero_cluster (self : Fat32Fs) (cluster : Z) : FS unit :=
  let sector := cluster_to_sector self cluster in
  foreach (seqZ 0 (spc self)) (λ i, _ ← disk_write (sector +' i) zero_block; mret tt).

Definition alloc_cluster (self : Fat32Fs) : FS (option Z) :=
  cluster ←! find_free_cluster self;
  ok ← fat_set self cluster FAT32_EOC;
  if negb ok then mret None
  else
    _ ← zero_cluster self cluster;
    mret (Some cluster).

(** [Some(next) if next >= 2 && next < FAT32_EOC]. *)
Definition chain_next (o : option Z) : option Z :=
  match o with
  | Some next => if (2 <=? next) && (next <? FAT32_EOC) then Some next else None
  | None => None
  end.

(** [free_chain] frees as it goes; [fuel] bounds the loop and [count] is the result. *)
Fixpoint free_chain_loop (fuel : nat) (self : Fat32Fs) (cur count : Z) : FS Z :=
  match fuel with
  | O => diverge
  | S fuel =>
      o ← fat_next self cur;
      match o with
      | Some next =>
          _ ← fat_set self cur FAT32_FREE;
          let count := u32 (count + 1) in
          match chain_next (Some next) with
          | Some next => free_chain_loop fuel self next count
          | None => mret count
          end
      | None => mret count
      end
  end.
(** Each step clears a word of the disk that was not zero, or ends. *)
Definition FREE_FUEL : nat := Z.to_nat (RAMDISK_SIZE / 4 + 2).
Definition free_chain (self : Fat32Fs) (cluster : Z) : FS Z :=
  if cluster <? 2 then mret 0 else free_chain_loop FREE_FUEL self cluster 0.
