(* ===== verification/FatFacts.v ===== *)
(** Facts about the RAM disk and the allocation table ([FatDisk.v]): what each operation
    changes, byte by byte, on a volume whose geometry fits the disk; allocation, cluster
    chains and their release. *)

From S2P Require Import Prelude Bytes FatDisk.

(** ** Bytes of the disk *)

(** The [n]-byte little-endian integer at offset [a] of the disk. *)
Fixpoint dle (n : nat) (d : disk) (a : Z) : Z :=
  match n with
  | O => 0
  | S n => dbyte d a + 256 * dle n d (a + 1)
  end.
Definition bytes_ok (d : disk) : Prop := ∀ a, is_byte (dbyte d a).

Section bytes.
Implicit Types (d : disk) (bs : list Z).

Lemma dbyte_put d off bs a :
  dbyte (disk_put d off bs) a =
    if decide (off ≤ a < off + Z.of_nat (length bs)) then byte_at bs (a - off) else dbyte d a.
Proof.
  revert d off. induction bs as [|b bs IH]; intros d off; cbn [disk_put length].
  { by rewrite decide_False by lia. }
  rewrite IH. destruct (decide (a = off)) as [->|Hne].
  - rewrite decide_False, decide_True by lia. rewrite Z.sub_diag. unfold dbyte.
    by rewrite lookup_insert_eq.
  - assert (dbyte (<[off:=b]> d) a = dbyte d a) as -> by (unfold dbyte; by rewrite lookup_insert_ne).
    destruct (decide (off + 1 ≤ a < off + 1 + Z.of_nat (length bs))).
    + rewrite decide_True by lia. unfold byte_at.
      replace (Z.to_nat (a - off)) with (S (Z.to_nat (a - (off + 1)))) by lia. done.
    + by rewrite decide_False by lia.
Qed.
Lemma length_disk_bytes d off len : length (disk_bytes d off len) = Z.to_nat len.
Proof. unfold disk_bytes. by rewrite length_fmap, length_seqZ. Qed.
Lemma byte_at_disk_bytes d off len k :
  0 ≤ k < len → byte_at (disk_bytes d off len) k = dbyte d (off + k).
Proof.
  intros Hk. unfold byte_at, disk_bytes. rewrite list_lookup_fmap, lookup_seqZ_lt by lia. cbn.
  by rewrite Z2Nat.id by lia.
Qed.
Lemma le_disk_bytes n d off len o :
  0 ≤ o → o + Z.of_nat n ≤ len → le n (disk_bytes d off len) o = dle n d (off + o).
Proof.
  revert o. induction n as [|n IH]; intros o Ho Hn; [done|]. cbn [le dle].
  rewrite byte_at_disk_bytes, IH by lia. by rewrite Z.add_assoc.
Qed.
Lemma dle_ext n d d' a :
  (∀ b, a ≤ b < a + Z.of_nat n → dbyte d' b = dbyte d b) → dle n d' a = dle n d a.
Proof.
  revert a. induction n as [|n IH]; intros a H; [done|]. cbn [dle]. rewrite H by lia.
  rewrite IH; [done|]. intros b Hb. apply H. lia.
Qed.
Lemma dle_bound n d a : bytes_ok d → 0 ≤ dle n d a < 256 ^ Z.of_nat n.
Proof.
  intros H. revert a. induction n as [|n IH]; intros a; [cbn; lia|]. cbn [dle].
  specialize (IH (a + 1)). destruct (H a). rewrite Nat2Z.inj_succ, Z.pow_succ_r by lia. lia.
Qed.
Lemma dle_written n d a v :
  0 ≤ v → (∀ k, 0 ≤ k < Z.of_nat n → dbyte d (a + k) = v / 256 ^ k mod 256) →
  dle n d a = v mod 256 ^ Z.of_nat n.
Proof.
  revert a v. induction n as [|n IH]; intros a v Hv H.
  { cbn. by rewrite Z.mod_1_r. }
  cbn [dle]. rewrite (IH (a + 1) (v / 256)).
  - pose proof (H 0 ltac:(lia)) as H0. rewrite Z.add_0_r in H0. rewrite H0.
    rewrite Z.pow_0_r, Z.div_1_r, Nat2Z.inj_succ, Z.pow_succ_r by lia.
    rewrite (Z.rem_mul_r v 256) by lia. done.
  - apply Z.div_pos; lia.
  - intros k Hk. specialize (H (k + 1) ltac:(lia)).
    replace (a + 1 + k) with (a + (k + 1)) by lia. rewrite H.
    rewrite Z.div_div by lia. do 2 f_equal. rewrite Z.add_comm, Z.pow_add_r by lia. done.
Qed.
Lemma dle_zero n d a : (∀ k, 0 ≤ k < Z.of_nat n → dbyte d (a + k) = 0) → dle n d a = 0.
Proof.
  intros H. rewrite (dle_written n d a 0); [by rewrite Z.mod_0_l by lia|lia|].
  intros k Hk. by rewrite H, Z.div_0_l, Z.mod_0_l by lia.
Qed.
Lemma dbyte_zero_block k : byte_at zero_block k = 0.
Proof.
  unfold byte_at, zero_block. destruct (_ !! Z.to_nat k) eqn:E; [|done].
  by apply lookup_replicate in E as [-> _].
Qed.
Lemma length_zero_block : length zero_block = Z.to_nat BLOCK_SIZE.
Proof. apply length_replicate. Qed.

(** Sector numbers the geometry can produce do not wrap around. *)
Lemma disk_read_wp sector Q d :
  0 ≤ sector < 2 ^ 40 →
  Q (if decide (sector < RAMDISK_SECTORS)
     then Some (disk_bytes d (sector * BLOCK_SIZE) BLOCK_SIZE) else None) d →
  wp (disk_read sector BLOCK_SIZE) Q d.
Proof.
  intros Hs HQ. unfold wp, disk_read, u64, RAMDISK_SIZE, BLOCK_SIZE in *.
  assert (RAMDISK_SECTORS = 8192) as E by done. rewrite E in HQ.
  rewrite (Z.mod_small (sector * 512)), Z.mod_small by lia.
  destruct (Z.ltb_spec (4 * 1024 * 1024) (sector * 512 + 512)).
  - by rewrite decide_False in HQ by lia.
  - rewrite decide_True in HQ by lia. by rewrite (proj2 (Z.leb_le _ _)) by lia.
Qed.
Lemma disk_write_wp sector buf (Q : bool → disk → Prop) d :
  0 ≤ sector < 2 ^ 40 → length buf = Z.to_nat BLOCK_SIZE →
  (if decide (sector < RAMDISK_SECTORS) then Q true (disk_put d (sector * BLOCK_SIZE) buf)
   else Q false d) →
  wp (disk_write sector buf) Q d.
Proof.
  intros Hs Hl HQ. unfold wp, disk_write. rewrite Hl. unfold u64, RAMDISK_SIZE, BLOCK_SIZE in *.
  rewrite Z2Nat.id by lia. assert (RAMDISK_SECTORS = 8192) as E by done. rewrite E in HQ.
  rewrite (Z.mod_small (sector * 512)), Z.mod_small by lia.
  destruct (Z.ltb_spec (4 * 1024 * 1024) (sector * 512 + 512)).
  - by rewrite decide_False in HQ by lia.
  - rewrite decide_True in HQ by lia. by rewrite (proj2 (Z.leb_le _ _)) by lia.
Qed.
End bytes.

(** ** Geometry and the table *)

(** The table and the data area fit the disk and do not overlap. *)
Record volume_ok (fs : Fat32Fs) : Prop := {
  vo_start : 0 ≤ fat_start fs < 2 ^ 16;
  vo_spc : 0 < spc fs < 256;
  vo_total : 2 ≤ total_clusters fs;
  vo_fat : fat_start fs * BLOCK_SIZE + (total_clusters fs + 2) * 4 ≤ data_start fs * BLOCK_SIZE;
  vo_data : data_start fs + total_clusters fs * spc fs ≤ RAMDISK_SECTORS;
}.
(** A cluster of the data area. *)
Definition valid_cluster (fs : Fat32Fs) (c : Z) : Prop := 2 ≤ c < total_clusters fs + 2.
(** The address of an entry of the table, its value, and the address of a cluster. *)
Definition fat_addr (fs : Fat32Fs) (c : Z) : Z := fat_start fs * BLOCK_SIZE + c * 4.
Definition fat_value (fs : Fat32Fs) (d : disk) (c : Z) : Z := Z.land (dle 4 d (fat_addr fs c)) 0x0FFFFFFF.
Definition cluster_addr (fs : Fat32Fs) (c : Z) : Z := (data_start fs + (c - 2) * spc fs) * BLOCK_SIZE.
Definition in_fat (fs : Fat32Fs) (c a : Z) : Prop := fat_addr fs c ≤ a < fat_addr fs c + 4.
Definition in_cluster (fs : Fat32Fs) (c a : Z) : Prop :=
  cluster_addr fs c ≤ a < cluster_addr fs c + spc fs * BLOCK_SIZE.
#[export] Instance in_fat_dec fs c a : Decision (in_fat fs c a).
Proof. unfold in_fat. apply _. Defined.
#[export] Instance in_cluster_dec fs c a : Decision (in_cluster fs c a).
Proof. unfold in_cluster. apply _. Defined.

Section table.
Context (fs : Fat32Fs).
Implicit Types (d : disk) (c : Z).

Definition fat_readable (c : Z) : Prop := fat_start fs + c * 4 / BLOCK_SIZE < RAMDISK_SECTORS.

Lemma fat_offsets c :
  0 ≤ fat_start fs < 2 ^ 16 → is_u32 c →
  fat_start fs +' c *' 4 / BLOCK_SIZE = fat_start fs + c * 4 / BLOCK_SIZE ∧
  0 ≤ fat_start fs + c * 4 / BLOCK_SIZE < 2 ^ 40 ∧
  (c *' 4) mod BLOCK_SIZE = c * 4 mod BLOCK_SIZE ∧
  0 ≤ c * 4 mod BLOCK_SIZE ≤ BLOCK_SIZE - 4 ∧
  (fat_start fs + c * 4 / BLOCK_SIZE) * BLOCK_SIZE + c * 4 mod BLOCK_SIZE = fat_addr fs c.
Proof.
  intros Hs Hc. unfold is_u32, fat_addr, BLOCK_SIZE, u64 in *.
  rewrite (Z.mod_small (c * 4)) by lia.
  pose proof (Z.div_mod (c * 4) 512 ltac:(lia)). pose proof (Z.mod_pos_bound (c * 4) 512 ltac:(lia)).
  assert ((c * 4) mod 512 ≤ 508) as Hm.
  { pose proof (Z.mod_pos_bound c 128 ltac:(lia)).
    replace (c * 4 mod 512) with (c mod 128 * 4); [lia|].
    change 512 with (128 * 4). by rewrite Z.mul_mod_distr_r by lia. }
  rewrite Z.mod_small by lia. repeat split; try lia.
Qed.
Lemma fat_next_wp c (Q : option Z → disk → Prop) d :
  0 ≤ fat_start fs < 2 ^ 16 → is_u32 c →
  (fat_readable c → Q (Some (fat_value fs d c)) d) → (¬ fat_readable c → Q None d) →
  wp (fat_next fs c) Q d.
Proof.
  intros Hs Hc H1 H2. destruct (fat_offsets c Hs Hc) as (E1 & Hb & E2 & Hm & Ea).
  unfold fat_next. rewrite E1, E2. apply wp_otry_bind, disk_read_wp; [done|].
  case_decide as Hr; [|by apply H2].
  cbn beta iota. apply wp_ret. rewrite le_disk_bytes by lia. rewrite Ea. by apply H1.
Qed.
(** Rewriting a sector with new bytes in its slice [off..off + len). *)
Lemma dbyte_put_slice d base buf off bs a :
  copy_into (disk_bytes d base BLOCK_SIZE) off bs = Some buf → 0 ≤ off →
  dbyte (disk_put d base buf) a =
    if decide (base + off ≤ a < base + off + Z.of_nat (length bs)) then byte_at bs (a - (base + off))
    else dbyte d a.
Proof.
  intros E Ho. rewrite dbyte_put. pose proof (length_copy_into _ _ _ _ E) as Hl.
  rewrite Hl, length_disk_bytes. unfold BLOCK_SIZE in *.
  assert (off + Z.of_nat (length bs) ≤ 512) as Hfit.
  { unfold copy_into in E. destruct (0 <=? off); [|done]. rewrite length_disk_bytes in E.
    destruct (off + _ <=? _) eqn:E'; [|done]. apply Z.leb_le in E'. lia. }
  destruct (decide (base ≤ a < base + Z.of_nat (Z.to_nat 512))).
  - rewrite (byte_at_copy_into _ _ _ _ _ E) by lia. case_decide; case_decide; try lia.
    + f_equal. lia.
    + rewrite byte_at_disk_bytes by lia. f_equal. lia.
  - by rewrite decide_False by lia.
Qed.
Lemma fat_set_wp c v (Q : bool → disk → Prop) d :
  0 ≤ fat_start fs < 2 ^ 16 → is_u32 c →
  (fat_readable c → ∀ d', (∀ a, dbyte d' a =
     if decide (in_fat fs c a) then v / 256 ^ (a - fat_addr fs c) mod 256 else dbyte d a) → Q true d') →
  (¬ fat_readable c → Q false d) →
  wp (fat_set fs c v) Q d.
Proof.
  intros Hs Hc H1 H2. destruct (fat_offsets c Hs Hc) as (E1 & Hb & E2 & Hm & Ea).
  unfold fat_set. rewrite E1, E2. apply wp_bind, disk_read_wp; [done|].
  case_decide as Hr; [|by apply wp_ret, H2].
  destruct (copy_into _ _ (le_bytes 4 v)) as [buf|] eqn:E.
  2: { rewrite copy_into_Some in E; [done|lia|]. rewrite length_disk_bytes, length_le_bytes.
       unfold BLOCK_SIZE in *. lia. }
  apply wp_bind, wp_ret, disk_write_wp; [done| |].
  { rewrite (length_copy_into _ _ _ _ E). apply length_disk_bytes. }
  rewrite decide_True by done. apply H1; [done|]. intros a.
  rewrite (dbyte_put_slice d _ _ _ _ _ E) by lia. rewrite length_le_bytes, Ea. unfold in_fat.
  case_decide; case_decide; try lia; try done. by rewrite byte_at_le_bytes by lia.
Qed.
Lemma valid_readable c : volume_ok fs → 0 ≤ c < total_clusters fs + 2 → is_u32 c ∧ fat_readable c.
Proof.
  intros [Hs Hp Ht Hf Hd] Hc. assert (RAMDISK_SECTORS = 8192) as E by done.
  unfold is_u32, fat_readable, BLOCK_SIZE in *. rewrite E in *. split; [nia|].
  pose proof (Z.div_mod (c * 4) 512 ltac:(lia)). pose proof (Z.mod_pos_bound (c * 4) 512 ltac:(lia)).
  nia.
Qed.
Lemma cluster_sector c :
  volume_ok fs → valid_cluster fs c →
  cluster_to_sector fs c * BLOCK_SIZE = cluster_addr fs c ∧
  0 ≤ cluster_to_sector fs c ∧ cluster_to_sector fs c + spc fs ≤ RAMDISK_SECTORS.
Proof.
  intros [Hs Hp Ht Hf Hd] [H1 H2]. assert (RAMDISK_SECTORS = 8192) as E by done. rewrite E in *.
  unfold cluster_to_sector, cluster_addr, u64, BLOCK_SIZE in *.
  rewrite (Z.mod_small (c - 2)) by nia. rewrite (Z.mod_small ((c - 2) * spc fs)) by nia.
  rewrite Z.mod_small by nia. split; [done|]. nia.
Qed.

(** Entries and clusters do not overlap. *)
Lemma in_fat_inj c c' a : in_fat fs c a → in_fat fs c' a → c = c'.
Proof. unfold in_fat, fat_addr. lia. Qed.
Lemma in_cluster_inj c c' a : 0 < spc fs → in_cluster fs c a → in_cluster fs c' a → c = c'.
Proof. unfold in_cluster, cluster_addr, BLOCK_SIZE. nia. Qed.
Lemma fat_not_data c c' a :
  volume_ok fs → c < total_clusters fs + 2 → 2 ≤ c' → in_fat fs c a → ¬ in_cluster fs c' a.
Proof.
  intros [Hs Hp Ht Hf Hd] H1 H2 H3 H4. unfold in_fat, in_cluster, fat_addr, cluster_addr, BLOCK_SIZE in *. nia.
Qed.
Lemma fat_value_ext d d' c : (∀ a, in_fat fs c a → dbyte d' a = dbyte d a) → fat_value fs d' c = fat_value fs d c.
Proof. intros H. unfold fat_value. f_equal. apply dle_ext. exact H. Qed.
Lemma fat_value_written d c v :
  0 ≤ v < 2 ^ 32 → (∀ a, in_fat fs c a → dbyte d a = v / 256 ^ (a - fat_addr fs c) mod 256) →
  fat_value fs d c = Z.land v 0x0FFFFFFF.
Proof.
  intros Hv H. unfold fat_value. rewrite (dle_written 4 d _ v); [|lia|].
  - by rewrite Z.mod_small by lia.
  - intros k Hk. rewrite H by (unfold in_fat; lia). do 3 f_equal. lia.
Qed.
End table.

(** ** Allocation *)

(** The disk after cluster [c] was taken: its entry is the end marker, its data is zero,
    and nothing else changed. *)
Definition taken (fs : Fat32Fs) (c : Z) (d d' : disk) : Prop :=
  ∀ a, dbyte d' a =
    if decide (in_cluster fs c a) then 0
    else if decide (in_fat fs c a) then FAT32_EOC / 256 ^ (a - fat_addr fs c) mod 256
    else dbyte d a.

Section allocation.
Context (fs : Fat32Fs).
Hypothesis Hfs : volume_ok fs.
Implicit Types (d : disk) (c : Z).

Lemma fat_next_valid c (Q : option Z → disk → Prop) d :
  0 ≤ c < total_clusters fs + 2 → Q (Some (fat_value fs d c)) d → wp (fat_next fs c) Q d.
Proof.
  intros Hc HQ. destruct (valid_readable fs c Hfs Hc). apply fat_next_wp; [apply Hfs|done..].
Qed.
Lemma fat_set_valid c v (Q : bool → disk → Prop) d :
  0 ≤ c < total_clusters fs + 2 →
  (∀ d', (∀ a, dbyte d' a =
     if decide (in_fat fs c a) then v / 256 ^ (a - fat_addr fs c) mod 256 else dbyte d a) → Q true d') →
  wp (fat_set fs c v) Q d.
Proof.
  intros Hc HQ. destruct (valid_readable fs c Hfs Hc). apply fat_set_wp; [apply Hfs|done|intros _; exact HQ|done].
Qed.

Lemma find_free_from_wp n : ∀ s d, 2 ≤ s → s + Z.of_nat n ≤ total_clusters fs →
  wp (find_free_from n fs s) (λ r d', d' = d ∧
    match r with
    | Some c => s ≤ c < s + Z.of_nat n ∧ fat_value fs d c = FAT32_FREE ∧
        ∀ c', s ≤ c' < c → fat_value fs d c' ≠ FAT32_FREE
    | None => ∀ c', s ≤ c' < s + Z.of_nat n → fat_value fs d c' ≠ FAT32_FREE
    end) d.
Proof.
  induction n as [|n IH]; intros s d Hs Hn.
  { apply wp_ret. split; [done|]. intros. lia. }
  cbn [find_free_from].
  apply wp_bind, fat_next_valid; [lia|]. cbn beta iota.
  destruct (Z.eqb_spec (fat_value fs d s) FAT32_FREE) as [E|E].
  { apply wp_ret. split; [done|]. split; [lia|]. split; [done|]. intros. lia. }
  eapply wp_mono; [apply (IH (s + 1) d); lia|]. intros [c|] d' [-> H]; (split; [done|]).
  - destruct H as (H1 & H2 & H3). split; [lia|]. split; [done|].
    intros c' Hc'. destruct (decide (c' = s)) as [->|]; [done|]. apply H3. lia.
  - intros c' Hc'. destruct (decide (c' = s)) as [->|]; [done|]. apply H. lia.
Qed.
Lemma find_free_cluster_wp d :
  wp (find_free_cluster fs) (λ r d', d' = d ∧
    match r with
    | Some c => 2 ≤ c < total_clusters fs ∧ fat_value fs d c = FAT32_FREE ∧
        ∀ c', 2 ≤ c' < c → fat_value fs d c' ≠ FAT32_FREE
    | None => ∀ c', 2 ≤ c' < total_clusters fs → fat_value fs d c' ≠ FAT32_FREE
    end) d.
Proof.
  pose proof (vo_total _ Hfs) as Ht. unfold find_free_cluster.
  eapply wp_mono; [apply find_free_from_wp; lia|]. cbv beta. intros r d' [-> H]. split; [done|].
  replace (total_clusters fs) with (2 + Z.of_nat (Z.to_nat (total_clusters fs - 2))) by lia. done.
Qed.

Lemma zero_cluster_wp c (Q : unit → disk → Prop) d :
  valid_cluster fs c →
  (∀ d', (∀ a, dbyte d' a = if decide (in_cluster fs c a) then 0 else dbyte d a) → Q tt d') →
  wp (zero_cluster fs c) Q d.
Proof.
  intros Hc HQ. destruct (cluster_sector fs c Hfs Hc) as (Ea & H0 & H1).
  pose proof (vo_spc _ Hfs) as Hp. assert (RAMDISK_SECTORS = 8192) as E8 by done.
  unfold zero_cluster.
  apply (wp_foreach _ _ (λ done d', ∀ a, dbyte d' a =
    if decide (cluster_addr fs c ≤ a < cluster_addr fs c + Z.of_nat (length done) * BLOCK_SIZE)
    then 0 else dbyte d a)).
  - intros a. cbn. by rewrite decide_False by lia.
  - intros dn x rest d' Hl Hd'.
    assert (x = Z.of_nat (length dn) ∧ Z.of_nat (length dn) < spc fs) as [-> Hx].
    { assert (seqZ 0 (spc fs) !! length dn = Some x) as Hlk by (by rewrite Hl, list_lookup_middle).
      apply lookup_seqZ in Hlk. lia. }
    assert (cluster_to_sector fs c +' Z.of_nat (length dn) = cluster_to_sector fs c + Z.of_nat (length dn)) as ->
      by (unfold u64; apply Z.mod_small; clear -Hx H0 H1 E8 Hp; lia).
    apply wp_bind, disk_write_wp; [lia|apply length_zero_block|]. rewrite decide_True by lia.
    apply wp_ret. intros a. rewrite dbyte_put, length_zero_block, Hd', length_app. cbn [length].
    rewrite Nat2Z.inj_add. unfold BLOCK_SIZE in *. rewrite dbyte_zero_block.
    repeat case_decide; try done; lia.
  - intros d' Hd'. apply HQ. intros a. rewrite Hd', length_seqZ, Z.sub_0_r || rewrite Hd', length_seqZ.
    unfold in_cluster. rewrite Z2Nat.id by lia. done.
Qed.

Lemma alloc_cluster_wp (Q : option Z → disk → Prop) d :
  (∀ c d', 2 ≤ c < total_clusters fs → fat_value fs d c = FAT32_FREE →
     (∀ c', 2 ≤ c' < c → fat_value fs d c' ≠ FAT32_FREE) → taken fs c d d' → Q (Some c) d') →
  ((∀ c, 2 ≤ c < total_clusters fs → fat_value fs d c ≠ FAT32_FREE) → Q None d) →
  wp (alloc_cluster fs) Q d.
Proof.
  intros HS HN. unfold alloc_cluster. apply wp_otry_bind. eapply wp_mono; [apply find_free_cluster_wp|].
  intros [c|] d1 [-> H]; [|by apply HN]. destruct H as (Hc & Hf & Hmin).
  apply wp_bind, fat_set_valid; [lia|]. intros d1 Hd1. cbn [negb].
  apply wp_bind, zero_cluster_wp; [split; lia|]. intros d2 Hd2. apply wp_ret.
  apply HS; [done..|]. intros a. rewrite Hd2. case_decide; [done|]. apply Hd1.
Qed.

(** The table after an allocation. *)
Lemma taken_fat c c' d d' :
  valid_cluster fs c → c' < total_clusters fs + 2 → taken fs c d d' →
  fat_value fs d' c' = if decide (c' = c) then FAT32_EOC else fat_value fs d c'.
Proof.
  intros [H1 H2] Hc' Ht. case_decide as E.
  - subst c'. rewrite (fat_value_written fs d' c FAT32_EOC); [done|done|].
    intros a Ha. rewrite Ht, decide_False, decide_True; [done|done|].
    by apply (fat_not_data fs c c a Hfs).
  - apply fat_value_ext. intros a Ha. rewrite Ht. rewrite decide_False, decide_False; [done| |].
    + intros Ha'. by apply E, (in_fat_inj fs c' c a).
    + by apply (fat_not_data fs c' c a Hfs).
Qed.
End allocation.

(** ** Chains *)

(** [l] is the chain that starts with its head: each entry leads to the next element,
    and the last one to no cluster. *)
Fixpoint chain (fs : Fat32Fs) (d : disk) (l : list Z) : Prop :=
  match l with
  | [] => False
  | c :: l =>
      valid_cluster fs c ∧
      match l with
      | [] => chain_next (Some (fat_value fs d c)) = None
      | c' :: _ => chain_next (Some (fat_value fs d c)) = Some c' ∧ chain fs d l
      end
  end.

Section chains.
Context (fs : Fat32Fs).
Implicit Types (d : disk) (c : Z) (l : list Z).

Lemma chain_valid d l c : chain fs d l → c ∈ l → valid_cluster fs c.
Proof.
  induction l as [|x l IH]; [done|]. intros [Hx H] [->|Hc]%elem_of_cons; [done|].
  destruct l as [|y l]; [by apply elem_of_nil in Hc|]. by apply IH; [apply H|].
Qed.
Lemma chain_unique d c l l' : chain fs d (c :: l) → chain fs d (c :: l') → l = l'.
Proof.
  revert c l'. induction l as [|x l IH]; intros c [|y l'] [_ H] [_ H']; cbn beta iota in H, H'.
  - done.
  - destruct H' as [H' _]. congruence.
  - destruct H as [H _]. congruence.
  - destruct H as [E H], H' as [E' H']. rewrite E in E'. injection E' as ->. f_equal. by apply (IH y).
Qed.
Lemma chain_suffix d l1 c l2 : chain fs d (l1 ++ c :: l2) → chain fs d (c :: l2).
Proof.
  induction l1 as [|x l1 IH]; [done|]. intros [_ H]. apply IH.
  destruct (l1 ++ c :: l2) eqn:E; [by destruct l1|]. apply H.
Qed.
(** A chain that ends visits no cluster twice. *)
Lemma chain_NoDup d l : chain fs d l → NoDup l.
Proof.
  induction l as [|c l IH]; intros H; [constructor|]. constructor.
  - intros Hin. apply list_elem_of_split in Hin as (l1 & l2 & ->).
    pose proof (chain_suffix d (c :: l1) c l2 H) as H2. pose proof (chain_unique d c _ _ H H2) as E.
    apply (f_equal length) in E. rewrite length_app in E. cbn in E. lia.
  - destruct l as [|c' l]; [constructor|]. apply IH, H.
Qed.
Lemma chain_ext d d' l : (∀ c, c ∈ l → fat_value fs d' c = fat_value fs d c) → chain fs d l → chain fs d' l.
Proof.
  induction l as [|c l IH]; [done|]. intros He [Hc H]. split; [done|].
  rewrite He by by left. destruct l as [|c' l]; [done|]. destruct H as [E H].
  split; [done|]. apply IH; [|done]. intros x Hx. apply He. by right.
Qed.
End chains.

(** ** Releasing a chain *)

(** The disk after the clusters of [l] were freed in the table. *)
Definition freed (fs : Fat32Fs) (l : list Z) (d d' : disk) : Prop :=
  ∀ a, dbyte d' a = if decide (Exists (λ c, in_fat fs c a) l) then 0 else dbyte d a.
(** The 32-bit words of the disk that are not zero. *)
Definition DISK_WORDS : Z := RAMDISK_SIZE / 4.
Definition word_used (d : disk) (i : Z) : bool := negb (dle 4 d (4 * i) =? 0).
Definition used_words (d : disk) : Z := countb (word_used d) (seqZ 0 DISK_WORDS).

Section release.
Context (fs : Fat32Fs).
Implicit Types (d : disk) (c : Z) (l : list Z).

Lemma cleared_fat d d' c c' :
  (∀ a, dbyte d' a = if decide (in_fat fs c a) then FAT32_FREE / 256 ^ (a - fat_addr fs c) mod 256 else dbyte d a) →
  fat_value fs d' c' = if decide (c' = c) then 0 else fat_value fs d c'.
Proof.
  intros H. case_decide as E.
  - subst c'. rewrite (fat_value_written fs d' c FAT32_FREE); [done|done|].
    intros a Ha. by rewrite H, decide_True.
  - apply fat_value_ext. intros a Ha. rewrite H, decide_False; [done|].
    intros Ha'. by apply E, (in_fat_inj fs c' c a).
Qed.
Lemma cleared_words d d' c :
  0 ≤ fat_start fs < 2 ^ 16 → is_u32 c → fat_readable fs c → fat_value fs d c ≠ 0 →
  (∀ a, dbyte d' a = if decide (in_fat fs c a) then FAT32_FREE / 256 ^ (a - fat_addr fs c) mod 256 else dbyte d a) →
  used_words d' = used_words d - 1.
Proof.
  intros Hs Hc Hr Hnz H. set (i := fat_start fs * 128 + c).
  assert (fat_addr fs c = 4 * i) as Ei by (unfold fat_addr, i, BLOCK_SIZE; lia).
  assert (0 ≤ i < DISK_WORDS) as Hi.
  { unfold fat_readable, i, is_u32, BLOCK_SIZE in *. assert (RAMDISK_SECTORS = 8192) as E by done.
    assert (DISK_WORDS = 1048576) as E' by done. rewrite E in Hr. rewrite E'.
    pose proof (Z.div_mod (c * 4) 512 ltac:(lia)). pose proof (Z.mod_pos_bound (c * 4) 512 ltac:(lia)). lia. }
  assert (dle 4 d' (4 * i) = 0) as H0.
  { apply dle_zero. intros k Hk. rewrite H, decide_True; [|unfold in_fat; lia].
    unfold FAT32_FREE. by rewrite Z.div_0_l, Z.mod_0_l by lia. }
  assert (dle 4 d (4 * i) ≠ 0) as H1.
  { intros E. apply Hnz. unfold fat_value. rewrite Ei, E. done. }
  unfold used_words. rewrite (countb_flip (word_used d') (word_used d) _ i); [lia|apply NoDup_seqZ| | | |].
  - by apply elem_of_seqZ.
  - unfold word_used. by rewrite H0.
  - unfold word_used. by apply negb_true_iff, Z.eqb_neq.
  - intros j Hj Hne. unfold word_used. f_equal. f_equal. apply dle_ext. intros b Hb.
    rewrite H, decide_False; [done|]. unfold in_fat. lia.
Qed.
Lemma used_words_bound d : 0 ≤ used_words d ≤ DISK_WORDS.
Proof.
  unfold used_words. split; [apply countb_nonneg|]. pose proof (countb_length (word_used d) (seqZ 0 DISK_WORDS)) as H.
  rewrite length_seqZ, Z2Nat.id in H; [done|]. by vm_compute.
Qed.
Lemma free_chain_loop_total fuel c count d :
  0 ≤ fat_start fs < 2 ^ 16 → is_u32 c → used_words d < Z.of_nat fuel →
  wp (free_chain_loop fuel fs c count) (λ _ _, True) d.
Proof.
  intros Hs. revert c count d. induction fuel as [|fuel IH]; intros c count d Hc Hf.
  { pose proof (used_words_bound d). lia. }
  cbn [free_chain_loop]. apply wp_bind, fat_next_wp; [done|done| |intros _; by apply wp_ret].
  intros Hr. cbn beta iota. apply wp_bind, fat_set_wp; [done|done| |done]. intros _ d' Hd'.
  unfold chain_next. destruct ((2 <=? fat_value fs d c) && (fat_value fs d c <? FAT32_EOC)) eqn:E; [|by apply wp_ret].
  apply andb_prop in E as [E1%Z.leb_le E2%Z.ltb_lt]. unfold FAT32_EOC in E2.
  apply IH; [unfold is_u32; lia|].
  rewrite (cleared_words d d' c); [lia|done|done|done|lia|done].
Qed.
Lemma FREE_FUEL_enough d : used_words d < Z.of_nat FREE_FUEL.
Proof.
  pose proof (used_words_bound d) as [_ H]. unfold FREE_FUEL. rewrite Z2Nat.id; [|by vm_compute].
  unfold DISK_WORDS in H. lia.
Qed.

(** Along a chain the loop frees the clusters of the chain. *)
Lemma chain_next_value v c' : chain_next (Some v) = Some c' → v = c'.
Proof. cbn. destruct (_ && _); congruence. Qed.
Lemma free_chain_loop_chain fuel c l count d (Q : Z → disk → Prop) :
  volume_ok fs → chain fs d (c :: l) → (length l < fuel)%nat → 0 ≤ count →
  count + Z.of_nat (length (c :: l)) < 2 ^ 32 →
  (∀ d', freed fs (c :: l) d d' → Q (count + Z.of_nat (length (c :: l))) d') →
  wp (free_chain_loop fuel fs c count) Q d.
Proof.
  intros Hfs. revert c l count d Q. induction fuel as [|fuel IH]; intros c l count d Q Hch Hf H0 Hcount HQ; [lia|].
  pose proof (chain_NoDup _ _ _ Hch) as Hnd. pose proof Hch as [Hc Hrest].
  cbn [free_chain_loop]. apply wp_bind, (fat_next_valid fs Hfs); [unfold valid_cluster in Hc; lia|]. cbn beta iota.
  apply wp_bind, (fat_set_valid fs Hfs); [unfold valid_cluster in Hc; lia|]. intros d1 Hd1. cbn beta.
  cbn [length] in *. assert (u32 (count + 1) = count + 1) as -> by (unfold u32; apply Z.mod_small; lia).
  assert (∀ a, dbyte d1 a = if decide (in_fat fs c a) then 0 else dbyte d a) as Hd1'.
  { intros a. rewrite Hd1. case_decide; [|done]. unfold FAT32_FREE. by rewrite Zdiv_0_l, Zmod_0_l. }
  destruct l as [|c' l].
  - rewrite Hrest. apply wp_ret. replace (count + 1) with (count + Z.of_nat 1) by lia. apply HQ. intros a. rewrite Hd1'.
    case_decide; case_decide as E; try done.
    + exfalso. apply E. by constructor.
    + exfalso. by inversion E as [? ? Hx|? ? Hx]; subst; [done|inversion Hx].
  - destruct Hrest as [Hn Hch']. rewrite Hn. apply (IH c' l); cbn [length] in *; [|lia..|].
    + apply (chain_ext fs d); [|done]. intros x Hx. rewrite (cleared_fat d d1 c x Hd1).
      rewrite decide_False; [done|]. intros ->. by apply NoDup_cons_1_1 in Hnd.
    + intros d' Hd'. replace (count + 1 + Z.of_nat (S (length l))) with (count + Z.of_nat (S (S (length l)))) by lia.
      apply HQ. intros a. rewrite Hd', Hd1'.
      repeat case_decide; rewrite ?Exists_cons in *; tauto || done.
Qed.
Lemma chain_length d l : volume_ok fs → chain fs d l → Z.of_nat (length l) ≤ total_clusters fs.
Proof.
  intros Hfs Hch. pose proof (vo_total _ Hfs).
  assert (l ⊆+ seqZ 2 (total_clusters fs)) as Hsub.
  { apply NoDup_submseteq; [by apply (chain_NoDup fs d)|]. intros x Hx. apply elem_of_seqZ.
    pose proof (chain_valid fs d l x Hch Hx) as [? ?]. lia. }
  apply submseteq_length in Hsub. rewrite length_seqZ in Hsub. lia.
Qed.
End release.
