(* ===== verification/FatFile.v ===== *)
(** File contents on the FAT32 volume: [read_file], [write_file] and [truncate_file]'s
    work on the table ([src/user/programs/fs-server/src/main.rs]).

    A loop over a cluster chain takes a [fuel]: the source's loop ends because the chain
    ends or the buffer is exhausted, and on a damaged volume whose chain is a cycle it
    does not.  A [return] inside a loop is the left value of a sum. *)

From S2P Require Import Prelude Bytes FatDisk.

(** [cur_offset + (s as u32) * BLOCK_SIZE as u32 <= offset]. *)
Definition at_or_before (cur_offset s offset : Z) : bool :=
  u32 (cur_offset + u32 (u32 s * BLOCK_SIZE)) <=? offset.
Definition cluster_size (self : Fat32Fs) : Z := u32 (spc self * BLOCK_SIZE).

(** ** Reading *)

(** To the cluster of [offset]; [None] is [return 0]. *)
Fixpoint read_skip (fuel : nat) (self : Fat32Fs) (offset cur_cluster cur_offset : Z) :
  FS (option (Z * Z)) :=
  match fuel with
  | O => diverge
  | S fuel =>
      if u32 (cur_offset + cluster_size self) <=? offset then
        o ← fat_next self cur_cluster;
        match chain_next o with
        | Some next => read_skip fuel self offset next (u32 (cur_offset + cluster_size self))
        | None => mret None
        end
      else mret (Some (cur_cluster, cur_offset))
  end.

(** The sectors of one cluster.  The state is [(bytes_read, buf)]. *)
Fixpoint read_sectors (ss : list Z) (sector cur_offset offset skip_in_cluster to_read : Z)
    (bytes_read : Z) (buf : list Z) : FS ((Z * list Z) + (Z * list Z)) :=
  match ss with
  | [] => mret (inr (bytes_read, buf))
  | s :: ss =>
      o ← disk_read (sector +' s) BLOCK_SIZE;
      match o with
      | None => mret (inl (bytes_read, buf))
      | Some sec_buf =>
          let start := if at_or_before cur_offset s offset && (bytes_read =? 0)
                       then Z.min skip_in_cluster BLOCK_SIZE else 0 in
          let available := BLOCK_SIZE -' start in
          let remaining := to_read -' bytes_read in
          let n := Z.min available remaining in
          if n =? 0 then
            read_sectors ss sector cur_offset offset skip_in_cluster to_read bytes_read buf
          else
            buf ← unwrap (copy_into buf bytes_read (take (Z.to_nat n) (drop (Z.to_nat start) sec_buf)));
            let bytes_read := bytes_read +' n in
            if to_read <=? bytes_read then mret (inl (bytes_read, buf))
            else read_sectors ss sector cur_offset offset skip_in_cluster to_read bytes_read buf
      end
  end.
Fixpoint read_loop (fuel : nat) (self : Fat32Fs) (offset skip_in_cluster to_read : Z)
    (cur_cluster cur_offset bytes_read : Z) (buf : list Z) : FS (Z * list Z) :=
  match fuel with
  | O => diverge
  | S fuel =>
      if bytes_read <? to_read then
        r ← read_sectors (seqZ 0 (spc self)) (cluster_to_sector self cur_cluster) cur_offset offset
              skip_in_cluster to_read bytes_read buf;
        match r with
        | inl res => mret res
        | inr (bytes_read, buf) =>
            let cur_offset := u32 (cur_offset + cluster_size self) in
            o ← fat_next self cur_cluster;
            match chain_next o with
            | Some next => read_loop fuel self offset skip_in_cluster to_read next cur_offset bytes_read buf
            | None => mret (bytes_read, buf)
            end
        end
      else mret (bytes_read, buf)
  end.
(** The number of bytes read, and the buffer. *)
Definition read_file (fuel : nat) (self : Fat32Fs) (cluster offset file_size : Z) (buf : list Z) :
  FS (Z * list Z) :=
  if (file_size <=? offset) || (cluster <? 2) then mret (0, buf)
  else
    let to_read := Z.min (Z.of_nat (length buf)) (u32 (file_size - offset)) in
    o ← read_skip fuel self offset cluster 0;
    match o with
    | None => mret (0, buf)
    | Some (cur_cluster, cur_offset) =>
        let skip_in_cluster := u32 (offset - cur_offset) in
        read_loop fuel self offset skip_in_cluster to_read cur_cluster cur_offset 0 buf
    end.

(** ** Writing *)

(** The next cluster of the chain, or a new one linked behind [prev_cluster]; [None] if
    no cluster is free. *)
Definition next_or_alloc (self : Fat32Fs) (cur_cluster : Z) : FS (option Z) :=
  o ← fat_next self cur_cluster;
  match chain_next o with
  | Some next => mret (Some next)
  | None =>
      new ←! alloc_cluster self;
      _ ← fat_set self cur_cluster new;
      mret (Some new)
  end.

Fixpoint write_skip (fuel : nat) (self : Fat32Fs) (offset cur_cluster cur_offset : Z) :
  FS (option (Z * Z)) :=
  match fuel with
  | O => diverge
  | S fuel =>
      if u32 (cur_offset + cluster_size self) <=? offset then
        o ← next_or_alloc self cur_cluster;
        match o with
        | Some next => write_skip fuel self offset next (u32 (cur_offset + cluster_size self))
        | None => mret None
        end
      else mret (Some (cur_cluster, cur_offset))
  end.

(** The sectors of one cluster; the state is [bytes_written], and [inl] returns it. *)
Fixpoint write_sectors (ss : list Z) (sector cur_offset offset skip_in_cluster : Z) (buf : list Z)
    (bytes_written : Z) : FS (Z + Z) :=
  match ss with
  | [] => mret (inr bytes_written)
  | s :: ss =>
      let first := at_or_before cur_offset s offset && (bytes_written =? 0) in
      let start := if first then Z.min skip_in_cluster BLOCK_SIZE else 0 in
      sec_buf ← (if first && (0 <? start) then
                   o ← disk_read (sector +' s) BLOCK_SIZE; mret (default zero_block o)
                 else mret zero_block);
      let available := BLOCK_SIZE -' start in
      let remaining := Z.of_nat (length buf) -' bytes_written in
      let n := Z.min available remaining in
      if n =? 0 then write_sectors ss sector cur_offset offset skip_in_cluster buf bytes_written
      else
        sec_buf ← unwrap (copy_into sec_buf start (take (Z.to_nat n) (drop (Z.to_nat bytes_written) buf)));
        ok ← disk_write (sector +' s) sec_buf;
        if negb ok then mret (inl bytes_written)
        else
          let bytes_written := bytes_written +' n in
          if Z.of_nat (length buf) <=? bytes_written then mret (inl bytes_written)
          else write_sectors ss sector cur_offset offset skip_in_cluster buf bytes_written
  end.
Fixpoint write_loop (fuel : nat) (self : Fat32Fs) (offset skip_in_cluster : Z) (buf : list Z)
    (cur_cluster cur_offset bytes_written : Z) : FS (Z * Z) :=
  match fuel with
  | O => diverge
  | S fuel =>
      if bytes_written <? Z.of_nat (length buf) then
        r ← write_sectors (seqZ 0 (spc self)) (cluster_to_sector self cur_cluster) cur_offset offset
              skip_in_cluster buf bytes_written;
        match r with
        | inl bytes_written => mret (bytes_written, cur_cluster)
        | inr bytes_written =>
            let cur_offset := u32 (cur_offset + cluster_size self) in
            o ← next_or_alloc self cur_cluster;
            match o with
            | Some next => write_loop fuel self offset skip_in_cluster buf next cur_offset bytes_written
            | None => mret (bytes_written, cur_cluster)
            end
        end
      else mret (bytes_written, cur_cluster)
  end.
(** The number of bytes written and the cluster the write ended in. *)
Definition write_file (fuel : nat) (self : Fat32Fs) (cluster offset : Z) (buf : list Z) : FS (Z * Z) :=
  if cluster <? 2 then mret (0, cluster)
  else
    o ← write_skip fuel self offset cluster 0;
    match o with
    | None => mret (0, cluster)
    | Some (cur_cluster, cur_offset) =>
        let skip_in_cluster := u32 (offset - cur_offset) in
        write_loop fuel self offset skip_in_cluster buf cur_cluster cur_offset 0
    end.
