(* ===== verification/FileFacts.v ===== *)
(** Reading and writing file contents ([FatFile.v]) against the contents of a cluster
    chain: what [read_file] returns, and what [write_file] leaves on the disk. *)

From S2P Require Import Prelude Bytes FatDisk FatFacts FatFile.

(** The data of a cluster, and of a chain. *)
Definition cluster_bytes (fs : Fat32Fs) (d : disk) (c : Z) : list Z :=
  disk_bytes d (cluster_addr fs c) (spc fs * BLOCK_SIZE).
Definition content (fs : Fat32Fs) (d : disk) (l : list Z) : list Z := concat (cluster_bytes fs d <$> l).

Section reading.
Context (fs : Fat32Fs).
Hypothesis Hfs : volume_ok fs.
(** One sector per cluster, as [format_fat32] writes it. *)
Hypothesis Hspc : spc fs = 1.
Implicit Types (d : disk) (c : Z) (l buf : list Z).

Lemma cluster_size_512 : cluster_size fs = 512.
Proof. unfold cluster_size. by rewrite Hspc. Qed.
Lemma length_cluster_bytes d c : length (cluster_bytes fs d c) = 512%nat.
Proof. unfold cluster_bytes. by rewrite length_disk_bytes, Hspc. Qed.
Lemma length_content d l : length (content fs d l) = (512 * length l)%nat.
Proof.
  induction l as [|c l IH]; [done|]. unfold content. cbn. fold (content fs d l).
  rewrite length_app, length_cluster_bytes, IH. lia.
Qed.
Lemma content_cons d c l : content fs d (c :: l) = cluster_bytes fs d c ++ content fs d l.
Proof. done. Qed.
Lemma content_app d l l' : content fs d (l ++ l') = content fs d l ++ content fs d l'.
Proof. unfold content. by rewrite fmap_app, concat_app. Qed.
Lemma cluster_read c (Q : option (list Z) → disk → Prop) d :
  valid_cluster fs c → Q (Some (cluster_bytes fs d c)) d →
  wp (disk_read (cluster_to_sector fs c +' 0) BLOCK_SIZE) Q d.
Proof.
  intros Hc HQ. destruct (cluster_sector fs c Hfs Hc) as (Ea & H0 & H1).
  assert (RAMDISK_SECTORS = 8192) as E8 by done. rewrite Hspc in H1.
  assert (cluster_to_sector fs c +' 0 = cluster_to_sector fs c) as ->
    by (unfold u64; rewrite Z.add_0_r; apply Z.mod_small; lia).
  apply disk_read_wp; [lia|]. rewrite decide_True by lia.
  unfold cluster_bytes in HQ. by rewrite Hspc, Z.mul_1_l, <- Ea in HQ.
Qed.
Lemma chain_step c l d (Q : option Z → disk → Prop) :
  chain fs d (c :: l) → (∀ o, chain_next o = head l → Q o d) → wp (fat_next fs c) Q d.
Proof.
  intros [[Hc1 Hc2] H] HQ. apply (fat_next_valid fs Hfs); [lia|]. apply HQ.
  destruct l as [|c' l]; [done|apply H].
Qed.
Lemma chain_tail c c' l d : chain fs d (c :: c' :: l) → chain fs d (c' :: l).
Proof. intros [_ [_ H]]. done. Qed.

(** The skip stops at the cluster of [offset], or runs off the chain. *)
Lemma read_skip_wp fuel offset l : ∀ k c d (Q : option (Z * Z) → disk → Prop),
  chain fs d (c :: l) → (length l < fuel)%nat → 0 ≤ k → k * 512 ≤ offset → offset + 512 < 2 ^ 32 →
  (∀ l1 c' l2, c :: l = l1 ++ c' :: l2 → (k + Z.of_nat (length l1)) = offset / 512 →
     Q (Some (c', offset / 512 * 512)) d) →
  (k + Z.of_nat (length (c :: l)) ≤ offset / 512 → Q None d) →
  wp (read_skip fuel fs offset c (k * 512)) Q d.
Proof.
  revert l. induction fuel as [|fuel IH]; intros l k c d Q Hch Hf H0 Hk Ho HS HN; [lia|].
  cbn [read_skip]. rewrite cluster_size_512.
  assert (u32 (k * 512 + 512) = (k + 1) * 512) as -> by (unfold u32; rewrite Z.mod_small by lia; lia).
  destruct (Z.leb_spec ((k + 1) * 512) offset) as [Hle|Hlt].
  - apply wp_bind, (chain_step c l); [done|]. intros o ->. destruct l as [|c' l]; cbn [head].
    + apply wp_ret, HN. cbn [length]. apply Z.div_le_lower_bound; lia.
    + apply (IH l); [by eapply chain_tail|cbn in Hf; lia|lia|lia|done| |].
      * intros l1 x l2 E Hl1. apply (HS (c :: l1) x l2); [by rewrite E|]. cbn. lia.
      * intros Hn. apply HN. cbn in *. lia.
  - assert (offset / 512 = k) as Hd by (symmetry; apply (Z.div_unique _ _ _ (offset - k * 512)); lia).
    apply wp_ret. replace (k * 512) with (offset / 512 * 512) by lia. apply (HS [] c l); [done|cbn; lia].
Qed.

(** The copied part of the buffer. *)
Lemma copy_step buf br x :
  0 ≤ br → br + Z.of_nat (length x) ≤ Z.of_nat (length buf) →
  copy_into buf br x = Some (take (Z.to_nat br) buf ++ x ++ drop (Z.to_nat br + length x) buf).
Proof. apply copy_into_Some. Qed.
Definition filled (buf : list Z) (br : Z) (x : list Z) : list Z :=
  take (Z.to_nat br) buf ++ x ++ drop (Z.to_nat br + length x) buf.
Lemma filled_filled buf br x y :
  0 ≤ br → br + Z.of_nat (length x) + Z.of_nat (length y) ≤ Z.of_nat (length buf) →
  filled (filled buf br x) (br + Z.of_nat (length x)) y = filled buf br (x ++ y).
Proof.
  intros H0 Hl. unfold filled. rewrite Z2Nat.inj_add, Nat2Z.id by lia.
  assert (length (take (Z.to_nat br) buf) = Z.to_nat br) as Ht by (rewrite length_take; lia).
  rewrite take_app_ge, Ht by lia.
  replace (Z.to_nat br + length x - Z.to_nat br)%nat with (length x) by lia. rewrite take_app_length.
  rewrite drop_app_ge, Ht by lia. rewrite drop_app_ge by lia.
  rewrite drop_drop, length_app, <- !(assoc_L (++)). do 4 f_equal. lia.
Qed.
Lemma length_filled buf br x :
  0 ≤ br → br + Z.of_nat (length x) ≤ Z.of_nat (length buf) → length (filled buf br x) = length buf.
Proof. intros. unfold filled. rewrite !length_app, length_take, length_drop. lia. Qed.

Lemma read_loop_wp fuel offset skip to_read l : ∀ c cur_offset br buf start d (Q : Z * list Z → disk → Prop),
  chain fs d (c :: l) → (length l < fuel)%nat →
  0 ≤ br < to_read → to_read ≤ Z.of_nat (length buf) → to_read < 2 ^ 32 → 0 ≤ start < 512 →
  (br = 0 ∧ start = skip ∧ 0 ≤ cur_offset ≤ offset ∧ offset < 2 ^ 32 ∨ 0 < br ∧ start = 0) →
  (let m := Z.min (to_read - br) (Z.of_nat (length (content fs d (c :: l))) - start) in
   Q (br + m, filled buf br (take (Z.to_nat m) (drop (Z.to_nat start) (content fs d (c :: l))))) d) →
  wp (read_loop fuel fs offset skip to_read c cur_offset br buf) Q d.
Proof.
  revert l. induction fuel as [|fuel IH]; intros l c cur_offset br buf start d Q Hch Hf Hbr Hlen Hto Hst Hcase HQ; [lia|].
  cbn [read_loop]. rewrite (proj2 (Z.ltb_lt _ _)) by lia. rewrite Hspc. cbn [seqZ].
  apply wp_bind. change (seqZ 0 1) with [0]. cbn [read_sectors].
  pose proof Hch as [Hc _]. apply wp_bind, cluster_read; [done|]. cbn beta iota.
  assert ((if at_or_before cur_offset 0 offset && (br =? 0) then Z.min skip BLOCK_SIZE else 0) = start) as ->.
  { unfold at_or_before, BLOCK_SIZE. destruct Hcase as [(-> & -> & H1 & H2)|[H1 ->]].
    - replace (u32 (cur_offset + u32 (u32 0 * 512))) with cur_offset
        by (change (u32 (u32 0 * 512)) with 0; unfold u32; rewrite Z.mod_small by lia; lia).
      rewrite (proj2 (Z.leb_le _ _)) by lia. cbn. lia.
    - rewrite (proj2 (Z.eqb_neq br 0)) by lia. by rewrite andb_false_r. }
  set (C := cluster_bytes fs d c). assert (length C = 512%nat) as HlC by apply length_cluster_bytes.
  set (n := Z.min (BLOCK_SIZE -' start) (to_read -' br)).
  assert (n = Z.min (512 - start) (to_read - br)) as Hn.
  { unfold n, u64, BLOCK_SIZE. by rewrite !Z.mod_small by lia. }
  assert (0 < n) as Hn0 by lia. clearbody n. rewrite (proj2 (Z.eqb_neq n 0)) by lia.
  set (X := take (Z.to_nat n) (drop (Z.to_nat start) C)).
  assert (length X = Z.to_nat n) as HX by (unfold X; rewrite length_take, length_drop; lia).
  rewrite copy_step by lia. apply wp_bind, wp_ret. fold (filled buf br X).
  assert (br +' n = br + n) as -> by (unfold u64; apply Z.mod_small; lia).
  cbv zeta in HQ. rewrite content_cons in HQ. fold C in HQ. rewrite length_app, HlC in HQ.
  destruct (Z.leb_spec to_read (br + n)) as [Hdone|Hmore].
  - apply wp_ret, wp_ret. replace (Z.min _ _) with n in HQ by lia.
    rewrite drop_app_le, take_app_le in HQ; [exact HQ|rewrite length_drop; lia|lia].
  - apply wp_ret. cbn beta iota. apply wp_bind, (chain_step c l); [done|]. intros o ->.
    assert (n = 512 - start) as Hn' by lia.
    assert (X = drop (Z.to_nat start) C) as EX by (unfold X; apply take_ge; rewrite length_drop; lia).
    destruct l as [|c' l]; cbn [head].
    + apply wp_ret. cbn [content fmap list_fmap concat length] in HQ. rewrite app_nil_r in HQ.
      replace (Z.min _ _) with n in HQ by (cbn; lia). exact HQ.
    + apply (IH l c' _ (br + n) (filled buf br X) 0); [by eapply chain_tail|cbn in Hf; lia|lia| |done|lia|right; lia|].
      { rewrite length_filled; lia. }
      cbv zeta. rewrite drop_0. set (K := content fs d (c' :: l)) in *.
      set (m' := Z.min _ _). assert (length (take (Z.to_nat m') K) ≤ Z.to_nat (to_read - br - n))%nat as Hm'.
      { rewrite length_take. lia. }
      replace (Z.min (to_read - br) _) with (n + m') in HQ by lia.
      assert (take (Z.to_nat (n + m')) (drop (Z.to_nat start) (C ++ K)) = X ++ take (Z.to_nat m') K) as E.
      { rewrite drop_app_le, <- EX by lia. rewrite take_app_ge by lia. f_equal. rewrite HX. f_equal. lia. }
      rewrite E in HQ. replace (br + n + m') with (br + (n + m')) by lia.
      replace (br + n) with (br + Z.of_nat (length X)) by lia.
      rewrite filled_filled by lia. exact HQ.
Qed.

(** What a read returns: the bytes of the chain from [offset], as many as the buffer,
    the size and the chain allow, in front of the untouched rest of the buffer. *)
Definition read_len (offset file_size : Z) (buf k : list Z) : Z :=
  Z.max 0 (Z.min (Z.min (Z.of_nat (length buf)) (file_size - offset)) (Z.of_nat (length k) - offset)).
Lemma read_file_wp fuel c l offset file_size buf d (Q : Z * list Z → disk → Prop) :
  chain fs d (c :: l) → (length l < fuel)%nat → 0 ≤ offset < file_size → offset + 512 < 2 ^ 32 →
  is_u32 file_size →
  (let k := content fs d (c :: l) in let m := read_len offset file_size buf k in
   Q (m, filled buf 0 (take (Z.to_nat m) (drop (Z.to_nat offset) k))) d) →
  wp (read_file fuel fs c offset file_size buf) Q d.
Proof.
  intros Hch Hf Ho Hw Hfs' HQ. cbv zeta in HQ. unfold read_file, is_u32 in *.
  pose proof Hch as [[Hc _] _].
  rewrite (proj2 (Z.leb_gt _ _)), (proj2 (Z.ltb_ge _ _)) by lia. cbn [orb].
  assert (u32 (file_size - offset) = file_size - offset) as -> by (unfold u32; apply Z.mod_small; lia).
  set (to_read := Z.min _ _) in *. unfold read_len in HQ. fold to_read in HQ.
  pose proof (length_content d (c :: l)) as Hlen.
  assert (∀ d, filled buf 0 (take (Z.to_nat 0) (drop (Z.to_nat offset) (content fs d (c :: l)))) = buf) as Hnil
    by done.
  apply wp_bind, (read_skip_wp fuel offset l 0); [done|done|lia|lia|lia| |].
  2: { intros Hn. apply wp_ret. rewrite Z.max_l in HQ; [by rewrite Hnil in HQ|].
       pose proof (Z.mul_div_le offset 512). cbn [length] in *. lia. }
  intros l1 c' l2 E Hl1. rewrite Z.add_0_l in Hl1.
  pose proof (Z.mul_div_le offset 512 ltac:(lia)). pose proof (Z.mul_succ_div_gt offset 512 ltac:(lia)).
  assert (u32 (offset - offset / 512 * 512) = offset - offset / 512 * 512) as ->
    by (unfold u32; apply Z.mod_small; lia).
  assert (length (c :: l) = (length l1 + S (length l2))%nat) as Hll by (rewrite E, length_app; done).
  destruct (decide (0 < to_read)) as [Hpos|Hz].
  - apply (read_loop_wp _ _ _ _ l2 _ _ _ _ (offset - offset / 512 * 512)).
    + rewrite E in Hch. by apply (chain_suffix fs d l1).
    + cbn [length] in Hll. lia.
    + lia.
    + lia.
    + lia.
    + lia.
    + left. lia.
    + cbv zeta. rewrite Z.sub_0_r, Z.add_0_l.
      assert (drop (Z.to_nat offset) (content fs d (c :: l)) =
              drop (Z.to_nat (offset - offset / 512 * 512)) (content fs d (c' :: l2))) as Ed.
      { rewrite E, content_app, drop_app_ge; rewrite length_content; [f_equal|]; lia. }
      rewrite Ed in HQ. pose proof (length_content d (c' :: l2)) as Hl2. cbn [length] in *.
      replace (Z.max 0 _) with (Z.min to_read (Z.of_nat (length (content fs d (c' :: l2))) - (offset - offset / 512 * 512))) in HQ by lia.
      exact HQ.
  - destruct fuel as [|fuel]; [lia|]. cbn [read_loop]. rewrite (proj2 (Z.ltb_ge _ _)) by lia.
    apply wp_ret. rewrite Z.max_l in HQ by lia. by rewrite Hnil in HQ.
Qed.
End reading.
