(* ===== verification/WriteFacts.v ===== *)
(** Writing file contents ([write_file] of [FatFile.v]): the chain grows by as many
    clusters as needed, the written bytes replace those of the file, and no other
    cluster changes. *)

From S2P Require Import Prelude Bytes FatDisk FatFacts FatFile FileFacts.

(** The chain of a file: its last entry is marked as used. *)
Definition file_chain (fs : Fat32Fs) (d : disk) (l : list Z) : Prop :=
  chain fs d l ∧ ∀ c, c ∈ l → fat_value fs d c ≠ FAT32_FREE.
(** The clusters [alloc_cluster] can still find. *)
Definition free_clusters (fs : Fat32Fs) (d : disk) : Z :=
  countb (λ c, fat_value fs d c =? FAT32_FREE) (seqZ 2 (total_clusters fs - 2)).
Definition sectors (fs : Fat32Fs) (d : disk) (l : list Z) : list (list Z) := cluster_bytes fs d <$> l.
(** [d'] differs from [d] only in the table entries and the data of [l]. *)
Definition only_changes (fs : Fat32Fs) (l : list Z) (d d' : disk) : Prop :=
  ∀ a, (∀ c, c ∈ l → ¬ in_fat fs c a ∧ ¬ in_cluster fs c a) → dbyte d' a = dbyte d a.

(** One sector after [chunk] was written at [start]: the rest of the sector survives if
    the write does not start at its beginning, and is zero otherwise. *)
Definition write_block (C : list Z) (start : Z) (chunk : list Z) : list Z :=
  filled (if 0 <? start then C else zero_block) start chunk.
(** The same for a list of sectors, the first one from [start]. *)
Fixpoint write_blocks (Cs : list (list Z)) (start : Z) (buf : list Z) : list (list Z) :=
  match Cs, buf with
  | C :: Cs, _ :: _ =>
      write_block C start (take (Z.to_nat (512 - start)) buf)
        :: write_blocks Cs 0 (drop (Z.to_nat (512 - start)) buf)
  | _, _ => Cs
  end.

Section writing.
Context (fs : Fat32Fs).
Hypothesis Hfs : volume_ok fs.
Hypothesis Hspc : spc fs = 1.
Implicit Types (d : disk) (c : Z) (l buf : list Z).

Lemma only_changes_refl l d : only_changes fs l d d.
Proof. by intros a. Qed.
Lemma only_changes_trans l l' d d1 d2 :
  only_changes fs l d d1 → only_changes fs l' d1 d2 → (∀ c, c ∈ l → c ∈ l') → only_changes fs l' d d2.
Proof. intros H1 H2 Hsub a Ha. rewrite H2 by done. apply H1. intros c Hc. by apply Ha, Hsub. Qed.
Lemma only_changes_mono l l' d d' :
  only_changes fs l d d' → (∀ c, c ∈ l → c ∈ l') → only_changes fs l' d d'.
Proof. intros H Hsub a Ha. apply H. intros c Hc. by apply Ha, Hsub. Qed.
Lemma cluster_bytes_ext d d' c :
  (∀ a, in_cluster fs c a → dbyte d' a = dbyte d a) → cluster_bytes fs d' c = cluster_bytes fs d c.
Proof.
  intros H. unfold cluster_bytes, disk_bytes. apply list_fmap_ext. intros i a Ha%lookup_seqZ.
  apply H. unfold in_cluster. lia.
Qed.
Lemma sectors_ext d d' l :
  (∀ c a, c ∈ l → in_cluster fs c a → dbyte d' a = dbyte d a) → sectors fs d' l = sectors fs d l.
Proof.
  intros H. unfold sectors. apply list_fmap_ext. intros i c Hc%list_elem_of_lookup_2.
  apply cluster_bytes_ext. intros a. by apply H.
Qed.
Lemma sectors_app d l l' : sectors fs d (l ++ l') = sectors fs d l ++ sectors fs d l'.
Proof. apply fmap_app. Qed.
Lemma sectors_cons d c l : sectors fs d (c :: l) = cluster_bytes fs d c :: sectors fs d l.
Proof. done. Qed.
Lemma file_chain_ext d d' l :
  (∀ c, c ∈ l → fat_value fs d' c = fat_value fs d c) → file_chain fs d l → file_chain fs d' l.
Proof.
  intros H [Hc Hf]. split; [by apply (chain_ext fs d)|]. intros c Hin. rewrite H by done. by apply Hf.
Qed.
Lemma free_clusters_ext d d' :
  (∀ c, 2 ≤ c < total_clusters fs → fat_value fs d' c = fat_value fs d c) →
  free_clusters fs d' = free_clusters fs d.
Proof.
  intros H. apply countb_ext. intros c Hc%elem_of_seqZ. rewrite H by lia. done.
Qed.
Lemma file_chain_valid d l c : file_chain fs d l → c ∈ l → valid_cluster fs c.
Proof. intros [H _]. by apply (chain_valid fs d l). Qed.

(** ** One cluster *)

Lemma write_data d d' c :
  (∀ a, ¬ in_cluster fs c a → dbyte d' a = dbyte d a) → valid_cluster fs c →
  (∀ c', c' < total_clusters fs + 2 → fat_value fs d' c' = fat_value fs d c') ∧
  (∀ c', c' ≠ c → cluster_bytes fs d' c' = cluster_bytes fs d c').
Proof.
  intros H [Hc _]. pose proof (vo_spc _ Hfs). split; intros c' Hc'.
  - apply fat_value_ext. intros a Ha. apply H. by apply (fat_not_data fs c' c a Hfs).
  - apply cluster_bytes_ext. intros a Ha. apply H. intros Ha'. apply Hc'.
    apply (in_cluster_inj fs c' c a); [lia|done|done].
Qed.
Lemma length_write_block C start chunk :
  length C = 512%nat → 0 ≤ start → start + Z.of_nat (length chunk) ≤ 512 →
  length (write_block C start chunk) = 512%nat.
Proof.
  intros HC Hs Hl. unfold write_block. rewrite length_filled; [|lia|];
    destruct (0 <? start); rewrite ?length_zero_block, ?HC; unfold BLOCK_SIZE; lia.
Qed.
Lemma write_sectors_wp c cur_offset offset skip start buf bw d (Q : Z + Z → disk → Prop) :
  valid_cluster fs c → 0 ≤ bw < Z.of_nat (length buf) → Z.of_nat (length buf) < 2 ^ 32 → 0 ≤ start < 512 →
  (bw = 0 ∧ start = skip ∧ 0 ≤ cur_offset ≤ offset ∧ offset < 2 ^ 32 ∨ 0 < bw ∧ start = 0) →
  (∀ d' rest, rest = drop (Z.to_nat bw) buf →
     (∀ a, ¬ in_cluster fs c a → dbyte d' a = dbyte d a) →
     cluster_bytes fs d' c =
       write_block (cluster_bytes fs d c) start (take (Z.to_nat (512 - start)) rest) →
     Q (if Z.of_nat (length rest) <=? 512 - start then inl (Z.of_nat (length buf))
        else inr (bw + (512 - start))) d') →
  wp (write_sectors (seqZ 0 (spc fs)) (cluster_to_sector fs c) cur_offset offset skip buf bw) Q d.
Proof.
  intros Hc Hbw Hlen Hst Hcase HQ. rewrite Hspc. change (seqZ 0 1) with [0]. cbn [write_sectors].
  assert (at_or_before cur_offset 0 offset && (bw =? 0) = (bw =? 0)) as ->.
  { destruct Hcase as [(-> & -> & H1 & H2)|[H1 ->]].
    - unfold at_or_before. change (u32 (u32 0 * BLOCK_SIZE)) with 0.
      unfold u32. rewrite Z.mod_small by lia. by rewrite (proj2 (Z.leb_le _ _)) by lia.
    - rewrite (proj2 (Z.eqb_neq bw 0)) by lia. by rewrite andb_false_r. }
  assert ((if bw =? 0 then Z.min skip BLOCK_SIZE else 0) = start) as ->.
  { destruct Hcase as [(-> & -> & _)|[H1 ->]]; [cbn; unfold BLOCK_SIZE; lia|].
    by rewrite (proj2 (Z.eqb_neq bw 0)) by lia. }
  set (C := cluster_bytes fs d c) in *.
  assert (length C = 512%nat) as HlC by by apply length_cluster_bytes.
  apply wp_bind.
  assert (∀ m, (∀ (Q' : list Z → disk → Prop), Q' (if 0 <? start then C else zero_block) d → wp m Q' d) →
    wp m (λ sec_buf, wp (
      let n := Z.min (BLOCK_SIZE -' start) (Z.of_nat (length buf) -' bw) in
      if n =? 0 then mret (inr bw) else
        sec_buf ← unwrap (copy_into sec_buf start (take (Z.to_nat n) (drop (Z.to_nat bw) buf)));
        ok ← disk_write (cluster_to_sector fs c +' 0) sec_buf;
        if negb ok then mret (inl bw)
        else if Z.of_nat (length buf) <=? bw +' n then mret (inl (bw +' n)) else mret (inr (bw +' n))) Q) d) as Hrest.
  2: { apply Hrest. intros Q' HQ'. destruct ((bw =? 0) && (0 <? start)) eqn:E.
       - apply andb_prop in E as [_ E]. rewrite E in HQ'. apply wp_bind, (cluster_read fs Hfs Hspc); [done|].
         by apply wp_ret.
       - apply wp_ret. destruct (0 <? start) eqn:E'; [|done]. apply Z.ltb_lt in E'.
         assert (bw = 0) by lia. subst bw. done. }
  intros m Hm. apply Hm. clear m Hm.
  assert (BLOCK_SIZE -' start = 512 - start) as -> by (unfold u64, BLOCK_SIZE; apply Z.mod_small; lia).
  assert (Z.of_nat (length buf) -' bw = Z.of_nat (length buf) - bw) as -> by (unfold u64; apply Z.mod_small; lia).
  cbv zeta. set (n := Z.min _ _). assert (0 < n ≤ 512 - start) as Hn by lia.
  rewrite (proj2 (Z.eqb_neq n 0)) by lia.
  set (rest := drop (Z.to_nat bw) buf) in *.
  assert (length rest = (length buf - Z.to_nat bw)%nat) as Hlr by apply length_drop.
  assert (take (Z.to_nat n) rest = take (Z.to_nat (512 - start)) rest) as ->.
  { destruct (decide (Z.of_nat (length rest) ≤ 512 - start)); [rewrite !take_ge by lia; done|f_equal; lia]. }
  set (chunk := take _ rest). assert (Z.of_nat (length chunk) = n) as Hlc by (unfold chunk; rewrite length_take; lia).
  set (base := if 0 <? start then C else zero_block).
  assert (length base = 512%nat) as Hlb by (unfold base; destruct (0 <? start); [done|apply length_zero_block]).
  rewrite copy_step by lia. apply wp_bind, wp_ret. fold (filled base start chunk).
  change (filled base start chunk) with (write_block C start chunk).
  pose proof (length_write_block C start chunk HlC ltac:(lia) ltac:(lia)) as Hlw.
  destruct (cluster_sector fs c Hfs Hc) as (Ea & H0 & H1). assert (RAMDISK_SECTORS = 8192) as E8 by done.
  rewrite Hspc in H1. assert (cluster_to_sector fs c +' 0 = cluster_to_sector fs c) as ->
    by (unfold u64; rewrite Z.add_0_r; apply Z.mod_small; lia).
  apply wp_bind, disk_write_wp; [lia|done|]. rewrite decide_True by lia. cbn [negb]. rewrite Ea.
  assert (bw +' n = bw + n) as -> by (unfold u64; apply Z.mod_small; lia).
  set (d' := disk_put d _ _).
  assert (∀ a, ¬ in_cluster fs c a → dbyte d' a = dbyte d a) as Hout.
  { intros a Ha. unfold d'. rewrite dbyte_put, Hlw, decide_False; [done|].
    unfold in_cluster, BLOCK_SIZE in Ha. rewrite Hspc in Ha. lia. }
  assert (cluster_bytes fs d' c = write_block C start chunk) as Hin.
  { apply list_eq. intros i. unfold cluster_bytes, disk_bytes. rewrite list_lookup_fmap, Hspc.
    destruct (decide (i < 512)%nat) as [Hi|Hi].
    - rewrite lookup_seqZ_lt by (unfold BLOCK_SIZE; lia).
      change (Some (dbyte d' (cluster_addr fs c + Z.of_nat i)) = write_block C start chunk !! i). unfold d'. rewrite dbyte_put, Hlw, decide_True by lia.
      unfold byte_at. destruct (lookup_lt_is_Some_2 (write_block C start chunk) i ltac:(lia)) as [b Hb].
      replace (Z.to_nat _) with i by lia. by rewrite Hb.
    - rewrite lookup_seqZ_ge by (unfold BLOCK_SIZE; lia). symmetry. apply lookup_ge_None_2. lia. }
  specialize (HQ d' rest eq_refl Hout Hin).
  destruct (Z.leb_spec (Z.of_nat (length rest)) (512 - start)) as [Hle|Hgt].
  - rewrite (proj2 (Z.leb_le _ _)) by lia. apply wp_ret. replace (bw + n) with (Z.of_nat (length buf)) by lia. exact HQ.
  - rewrite (proj2 (Z.leb_gt _ _)) by lia. apply wp_ret. replace n with (512 - start) by lia. exact HQ.
Qed.

(** ** The next cluster of the file, or a new one *)

Lemma chain_extend d d' new l1 : ∀ cur,
  chain fs d (l1 ++ [cur]) → valid_cluster fs new → (∀ x, x ∈ l1 → fat_value fs d' x = fat_value fs d x) →
  fat_value fs d' cur = new → chain_next (Some (fat_value fs d' new)) = None →
  chain fs d' (l1 ++ [cur; new]).
Proof.
  pose proof (vo_data _ Hfs) as Hd. pose proof (vo_fat _ Hfs) as Hf. pose proof (vo_start _ Hfs) as Hst.
  assert (RAMDISK_SECTORS = 8192) as E8 by done.
  intros cur Hch [Hn1 Hn2] Hl Hcur Hnew. induction l1 as [|c l1 IH].
  - destruct Hch as [Hc _]. cbn. split; [done|]. rewrite Hcur. split; [|by split].
    unfold FAT32_EOC, BLOCK_SIZE in *. rewrite Hspc in Hd.
    rewrite (proj2 (Z.leb_le _ _)), (proj2 (Z.ltb_lt _ _)) by lia. done.
  - destruct Hch as [Hc H]. split; [done|]. rewrite Hl by by left.
    assert (∀ y l2, l1 ++ [cur] = y :: l2 → ∃ l3, l1 ++ [cur; new] = y :: l3) as Hhd.
    { intros y l2. destruct l1 as [|z l1]; intros [= -> <-]; by eexists. }
    destruct (l1 ++ [cur]) as [|y l2] eqn:E; [by destruct l1|]. destruct H as [H H'].
    destruct (Hhd y l2 eq_refl) as [l3 E3]. rewrite E3. split; [done|]. rewrite <- E3.
    apply IH; [done|]. intros x Hx. apply Hl. by right.
Qed.
Lemma taken_free c d d' :
  2 ≤ c < total_clusters fs → fat_value fs d c = FAT32_FREE → taken fs c d d' →
  free_clusters fs d' = free_clusters fs d - 1.
Proof.
  intros Hc Hf Ht. pose proof (taken_fat fs Hfs c) as Hv.
  assert (∀ x, 2 ≤ x < total_clusters fs → fat_value fs d' x = if decide (x = c) then FAT32_EOC else fat_value fs d x) as Hx.
  { intros x Hx. apply Hv; [split; lia|lia|done]. }
  unfold free_clusters. rewrite (countb_flip (λ c, fat_value fs d' c =? FAT32_FREE) (λ c, fat_value fs d c =? FAT32_FREE) _ c);
    [lia|apply NoDup_seqZ| | | |].
  - apply elem_of_seqZ. lia.
  - by rewrite Hx, decide_True by lia.
  - by rewrite Hf.
  - intros y Hy%elem_of_seqZ Hne. by rewrite Hx, decide_False by lia.
Qed.
(** What linking a new cluster behind [cur] does. *)
Record linked (l1 : list Z) (cur new : Z) (d d' : disk) : Prop := {
  ln_new : valid_cluster fs new;
  ln_fresh : new ∉ l1 ++ [cur];
  ln_chain : file_chain fs d' (l1 ++ [cur; new]);
  ln_data : ∀ c, 2 ≤ c → c ≠ new → cluster_bytes fs d' c = cluster_bytes fs d c;
  ln_zero : cluster_bytes fs d' new = zero_block;
  ln_free : free_clusters fs d' = free_clusters fs d - 1;
  ln_only : only_changes fs [cur; new] d d';
}.
Lemma link_disk l1 cur new d d1 d2 :
  file_chain fs d (l1 ++ [cur]) → 2 ≤ new < total_clusters fs → fat_value fs d new = FAT32_FREE →
  taken fs new d d1 →
  (∀ a, dbyte d2 a = if decide (in_fat fs cur a) then new / 256 ^ (a - fat_addr fs cur) mod 256 else dbyte d1 a) →
  linked l1 cur new d d2.
Proof.
  intros [Hch Hnf] Hnew Hfree Ht H2. pose proof (vo_spc _ Hfs) as Hp.
  pose proof (vo_data _ Hfs) as Hd. pose proof (vo_fat _ Hfs) as Hft. pose proof (vo_start _ Hfs) as Hst.
  assert (RAMDISK_SECTORS = 8192) as E8 by done.
  assert (valid_cluster fs new) as Hnv by (split; lia).
  assert (new ∉ l1 ++ [cur]) as Hnin by (intros Hin; by apply (Hnf new)).
  assert (valid_cluster fs cur) as Hcv.
  { apply (chain_valid fs d (l1 ++ [cur])); [done|]. apply elem_of_app. right. by left. }
  assert (∀ x, x < total_clusters fs + 2 → fat_value fs d2 x =
    if decide (x = cur) then new else if decide (x = new) then FAT32_EOC else fat_value fs d x) as Hval.
  { intros x Hx. case_decide as E.
    - subst x. rewrite (fat_value_written fs d2 cur new).
      + change 0x0FFFFFFF with (Z.ones 28). rewrite Z.land_ones by lia. apply Z.mod_small.
        unfold BLOCK_SIZE in *. rewrite Hspc in Hd. lia.
      + unfold BLOCK_SIZE in *. rewrite Hspc in Hd. lia.
      + intros a Ha. by rewrite H2, decide_True.
    - rewrite <- (taken_fat fs Hfs new x d d1 Hnv Hx Ht). apply fat_value_ext. intros a Ha.
      rewrite H2, decide_False; [done|]. intros Ha'. by apply E, (in_fat_inj fs x cur a). }
  assert (∀ c a, 2 ≤ c → in_cluster fs c a → dbyte d2 a = dbyte d1 a) as Hdat.
  { intros c a Hc Ha. rewrite H2, decide_False; [done|]. intros Ha'.
    destruct Hcv as [Hcv1 Hcv2]. by apply (fat_not_data fs cur c a Hfs). }
  split; try done.
  - split.
    + apply (chain_extend d); [done|done| | |].
      * intros x Hx. assert (x ∈ l1 ++ [cur]) as Hx' by (apply elem_of_app; by left).
        pose proof (chain_valid fs d _ _ Hch Hx') as [Hx1 Hx2]. rewrite Hval by lia.
        rewrite !decide_False; [done| |].
        -- by intros ->.
        -- intros ->. apply (chain_NoDup fs d) in Hch. apply NoDup_app in Hch as (_ & H & _).
           apply (H cur Hx). by left.
      * destruct Hcv as [Hc1 Hc2]. by rewrite Hval, decide_True by lia.
      * rewrite Hval by lia. rewrite decide_False, decide_True; [done|done|].
        intros ->. apply Hnin, elem_of_app. right. by left.
    + intros c Hc. assert (valid_cluster fs c) as [Hc1 Hc2].
      { apply elem_of_app in Hc as [Hc|Hc].
        - apply (chain_valid fs d _ _ Hch), elem_of_app. by left.
        - apply elem_of_cons in Hc as [->|Hc]; [done|]. by apply list_elem_of_singleton in Hc as ->. }
      rewrite Hval by lia. repeat case_decide; [unfold FAT32_FREE; lia|done|].
      apply Hnf. apply elem_of_app in Hc as [Hc|Hc]; apply elem_of_app; [by left|].
      apply elem_of_cons in Hc as [->|Hc]; [done|]. by apply list_elem_of_singleton in Hc as ->.
  - intros c Hc Hne. apply cluster_bytes_ext. intros a Ha. rewrite (Hdat c) by done.
    rewrite Ht, decide_False, decide_False; [done| |].
    + intros Ha'. by apply (fat_not_data fs new c a Hfs); [lia|..].
    + intros Ha'. apply Hne, (in_cluster_inj fs c new a); [lia|done|done].
  - apply list_eq. intros i. unfold cluster_bytes, disk_bytes, zero_block. rewrite list_lookup_fmap, Hspc, Z.mul_1_l.
    destruct (decide (i < Z.to_nat BLOCK_SIZE)%nat) as [Hi|Hi].
    + rewrite lookup_seqZ_lt, lookup_replicate_2 by (unfold BLOCK_SIZE in *; lia).
      change (Some (dbyte d2 (cluster_addr fs new + Z.of_nat i)) = Some 0).
      assert (in_cluster fs new (cluster_addr fs new + Z.of_nat i)) as Ha
        by (unfold in_cluster; rewrite Hspc; unfold BLOCK_SIZE in *; lia).
      by rewrite (Hdat new), Ht, decide_True by (lia || done).
    + rewrite lookup_seqZ_ge by (unfold BLOCK_SIZE in *; lia). symmetry. apply lookup_ge_None_2.
      rewrite length_replicate. lia.
  - rewrite <- (taken_free new d d1 Hnew Hfree Ht). apply countb_ext. intros x Hx%elem_of_seqZ.
    rewrite Hval by lia. rewrite (taken_fat fs Hfs new x d d1 Hnv ltac:(lia) Ht).
    case_decide as E; [|done]. subst x. rewrite decide_False by (intros ->; apply Hnin, elem_of_app; right; by left).
    rewrite !(proj2 (Z.eqb_neq _ _)); [done| |unfold FAT32_FREE; lia].
    apply Hnf, elem_of_app. right. by left.
  - intros a Ha. rewrite H2. destruct (Ha cur ltac:(by left)) as [Ha1 Ha2].
    destruct (Ha new ltac:(right; by left)) as [Ha3 Ha4].
    rewrite decide_False by done. by rewrite Ht, !decide_False.
Qed.
Lemma next_or_alloc_wp l1 cur l2 d (Q : option Z → disk → Prop) :
  file_chain fs d (l1 ++ cur :: l2) →
  match l2 with
  | x :: _ => Q (Some x) d
  | [] => 0 < free_clusters fs d ∧ ∀ new d', linked l1 cur new d d' → Q (Some new) d'
  end →
  wp (next_or_alloc fs cur) Q d.
Proof.
  intros Hf HQ. pose proof Hf as [Hch Hnf]. pose proof (chain_suffix fs d l1 cur l2 Hch) as Hch2.
  pose proof Hch2 as [[Hc1 Hc2] _].
  unfold next_or_alloc. apply wp_bind, (chain_step fs Hfs cur l2); [done|]. intros o ->.
  destruct l2 as [|x l2]; cbn [head]; [|by apply wp_ret]. destruct HQ as [Hfree HQ].
  apply wp_otry_bind, (alloc_cluster_wp fs Hfs).
  - intros new d1 Hnew Hnf' _ Ht. apply wp_bind, (fat_set_valid fs Hfs); [lia|].
    intros d2 H2. apply wp_ret, HQ. by apply (link_disk l1 cur new d d1 d2).
  - intros Hno. exfalso. unfold free_clusters in Hfree.
    enough (countb (λ c, fat_value fs d c =? FAT32_FREE) (seqZ 2 (total_clusters fs - 2)) = 0) by lia.
    apply countb_zero. intros c Hc%elem_of_seqZ. apply Z.eqb_neq, Hno. lia.
Qed.

(** ** The loops *)

(** The chain [l] became [l ++ l'], with [l'] taken from the free clusters. *)
Record grown (l l' : list Z) (d d' : disk) : Prop := {
  gr_chain : file_chain fs d' (l ++ l');
  gr_free : free_clusters fs d' = free_clusters fs d - Z.of_nat (length l');
  gr_only : only_changes fs (l ++ l') d d';
}.
Lemma grown_refl l d : file_chain fs d l → grown l [] d d.
Proof. intros H. split; rewrite ?app_nil_r; [done|cbn; lia|apply only_changes_refl]. Qed.
Lemma grown_trans l l1 l2 d d1 d2 : grown l l1 d d1 → grown (l ++ l1) l2 d1 d2 → grown l (l1 ++ l2) d d2.
Proof.
  intros [H1 H2 H3] [H4 H5 H6]. rewrite <- (assoc_L (++)) in *. split; [done|rewrite length_app; lia|].
  eapply only_changes_trans; [exact H3|exact H6|].
  intros c Hc. rewrite (assoc_L (++)). apply elem_of_app. by left.
Qed.
Lemma grown_linked l1 cur new d d' : linked l1 cur new d d' → grown (l1 ++ [cur]) [new] d d'.
Proof.
  intros [H1 H2 H3 H4 H5 H6 H7]. split.
  - by rewrite <- (assoc_L (++)).
  - cbn. lia.
  - apply (only_changes_mono [cur; new]); [done|]. intros c Hc. rewrite <- (assoc_L (++)).
    apply elem_of_app. by right.
Qed.
Lemma linked_sectors l1 cur new d d' l :
  linked l1 cur new d d' → (∀ c, c ∈ l → 2 ≤ c ∧ c ≠ new) → sectors fs d' l = sectors fs d l.
Proof.
  intros H Hl. unfold sectors. apply list_fmap_ext. intros i c Hc%list_elem_of_lookup_2.
  destruct (Hl c Hc). by apply (ln_data _ _ _ _ _ H).
Qed.

(** [n] bytes span this many sectors. *)
Definition blocks (n : Z) : nat := Z.to_nat ((n + 511) / 512).
Lemma blocks_step n : 512 < n → blocks n = S (blocks (n - 512)).
Proof.
  intros H. unfold blocks. replace (n + 511) with ((n - 512 + 511) + 1 * 512) by lia.
  rewrite Z.div_add by lia. assert (0 ≤ (n - 512 + 511) / 512) by (apply Z.div_pos; lia). lia.
Qed.
Lemma blocks_one n : 0 < n ≤ 512 → blocks n = 1%nat.
Proof.
  intros H. unfold blocks. replace ((n + 511) / 512) with 1; [done|].
  apply (Z.div_unique _ _ _ (n - 1)); lia.
Qed.
Lemma blocks_pos n : 0 < n → (1 ≤ blocks n)%nat.
Proof.
  intros H. unfold blocks. assert (1 ≤ (n + 511) / 512) by (apply Z.div_le_lower_bound; lia). lia.
Qed.

Lemma write_blocks_nil Cs start : write_blocks Cs start [] = Cs.
Proof. by destruct Cs. Qed.
Lemma write_blocks_cons C Cs start rest :
  rest ≠ [] → write_blocks (C :: Cs) start rest =
    write_block C start (take (Z.to_nat (512 - start)) rest) ::
    write_blocks Cs 0 (drop (Z.to_nat (512 - start)) rest).
Proof. by destruct rest. Qed.

Lemma write_loop_wp fuel offset skip buf : ∀ l1 cur l2 cur_offset bw start d (Q : Z * Z → disk → Prop),
  Z.of_nat (length buf) < 2 ^ 32 → 0 ≤ bw < Z.of_nat (length buf) → 0 ≤ start < 512 →
  (bw = 0 ∧ start = skip ∧ 0 ≤ cur_offset ≤ offset ∧ offset < 2 ^ 32 ∨ 0 < bw ∧ start = 0) →
  file_chain fs d (l1 ++ cur :: l2) →
  let rest := drop (Z.to_nat bw) buf in
  let B := blocks (start + Z.of_nat (length rest)) in
  let need := (B - S (length l2))%nat in
  Z.of_nat need ≤ free_clusters fs d → (B ≤ fuel)%nat →
  (∀ l' d', length l' = need → grown (l1 ++ cur :: l2) l' d d' →
     sectors fs d' (l1 ++ cur :: l2 ++ l') =
       sectors fs d l1 ++ write_blocks (sectors fs d (cur :: l2) ++ replicate need zero_block) start rest →
     Q (Z.of_nat (length buf), default 0 ((cur :: l2 ++ l') !! (B - 1)%nat)) d') →
  wp (write_loop fuel fs offset skip buf cur cur_offset bw) Q d.
Proof.
  induction fuel as [|fuel IH]; intros l1 cur l2 cur_offset bw start d Q Hlb Hbw Hst Hcase Hfile rest B need Hneed Hfuel HQ.
  { assert (1 ≤ B)%nat by (apply blocks_pos; unfold rest; rewrite length_drop; lia). lia. }
  assert (Z.of_nat (length rest) = Z.of_nat (length buf) - bw) as Hlr by (unfold rest; rewrite length_drop; lia).
  cbn [write_loop]. rewrite (proj2 (Z.ltb_lt _ _)) by lia.
  assert (∀ c, c ∈ l1 ++ cur :: l2 → valid_cluster fs c) as Hval by (intros c; by apply (file_chain_valid d)).
  assert (valid_cluster fs cur) as Hcv by (apply Hval, elem_of_app; right; by left).
  pose proof (chain_NoDup fs d _ (proj1 Hfile)) as Hnd.
  apply NoDup_app in Hnd as (Hnd1 & Hdis & Hnd2). apply NoDup_cons in Hnd2 as [Hncur Hnd2].
  apply wp_bind, write_sectors_wp with (start := start); [done|done|done|done|done|].
  intros d1 rest' -> Hout Hin. fold rest in Hin |- *.
  destruct (write_data d d1 cur Hout Hcv) as [Hfat Hdata].
  assert (file_chain fs d1 (l1 ++ cur :: l2)) as Hfile1.
  { apply (file_chain_ext d); [|done]. intros c Hc. apply Hfat. by apply Hval. }
  assert (free_clusters fs d1 = free_clusters fs d) as Hfree1
    by (apply free_clusters_ext; intros c Hc; apply Hfat; lia).
  assert (sectors fs d1 l1 = sectors fs d l1) as Hs1.
  { unfold sectors. apply list_fmap_ext. intros i c Hc%list_elem_of_lookup_2. apply Hdata. intros ->.
    apply (Hdis cur Hc). by left. }
  assert (sectors fs d1 l2 = sectors fs d l2) as Hs2.
  { unfold sectors. apply list_fmap_ext. intros i c Hc%list_elem_of_lookup_2. apply Hdata. by intros ->. }
  assert (only_changes fs (l1 ++ cur :: l2) d d1) as Honly1.
  { intros a Ha. apply Hout. apply (Ha cur), elem_of_app. right. by left. }
  assert (rest ≠ []) as Hrne by (intros E; rewrite E in Hlr; cbn in Hlr; lia).
  destruct (Z.leb_spec (Z.of_nat (length rest)) (512 - start)) as [Hle|Hgt].
  - assert (B = 1%nat) as HB by (apply blocks_one; lia).
    assert (need = 0%nat) as Hn0 by (unfold need; lia). rewrite Hn0, HB in HQ.
    apply wp_ret. apply (HQ [] d1); [done| |].
    + split; [by rewrite app_nil_r|cbn; lia|by rewrite app_nil_r].
    + cbn [replicate]. rewrite !app_nil_r, sectors_app, !sectors_cons, Hs1, Hs2, Hin.
      rewrite write_blocks_cons by done. by rewrite (drop_ge rest), write_blocks_nil by lia.
  - set (rest2 := drop (Z.to_nat (512 - start)) rest).
    assert (rest2 = drop (Z.to_nat (bw + (512 - start))) buf) as Er2.
    { unfold rest2, rest. rewrite drop_drop. f_equal. lia. }
    assert (Z.of_nat (length rest2) = start + Z.of_nat (length rest) - 512) as Hl2
      by (unfold rest2; rewrite length_drop; lia).
    assert (B = S (blocks (0 + Z.of_nat (length rest2)))) as HB.
    { unfold B. rewrite blocks_step by lia. do 2 f_equal. lia. }
    pose proof (blocks_pos (0 + Z.of_nat (length rest2)) ltac:(lia)) as HB1.
    apply wp_bind, (next_or_alloc_wp l1 cur l2); [done|]. destruct l2 as [|x l2].
    + split; [rewrite Hfree1; unfold need in Hneed; cbn [length] in Hneed; lia|]. intros new d2 Hlink.
      assert (∀ c, c ∈ l1 ++ [cur] → 2 ≤ c ∧ c ≠ new) as Hold.
      { intros c Hc. destruct (Hval c Hc). split; [lia|]. intros ->. by apply (ln_fresh _ _ _ _ _ Hlink). }
      apply (IH (l1 ++ [cur]) new [] _ _ 0); [done|lia|lia|right; lia| | | |].
      * rewrite <- (assoc_L (++)). apply (ln_chain _ _ _ _ _ Hlink).
      * rewrite <- Er2. rewrite (ln_free _ _ _ _ _ Hlink), Hfree1. unfold need in Hneed. cbn [length] in *. lia.
      * rewrite <- Er2. lia.
      * rewrite <- Er2. intros l' d' Hl' Hg Hs. cbn [length] in Hl'.
        assert (need = S (length l')) as En by (unfold need; cbn [length]; lia).
        rewrite <- (assoc_L (++)) in Hg. cbn [app] in Hg, Hs.
        replace (default 0 _) with (default 0 ((cur :: [] ++ (new :: l')) !! (B - 1)%nat)).
        2: { rewrite HB. replace (S (blocks (0 + Z.of_nat (length rest2))) - 1)%nat
               with (S (blocks (0 + Z.of_nat (length rest2)) - 1)) by lia. done. }
        apply (HQ (new :: l') d'); [done| |].
        -- apply (grown_trans _ [new] l' _ d2).
           ++ destruct (grown_linked _ _ _ _ _ Hlink) as [G1 G2 G3]. split; [done|lia|].
              eapply only_changes_trans; [exact Honly1|exact G3|]. intros c Hc. apply elem_of_app. by left.
           ++ by rewrite <- (assoc_L (++)).
        -- rewrite <- (assoc_L (++)) in Hs. cbn [app] in Hs |- *. rewrite Hs.
           rewrite (linked_sectors _ _ _ _ _ _ Hlink Hold), sectors_app, !sectors_cons, Hs1, Hin.
           rewrite <- (assoc_L (++)), En, (ln_zero _ _ _ _ _ Hlink). cbn [replicate app sectors fmap list_fmap].
           rewrite (write_blocks_cons _ _ _ rest) by done. do 4 f_equal. cbn [length]. do 2 f_equal. lia.
    + apply (IH (l1 ++ [cur]) x l2 _ _ 0); [done|lia|lia|right; lia| | | |].
      * by rewrite <- (assoc_L (++)).
      * rewrite <- Er2. rewrite Hfree1. unfold need in Hneed. cbn [length] in *. lia.
      * rewrite <- Er2. lia.
      * rewrite <- Er2. intros l' d' Hl' Hg Hs. cbn [length] in Hl'.
        assert (need = length l') as En by (unfold need; cbn [length]; lia).
        rewrite <- (assoc_L (++)) in Hg. cbn [app] in Hg, Hs.
        replace (default 0 _) with (default 0 ((cur :: (x :: l2) ++ l') !! (B - 1)%nat)).
        2: { rewrite HB. replace (S (blocks (0 + Z.of_nat (length rest2))) - 1)%nat
               with (S (blocks (0 + Z.of_nat (length rest2)) - 1)) by lia. done. }
        apply (HQ l' d'); [done| |].
        -- destruct Hg as [G1 G2 G3]. split; [done|lia|].
           eapply only_changes_trans; [exact Honly1|exact G3|]. intros c Hc. apply elem_of_app. by left.
        -- rewrite <- (assoc_L (++)) in Hs. cbn [app] in Hs |- *. rewrite Hs.
           rewrite sectors_app, Hs2, !(sectors_cons _ cur), Hs1. cbn [sectors fmap list_fmap]. rewrite Hin.
           rewrite <- (assoc_L (++)), En. cbn [app].
           rewrite (write_blocks_cons _ _ _ rest) by done. by rewrite Hl'.
Qed.

Lemma write_skip_wp fuel offset : ∀ l1 cur l2 k d (Q : option (Z * Z) → disk → Prop),
  file_chain fs d (l1 ++ cur :: l2) → 0 ≤ k → k * 512 ≤ offset → offset + 512 < 2 ^ 32 →
  let steps := Z.to_nat (offset / 512 - k) in
  let need := (steps - length l2)%nat in
  Z.of_nat need ≤ free_clusters fs d → (steps < fuel)%nat →
  (∀ l' l3 c l4 d', length l' = need → grown (l1 ++ cur :: l2) l' d d' →
     cur :: l2 ++ l' = l3 ++ c :: l4 → length l3 = steps →
     sectors fs d' (l1 ++ cur :: l2 ++ l') = sectors fs d (l1 ++ cur :: l2) ++ replicate need zero_block →
     Q (Some (c, offset / 512 * 512)) d') →
  wp (write_skip fuel fs offset cur (k * 512)) Q d.
Proof.
  induction fuel as [|fuel IH]; intros l1 cur l2 k d Q Hfile H0 Hk Ho steps need Hneed Hfuel HQ; [lia|].
  cbn [write_skip]. rewrite (cluster_size_512 fs Hspc).
  assert (u32 (k * 512 + 512) = (k + 1) * 512) as -> by (unfold u32; rewrite Z.mod_small by lia; lia).
  assert (∀ c, c ∈ l1 ++ cur :: l2 → valid_cluster fs c) as Hval by (intros c; by apply (file_chain_valid d)).
  destruct (Z.leb_spec ((k + 1) * 512) offset) as [Hle|Hlt].
  - assert (k + 1 ≤ offset / 512) as Hk1 by (apply Z.div_le_lower_bound; lia).
    assert (steps = S (Z.to_nat (offset / 512 - (k + 1)))) as Hs by lia.
    apply wp_bind, (next_or_alloc_wp l1 cur l2); [done|]. destruct l2 as [|x l2].
    + split; [unfold need in Hneed; cbn [length] in Hneed; lia|]. intros new d2 Hlink.
      assert (∀ c, c ∈ l1 ++ [cur] → 2 ≤ c ∧ c ≠ new) as Hold.
      { intros c Hc. destruct (Hval c Hc). split; [lia|]. intros ->. by apply (ln_fresh _ _ _ _ _ Hlink). }
      apply (IH (l1 ++ [cur]) new []); [|lia|lia|lia| | |].
      * rewrite <- (assoc_L (++)). apply (ln_chain _ _ _ _ _ Hlink).
      * rewrite (ln_free _ _ _ _ _ Hlink). unfold need in Hneed. cbn [length] in *. lia.
      * lia.
      * intros l' l3 c l4 d' Hl' Hg El Hl3 Hsec. cbn [length] in Hl'.
        assert (need = S (length l')) as En by (unfold need; cbn [length]; lia).
        apply (HQ (new :: l') (cur :: l3) c l4); [done| |by cbn in El |- *; f_equal|cbn; lia|].
        -- apply (grown_trans _ [new] l' _ d2); [by apply grown_linked|done].
        -- rewrite <- !(assoc_L (++)) in Hsec. cbn [app] in Hsec |- *. rewrite Hsec.
           change (l1 ++ [cur; new]) with (l1 ++ [cur] ++ [new]).
           rewrite (assoc_L (++) l1), sectors_app, (linked_sectors _ _ _ _ _ _ Hlink Hold), En, <- (assoc_L (++)).
           f_equal. cbn [replicate sectors fmap list_fmap app]. rewrite (ln_zero _ _ _ _ _ Hlink). f_equal.
           f_equal. cbn [length] in Hl' |- *. lia.
    + apply (IH (l1 ++ [cur]) x l2); [|lia|lia|lia| | |].
      * by rewrite <- (assoc_L (++)).
      * unfold need in Hneed. cbn [length] in *. lia.
      * lia.
      * intros l' l3 c l4 d' Hl' Hg El Hl3 Hsec.
        assert (need = length l') as En by (unfold need; cbn [length]; lia).
        rewrite <- !(assoc_L (++)) in Hsec, Hg. cbn [app] in Hsec, Hg.
        apply (HQ l' (cur :: l3) c l4); [done|done|by cbn in El |- *; f_equal|cbn; lia|].
        cbn [app]. rewrite Hsec, En, Hl', <- (assoc_L (++)). done.
  - assert (offset / 512 = k) as Hd by (symmetry; apply (Z.div_unique _ _ _ (offset - k * 512)); lia).
    assert (steps = 0%nat) as Hs by lia. assert (need = 0%nat) as Hn by (unfold need; lia).
    apply wp_ret. replace (k * 512) with (offset / 512 * 512) by lia. rewrite Hs, Hn in HQ.
    apply (HQ [] [] cur l2 d); [done|by apply grown_refl|by rewrite app_nil_r|done|]. by rewrite !app_nil_r.
Qed.

(** The file after a write: its sectors, zero sectors behind them as far as the write
    reaches, and the write over these from [offset]. *)
Definition write_reach (offset : Z) (buf : list Z) : nat :=
  (Z.to_nat (offset / 512) + blocks (offset mod 512 + Z.of_nat (length buf)))%nat.
Definition written (Cs : list (list Z)) (offset : Z) (buf : list Z) : list (list Z) :=
  let padded := Cs ++ replicate (write_reach offset buf - length Cs) zero_block in
  let k := Z.to_nat (offset / 512) in
  take k padded ++ write_blocks (drop k padded) (offset mod 512) buf.

Lemma write_file_wp fuel c l offset buf d (Q : Z * Z → disk → Prop) :
  file_chain fs d (c :: l) → buf ≠ [] → Z.of_nat (length buf) < 2 ^ 32 → 0 ≤ offset → offset + 512 < 2 ^ 32 →
  let need := (write_reach offset buf - length (c :: l))%nat in
  Z.of_nat need ≤ free_clusters fs d → (write_reach offset buf < fuel)%nat →
  (∀ l' d', length l' = need → grown (c :: l) l' d d' →
     sectors fs d' (c :: l ++ l') = written (sectors fs d (c :: l)) offset buf →
     Q (Z.of_nat (length buf), default 0 ((c :: l ++ l') !! (write_reach offset buf - 1)%nat)) d') →
  wp (write_file fuel fs c offset buf) Q d.
Proof.
  intros Hfile Hbuf Hlb H0 Ho need Hneed Hfuel HQ.
  pose proof (file_chain_valid d (c :: l) c Hfile ltac:(by left)) as [Hc _].
  assert (0 < Z.of_nat (length buf)) as Hlen by (destruct buf; [done|cbn; lia]).
  pose proof (Z.mul_div_le offset 512 ltac:(lia)). pose proof (Z.mul_succ_div_gt offset 512 ltac:(lia)).
  assert (offset mod 512 = offset - offset / 512 * 512) as Em by (rewrite Z.mod_eq; lia).
  assert (0 ≤ offset / 512) as Hq by (apply Z.div_pos; lia).
  set (B := blocks (offset mod 512 + Z.of_nat (length buf))).
  assert (write_reach offset buf = Z.to_nat (offset / 512) + B)%nat as ER by done.
  pose proof (blocks_pos (offset mod 512 + Z.of_nat (length buf)) ltac:(lia)) as HB. fold B in HB.
  unfold write_file. rewrite (proj2 (Z.ltb_ge _ _)) by lia.
  apply wp_bind, (write_skip_wp fuel offset [] c l 0); [done|lia|lia|done| |lia|].
  { rewrite Z.sub_0_r. unfold need in Hneed. cbn [length] in Hneed. lia. }
  rewrite Z.sub_0_r. intros l1' l3 cur l4 d1 Hl1 Hg1 El Hl3 Hs1. cbn [app] in *.
  assert (u32 (offset - offset / 512 * 512) = offset mod 512) as ->
    by (rewrite Em; unfold u32; apply Z.mod_small; lia).
  destruct Hg1 as [G1 G2 G3]. cbn [app] in G1.
  apply (write_loop_wp fuel offset (offset mod 512) buf l3 cur l4 _ 0 (offset mod 512)); [done|lia|lia|left; split; [done|split; [done|lia]]| | |change (drop (Z.to_nat 0) buf) with buf; fold B; lia|].
  - by rewrite <- El.
  - change (drop (Z.to_nat 0) buf) with buf. fold B. rewrite G2. apply (f_equal length) in El. rewrite length_app in El.
    unfold need in Hneed. cbn [length] in *. rewrite length_app in El. lia.
  - change (drop (Z.to_nat 0) buf) with buf. fold B. intros l2' d2 Hl2 Hg2 Hs2.
    rewrite <- El in Hg2. pose proof (f_equal length El) as Elen. rewrite length_app in Elen.
    cbn [length] in Elen. rewrite length_app in Elen.
    assert (length (l1' ++ l2') = need) as Hn by (rewrite length_app; unfold need; cbn [length]; lia).
    assert (default 0 ((cur :: l4 ++ l2') !! (B - 1)%nat) =
            default 0 ((c :: l ++ l1' ++ l2') !! (write_reach offset buf - 1)%nat)) as ->.
    { f_equal. rewrite (assoc_L (++) l). change (c :: (l ++ l1') ++ l2') with ((c :: l ++ l1') ++ l2').
      rewrite El, <- (assoc_L (++)). cbn [app]. rewrite (lookup_app_r l3) by lia. f_equal. lia. }
    apply (HQ (l1' ++ l2') d2); [done| |].
    + apply (grown_trans (c :: l) l1' l2' d d1 d2); [by split|done].
    + assert (c :: l ++ l1' ++ l2' = l3 ++ cur :: l4 ++ l2') as ->.
      { rewrite (assoc_L (++) l). change (c :: (l ++ l1') ++ l2') with ((c :: l ++ l1') ++ l2').
        by rewrite El, <- (assoc_L (++)). }
      rewrite Hs2. rewrite El in Hs1. rewrite sectors_app in Hs1.
      assert (length (sectors fs d1 l3) = Z.to_nat (offset / 512)) as Hls
        by (unfold sectors; rewrite length_fmap; lia).
      unfold written.
      assert (length (sectors fs d (c :: l)) = S (length l)) as -> by (unfold sectors; by rewrite length_fmap).
      replace (write_reach offset buf - S (length l))%nat with
        ((Z.to_nat (offset / 512) - length l) + (B - S (length l4)))%nat by lia.
      rewrite replicate_add, (assoc_L (++)), <- Hs1, <- (assoc_L (++)).
      rewrite <- Hls, take_app_length, drop_app_length. done.
Qed.
End writing.
