(* ===== verification/FatDir.v ===== *)
(** Directories of the FAT32 volume: walking, looking up, creating, updating and deleting
    entries ([src/user/programs/fs-server/src/main.rs]).

    A path or a name is the list of its UTF-8 bytes.  The callback of [walk_dir] never
    touches the disk; it is a function on the value it captures.  [update_dir_entry_size]
    and [delete_dir_entry] repeat [walk_dir]'s decoding of a 32-byte slot; the model shares
    it ([scan_slot]).  A [return] inside a loop is the left value of a sum. *)

From S2P Require Import Prelude Bytes Initrd FatDisk.

(** ** Entries and names *)

Record DirEntry : Type := mkDirEntry {
  de_name : list Z; de_ext : list Z; de_attr : Z; nt_res : Z; create_time_tenth : Z;
  create_time : Z; create_date : Z; access_date : Z; first_cluster_hi : Z;
  modify_time : Z; modify_date : Z; first_cluster_lo : Z; de_file_size : Z;
}.
(** The packed structure in a 32-byte slot. *)
Definition read_dir_entry (e : list Z) : DirEntry :=
  mkDirEntry (take 8 e) (take 3 (drop 8 e)) (byte_at e 11) (byte_at e 12) (byte_at e 13)
    (le 2 e 14) (le 2 e 16) (le 2 e 18) (le 2 e 20) (le 2 e 22) (le 2 e 24) (le 2 e 26) (le 4 e 28).
(** [((e.first_cluster_hi as u32) << 16) | e.first_cluster_lo as u32]. *)
Definition entry_cluster (e : DirEntry) : Z :=
  Z.lor (u32 (Z.shiftl (first_cluster_hi e) 16)) (first_cluster_lo e).

Definition SPACE : Z := 32.
Definition LFN_CAPACITY : Z := 256.
Definition ENTRIES_PER_SECTOR : Z := BLOCK_SIZE / 32.

(** The thirteen UTF-16 units of a long-name slot. *)
Definition lfn_chars (e : list Z) : list Z :=
  ((λ ci, le 2 e (1 + ci * 2)) <$> seqZ 0 5) ++ ((λ ci, le 2 e (14 + ci * 2)) <$> seqZ 0 6) ++
  ((λ ci, le 2 e (28 + ci * 2)) <$> seqZ 0 2).
(** [((order & 0x3F) as usize).saturating_sub(1)]. *)
Definition lfn_index (order : Z) : Z := Z.max 0 (Z.land order 0x3F - 1).

(** The name collected so far: [lfn_buf] and [lfn_len]. *)
Abbreviation lfn := (list Z * Z)%type.
Definition lfn_empty : lfn := (replicate (Z.to_nat LFN_CAPACITY) 0, 0).
Definition add_lfn (e : list Z) (l : lfn) : FS lfn :=
  let '(lfn_buf, lfn_len) := l in
  let idx := lfn_index (byte_at e 0) in
  if idx <? 20 then
    let base := idx * 13 in
    lfn_buf ← (if base + 13 <=? LFN_CAPACITY then unwrap (copy_into lfn_buf base (lfn_chars e))
               else mret lfn_buf);
    mret (lfn_buf, Z.max lfn_len (base + 13))
  else mret (lfn_buf, lfn_len).

(** UTF-16 to bytes: the indices [0..lfn_len]; [lfn_buf[j]] panics out of range. *)
Fixpoint lfn_name (js : list Z) (lfn_buf name : list Z) : FS (list Z) :=
  match js with
  | [] => mret name
  | j :: js =>
      ch ← unwrap (lfn_buf !! Z.to_nat j);
      if (ch =? 0) || (ch =? 0xFFFF) then mret name
      else if (ch <? 0x80) && (Z.of_nat (length name) <? 256) then lfn_name js lfn_buf (name ++ [u8 ch])
      else lfn_name js lfn_buf name
  end.

Fixpoint until_space (bs : list Z) : list Z :=
  match bs with
  | [] => []
  | b :: bs => if b =? SPACE then [] else b :: until_space bs
  end.
(** The 8.3 name. *)
Definition short_display (name ext : list Z) : list Z :=
  until_space name ++ (if byte_at ext 0 =? SPACE then [] else 46 :: until_space ext).

(** What a slot is: the end of the directory ([None]), a deleted or long-name slot, or an
    entry with its name; with the long name collected afterwards. *)
Definition scan_slot (e : list Z) (l : lfn) : FS (option (option (list Z) * lfn)) :=
  let first := byte_at e 0 in
  if first =? 0x00 then mret None
  else if first =? 0xE5 then mret (Some (None, (l.1, 0)))
  else if byte_at e 11 =? 0x0F then l ← add_lfn e l; mret (Some (None, l))
  else if 0 <? l.2 then
    name ← lfn_name (seqZ 0 l.2) l.1 [];
    mret (Some (Some name, (l.1, 0)))
  else mret (Some (Some (short_display (take 8 e) (take 3 (drop 8 e))), (l.1, 0))).
(** [&buf[i * 32..(i + 1) * 32]]. *)
Definition slot (buf : list Z) (i : Z) : list Z := take 32 (drop (Z.to_nat (i * 32)) buf).

(** ** Walking *)

Section walk.
Context {B : Type} (f : DirEntry → list Z → B → B).

Fixpoint walk_slots (idxs : list Z) (buf : list Z) (acc : B) (l : lfn) : FS (B + (B * lfn)) :=
  match idxs with
  | [] => mret (inr (acc, l))
  | i :: idxs =>
      o ← scan_slot (slot buf i) l;
      match o with
      | None => mret (inl acc)
      | Some (None, l) => walk_slots idxs buf acc l
      | Some (Some name, l) => walk_slots idxs buf (f (read_dir_entry (slot buf i)) name acc) l
      end
  end.
Fixpoint walk_sectors (self : Fat32Fs) (ss : list Z) (cluster : Z) (acc : B) (l : lfn) :
  FS ((bool * B) + (B * lfn)) :=
  match ss with
  | [] => mret (inr (acc, l))
  | s :: ss =>
      o ← disk_read (cluster_to_sector self cluster +' s) BLOCK_SIZE;
      match o with
      | None => mret (inl (false, acc))
      | Some buf =>
          r ← walk_slots (seqZ 0 ENTRIES_PER_SECTOR) buf acc l;
          match r with
          | inl acc => mret (inl (true, acc))
          | inr (acc, l) => walk_sectors self ss cluster acc l
          end
      end
  end.
Fixpoint walk_loop (fuel : nat) (self : Fat32Fs) (cluster : Z) (acc : B) (l : lfn) : FS (bool * B) :=
  match fuel with
  | O => diverge
  | S fuel =>
      r ← walk_sectors self (seqZ 0 (spc self)) cluster acc l;
      match r with
      | inl res => mret res
      | inr (acc, l) =>
          o ← fat_next self cluster;
          match chain_next o with
          | Some next => walk_loop fuel self next acc l
          | None => mret (true, acc)
          end
      end
  end.
Definition walk_dir (fuel : nat) (self : Fat32Fs) (dir_cluster : Z) (acc : B) : FS (bool * B) :=
  walk_loop fuel self dir_cluster acc lfn_empty.
End walk.

(** ** Looking up *)

Definition to_lower (b : Z) : Z := if (65 <=? b) && (b <=? 90) then b + 32 else b.
Definition to_upper (b : Z) : Z := if (97 <=? b) && (b <=? 122) then b - 32 else b.
(** Equal length and [eq_ignore_ascii_case] byte by byte. *)
Definition same_name (a b : list Z) : bool := bool_decide (to_lower <$> a = to_lower <$> b).

Definition find_entry (fuel : nat) (self : Fat32Fs) (dir_cluster : Z) (search : list Z) :
  FS (option (DirEntry * list Z)) :=
  r ← walk_dir (λ entry entry_name result,
         match result with
         | Some _ => result
         | None => if same_name entry_name search then Some (entry, entry_name) else None
         end) fuel self dir_cluster None;
  mret r.2.

Definition SLASH : Z := 47.
Fixpoint trim_start (c : Z) (bs : list Z) : list Z :=
  match bs with
  | b :: bs' => if b =? c then trim_start c bs' else bs
  | [] => []
  end.
Definition trim_end (c : Z) (bs : list Z) : list Z := reverse (trim_start c (reverse bs)).
(** [path.split('/')]. *)
Fixpoint split_at (c : Z) (bs : list Z) : list (list Z) :=
  match bs with
  | [] => [[]]
  | b :: bs =>
      match split_at c bs with
      | [] => [[]]
      | comp :: comps => if b =? c then [] :: comp :: comps else (b :: comp) :: comps
      end
  end.
(** [path.find(component)]: the first occurrence. *)
Fixpoint find_sub (pat bs : list Z) : option nat :=
  if bool_decide (take (length pat) bs = pat) then Some 0%nat
  else match bs with
       | [] => None
       | _ :: bs => S <$> find_sub pat bs
       end.
(** [path.rfind(c)]. *)
Fixpoint rfind (c : Z) (bs : list Z) : option nat :=
  match bs with
  | [] => None
  | b :: bs =>
      match rfind c bs with
      | Some i => Some (S i)
      | None => if b =? c then Some 0%nat else None
      end
  end.
Definition contains (c : Z) (bs : list Z) : bool := existsb (Z.eqb c) bs.

(** The entry made up for the root directory. *)
Definition root_entry (self : Fat32Fs) : DirEntry :=
  mkDirEntry (replicate 8 SPACE) (replicate 3 SPACE) ATTR_DIRECTORY 0 0 0 0 0
    (u16 (Z.shiftr (root_cluster self) 16)) 0 0 (Z.land (root_cluster self) 0xFFFF) 0.

Fixpoint resolve_components (fuel : nat) (self : Fat32Fs) (path : list Z) (comps : list (list Z))
    (cluster : Z) (last : option (DirEntry * list Z)) : FS (option (DirEntry * list Z)) :=
  match comps with
  | [] => mret last
  | component :: comps =>
      if bool_decide (component = []) then resolve_components fuel self path comps cluster last
      else
        o ← find_entry fuel self cluster component;
        match o with
        | None => mret None
        | Some (entry, name) =>
            if negb (Z.land (de_attr entry) ATTR_DIRECTORY =? 0) then
              resolve_components fuel self path comps (entry_cluster entry) (Some (entry, name))
            else
              i ← unwrap (find_sub component path);
              if contains SLASH (drop (i + length component) path) then mret None
              else resolve_components fuel self path comps cluster (Some (entry, name))
        end
  end.
Definition resolve_path (fuel : nat) (self : Fat32Fs) (path : list Z) : FS (option (DirEntry * list Z)) :=
  let path := trim_start SLASH path in
  if bool_decide (path = []) then mret (Some (root_entry self, [SLASH]))
  else resolve_components fuel self path (split_at SLASH path) (root_cluster self) None.
