(* ===== verification/FatEdit.v ===== *)
(** Changing directories: short names, creating, updating and deleting entries, new
    directories and truncation ([src/user/programs/fs-server/src/main.rs]). *)

From S2P Require Import Prelude Bytes Initrd FatDisk FatDir.

(** ** Short names *)

(** [sum = (sum >> 1).wrapping_add(sum << 7).wrapping_add(b)] on bytes. *)
Definition lfn_checksum (short_name : list Z) : Z :=
  foldl (λ sum b, u8 (u8 (Z.shiftr sum 1 + u8 (Z.shiftl sum 7)) + b)) 0 short_name.

Definition is_alphanumeric (c : Z) : bool :=
  ((48 <=? c) && (c <=? 57)) || ((65 <=? c) && (c <=? 90)) || ((97 <=? c) && (c <=? 122)).
Definition name_char (c : Z) : bool := is_alphanumeric c || (c =? 95).
Definition pad_spaces (n : nat) (bs : list Z) : list Z := bs ++ replicate (n - length bs) SPACE.

(** The parts before and after the last dot. *)
Definition split_name (long_name : list Z) : list Z * list Z :=
  match rfind 46 long_name with
  | Some dot_pos => (take dot_pos long_name, drop (S dot_pos) long_name)
  | None => (long_name, [])
  end.
Definition is_valid_83 (name_part ext_part : list Z) : bool :=
  (0 <? Z.of_nat (length name_part)) && (Z.of_nat (length name_part) <=? 8) &&
  (Z.of_nat (length ext_part) <=? 3) && forallb name_char name_part && forallb name_char ext_part.
(** The first six usable characters and [~1]. *)
Definition tilde_base (name_part : list Z) : list Z :=
  pad_spaces 6 (take 6 (to_upper <$> List.filter name_char name_part)) ++ [126; 49].

(** The search for a short name no entry has: [n] runs over [1..=99]. *)
Definition has_short (short_name : list Z) (e : DirEntry) (_ : list Z) (found : bool) : bool :=
  found || bool_decide (de_name e ++ de_ext e = short_name).
Fixpoint resolve_conflict (ns : list Z) (fuel : nat) (self : Fat32Fs) (dir_cluster : Z)
    (base ext : list Z) : FS (list Z) :=
  match ns with
  | [] => mret (base ++ ext)
  | n :: ns =>
      r ← walk_dir (has_short (base ++ ext)) fuel self dir_cluster false;
      if negb r.2 then mret (base ++ ext)
      else
        let base := if n <? 10 then take 7 base ++ [u8 (48 + n)]
                    else take 6 base ++ [126; u8 (48 + n)] in
        resolve_conflict ns fuel self dir_cluster base ext
  end.
(** The eleven bytes of the short name. *)
Definition make_short_name (fuel : nat) (self : Fat32Fs) (long_name : list Z) (dir_cluster : Z) : FS (list Z) :=
  let '(name_part, ext_part) := split_name long_name in
  if is_valid_83 name_part ext_part then
    mret (pad_spaces 8 (to_upper <$> name_part) ++ pad_spaces 3 (to_upper <$> ext_part))
  else
    resolve_conflict (seqZ 1 99) fuel self dir_cluster (tilde_base name_part)
      (pad_spaces 3 (to_upper <$> take 3 ext_part)).

(** ** Long names *)

(** [encode_utf16] of a valid UTF-8 string. *)
Definition cont (b : Z) : Z := Z.land b 0x3F.
Definition utf16_units (c : Z) : list Z :=
  if c <? 0x10000 then [c]
  else let c := c - 0x10000 in [0xD800 + c / 0x400; 0xDC00 + c mod 0x400].
Fixpoint encode_utf16 (bs : list Z) : list Z :=
  match bs with
  | [] => []
  | b0 :: bs0 =>
      if b0 <? 0x80 then b0 :: encode_utf16 bs0
      else match bs0 with
      | [] => []
      | b1 :: bs1 =>
          if b0 <? 0xE0 then utf16_units (Z.land b0 0x1F * 64 + cont b1) ++ encode_utf16 bs1
          else match bs1 with
          | [] => []
          | b2 :: bs2 =>
              if b0 <? 0xF0 then
                utf16_units (Z.land b0 0x0F * 4096 + cont b1 * 64 + cont b2) ++ encode_utf16 bs2
              else match bs2 with
              | [] => []
              | b3 :: bs3 =>
                  utf16_units (Z.land b0 0x07 * 262144 + cont b1 * 4096 + cont b2 * 64 + cont b3)
                    ++ encode_utf16 bs3
              end
          end
      end
  end.

(** The unit at [char_idx] of a slot: the name, a terminator, then padding. *)
Definition lfn_unit (name_chars : list Z) (char_idx : Z) : Z :=
  let name_len := Z.of_nat (length name_chars) in
  if char_idx <? name_len then default 0 (name_chars !! Z.to_nat char_idx)
  else if char_idx =? name_len then 0x0000 else 0xFFFF.
Definition lfn_units (name_chars : list Z) (first count : Z) : list Z :=
  mbind (λ ci, le_bytes 2 (lfn_unit name_chars ci)) (seqZ first count).
(** The 32 bytes of long-name slot [lfn_idx], except the two at offset 26. *)
Definition put_lfn (name_chars : list Z) (checksum lfn_count start_idx lfn_idx : Z) (buf : list Z) :
  option (list Z) :=
  let entry_offset := (start_idx + (lfn_count - 1 - lfn_idx)) * 32 in
  let order := u8 (lfn_idx + 1) in
  let last_flag := if lfn_idx =? lfn_count - 1 then Z.lor order 0x40 else order in
  let char_base := lfn_idx * 13 in
  buf ← copy_into buf entry_offset
          ([last_flag] ++ lfn_units name_chars char_base 5 ++ [0x0F; 0; checksum] ++
           lfn_units name_chars (char_base + 5) 6);
  copy_into buf (entry_offset + 28) (lfn_units name_chars (char_base + 11) 2).
Fixpoint put_lfns (idxs : list Z) (name_chars : list Z) (checksum lfn_count start_idx : Z) (buf : list Z) :
  option (list Z) :=
  match idxs with
  | [] => Some buf
  | lfn_idx :: idxs =>
      buf ← put_lfn name_chars checksum lfn_count start_idx lfn_idx buf;
      put_lfns idxs name_chars checksum lfn_count start_idx buf
  end.
(** The bytes of a cluster number in an entry: at offsets 20 and 26. *)
Definition cluster_hi_bytes (c : Z) : list Z := [u8 (Z.shiftr c 16); u8 (Z.shiftr c 24)].
Definition cluster_lo_bytes (c : Z) : list Z := [Z.land c 0xFF; Z.land (Z.shiftr c 8) 0xFF].
Definition put_short (short : list Z) (attr first_cluster file_size short_offset : Z) (buf : list Z) :
  option (list Z) :=
  buf ← copy_into buf short_offset (short ++ [attr]);
  buf ← copy_into buf (short_offset + 20) (cluster_hi_bytes first_cluster);
  copy_into buf (short_offset + 26) (cluster_lo_bytes first_cluster ++ le_bytes 4 file_size).

(** ** Creating *)

Definition slot_free (buf : list Z) (i : Z) : bool :=
  let first := byte_at buf (i * 32) in (first =? 0x00) || (first =? 0xE5).
(** The first run of [total_entries] free slots in a sector. *)
Fixpoint find_run (idxs : list Z) (buf : list Z) (total_entries : Z) (free_start : option Z)
    (free_count : Z) : option Z :=
  match idxs with
  | [] => None
  | i :: idxs =>
      if slot_free buf i then
        let free_start := match free_start with None => i | Some s => s end in
        if total_entries <=? free_count + 1 then Some free_start
        else find_run idxs buf total_entries (Some free_start) (free_count + 1)
      else find_run idxs buf total_entries None 0
  end.

(** What is to be written. *)
Record new_entry : Type := mkNewEntry {
  ne_short : list Z; ne_chars : list Z; ne_attr : Z; ne_cluster : Z; ne_size : Z
}.
Definition lfn_count (name_len : Z) : Z := if name_len <=? 13 then 0 else (name_len + 12) / 13.

(** One sector: the entry is written if there is room; [None] goes on. *)
Definition create_in_sector (sector : Z) (buf : list Z) (ne : new_entry) : FS (option (option (Z * Z))) :=
  let count := lfn_count (Z.of_nat (length (ne_chars ne))) in
  match find_run (seqZ 0 ENTRIES_PER_SECTOR) buf (count + 1) None 0 with
  | None => mret None
  | Some start_idx =>
      buf ← unwrap (put_lfns (reverse (seqZ 0 count)) (ne_chars ne) (lfn_checksum (ne_short ne)) count start_idx buf);
      let short_offset := (start_idx + count) * 32 in
      buf ← unwrap (put_short (ne_short ne) (ne_attr ne) (ne_cluster ne) (ne_size ne) short_offset buf);
      ok ← disk_write sector buf;
      mret (Some (if negb ok then None else Some (sector, short_offset)))
  end.
Fixpoint create_in_cluster (self : Fat32Fs) (ss : list Z) (cluster : Z) (ne : new_entry) :
  FS (option (option (Z * Z))) :=
  match ss with
  | [] => mret None
  | s :: ss =>
      let sector := cluster_to_sector self cluster +' s in
      o ← disk_read sector BLOCK_SIZE;
      match o with
      | None => mret (Some None)
      | Some buf =>
          r ← create_in_sector sector buf ne;
          match r with
          | Some res => mret (Some res)
          | None => create_in_cluster self ss cluster ne
          end
      end
  end.
Fixpoint create_loop (fuel : nat) (self : Fat32Fs) (cluster : Z) (ne : new_entry) : FS (option (Z * Z)) :=
  match fuel with
  | O => diverge
  | S fuel =>
      r ← create_in_cluster self (seqZ 0 (spc self)) cluster ne;
      match r with
      | Some res => mret res
      | None =>
          o ← fat_next self cluster;
          match chain_next o with
          | Some next => create_loop fuel self next ne
          | None =>
              new_cluster ←! alloc_cluster self;
              _ ← fat_set self cluster new_cluster;
              create_loop fuel self new_cluster ne
          end
      end
  end.
Definition create_dir_entry (fuel : nat) (self : Fat32Fs) (dir_cluster : Z) (long_name : list Z)
    (attr first_cluster file_size : Z) : FS (option (Z * Z)) :=
  short ← make_short_name fuel self long_name dir_cluster;
  create_loop fuel self dir_cluster
    (mkNewEntry short (take 256 (encode_utf16 long_name)) attr first_cluster file_size).

(** ** Updating *)

(** The slots of one sector.  The state is [buf], [modified] (which is [found] here, since
    the search ends with the first sector that has a match) and the long name; the end
    mark returns at once. *)
Fixpoint update_slots (idxs : list Z) (search : list Z) (new_size new_cluster : Z) (buf : list Z)
    (found : bool) (l : lfn) : FS (bool + (list Z * bool * lfn)) :=
  match idxs with
  | [] => mret (inr (buf, found, l))
  | i :: idxs =>
      o ← scan_slot (slot buf i) l;
      match o with
      | None => mret (inl found)
      | Some (None, l) => update_slots idxs search new_size new_cluster buf found l
      | Some (Some name, l) =>
          if same_name name search then
            let off := i * 32 in
            buf ← unwrap (copy_into buf (off + 28) (le_bytes 4 new_size));
            buf ← unwrap (copy_into buf (off + 26) (cluster_lo_bytes new_cluster));
            buf ← unwrap (copy_into buf (off + 20) (cluster_hi_bytes new_cluster));
            update_slots idxs search new_size new_cluster buf true l
          else update_slots idxs search new_size new_cluster buf found l
      end
  end.
Fixpoint update_sectors (self : Fat32Fs) (ss : list Z) (cluster : Z) (search : list Z)
    (new_size new_cluster : Z) (l : lfn) : FS (bool + lfn) :=
  match ss with
  | [] => mret (inr l)
  | s :: ss =>
      let sector := cluster_to_sector self cluster +' s in
      o ← disk_read sector BLOCK_SIZE;
      match o with
      | None => mret (inl false)
      | Some buf =>
          r ← update_slots (seqZ 0 ENTRIES_PER_SECTOR) search new_size new_cluster buf false l;
          match r with
          | inl res => mret (inl res)
          | inr (buf, found, l) =>
              ok ← (if (found : bool) then disk_write sector buf else mret true);
              if negb ok then mret (inl false : bool + lfn)
              else if (found : bool) then mret (inl true : bool + lfn)
              else update_sectors self ss cluster search new_size new_cluster l
          end
      end
  end.
Fixpoint update_loop (fuel : nat) (self : Fat32Fs) (cluster : Z) (search : list Z)
    (new_size new_cluster : Z) (l : lfn) : FS bool :=
  match fuel with
  | O => diverge
  | S fuel =>
      r ← update_sectors self (seqZ 0 (spc self)) cluster search new_size new_cluster l;
      match r with
      | inl res => mret res
      | inr l =>
          o ← fat_next self cluster;
          match chain_next o with
          | Some next => update_loop fuel self next search new_size new_cluster l
          | None => mret false
          end
      end
  end.
Definition update_dir_entry_size (fuel : nat) (self : Fat32Fs) (dir_cluster : Z) (name : list Z)
    (new_size new_cluster : Z) : FS bool :=
  update_loop fuel self dir_cluster name new_size new_cluster lfn_empty.

(** ** Deleting *)

(** The mark of a deleted slot, on the slots [idxs]. *)
Fixpoint mark_deleted (idxs : list Z) (buf : list Z) : option (list Z) :=
  match idxs with
  | [] => Some buf
  | li :: idxs => buf ← set_byte buf (li * 32) 0xE5; mark_deleted idxs buf
  end.
(** The slots of one sector; [start] is [(lfn_start_sector, lfn_start_idx)].  When the name
    matches, [lfn_len] has just been set to 0. *)
Fixpoint delete_slots (idxs : list Z) (sector : Z) (search : list Z) (buf : list Z)
    (l : lfn) (start : Z * Z) : FS (bool + (lfn * (Z * Z))) :=
  match idxs with
  | [] => mret (inr (l, start))
  | i :: idxs =>
      let start := if negb (byte_at (slot buf i) 0 =? 0x00) && negb (byte_at (slot buf i) 0 =? 0xE5)
                      && (byte_at (slot buf i) 11 =? 0x0F) && (l.2 =? 0)
                   then (sector, i) else start in
      o ← scan_slot (slot buf i) l;
      match o with
      | None => mret (inl false)
      | Some (None, l) => delete_slots idxs sector search buf l start
      | Some (Some name, l) =>
          if same_name name search then
            buf ← unwrap (set_byte buf (i * 32) 0xE5);
            buf ← (if (0 <? l.2) && (start.1 =? sector)
                   then unwrap (mark_deleted (seqZ start.2 (i - start.2)) buf) else mret buf);
            _ ← disk_write sector buf;
            mret (inl true)
          else delete_slots idxs sector search buf (l.1, 0) start
      end
  end.
Fixpoint delete_sectors (self : Fat32Fs) (ss : list Z) (cluster : Z) (search : list Z)
    (l : lfn) (start : Z * Z) : FS (bool + (lfn * (Z * Z))) :=
  match ss with
  | [] => mret (inr (l, start))
  | s :: ss =>
      let sector := cluster_to_sector self cluster +' s in
      o ← disk_read sector BLOCK_SIZE;
      match o with
      | None => mret (inl false)
      | Some buf =>
          r ← delete_slots (seqZ 0 ENTRIES_PER_SECTOR) sector search buf l start;
          match r with
          | inl res => mret (inl res)
          | inr (l, start) => delete_sectors self ss cluster search l start
          end
      end
  end.
Fixpoint delete_loop (fuel : nat) (self : Fat32Fs) (cluster : Z) (search : list Z) (l : lfn)
    (start : Z * Z) : FS bool :=
  match fuel with
  | O => diverge
  | S fuel =>
      r ← delete_sectors self (seqZ 0 (spc self)) cluster search l start;
      match r with
      | inl res => mret res
      | inr (l, start) =>
          o ← fat_next self cluster;
          match chain_next o with
          | Some next => delete_loop fuel self next search l start
          | None => mret false
          end
      end
  end.
Definition delete_dir_entry (fuel : nat) (self : Fat32Fs) (dir_cluster : Z) (name : list Z) : FS bool :=
  delete_loop fuel self dir_cluster name lfn_empty (0, 0).

(** ** New directories and truncation *)

(** The 32 bytes of the dot entries. *)
Definition dot_entry (dots : list Z) (cluster : Z) : list Z :=
  pad_spaces 11 dots ++ [ATTR_DIRECTORY] ++ replicate 8 0 ++ cluster_hi_bytes cluster ++
  replicate 4 0 ++ cluster_lo_bytes cluster ++ replicate 4 0.
Definition create_empty_dir (self : Fat32Fs) (parent_cluster : Z) : FS (option Z) :=
  cluster ←! alloc_cluster self;
  let buf := dot_entry [46] cluster ++ dot_entry [46; 46] parent_cluster ++ replicate (512 - 64) 0 in
  ok ← disk_write (cluster_to_sector self cluster) buf;
  mret (if negb ok then None else Some cluster).

Definition truncate_file (fuel : nat) (self : Fat32Fs) (cluster dir_cluster : Z) (name : list Z) : FS bool :=
  if cluster <? 2 then mret true
  else
    o ← fat_next self cluster;
    _ ← match chain_next o with
        | Some next => free_chain self next
        | None => mret 0
        end;
    _ ← fat_set self cluster FAT32_EOC;
    _ ← zero_cluster self cluster;
    update_dir_entry_size fuel self dir_cluster name 0 cluster.
