(* ===== verification/DirFacts.v ===== *)
(** Walking a directory ([FatDir.v]) against a reference: the entries of a directory are
    read off its contents slot by slot, and [walk_dir] calls back on exactly these. *)

From S2P Require Import Prelude Bytes Initrd FatDisk FatFacts FatFile FileFacts FatDir.

(** ** The reference *)

(** The name in the long-name buffer: up to a terminator or padding, ASCII only. *)
Fixpoint until_end (us : list Z) : list Z :=
  match us with
  | [] => []
  | u :: us => if (u =? 0) || (u =? 0xFFFF) then [] else u :: until_end us
  end.
Definition ascii_name (us : list Z) : list Z := List.filter (λ u, u <? 0x80) (until_end us).
Definition ref_add_lfn (e : list Z) (l : lfn) : lfn :=
  let idx := lfn_index (byte_at e 0) in
  if idx <? 20 then
    let base := idx * 13 in
    (if base + 13 <=? LFN_CAPACITY then filled l.1 base (lfn_chars e) else l.1, Z.max l.2 (base + 13))
  else l.
(** What a slot is, with the long name collected afterwards: [None] is the end mark. *)
Definition ref_scan (e : list Z) (l : lfn) : option (option (list Z) * lfn) :=
  if byte_at e 0 =? 0x00 then None
  else if byte_at e 0 =? 0xE5 then Some (None, (l.1, 0))
  else if byte_at e 11 =? 0x0F then Some (None, ref_add_lfn e l)
  else Some (Some (if 0 <? l.2 then ascii_name (take (Z.to_nat l.2) l.1)
                   else short_display (take 8 e) (take 3 (drop 8 e))), (l.1, 0)).
(** The entries with their names up to the end mark, and the long name collected after
    the last slot, if there is no end mark. *)
Fixpoint dir_entries (slots : list (list Z)) (l : lfn) : list (DirEntry * list Z) * option lfn :=
  match slots with
  | [] => ([], Some l)
  | e :: slots =>
      match ref_scan e l with
      | None => ([], None)
      | Some (None, l) => dir_entries slots l
      | Some (Some name, l) => let r := dir_entries slots l in ((read_dir_entry e, name) :: r.1, r.2)
      end
  end.
(** The 16 slots of a sector, and the slots of a directory. *)
Definition sector_slots (buf : list Z) : list (list Z) := slot buf <$> seqZ 0 ENTRIES_PER_SECTOR.
Definition dir_slots (fs : Fat32Fs) (d : disk) (l : list Z) : list (list Z) :=
  mbind (λ c, sector_slots (cluster_bytes fs d c)) l.
Definition entries_of (fs : Fat32Fs) (d : disk) (l : list Z) : list (DirEntry * list Z) :=
  (dir_entries (dir_slots fs d l) lfn_empty).1.
#[global] Strategy expand [entries_of].
Definition fold_entries {B} (f : DirEntry → list Z → B → B) (acc : B) (es : list (DirEntry * list Z)) : B :=
  foldl (λ acc e, f e.1 e.2 acc) acc es.

(** ** The long-name buffer *)

(** The last nine positions are never written, so a name always ends inside. *)
Record lfn_ok (l : lfn) : Prop := {
  lo_len : length l.1 = Z.to_nat LFN_CAPACITY;
  lo_tail i : 247 ≤ i < LFN_CAPACITY → byte_at l.1 i = 0;
  lo_units i : 0 ≤ byte_at l.1 i;
  lo_used : 0 ≤ l.2 ≤ 260;
}.

Section lfn.
Implicit Types (e buf : list Z) (l : lfn).

Lemma lfn_empty_ok : lfn_ok lfn_empty.
Proof.
  assert (∀ i, byte_at lfn_empty.1 i = 0) as H0.
  { intros i. unfold byte_at, lfn_empty. cbn [fst]. destruct (_ !! Z.to_nat i) eqn:E; [|done].
    by apply lookup_replicate in E as [-> _]. }
  split; [by apply length_replicate|by intros i _|intros i; by rewrite H0|cbn; lia].
Qed.
Lemma lfn_reset_ok l : lfn_ok l → lfn_ok (l.1, 0).
Proof. intros [H1 H2 H3 H4]. split; cbn [fst snd]; [done|done|done|lia]. Qed.
Lemma le_nonneg n e o : Forall is_byte e → 0 ≤ le n e o.
Proof. intros H. apply (le_bound n e o H). Qed.
Lemma length_lfn_chars e : length (lfn_chars e) = 13%nat.
Proof. unfold lfn_chars. by rewrite !length_app, !length_fmap, !length_seqZ. Qed.
Lemma lfn_chars_nonneg e i : Forall is_byte e → 0 ≤ byte_at (lfn_chars e) i.
Proof.
  intros H. unfold byte_at. destruct (lfn_chars e !! Z.to_nat i) as [u|] eqn:E; [|done].
  apply list_elem_of_lookup_2 in E. cbn. unfold lfn_chars in E.
  rewrite !elem_of_app, !list_elem_of_fmap in E. destruct E as [(? & -> & _)|[(? & -> & _)|(? & -> & _)]];
    by apply le_nonneg.
Qed.
Lemma byte_at_filled buf br x k :
  0 ≤ br → br + Z.of_nat (length x) ≤ Z.of_nat (length buf) → 0 ≤ k →
  byte_at (filled buf br x) k = if decide (br ≤ k < br + Z.of_nat (length x)) then byte_at x (k - br) else byte_at buf k.
Proof.
  intros H1 H2 Hk. apply (byte_at_copy_into buf br x); [|done]. by apply copy_into_Some.
Qed.
Lemma byte_at_neg buf k : k < 0 → byte_at buf k = byte_at buf 0.
Proof. intros H. unfold byte_at. by replace (Z.to_nat k) with (Z.to_nat 0) by lia. Qed.

Lemma add_lfn_wp e l d (Q : lfn → disk → Prop) :
  lfn_ok l → Forall is_byte e → (lfn_ok (ref_add_lfn e l) → Q (ref_add_lfn e l) d) → wp (add_lfn e l) Q d.
Proof.
  destruct l as [buf len]. intros [H1 H2 H3 H4] He HQ. cbn [fst snd] in *.
  unfold add_lfn. unfold ref_add_lfn in HQ. cbn [fst snd] in HQ.
  assert (0 ≤ lfn_index (byte_at e 0)) as Hi by (unfold lfn_index; lia).
  set (idx := lfn_index (byte_at e 0)) in *. unfold LFN_CAPACITY in *.
  destruct (Z.ltb_spec idx 20) as [Hlt|Hge]; [|apply wp_ret, HQ; by split].
  pose proof (length_lfn_chars e) as Hl.
  destruct (Z.leb_spec (idx * 13 + 13) 256) as [Hle|Hgt].
  - apply wp_bind. rewrite copy_step by lia. fold (filled buf (idx * 13) (lfn_chars e)).
    apply wp_ret, wp_ret, HQ. split; cbn [fst snd].
    + rewrite length_filled by lia. done.
    + intros i Hr. unfold LFN_CAPACITY in Hr. rewrite byte_at_filled by lia. rewrite decide_False by lia. by apply H2.
    + intros i. destruct (decide (0 ≤ i)) as [Hi0|Hi0]; [|rewrite byte_at_neg by lia];
        (rewrite byte_at_filled by lia; case_decide; [by apply lfn_chars_nonneg|done]).
    + lia.
  - apply wp_bind, wp_ret, wp_ret, HQ. split; cbn [fst snd]; [done|done|done|lia].
Qed.

(** The bytes the loop collects are those of the reference. *)
Lemma lfn_name_wp buf n : ∀ j name d (Q : list Z → disk → Prop),
  length buf = 256%nat → (∀ i, 247 ≤ i < 256 → byte_at buf i = 0) → (∀ i, 0 ≤ byte_at buf i) →
  0 ≤ j ≤ 247 → Z.of_nat (length name) ≤ j →
  Q (name ++ ascii_name (take n (drop (Z.to_nat j) buf))) d →
  wp (lfn_name (seqZ j (Z.of_nat n)) buf name) Q d.
Proof.
  induction n as [|n IH]; intros j name d Q Hl Ht Hu Hj Hn HQ.
  { apply wp_ret. by rewrite app_nil_r in HQ. }
  rewrite seqZ_cons by lia. replace (Z.pred (Z.of_nat (S n))) with (Z.of_nat n) by lia.
  cbn [lfn_name]. destruct (lookup_lt_is_Some_2 buf (Z.to_nat j) ltac:(lia)) as [ch Hch].
  assert (byte_at buf j = ch) as Eb by (unfold byte_at; by rewrite Hch).
  rewrite Hch. apply wp_bind, wp_ret. rewrite (drop_S _ _ _ Hch) in HQ. unfold ascii_name in *. cbn [take until_end] in HQ.
  destruct ((ch =? 0) || (ch =? 65535)) eqn:E; [apply wp_ret; by rewrite app_nil_r in HQ|].
  assert (j < 247) as Hj'.
  { apply orb_false_elim in E as [E%Z.eqb_neq _]. destruct (decide (j < 247)); [done|].
    rewrite Ht in Eb by lia. congruence. }
  rewrite (proj2 (Z.ltb_lt (Z.of_nat (length name)) 256)) by lia. rewrite andb_true_r.
  cbn [List.filter] in HQ. pose proof (Hu j) as Hj0. rewrite Eb in Hj0.
  replace (S (Z.to_nat j)) with (Z.to_nat (Z.succ j)) in HQ by lia.
  destruct (Z.ltb_spec ch 128) as [Hlt|Hge].
  - assert (u8 ch = ch) as -> by (unfold u8; apply Z.mod_small; lia).
    apply IH; [done|done|done|lia|rewrite length_app; cbn; lia|].
    by rewrite <- (assoc_L (++)).
  - apply IH; [done|done|done|lia|lia|done].
Qed.

Lemma scan_slot_wp e l d (Q : option (option (list Z) * lfn) → disk → Prop) :
  lfn_ok l → Forall is_byte e →
  ((∀ o l', ref_scan e l = Some (o, l') → lfn_ok l') → Q (ref_scan e l) d) → wp (scan_slot e l) Q d.
Proof.
  intros Hl He HQ. unfold scan_slot. unfold ref_scan in HQ.
  pose proof (lfn_reset_ok l Hl) as Hr.
  destruct (byte_at e 0 =? 0); [by apply wp_ret, HQ|].
  destruct (byte_at e 0 =? 229); [apply wp_ret, HQ; by intros ?? [= <- <-]|].
  destruct (byte_at e 11 =? 15).
  { apply wp_bind, add_lfn_wp; [done..|]. intros Ho. apply wp_ret, HQ. by intros ?? [= <- <-]. }
  destruct (0 <? l.2) eqn:E; [|apply wp_ret, HQ; by intros ?? [= <- <-]].
  destruct Hl as [H1 H2 H3 H4]. apply wp_bind. rewrite <- (Z2Nat.id l.2) by lia.
  apply lfn_name_wp; [done|done|done|lia|cbn; lia|]. apply wp_ret, HQ. by intros ?? [= <- <-].
Qed.
End lfn.

(** ** Walking *)

Section walking.
Context {B : Type} (f : DirEntry → list Z → B → B).

Lemma fold_entries_app acc es es' : fold_entries f acc (es ++ es') = fold_entries f (fold_entries f acc es) es'.
Proof. apply foldl_app. Qed.
Lemma dir_entries_app s1 s2 l :
  dir_entries (s1 ++ s2) l =
    match (dir_entries s1 l).2 with
    | None => dir_entries s1 l
    | Some l' => ((dir_entries s1 l).1 ++ (dir_entries s2 l').1, (dir_entries s2 l').2)
    end.
Proof.
  revert l. induction s1 as [|e s1 IH]; intros l; cbn [dir_entries app fst snd]; [by destruct (dir_entries s2 l)|].
  destruct (ref_scan e l) as [[[name|] l']|]; [|apply IH|done]. rewrite IH.
  cbn [fst snd]. by destruct (dir_entries s1 l') as [es [l2|]].
Qed.
(** What the caller of a scan of [slots] has to establish. *)
Definition walked (acc : B) (r : list (DirEntry * list Z) * option lfn) (Stop : B → Prop)
    (Go : B → lfn → Prop) : Prop :=
  match r.2 with
  | None => Stop (fold_entries f acc r.1)
  | Some l' => lfn_ok l' → Go (fold_entries f acc r.1) l'
  end.
Lemma walk_slots_wp idxs buf : ∀ acc l d (Q : B + (B * lfn) → disk → Prop),
  (∀ i, Forall is_byte (slot buf i)) → lfn_ok l →
  walked acc (dir_entries (slot buf <$> idxs) l) (λ acc, Q (inl acc) d) (λ acc l, Q (inr (acc, l)) d) →
  wp (walk_slots f idxs buf acc l) Q d.
Proof.
  induction idxs as [|i idxs IH]; intros acc l d Q Hb Hl HQ; cbn [walk_slots]; [by apply wp_ret, HQ|].
  cbn [fmap list_fmap dir_entries] in HQ.
  apply wp_bind, scan_slot_wp; [done|done|]. intros Hok.
  destruct (ref_scan (slot buf i) l) as [[[name|] l']|]; [| |by apply wp_ret].
  - apply IH; [done|by eapply Hok|]. exact HQ.
  - apply IH; [done|by eapply Hok|]. exact HQ.
Qed.
Lemma slot_bytes buf i : Forall is_byte buf → Forall is_byte (slot buf i).
Proof. intros H. unfold slot. by apply Forall_take, Forall_drop. Qed.
End walking.

Section walk_chain.
Context (fs : Fat32Fs).
Hypothesis Hfs : volume_ok fs.
Hypothesis Hspc : spc fs = 1.
Context {B : Type} (f : DirEntry → list Z → B → B).

Lemma cluster_is_bytes d c : bytes_ok d → Forall is_byte (cluster_bytes fs d c).
Proof. intros H. apply Forall_fmap, Forall_true. intros a. apply H. Qed.
Lemma dir_slots_cons d c l : dir_slots fs d (c :: l) = sector_slots (cluster_bytes fs d c) ++ dir_slots fs d l.
Proof. done. Qed.
Lemma walk_loop_wp fuel d : bytes_ok d → ∀ l c acc lf (Q : bool * B → disk → Prop),
  chain fs d (c :: l) → (length l < fuel)%nat → lfn_ok lf →
  Q (true, fold_entries f acc (dir_entries (dir_slots fs d (c :: l)) lf).1) d →
  wp (walk_loop f fuel fs c acc lf) Q d.
Proof.
  intros Hb. induction fuel as [|fuel IH]; intros l c acc lf Q Hch Hf Hlf HQ; [lia|].
  cbn [walk_loop]. rewrite Hspc. change (seqZ 0 1) with [0]. cbn [walk_sectors].
  apply wp_bind, wp_bind, (cluster_read fs Hfs Hspc); [apply Hch|]. cbn beta iota.
  apply wp_bind, walk_slots_wp; [intros i; by apply slot_bytes, cluster_is_bytes|done|].
  rewrite dir_slots_cons, dir_entries_app in HQ. unfold walked. unfold sector_slots in HQ.
  destruct (dir_entries (slot _ <$> _) lf) as [es [lf'|]]; cbn [fst snd] in *.
  - intros Hlf'. apply wp_ret. apply wp_bind, (chain_step fs Hfs c l); [done|]. intros o ->.
    rewrite fold_entries_app in HQ. destruct l as [|c' l]; cbn [head]; [by apply wp_ret|].
    apply (IH l); [by eapply chain_tail|cbn in Hf; lia|done|done].
  - apply wp_ret. by apply wp_ret.
Qed.
Lemma walk_dir_wp fuel c l acc d (Q : bool * B → disk → Prop) :
  bytes_ok d → chain fs d (c :: l) → (length l < fuel)%nat →
  Q (true, fold_entries f acc (entries_of fs d (c :: l))) d →
  wp (walk_dir f fuel fs c acc) Q d.
Proof.
  intros Hb Hch Hf HQ. unfold walk_dir. unfold entries_of in HQ.
  apply (walk_loop_wp fuel d Hb l); [exact Hch|exact Hf|apply lfn_empty_ok|exact HQ].
Qed.
End walk_chain.

(** The first entry of a name. *)
Definition first_named (name : list Z) (es : list (DirEntry * list Z)) : option (DirEntry * list Z) :=
  List.find (λ e, same_name e.2 name) es.
Lemma find_entry_wp fs fuel c l name d (Q : option (DirEntry * list Z) → disk → Prop) :
  volume_ok fs → spc fs = 1 → bytes_ok d → chain fs d (c :: l) → (length l < fuel)%nat →
  Q (first_named name (entries_of fs d (c :: l))) d →
  wp (find_entry fuel fs c name) Q d.
Proof.
  intros Hfs Hspc Hb Hch Hf HQ. unfold find_entry. apply wp_bind.
  refine (walk_dir_wp fs Hfs Hspc _ fuel c l _ _ _ Hb Hch Hf _).
  apply wp_ret. cbn [snd]. replace (fold_entries _ _ _) with (first_named name (entries_of fs d (c :: l))); [exact HQ|].
  generalize (entries_of fs d (c :: l)) as es. clear. intros es.
  assert (∀ r es, fold_entries (λ entry entry_name result,
         match result with
         | Some _ => result
         | None => if same_name entry_name name then Some (entry, entry_name) else None
         end) (Some r) es = Some r) as Hs by (intros r es'; by induction es').
  induction es as [|[e n] es IH]; [done|]. cbn. destruct (same_name n name); [symmetry; apply (Hs (e, n) es)|exact IH].
Qed.
