(* ===== verification/FileSpec.v ===== *)
(** A file as a byte string: what [write_file] makes of the contents of a chain, in one
    formula, and what it follows from ([WriteFacts.v] describes it sector by sector). *)

From S2P Require Import Prelude Bytes FatDisk FatFacts FatFile FileFacts WriteFacts.

(** What is behind the written bytes: the old contents if the write stays inside the sector
    it starts in the middle of; otherwise zeros up to the end of the last sector. *)
Definition write_tail (k : list Z) (offset : Z) (buf : list Z) : list Z :=
  let e := (Z.to_nat offset + length buf)%nat in
  let r := (512 * write_reach offset buf)%nat in
  if (0 <? offset mod 512) && (offset mod 512 + Z.of_nat (length buf) <=? 512) then drop e k
  else replicate (r - e) 0 ++ drop r k.
(** The contents [k] after [buf] was written at [offset], extended with zeros first. *)
Definition overwritten (k : list Z) (offset : Z) (buf : list Z) : list Z :=
  let k := k ++ replicate (512 * write_reach offset buf - length k) 0 in
  take (Z.to_nat offset) k ++ buf ++ write_tail k offset buf.

Section concat.
Implicit Types (Cs : list (list Z)) (C buf : list Z).
Abbreviation sector := (λ C, length C = 512%nat).

Lemma length_concat_sectors Cs : Forall sector Cs → length (concat Cs) = (512 * length Cs)%nat.
Proof. induction 1 as [|C Cs HC _ IH]; [done|]. cbn [concat length]. rewrite length_app, HC, IH. lia. Qed.
Lemma concat_take Cs k : Forall sector Cs → concat (take k Cs) = take (512 * k) (concat Cs).
Proof.
  intros H. revert k. induction H as [|C Cs HC _ IH]; intros [|k]; [by rewrite ?take_nil..|].
  cbn [take concat]. rewrite take_app_ge, HC, IH by lia. do 2 f_equal. lia.
Qed.
Lemma concat_drop Cs k : Forall sector Cs → concat (drop k Cs) = drop (512 * k) (concat Cs).
Proof.
  intros H. revert k. induction H as [|C Cs HC _ IH]; intros [|k]; [by rewrite ?drop_nil..|].
  cbn [drop concat]. rewrite drop_app_ge, HC, IH by lia. f_equal. lia.
Qed.
Lemma concat_zero_blocks n : concat (replicate n zero_block) = replicate (512 * n) 0.
Proof.
  induction n as [|n IH]; [done|]. cbn [replicate concat]. rewrite IH. unfold zero_block, BLOCK_SIZE.
  rewrite <- replicate_add. f_equal. lia.
Qed.
Lemma length_zero_512 : length zero_block = 512%nat.
Proof. apply length_zero_block. Qed.

(** One sector. *)
Lemma write_block_inside C start chunk :
  length C = 512%nat → 0 < start → write_block C start chunk =
    take (Z.to_nat start) C ++ chunk ++ drop (Z.to_nat start + length chunk) C.
Proof. intros HC Hs. unfold write_block, filled. by rewrite (proj2 (Z.ltb_lt 0 start) Hs). Qed.
Lemma write_block_zero C chunk :
  write_block C 0 chunk = chunk ++ replicate (512 - length chunk) 0.
Proof. unfold write_block, filled, zero_block, BLOCK_SIZE. cbn. by rewrite drop_replicate. Qed.
Lemma write_block_full C start chunk :
  length C = 512%nat → 0 ≤ start → (Z.to_nat start + length chunk)%nat = 512%nat →
  write_block C start chunk = take (Z.to_nat start) C ++ chunk.
Proof.
  intros HC Hs Hl. destruct (decide (start = 0)) as [->|].
  - rewrite write_block_zero. replace (512 - length chunk)%nat with 0%nat by lia. by rewrite app_nil_r.
  - rewrite write_block_inside by lia. by rewrite (drop_ge C), app_nil_r by lia.
Qed.

Lemma concat_write_blocks Cs : ∀ start buf,
  Forall sector Cs → 0 ≤ start < 512 → buf ≠ [] →
  start + Z.of_nat (length buf) ≤ 512 * Z.of_nat (length Cs) →
  let e := (Z.to_nat start + length buf)%nat in
  let r := (512 * blocks (start + Z.of_nat (length buf)))%nat in
  concat (write_blocks Cs start buf) =
    take (Z.to_nat start) (concat Cs) ++ buf ++
    (if (0 <? start) && (start + Z.of_nat (length buf) <=? 512) then drop e (concat Cs)
     else replicate (r - e) 0 ++ drop r (concat Cs)).
Proof.
  induction Cs as [|C Cs IH]; intros start buf HF Hs Hb Hfit e r.
  { destruct buf; [done|]. cbn [length] in Hfit. lia. }
  apply Forall_cons in HF as [HC HF]. rewrite write_blocks_cons by done. cbn [concat].
  assert (0 < Z.of_nat (length buf)) as Hlb by (destruct buf; [done|cbn; lia]).
  rewrite (take_app_le C) by lia.
  destruct (Z.leb_spec (start + Z.of_nat (length buf)) 512) as [Hle|Hgt].
  - assert (r = 512)%nat as Hr by (unfold r; rewrite blocks_one; lia). rewrite Hr.
    rewrite (take_ge buf), (drop_ge buf), write_blocks_nil by lia. rewrite (drop_app_ge C _ 512), HC by lia.
    change (512 - 512)%nat with 0%nat. rewrite drop_0.
    destruct (Z.ltb_spec 0 start) as [Hs0|Hs0]; cbn [andb].
    + rewrite write_block_inside by done. rewrite <- !(assoc_L (++)), (drop_app_le C) by lia. done.
    + assert (start = 0) as Es by lia. unfold e. rewrite Es, write_block_zero, <- !(assoc_L (++)). done.
  - rewrite andb_false_r. set (n := Z.to_nat (512 - start)). assert (n = Z.to_nat (512 - start)) as En by done.
    clearbody n.
    assert (length (take n buf) = n) as Hn by (rewrite length_take; lia).
    assert (drop n buf ≠ []) as Hd by (intros E; apply (f_equal length) in E; rewrite length_drop in E; cbn in E; lia).
    rewrite write_block_full by lia. rewrite (IH 0 (drop n buf)); [|done|lia|done|cbn [length] in Hfit; rewrite length_drop; lia].
    cbn [Z.ltb Z.compare andb]. rewrite take_0. cbn [app].
    assert (r = 512 + 512 * blocks (0 + Z.of_nat (length (drop n buf))))%nat as Hr.
    { unfold r. rewrite blocks_step by lia. rewrite length_drop.
      replace (0 + Z.of_nat (length buf - n)) with (start + Z.of_nat (length buf) - 512) by lia. lia. }
    rewrite (drop_app_ge C) by lia. rewrite HC.
    replace (r - 512)%nat with (512 * blocks (0 + Z.of_nat (length (drop n buf))))%nat by lia.
    rewrite <- !(assoc_L (++)), (assoc_L (++) (take n buf)), take_drop. do 3 f_equal.
    f_equal. rewrite length_drop in *. unfold e. lia.
Qed.
Lemma concat_written Cs offset buf :
  Forall sector Cs → 0 ≤ offset → buf ≠ [] →
  concat (written Cs offset buf) = overwritten (concat Cs) offset buf.
Proof.
  intros HF Ho Hb. unfold written, overwritten.
  set (n := (write_reach offset buf - length Cs)%nat). set (P := Cs ++ replicate n zero_block).
  assert (Forall sector P) as HP.
  { apply Forall_app. split; [done|]. apply Forall_replicate, length_zero_512. }
  assert (concat P = concat Cs ++ replicate (512 * write_reach offset buf - length (concat Cs)) 0) as EP.
  { unfold P. rewrite concat_app, concat_zero_blocks, length_concat_sectors by done. do 2 f_equal. lia. }
  rewrite <- EP. set (K := concat P).
  pose proof (Z.mod_pos_bound offset 512 ltac:(lia)) as Hm.
  pose proof (Z.div_mod offset 512 ltac:(lia)) as Hdm. assert (0 ≤ offset / 512) as Hq by (apply Z.div_pos; lia).
  assert (length P = Nat.max (length Cs) (write_reach offset buf)) as HlP.
  { unfold P. rewrite length_app, length_replicate. lia. }
  assert (0 < Z.of_nat (length buf)) as Hlb by (destruct buf; [done|cbn; lia]).
  assert (offset mod 512 + Z.of_nat (length buf) ≤ 512 * Z.of_nat (blocks (offset mod 512 + Z.of_nat (length buf)))) as Hbl.
  { unfold blocks. pose proof (Z.mul_succ_div_gt (offset mod 512 + Z.of_nat (length buf) + 511) 512 ltac:(lia)). lia. }
  unfold write_reach in *.
  rewrite concat_app, concat_take by done. fold K.
  rewrite concat_write_blocks;
    [|by apply Forall_drop|lia|done|rewrite length_drop, HlP; lia].
  rewrite concat_drop by done. fold K. rewrite (assoc_L (++)). unfold write_tail, write_reach.
  f_equal.
  - rewrite take_take_drop. f_equal. lia.
  - f_equal. rewrite !drop_drop. destruct (_ && _); [f_equal; lia|]. f_equal; f_equal; lia.
Qed.
(** The written bytes are there, and nothing in front of them changed. *)
Lemma overwritten_read k offset buf :
  0 ≤ offset → take (length buf) (drop (Z.to_nat offset) (overwritten k offset buf)) = buf.
Proof.
  intros Ho. unfold overwritten. set (k' := k ++ _).
  assert (length (take (Z.to_nat offset) k') = Z.to_nat offset) as Hl.
  { rewrite length_take. unfold k'. rewrite length_app, length_replicate. unfold write_reach.
    pose proof (Z.div_mod offset 512 ltac:(lia)). pose proof (Z.mod_pos_bound offset 512 ltac:(lia)).
    assert (offset ≤ 512 * Z.of_nat (Z.to_nat (offset / 512) + blocks (offset mod 512 + Z.of_nat (length buf)))%nat).
    { unfold blocks. pose proof (Z.mul_succ_div_gt (offset mod 512 + Z.of_nat (length buf) + 511) 512 ltac:(lia)). lia. }
    lia. }
  rewrite drop_app_ge, Hl, Nat.sub_diag, drop_0 by lia. apply take_app_length.
Qed.
End concat.

