(* ===== verification/FsServer.v ===== *)
(** The file server: formatting the RAM disk and the request loop
    ([src/user/programs/fs-server/src/main.rs], [format_fat32] and [main]).

    A request is what [ipc::recv_buf] returns: the words, the receive buffer and the length
    of the data in it; a reply is the four words of [ipc::reply] and the data of
    [ipc::reply_buf] (none for [ipc::reply]).  The two static buffers are arguments: the
    receive buffer comes with the request, [READ_DATA_BUF] is threaded through. *)

From S2P Require Import Prelude Bytes Initrd FatDisk FatFile FatDir FatEdit.

Definition FS_OPEN : Z := 1.
Definition FS_CLOSE : Z := 2.
Definition FS_READ : Z := 3.
Definition FS_WRITE : Z := 4.
Definition FS_MKDIR : Z := 6.
Definition FS_READDIR : Z := 7.
Definition FS_CREATE_OPEN : Z := 8.
Definition FS_UPDATE_SIZE : Z := 9.
Definition FS_DELETE : Z := 10.
Definition FS_TRUNCATE : Z := 11.
Definition FS_OK : Z := 0.
Definition FS_ERR : Z := usize_max.
Definition IPC_BUFFER_SIZE : Z := 4096.

(** ** Formatting *)

(** A sequence of [buf[off..off + n].copy_from_slice(..)]. *)
Fixpoint patch (ps : list (Z * list Z)) (buf : list Z) : option (list Z) :=
  match ps with
  | [] => Some buf
  | (off, bs) :: ps => buf ← copy_into buf off bs; patch ps buf
  end.
Definition format_spc : Z := 1.
Definition format_reserved : Z := 32.
Definition format_num_fats : Z := 1.
Definition format_fat_size : Z :=
  u32 (u32 (u32 (u32 RAMDISK_SECTORS / format_spc * 4) + BLOCK_SIZE) - 1) / BLOCK_SIZE.
(** ["NEKOS"] and ["FAT32"]. *)
Definition NEKOS : list Z := [78; 69; 75; 79; 83].
Definition FAT32 : list Z := [70; 65; 84; 51; 50].
Definition format_bpb : list (Z * list Z) :=
  [ (0, [0xEB; 0x58; 0x90]); (3, pad_spaces 8 NEKOS); (11, le_bytes 2 512); (13, [format_spc]);
    (14, le_bytes 2 format_reserved); (16, [format_num_fats]); (17, le_bytes 2 0); (19, le_bytes 2 0);
    (21, [0xF8]); (22, le_bytes 2 0); (24, le_bytes 2 1); (26, le_bytes 2 1); (28, le_bytes 4 0);
    (32, le_bytes 4 RAMDISK_SECTORS); (36, le_bytes 4 format_fat_size); (40, le_bytes 2 0);
    (42, le_bytes 2 0); (44, le_bytes 4 2); (48, le_bytes 2 1); (50, le_bytes 2 6); (64, [0x80]);
    (66, [0x29]); (67, le_bytes 4 0x12345678); (71, pad_spaces 11 NEKOS); (82, pad_spaces 8 FAT32);
    (510, [0x55]); (511, [0xAA]) ].
Definition format_fsinfo : list (Z * list Z) :=
  [ (0, [0x52; 0x52; 0x61; 0x41]); (484, [0x72; 0x72; 0x41; 0x61]);
    (488, le_bytes 4 (u32 (RAMDISK_SECTORS / format_spc - 33))); (492, le_bytes 4 3);
    (508, [0x00; 0x00; 0x55; 0xAA]) ].
Definition format_fat : list (Z * list Z) :=
  [ (0, le_bytes 4 0x0FFFFFF8); (4, le_bytes 4 0x0FFFFFFF); (8, le_bytes 4 FAT32_EOC) ].
Definition format_fat32 : FS bool :=
  bpb ← unwrap (patch format_bpb zero_block);
  ok ← disk_write 0 bpb;
  if negb ok then mret false
  else
    ok ← disk_write 6 bpb;
    if negb ok then mret false
    else
      fsinfo ← unwrap (patch format_fsinfo zero_block);
      _ ← disk_write 1 fsinfo;
      fat_sector ← unwrap (patch format_fat zero_block);
      _ ← disk_write format_reserved fat_sector;
      _ ← disk_write (format_reserved +' format_fat_size) zero_block;
      mret true.

(** The start of [main]: [None] is [exit(1)]. *)
Definition server_start : FS (option Fat32Fs) :=
  ok ← format_fat32;
  if negb ok then mret None
  else
    o ← disk_read 0 BLOCK_SIZE;
    match fs_open (default zero_block o) with
    | Done (Some fs) => mret (Some fs)
    | Done None => panic
    | Panic => panic
    | Diverge => diverge
    end.

(** ** Requests *)

Record request : Type := mkRequest { req_words : list Z; req_buf : list Z; req_len : Z }.
Record reply : Type := mkReply { rep_words : list Z; rep_data : list Z }.
Definition error_reply : reply := mkReply [FS_ERR; 0; 0; 0] [].

(** [&recv_path_buf[..buf_len]]. *)
Definition req_data (r : request) : FS (list Z) := unwrap (slice (req_buf r) 0 (req_len r)).
(** The path in the request: the empty string if it is not UTF-8. *)
Definition req_path (r : request) : FS (list Z) :=
  bs ← req_data r;
  mret (trim_end 0 (if utf8_ok bs then bs else [])).
(** The directory and the name of a path: [None] without a slash. *)
Definition split_path (path : list Z) : option (list Z * list Z) :=
  slash_pos ← rfind SLASH path;
  Some (if bool_decide (slash_pos = 0%nat) then [SLASH] else take slash_pos path, drop (S slash_pos) path).
Definition entry_reply (e : DirEntry) : reply :=
  mkReply [FS_OK; entry_cluster e; de_file_size e; de_attr e] [].
Definition status_reply (ok : bool) : reply := mkReply [if ok then FS_OK else FS_ERR; 0; 0; 0] [].

Section server.
Context (fuel : nat) (fs : Fat32Fs).

(** The parent directory of the path in the request, as [(cluster, name)]; the requests
    that need one answer an error without it. *)
Definition with_parent (path : list Z) (k : Z → list Z → FS reply) : FS reply :=
  match split_path path with
  | None => mret error_reply
  | Some (parent_path, name) =>
      o ← resolve_path fuel fs parent_path;
      match o with
      | None => mret error_reply
      | Some (parent_entry, _) => k (entry_cluster parent_entry) name
      end
  end.

Definition do_open (r : request) : FS reply :=
  path ← req_path r;
  o ← resolve_path fuel fs path;
  mret (match o with Some (entry, _) => entry_reply entry | None => error_reply end).
Definition do_read (r : request) (read_data_buf : list Z) : FS (reply * list Z) :=
  let cluster := u32 (byte_at (req_words r) 1) in
  let offset := u32 (byte_at (req_words r) 2) in
  let size := u32 (byte_at (req_words r) 3) in
  let read_size := Z.min size (u32 (Z.of_nat (length read_data_buf))) in
  buf ← unwrap (slice read_data_buf 0 read_size);
  res ← read_file fuel fs cluster offset (2 ^ 32 - 1) buf;
  let '(bytes_read, buf) := res in
  let read_data_buf := buf ++ drop (Z.to_nat read_size) read_data_buf in
  dat ← unwrap (slice read_data_buf 0 bytes_read);
  mret (mkReply [FS_OK; bytes_read; 0; 0] dat, read_data_buf).
Definition do_readdir (r : request) : FS reply :=
  res ← walk_dir (λ _ _ count, u64 (count + 1)) fuel fs (u32 (byte_at (req_words r) 1)) 0;
  mret (mkReply [FS_OK; res.2; 0; 0] []).
Definition do_mkdir (r : request) : FS reply :=
  path ← req_path r;
  with_parent path (λ parent_cluster dir_name,
    o ← create_empty_dir fs parent_cluster;
    match o with
    | None => mret error_reply
    | Some new_cluster =>
        _ ← create_dir_entry fuel fs parent_cluster dir_name ATTR_DIRECTORY new_cluster 0;
        mret (mkReply [FS_OK; new_cluster; 0; 0] [])
    end).
Definition do_write (r : request) : FS reply :=
  let cluster := u32 (byte_at (req_words r) 1) in
  let offset := u32 (byte_at (req_words r) 2) in
  o ← (if cluster <? 2 then alloc_cluster fs else mret (Some cluster));
  match o with
  | None => mret error_reply
  | Some cluster =>
      dat ← req_data r;
      res ← write_file fuel fs cluster offset dat;
      mret (mkReply [FS_OK; res.1; res.2; 0] [])
  end.
Definition do_create_open (r : request) : FS reply :=
  path ← req_path r;
  o ← resolve_path fuel fs path;
  match o with
  | Some (entry, _) => mret (entry_reply entry)
  | None =>
      with_parent path (λ parent_cluster file_name,
        o ← create_dir_entry fuel fs parent_cluster file_name ATTR_ARCHIVE 0 0;
        mret (match o with
              | Some _ => mkReply [FS_OK; 0; 0; ATTR_ARCHIVE] []
              | None => error_reply
              end))
  end.
Definition do_update_size (r : request) : FS reply :=
  path ← req_path r;
  with_parent path (λ parent_cluster file_name,
    ok ← update_dir_entry_size fuel fs parent_cluster file_name
           (u32 (byte_at (req_words r) 2)) (u32 (byte_at (req_words r) 3));
    mret (status_reply ok)).
Definition do_delete (r : request) : FS reply :=
  path ← req_path r;
  with_parent path (λ parent_cluster file_name,
    o ← find_entry fuel fs parent_cluster file_name;
    match o with
    | None => mret error_reply
    | Some (entry, _) =>
        ok ← delete_dir_entry fuel fs parent_cluster file_name;
        if negb ok then mret error_reply
        else
          _ ← (if 2 <=? entry_cluster entry then free_chain fs (entry_cluster entry) else mret 0);
          mret (mkReply [FS_OK; 0; 0; 0] [])
    end).
Definition do_truncate (r : request) : FS reply :=
  path ← req_path r;
  with_parent path (λ parent_cluster file_name,
    o ← find_entry fuel fs parent_cluster file_name;
    match o with
    | None => mret error_reply
    | Some (entry, _) =>
        if 2 <=? entry_cluster entry then
          ok ← truncate_file fuel fs (entry_cluster entry) parent_cluster file_name;
          mret (status_reply ok)
        else mret (mkReply [FS_OK; 0; 0; 0] [])
    end).

(** One turn of the loop in [main]. *)
Definition serve (r : request) (read_data_buf : list Z) : FS (reply * list Z) :=
  let op := byte_at (req_words r) 0 in
  let keep (m : FS reply) : FS (reply * list Z) := rep ← m; mret (rep, read_data_buf) in
  if op =? FS_OPEN then keep (do_open r)
  else if op =? FS_READ then do_read r read_data_buf
  else if op =? FS_READDIR then keep (do_readdir r)
  else if op =? FS_CLOSE then keep (mret (mkReply [FS_OK; 0; 0; 0] []))
  else if op =? FS_MKDIR then keep (do_mkdir r)
  else if op =? FS_WRITE then keep (do_write r)
  else if op =? FS_CREATE_OPEN then keep (do_create_open r)
  else if op =? FS_UPDATE_SIZE then keep (do_update_size r)
  else if op =? FS_DELETE then keep (do_delete r)
  else if op =? FS_TRUNCATE then keep (do_truncate r)
  else keep (mret error_reply).
(** The loop, on a finite sequence of requests. *)
Fixpoint serve_all (rs : list request) (read_data_buf : list Z) : FS (list reply) :=
  match rs with
  | [] => mret []
  | r :: rs =>
      res ← serve r read_data_buf;
      reps ← serve_all rs res.2;
      mret (res.1 :: reps)
  end.
End server.
