(* ===== verification/Volume.v ===== *)
(** The volume the file server starts with: what [format_fat32] writes into the zeroed RAM
    disk and [open] reads back, and the facts the concrete runs use. *)

From S2P Require Import Prelude Bytes Initrd FatDisk FatFacts FatFile FileFacts WriteFacts FatDir FatEdit DirFacts FsServer.

(** The disk and the value of a concrete run. *)
Definition run_disk {A} (o : outcome (A * disk)) : disk := match o with Done (_, d) => d | _ => ∅ end.
Definition run_value {A} (o : outcome (A * disk)) : option A := match o with Done (a, _) => Some a | _ => None end.
Lemma run_split {A} (o : outcome (A * disk)) a : run_value o = Some a → o = Done (a, run_disk o).
Proof. destruct o as [[a' d]| |]; [|done..]. by intros [= ->]. Qed.

(** The geometry of the formatted volume, and the disk. *)
Definition boot_disk : disk := run_disk (server_start ∅).
Definition boot_fs : Fat32Fs := mkFs (read_bpb (disk_bytes boot_disk 0 BLOCK_SIZE)) 32 96 8096 2.

Lemma boot_run : server_start ∅ = Done (Some boot_fs, boot_disk).
Proof. apply run_split. by vm_compute. Qed.
Lemma boot_spc : spc boot_fs = 1.
Proof. by vm_compute. Qed.
Lemma boot_volume_ok : volume_ok boot_fs.
Proof. split; rewrite ?boot_spc; by vm_compute. Qed.
Lemma bytes_checked (d : disk) : bool_decide (map_Forall (λ _ b, 0 ≤ b < 256) d) = true → bytes_ok d.
Proof.
  intros H%bool_decide_eq_true_1 a. unfold dbyte.
  destruct (d !! a) eqn:E; [exact (H a _ E)|split; cbn; lia].
Qed.
Lemma boot_bytes_ok : bytes_ok boot_disk.
Proof.
  apply bytes_checked. by vm_compute.
Qed.
(** The entries of the table from cluster [n] on are zero. *)
Definition table_clear (d : disk) (n : Z) : bool :=
  bool_decide (map_Forall (λ k v, v = 0 ∨ k < 16384 + n * 4 ∨ 49152 ≤ k) d).
Lemma clear_fat d n c : table_clear d n = true → n ≤ c < 8098 → fat_value boot_fs d c = FAT32_FREE.
Proof.
  intros H%bool_decide_eq_true_1 Hc. unfold fat_value. rewrite dle_zero; [done|]. intros k Hk.
  change (fat_addr boot_fs c) with (16384 + c * 4). unfold dbyte.
  destruct (d !! (16384 + c * 4 + k)) as [v|] eqn:E; [|done]. cbn. destruct (H _ _ E) as [?|?]; lia.
Qed.
Lemma countb_all {A} (f : A → bool) l : (∀ x, x ∈ l → f x = true) → countb f l = Z.of_nat (length l).
Proof.
  induction l as [|x l IH]; intros H; [done|]. cbn [countb foldr length]. fold (countb f l).
  rewrite (H x) by by left. rewrite IH; [lia|]. intros y Hy. apply H. by right.
Qed.
Lemma clear_free_clusters d n :
  table_clear d n = true → 2 ≤ n ≤ 8096 →
  countb (λ c, fat_value boot_fs d c =? FAT32_FREE) (seqZ 2 (n - 2)) = 0 →
  free_clusters boot_fs d = 8096 - n.
Proof.
  intros H Hn H0. unfold free_clusters. change (total_clusters boot_fs - 2) with 8094.
  replace 8094 with ((n - 2) + (8096 - n)) by lia. rewrite seqZ_app by lia. rewrite countb_app, H0, countb_all.
  - rewrite length_seqZ. lia.
  - intros c Hc%elem_of_seqZ. apply Z.eqb_eq, (clear_fat d n); [done|lia].
Qed.
(** Only the root directory's cluster is in use. *)
Lemma boot_clear : table_clear boot_disk 3 = true.
Proof. by vm_compute. Qed.
Lemma boot_fat c : 2 ≤ c < 8098 → fat_value boot_fs boot_disk c = if decide (c = 2) then FAT32_EOC else FAT32_FREE.
Proof.
  intros Hc. case_decide as E.
  - subst c. by vm_compute.
  - apply (clear_fat boot_disk 3); [exact boot_clear|lia].
Qed.
Lemma boot_root : file_chain boot_fs boot_disk [2].
Proof.
  split; [split; [split; by vm_compute|by vm_compute]|].
  intros c ->%list_elem_of_singleton. by rewrite boot_fat.
Qed.
Lemma boot_free_clusters : free_clusters boot_fs boot_disk = 8093.
Proof. apply (clear_free_clusters boot_disk 3); [exact boot_clear|lia|by vm_compute]. Qed.
Lemma boot_entries : dir_entries (dir_slots boot_fs boot_disk [2]) lfn_empty = ([], None).
Proof. by vm_compute. Qed.

(** A disk on which a file of 600 bytes occupies the clusters 3 and 4. *)
Definition demo_data : list Z := (λ i, i mod 251) <$> seqZ 0 600.
Definition demo_disk : disk :=
  run_disk (serve 10 boot_fs (mkRequest [FS_WRITE; 0; 0; 0] demo_data 600) [] boot_disk).
Lemma demo_bytes_ok : bytes_ok demo_disk.
Proof.
  apply bytes_checked. by vm_compute.
Qed.
Lemma demo_file : file_chain boot_fs demo_disk [3; 4].
Proof.
  assert (fat_value boot_fs demo_disk 3 = 4) as H3 by by vm_compute.
  assert (fat_value boot_fs demo_disk 4 = FAT32_EOC) as H4 by by vm_compute.
  split.
  - split; [split; by vm_compute|]. rewrite H3. split; [done|]. split; [split; by vm_compute|]. by rewrite H4.
  - intros c [->| ->%list_elem_of_singleton]%elem_of_cons; by rewrite ?H3, ?H4.
Qed.
Lemma demo_free_clusters : free_clusters boot_fs demo_disk = 8091.
Proof. apply (clear_free_clusters demo_disk 5); [by vm_compute|lia|by vm_compute]. Qed.
