(* ===== verification/FsContracts.v ===== *)
(** What the file server's volume promises: formatting, allocation, release of chains,
    reading and writing.  The runs of the witnesses are on the volume of [Volume.v]. *)

From S2P Require Import Prelude Bytes Initrd FatDisk FatFacts FatFile FileFacts WriteFacts FileSpec FatDir FatEdit DirFacts FsServer Volume.

(** Proofs never compute with a concrete disk. *)
#[local] Opaque boot_disk demo_disk.

(** ** Formatting *)

(** [C30] The server starts: on the zeroed RAM disk it formats a volume and opens it.  The
    geometry fits the disk (32 reserved sectors, a table of 64 sectors, 8096 clusters of
    one sector), the root directory is the chain of cluster 2 and has no entries, and every
    other cluster is free. *)
Theorem server_start_correct :
  server_start ∅ = Done (Some boot_fs, boot_disk) ∧ volume_ok boot_fs ∧ spc boot_fs = 1 ∧
  (fat_start boot_fs, data_start boot_fs, total_clusters boot_fs, root_cluster boot_fs) = (32, 96, 8096, 2) ∧
  bytes_ok boot_disk ∧ file_chain boot_fs boot_disk [2] ∧ entries_of boot_fs boot_disk [2] = [] ∧
  ∀ c, valid_cluster boot_fs c → c ≠ 2 → fat_value boot_fs boot_disk c = FAT32_FREE.
Proof.
  split_and!; [exact boot_run|exact boot_volume_ok|exact boot_spc|done|exact boot_bytes_ok|exact boot_root| |].
  - unfold entries_of. by rewrite boot_entries.
  - intros c [H1 H2] Hc. rewrite boot_fat; [by rewrite decide_False|]. cbn in H2. lia.
Qed.

(** ** Allocation and release *)

(** [C31] [alloc_cluster]: it takes the lowest free cluster of the range it searches, marks
    its entry with the end marker, fills its data with zeros and touches nothing else; it
    fails, without a change, only if no cluster of the range is free. *)
Theorem alloc_cluster_correct fs d :
  volume_ok fs →
  wp (alloc_cluster fs) (λ r d',
    match r with
    | Some c =>
        2 ≤ c < total_clusters fs ∧ fat_value fs d c = FAT32_FREE ∧
        (∀ c', 2 ≤ c' < c → fat_value fs d c' ≠ FAT32_FREE) ∧
        (∀ c', valid_cluster fs c' → fat_value fs d' c' = if decide (c' = c) then FAT32_EOC else fat_value fs d c') ∧
        cluster_bytes fs d' c = replicate (Z.to_nat (spc fs * BLOCK_SIZE)) 0 ∧
        only_changes fs [c] d d'
    | None => d' = d ∧ ∀ c, 2 ≤ c < total_clusters fs → fat_value fs d c ≠ FAT32_FREE
    end) d.
Proof.
  intros Hfs. apply (alloc_cluster_wp fs Hfs); [|done]. intros c d' Hc Hfree Hmin Ht. split_and!; try done; try lia.
  - intros c' [_ Hc']. apply taken_fat; [done|split; lia|done|done].
  - unfold cluster_bytes, disk_bytes. apply list_eq. intros i. rewrite list_lookup_fmap.
    destruct (decide (i < Z.to_nat (spc fs * BLOCK_SIZE))%nat) as [Hi|Hi].
    + rewrite lookup_seqZ_lt, lookup_replicate_2 by lia. cbn. rewrite Ht, decide_True; [done|].
      unfold in_cluster. lia.
    + rewrite lookup_seqZ_ge by lia. symmetry. apply lookup_replicate_None. lia.
  - intros a Ha. destruct (Ha c ltac:(by left)) as [H1 H2]. by rewrite Ht, !decide_False.
Qed.
Lemma alloc_cluster_correct_witness :
  ∃ c d', alloc_cluster boot_fs boot_disk = Done (Some c, d') ∧ fat_value boot_fs boot_disk c = FAT32_FREE ∧
    fat_value boot_fs d' c = FAT32_EOC.
Proof.
  pose proof (alloc_cluster_correct boot_fs boot_disk boot_volume_ok) as H.
  destruct (proj1 (wp_Done _ _ _) H) as ([c|] & d' & E & H0); clear H; rename H0 into H.
  - exists c, d'. destruct H as ((H1 & H2) & H3 & _ & H4 & _). split; [exact E|]. split; [exact H3|].
    rewrite H4; [by rewrite decide_True|split; [exact H1|lia]].
  - destruct H as [_ H]. exfalso. refine (H 3 _ _); [cbn; lia|].
    rewrite boot_fat by lia. reflexivity.
Defined.

(** [C32] [free_chain] ends whatever the table contains, even on a cycle: every step clears
    a word of the disk that was not zero.  From the first cluster of a chain it frees the
    clusters of the chain, all of them and nothing else, and returns their number. *)
Theorem free_chain_correct fs c d :
  volume_ok fs → is_u32 c →
  wp (free_chain fs c) (λ n d',
    ∀ l, chain fs d (c :: l) →
      n = Z.of_nat (length (c :: l)) ∧ freed fs (c :: l) d d' ∧
      ∀ c', valid_cluster fs c' →
        fat_value fs d' c' = if decide (c' ∈ c :: l) then FAT32_FREE else fat_value fs d c') d.
Proof.
  intros Hfs Hc. unfold free_chain. destruct (Z.ltb_spec c 2) as [Hlt|Hge].
  { apply wp_ret. intros l [[? _] _]. lia. }
  pose proof (free_chain_loop_total fs FREE_FUEL c 0 d (vo_start _ Hfs) Hc (FREE_FUEL_enough d)) as Ht.
  destruct (proj1 (wp_Done _ _ _) Ht) as (n & d' & E & _). apply wp_Done. exists n, d'. split; [exact E|]. intros l Hch.
  pose proof (chain_length fs d (c :: l) Hfs Hch) as Hlen.
  assert (total_clusters fs ≤ RAMDISK_SECTORS) as Hts.
  { destruct Hfs as [H1 H2 H3 H4 H5]. unfold BLOCK_SIZE in H4. nia. }
  assert (RAMDISK_SECTORS = 8192) as E8 by done. rewrite E8 in Hts.
  assert (0 + Z.of_nat (length (c :: l)) < 2 ^ 32) as Hsmall by (clear -Hlen Hts; lia).
  assert (wp (free_chain_loop FREE_FUEL fs c 0)
            (λ n d', n = Z.of_nat (length (c :: l)) ∧ freed fs (c :: l) d d') d) as H.
  { apply (free_chain_loop_chain fs FREE_FUEL c l); [done|done| |lia|done|].
    - cbn [length] in Hlen. apply Nat2Z.inj_lt. unfold FREE_FUEL. rewrite Z2Nat.id by by vm_compute.
      change (RAMDISK_SIZE / 4 + 2) with 1048578. lia.
    - intros d2 H2. by rewrite Z.add_0_l. }
  destruct (proj1 (wp_Done _ _ _) H) as (n2 & d2 & E2 & -> & Hf). rewrite E in E2. injection E2 as -> ->.
  split; [done|]. split; [exact Hf|]. intros c' [H1 H2]. case_decide as Hin.
  - unfold fat_value. rewrite dle_zero; [done|]. intros k Hk. rewrite Hf, decide_True; [done|].
    apply Exists_exists. exists c'. split; [done|]. unfold in_fat. lia.
  - apply fat_value_ext. intros a Ha. rewrite Hf, decide_False; [done|]. intros Hex.
    apply Exists_exists in Hex as (x & Hx & Hax). by rewrite (in_fat_inj fs c' x a Ha Hax) in Hin.
Qed.
Lemma free_chain_correct_witness :
  ∃ d', free_chain boot_fs 3 demo_disk = Done (2, d') ∧ fat_value boot_fs d' 4 = FAT32_FREE.
Proof.
  pose proof (free_chain_correct boot_fs 3 demo_disk boot_volume_ok ltac:(by split)) as H.
  destruct (proj1 (wp_Done _ _ _) H) as (n & d' & E & H0). destruct (H0 [4] (proj1 demo_file)) as (-> & _ & H3).
  exists d'. split; [exact E|]. rewrite H3 by (split; cbn; lia). rewrite decide_True; [reflexivity|]. right. by left.
Defined.

(** ** Files *)

(** [C33] [read_file]: from [offset] below the size it was given, it returns the bytes of
    the chain's contents from [offset], as many as the buffer, the size and the chain
    allow, at the front of a buffer whose rest it leaves; the disk does not change. *)
Theorem read_file_correct fs fuel c l offset file_size buf d :
  volume_ok fs → spc fs = 1 → chain fs d (c :: l) → (length l < fuel)%nat →
  0 ≤ offset < file_size → offset + 512 < 2 ^ 32 → is_u32 file_size →
  let k := content fs d (c :: l) in
  let n := Z.max 0 (Z.min (Z.min (Z.of_nat (length buf)) (file_size - offset)) (Z.of_nat (length k) - offset)) in
  wp (read_file fuel fs c offset file_size buf) (λ r d',
    r = (n, take (Z.to_nat n) (drop (Z.to_nat offset) k) ++ drop (Z.to_nat n) buf) ∧ d' = d) d.
Proof.
  intros Hfs Hspc Hch Hf Ho Hw Hsize k n. apply (read_file_wp fs Hfs Hspc fuel c l); [done..|].
  split; [|done]. unfold read_len. fold k n. f_equal. unfold filled.
  assert (length (take (Z.to_nat n) (drop (Z.to_nat offset) k)) = Z.to_nat n) as Hl.
  { rewrite length_take, length_drop. unfold n. lia. }
  rewrite Hl. done.
Qed.
Lemma read_file_correct_witness :
  wp (read_file 2 boot_fs 3 100 600 (replicate 1000 0)) (λ r d',
    r = (500, take 500 (drop 100 (content boot_fs demo_disk [3; 4])) ++ replicate 500 0) ∧ d' = demo_disk) demo_disk.
Proof.
  pose proof (read_file_correct boot_fs 2 3 [4] 100 600 (replicate 1000 0) demo_disk boot_volume_ok boot_spc
    (proj1 demo_file) ltac:(cbn; lia) ltac:(lia) ltac:(lia) ltac:(split; lia)) as H.
  cbv zeta in H. rewrite (length_content boot_fs boot_spc) in H. exact H.
Defined.

(** [C34] [write_file]: with enough free clusters the whole buffer is written.  The chain
    grows by the missing clusters, taken from the free ones; its contents are the old ones,
    extended with zeros, with the buffer in place from [offset] on -- and the rest of the
    last sector zero, unless the write stays inside the sector it starts in the middle of
    ([overwritten]); no byte outside of the chain's entries and clusters changes.  The
    cluster returned is the one the write ended in. *)
Theorem write_file_correct fs fuel c l offset buf d :
  volume_ok fs → spc fs = 1 → file_chain fs d (c :: l) → buf ≠ [] → Z.of_nat (length buf) < 2 ^ 32 →
  0 ≤ offset → offset + 512 < 2 ^ 32 →
  let need := (write_reach offset buf - length (c :: l))%nat in
  Z.of_nat need ≤ free_clusters fs d → (write_reach offset buf < fuel)%nat →
  wp (write_file fuel fs c offset buf) (λ r d', ∃ l',
    r = (Z.of_nat (length buf), default 0 ((c :: l ++ l') !! (write_reach offset buf - 1)%nat)) ∧
    length l' = need ∧ file_chain fs d' (c :: l ++ l') ∧
    free_clusters fs d' = free_clusters fs d - Z.of_nat need ∧
    content fs d' (c :: l ++ l') = overwritten (content fs d (c :: l)) offset buf ∧
    only_changes fs (c :: l ++ l') d d') d.
Proof.
  intros Hfs Hspc Hfile Hb Hlb H0 Ho need Hneed Hfuel. apply (write_file_wp fs Hfs Hspc fuel c l); [done..|].
  intros l' d' Hl' [G1 G2 G3] Hs. exists l'. cbn [app] in *. split_and!; [done|done|done|by rewrite G2, Hl'| |done].
  unfold content. fold (sectors fs d' (c :: l ++ l')) (sectors fs d (c :: l)). rewrite Hs.
  apply concat_written; [|done|done]. apply Forall_fmap, Forall_true. intros x. apply (length_cluster_bytes fs Hspc).
Qed.
Lemma write_file_correct_witness :
  wp (write_file 9 boot_fs 3 300 (replicate 1000 7)) (λ r d', ∃ l',
    r = (1000, default 0 (([3; 4] ++ l') !! 2%nat)) ∧ length l' = 1%nat ∧ file_chain boot_fs d' ([3; 4] ++ l')) demo_disk.
Proof.
  eapply wp_mono.
  - apply (write_file_correct boot_fs 9 3 [4] 300 (replicate 1000 7) demo_disk boot_volume_ok boot_spc demo_file);
      [done|by vm_compute|lia|lia|rewrite demo_free_clusters; by vm_compute|by apply Nat.ltb_lt; vm_compute].
  - intros r d' (l' & H1 & H2 & H3 & _). exists l'. split_and!; [exact H1|exact H2|exact H3].
Defined.

(** A request with its data in front of the receive buffer. *)
Definition data_request (words dat rest : list Z) : request := mkRequest words (dat ++ rest) (Z.of_nat (length dat)).
Lemma slice_front a b : slice (a ++ b) 0 (Z.of_nat (length a)) = Some a.
Proof. exact (slice_app [] a b). Qed.

(** [C35] What is written is read back, through the server's loop: after [FS_WRITE] of up to
    a page of data at an offset of a file, [FS_READ] of the same range answers with exactly
    the data. *)
Theorem write_then_read fs fuel c l offset dat rest read_data_buf d :
  volume_ok fs → spc fs = 1 → file_chain fs d (c :: l) → dat ≠ [] →
  Z.of_nat (length dat) ≤ IPC_BUFFER_SIZE → Z.of_nat (length read_data_buf) = IPC_BUFFER_SIZE →
  0 ≤ offset → offset + IPC_BUFFER_SIZE < 2 ^ 32 - 1 →
  Z.of_nat (write_reach offset dat - length (c :: l)) ≤ free_clusters fs d →
  (write_reach offset dat < fuel)%nat → (length l < fuel)%nat →
  wp (serve_all fuel fs
        [data_request [FS_WRITE; c; offset; 0] dat rest;
         data_request [FS_READ; c; offset; Z.of_nat (length dat)] [] rest] read_data_buf)
     (λ replies _, ∃ last_cluster,
        replies = [mkReply [FS_OK; Z.of_nat (length dat); last_cluster; 0] [];
                   mkReply [FS_OK; Z.of_nat (length dat); 0; 0] dat]) d.
Proof.
  intros Hfs Hspc Hfile Hb Hlen Hrdb H0 Ho Hneed Hfuel Hl. unfold IPC_BUFFER_SIZE in *.
  pose proof (file_chain_valid fs d (c :: l) c Hfile ltac:(by left)) as Hc.
  destruct (valid_readable fs c Hfs ltac:(destruct Hc; lia)) as [Hu _].
  assert (0 < Z.of_nat (length dat)) as Hpos by (destruct dat; [done|cbn; lia]).
  assert (∀ x, is_u32 x → u32 x = x) as Hmod by (intros x Hx; apply Z.mod_small; exact Hx).
  unfold is_u32 in *. cbn [serve_all]. apply wp_bind. unfold serve, data_request. cbn [req_words req_buf req_len].
  change (byte_at [FS_WRITE; c; offset; 0] 0) with FS_WRITE. cbn [Z.eqb Pos.eqb FS_WRITE FS_OPEN FS_READ FS_READDIR FS_CLOSE FS_MKDIR].
  apply wp_bind. unfold do_write. cbn [req_words req_buf req_len].
  change (byte_at [FS_WRITE; c; offset; 0] 1) with c. change (byte_at [FS_WRITE; c; offset; 0] 2) with offset.
  rewrite (Hmod c), (Hmod offset) by lia. destruct Hc as [Hc1 Hc2]. rewrite (proj2 (Z.ltb_ge c 2)) by lia.
  apply wp_bind, wp_ret. cbn beta iota. unfold req_data. cbn [req_buf req_len]. rewrite slice_front.
  apply wp_bind, wp_ret, wp_bind.
  apply (write_file_wp fs Hfs Hspc fuel c l); [done|done|lia|done|lia|done|done|].
  intros l' d' Hl' [G1 _ _] Hs. apply wp_ret, wp_ret, wp_bind. cbn [fst snd serve_all app] in *.
  apply wp_bind. unfold serve. cbn [req_words].
  change (byte_at [FS_READ; c; offset; Z.of_nat (length dat)] 0) with FS_READ.
  cbn [Z.eqb Pos.eqb FS_WRITE FS_OPEN FS_READ]. unfold do_read. cbn [req_words].
  change (byte_at [FS_READ; c; offset; Z.of_nat (length dat)] 1) with c.
  change (byte_at [FS_READ; c; offset; Z.of_nat (length dat)] 2) with offset.
  change (byte_at [FS_READ; c; offset; Z.of_nat (length dat)] 3) with (Z.of_nat (length dat)).
  rewrite !Hmod by lia. rewrite Hrdb, Z.min_l by lia.
  destruct (slice_Some read_data_buf 0 (Z.of_nat (length dat))) as (buf & -> & Hbuf); [lia..|].
  rewrite Z.sub_0_r in Hbuf. apply wp_bind, wp_ret, wp_bind.
  assert (content fs d' (c :: l ++ l') = overwritten (content fs d (c :: l)) offset dat) as Econ.
  { unfold content. fold (sectors fs d' (c :: l ++ l')) (sectors fs d (c :: l)). rewrite Hs.
    apply concat_written; [|done|done]. apply Forall_fmap, Forall_true. intros x. apply (length_cluster_bytes fs Hspc). }
  pose proof (overwritten_read (content fs d (c :: l)) offset dat H0) as Eread. rewrite <- Econ in Eread.
  pose proof (f_equal length Eread) as Elen. rewrite length_take, length_drop in Elen.
  apply (read_file_wp fs Hfs Hspc fuel c (l ++ l')); [apply G1| |lia|lia|split; lia|].
  { rewrite length_app. unfold write_reach in *. cbn [length] in Hl'. lia. }
  cbv zeta. unfold read_len. rewrite Hbuf.
  replace (Z.max 0 _) with (Z.of_nat (length dat)) by lia. rewrite Nat2Z.id, Eread.
  assert (filled buf 0 dat = dat) as ->.
  { unfold filled. cbn. rewrite drop_ge by lia. apply app_nil_r. }
  rewrite slice_front. apply wp_bind, wp_ret, wp_ret, wp_bind, wp_ret, wp_ret. cbn [fst].
  eexists. reflexivity.
Qed.
Lemma write_then_read_witness :
  ∃ last_cluster d', serve_all 10 boot_fs
      [data_request [FS_WRITE; 3; 300; 0] (replicate 1000 7) []; data_request [FS_READ; 3; 300; 1000] [] []]
      (replicate 4096 0) demo_disk =
    Done ([mkReply [FS_OK; 1000; last_cluster; 0] []; mkReply [FS_OK; 1000; 0; 0] (replicate 1000 7)], d').
Proof.
  pose proof (write_then_read boot_fs 10 3 [4] 300 (replicate 1000 7) [] (replicate 4096 0) demo_disk boot_volume_ok boot_spc
    demo_file ltac:(done) ltac:(by vm_compute) ltac:(by vm_compute) ltac:(lia) ltac:(by vm_compute)
    ltac:(rewrite demo_free_clusters; by vm_compute) ltac:(by apply Nat.ltb_lt; vm_compute) ltac:(cbn; lia)) as H.
  destruct (proj1 (wp_Done _ _ _) H) as (reps & d' & E & last & ->). exists last, d'. exact E.
Defined.
