(* ===== verification/EditFacts.v ===== *)
(** Editing directories ([FatEdit.v]): what the slot-level operations do to a sector, and
    when they find their place in it. *)

From S2P Require Import Prelude Bytes Initrd FatDisk FatFacts FatFile FileFacts WriteFacts FatDir FatEdit DirFacts.

(** A sector in memory. *)
Definition sector_ok (buf : list Z) : Prop := length buf = 512%nat ∧ Forall is_byte buf.

Section slots.
Implicit Types (buf bs : list Z) (l : lfn).

Lemma copy_into_inside buf off bs :
  sector_ok buf → Forall is_byte bs → 0 ≤ off → off + Z.of_nat (length bs) ≤ 512 →
  ∃ buf', copy_into buf off bs = Some buf' ∧ sector_ok buf' ∧
    ∀ n, buf' !! n = if decide (Z.to_nat off ≤ n < Z.to_nat off + length bs)%nat
                     then bs !! (n - Z.to_nat off)%nat else buf !! n.
Proof.
  intros [Hl Hb] Hbs H0 Hfit. rewrite copy_into_Some by lia. eexists. split; [done|].
  assert (length (take (Z.to_nat off) buf) = Z.to_nat off) as Ht by (rewrite length_take; lia).
  split; [split|].
  - rewrite !length_app, length_take, length_drop. lia.
  - apply Forall_app. split; [by apply Forall_take|]. apply Forall_app. split; [done|by apply Forall_drop].
  - intros n. case_decide as Hin; [|destruct (decide (n < Z.to_nat off)%nat)].
    + rewrite lookup_app_r, lookup_app_l by lia. by rewrite Ht.
    + rewrite lookup_app_l, lookup_take_lt by lia. done.
    + rewrite lookup_app_r, lookup_app_r, lookup_drop by lia. f_equal. lia.
Qed.
Lemma lookup_slot buf i k :
  0 ≤ i → slot buf i !! k = if decide (k < 32)%nat then buf !! (Z.to_nat (i * 32) + k)%nat else None.
Proof.
  intros Hi. unfold slot. case_decide.
  - by rewrite lookup_take_lt, lookup_drop by lia.
  - by rewrite lookup_take_ge by lia.
Qed.
(** Two sectors that agree on a slot. *)
Lemma slot_ext buf buf' i :
  0 ≤ i → (∀ n, (Z.to_nat (i * 32) ≤ n < Z.to_nat (i * 32) + 32)%nat → buf' !! n = buf !! n) →
  slot buf' i = slot buf i.
Proof.
  intros Hi H. apply list_eq. intros k. rewrite !lookup_slot by done. case_decide; [|done].
  apply H. lia.
Qed.
Lemma byte_at_slot buf i k : 0 ≤ i → 0 ≤ k < 32 → byte_at (slot buf i) k = byte_at buf (i * 32 + k).
Proof.
  intros Hi Hk. unfold byte_at. rewrite lookup_slot by done. rewrite decide_True by lia.
  by rewrite Z2Nat.inj_add by lia.
Qed.

Definition named_in (name : list Z) (es : list (DirEntry * list Z)) : bool :=
  existsb (λ e, same_name e.2 name) es.
Lemma cluster_lo_is_byte c : Forall is_byte (cluster_lo_bytes c).
Proof.
  unfold cluster_lo_bytes, is_byte. change 255 with (Z.ones 8). rewrite !Z.land_ones by lia.
  repeat constructor; by apply Z.mod_pos_bound.
Qed.
Lemma cluster_hi_is_byte c : Forall is_byte (cluster_hi_bytes c).
Proof. unfold cluster_hi_bytes, is_byte, u8. repeat constructor; by apply Z.mod_pos_bound. Qed.

(** The three patches of an update: they stay inside the slot. *)
Lemma update_patches buf i new_size new_cluster {A} (k : list Z → FS A) (Q : A → disk → Prop) d :
  sector_ok buf → 0 ≤ i < ENTRIES_PER_SECTOR →
  (∀ buf', sector_ok buf' → (∀ j, 0 ≤ j → j ≠ i → slot buf' j = slot buf j) → wp (k buf') Q d) →
  wp (buf ← unwrap (copy_into buf (i * 32 + 28) (le_bytes 4 new_size));
      buf ← unwrap (copy_into buf (i * 32 + 26) (cluster_lo_bytes new_cluster));
      buf ← unwrap (copy_into buf (i * 32 + 20) (cluster_hi_bytes new_cluster));
      k buf) Q d.
Proof.
  intros Hs Hi HQ. change ENTRIES_PER_SECTOR with 16 in Hi.
  destruct (copy_into_inside buf (i * 32 + 28) (le_bytes 4 new_size)) as (b1 & -> & Hs1 & H1);
    [done|apply le_bytes_is_byte|lia|rewrite length_le_bytes; lia|].
  apply wp_bind, wp_ret. rewrite length_le_bytes in H1.
  destruct (copy_into_inside b1 (i * 32 + 26) (cluster_lo_bytes new_cluster)) as (b2 & -> & Hs2 & H2);
    [done|apply cluster_lo_is_byte|lia|cbn; lia|].
  apply wp_bind, wp_ret.
  destruct (copy_into_inside b2 (i * 32 + 20) (cluster_hi_bytes new_cluster)) as (b3 & -> & Hs3 & H3);
    [done|apply cluster_hi_is_byte|lia|cbn; lia|].
  apply wp_bind, wp_ret, HQ; [done|]. intros j Hj Hne. apply slot_ext; [done|]. intros n Hn.
  cbn [length cluster_lo_bytes cluster_hi_bytes] in H2, H3.
  rewrite H3, decide_False by lia. rewrite H2, decide_False by lia. by rewrite H1, decide_False by lia.
Qed.
Lemma update_slots_wp search new_size new_cluster idxs : ∀ buf found l d
    (Q : bool + (list Z * bool * lfn) → disk → Prop),
  sector_ok buf → lfn_ok l → NoDup idxs → (∀ i, i ∈ idxs → 0 ≤ i < ENTRIES_PER_SECTOR) →
  let r := dir_entries (slot buf <$> idxs) l in
  let found' := found || named_in search r.1 in
  (r.2 = None → Q (inl found') d) →
  (∀ buf' l', r.2 = Some l' → sector_ok buf' → lfn_ok l' → Q (inr (buf', found', l')) d) →
  wp (update_slots idxs search new_size new_cluster buf found l) Q d.
Proof.
  induction idxs as [|i idxs IH]; intros buf found l d Q Hs Hl Hnd Hi r found' HN HS.
  { apply wp_ret. unfold found' in HS. cbn in HS. rewrite orb_false_r in HS. by apply HS. }
  apply NoDup_cons in Hnd as [Hni Hnd]. cbn [update_slots].
  apply wp_bind, scan_slot_wp; [done|apply slot_bytes, Hs|]. intros Hok.
  unfold found', r in HN, HS. clear found' r. cbn [fmap list_fmap dir_entries] in HN, HS.
  destruct (ref_scan (slot buf i) l) as [[[name|] l']|].
  - cbn [fst snd named_in existsb] in HN, HS. specialize (Hok _ _ eq_refl).
    destruct (same_name name search) eqn:En.
    + rewrite orb_true_r in HN, HS. apply update_patches; [done|apply Hi; by left|].
      intros buf' Hs' Hsl. assert (slot buf' <$> idxs = slot buf <$> idxs) as Esl.
      { apply list_fmap_ext. intros k j Hj%list_elem_of_lookup_2. apply Hsl; [|by intros ->].
        apply (Hi j). by right. }
      apply IH; rewrite ?Esl; [done|done|done|intros j Hj; apply Hi; by right|done|done].
    + apply IH; [done|done|done|intros j Hj; apply Hi; by right|exact HN|exact HS].
  - apply IH; [done|by eapply Hok|done|intros j Hj; apply Hi; by right|exact HN|exact HS].
  - apply wp_ret. rewrite <- (orb_false_r found). by apply HN.
Qed.
End slots.

(** ** Finding room *)

Section room.
Implicit Types (buf : list Z).

(** A run of [total] free slots among the slots [j..j + m], where the [count] slots before
    [j] are free. *)
Lemma find_run_spec buf total m : ∀ j count,
  1 ≤ total → 0 ≤ count < total →
  (∀ k, j - count ≤ k < j → slot_free buf k = true) →
  match find_run (seqZ j (Z.of_nat m)) buf total (if count =? 0 then None else Some (j - count)) count with
  | Some s => j - count ≤ s ∧ s + total ≤ j + Z.of_nat m ∧ (∀ k, s ≤ k < s + total → slot_free buf k = true) ∧
      (total = 1 → ∀ k, j ≤ k < s → slot_free buf k = false)
  | None => total = 1 → ∀ k, j ≤ k < j + Z.of_nat m → slot_free buf k = false
  end.
Proof.
  induction m as [|m IH]; intros j count Ht Hc Hfree; [change (seqZ j (Z.of_nat 0)) with (@nil Z); cbn [find_run]; intros; lia|].
  rewrite seqZ_cons by lia. replace (Z.pred (Z.of_nat (S m))) with (Z.of_nat m) by lia. cbn [find_run].
  destruct (slot_free buf j) eqn:Ej.
  - assert ((match (if count =? 0 then None else Some (j - count)) with None => j | Some s => s end) = j - count) as ->.
    { destruct (Z.eqb_spec count 0); lia. }
    assert (∀ k, j - count ≤ k < j + 1 → slot_free buf k = true) as Hfree'.
    { intros k Hk. destruct (decide (k = j)) as [->|]; [done|]. apply Hfree. lia. }
    destruct (Z.leb_spec total (count + 1)) as [Hle|Hgt].
    + split_and!; [lia|lia|intros k Hk; apply Hfree'; lia|intros; lia].
    + specialize (IH (Z.succ j) (count + 1) Ht ltac:(lia)). rewrite (proj2 (Z.eqb_neq (count + 1) 0)) in IH by lia.
      replace (Z.succ j - (count + 1)) with (j - count) in IH by lia.
      specialize (IH ltac:(intros k Hk; apply Hfree'; lia)).
      destruct (find_run _ _ _ _ _) as [s|]; [|intros; lia].
      destruct IH as (H1 & H2 & H3 & _). split_and!; [lia|lia|done|intros; lia].
  - specialize (IH (Z.succ j) 0 Ht ltac:(lia) ltac:(intros; lia)). cbn [Z.eqb] in IH.
    destruct (find_run _ _ _ _ _) as [s|].
    + destruct IH as (H1 & H2 & H3 & H4). split_and!; [lia|lia|done|].
      intros E k Hk. destruct (decide (k = j)) as [->|]; [done|]. apply H4; lia.
    + intros E k Hk. destruct (decide (k = j)) as [->|]; [done|]. apply IH; lia.
Qed.
Lemma find_run_sector buf total :
  1 ≤ total →
  match find_run (seqZ 0 ENTRIES_PER_SECTOR) buf total None 0 with
  | Some s => 0 ≤ s ∧ s + total ≤ ENTRIES_PER_SECTOR ∧ (∀ k, s ≤ k < s + total → slot_free buf k = true) ∧
      (total = 1 → ∀ k, 0 ≤ k < s → slot_free buf k = false)
  | None => total = 1 → ∀ k, 0 ≤ k < ENTRIES_PER_SECTOR → slot_free buf k = false
  end.
Proof.
  intros Ht. pose proof (find_run_spec buf total 16 0 0 Ht ltac:(lia) ltac:(intros; lia)) as H.
  cbn [Z.eqb] in H. change (Z.of_nat 16) with ENTRIES_PER_SECTOR in H.
  destruct (find_run _ _ _ _ _); [|done]. destruct H as (H1 & H2 & H3 & H4). split_and!; [lia|lia|done|done].
Qed.
End room.

(** ** The bytes of a new entry *)

Section new_entry.
Implicit Types (buf short : list Z).

Lemma u8_byte x : is_byte (u8 x).
Proof. unfold is_byte, u8. by apply Z.mod_pos_bound. Qed.
Lemma is_byte_lor a b : is_byte a → is_byte b → is_byte (Z.lor a b).
Proof. intros Ha Hb. exact (lor_bound 8 a b ltac:(lia) Ha Hb). Qed.
Lemma lfn_units_spec name_chars first count :
  0 ≤ count → length (lfn_units name_chars first count) = Z.to_nat (2 * count) ∧
  Forall is_byte (lfn_units name_chars first count).
Proof.
  intros Hc. unfold lfn_units. split.
  - assert (∀ l, length (l ≫= (λ ci, le_bytes 2 (lfn_unit name_chars ci))) = (2 * length l)%nat) as H.
    { induction l as [|x l IH]; [done|]. rewrite bind_cons, length_app, length_le_bytes, IH. cbn. lia. }
    rewrite H, length_seqZ. lia.
  - apply Forall_bind, Forall_forall. intros x _. apply le_bytes_is_byte.
Qed.
Lemma lfn_checksum_byte short : is_byte (lfn_checksum short).
Proof.
  unfold lfn_checksum. assert (is_byte 0) as H by (split; lia). revert H. generalize 0 as s.
  induction short as [|b short IH]; intros s Hs; [done|]. apply IH, u8_byte.
Qed.
Lemma put_lfn_ok name_chars checksum count start_idx lfn_idx buf :
  sector_ok buf → is_byte checksum → 0 ≤ start_idx → start_idx + count < ENTRIES_PER_SECTOR → 0 ≤ lfn_idx < count →
  ∃ buf', put_lfn name_chars checksum count start_idx lfn_idx buf = Some buf' ∧ sector_ok buf'.
Proof.
  intros Hs Hck H0 H1 Hi. change ENTRIES_PER_SECTOR with 16 in H1. unfold put_lfn.
  set (off := (start_idx + (count - 1 - lfn_idx)) * 32). assert (0 ≤ off ≤ 480 - 32) as Ho by lia. clearbody off.
  destruct (lfn_units_spec name_chars (lfn_idx * 13) 5 ltac:(lia)) as [L1 B1].
  destruct (lfn_units_spec name_chars (lfn_idx * 13 + 5) 6 ltac:(lia)) as [L2 B2].
  destruct (lfn_units_spec name_chars (lfn_idx * 13 + 11) 2 ltac:(lia)) as [L3 B3].
  destruct (copy_into_inside buf off
    ([if lfn_idx =? count - 1 then Z.lor (u8 (lfn_idx + 1)) 64 else u8 (lfn_idx + 1)] ++
     lfn_units name_chars (lfn_idx * 13) 5 ++ [15; 0; checksum] ++ lfn_units name_chars (lfn_idx * 13 + 5) 6))
    as (b1 & -> & Hs1 & _); [done| |lia|rewrite !length_app; cbn [length]; lia|].
  { assert (is_byte (if lfn_idx =? count - 1 then Z.lor (u8 (lfn_idx + 1)) 64 else u8 (lfn_idx + 1))) as Hflag.
    { destruct (_ =? _); [apply is_byte_lor; [apply u8_byte|done]|apply u8_byte]. }
    rewrite !Forall_app. split_and!; [by constructor|exact B1| |exact B2]. by do 3 (constructor; [done|]). }
  destruct (copy_into_inside b1 (off + 28) (lfn_units name_chars (lfn_idx * 13 + 11) 2)) as (b2 & Hb2 & Hs2 & _);
    [done|done|lia|lia|]. exists b2. split; [exact Hb2|done].
Qed.
Lemma put_lfns_ok name_chars checksum count start_idx idxs : ∀ buf,
  sector_ok buf → is_byte checksum → 0 ≤ start_idx → start_idx + count < ENTRIES_PER_SECTOR →
  (∀ i, i ∈ idxs → 0 ≤ i < count) →
  ∃ buf', put_lfns idxs name_chars checksum count start_idx buf = Some buf' ∧ sector_ok buf'.
Proof.
  induction idxs as [|i idxs IH]; intros buf Hs Hck H0 H1 Hi; [by exists buf|].
  destruct (put_lfn_ok name_chars checksum count start_idx i buf) as (b1 & E & Hs1); [done..|apply Hi; by left|].
  destruct (IH b1) as (b2 & E2 & Hs2); [done..|intros j Hj; apply Hi; by right|].
  exists b2. split; [|done]. cbn [put_lfns]. by rewrite E.
Qed.
End new_entry.

(** A slot that holds a given short entry. *)
Record entry_is (e short : list Z) (attr first_cluster file_size : Z) : Prop := {
  ei_name : de_name (read_dir_entry e) = take 8 short;
  ei_ext : de_ext (read_dir_entry e) = drop 8 short;
  ei_first : byte_at e 0 = byte_at short 0;
  ei_attr : byte_at e 11 = attr;
  ei_cluster : entry_cluster (read_dir_entry e) = first_cluster;
  ei_size : de_file_size (read_dir_entry e) = file_size;
}.

Section short_entry.
Implicit Types (buf short : list Z).

Lemma lor_shift_add n a b : 0 ≤ n → 0 ≤ a → 0 ≤ b < 2 ^ n → Z.lor (Z.shiftl a n) b = a * 2 ^ n + b.
Proof.
  intros Hn Ha Hb. rewrite <- Z.shiftl_mul_pow2 by done. symmetry. apply Z.add_nocarry_lor, Z.bits_inj_0.
  intros k. rewrite Z.land_spec. destruct (decide (k < n)) as [Hk|Hk].
  - destruct (decide (0 ≤ k)); [|rewrite Z.testbit_neg_r; [done|lia]]. rewrite Z.shiftl_spec_low by lia. done.
  - rewrite (bits_above n b k) by lia. apply andb_false_r.
Qed.
Lemma split_cluster c : is_u32 c →
  Z.lor (u32 (Z.shiftl (u8 (Z.shiftr c 16) + 256 * (u8 (Z.shiftr c 24) + 256 * 0)) 16))
    (Z.land c 255 + 256 * (Z.land (Z.shiftr c 8) 255 + 256 * 0)) = c.
Proof.
  intros [H0 H1]. change 255 with (Z.ones 8). rewrite !Z.land_ones, !Z.shiftr_div_pow2 by lia. unfold u8, u32.
  change (2 ^ 8) with 256. change (2 ^ 16) with 65536. change (2 ^ 24) with 16777216.
  assert (c / 16777216 < 256) as Hd by (apply Z.div_lt_upper_bound; lia).
  assert (0 ≤ c / 16777216) as Hd0 by (apply Z.div_pos; lia).
  rewrite (Z.mod_small (c / 16777216)) by lia.
  assert (c / 16777216 = c / 65536 / 256) as E1 by (by rewrite Z.div_div by lia).
  assert (c / 65536 = c / 256 / 256) as E2 by (by rewrite Z.div_div by lia).
  assert ((c / 65536) mod 256 + 256 * (c / 16777216 + 256 * 0) = c / 65536) as ->.
  { rewrite E1. pose proof (Z.div_mod (c / 65536) 256). lia. }
  assert (c mod 256 + 256 * ((c / 256) mod 256 + 256 * 0) = c mod 65536) as ->.
  { pose proof (Z.rem_mul_r c 256 256 ltac:(lia) ltac:(lia)) as Hr. change (256 * 256) with 65536 in Hr. lia. }
  assert (0 ≤ c / 65536 < 65536) as Hh by (split; [apply Z.div_pos; lia|apply Z.div_lt_upper_bound; lia]).
  rewrite Z.mod_small; [|rewrite Z.shiftl_mul_pow2; lia].
  rewrite lor_shift_add by (try lia; apply Z.mod_pos_bound; lia). pose proof (Z.div_mod c 65536). lia.
Qed.
Lemma le_4_of e v : is_u32 v → (∀ k, 0 ≤ k < 4 → byte_at e (28 + k) = v / 256 ^ k mod 256) → le 4 e 28 = v.
Proof.
  intros [H0 H1] H. cbn [le].
  pose proof (H 0 ltac:(lia)) as B0. pose proof (H 1 ltac:(lia)) as B1.
  pose proof (H 2 ltac:(lia)) as B2. pose proof (H 3 ltac:(lia)) as B3.
  change (28 + 0) with 28 in B0. change (28 + 1 + 1) with 30. change (30 + 1) with 31.
  change (28 + 2) with 30 in B2. change (28 + 3) with 31 in B3. rewrite B0, B1, B2, B3.
  change (256 ^ 0) with 1. change (256 ^ 1) with 256. change (256 ^ 2) with (256 * 256). change (256 ^ 3) with (256 * (256 * 256)).
  rewrite Z.div_1_r, <- !Z.div_div by lia.
  assert (v / 256 / 256 / 256 < 256) as Hd by (rewrite !Z.div_div by lia; apply Z.div_lt_upper_bound; lia).
  assert (0 ≤ v / 256 / 256 / 256) by (repeat apply Z.div_pos; lia).
  rewrite (Z.mod_small (v / 256 / 256 / 256)) by lia.
  pose proof (Z.div_mod v 256). pose proof (Z.div_mod (v / 256) 256). pose proof (Z.div_mod (v / 256 / 256) 256). lia.
Qed.
Lemma put_short_ok short attr first_cluster file_size i buf :
  sector_ok buf → length short = 11%nat → Forall is_byte short → is_byte attr →
  0 ≤ i < ENTRIES_PER_SECTOR →
  ∃ buf', put_short short attr first_cluster file_size (i * 32) buf = Some buf' ∧ sector_ok buf' ∧
    (∀ j, 0 ≤ j → j ≠ i → slot buf' j = slot buf j) ∧
    (is_u32 first_cluster → is_u32 file_size → entry_is (slot buf' i) short attr first_cluster file_size).
Proof.
  intros Hs Hls Hbs Hattr Hi. change ENTRIES_PER_SECTOR with 16 in Hi. unfold put_short.
  destruct (copy_into_inside buf (i * 32) (short ++ [attr])) as (b1 & E1 & Hs1 & H1);
    [done|apply Forall_app; split; [done|by apply Forall_singleton]|lia|rewrite length_app; cbn; lia|].
  destruct (copy_into_inside b1 (i * 32 + 20) (cluster_hi_bytes first_cluster)) as (b2 & E2 & Hs2 & H2);
    [done|apply cluster_hi_is_byte|lia|cbn; lia|].
  destruct (copy_into_inside b2 (i * 32 + 26) (cluster_lo_bytes first_cluster ++ le_bytes 4 file_size)) as (b3 & E3 & Hs3 & H3);
    [done|apply Forall_app; split; [apply cluster_lo_is_byte|apply le_bytes_is_byte]|lia|rewrite length_app, length_le_bytes; cbn; lia|].
  exists b3. rewrite E1. cbn [mbind option_bind]. rewrite E2. cbn [mbind option_bind]. split; [exact E3|]. split; [done|].
  rewrite length_app, Hls in H1. cbn [length app cluster_lo_bytes cluster_hi_bytes Nat.add] in H1, H2, H3.
  rewrite length_le_bytes in H3. split.
  { intros j Hj Hne. apply slot_ext; [done|]. intros n Hn.
    rewrite H3, decide_False by lia. rewrite H2, decide_False by lia. by rewrite H1, decide_False by lia. }
  intros Hc Hsz.
  assert (∀ k, (k < 12)%nat → slot b3 i !! k = (short ++ [attr]) !! k) as Hfront.
  { intros k Hk. rewrite lookup_slot by lia. rewrite decide_True by lia.
    rewrite H3, decide_False by lia. rewrite H2, decide_False by lia. rewrite H1, decide_True by lia. f_equal. lia. }
  assert (∀ k, 0 ≤ k < 2 → byte_at (slot b3 i) (20 + k) = byte_at (cluster_hi_bytes first_cluster) k) as Hhi.
  { intros k Hk. unfold byte_at. rewrite lookup_slot by lia. rewrite decide_True by lia.
    rewrite H3, decide_False by lia. rewrite H2, decide_True by lia. do 2 f_equal. lia. }
  assert (∀ k, 0 ≤ k < 6 → byte_at (slot b3 i) (26 + k) =
            byte_at (cluster_lo_bytes first_cluster ++ le_bytes 4 file_size) k) as Hlo.
  { intros k Hk. unfold byte_at. rewrite lookup_slot by lia. rewrite decide_True by lia.
    rewrite H3, decide_True by lia. do 2 f_equal. lia. }
  split.
  - cbn. apply list_eq. intros k. destruct (decide (k < 8)%nat).
    + rewrite !lookup_take_lt, Hfront, lookup_app_l by lia. done.
    + by rewrite !lookup_take_ge by lia.
  - cbn. apply list_eq. intros k. destruct (decide (k < 3)%nat).
    + rewrite lookup_take_lt, !lookup_drop, Hfront, lookup_app_l by lia. done.
    + rewrite lookup_take_ge by lia. rewrite lookup_drop, lookup_ge_None_2; [done|lia].
  - unfold byte_at. rewrite Hfront, lookup_app_l by (cbn; lia). done.
  - unfold byte_at. rewrite Hfront by (cbn; lia). change (Z.to_nat 11) with 11%nat. rewrite <- Hls at 1.
    by rewrite list_lookup_middle.
  - unfold entry_cluster. cbn [read_dir_entry first_cluster_hi first_cluster_lo le].
    pose proof (Hhi 0 ltac:(lia)) as A0. pose proof (Hhi 1 ltac:(lia)) as A1.
    pose proof (Hlo 0 ltac:(lia)) as B0. pose proof (Hlo 1 ltac:(lia)) as B1.
    change (20 + 0) with 20 in A0. change (20 + 1) with 21 in *. change (26 + 0) with 26 in B0. change (26 + 1) with 27 in *.
    rewrite A0, A1, B0, B1.
    by apply split_cluster.
  - cbn [read_dir_entry de_file_size]. apply le_4_of; [done|]. intros k Hk.
    replace (28 + k) with (26 + (2 + k)) by lia. rewrite Hlo by lia. rewrite <- (byte_at_le_bytes 4 file_size k) by lia.
    unfold byte_at. rewrite lookup_app_r by (cbn; lia). cbn [length cluster_lo_bytes]. do 2 f_equal. lia.
Qed.
End short_entry.
