(* ===== verification/DirCreate.v ===== *)
(** Creating a directory entry ([create_dir_entry] of [FatEdit.v]) for a name that fits a
    short entry: where it is placed, and that the directory's walk then finds it. *)

From S2P Require Import Prelude Bytes Initrd FatDisk FatFacts FatFile FileFacts WriteFacts FatDir FatEdit DirFacts EditFacts.

(** A slot that is free: never used or deleted. *)
Definition unused (e : list Z) : bool := (byte_at e 0 =? 0x00) || (byte_at e 0 =? 0xE5).
(** The slots in front of the first free one. *)
Fixpoint used_prefix (slots : list (list Z)) : list (list Z) :=
  match slots with
  | [] => []
  | e :: slots => if unused e then [] else e :: used_prefix slots
  end.
(** [e] replaced the first free slot. *)
Definition placed (slots slots' : list (list Z)) (e : list Z) : Prop :=
  ∃ pre old post, slots = pre ++ old :: post ∧ slots' = pre ++ e :: post ∧ unused old = true ∧
    Forall (λ x, unused x = false) pre.

Section placing.
Implicit Types (slots : list (list Z)) (e : list Z).

Lemma used_prefix_app pre old post :
  Forall (λ x, unused x = false) pre → unused old = true → used_prefix (pre ++ old :: post) = pre.
Proof. induction 1 as [|x pre Hx _ IH]; intros Ho; cbn; [by rewrite Ho|rewrite Hx; by f_equal; apply IH]. Qed.
Lemma placed_prefix slots slots' e : placed slots slots' e →
  ∃ post, slots' = used_prefix slots ++ e :: post.
Proof. intros (pre & old & post & -> & -> & Ho & Hp). exists post. by rewrite used_prefix_app. Qed.
Lemma placed_app_l slots slots' more e : placed slots slots' e → placed (slots ++ more) (slots' ++ more) e.
Proof.
  intros (pre & old & post & -> & -> & Ho & Hp). exists pre, old, (post ++ more). by rewrite <- !(assoc_L (++)).
Qed.
Lemma placed_app_r front slots slots' e :
  Forall (λ x, unused x = false) front → placed slots slots' e → placed (front ++ slots) (front ++ slots') e.
Proof.
  intros Hf (pre & old & post & -> & -> & Ho & Hp). exists (front ++ pre), old, post. rewrite <- !(assoc_L (++)).
  split_and!; [done..|]. by apply Forall_app.
Qed.
Lemma byte_at_slot_first buf i : 0 ≤ i → byte_at (slot buf i) 0 = byte_at buf (i * 32).
Proof. intros Hi. rewrite byte_at_slot by lia. f_equal. lia. Qed.
Lemma slot_free_unused buf i : 0 ≤ i → slot_free buf i = unused (slot buf i).
Proof. intros Hi. unfold slot_free, unused. by rewrite !byte_at_slot_first. Qed.
(** Changing one slot of a sector. *)
Lemma sector_slots_split buf i :
  0 ≤ i < ENTRIES_PER_SECTOR →
  sector_slots buf = (slot buf <$> seqZ 0 i) ++ slot buf i :: (slot buf <$> seqZ (i + 1) (ENTRIES_PER_SECTOR - i - 1)).
Proof.
  intros Hi. unfold sector_slots. replace ENTRIES_PER_SECTOR with (i + (ENTRIES_PER_SECTOR - i)) at 1 by lia.
  rewrite seqZ_app, fmap_app by lia. f_equal. rewrite Z.add_0_l, seqZ_cons by lia. rewrite fmap_cons. f_equal.
Qed.
Lemma placed_sector buf buf' i :
  0 ≤ i < ENTRIES_PER_SECTOR → slot_free buf i = true → (∀ k, 0 ≤ k < i → slot_free buf k = false) →
  (∀ j, 0 ≤ j → j ≠ i → slot buf' j = slot buf j) →
  placed (sector_slots buf) (sector_slots buf') (slot buf' i).
Proof.
  intros Hi Hfree Hused Hsame. exists (slot buf <$> seqZ 0 i), (slot buf i), (slot buf <$> seqZ (i + 1) (ENTRIES_PER_SECTOR - i - 1)).
  split_and!; [by apply sector_slots_split| |by rewrite <- slot_free_unused by lia|].
  - rewrite (sector_slots_split buf' i) by done. f_equal; [|f_equal];
      apply list_fmap_ext; intros k j Hj%lookup_seqZ; apply Hsame; lia.
  - apply Forall_fmap, Forall_forall. intros k Hk%elem_of_seqZ. unfold compose.
    rewrite <- slot_free_unused by lia. apply Hused. lia.
Qed.
Lemma full_sector buf :
  (∀ k, 0 ≤ k < ENTRIES_PER_SECTOR → slot_free buf k = false) → Forall (λ x, unused x = false) (sector_slots buf).
Proof.
  intros H. apply Forall_fmap, Forall_forall. intros k Hk%elem_of_seqZ. unfold compose.
  rewrite <- slot_free_unused by lia. apply H. lia.
Qed.
End placing.

Section creating.
Context (fs : Fat32Fs).
Hypothesis Hfs : volume_ok fs.
Hypothesis Hspc : spc fs = 1.
Implicit Types (d : disk) (c : Z) (l buf : list Z).

(** Writing a cluster of one sector. *)
Lemma cluster_write c buf (Q : bool → disk → Prop) d :
  valid_cluster fs c → sector_ok buf →
  (∀ d', cluster_bytes fs d' c = buf → (∀ a, ¬ in_cluster fs c a → dbyte d' a = dbyte d a) →
     (bytes_ok d → bytes_ok d') → Q true d') →
  wp (disk_write (cluster_to_sector fs c +' 0) buf) Q d.
Proof.
  intros Hc [Hl Hb] HQ. destruct (cluster_sector fs c Hfs Hc) as (Ea & H0 & H1).
  assert (RAMDISK_SECTORS = 8192) as E8 by done. rewrite Hspc in H1.
  assert (cluster_to_sector fs c +' 0 = cluster_to_sector fs c) as ->
    by (unfold u64; rewrite Z.add_0_r; apply Z.mod_small; lia).
  apply disk_write_wp; [lia|done|]. rewrite decide_True by lia. rewrite Ea. apply HQ.
  - apply list_eq. intros i. unfold cluster_bytes, disk_bytes. rewrite Hspc, Z.mul_1_l, list_lookup_fmap.
    destruct (decide (i < 512)%nat) as [Hi|Hi].
    + rewrite lookup_seqZ_lt by (unfold BLOCK_SIZE; lia). cbn [fmap option_fmap option_map].
      rewrite dbyte_put, decide_True by lia. unfold byte_at.
      replace (Z.to_nat _) with i by lia. destruct (lookup_lt_is_Some_2 buf i ltac:(lia)) as [x ->]. done.
    + rewrite lookup_seqZ_ge by (unfold BLOCK_SIZE; lia). symmetry. apply lookup_ge_None_2. lia.
  - intros a Ha. rewrite dbyte_put, decide_False; [done|]. unfold in_cluster, BLOCK_SIZE in Ha. rewrite Hspc in Ha. lia.
  - intros Hd a. rewrite dbyte_put. case_decide; [by apply byte_at_bound|apply Hd].
Qed.
Lemma cluster_sector_ok d c : bytes_ok d → sector_ok (cluster_bytes fs d c).
Proof. intros Hd. split; [apply (length_cluster_bytes fs Hspc)|by apply cluster_is_bytes]. Qed.

(** Only data of [l] changed. *)
Definition data_changes (l : list Z) (d d' : disk) : Prop :=
  ∀ a, (∀ x, x ∈ l → ¬ in_cluster fs x a) → dbyte d' a = dbyte d a.
Lemma data_changes_fat l d d' c :
  (∀ x, x ∈ l → valid_cluster fs x) → data_changes l d d' → c < total_clusters fs + 2 →
  fat_value fs d' c = fat_value fs d c.
Proof.
  intros Hl Hd Hc. apply fat_value_ext. intros a Ha. apply Hd. intros x Hx Hin.
  destruct (Hl x Hx). by apply (fat_not_data fs c x a Hfs).
Qed.
Lemma data_changes_cluster l d d' c :
  0 < spc fs → c ∉ l → data_changes l d d' → cluster_bytes fs d' c = cluster_bytes fs d c.
Proof.
  intros Hp Hc Hd. apply cluster_bytes_ext. intros a Ha. apply Hd. intros x Hx Hin.
  by rewrite (in_cluster_inj fs c x a Hp Ha Hin) in Hc.
Qed.
Lemma dir_slots_ext d d' l :
  (∀ c, c ∈ l → cluster_bytes fs d' c = cluster_bytes fs d c) → dir_slots fs d' l = dir_slots fs d l.
Proof.
  induction l as [|c l IH]; intros H; [done|]. rewrite !dir_slots_cons, (H c) by by left. f_equal.
  apply IH. intros x Hx. apply H. by right.
Qed.

(** A new entry without long-name slots, in the first free slot of the directory. *)
Record short_new (ne : new_entry) : Prop := {
  sn_len : length (ne_short ne) = 11%nat;
  sn_bytes : Forall is_byte (ne_short ne);
  sn_chars : (length (ne_chars ne) <= 13)%nat;
  sn_attr : is_byte (ne_attr ne);
  sn_cluster : is_u32 (ne_cluster ne);
  sn_size : is_u32 (ne_size ne);
}.
Lemma create_loop_wp ne fuel : short_new ne → ∀ l c d (Q : option (Z * Z) → disk → Prop),
  bytes_ok d → chain fs d (c :: l) → (length l < fuel)%nat →
  Exists (λ e, unused e = true) (dir_slots fs d (c :: l)) →
  (∀ addr e d', placed (dir_slots fs d (c :: l)) (dir_slots fs d' (c :: l)) e →
     entry_is e (ne_short ne) (ne_attr ne) (ne_cluster ne) (ne_size ne) →
     bytes_ok d' → data_changes (c :: l) d d' → Q (Some addr) d') →
  wp (create_loop fuel fs c ne) Q d.
Proof.
  intros Hne. induction fuel as [|fuel IH]; intros l c d Q Hb Hch Hf Hex HQ; [lia|].
  pose proof Hch as [Hc _]. pose proof (chain_NoDup _ _ _ Hch) as [Hcl _]%NoDup_cons.
  cbn [create_loop]. rewrite Hspc. change (seqZ 0 1) with [0]. cbn [create_in_cluster].
  apply wp_bind, wp_bind, (cluster_read fs Hfs Hspc); [done|]. cbn beta iota.
  set (C := cluster_bytes fs d c) in *. pose proof (cluster_sector_ok d c Hb) as Hok. fold C in Hok.
  apply wp_bind. unfold create_in_sector.
  assert (lfn_count (Z.of_nat (length (ne_chars ne))) = 0) as ->.
  { unfold lfn_count. pose proof (sn_chars _ Hne). by rewrite (proj2 (Z.leb_le _ _)) by lia. }
  change (0 + 1) with 1. pose proof (find_run_sector C 1 ltac:(lia)) as Hrun.
  destruct (find_run (seqZ 0 ENTRIES_PER_SECTOR) C 1 None 0) as [i|].
  - destruct Hrun as (H0 & H1 & Hfree & Hused). change (reverse (seqZ 0 0)) with (@nil Z). cbn [put_lfns].
    destruct (put_short_ok (ne_short ne) (ne_attr ne) (ne_cluster ne) (ne_size ne) i C) as (C' & E & Hok' & Hsame & Hent);
      [done|apply Hne|apply Hne|apply Hne|lia|].
    apply wp_bind, wp_ret. cbv beta zeta. rewrite (Z.add_0_r i), E. apply wp_bind, wp_ret, wp_bind, cluster_write; [done|done|].
    intros d' Hd' Hother Hbytes. cbn [negb]. apply wp_ret, wp_ret.
    assert (data_changes (c :: l) d d') as Hdc.
    { intros a Ha. apply Hother, Ha. by left. }
    apply (HQ _ (slot C' i)); [|apply Hent; apply Hne|by apply Hbytes|done].
    rewrite !dir_slots_cons, Hd'. fold C. rewrite (dir_slots_ext d d' l).
    + apply placed_app_l, placed_sector; [lia|apply Hfree; lia|by apply Hused|done].
    + intros x Hx. apply (data_changes_cluster [c]); [rewrite Hspc; lia|by intros ->%list_elem_of_singleton|].
      intros a Ha. apply Hother, Ha. by left.
  - specialize (Hrun eq_refl). apply wp_ret, wp_ret. cbn beta iota.
    apply wp_bind, (chain_step fs Hfs c l); [done|]. intros o ->.
    assert (Forall (λ x, unused x = false) (sector_slots C)) as Hfull by (by apply full_sector).
    rewrite dir_slots_cons in Hex. fold C in Hex. apply Exists_app in Hex as [Hex|Hex].
    { exfalso. apply Exists_exists in Hex as (x & Hx & Eu). rewrite Forall_forall in Hfull.
      by rewrite (Hfull x Hx) in Eu. }
    destruct l as [|c' l]; [by apply Exists_nil in Hex|]. cbn [head].
    apply (IH l); [done|by eapply chain_tail|cbn in Hf; lia|done|].
    intros addr e d' Hpl He Hb' Hdc. apply (HQ addr e); [|done|done|].
    + rewrite (dir_slots_cons fs d), (dir_slots_cons fs d'). fold C.
      rewrite (data_changes_cluster (c' :: l) d d' c) by (try done; rewrite Hspc; lia). fold C.
      by apply placed_app_r.
    + intros a Ha. apply Hdc. intros x Hx. apply Ha. by right.
Qed.
End creating.

(** ** Short names *)

(** The name of an entry with the parts [n] and [e], as a path writes it. *)
Definition dotted (n e : list Z) : list Z := n ++ match e with [] => [] | _ => 46 :: e end.
(** The parts fit a short entry. *)
Record short_parts (n e : list Z) : Prop := {
  sp_n : (1 <= length n <= 8)%nat;
  sp_e : (length e <= 3)%nat;
  sp_n_chars : Forall (λ c, name_char c = true) n;
  sp_e_chars : Forall (λ c, name_char c = true) e;
}.

Section names.
Implicit Types (n e bs : list Z) (c : Z).
Abbreviation name_chars bs := (Forall (λ c, name_char c = true) bs).

Lemma name_char_cases c :
  name_char c = true → 48 ≤ c ≤ 57 ∨ 65 ≤ c ≤ 90 ∨ c = 95 ∨ 97 ≤ c ≤ 122.
Proof.
  unfold name_char, is_alphanumeric. rewrite !orb_true_iff, !andb_true_iff, !Z.leb_le, Z.eqb_eq. lia.
Qed.
Lemma to_upper_cases c : name_char c = true →
  48 ≤ to_upper c ≤ 95 ∧ to_lower (to_upper c) = to_lower c.
Proof.
  intros H%name_char_cases. unfold to_upper, to_lower.
  destruct (Z.leb_spec 97 c), (Z.leb_spec c 122); cbn [andb];
    destruct (Z.leb_spec 65 (c - 32)), (Z.leb_spec (c - 32) 90), (Z.leb_spec 65 c), (Z.leb_spec c 90); cbn [andb]; lia.
Qed.
Lemma rfind_none c bs : Forall (λ x, x ≠ c) bs → rfind c bs = None.
Proof. induction 1 as [|x bs Hx _ IH]; [done|]. cbn. by rewrite IH, (proj2 (Z.eqb_neq x c)). Qed.
Lemma rfind_last c n e : Forall (λ x, x ≠ c) e → rfind c (n ++ c :: e) = Some (length n).
Proof.
  intros He. induction n as [|x n IH]; cbn; [by rewrite rfind_none, Z.eqb_refl|by rewrite IH].
Qed.
Lemma no_dots bs : name_chars bs → Forall (λ x, x ≠ 46) bs.
Proof. intros H. apply (Forall_impl _ _ _ H). intros x Hx%name_char_cases. lia. Qed.
Lemma split_dotted n e : short_parts n e → split_name (dotted n e) = (n, e).
Proof.
  intros [H1 H2 H3 H4]. unfold split_name, dotted. destruct e as [|x e].
  - rewrite app_nil_r, rfind_none; [done|by apply no_dots].
  - rewrite rfind_last by by apply no_dots.
    rewrite take_app_length, drop_app_ge by lia. replace (S (length n) - length n)%nat with 1%nat by lia. done.
Qed.
Lemma valid_dotted n e : short_parts n e → is_valid_83 n e = true.
Proof.
  intros [H1 H2 H3 H4]. unfold is_valid_83. rewrite !andb_true_iff. split_and!.
  - apply Z.ltb_lt. lia.
  - apply Z.leb_le. lia.
  - apply Z.leb_le. lia.
  - apply forallb_forall. intros x Hx%list_elem_of_In. rewrite Forall_forall in H3. by apply H3.
  - apply forallb_forall. intros x Hx%list_elem_of_In. rewrite Forall_forall in H4. by apply H4.
Qed.
Lemma ascii_utf16 bs : Forall (λ c, c < 128) bs → encode_utf16 bs = bs.
Proof. induction 1 as [|c bs Hc _ IH]; [done|]. cbn. by rewrite (proj2 (Z.ltb_lt c 128)), IH. Qed.
Lemma dotted_ascii n e : short_parts n e → Forall (λ c, c < 128) (dotted n e).
Proof.
  intros [_ _ H3 H4]. assert (∀ bs, name_chars bs → Forall (λ c, c < 128) bs) as H.
  { intros bs H. apply (Forall_impl _ _ _ H). intros x Hx%name_char_cases. lia. }
  unfold dotted. apply Forall_app. split; [by apply H|]. destruct e; [constructor|]. constructor; [lia|by apply H].
Qed.
Definition short_of n e : list Z := pad_spaces 8 (to_upper <$> n) ++ pad_spaces 3 (to_upper <$> e).
Lemma make_short_dotted fuel fs n e dir_cluster :
  short_parts n e → make_short_name fuel fs (dotted n e) dir_cluster = mret (short_of n e).
Proof. intros H. unfold make_short_name. by rewrite split_dotted, valid_dotted. Qed.
Lemma length_pad_spaces k bs : (length bs <= k)%nat → length (pad_spaces k bs) = k.
Proof. intros H. unfold pad_spaces. rewrite length_app, length_replicate. lia. Qed.
Lemma upper_chars bs : name_chars bs → Forall (λ c, 48 ≤ c ≤ 95) (to_upper <$> bs).
Proof. intros H. apply Forall_fmap, (Forall_impl _ _ _ H). intros c Hc. by apply to_upper_cases. Qed.
Lemma pad_bytes k bs : Forall (λ c, 48 ≤ c ≤ 95) bs → Forall is_byte (pad_spaces k bs).
Proof.
  intros H. apply Forall_app. split; [|by apply Forall_replicate]. apply (Forall_impl _ _ _ H).
  unfold is_byte. intros x Hx. lia.
Qed.
Lemma until_space_pad k bs : Forall (λ c, 48 ≤ c ≤ 95) bs → until_space (pad_spaces k bs) = bs.
Proof.
  intros H. unfold pad_spaces. generalize (k - length bs)%nat as m. intros m.
  induction H as [|c bs Hc _ IH]; cbn [app until_space]; [by destruct m|].
  rewrite (proj2 (Z.eqb_neq c SPACE)) by (unfold SPACE; lia). by rewrite IH.
Qed.
(** The name shown for the short entry, and that it is the name it was made from. *)
Lemma short_display_of n e : short_parts n e →
  short_display (take 8 (short_of n e)) (drop 8 (short_of n e)) =
    dotted (to_upper <$> n) (to_upper <$> e).
Proof.
  intros [H1 H2 H3 H4]. unfold short_of.
  assert (length (pad_spaces 8 (to_upper <$> n)) = 8%nat) as Hl by (apply length_pad_spaces; rewrite length_fmap; lia).
  rewrite take_app_le, take_ge, drop_app_ge, Hl by lia. change (8 - 8)%nat with 0%nat. rewrite drop_0.
  unfold short_display. rewrite !until_space_pad by by apply upper_chars. unfold dotted. f_equal.
  destruct e as [|x e]; [done|]. cbn [pad_spaces fmap list_fmap app].
  apply Forall_cons in H4 as [[Hx _]%to_upper_cases _]. revert Hx. generalize (to_upper x) as u. intros u Hu.
  change (byte_at _ 0) with u. by rewrite (proj2 (Z.eqb_neq u SPACE)) by (unfold SPACE; lia).
Qed.
Lemma lower_upper bs : name_chars bs → to_lower <$> (to_upper <$> bs) = to_lower <$> bs.
Proof.
  intros H. rewrite <- list_fmap_compose. apply list_fmap_ext. intros i x Hx%list_elem_of_lookup_2. unfold compose.
  rewrite Forall_forall in H. by apply to_upper_cases, H.
Qed.
Lemma same_name_dotted n e : short_parts n e →
  same_name (dotted (to_upper <$> n) (to_upper <$> e)) (dotted n e) = true.
Proof.
  intros [_ _ H3 H4]. unfold same_name, dotted. apply bool_decide_eq_true. rewrite !fmap_app, lower_upper by done. f_equal.
  destruct e as [|x e]; [done|]. apply (f_equal (cons (to_lower 46))), (lower_upper (x :: e)), H4.
Qed.
End names.
