(* ===== verification/DirContracts.v ===== *)
(** What the directory operations of the file server promise: lookup, creation of short
    entries, and what becomes of an update of the size. *)

From S2P Require Import Prelude Bytes Initrd FatDisk FatFacts FatFile FileFacts WriteFacts FatDir FatEdit DirFacts EditFacts DirCreate FsServer Volume.

(** Proofs never compute with a concrete disk. *)
#[local] Opaque boot_disk demo_disk.

(** [C36] [find_entry] against the reference: in a directory whose chain ends, it returns
    the first of the entries read off the directory's slots (deleted slots skipped, long
    names collected, up to the end mark) whose name is the one searched for, up to case;
    it changes nothing and does not panic, whatever bytes the directory holds. *)
Theorem find_entry_correct fs fuel c l name d :
  volume_ok fs → spc fs = 1 → bytes_ok d → chain fs d (c :: l) → (length l < fuel)%nat →
  wp (find_entry fuel fs c name) (λ r d', r = first_named name (entries_of fs d (c :: l)) ∧ d' = d) d.
Proof. intros Hfs Hspc Hb Hch Hf. by apply (find_entry_wp fs fuel c l). Qed.
Lemma find_entry_correct_witness :
  find_entry 1 boot_fs 2 [104; 105] boot_disk = Done (None, boot_disk).
Proof.
  pose proof (find_entry_correct boot_fs 1 2 [] [104; 105] boot_disk boot_volume_ok boot_spc boot_bytes_ok
    (proj1 boot_root) ltac:(cbn; lia)) as H.
  destruct (proj1 (wp_Done _ _ _) H) as (r & d' & E & -> & ->). revert E.
  unfold entries_of. rewrite boot_entries. intros E. exact E.
Defined.

Section lookup.
Implicit Types (es : list (DirEntry * list Z)).
Lemma first_named_app name es en shown post :
  named_in name es = false → same_name shown name = true →
  first_named name (es ++ (en, shown) :: post) = Some (en, shown).
Proof.
  induction es as [|[x nx] es IH]; intros H Hs; cbn; [by rewrite Hs|].
  cbn in H. apply orb_false_iff in H as [-> H]. by apply IH.
Qed.
(** The slot of a new entry, read by the walk. *)
Lemma scan_new n e buf slot attr cluster size :
  short_parts n e → entry_is slot (short_of n e) attr cluster size → attr ≠ 0x0F →
  ref_scan slot (buf, 0) = Some (Some (dotted (to_upper <$> n) (to_upper <$> e)), (buf, 0)).
Proof.
  intros Hp [H1 H2 H3 H4 _ _] Ha. unfold ref_scan. rewrite H3, H4, (proj2 (Z.eqb_neq attr 15)) by done.
  cbn in H1, H2. rewrite H1, H2, short_display_of by done.
  destruct Hp as [Hn _ Hc _]. destruct n as [|x n]; [cbn in Hn; lia|].
  apply Forall_cons in Hc as [[Hx _]%to_upper_cases _].
  assert (byte_at (short_of (x :: n) e) 0 = to_upper x) as -> by done.
  by rewrite !(proj2 (Z.eqb_neq _ _)) by lia.
Qed.
End lookup.

(** [C37] What is created is found: a name that fits a short entry, created in a directory
    with a free slot, is written into the first free slot; [find_entry] then returns an
    entry with the cluster, the size and the attribute given, and the entries in front of
    it are the ones that were there -- provided no entry in front has the name, and no
    long-name slots are left over directly in front of the free slot. *)
Theorem create_then_find fs fuel c l n e attr cluster size d es buf :
  volume_ok fs → spc fs = 1 → bytes_ok d → chain fs d (c :: l) → (length l < fuel)%nat →
  short_parts n e → is_byte attr → attr ≠ 0x0F → is_u32 cluster → is_u32 size →
  let slots := dir_slots fs d (c :: l) in
  Exists (λ x, unused x = true) slots →
  dir_entries (used_prefix slots) lfn_empty = (es, Some (buf, 0)) →
  named_in (dotted n e) es = false →
  wp (created ← create_dir_entry fuel fs c (dotted n e) attr cluster size;
      found ← find_entry fuel fs c (dotted n e);
      mret (created, found))
     (λ r d', is_Some r.1 ∧ ∃ entry shown post,
        r.2 = Some (entry, shown) ∧ same_name shown (dotted n e) = true ∧
        de_attr entry = attr ∧ entry_cluster entry = cluster ∧ de_file_size entry = size ∧
        chain fs d' (c :: l) ∧ entries_of fs d' (c :: l) = es ++ (entry, shown) :: post) d.
Proof.
  intros Hfs Hspc Hb Hch Hf Hp Hattr Ha Hcl Hsz slots Hex Hes Hno.
  apply wp_bind. unfold create_dir_entry. rewrite make_short_dotted by done. apply wp_bind, wp_ret.
  pose proof Hp as [Hp1 Hp2 Hp3 Hp4].
  apply (create_loop_wp fs Hfs Hspc _ fuel) with (l := l); [|done|done|done|done|].
  { split; cbn [ne_short ne_chars ne_attr ne_cluster ne_size]; [| | |done|done|done].
    - unfold short_of. rewrite length_app, !length_pad_spaces; rewrite ?length_fmap; lia.
    - apply Forall_app. split; by apply pad_bytes, upper_chars.
    - rewrite ascii_utf16 by by apply dotted_ascii. rewrite length_take. unfold dotted. rewrite length_app.
      destruct e; cbn [length] in *; lia. }
  intros addr x d' Hpl He Hb' Hdc. cbn [ne_short ne_attr ne_cluster ne_size] in He.
  assert (chain fs d' (c :: l)) as Hch'.
  { apply (chain_ext fs d); [|done]. intros y Hy. apply (data_changes_fat fs Hfs (c :: l)).
    - intros z Hz. by apply (chain_valid fs d (c :: l)).
    - done.
    - destruct (chain_valid fs d (c :: l) y Hch Hy). lia. }
  apply wp_bind, (find_entry_wp fs fuel c l); [done|done|done|done|done|]. apply wp_ret. cbn [fst snd].
  split; [done|]. apply placed_prefix in Hpl as [post Hpost]. fold slots in Hpost.
  pose proof (scan_new n e buf x attr cluster size Hp He Ha) as Hscan.
  assert (entries_of fs d' (c :: l) = es ++ (read_dir_entry x, dotted (to_upper <$> n) (to_upper <$> e)) ::
            (dir_entries post (buf, 0)).1) as E.
  { unfold entries_of. rewrite Hpost, dir_entries_app, Hes. cbn [fst snd dir_entries]. by rewrite Hscan. }
  eexists _, _, _. rewrite E. split; [apply first_named_app; [done|by apply same_name_dotted]|].
  destruct He as [H1 H2 H3 H4 H5 H6]. split_and!; [by apply same_name_dotted|exact H4|exact H5|exact H6|exact Hch'|done].
Qed.
(** "hi.txt" in the root directory. *)
Lemma create_then_find_witness :
  wp (created ← create_dir_entry 1 boot_fs 2 [104; 105; 46; 116; 120; 116] ATTR_ARCHIVE 5 77;
      found ← find_entry 1 boot_fs 2 [104; 105; 46; 116; 120; 116];
      mret (created, found))
     (λ r _, ∃ entry shown, r.2 = Some (entry, shown) ∧ entry_cluster entry = 5 ∧ de_file_size entry = 77) boot_disk.
Proof.
  eapply wp_mono.
  - apply (create_then_find boot_fs 1 2 [] [104; 105] [116; 120; 116] ATTR_ARCHIVE 5 77 boot_disk [] (replicate 256 0)
      boot_volume_ok boot_spc boot_bytes_ok (proj1 boot_root)); try done; try (split; done || (cbn; lia)).
    + cbn. lia.
    + split; [cbn; lia|cbn; lia|by repeat constructor|by repeat constructor].
    + apply (bool_decide_eq_true_1 _). by vm_compute.
  - intros r d' (_ & en & sh & post & H1 & _ & _ & H2 & H3 & _). by exists en, sh.
Defined.

(** Where the end mark is met in the directory's first sector,
    [update_dir_entry_size] writes nothing: it patches its copy of the sector and returns
    at the end mark, before the write -- and answers that it succeeded if the name is
    there.  The size and the cluster of a file in a small directory are never updated. *)
Lemma update_size_lost fs fuel c name new_size new_cluster d :
  volume_ok fs → spc fs = 1 → bytes_ok d → valid_cluster fs c → (0 < fuel)%nat →
  let r := dir_entries (sector_slots (cluster_bytes fs d c)) lfn_empty in
  r.2 = None →
  wp (update_dir_entry_size fuel fs c name new_size new_cluster)
     (λ ok d', ok = named_in name r.1 ∧ d' = d) d.
Proof.
  intros Hfs Hspc Hb Hc Hf r Hend. destruct fuel as [|fuel]; [lia|]. unfold update_dir_entry_size.
  cbn [update_loop]. rewrite Hspc. change (seqZ 0 1) with [0]. cbn [update_sectors].
  apply wp_bind, wp_bind, (cluster_read fs Hfs Hspc); [done|]. cbn beta iota.
  apply wp_bind, update_slots_wp;
    [by apply cluster_sector_ok|apply lfn_empty_ok|apply NoDup_seqZ|by intros i Hi%elem_of_seqZ| |].
  - intros _. apply wp_ret, wp_ret. by split.
  - intros buf' l' E. change (r.2 = Some l') in E. congruence.
Qed.
(** On a root directory that holds "hi.txt". *)
Definition dir_disk : disk :=
  run_disk (create_dir_entry 1 boot_fs 2 [104; 105; 46; 116; 120; 116] ATTR_ARCHIVE 0 0 boot_disk).
#[local] Opaque dir_disk.
