(* ===== verification/FsSafety.v ===== *)
(** The file server never panics: no index, slice or [unwrap] of it fails, whatever the
    clients send and whatever the disk holds.  A computation is [safe] if it does not
    panic, keeps the disk a disk of bytes and returns a value that satisfies a predicate;
    whether its loops over damaged chains end is not asked here. *)

From S2P Require Import Prelude Bytes Initrd FatDisk FatFacts FatFile FileFacts WriteFacts FatDir FatEdit DirFacts EditFacts DirCreate FsServer.

Definition safe {A} (m : FS A) (P : A → Prop) : Prop :=
  ∀ d, bytes_ok d → wlp m (λ a d', P a ∧ bytes_ok d') d.

Section rules.
Context {A B : Type}.
Implicit Types (m : FS A) (P : A → Prop).

Lemma safe_ret (a : A) P : P a → safe (mret a) P.
Proof. intros H d Hd. by split. Qed.
Lemma safe_bind m (k : A → FS B) P (Q : B → Prop) :
  safe m P → (∀ a, P a → safe (k a) Q) → safe (m ≫= k) Q.
Proof.
  intros Hm Hk d Hd. specialize (Hm d Hd). unfold wlp, mbind, st_bind in *.
  destruct (m d) as [[a d']| |]; [|done..]. destruct Hm as [Ha Hd']. by apply (Hk a Ha).
Qed.
Lemma safe_mono m P P' : safe m P → (∀ a, P a → P' a) → safe m P'.
Proof.
  intros Hm H d Hd. specialize (Hm d Hd). unfold wlp in *. destruct (m d) as [[a d']| |]; [|done..].
  destruct Hm. split; [by apply H|done].
Qed.
Lemma safe_diverge P : safe diverge P.
Proof. by intros d Hd. Qed.
Lemma safe_wp m P : (∀ d, bytes_ok d → wp m (λ a d', P a ∧ bytes_ok d') d) → safe m P.
Proof.
  intros H d Hd. specialize (H d Hd). unfold wp, wlp in *. by destruct (m d) as [[a d']| |].
Qed.
Lemma safe_unwrap (o : option A) P a : o = Some a → P a → safe (unwrap o) P.
Proof. intros -> H. by apply safe_ret. Qed.
Lemma safe_if (b : bool) m1 m2 P : safe m1 P → safe m2 P → safe (if b then m1 else m2) P.
Proof. by destruct b. Qed.
End rules.
Lemma safe_otry {A B} (m : FS (option A)) (k : A → FS (option B)) P Q :
  safe m P → (∀ a, P (Some a) → safe (k a) Q) → Q None → safe (otry_bind k m) Q.
Proof.
  intros Hm Hk HN. apply (safe_bind m _ P); [done|]. intros [a|] Ha; [by apply Hk|by apply safe_ret].
Qed.

(** The predicate of a step whose value does not matter, and of a cluster number. *)
Abbreviation anything := (λ _, True).
Definition some_u32 (o : option Z) : Prop := ∀ c, o = Some c → is_u32 c.

Section volume.
Context (fs : Fat32Fs).
Hypothesis Hfs : volume_ok fs.
Hypothesis Hspc : spc fs = 1.
Hypothesis Hdata : 2 ≤ data_start fs.
Implicit Types (c : Z) (buf : list Z).

(** ** Sectors and the table *)

(** The sector of any cluster number, also of the clusters 0 and 1. *)
Lemma any_sector c : is_u32 c →
  0 ≤ cluster_to_sector fs c < 2 ^ 40 ∧ cluster_to_sector fs c +' 0 = cluster_to_sector fs c.
Proof.
  intros Hc. unfold is_u32 in Hc. destruct Hfs as [Hs Hp Ht Hf Hd]. assert (RAMDISK_SECTORS = 8192) as E by done.
  rewrite E in Hd. unfold cluster_to_sector, u64. rewrite Hspc in *. rewrite !Z.mul_1_r in *.
  assert (data_start fs ≤ 8192) as Hb by lia. clear -Hc Hb Hdata.
  rewrite Z.add_0_r, (Zmod_mod (c - 2)), Zplus_mod_idemp_r, Zmod_mod.
  rewrite Z.mod_small by lia. split; [lia|done].
Qed.
Lemma safe_read sector : 0 ≤ sector < 2 ^ 40 →
  safe (disk_read sector BLOCK_SIZE) (λ o, ∀ b, o = Some b → sector_ok b).
Proof.
  intros Hs. apply safe_wp. intros d Hd. apply disk_read_wp; [done|]. split; [|done].
  intros b. case_decide; [|done]. intros [= <-]. split; [apply length_disk_bytes|].
  apply Forall_fmap, Forall_true. intros a. apply Hd.
Qed.
Lemma safe_write sector buf : 0 ≤ sector < 2 ^ 40 → sector_ok buf → safe (disk_write sector buf) anything.
Proof.
  intros Hs [Hl Hb]. apply safe_wp. intros d Hd. apply disk_write_wp; [done|done|]. case_decide; [|by split].
  split; [done|]. intros a. rewrite dbyte_put. case_decide; [by apply byte_at_bound|apply Hd].
Qed.
Lemma safe_read_cluster c : is_u32 c →
  safe (disk_read (cluster_to_sector fs c +' 0) BLOCK_SIZE) (λ o, ∀ b, o = Some b → sector_ok b).
Proof. intros Hc. destruct (any_sector c Hc) as [H ->]. by apply safe_read. Qed.
Lemma safe_write_cluster c buf : is_u32 c → sector_ok buf →
  safe (disk_write (cluster_to_sector fs c +' 0) buf) anything.
Proof. intros Hc Hb. destruct (any_sector c Hc) as [H ->]. by apply safe_write. Qed.
Lemma zero_block_ok : sector_ok zero_block.
Proof. split; [apply length_zero_block|]. by apply Forall_replicate. Qed.

Lemma safe_fat_next c : is_u32 c → safe (fat_next fs c) some_u32.
Proof.
  intros Hc. apply safe_wp. intros d Hd. apply fat_next_wp; [apply Hfs|done| |].
  - intros _. split; [|done]. intros v [= <-]. unfold fat_value, is_u32.
    pose proof (dle_bound 4 d (fat_addr fs c) Hd) as Hb. change (256 ^ Z.of_nat 4) with (2 ^ 32) in Hb.
    apply (land_bound 32); [lia|exact Hb].
  - intros _. by split.
Qed.
Lemma safe_fat_set c v : is_u32 c → safe (fat_set fs c v) anything.
Proof.
  intros Hc. apply safe_wp. intros d Hd. apply fat_set_wp; [apply Hfs|done| |by split].
  intros _ d' Hd'. split; [done|]. intros a. rewrite Hd'. case_decide; [|apply Hd].
  split; apply Z.mod_pos_bound; lia.
Qed.
Lemma total_u32 : total_clusters fs < 2 ^ 31.
Proof.
  destruct Hfs as [Hs Hp Ht Hf Hd]. assert (RAMDISK_SECTORS = 8192) as E by done. rewrite E in Hd.
  unfold BLOCK_SIZE in Hf. nia.
Qed.
Lemma safe_alloc : safe (alloc_cluster fs) some_u32.
Proof.
  apply safe_wp. intros d Hd. pose proof total_u32. apply (alloc_cluster_wp fs Hfs).
  - intros c d' Hc _ _ Ht. split; [intros x [= <-]; unfold is_u32; lia|]. intros a. rewrite Ht.
    repeat case_decide; [done|split; apply Z.mod_pos_bound; lia|apply Hd].
  - intros _. by split.
Qed.
Lemma chain_next_u32 o : some_u32 o → some_u32 (chain_next o).
Proof. intros H c Hc. destruct o as [v|]; [|done]. apply H. cbn in Hc. destruct (_ && _); congruence. Qed.
Lemma safe_zero_cluster c : is_u32 c → safe (zero_cluster fs c) anything.
Proof.
  intros Hc. unfold zero_cluster. rewrite Hspc. change (seqZ 0 1) with [0]. cbn [foreach].
  apply (safe_bind _ _ anything);
    [eapply safe_bind; [by apply safe_write_cluster, zero_block_ok|by intros; apply safe_ret]|].
  intros _ _. by apply safe_ret.
Qed.
Lemma safe_free_chain_loop fuel : ∀ c count, is_u32 c → safe (free_chain_loop fuel fs c count) anything.
Proof.
  induction fuel as [|fuel IH]; intros c count Hc; [apply safe_diverge|]. cbn [free_chain_loop].
  eapply safe_bind; [by apply safe_fat_next|]. intros [v|] Hv; [|by apply safe_ret].
  eapply safe_bind; [by apply safe_fat_set|]. intros _ _. pose proof (chain_next_u32 _ Hv) as Hn.
  destruct (chain_next (Some v)) as [next|]; [by apply IH, Hn|by apply safe_ret].
Qed.
Lemma safe_free_chain c : is_u32 c → safe (free_chain fs c) anything.
Proof. intros Hc. unfold free_chain. apply safe_if; [by apply safe_ret|by apply safe_free_chain_loop]. Qed.

(** ** File contents *)

Lemma copy_inside buf off bs (P : list Z → Prop) :
  0 ≤ off → off + Z.of_nat (length bs) ≤ Z.of_nat (length buf) →
  (∀ buf', length buf' = length buf → copy_into buf off bs = Some buf' → P buf') →
  safe (unwrap (copy_into buf off bs)) P.
Proof.
  intros H0 H1 HP. pose proof (copy_into_Some buf off bs H0 H1) as E. rewrite E in *.
  apply safe_ret, HP; [|done]. rewrite !length_app, length_take, length_drop. lia.
Qed.
Lemma start_bound b skip : 0 ≤ skip → 0 ≤ (if b : bool then Z.min skip BLOCK_SIZE else 0) ≤ BLOCK_SIZE.
Proof. unfold BLOCK_SIZE. destruct b; lia. Qed.
Lemma chunk_len start avail rest (bs : list Z) :
  0 ≤ start ≤ BLOCK_SIZE → 0 ≤ rest < 2 ^ 64 → avail = BLOCK_SIZE -' start →
  0 ≤ Z.min avail rest ∧ Z.min avail rest ≤ rest ∧ start + Z.min avail rest ≤ BLOCK_SIZE ∧
  Z.of_nat (length (take (Z.to_nat (Z.min avail rest)) bs)) ≤ Z.min avail rest.
Proof.
  unfold BLOCK_SIZE. intros Hs Hr ->. unfold u64. rewrite (Z.mod_small (512 - start)) by lia.
  rewrite length_take. lia.
Qed.

(** The reading loop: the count stays below [to_read], the buffer keeps its length. *)
Definition read_state (to_read : Z) (buf : list Z) (st : Z * list Z) : Prop :=
  0 ≤ st.1 ≤ to_read ∧ length st.2 = length buf.
Definition read_bound (to_read : Z) (buf : list Z) : Prop :=
  to_read ≤ Z.of_nat (length buf) ∧ Z.of_nat (length buf) < 2 ^ 32.
Lemma safe_read_sectors c cur_offset offset skip to_read br buf :
  is_u32 c → 0 ≤ skip → read_bound to_read buf → 0 ≤ br ≤ to_read →
  safe (read_sectors [0] (cluster_to_sector fs c) cur_offset offset skip to_read br buf)
    (λ r, match r with inl st => read_state to_read buf st | inr st => read_state to_read buf st end).
Proof.
  intros Hc Hskip [Hto Hlen] Hbr. cbn [read_sectors].
  eapply safe_bind; [by apply safe_read_cluster|]. intros [sec|] Hsec; [|by apply safe_ret].
  destruct (Hsec sec eq_refl) as [Hl _].
  set (start := if at_or_before cur_offset 0 offset && (br =? 0) then _ else _).
  assert (0 ≤ start ≤ BLOCK_SIZE) as Hst by (by apply start_bound). clearbody start.
  assert (to_read -' br = to_read - br) as Er by (unfold u64; apply Z.mod_small; lia). rewrite Er.
  set (n := Z.min (BLOCK_SIZE -' start) (to_read - br)).
  destruct (chunk_len start (BLOCK_SIZE -' start) (to_read - br) (drop (Z.to_nat start) sec) Hst ltac:(lia) eq_refl)
    as (H1 & H2 & H3 & H4). fold n in H1, H2, H3, H4. clearbody n.
  destruct (n =? 0); [by apply safe_ret|].
  eapply safe_bind; [apply (copy_inside _ _ _ (λ b, length b = length buf)); [lia|lia|done]|].
  intros buf' Hb'. assert (br +' n = br + n) as -> by (unfold u64; apply Z.mod_small; lia).
  assert (read_state to_read buf (br + n, buf')) by (split; cbn; [lia|done]).
  by apply safe_if; apply safe_ret.
Qed.
Lemma safe_read_skip fuel offset : ∀ c cur, is_u32 c →
  safe (read_skip fuel fs offset c cur) (λ o, ∀ c cur, o = Some (c, cur) → is_u32 c).
Proof.
  induction fuel as [|fuel IH]; intros c cur Hc; [apply safe_diverge|]. cbn [read_skip].
  apply safe_if; [|apply safe_ret; by intros ?? [= <- <-]].
  eapply safe_bind; [by apply safe_fat_next|]. intros o Ho. pose proof (chain_next_u32 _ Ho) as Hn.
  destruct (chain_next o) as [next|]; [by apply IH, Hn|by apply safe_ret].
Qed.
Lemma safe_read_loop fuel offset skip to_read : ∀ c cur br buf,
  is_u32 c → 0 ≤ skip → read_bound to_read buf → 0 ≤ br ≤ to_read →
  safe (read_loop fuel fs offset skip to_read c cur br buf) (read_state to_read buf).
Proof.
  induction fuel as [|fuel IH]; intros c cur br buf Hc Hskip Hb Hbr; [apply safe_diverge|]. cbn [read_loop].
  apply safe_if; [|by apply safe_ret]. rewrite Hspc. change (seqZ 0 1) with [0].
  eapply safe_bind; [by apply safe_read_sectors|]. intros [st|[br' buf']] Hr; [by apply safe_ret|].
  eapply safe_bind; [by apply safe_fat_next|]. intros o Ho. pose proof (chain_next_u32 _ Ho) as Hn.
  destruct (chain_next o) as [next|]; [|by apply safe_ret]. destruct Hr as [Hr1 Hr2]. cbn [fst snd] in *.
  eapply safe_mono; [apply IH; [by apply Hn|done| |done]|].
  - unfold read_bound in *. by rewrite Hr2.
  - intros st [H1 H2]. split; [done|]. by rewrite H2.
Qed.
Lemma safe_read_file fuel c offset size buf :
  is_u32 c → Z.of_nat (length buf) < 2 ^ 32 →
  safe (read_file fuel fs c offset size buf) (λ st, 0 ≤ st.1 ≤ Z.of_nat (length buf) ∧ length st.2 = length buf).
Proof.
  intros Hc Hl. unfold read_file. apply safe_if; [apply safe_ret; cbn; lia|].
  set (to_read := Z.min _ _).
  assert (0 ≤ to_read ≤ Z.of_nat (length buf)) as Hto.
  { unfold to_read. pose proof (Z.mod_pos_bound (size - offset) (2 ^ 32) ltac:(lia)). unfold u32. lia. }
  eapply safe_bind; [by apply safe_read_skip|]. intros [[c' cur]|] Hr; [|apply safe_ret; cbn; lia].
  eapply safe_mono; [apply safe_read_loop; [by eapply Hr|apply Z.mod_pos_bound; lia|split; lia|lia]|].
  intros st [H1 H2]. split; [lia|done].
Qed.

Lemma safe_next_or_alloc c : is_u32 c → safe (next_or_alloc fs c) some_u32.
Proof.
  intros Hc. unfold next_or_alloc. eapply safe_bind; [by apply safe_fat_next|]. intros o Ho.
  pose proof (chain_next_u32 _ Ho) as Hn. destruct (chain_next o) as [next|]; [by apply safe_ret|].
  eapply safe_otry; [apply safe_alloc| |done]. intros new Hnew.
  eapply safe_bind; [by apply safe_fat_set|]. intros _ _. by apply safe_ret.
Qed.
Lemma safe_write_skip fuel offset : ∀ c cur, is_u32 c →
  safe (write_skip fuel fs offset c cur) (λ o, ∀ c cur, o = Some (c, cur) → is_u32 c).
Proof.
  induction fuel as [|fuel IH]; intros c cur Hc; [apply safe_diverge|]. cbn [write_skip].
  apply safe_if; [|apply safe_ret; by intros ?? [= <- <-]].
  eapply safe_bind; [by apply safe_next_or_alloc|]. intros [next|] Ho; [by apply IH, Ho|by apply safe_ret].
Qed.
Definition write_state (buf : list Z) (bw : Z) : Prop := 0 ≤ bw ≤ Z.of_nat (length buf).
Lemma safe_write_sectors c cur_offset offset skip buf bw :
  is_u32 c → 0 ≤ skip → Forall is_byte buf → Z.of_nat (length buf) < 2 ^ 32 → write_state buf bw →
  safe (write_sectors [0] (cluster_to_sector fs c) cur_offset offset skip buf bw)
    (λ r, match r with inl bw => write_state buf bw | inr bw => write_state buf bw end).
Proof.
  intros Hc Hskip Hb Hl Hbw. unfold write_state in *. cbn [write_sectors].
  set (first := at_or_before _ _ _ && _).
  set (start := if first then _ else 0).
  assert (0 ≤ start ≤ BLOCK_SIZE) as Hst by (by apply start_bound). clearbody first start.
  apply (safe_bind _ _ sector_ok).
  { apply safe_if; [|apply safe_ret, zero_block_ok].
    eapply safe_bind; [by apply safe_read_cluster|]. intros [b|] Ho; apply safe_ret; [by apply Ho|apply zero_block_ok]. }
  intros sec Hsec.
  assert (Z.of_nat (length buf) -' bw = Z.of_nat (length buf) - bw) as Er by (unfold u64; apply Z.mod_small; lia). rewrite Er.
  set (n := Z.min (BLOCK_SIZE -' start) (Z.of_nat (length buf) - bw)).
  destruct (chunk_len start (BLOCK_SIZE -' start) (Z.of_nat (length buf) - bw) (drop (Z.to_nat bw) buf) Hst ltac:(lia) eq_refl)
    as (H1 & H2 & H3 & H4). fold n in H1, H2, H3, H4. clearbody n.
  destruct (n =? 0); [by apply safe_ret|]. unfold BLOCK_SIZE in *.
  destruct (copy_into_inside sec start (take (Z.to_nat n) (drop (Z.to_nat bw) buf))) as (sec' & E & Hs' & _);
    [done|by apply Forall_take, Forall_drop|lia|lia|].
  eapply safe_bind; [by apply (safe_unwrap _ sector_ok sec')|]. clear dependent sec'. intros sec' Hs'.
  eapply safe_bind; [by apply safe_write_cluster|]. intros ok _.
  assert (bw +' n = bw + n) as -> by (unfold u64; apply Z.mod_small; lia).
  repeat apply safe_if; apply safe_ret; lia.
Qed.
Lemma safe_write_loop fuel offset skip buf : ∀ c cur bw,
  is_u32 c → 0 ≤ skip → Forall is_byte buf → Z.of_nat (length buf) < 2 ^ 32 → write_state buf bw →
  safe (write_loop fuel fs offset skip buf c cur bw) anything.
Proof.
  induction fuel as [|fuel IH]; intros c cur bw Hc Hskip Hb Hl Hbw; [apply safe_diverge|]. cbn [write_loop].
  apply safe_if; [|by apply safe_ret]. rewrite Hspc. change (seqZ 0 1) with [0].
  eapply safe_bind; [by apply safe_write_sectors|]. intros [bw'|bw'] Hr; [by apply safe_ret|].
  eapply safe_bind; [by apply safe_next_or_alloc|]. intros [next|] Ho; [|by apply safe_ret].
  apply IH; [by apply Ho|done|done|done|done].
Qed.
Lemma safe_write_file fuel c offset buf :
  is_u32 c → Forall is_byte buf → Z.of_nat (length buf) < 2 ^ 32 → safe (write_file fuel fs c offset buf) anything.
Proof.
  intros Hc Hb Hl. unfold write_file. apply safe_if; [by apply safe_ret|].
  eapply safe_bind; [by apply safe_write_skip|]. intros [[c' cur]|] Hr; [|by apply safe_ret].
  apply safe_write_loop; [by eapply Hr|apply Z.mod_pos_bound; lia|done|done|split; lia].
Qed.
End volume.
