(* ===== verification/ServeSafety.v ===== *)
(** The file server never panics, continued: directories, names and the request loop. *)

From S2P Require Import Prelude Bytes Initrd FatDisk FatFacts FatFile FileFacts WriteFacts FatDir FatEdit DirFacts EditFacts DirCreate FsServer FsSafety.

(** ** Names *)

Section names.
Implicit Types (bs : list Z).

Lemma to_upper_byte c : is_byte c → is_byte (to_upper c).
Proof.
  unfold is_byte, to_upper. destruct (Z.leb_spec 97 c), (Z.leb_spec c 122); cbn [andb]; lia.
Qed.
Lemma upper_bytes bs : Forall is_byte bs → Forall is_byte (to_upper <$> bs).
Proof. intros H. apply Forall_fmap, (Forall_impl _ _ _ H). intros c. apply to_upper_byte. Qed.
Lemma pad_spaces_bytes k bs : Forall is_byte bs → Forall is_byte (pad_spaces k bs).
Proof. intros H. apply Forall_app. split; [done|]. by apply Forall_replicate. Qed.
Lemma filter_bytes f bs : Forall is_byte bs → Forall is_byte (List.filter f bs).
Proof. induction 1 as [|b bs Hb _ IH]; [constructor|]. cbn. destruct (f b); [by constructor|done]. Qed.
Definition bytes_of_len (n : nat) bs : Prop := length bs = n ∧ Forall is_byte bs.
Lemma pad_ok n bs : (length bs <= n)%nat → Forall is_byte bs → bytes_of_len n (pad_spaces n bs).
Proof. intros Hl Hb. split; [by apply length_pad_spaces|by apply pad_spaces_bytes]. Qed.
Lemma app_ok n m bs bs' : bytes_of_len n bs → bytes_of_len m bs' → bytes_of_len (n + m) (bs ++ bs').
Proof. intros [H1 H2] [H3 H4]. split; [rewrite length_app; lia|by apply Forall_app]. Qed.
Lemma take_ok n m bs : bytes_of_len m bs → (n <= m)%nat → bytes_of_len n (take n bs).
Proof. intros [H1 H2] Hn. split; [rewrite length_take; lia|by apply Forall_take]. Qed.
Lemma tilde_base_ok bs : Forall is_byte bs → bytes_of_len 8 (tilde_base bs).
Proof.
  intros Hb. apply (app_ok 6 2); [|split; [done|by repeat (constructor; [done|])]].
  apply pad_ok; [rewrite length_take; lia|]. by apply Forall_take, upper_bytes, filter_bytes.
Qed.
Lemma split_name_bytes bs : Forall is_byte bs → Forall is_byte (split_name bs).1 ∧ Forall is_byte (split_name bs).2.
Proof.
  intros Hb. unfold split_name. destruct (rfind 46 bs); cbn; [|by split].
  split; [by apply Forall_take|by apply Forall_drop].
Qed.

(** A component of a path occurs in it. *)
Lemma find_sub_prefix pat a b : ∃ i, find_sub pat (a ++ pat ++ b) = Some i.
Proof.
  induction a as [|x a [i IH]].
  - exists 0%nat. destruct (pat ++ b) eqn:E; cbn [app find_sub]; rewrite ?E; case_bool_decide as Ht; try done;
      exfalso; apply Ht; rewrite <- E; apply take_app_length.
  - cbn [app find_sub]. case_bool_decide; [by eexists|]. rewrite IH. by eexists.
Qed.
Lemma split_at_sub c comp bs : comp ∈ split_at c bs → ∃ a b, bs = a ++ comp ++ b.
Proof.
  assert (∀ bs, match split_at c bs with
                | [] => False
                | first :: more => (∃ b, bs = first ++ b) ∧ ∀ x, x ∈ more → ∃ a b, bs = a ++ x ++ b
                end) as H.
  { clear. induction bs as [|y bs IH]; cbn [split_at].
    { split; [by exists []|]. intros x Hx. by apply elem_of_nil in Hx. }
    destruct (split_at c bs) as [|first more]; [done|]. destruct IH as [[b ->] IH]. destruct (y =? c).
    - split; [by eexists|]. intros x [->|Hx]%elem_of_cons; [by exists [y], b|].
      destruct (IH x Hx) as (a' & b' & E). exists (y :: a'), b'. by rewrite E.
    - split; [by exists b|]. intros x Hx. destruct (IH x Hx) as (a' & b' & E). exists (y :: a'), b'. by rewrite E. }
  intros Hc. specialize (H bs). destruct (split_at c bs) as [|first more]; [done|]. destruct H as [[b E] H].
  apply elem_of_cons in Hc as [->|Hc]; [by exists [], b|by apply H].
Qed.
End names.

Section directories.
Context (fs : Fat32Fs).
Hypothesis Hfs : volume_ok fs.
Hypothesis Hspc : spc fs = 1.
Hypothesis Hdata : 2 ≤ data_start fs.
Implicit Types (c : Z) (buf : list Z) (l : lfn).

Abbreviation anything := (λ _, True).

(** ** Walking *)

Definition scanned l (o : option (option (list Z) * lfn)) : Prop :=
  ∀ x l', o = Some (x, l') → lfn_ok l' ∧ (is_Some x → l'.2 = 0).
Lemma safe_scan_slot e l : lfn_ok l → Forall is_byte e → safe (scan_slot e l) (scanned l).
Proof.
  intros Hl He. apply safe_wp. intros d Hd. apply scan_slot_wp; [done|done|]. intros Hok. split; [|done].
  intros x l' E. split; [by eapply Hok|]. intros [name ->]. unfold ref_scan in E.
  destruct (_ =? 0); [done|]. destruct (_ =? 229); [done|]. destruct (_ =? 15); [done|]. by injection E as _ <-.
Qed.
Section walk.
Context {B : Type} (f : DirEntry → list Z → B → B) (PB : B → Prop).
Hypothesis HPB : ∀ e name acc, Forall is_byte e → PB acc → PB (f (read_dir_entry e) name acc).

Lemma safe_walk_slots idxs buf : ∀ acc l, sector_ok buf → lfn_ok l → PB acc →
  safe (walk_slots f idxs buf acc l) (λ r, match r with inl acc => PB acc | inr (acc, l) => PB acc ∧ lfn_ok l end).
Proof.
  induction idxs as [|i idxs IH]; intros acc l Hs Hl Ha; cbn [walk_slots]; [by apply safe_ret|].
  assert (Forall is_byte (slot buf i)) as Hslot by apply slot_bytes, Hs.
  eapply safe_bind; [by apply safe_scan_slot|]. intros [[[name|] l']|] Ho; [| |by apply safe_ret];
    destruct (Ho _ _ eq_refl) as [Hl' _]; apply IH; [done|done|by apply HPB|done|done|done].
Qed.
Lemma safe_walk_loop fuel : ∀ c acc l, is_u32 c → lfn_ok l → PB acc →
  safe (walk_loop f fuel fs c acc l) (λ r, PB r.2).
Proof.
  induction fuel as [|fuel IH]; intros c acc l Hc Hl Ha; [apply safe_diverge|]. cbn [walk_loop].
  rewrite Hspc. change (seqZ 0 1) with [0]. cbn [walk_sectors].
  apply (safe_bind _ _ (λ r, match r with inl r => PB r.2 | inr (acc, l) => PB acc ∧ lfn_ok l end)).
  - eapply safe_bind; [by apply (safe_read_cluster fs)|]. intros [buf|] Hb; [|by apply safe_ret].
    eapply safe_bind; [by apply safe_walk_slots; [apply Hb| |]|]. intros [acc'|[acc' l']] Hr; by apply safe_ret.
  - intros [r|[acc' l']] Hr; [by apply safe_ret|]. destruct Hr as [Ha' Hl'].
    eapply safe_bind; [by apply (safe_fat_next fs)|]. intros o Ho. pose proof (chain_next_u32 _ Ho) as Hn.
    destruct (chain_next o) as [next|]; [by apply IH; [apply Hn| |]|by apply safe_ret].
Qed.
Lemma safe_walk_dir fuel c acc : is_u32 c → PB acc → safe (walk_dir f fuel fs c acc) (λ r, PB r.2).
Proof. intros Hc Ha. apply safe_walk_loop; [done|apply lfn_empty_ok|done]. Qed.
End walk.

Definition entry_ok (o : option (DirEntry * list Z)) : Prop := ∀ e n, o = Some (e, n) → is_u32 (entry_cluster e).
Lemma entry_cluster_u32 e : Forall is_byte e → is_u32 (entry_cluster (read_dir_entry e)).
Proof.
  intros He. unfold entry_cluster. apply (lor_bound 32); [lia|apply Z.mod_pos_bound; lia|].
  cbn [read_dir_entry first_cluster_lo]. pose proof (le_bound 2 e 26 He) as H. change (256 ^ Z.of_nat 2) with 65536 in H. lia.
Qed.
Lemma safe_find_entry fuel c name : is_u32 c → safe (find_entry fuel fs c name) entry_ok.
Proof.
  intros Hc. unfold find_entry. eapply safe_bind; [apply (safe_walk_dir _ entry_ok); [|done|done]|].
  - intros e n [[e' n']|] He Ha; [done|]. destruct (same_name n name); [|done].
    intros ? ? [= <- <-]. by apply entry_cluster_u32.
  - intros r Hr. by apply safe_ret.
Qed.
Lemma safe_resolve_components fuel path : ∀ comps c last,
  (∀ comp, comp ∈ comps → ∃ a b, path = a ++ comp ++ b) → is_u32 c → entry_ok last →
  safe (resolve_components fuel fs path comps c last) entry_ok.
Proof.
  induction comps as [|comp comps IH]; intros c last Hp Hc Hl; cbn [resolve_components]; [by apply safe_ret|].
  assert (∀ comp, comp ∈ comps → ∃ a b, path = a ++ comp ++ b) as Hp' by (intros x Hx; apply Hp; by right).
  apply safe_if; [by apply IH|]. eapply safe_bind; [by apply safe_find_entry|].
  intros [[e name]|] Ho; [|by apply safe_ret]. pose proof (Ho _ _ eq_refl) as He.
  assert (entry_ok (Some (e, name))) as Hen by (by intros ? ? [= <- <-]).
  apply safe_if; [by apply IH|].
  destruct (Hp comp ltac:(by left)) as (a & b & ->). destruct (find_sub_prefix comp a b) as [i Hi]. rewrite Hi.
  eapply safe_bind; [by apply (safe_unwrap _ anything i)|]. intros j _. apply safe_if; [by apply safe_ret|by apply IH].
Qed.
Lemma safe_resolve_path fuel path : is_u32 (root_cluster fs) → safe (resolve_path fuel fs path) entry_ok.
Proof.
  intros Hr. unfold resolve_path. apply safe_if.
  - apply safe_ret. intros e n [= <- <-]. unfold entry_cluster. cbn [root_entry first_cluster_hi first_cluster_lo].
    apply (lor_bound 32); [lia|apply Z.mod_pos_bound; lia|]. apply land_bound; [lia|exact Hr].
  - apply safe_resolve_components; [|done|done]. intros comp. apply split_at_sub.
Qed.

(** ** Creating *)

Lemma safe_resolve_conflict ns : ∀ fuel c base ext, is_u32 c → bytes_of_len 8 base → bytes_of_len 3 ext →
  safe (resolve_conflict ns fuel fs c base ext) (bytes_of_len 11).
Proof.
  induction ns as [|n ns IH]; intros fuel c base ext Hc Hb He; cbn [resolve_conflict].
  { apply safe_ret, (app_ok 8 3); done. }
  eapply safe_bind; [by apply (safe_walk_dir _ anything)|]. intros r _.
  apply safe_if; [apply safe_ret, (app_ok 8 3); done|]. apply IH; [done| |done].
  destruct (n <? 10).
  - apply (app_ok 7 1); [apply (take_ok 7 8); [done|lia]|]. split; [done|]. by constructor; [apply u8_byte|].
  - apply (app_ok 6 2); [apply (take_ok 6 8); [done|lia]|]. split; [done|].
    constructor; [done|]. by constructor; [apply u8_byte|].
Qed.
Lemma safe_make_short_name fuel name c : is_u32 c → Forall is_byte name →
  safe (make_short_name fuel fs name c) (bytes_of_len 11).
Proof.
  intros Hc Hb. unfold make_short_name. destruct (split_name_bytes name Hb) as [H1 H2].
  destruct (split_name name) as [n e]. cbn [fst snd] in *. destruct (is_valid_83 n e) eqn:E.
  - unfold is_valid_83 in E. rewrite !andb_true_iff, !Z.leb_le in E. destruct E as ((((_ & E1) & E2) & _) & _).
    apply safe_ret, (app_ok 8 3); apply pad_ok; rewrite ?length_fmap; try lia; by apply upper_bytes.
  - apply safe_resolve_conflict; [done|by apply tilde_base_ok|].
    apply pad_ok; [rewrite length_fmap, length_take; lia|]. by apply upper_bytes, Forall_take.
Qed.
Definition new_ok (ne : new_entry) : Prop := bytes_of_len 11 (ne_short ne) ∧ is_byte (ne_attr ne).
Lemma lfn_count_nonneg n : 0 ≤ n → 0 ≤ lfn_count n.
Proof. intros Hn. unfold lfn_count. destruct (n <=? 13); [lia|]. apply Z.div_pos; lia. Qed.
Lemma safe_create_in_sector c buf ne : is_u32 c → sector_ok buf → new_ok ne →
  safe (create_in_sector (cluster_to_sector fs c +' 0) buf ne) anything.
Proof.
  intros Hc Hs [[Hl Hb] Ha]. unfold create_in_sector.
  set (count := lfn_count _). assert (0 ≤ count) as Hcount by (apply lfn_count_nonneg; lia). clearbody count.
  pose proof (find_run_sector buf (count + 1) ltac:(lia)) as Hrun.
  destruct (find_run _ _ _ _ _) as [i|]; [|by apply safe_ret]. destruct Hrun as (H0 & H1 & _ & _).
  destruct (put_lfns_ok (ne_chars ne) (lfn_checksum (ne_short ne)) count i (reverse (seqZ 0 count)) buf)
    as (b1 & E1 & Hs1); [done|apply lfn_checksum_byte|done|lia|by intros j Hj%elem_of_reverse%elem_of_seqZ|].
  eapply safe_bind; [by apply (safe_unwrap _ (λ b, b = b1) b1)|]. intros ? ->.
  destruct (put_short_ok (ne_short ne) (ne_attr ne) (ne_cluster ne) (ne_size ne) (i + count) b1)
    as (b2 & E2 & Hs2 & _); [done|done|done|done|lia|].
  eapply safe_bind; [by apply (safe_unwrap _ (λ b, b = b2) b2)|]. intros ? ->.
  eapply safe_bind; [by apply (safe_write_cluster fs)|]. intros ok _. by apply safe_ret.
Qed.
Lemma safe_create_loop fuel ne : new_ok ne → ∀ c, is_u32 c → safe (create_loop fuel fs c ne) anything.
Proof.
  intros Hne. induction fuel as [|fuel IH]; intros c Hc; [apply safe_diverge|]. cbn [create_loop].
  rewrite Hspc. change (seqZ 0 1) with [0]. cbn [create_in_cluster].
  apply (safe_bind _ _ anything).
  - eapply safe_bind; [by apply (safe_read_cluster fs)|]. intros [buf|] Hb; [|by apply safe_ret].
    eapply safe_bind; [by apply safe_create_in_sector; [|apply Hb|]|]. intros [res|] _; by apply safe_ret.
  - intros [res|] _; [by apply safe_ret|]. eapply safe_bind; [by apply (safe_fat_next fs)|]. intros o Ho.
    pose proof (chain_next_u32 _ Ho) as Hn. destruct (chain_next o) as [next|]; [by apply IH, Hn|].
    eapply safe_otry; [by apply (safe_alloc fs)| |done]. intros new Hnew.
    eapply safe_bind; [by apply (safe_fat_set fs)|]. intros _ _. by apply IH, Hnew.
Qed.
Lemma safe_create_dir_entry fuel c name attr cluster size :
  is_u32 c → Forall is_byte name → is_byte attr → safe (create_dir_entry fuel fs c name attr cluster size) anything.
Proof.
  intros Hc Hb Ha. unfold create_dir_entry. eapply safe_bind; [by apply safe_make_short_name|].
  intros short Hs. by apply safe_create_loop.
Qed.

(** ** Updating and deleting *)

Lemma safe_update_slots search size cluster buf l : sector_ok buf → lfn_ok l →
  safe (update_slots (seqZ 0 ENTRIES_PER_SECTOR) search size cluster buf false l)
    (λ r, match r with inl _ => True | inr (buf, _, l) => sector_ok buf ∧ lfn_ok l end).
Proof.
  intros Hs Hl. apply safe_wp. intros d Hd. apply update_slots_wp; [done|done|apply NoDup_seqZ|by intros i Hi%elem_of_seqZ|by split|].
  intros buf' l' _ Hs' Hl'. by split.
Qed.
Lemma safe_update_loop fuel search size cluster : ∀ c l, is_u32 c → lfn_ok l →
  safe (update_loop fuel fs c search size cluster l) anything.
Proof.
  induction fuel as [|fuel IH]; intros c l Hc Hl; [apply safe_diverge|]. cbn [update_loop].
  rewrite Hspc. change (seqZ 0 1) with [0]. cbn [update_sectors].
  apply (safe_bind _ _ (λ r, match r with inl _ => True | inr l => lfn_ok l end)).
  - eapply safe_bind; [by apply (safe_read_cluster fs)|]. intros [buf|] Hb; [|by apply safe_ret].
    eapply safe_bind; [apply safe_update_slots; [by apply Hb|done]|].
    intros [res|[[buf' found] l']] Hr; [by apply safe_ret|]. destruct Hr as [Hs' Hl'].
    apply (safe_bind _ _ anything); [apply safe_if; [by apply (safe_write_cluster fs)|by apply safe_ret]|].
    intros ok _. repeat apply safe_if; by apply safe_ret.
  - intros [res|l'] Hr; [by apply safe_ret|]. eapply safe_bind; [by apply (safe_fat_next fs)|]. intros o Ho.
    pose proof (chain_next_u32 _ Ho) as Hn. destruct (chain_next o) as [next|]; [by apply IH; [apply Hn|]|by apply safe_ret].
Qed.
Lemma safe_update_dir_entry_size fuel c name size cluster : is_u32 c →
  safe (update_dir_entry_size fuel fs c name size cluster) anything.
Proof. intros Hc. by apply safe_update_loop; [|apply lfn_empty_ok]. Qed.

Lemma set_byte_ok buf i : sector_ok buf → 0 ≤ i < ENTRIES_PER_SECTOR →
  ∃ buf', set_byte buf (i * 32) 0xE5 = Some buf' ∧ sector_ok buf'.
Proof.
  intros Hs Hi. change ENTRIES_PER_SECTOR with 16 in Hi.
  destruct (copy_into_inside buf (i * 32) [0xE5]) as (b & E & Hb & _); [done|by constructor|lia|cbn; lia|]. by exists b.
Qed.
Lemma safe_delete_slots c search idxs : ∀ buf l start,
  is_u32 c → (∀ i, i ∈ idxs → 0 ≤ i < ENTRIES_PER_SECTOR) → sector_ok buf → lfn_ok l →
  safe (delete_slots idxs (cluster_to_sector fs c +' 0) search buf l start)
    (λ r, match r with inl _ => True | inr (l, _) => lfn_ok l end).
Proof.
  induction idxs as [|i idxs IH]; intros buf l start Hc Hi Hs Hl; cbn [delete_slots]; [by apply safe_ret|].
  assert (∀ j, j ∈ idxs → 0 ≤ j < ENTRIES_PER_SECTOR) as Hi' by (intros j Hj; apply Hi; by right).
  match goal with |- context [if ?b then (?x, i) else start] => generalize (if b then (x, i) else start); intros start' end.
  eapply safe_bind; [by apply safe_scan_slot; [|apply slot_bytes, Hs]|].
  intros [[[name|] l']|] Ho; [| |by apply safe_ret]; destruct (Ho _ _ eq_refl) as [Hl' Hz].
  - apply safe_if; [|apply IH; [done|done|done|by apply lfn_reset_ok]].
    destruct (set_byte_ok buf i Hs ltac:(apply Hi; by left)) as (b & E & Hb).
    eapply safe_bind; [by apply (safe_unwrap _ (λ x, x = b) b)|]. intros ? ->.
    rewrite Hz by done. cbn [Z.ltb Z.compare andb].
    eapply safe_bind; [by apply (safe_ret b sector_ok)|]. intros b' Hb'.
    eapply safe_bind; [by apply (safe_write_cluster fs)|]. intros _ _. by apply safe_ret.
  - by apply IH.
Qed.
Lemma safe_delete_loop fuel search : ∀ c l start, is_u32 c → lfn_ok l →
  safe (delete_loop fuel fs c search l start) anything.
Proof.
  induction fuel as [|fuel IH]; intros c l start Hc Hl; [apply safe_diverge|]. cbn [delete_loop].
  rewrite Hspc. change (seqZ 0 1) with [0]. cbn [delete_sectors].
  apply (safe_bind _ _ (λ r, match r with inl _ => True | inr (l, _) => lfn_ok l end)).
  - eapply safe_bind; [by apply (safe_read_cluster fs)|]. intros [buf|] Hb; [|by apply safe_ret].
    eapply safe_bind; [apply safe_delete_slots; [done|by intros i Hi%elem_of_seqZ|by apply Hb|done]|].
    intros [res|[l' st]] Hr; by apply safe_ret.
  - intros [res|[l' st]] Hr; [by apply safe_ret|]. eapply safe_bind; [by apply (safe_fat_next fs)|]. intros o Ho.
    pose proof (chain_next_u32 _ Ho) as Hn. destruct (chain_next o) as [next|]; [by apply IH; [apply Hn|]|by apply safe_ret].
Qed.
Lemma safe_delete_dir_entry fuel c name : is_u32 c → safe (delete_dir_entry fuel fs c name) anything.
Proof. intros Hc. by apply safe_delete_loop; [|apply lfn_empty_ok]. Qed.
Lemma dot_entry_ok dots c : (length dots <= 11)%nat → Forall is_byte dots → bytes_of_len 32 (dot_entry dots c).
Proof.
  intros Hl Hb. unfold dot_entry.
  apply (app_ok 11 21); [by apply pad_ok|]. apply (app_ok 1 20); [split; [done|by constructor]|].
  apply (app_ok 8 12); [split; [done|by apply Forall_replicate]|].
  apply (app_ok 2 10); [split; [done|apply cluster_hi_is_byte]|].
  apply (app_ok 4 6); [split; [done|by apply Forall_replicate]|].
  apply (app_ok 2 4); [split; [done|apply cluster_lo_is_byte]|]. split; [done|by apply Forall_replicate].
Qed.
Lemma safe_create_empty_dir c : safe (create_empty_dir fs c) some_u32.
Proof.
  unfold create_empty_dir. eapply safe_otry; [by apply (safe_alloc fs)| |done]. intros new Hnew.
  specialize (Hnew new eq_refl). destruct (any_sector fs Hfs Hspc Hdata new Hnew) as [Hsec _].
  eapply safe_bind; [apply safe_write; [done|]|].
  - apply (app_ok 32 480); [by apply dot_entry_ok; [cbn; lia|by repeat (constructor; [done|])]|].
    apply (app_ok 32 448); [by apply dot_entry_ok; [cbn; lia|by repeat (constructor; [done|])]|].
    split; [apply length_replicate|by apply Forall_replicate].
  - intros ok _. apply safe_ret. intros x. destruct ok; [|done]. by intros [= <-].
Qed.
Lemma safe_truncate_file fuel c dir name : is_u32 c → is_u32 dir → safe (truncate_file fuel fs c dir name) anything.
Proof.
  intros Hc Hd. unfold truncate_file. apply safe_if; [by apply safe_ret|].
  eapply safe_bind; [by apply (safe_fat_next fs)|]. intros o Ho. pose proof (chain_next_u32 _ Ho) as Hn.
  apply (safe_bind _ _ anything).
  { destruct (chain_next o) as [next|]; [by apply (safe_free_chain fs), Hn|by apply safe_ret]. }
  intros _ _. eapply safe_bind; [by apply (safe_fat_set fs)|]. intros _ _.
  eapply safe_bind; [by apply (safe_zero_cluster fs)|]. intros _ _. by apply safe_update_dir_entry_size.
Qed.
End directories.
