(* ===== verification/ServeContracts.v ===== *)
(** The request loop of the file server never panics. *)

From S2P Require Import Prelude Bytes Initrd FatDisk FatFacts FatFile FatDir FatEdit DirFacts EditFacts FsServer FsSafety ServeSafety Volume.

(** A request as the kernel delivers it: up to a page of bytes. *)
Record request_ok (r : request) : Prop := {
  rq_buf : Z.of_nat (length (req_buf r)) = IPC_BUFFER_SIZE;
  rq_bytes : Forall is_byte (req_buf r);
  rq_len : 0 ≤ req_len r ≤ IPC_BUFFER_SIZE;
}.
(** A reply the server can send: four words and at most a page of data. *)
Definition reply_ok (rep : reply) : Prop :=
  length (rep_words rep) = 4%nat ∧ Z.of_nat (length (rep_data rep)) ≤ IPC_BUFFER_SIZE.

Section serving.
Context (fuel : nat) (fs : Fat32Fs).
Hypothesis Hfs : volume_ok fs.
Hypothesis Hspc : spc fs = 1.
Hypothesis Hdata : 2 ≤ data_start fs.
Hypothesis Hroot : is_u32 (root_cluster fs).
Implicit Types (r : request) (c : Z).

Lemma words_ok ws : length ws = 4%nat → reply_ok (mkReply ws []).
Proof. intros H. split; [done|]. cbn. unfold IPC_BUFFER_SIZE. lia. Qed.
Lemma error_ok : reply_ok error_reply.
Proof. by apply words_ok. Qed.
Lemma safe_req_data r : request_ok r →
  safe (req_data r) (λ bs, Forall is_byte bs ∧ Z.of_nat (length bs) ≤ IPC_BUFFER_SIZE).
Proof.
  intros [H1 H2 H3]. unfold req_data, slice.
  rewrite (proj2 (Z.leb_le 0 (req_len r))), (proj2 (Z.leb_le (req_len r) _)) by lia. apply safe_ret.
  split; [by apply Forall_take, Forall_drop|]. rewrite length_take, length_drop. lia.
Qed.
Lemma trim_start_bytes c bs : Forall is_byte bs → Forall is_byte (trim_start c bs).
Proof. induction 1 as [|b bs Hb Hbs IH]; [constructor|]. cbn. destruct (b =? c); [done|by constructor]. Qed.
Lemma safe_req_path r : request_ok r → safe (req_path r) (Forall is_byte).
Proof.
  intros Hr. unfold req_path. eapply safe_bind; [by apply safe_req_data|]. intros bs [Hb _]. apply safe_ret.
  unfold trim_end. apply Forall_reverse, trim_start_bytes, Forall_reverse. destruct (utf8_ok bs); [done|constructor].
Qed.
Lemma safe_with_parent path k : Forall is_byte path →
  (∀ c name, is_u32 c → Forall is_byte name → safe (k c name) reply_ok) →
  safe (with_parent fuel fs path k) reply_ok.
Proof.
  intros Hp Hk. unfold with_parent, split_path. destruct (rfind SLASH path) as [pos|]; [|apply safe_ret, error_ok].
  cbn [mbind option_bind]. eapply safe_bind; [by apply safe_resolve_path|].
  intros [[e n]|] He; [|apply safe_ret, error_ok]. apply Hk; [by eapply He|by apply Forall_drop].
Qed.
Lemma u32_bound x : is_u32 (u32 x).
Proof. apply Z.mod_pos_bound. lia. Qed.

Lemma safe_do_open r : request_ok r → safe (do_open fuel fs r) reply_ok.
Proof.
  intros Hr. unfold do_open. eapply safe_bind; [by apply safe_req_path|]. intros path _.
  eapply safe_bind; [by apply safe_resolve_path|]. intros [[e n]|] _; apply safe_ret; by apply words_ok.
Qed.
Lemma safe_do_read r rdb : Z.of_nat (length rdb) = IPC_BUFFER_SIZE →
  safe (do_read fuel fs r rdb) (λ p, reply_ok p.1 ∧ Z.of_nat (length p.2) = IPC_BUFFER_SIZE).
Proof.
  intros Hl. unfold do_read. rewrite Hl. set (size := Z.min _ _).
  pose proof (u32_bound (byte_at (req_words r) 3)) as Hu. unfold is_u32 in Hu.
  assert (0 ≤ size ≤ IPC_BUFFER_SIZE) as Hsize by (unfold size; change (u32 IPC_BUFFER_SIZE) with IPC_BUFFER_SIZE; unfold IPC_BUFFER_SIZE; lia).
  clearbody size. unfold IPC_BUFFER_SIZE in *. destruct (slice_Some rdb 0 size) as (buf & E & Hbuf); [lia|lia|].
  eapply safe_bind; [by apply (safe_unwrap _ (λ b, b = buf) buf)|]. intros ? ->.
  eapply safe_bind; [apply (safe_read_file fs); [done..|apply u32_bound|lia]|].
  intros [br buf'] [H1 H2]. cbn [fst snd] in *.
  set (rdb' := buf' ++ drop (Z.to_nat size) rdb).
  assert (Z.of_nat (length rdb') = 4096) as Hl'.
  { unfold rdb'. rewrite length_app, length_drop. lia. }
  clearbody rdb'. destruct (slice_Some rdb' 0 br) as (dat & E2 & Hdat); [lia|lia|].
  eapply safe_bind; [by apply (safe_unwrap _ (λ b, b = dat) dat)|]. intros ? ->.
  apply safe_ret. split; [|done]. split; [done|]. cbn. unfold IPC_BUFFER_SIZE. lia.
Qed.
Lemma safe_do_readdir r : safe (do_readdir fuel fs r) reply_ok.
Proof.
  unfold do_readdir. eapply safe_bind; [apply (safe_walk_dir fs Hfs Hspc Hdata _ (λ _, True)); [done|apply u32_bound|done]|].
  intros res _. apply safe_ret. by apply words_ok.
Qed.
Lemma safe_do_mkdir r : request_ok r → safe (do_mkdir fuel fs r) reply_ok.
Proof.
  intros Hr. unfold do_mkdir. eapply safe_bind; [by apply safe_req_path|]. intros path Hp.
  apply safe_with_parent; [done|]. intros c name Hc Hn.
  eapply safe_bind; [by apply (safe_create_empty_dir fs)|]. intros [new|] _; [|apply safe_ret, error_ok].
  eapply safe_bind; [by apply (safe_create_dir_entry fs)|]. intros _ _. apply safe_ret. by apply words_ok.
Qed.
Lemma safe_do_write r : request_ok r → safe (do_write fuel fs r) reply_ok.
Proof.
  intros Hr. unfold do_write. apply (safe_bind _ _ some_u32).
  { apply safe_if; [by apply (safe_alloc fs)|]. apply safe_ret. intros x [= <-]. apply u32_bound. }
  intros [c|] Hc; [|apply safe_ret, error_ok]. eapply safe_bind; [by apply safe_req_data|]. intros dat [Hb Hl].
  eapply safe_bind; [apply (safe_write_file fs); [done..|by apply Hc|done|unfold IPC_BUFFER_SIZE in Hl; lia]|].
  intros res _. apply safe_ret. by apply words_ok.
Qed.
Lemma safe_do_create_open r : request_ok r → safe (do_create_open fuel fs r) reply_ok.
Proof.
  intros Hr. unfold do_create_open. eapply safe_bind; [by apply safe_req_path|]. intros path Hp.
  eapply safe_bind; [by apply safe_resolve_path|]. intros [[e n]|] _; [apply safe_ret; by apply words_ok|].
  apply safe_with_parent; [done|]. intros c name Hc Hn.
  eapply safe_bind; [by apply (safe_create_dir_entry fs)|]. intros [x|] _; apply safe_ret; by apply words_ok.
Qed.
Lemma safe_do_update_size r : request_ok r → safe (do_update_size fuel fs r) reply_ok.
Proof.
  intros Hr. unfold do_update_size. eapply safe_bind; [by apply safe_req_path|]. intros path Hp.
  apply safe_with_parent; [done|]. intros c name Hc Hn.
  eapply safe_bind; [by apply (safe_update_dir_entry_size fs)|]. intros ok _. apply safe_ret. by apply words_ok.
Qed.
Lemma safe_do_delete r : request_ok r → safe (do_delete fuel fs r) reply_ok.
Proof.
  intros Hr. unfold do_delete. eapply safe_bind; [by apply safe_req_path|]. intros path Hp.
  apply safe_with_parent; [done|]. intros c name Hc Hn.
  eapply safe_bind; [by apply (safe_find_entry fs)|]. intros [[e n]|] He; [|apply safe_ret, error_ok].
  eapply safe_bind; [by apply (safe_delete_dir_entry fs)|]. intros ok _.
  apply safe_if; [apply safe_ret, error_ok|]. apply (safe_bind _ _ (λ _, True)).
  { apply safe_if; [|by apply safe_ret]. apply (safe_free_chain fs); [done..|by eapply He]. }
  intros _ _. apply safe_ret. by apply words_ok.
Qed.
Lemma safe_do_truncate r : request_ok r → safe (do_truncate fuel fs r) reply_ok.
Proof.
  intros Hr. unfold do_truncate. eapply safe_bind; [by apply safe_req_path|]. intros path Hp.
  apply safe_with_parent; [done|]. intros c name Hc Hn.
  eapply safe_bind; [by apply (safe_find_entry fs)|]. intros [[e n]|] He; [|apply safe_ret, error_ok].
  apply safe_if; [|apply safe_ret; by apply words_ok].
  eapply safe_bind; [apply (safe_truncate_file fs); [done..|by eapply He|done]|].
  intros ok _. apply safe_ret. by apply words_ok.
Qed.
Lemma safe_serve r rdb : request_ok r → Z.of_nat (length rdb) = IPC_BUFFER_SIZE →
  safe (serve fuel fs r rdb) (λ p, reply_ok p.1 ∧ Z.of_nat (length p.2) = IPC_BUFFER_SIZE).
Proof.
  intros Hr Hl. unfold serve.
  assert (∀ m : FS reply, safe m reply_ok →
    safe (rep ← m; mret (rep, rdb)) (λ p, reply_ok p.1 ∧ Z.of_nat (length p.2) = IPC_BUFFER_SIZE)) as Hkeep.
  { intros m Hm. eapply safe_bind; [done|]. intros rep Hrep. by apply safe_ret. }
  repeat apply safe_if; try apply Hkeep;
    [by apply safe_do_open|by apply safe_do_read|apply safe_do_readdir|apply safe_ret; by apply words_ok
    |by apply safe_do_mkdir|by apply safe_do_write|by apply safe_do_create_open|by apply safe_do_update_size
    |by apply safe_do_delete|by apply safe_do_truncate|apply safe_ret, error_ok].
Qed.
End serving.

(** [C38] The request loop does not panic: for any words, any page of bytes as data and any
    contents of the disk -- damaged tables, directories and names included -- a turn of the
    loop never indexes or slices out of range and never unwraps nothing; a reply it gives
    has four words and at most a page of data, and the buffers and the disk keep their
    shape, so that the next turn starts from the same conditions. *)
Theorem serve_safe fuel fs r read_data_buf d :
  volume_ok fs → spc fs = 1 → 2 ≤ data_start fs → is_u32 (root_cluster fs) →
  request_ok r → Z.of_nat (length read_data_buf) = IPC_BUFFER_SIZE → bytes_ok d →
  serve fuel fs r read_data_buf d ≠ Panic ∧
  ∀ rep read_data_buf' d', serve fuel fs r read_data_buf d = Done (rep, read_data_buf', d') →
    reply_ok rep ∧ Z.of_nat (length read_data_buf') = IPC_BUFFER_SIZE ∧ bytes_ok d'.
Proof.
  intros Hfs Hspc Hdata Hroot Hr Hl Hd.
  pose proof (safe_serve fuel fs Hfs Hspc Hdata Hroot r read_data_buf Hr Hl d Hd) as H. unfold wlp in H.
  destruct (serve fuel fs r read_data_buf d) as [[[rep rdb] d']| |]; [|done|by split].
  destruct H as [[H1 H2] H3]. split; [done|]. by intros ? ? ? [= <- <- <-].
Qed.
(** A request to delete a path that is not UTF-8, on the new volume. *)
Lemma serve_safe_witness :
  serve 10 boot_fs (mkRequest [FS_DELETE; 0; 0; 0] (replicate 4096 0xFF) 4096) (replicate 4096 0) boot_disk ≠ Panic.
Proof.
  apply (serve_safe 10 boot_fs (mkRequest [FS_DELETE; 0; 0; 0] (replicate 4096 0xFF) 4096) (replicate 4096 0) boot_disk
    boot_volume_ok boot_spc ltac:(cbn; lia) ltac:(split; cbn; lia)).
  - split; [by vm_compute|by apply Forall_replicate|split; by vm_compute].
  - by vm_compute.
  - exact boot_bytes_ok.
Defined.
