(* ===== verification/Observations.v ===== *)
(** Concrete runs of the file server that show where it departs from what its comments and
    its callers expect; each is a computation on the volume of [Volume.v]. *)

From S2P Require Import Prelude Bytes Initrd FatDisk FatFacts FatFile FileFacts WriteFacts FatDir FatEdit DirFacts FsServer Volume.

(** ** Names *)

(** "hi.text", "foo." and "a-long-file-name.txt". *)
Definition hi_text : list Z := [104; 105; 46; 116; 101; 120; 116].
Definition foo_dot : list Z := [102; 111; 111; 46].
Definition long_name : list Z := [97; 45; 108; 111; 110; 103; 45; 102; 105; 108; 101; 45; 110; 97; 109; 101; 46; 116; 120; 116].
(** A name is created in the root directory and searched for. *)
Definition create_and_find (name : list Z) : option (bool * bool) :=
  run_value ((created ← create_dir_entry 9 boot_fs 2 name ATTR_ARCHIVE 0 0;
              found ← find_entry 9 boot_fs 2 name;
              mret (bool_decide (is_Some created), bool_decide (is_Some found))) boot_disk).

(** A name of at most 13 characters gets no long-name slots, even if it is not a valid
    short name: it is created and cannot be found. *)
Lemma short_invalid_name_lost : create_and_find hi_text = Some (true, false).
Proof. by vm_compute. Qed.
(** The same for a name that ends with a dot, which counts as valid. *)
Lemma trailing_dot_lost : create_and_find foo_dot = Some (true, false).
Proof. by vm_compute. Qed.
Lemma long_name_found : create_and_find long_name = Some (true, true).
Proof. by vm_compute. Qed.

(** [delete_dir_entry] leaves the long-name slots: the next short entry placed behind them
    takes over the deleted name, and its own name is not found. *)
Lemma deleted_long_name_returns :
  run_value ((_ ← create_dir_entry 9 boot_fs 2 long_name ATTR_ARCHIVE 0 0;
              deleted ← delete_dir_entry 9 boot_fs 2 long_name;
              _ ← create_dir_entry 9 boot_fs 2 [98] ATTR_ARCHIVE 0 0;
              own ← find_entry 9 boot_fs 2 [98];
              old ← find_entry 9 boot_fs 2 long_name;
              mret (deleted, bool_decide (is_Some own), bool_decide (is_Some old))) boot_disk)
  = Some (true, false, true).
Proof. by vm_compute. Qed.

(** A path whose last component occurs earlier in it as a part of a directory's name:
    "/data/a" is not resolved, although the file is there. *)
Lemma resolve_takes_first_occurrence :
  run_value ((o ← create_empty_dir boot_fs 2;
              dir ← unwrap o;
              _ ← create_dir_entry 9 boot_fs 2 [100; 97; 116; 97] ATTR_DIRECTORY dir 0;
              _ ← create_dir_entry 9 boot_fs dir [97] ATTR_ARCHIVE 0 0;
              there ← find_entry 9 boot_fs dir [97];
              found ← resolve_path 9 boot_fs [47; 100; 97; 116; 97; 47; 97];
              mret (bool_decide (is_Some there), bool_decide (is_Some found))) boot_disk)
  = Some (true, false).
Proof. by vm_compute. Qed.

(** ** Contents *)

(** Ten bytes written at the start of a file of 600: the rest of the first sector is lost. *)
Lemma overwrite_zeroes_sector :
  option_map (λ r, (take 12 r.2, byte_at r.2 511, byte_at r.2 512))
    (run_value ((_ ← write_file 9 boot_fs 3 0 (replicate 10 7);
                 read_file 9 boot_fs 3 0 600 (replicate 600 1)) demo_disk))
  = Some (replicate 10 7 ++ [0; 0], 0, byte_at demo_data 512).
Proof. by vm_compute. Qed.
(** The first write to an empty file answers with the cluster it ended in (4), not with the
    first cluster of the file (3), which is nowhere else recorded. *)
Lemma write_answers_last_cluster :
  option_map (λ r, rep_words r.1)
    (run_value (serve 9 boot_fs (mkRequest [FS_WRITE; 0; 0; 0] demo_data 600) [] boot_disk))
  = Some [FS_OK; 600; 4; 0].
Proof. by vm_compute. Qed.

(** ** A client can stop the server *)

(** A cluster that is its own successor and holds no entry and no end mark is walked
    forever. *)
Lemma walk_cycle_diverges {B} (f : DirEntry → list Z → B → B) fs c acc d fuel :
  volume_ok fs → spc fs = 1 → bytes_ok d → valid_cluster fs c →
  chain_next (Some (fat_value fs d c)) = Some c →
  dir_entries (sector_slots (cluster_bytes fs d c)) lfn_empty = ([], Some lfn_empty) →
  walk_dir f fuel fs c acc d = Diverge.
Proof.
  intros Hfs Hspc Hb Hc Hloop Hslots. unfold walk_dir.
  assert (wp (walk_sectors f fs [0] c acc lfn_empty) (λ r d', r = inr (acc, lfn_empty) ∧ d' = d) d) as Hs.
  { cbn [walk_sectors]. apply wp_bind, (cluster_read fs Hfs Hspc); [done|]. cbn beta iota.
    apply wp_bind, walk_slots_wp; [intros i; by apply slot_bytes, cluster_is_bytes|apply lfn_empty_ok|].
    unfold walked. fold (sector_slots (cluster_bytes fs d c)). rewrite Hslots. cbn [fst snd]. intros _.
    apply wp_ret. by apply wp_ret. }
  assert (wp (fat_next fs c) (λ r d', r = Some (fat_value fs d c) ∧ d' = d) d) as Hn.
  { apply (fat_next_valid fs Hfs); [destruct Hc; lia|done]. }
  destruct (proj1 (wp_Done _ _ _) Hs) as (r & d1 & Es & -> & ->).
  destruct (proj1 (wp_Done _ _ _) Hn) as (r & d2 & En & -> & ->).
  induction fuel as [|fuel IH]; [done|]. cbn [walk_loop]. rewrite Hspc. change (seqZ 0 1) with [0].
  unfold mbind, st_bind. rewrite Es, En. by rewrite Hloop.
Qed.
(** [FS_WRITE] of two sectors of deleted marks to a free cluster makes it such a cluster:
    the allocation behind it finds the cluster itself, still marked as free.  The next
    [FS_READDIR] of it never answers, and neither does the server again. *)
Definition cycle_disk : disk :=
  run_disk (serve 9 boot_fs (mkRequest [FS_WRITE; 3; 0; 0] (replicate 1024 0xE5) 1024) [] boot_disk).
Lemma client_can_hang_server fuel buf len :
  do_readdir fuel boot_fs (mkRequest [FS_READDIR; 3; 0; 0] buf len) cycle_disk = Diverge.
Proof.
  assert (bytes_ok cycle_disk) as Hb by (apply bytes_checked; by vm_compute).
  assert (chain_next (Some (fat_value boot_fs cycle_disk 3)) = Some 3) as Hl by by vm_compute.
  assert (dir_entries (sector_slots (cluster_bytes boot_fs cycle_disk 3)) lfn_empty = ([], Some lfn_empty)) as Hs
    by by vm_compute.
  unfold do_readdir. change (u32 (byte_at (req_words _) 1)) with 3. unfold mbind, st_bind.
  rewrite walk_cycle_diverges; [done|exact boot_volume_ok|exact boot_spc|exact Hb|split; by vm_compute|exact Hl|exact Hs].
Qed.
