(* ===== verification/Uart.v ===== *)
(** The serial port: the kernel's driver ([src/src/drivers/uart.rs]) over an interface of
    the device, and what the drivers rely on of the device.

    The device is not code of the repository.  [UartDevice] is its register interface, an
    argument of every definition that touches it; [UartSpec] states what a NS16550A does
    as far as the drivers need it, over two streams: the bytes that went out, and the bytes
    that are yet to be read.  [Port] is a device with this behaviour. *)

From S2P Require Import Prelude Bytes.

Definition UART_BASE : Z := 0x10000000.
Definition RBR : Z := 0.
Definition THR : Z := 0.
Definition IER : Z := 1.
Definition FCR : Z := 2.
Definition LCR : Z := 3.
Definition MCR : Z := 4.
Definition LSR : Z := 5.

(** A byte-wide read and write of the device at an address; a read may change its state. *)
Class UartDevice (D : Type) : Type := {
  dev_read : Z → D → Z * D;
  dev_write : Z → Z → D → D;
}.

(** ** The kernel's driver *)

Record Uart : Type := mkUart { base : Z }.
Definition UART : Uart := mkUart UART_BASE.

Section driver.
Context `{UartDevice D}.

Definition read_reg (self : Uart) (offset : Z) : st D Z := λ d, Done (dev_read (base self +' offset) d).
Definition write_reg (self : Uart) (offset val : Z) : st D unit :=
  modify (dev_write (base self +' offset) val).
Definition uart_init (self : Uart) : st D unit :=
  _ ← write_reg self IER 0x00;
  _ ← write_reg self FCR 0x01;
  _ ← write_reg self LCR 0x80;
  _ ← write_reg self 0 0x0C;
  _ ← write_reg self 1 0x00;
  _ ← write_reg self LCR 0x03;
  _ ← write_reg self MCR 0x03;
  write_reg self IER 0x01.
(** [while (self.read_reg(LSR) & 0x20) == 0 {}]. *)
Fixpoint wait_thr (fuel : nat) (self : Uart) : st D unit :=
  match fuel with
  | O => diverge
  | S fuel =>
      v ← read_reg self LSR;
      if Z.land v 0x20 =? 0 then wait_thr fuel self else mret tt
  end.
Definition putc (fuel : nat) (self : Uart) (c : Z) : st D unit :=
  _ ← wait_thr fuel self;
  write_reg self THR c.
Definition has_data (self : Uart) : st D bool :=
  v ← read_reg self LSR;
  mret (negb (Z.land v 0x01 =? 0)).
Definition getc (self : Uart) : st D (option Z) :=
  b ← has_data self;
  if (b : bool) then c ← read_reg self RBR; mret (Some c) else mret None.

(** The module's functions on the global instance. *)
Definition global_init : st D unit := uart_init UART.
Definition global_putc (fuel : nat) (c : Z) : st D unit := putc fuel UART c.
Definition global_getc : st D (option Z) := getc UART.
Definition global_has_data : st D bool := has_data UART.
(** [puts]: a carriage return before each line feed. *)
Definition puts (fuel : nat) (s : list Z) : st D unit :=
  foreach s (λ c,
    _ ← (if c =? 10 then global_putc fuel 13 else mret tt);
    global_putc fuel c).
(** [print_fmt]: the pieces into which the formatting library renders the arguments, each
    through [write_str]; and [println!]. *)
Definition print_fmt (fuel : nat) (pieces : list (list Z)) : st D unit := foreach pieces (puts fuel).
Definition kernel_println (fuel : nat) (pieces : list (list Z)) : st D unit :=
  _ ← print_fmt fuel pieces; print_fmt fuel [[10]].
End driver.

(** ** The device's behaviour *)

(** [sent] and [input] are the bytes that went out and the bytes to be read, [tx_ready] and
    [rx_ready] whether a byte can be written or read now. *)
Class UartSpec (D : Type) `{UartDevice D} : Type := {
  sent : D → list Z;
  input : D → list Z;
  tx_ready : D → Prop;
  rx_ready : D → Prop;
  tx_wait : D → nat;
  tx_bound : nat;
  tx_wait_bound d : (tx_wait d <= tx_bound)%nat;
  (** Reading the line status changes neither stream; the transmitter is ready after a
      bounded number of reads; bit 0 says whether a byte can be read. *)
  lsr_sent d : sent (dev_read (UART_BASE + LSR) d).2 = sent d;
  lsr_input d : input (dev_read (UART_BASE + LSR) d).2 = input d;
  lsr_tx d : let r := dev_read (UART_BASE + LSR) d in
    if Z.land r.1 0x20 =? 0 then (tx_wait r.2 < tx_wait d)%nat else tx_ready r.2;
  lsr_rx d : let r := dev_read (UART_BASE + LSR) d in
    (rx_ready d → Z.land r.1 0x01 ≠ 0) ∧ (Z.land r.1 0x01 ≠ 0 → rx_ready r.2);
  (** A byte written to a ready transmitter goes out. *)
  thr_sent d c : tx_ready d → sent (dev_write (UART_BASE + THR) c d) = sent d ++ [c];
  thr_input d c : tx_ready d → input (dev_write (UART_BASE + THR) c d) = input d;
  (** A read of the receive buffer takes the first byte. *)
  rbr_read d : rx_ready d → ∃ c cs, input d = c :: cs ∧ is_byte c ∧
    (dev_read (UART_BASE + RBR) d).1 = c ∧ input (dev_read (UART_BASE + RBR) d).2 = cs ∧
    sent (dev_read (UART_BASE + RBR) d).2 = sent d;
}.

(** A line as it goes out: a carriage return before each line feed. *)
Definition onlcr (c : Z) : list Z := if c =? 10 then [13; 10] else [c].
Definition crlf (s : list Z) : list Z := mbind onlcr s.

Section driver_facts.
Context `{UartSpec D}.
Implicit Types (d : D).

Lemma crlf_cons c s : crlf (c :: s) = onlcr c ++ crlf s.
Proof. done. Qed.
Lemma crlf_app s s' : crlf (s ++ s') = crlf s ++ crlf s'.
Proof. apply bind_app. Qed.
(** The device's state changed only by what went out. *)
Definition after (d : D) (out : list Z) (d' : D) : Prop := sent d' = sent d ++ out ∧ input d' = input d.
Lemma after_refl d : after d [] d.
Proof. split; [by rewrite app_nil_r|done]. Qed.
Lemma after_trans d out out' d1 d2 : after d out d1 → after d1 out' d2 → after d (out ++ out') d2.
Proof. intros [H1 H2] [H3 H4]. split; [by rewrite H3, H1, <- (assoc_L (++))|congruence]. Qed.

Lemma uart_addr o : 0 ≤ o < 8 → UART_BASE +' o = UART_BASE + o.
Proof. intros Ho. unfold u64, UART_BASE. apply Z.mod_small. lia. Qed.
(** A polling loop, given what it reads: it ends with the transmitter ready. *)
Lemma wait_thr_wp (read : st D Z) (loop : nat → st D unit) :
  (∀ fuel, loop (S fuel) = (v ← read; if Z.land v 0x20 =? 0 then loop fuel else mret tt)) →
  (∀ d, read d = Done (dev_read (UART_BASE + LSR) d)) →
  ∀ fuel d (Q : unit → D → Prop), (tx_wait d < fuel)%nat →
    (∀ d', after d [] d' → tx_ready d' → Q tt d') → wp (loop fuel) Q d.
Proof.
  intros Hloop Hread fuel. induction fuel as [|fuel IH]; intros d Q Hf HQ; [lia|].
  rewrite Hloop. apply wp_bind. unfold wp at 1. rewrite Hread.
  pose proof (lsr_sent d) as Hs. pose proof (lsr_input d) as Hi. pose proof (lsr_tx d) as Ht. cbv zeta in Ht.
  destruct (dev_read (UART_BASE + LSR) d) as [v d1]. cbn [fst snd] in *.
  assert (after d [] d1) as Ha by (split; [by rewrite app_nil_r|done]).
  destruct (Z.land v 0x20 =? 0).
  - apply IH; [lia|]. intros d' Hd' Hr. apply HQ; [|done]. by apply (after_trans d [] [] d1).
  - by apply wp_ret, HQ.
Qed.
Lemma putc_wp fuel c d (Q : unit → D → Prop) :
  (tx_bound < fuel)%nat → (∀ d', after d [c] d' → Q tt d') → wp (putc fuel UART c) Q d.
Proof.
  intros Hf HQ. unfold putc. pose proof (tx_wait_bound d). apply wp_bind.
  apply (wait_thr_wp (read_reg UART LSR) (λ fuel, wait_thr fuel UART)); [done| |lia|].
  { intros d0. unfold read_reg. by rewrite uart_addr. }
  intros d' Hd' Hr. unfold write_reg. apply wp_modify. cbn [UART base]. rewrite uart_addr by done.
  apply HQ. apply (after_trans d [] [c] d'); [done|]. split; [by apply thr_sent|by apply thr_input].
Qed.
Lemma puts_wp fuel s d (Q : unit → D → Prop) :
  (tx_bound < fuel)%nat → (∀ d', after d (crlf s) d' → Q tt d') → wp (puts fuel s) Q d.
Proof.
  intros Hf HQ. unfold puts. apply (wp_foreach _ _ (λ dn d', after d (crlf dn) d')); [apply after_refl| |exact HQ].
  intros dn c rest d1 _ Hd1. rewrite crlf_app. change (crlf [c]) with (onlcr c ++ []). rewrite app_nil_r.
  apply wp_bind. unfold onlcr. destruct (Z.eqb_spec c 10) as [->|Hne].
  - apply putc_wp; [done|]. intros d2 Hd2. apply putc_wp; [done|]. intros d3 Hd3.
    apply (after_trans d _ [13; 10] d1); [done|]. by apply (after_trans d1 [13] [10] d2).
  - apply wp_ret, putc_wp; [done|]. intros d2 Hd2. by apply (after_trans d _ [c] d1).
Qed.
Lemma getc_wp d (Q : option Z → D → Prop) :
  rx_ready d → (∀ c cs d', input d = c :: cs → input d' = cs → sent d' = sent d → Q (Some c) d') →
  wp (getc UART) Q d.
Proof.
  intros Hr HQ. unfold getc, has_data. apply wp_bind, wp_bind. unfold wp at 1. unfold read_reg.
  cbn [UART base]. rewrite uart_addr by done.
  pose proof (lsr_sent d) as Hs. pose proof (lsr_input d) as Hi. pose proof (lsr_rx d) as [H1 H2]. cbv zeta in H1, H2.
  destruct (dev_read (UART_BASE + LSR) d) as [v d1]. cbn [fst snd] in *. specialize (H1 Hr).
  apply wp_ret. rewrite (proj2 (Z.eqb_neq _ 0) H1). cbn [negb].
  destruct (rbr_read d1 (H2 H1)) as (c & cs & E & _ & Ec & Ei & Es). apply wp_bind. unfold wp at 1.
  rewrite uart_addr by done. destruct (dev_read (UART_BASE + RBR) d1) as [c' d2]. cbn [fst snd] in *. subst c'.
  apply wp_ret, (HQ c cs); congruence.
Qed.
End driver_facts.

(** ** A device with this behaviour *)

(** The transmitter is busy for one read of the line status after each byte; a byte of the
    input can be read once it has arrived. *)
Record port : Type := mkPort { p_input : list Z; p_arrived : bool; p_busy : bool; p_sent : list Z }.
Definition port_ready (p : port) : bool := p_arrived p && negb (bool_decide (p_input p = [])).
Definition port_status (p : port) : Z := (if p_busy p then 0 else 0x20) + (if port_ready p then 1 else 0).
#[export] Instance port_device : UartDevice port := {
  dev_read a p :=
    if a =? UART_BASE + LSR then (port_status p, mkPort (p_input p) (p_arrived p) false (p_sent p))
    else if (a =? UART_BASE + RBR) && port_ready p then
      (u8 (hd 0 (p_input p)), mkPort (tl (p_input p)) false (p_busy p) (p_sent p))
    else (0, p);
  dev_write a c p :=
    if a =? UART_BASE + THR then mkPort (p_input p) (p_arrived p) true (p_sent p ++ [c]) else p;
}.
#[export] Instance port_spec : UartSpec port.
Proof.
  refine {| sent := p_sent; input p := u8 <$> p_input p; tx_ready p := p_busy p = false;
            rx_ready p := port_ready p = true; tx_wait p := if p_busy p then 1%nat else 0%nat; tx_bound := 1%nat |}.
  - intros [? ? [] ?]; cbn; lia.
  - done.
  - done.
  - intros [i ar busy out]. cbn. unfold port_status. cbn. generalize (port_ready (mkPort i ar busy out)) as r.
    intros r. rewrite Z.eqb_refl. destruct busy, r; cbn -[Z.land Nat.lt]; try exact eq_refl; exact (le_n 1).
  - intros [i ar busy out]. cbv zeta.
    change (dev_read (UART_BASE + LSR) _) with (port_status (mkPort i ar busy out), mkPort i ar false out).
    cbn [fst snd]. unfold port_status. change (port_ready (mkPort i ar false out)) with (port_ready (mkPort i ar busy out)).
    generalize (port_ready (mkPort i ar busy out)) as r. intros r. by destruct busy, r.
  - done.
  - done.
  - intros [i ar busy out] Hr. change (dev_read (UART_BASE + RBR) _) with
      (if port_ready (mkPort i ar busy out) then (u8 (hd 0 i), mkPort (tl i) false busy out) else (0, mkPort i ar busy out)).
    rewrite Hr. destruct i as [|c i]; [by destruct ar|]. exists (u8 c), (u8 <$> i). cbn [fst snd hd tl p_input p_sent].
    split_and!; try done. unfold is_byte, u8. by apply Z.mod_pos_bound.
Defined.
