(* ===== verification/Console.v ===== *)
(** The console server ([src/user/programs/console/src/main.rs]), standard input and output
    of the user library ([src/user/userlib/src/io.rs], over [ipc::call] of [ipc.rs]), and the
    interface between them.

    The server owns the serial port of [Uart.v].  A client sees it through [Console]: what
    a call with given words answers, and what it does to the bytes shown and to the bytes
    typed.  The clients' theorems are proved against the interface; [console_server] is its
    implementation.  That a call delivers its words to the server and the server's reply to
    the caller is the kernel's part (the IPC properties of [Contracts.v]). *)

From S2P Require Import Prelude Bytes Uart.

Definition CONSOLE_ENDPOINT : Z := 1.
Definition CONSOLE_WRITE : Z := 1.
Definition CONSOLE_READ : Z := 2.
Definition IRQ : Z := 10.

(** ** The server *)

Section server.
Context `{UartDevice D}.
(** The system call [irq_wait]. *)
Variable irq_wait : Z → st D (result unit).

Definition console_read_reg (offset : Z) : st D Z := λ d, Done (dev_read (UART_BASE + offset) d).
Definition console_write_reg (offset value : Z) : st D unit := modify (dev_write (UART_BASE + offset) value).
Fixpoint console_wait (fuel : nat) : st D unit :=
  match fuel with
  | O => diverge
  | S fuel =>
      v ← console_read_reg LSR;
      if Z.land v 0x20 =? 0 then console_wait fuel else mret tt
  end.
Definition console_putc (fuel : nat) (byte : Z) : st D unit :=
  _ ← console_wait fuel;
  console_write_reg THR byte.
Fixpoint console_getc (fuel : nat) : st D Z :=
  match fuel with
  | O => diverge
  | S fuel =>
      v ← console_read_reg LSR;
      if negb (Z.land v 0x01 =? 0) then console_read_reg RBR
      else
        r ← irq_wait IRQ;
        _ ← expect r;
        console_getc fuel
  end.
(** One turn of the loop in [main]: the words received, and the words of the reply. *)
Definition console_turn (fuel : nat) (words : list Z) : st D (list Z) :=
  if byte_at words 0 =? CONSOLE_WRITE then
    let byte := u8 (byte_at words 1) in
    _ ← (if byte =? 10 then console_putc fuel 13 else mret tt);
    _ ← console_putc fuel byte;
    mret [1; 0; 0; 0]
  else if byte_at words 0 =? CONSOLE_READ then
    c ← console_getc fuel;
    mret [if c =? 13 then 10 else c; 0; 0; 0]
  else mret [usize_max; 0; 0; 0].
End server.

(** ** The client side *)

Section io.
Context {W : Type}.
(** The system call: the registers [a0..a3] after it. *)
Variable ecall_ipc : Z → list Z → st W (list Z).

(** [ipc::call]. *)
Definition user_ipc_call (endpoint : Z) (words : list Z) : st W (result (list Z)) :=
  regs ← ecall_ipc endpoint words;
  mret (if byte_at regs 0 =? usize_max then Err else Ok regs).
(** [io::write]: the number of bytes, or -1. *)
Definition io_write (fd : Z) (buf : list Z) : st W Z :=
  if negb (fd =? 1) && negb (fd =? 2) then mret (-1)
  else
    r ← try_foreach buf (λ byte,
      _ ←? user_ipc_call CONSOLE_ENDPOINT [CONSOLE_WRITE; byte; 0; 0]; mret (Ok tt));
    mret (match r with Ok _ => Z.of_nat (length buf) | Err => -1 end).
(** [io::read] into a buffer of which [n] slots are left: the result and the bytes stored. *)
Fixpoint read_slots (n : nat) (stored : list Z) : st W (Z * list Z) :=
  match n with
  | O => mret (Z.of_nat (length stored), stored)
  | S n =>
      reply ← user_ipc_call CONSOLE_ENDPOINT [CONSOLE_READ; 0; 0; 0];
      match reply with
      | Err => mret (-1, stored)
      | Ok reply =>
          let byte := u8 (byte_at reply 0) in
          let stored := stored ++ [byte] in
          if byte =? 10 then mret (Z.of_nat (length stored), stored) else read_slots n stored
      end
  end.
Definition io_read (fd : Z) (n : nat) : st W (Z * list Z) :=
  if negb (fd =? 0) then mret (-1, []) else read_slots n [].
End io.

(** ** The interface *)

(** What a key stands for: the enter key sends a carriage return. *)
Definition icrnl (c : Z) : Z := if c =? 13 then 10 else c.

Class Console (W : Type) : Type := {
  ecall : Z → list Z → st W (list Z);
  shown : W → list Z;
  typed : W → list Z;
  console_write_law b s : is_byte b →
    wp (ecall CONSOLE_ENDPOINT [CONSOLE_WRITE; b; 0; 0])
       (λ regs s', regs = [1; 0; 0; 0] ∧ shown s' = shown s ++ onlcr b ∧ typed s' = typed s) s;
  console_read_law b bs s : typed s = b :: bs →
    wp (ecall CONSOLE_ENDPOINT [CONSOLE_READ; 0; 0; 0])
       (λ regs s', regs = [icrnl b; 0; 0; 0] ∧ is_byte b ∧ shown s' = shown s ∧ typed s' = bs) s;
}.

Section client.
Context `{Console W}.
Implicit Types (s : W) (buf : list Z).

Lemma ipc_write_wp b s (Q : result (list Z) → W → Prop) :
  is_byte b → (∀ s', shown s' = shown s ++ onlcr b → typed s' = typed s → Q (Ok [1; 0; 0; 0]) s') →
  wp (user_ipc_call ecall CONSOLE_ENDPOINT [CONSOLE_WRITE; b; 0; 0]) Q s.
Proof.
  intros Hb HQ. unfold user_ipc_call. apply wp_bind. eapply wp_mono; [by apply console_write_law|].
  intros regs s' (-> & H1 & H2). by apply wp_ret, HQ.
Qed.
Lemma io_write_wp fd buf s (Q : Z → W → Prop) :
  fd = 1 ∨ fd = 2 → Forall is_byte buf →
  (∀ s', shown s' = shown s ++ crlf buf → typed s' = typed s → Q (Z.of_nat (length buf)) s') →
  wp (io_write ecall fd buf) Q s.
Proof.
  intros Hfd Hb HQ. unfold io_write.
  assert (negb (fd =? 1) && negb (fd =? 2) = false) as -> by (by destruct Hfd as [-> | ->]).
  apply wp_bind, (wp_try_foreach _ _ (λ dn s', shown s' = shown s ++ crlf dn ∧ typed s' = typed s)).
  - cbn. by rewrite app_nil_r.
  - intros dn b rest s1 -> [H1 H2]. apply wp_try_bind, ipc_write_wp.
    { rewrite Forall_app, Forall_cons in Hb. apply Hb. }
    intros s2 H3 H4. apply wp_ret. rewrite crlf_app, H3, H1, H4, H2. split; [|done].
    change (crlf [b]) with (onlcr b ++ []). by rewrite app_nil_r, <- (assoc_L (++)).
  - intros s' [H1 H2]. by apply wp_ret, HQ.
Qed.
Lemma io_read_one_wp b bs s (Q : Z * list Z → W → Prop) :
  typed s = b :: bs →
  (∀ s', is_byte b → shown s' = shown s → typed s' = bs → Q (1, [icrnl b]) s') →
  wp (io_read ecall 0 1) Q s.
Proof.
  intros Ht HQ. unfold io_read. cbn [Z.eqb negb read_slots]. unfold user_ipc_call. apply wp_bind, wp_bind.
  eapply wp_mono; [by apply (console_read_law b bs)|]. intros regs s' (-> & Hb & H1 & H2). apply wp_ret.
  change (byte_at [icrnl b; 0; 0; 0] 0) with (icrnl b).
  assert (is_byte (icrnl b)) as Hi by (unfold icrnl; destruct (b =? 13); [done|exact Hb]).
  rewrite (proj2 (Z.eqb_neq _ usize_max)) by (unfold is_byte in Hi; unfold usize_max; lia).
  assert (u8 (byte_at [icrnl b; 0; 0; 0] 0) = icrnl b) as -> by (apply Z.mod_small; exact Hi).
  cbn [app length]. destruct (icrnl b =? 10); apply wp_ret; by apply HQ.
Qed.
End client.

(** ** The implementation *)

Section implementation.
Context `{UartSpec D}.
Variable irq_wait : Z → st D (result unit).
(** Waiting for the interrupt: once a byte has arrived, the call returns. *)
Hypothesis irq_wait_spec : ∀ d, input d ≠ [] →
  wp (irq_wait IRQ) (λ r d', r = Ok tt ∧ after d [] d' ∧ rx_ready d') d.

Lemma console_putc_wp fuel c d (Q : unit → D → Prop) :
  (tx_bound < fuel)%nat → (∀ d', after d [c] d' → Q tt d') → wp (console_putc fuel c) Q d.
Proof.
  intros Hf HQ. unfold console_putc. pose proof (tx_wait_bound d). apply wp_bind.
  apply (wait_thr_wp (console_read_reg LSR) console_wait); [done|done|lia|].
  intros d' Hd' Hr. apply wp_modify, HQ. apply (after_trans d [] [c] d'); [done|].
  split; [by apply thr_sent|by apply thr_input].
Qed.
(** A byte is there after at most one interrupt. *)
Lemma console_getc_ready fuel d (Q : Z → D → Prop) :
  rx_ready d → (0 < fuel)%nat →
  (∀ c cs d', is_byte c → input d = c :: cs → input d' = cs → sent d' = sent d → Q c d') →
  wp (console_getc irq_wait fuel) Q d.
Proof.
  intros Hr Hf HQ. destruct fuel as [|fuel]; [lia|]. cbn [console_getc]. apply wp_bind. unfold wp at 1, console_read_reg.
  pose proof (lsr_sent d) as Hs. pose proof (lsr_input d) as Hi. pose proof (lsr_rx d) as [H1 H2]. cbv zeta in H1, H2.
  destruct (dev_read (UART_BASE + LSR) d) as [v d1]. cbn [fst snd] in *. specialize (H1 Hr).
  rewrite (proj2 (Z.eqb_neq _ 0) H1). cbn [negb].
  destruct (rbr_read d1 (H2 H1)) as (c & cs & E & Hb & Ec & Ei & Es). unfold wp.
  destruct (dev_read (UART_BASE + RBR) d1) as [c' d2]. cbn [fst snd] in *. subst c'. apply (HQ c cs); congruence.
Qed.
Lemma console_getc_wp fuel c cs d (Q : Z → D → Prop) :
  input d = c :: cs → (1 < fuel)%nat →
  (∀ d', is_byte c → input d' = cs → sent d' = sent d → Q c d') →
  wp (console_getc irq_wait fuel) Q d.
Proof.
  intros Hin Hf HQ. destruct fuel as [|fuel]; [lia|]. cbn [console_getc]. apply wp_bind. unfold wp at 1. unfold console_read_reg at 1.
  pose proof (lsr_sent d) as Hs. pose proof (lsr_input d) as Hi. pose proof (lsr_rx d) as [_ H2]. cbv zeta in H2.
  destruct (dev_read (UART_BASE + LSR) d) as [v d1]. cbn [fst snd] in *.
  destruct (Z.eqb_spec (Z.land v 1) 0) as [E|E]; cbn [negb].
  - apply wp_bind. eapply wp_mono; [apply (irq_wait_spec d1); by rewrite Hi, Hin|].
    intros r d2 (-> & [Ha1 Ha2] & Hr). apply wp_bind, wp_ret, console_getc_ready; [done|lia|].
    rewrite app_nil_r in Ha1. intros c' cs' d' Hb E1 E2 E3. rewrite Ha2, Hi, Hin in E1. injection E1 as <- <-.
    apply HQ; congruence.
  - destruct (rbr_read d1 (H2 E)) as (c' & cs' & E1 & Hb & Ec & Ei & Es). unfold wp, console_read_reg.
    destruct (dev_read (UART_BASE + RBR) d1) as [c2 d2]. cbn [fst snd] in *. subst c2.
    rewrite Hi, Hin in E1. injection E1 as <- <-. apply HQ; congruence.
Qed.
(** The server behind its endpoint; a call to another endpoint is an error. *)
Definition serve_console (fuel : nat) (endpoint : Z) (words : list Z) : st D (list Z) :=
  if endpoint =? CONSOLE_ENDPOINT then console_turn irq_wait fuel words else mret [usize_max; 0; 0; 0].
Lemma console_turn_write fuel b d (Q : list Z → D → Prop) :
  (tx_bound < fuel)%nat → is_byte b → (∀ d', after d (onlcr b) d' → Q [1; 0; 0; 0] d') →
  wp (console_turn irq_wait fuel [CONSOLE_WRITE; b; 0; 0]) Q d.
Proof.
  intros Hf Hb HQ. unfold console_turn. cbn [Z.eqb CONSOLE_WRITE Pos.eqb].
  change (byte_at [CONSOLE_WRITE; b; 0; 0] 1) with b. change (byte_at [CONSOLE_WRITE; b; 0; 0] 0 =? CONSOLE_WRITE) with true.
  cbn beta iota. assert (u8 b = b) as -> by (apply Z.mod_small; exact Hb). apply wp_bind. unfold onlcr in HQ.
  destruct (Z.eqb_spec b 10) as [->|Hne].
  - apply console_putc_wp; [done|]. intros d1 H1. apply wp_bind, console_putc_wp; [done|]. intros d2 H2.
    apply wp_ret, HQ. by apply (after_trans d [13] [10] d1).
  - apply wp_ret, wp_bind, console_putc_wp; [done|]. intros d1 H1. by apply wp_ret, HQ.
Qed.
Lemma console_turn_read fuel c cs d (Q : list Z → D → Prop) :
  (1 < fuel)%nat → input d = c :: cs →
  (∀ d', is_byte c → input d' = cs → sent d' = sent d → Q [icrnl c; 0; 0; 0] d') →
  wp (console_turn irq_wait fuel [CONSOLE_READ; 0; 0; 0]) Q d.
Proof.
  intros Hf Hin HQ. unfold console_turn.
  change (byte_at [CONSOLE_READ; 0; 0; 0] 0 =? CONSOLE_WRITE) with false.
  change (byte_at [CONSOLE_READ; 0; 0; 0] 0 =? CONSOLE_READ) with true. cbn beta iota.
  apply wp_bind, (console_getc_wp fuel c cs); [done|done|]. intros d' Hb H1 H2. by apply wp_ret, HQ.
Qed.
(** The server implements the interface. *)
Definition console_server (fuel : nat) (Hfuel : (tx_bound < fuel)%nat ∧ (1 < fuel)%nat) : Console D.
Proof.
  refine {| ecall := serve_console fuel; shown := sent; typed := input |}.
  - intros b d Hb. apply console_turn_write; [apply Hfuel|done|]. intros d' [H1 H2]. done.
  - intros b bs d Hin. apply (console_turn_read fuel b bs); [apply Hfuel|done|]. done.
Defined.
End implementation.
