(* ===== verification/Shell.v ===== *)
(** The shell ([src/user/programs/shell/src/main.rs]): its line editor over the console
    interface, and the dispatch of a command as a tree of system calls. *)

From S2P Require Import Prelude Bytes Uart Console.

(** ** The line editor *)

Definition LINE_LEN : Z := 80.
Definition is_erase (byte : Z) : bool := (byte =? 0x7f) || (byte =? 8).
(** ["\x08 \x08"]. *)
Definition RUBOUT : list Z := [8; 32; 8].

Section read_line.
Context {W : Type}.
Variable ecall_ipc : Z → list Z → st W (list Z).

Fixpoint read_line_loop (fuel : nat) (buf : list Z) (len : Z) : st W (Z * list Z) :=
  match fuel with
  | O => diverge
  | S fuel =>
      if len +' 1 <? Z.of_nat (length buf) then
        r ← io_read ecall_ipc 0 1;
        if negb (r.1 =? 1) then mret (len, buf)
        else
          let byte := byte_at r.2 0 in
          if is_erase byte then
            if 0 <? len then
              _ ← io_write ecall_ipc 1 RUBOUT;
              read_line_loop fuel buf (len -' 1)
            else read_line_loop fuel buf len
          else
            w ← io_write ecall_ipc 1 [byte];
            if negb (w =? 1) then mret (len, buf)
            else if byte =? 10 then mret (len, buf)
            else
              buf ← unwrap (set_byte buf len byte);
              read_line_loop fuel buf (len +' 1)
      else mret (len, buf)
  end.
Definition read_line (fuel : nat) (buf : list Z) : st W (Z * list Z) := read_line_loop fuel buf 0.
End read_line.

(** The reference: what a line of typed keys becomes, what it shows, and the keys that
    are left; [limit] is the longest line. *)
Fixpoint edit_line (limit : nat) (line typed : list Z) : option (list Z * list Z * list Z) :=
  match typed with
  | [] => None
  | key :: typed =>
      let b := icrnl key in
      if is_erase b then
        match line with
        | [] => edit_line limit [] typed
        | _ => '(l, echo, rest) ← edit_line limit (removelast line) typed; Some (l, RUBOUT ++ echo, rest)
        end
      else if b =? 10 then Some (line, [10], typed)
      else if (length (line ++ [b]) <? limit)%nat then
        '(l, echo, rest) ← edit_line limit (line ++ [b]) typed; Some (l, b :: echo, rest)
      else Some (line ++ [b], [b], typed)
  end.

Section editing.
Context `{Console W}.
Implicit Types (s : W) (buf line : list Z).

(** The buffer holds the line at its front. *)
Definition holds buf line : Prop := length buf = Z.to_nat LINE_LEN ∧ take (length line) buf = line.
Lemma set_byte_holds buf line b :
  holds buf line → (length line < Z.to_nat LINE_LEN)%nat →
  ∃ buf', set_byte buf (Z.of_nat (length line)) b = Some buf' ∧ holds buf' (line ++ [b]).
Proof.
  intros [H1 H2] Hl. unfold set_byte. rewrite copy_into_Some by (cbn; lia). eexists. split; [done|].
  rewrite Nat2Z.id, H2. split.
  - rewrite !length_app, length_drop. cbn. lia.
  - rewrite (assoc_L (++)), take_app_le by lia. by rewrite take_ge.
Qed.
Lemma holds_removelast buf line : holds buf line → holds buf (removelast line).
Proof.
  intros [H1 H2]. split; [done|]. destruct (decide (line = [])) as [->|Hne]; [done|].
  rewrite (app_removelast_last 0 Hne) in H2. rewrite length_app in H2. cbn in H2.
  apply (f_equal (take (length (removelast line)))) in H2.
  rewrite take_take, Nat.min_l, take_app_length in H2 by lia. exact H2.
Qed.
Lemma length_removelast line : line ≠ [] → Z.of_nat (length (removelast line)) = Z.of_nat (length line) - 1.
Proof.
  intros Hne. pose proof (f_equal length (app_removelast_last 0 Hne)) as E. rewrite length_app in E. cbn in E. lia.
Qed.
Lemma read_line_loop_wp fuel : ∀ line buf s (Q : Z * list Z → W → Prop) out echo rest,
  holds buf line → (length line < 79)%nat → (length (typed s) < fuel)%nat →
  edit_line 79 line (typed s) = Some (out, echo, rest) →
  (∀ buf' s', holds buf' out → (length out <= 79)%nat → shown s' = shown s ++ crlf echo → typed s' = rest →
     Q (Z.of_nat (length out), buf') s') →
  wp (read_line_loop ecall fuel buf (Z.of_nat (length line))) Q s.
Proof.
  induction fuel as [|fuel IH]; intros line buf s Q out echo rest Hb Hl Hf He HQ; [lia|].
  pose proof Hb as [Hlen _]. unfold LINE_LEN in Hlen. cbn [read_line_loop].
  assert (Z.of_nat (length line) +' 1 = Z.of_nat (length line) + 1) as -> by (unfold u64; apply Z.mod_small; lia).
  rewrite (proj2 (Z.ltb_lt _ _)) by lia.
  destruct (typed s) as [|key keys] eqn:Et; [done|]. cbn [edit_line] in He. cbn [length] in Hf.
  apply wp_bind, (io_read_one_wp key keys); [done|]. intros s1 Hkey Hs1 Ht1. cbn [fst snd Z.eqb Pos.eqb negb].
  change (byte_at [icrnl key] 0) with (icrnl key).
  assert (is_byte (icrnl key)) as Hby by (unfold icrnl; destruct (key =? 13); [done|exact Hkey]).
  destruct (is_erase (icrnl key)).
  - destruct line as [|x line].
    + cbn [length Z.of_nat Z.ltb Z.compare]. apply (IH [] buf s1 Q out echo rest);
        [done|cbn; lia|rewrite Ht1; lia|by rewrite Ht1|]. intros buf' s' H1 H2 H3 H4. apply HQ; [done|done| |done].
      by rewrite H3, Hs1.
    + set (l := x :: line) in *. assert (l ≠ []) as Hne by done. pose proof (length_removelast l Hne) as Hrl.
      rewrite (proj2 (Z.ltb_lt 0 _)) by (cbn; lia).
      destruct (edit_line 79 (removelast l) keys) as [[[out' echo'] rest']|] eqn:E; [|done].
      injection He as <- <- <-. apply wp_bind, io_write_wp; [by left|by repeat (constructor; [done|])|].
      intros s2 Hs2 Ht2.
      assert (Z.of_nat (length l) -' 1 = Z.of_nat (length (removelast l))) as ->
        by (rewrite Hrl; unfold u64; apply Z.mod_small; cbn; cbn in Hl; lia).
      apply (IH _ _ _ _ out' echo' rest'); [by apply holds_removelast|lia|rewrite Ht2, Ht1; lia|by rewrite Ht2, Ht1|].
      intros buf' s' H1 H2 H3 H4. apply HQ; [done|done| |done].
      by rewrite H3, Hs2, Hs1, <- (assoc_L (++)).
  - apply wp_bind, io_write_wp; [by left|by constructor|]. intros s2 Hs2 Ht2. cbn [length Z.of_nat Z.eqb Pos.of_succ_nat Pos.eqb negb].
    destruct (Z.eqb_spec (icrnl key) 10) as [E10|Hne].
    + injection He as <- <- <-. apply wp_ret, HQ; [done|lia| |congruence]. by rewrite Hs2, Hs1, E10.
    + destruct (set_byte_holds buf line (icrnl key) Hb ltac:(unfold LINE_LEN; lia)) as (buf2 & -> & Hb2).
      apply wp_bind, wp_ret.
      assert (Z.of_nat (length line) + 1 = Z.of_nat (length (line ++ [icrnl key]))) as ->
        by (rewrite length_app; cbn [length]; lia).
      assert (shown s2 = shown s ++ crlf [icrnl key]) as Hs by (by rewrite Hs2, Hs1).
      destruct (length (line ++ [icrnl key]) <? 79)%nat eqn:Elt.
      * destruct (edit_line 79 (line ++ [icrnl key]) keys) as [[[out' echo'] rest']|] eqn:E; [|done].
        injection He as <- <- <-. apply Nat.ltb_lt in Elt.
        apply (IH _ _ _ _ out' echo' rest'); [done|done|rewrite Ht2, Ht1; lia|by rewrite Ht2, Ht1|].
        intros buf' s' H1 H2 H3 H4. apply HQ; [done|done| |done].
        rewrite H3, Hs, <- (assoc_L (++)), <- crlf_app. done.
      * apply Nat.ltb_ge in Elt. injection He as <- <- <-. rewrite length_app in Elt. cbn [length] in Elt.
        destruct fuel as [|fuel]; [lia|]. cbn [read_line_loop]. pose proof Hb2 as [Hl2 _]. unfold LINE_LEN in Hl2.
        assert ((Z.of_nat (length (line ++ [icrnl key])) +' 1 <? Z.of_nat (length buf2)) = false) as ->.
        { apply Z.ltb_ge. rewrite length_app. cbn [length]. unfold u64. rewrite Z.mod_small by lia. lia. }
        apply wp_ret, HQ; [done|rewrite length_app; cbn; lia|done|congruence].
Qed.
End editing.
