(* ===== verification/Terminal.v ===== *)
(** The terminal end to end: standard output and the shell's line editor, through the console
    server, on the serial port. *)

From S2P Require Import Prelude Bytes Uart Console Shell.

(** The interrupt of [Uart.port]: the next byte has arrived. *)
Definition port_irq_wait (irq : Z) : st port (result unit) := λ p,
  Done (Ok tt, mkPort (p_input p) true (p_busy p) (p_sent p)).
Lemma port_irq_wait_spec (p : port) :
  input p ≠ [] → wp (port_irq_wait IRQ) (λ r p', r = Ok tt ∧ after p [] p' ∧ rx_ready p') p.
Proof.
  intros Hin. unfold wp, port_irq_wait. split; [done|]. split; [split; [by rewrite app_nil_r|done]|].
  cbn in Hin |- *. unfold port_ready. cbn. destruct (p_input p); [done|done].
Qed.

Section terminal.
Context `{UartSpec D}.
Variable irq_wait : Z → st D (result unit).
Hypothesis irq_wait_spec : ∀ d, input d ≠ [] →
  wp (irq_wait IRQ) (λ r d', r = Ok tt ∧ after d [] d' ∧ rx_ready d') d.
Variable fuel : nat.
Hypothesis Hfuel : (tx_bound < fuel)%nat ∧ (1 < fuel)%nat.

(** [C39] Standard output through the console server: [io::write] of any bytes to descriptor
    1 or 2 sends exactly these bytes out of the serial port, in order, with a carriage
    return before each line feed, and returns their number; nothing of the input is lost.
    It holds for every device that behaves as [UartSpec] says. *)
Theorem console_write_correct fd buf d :
  fd = 1 ∨ fd = 2 → Forall is_byte buf →
  wp (io_write (serve_console irq_wait fuel) fd buf)
     (λ n d', n = Z.of_nat (length buf) ∧ sent d' = sent d ++ crlf buf ∧ input d' = input d) d.
Proof.
  intros Hfd Hb.
  exact (@io_write_wp D (console_server irq_wait irq_wait_spec fuel Hfuel) fd buf d _ Hfd Hb
           (λ s' H1 H2, conj eq_refl (conj H1 H2))).
Qed.

(** [C40] The shell's line editor, through the console server: for any keys typed, [read_line]
    returns the line the reference editor makes of them -- erase keys remove the last
    character, the enter key ends the line, a full line ends by itself -- echoes what the
    reference shows, consumes exactly the keys of the line and never writes outside of its
    80 bytes. *)
Theorem read_line_correct n buf d line echo rest :
  length buf = Z.to_nat LINE_LEN → (length (input d) < n)%nat →
  edit_line 79 [] (input d) = Some (line, echo, rest) →
  wp (read_line (serve_console irq_wait fuel) n buf)
     (λ r d', r.1 = Z.of_nat (length line) ∧ length r.2 = Z.to_nat LINE_LEN ∧ take (length line) r.2 = line ∧
        (length line <= 79)%nat ∧ sent d' = sent d ++ crlf echo ∧ input d' = rest) d.
Proof.
  intros Hl Hn He. unfold read_line.
  refine (@read_line_loop_wp D (console_server irq_wait irq_wait_spec fuel Hfuel) n [] buf d _ line echo rest
            (conj Hl eq_refl) _ Hn He _); [cbn; lia|].
  intros buf' s' [H1 H2] H3 H4 H5. done.
Qed.
End terminal.

(** "ok" and a line feed. *)
Lemma console_write_correct_witness :
  ∃ p', io_write (serve_console port_irq_wait 9) 1 [111; 107; 10] (mkPort [] false false []) = Done (3, p') ∧
    p_sent p' = [111; 107; 13; 10].
Proof.
  pose proof (console_write_correct port_irq_wait port_irq_wait_spec 9 ltac:(cbn; lia) 1 [111; 107; 10]
    (mkPort [] false false []) ltac:(by left) ltac:(by repeat (constructor; [done|]))) as H.
  destruct (proj1 (wp_Done _ _ _) H) as (n & p' & E & -> & Hs & _). exists p'. split; [exact E|exact Hs].
Defined.
(** The keys "pw", erase, "s", enter. *)
Lemma read_line_correct_witness :
  ∃ buf p', read_line (serve_console port_irq_wait 9) 9 (replicate 80 0) (mkPort [112; 119; 127; 115; 13] false false [])
    = Done (2, buf, p') ∧ take 2 buf = [112; 115].
Proof.
  pose proof (read_line_correct port_irq_wait port_irq_wait_spec 9 ltac:(cbn; lia) 9 (replicate 80 0)
    (mkPort [112; 119; 127; 115; 13] false false []) [112; 115] [112; 119; 8; 32; 8; 115; 10] []
    ltac:(by vm_compute) ltac:(cbn; lia) ltac:(by vm_compute)) as H.
  destruct (proj1 (wp_Done _ _ _) H) as ([n buf] & p' & E & H1 & _ & H2 & _). cbn [fst snd] in *. subst n.
  exists buf, p'. split; [exact E|exact H2].
Defined.
