(* ===== verification/Samples.v ===== *)
(** Printing in the user library ([print.rs] of [src/user/userlib/src]) and the sample programs
    [hello] and [test].

    The formatting library renders the arguments of [print!] into pieces, which are the argument
    of the definitions here; each piece goes through [io::write]. *)

From S2P Require Import Text Userlib Prelude Bytes Uart Console.

Section print.
Context {W : Type}.
Variable ecall_ipc : Z → list Z → st W (list Z).

(** [UserWriter::write_str]: a piece is written in full or the printing ends. *)
Definition user_write_str (text : list Z) : st W (result unit) :=
  n ← io_write ecall_ipc 1 text;
  mret (if n =? Z.of_nat (length text) then Ok tt else Err).
(** [_print] drops the result. *)
Definition user_print (pieces : list (list Z)) : st W unit :=
  _ ← try_foreach pieces user_write_str; mret tt.
Definition user_println (pieces : list (list Z)) : st W unit := user_print (pieces ++ [[10]]).

Definition hello_main : st W unit := user_println [str "Hello from Rust hello program!"].
Definition test_main : st W unit := user_println [str "Test"].
End print.

(** ** Over the interface of the console *)

Section client.
Context `{Console W}.
Implicit Types (s : W).

Lemma user_write_str_wp text s (Q : result unit → W → Prop) :
  Forall is_byte text →
  (∀ s', shown s' = shown s ++ crlf text → typed s' = typed s → Q (Ok tt) s') →
  wp (user_write_str ecall text) Q s.
Proof.
  intros Hb HQ. apply wp_bind, io_write_wp; [by left|done|]. intros s' H1 H2.
  apply wp_ret. rewrite Z.eqb_refl. by apply HQ.
Qed.
Lemma user_print_wp pieces s (Q : unit → W → Prop) :
  Forall (Forall is_byte) pieces →
  (∀ s', shown s' = shown s ++ crlf (concat pieces) → typed s' = typed s → Q tt s') →
  wp (user_print ecall pieces) Q s.
Proof.
  intros Hb HQ.
  apply wp_bind, (wp_try_foreach _ _ (λ dn s', shown s' = shown s ++ crlf (concat dn) ∧ typed s' = typed s)).
  - cbn. by rewrite app_nil_r.
  - intros dn text rest s1 -> [H1 H2]. rewrite Forall_app, Forall_cons in Hb.
    apply user_write_str_wp; [apply Hb|]. intros s2 H3 H4. cbn. rewrite concat_app, crlf_app. cbn [concat].
    by rewrite app_nil_r, H3, H1, H4, H2, <- (assoc_L (++)).
  - intros s' [H1 H2]. by apply wp_ret, HQ.
Qed.
End client.

(** The two programs, through the console server on a serial port. *)
Section samples.
Context `{UartSpec D}.
Variable irq_wait : Z → st D (result unit).
Hypothesis irq_wait_spec : ∀ d, input d ≠ [] →
  wp (irq_wait IRQ) (λ r d', r = Ok tt ∧ after d [] d' ∧ rx_ready d') d.
Variable fuel : nat.
Hypothesis Hfuel : (tx_bound < fuel)%nat ∧ (1 < fuel)%nat.

(** A program that prints one line: the line is sent, and the program exits with code 0. *)
Lemma sample_output line d :
  Forall is_byte line →
  let run := user_println (serve_console irq_wait fuel) [line] d in
  user_main_status run = Some 0 ∧ ∃ d', run = Done (tt, d') ∧ after d (crlf line ++ [13; 10]) d'.
Proof.
  intros Hb run.
  assert (wp (user_println (serve_console irq_wait fuel) [line]) (λ _ d', after d (crlf line ++ [13; 10]) d') d) as Hwp.
  { refine (@user_print_wp D (console_server irq_wait irq_wait_spec fuel Hfuel) [line; [10]] d _ _ _).
    - by repeat constructor.
    - intros s' H1 H2. cbn [concat] in H1. by rewrite app_nil_r, crlf_app in H1. }
  apply wp_Done in Hwp as ([] & d' & E & Hd'). unfold run. rewrite E. split; [done|]. by exists d'.
Qed.
Lemma hello_correct d :
  let run := hello_main (serve_console irq_wait fuel) d in
  user_main_status run = Some 0 ∧
  ∃ d', run = Done (tt, d') ∧ after d (str "Hello from Rust hello program!" ++ [13; 10]) d'.
Proof. apply (sample_output (str "Hello from Rust hello program!")). by repeat constructor. Qed.
Lemma test_correct d :
  let run := test_main (serve_console irq_wait fuel) d in
  user_main_status run = Some 0 ∧ ∃ d', run = Done (tt, d') ∧ after d (str "Test" ++ [13; 10]) d'.
Proof. apply (sample_output (str "Test")). by repeat constructor. Qed.
End samples.
