(* ===== verification/Command.v ===== *)
(** The shell's commands ([main] of [src/user/programs/shell/src/main.rs]): what a line
    means, as a tree of system calls and output whose branches are the answers of the
    kernel. *)

From Stdlib Require Import String Ascii.
From S2P Require Import Prelude Bytes Initrd Shell.

(** ** Text *)

(** The bytes of a literal. *)
Definition text (s : String.string) : list Z :=
  (λ c, Z.of_N (Ascii.N_of_ascii c)) <$> String.list_ascii_of_string s.
Notation "'txt' s" := (text s%string) (at level 10, s at level 9, only parsing).

(** The bytes of a white-space character at the front (Unicode's White_Space). *)
Definition white_front (bs : list Z) : option (list Z) :=
  match bs with
  | b0 :: bs0 =>
      if ((9 <=? b0) && (b0 <=? 13)) || (b0 =? 32) then Some bs0
      else match bs0 with
      | b1 :: bs1 =>
          if (b0 =? 0xC2) && ((b1 =? 0x85) || (b1 =? 0xA0)) then Some bs1
          else match bs1 with
          | b2 :: bs2 =>
              if ((b0 =? 0xE1) && (b1 =? 0x9A) && (b2 =? 0x80)) ||
                 ((b0 =? 0xE2) && (b1 =? 0x80) && (((0x80 <=? b2) && (b2 <=? 0x8A)) || (b2 =? 0xA8) || (b2 =? 0xA9) || (b2 =? 0xAF))) ||
                 ((b0 =? 0xE2) && (b1 =? 0x81) && (b2 =? 0x9F)) ||
                 ((b0 =? 0xE3) && (b1 =? 0x80) && (b2 =? 0x80))
              then Some bs2 else None
          | [] => None
          end
      | [] => None
      end
  | [] => None
  end.
(** The first character: one byte and its continuation bytes. *)
Fixpoint continuation (bs : list Z) : list Z * list Z :=
  match bs with
  | b :: bs' => if (0x80 <=? b) && (b <? 0xC0) then let r := continuation bs' in (b :: r.1, r.2) else ([], bs)
  | [] => ([], [])
  end.
(** [str::trim]: the text between the first and the last character that is not white. *)
Fixpoint trim_front (fuel : nat) (bs : list Z) : list Z :=
  match fuel with
  | O => bs
  | S fuel => match white_front bs with Some bs => trim_front fuel bs | None => bs end
  end.
Fixpoint trim_back (fuel : nat) (bs : list Z) : list Z :=
  match fuel with
  | O => []
  | S fuel =>
      if bool_decide (trim_front (List.length bs) bs = []) then []
      else match bs with
           | [] => []
           | b :: bs => let r := continuation bs in b :: r.1 ++ trim_back fuel r.2
           end
  end.
Definition trim (bs : list Z) : list Z :=
  let bs := trim_front (List.length bs) bs in trim_back (List.length bs) bs.
Definition starts_with (pat bs : list Z) : bool := bool_decide (take (List.length pat) bs = pat).

(** [str::parse::<u32>]: digits with an optional plus sign, and an overflow check. *)
Fixpoint parse_digits (v : Z) (bs : list Z) : option Z :=
  match bs with
  | [] => Some v
  | b :: bs =>
      if (48 <=? b) && (b <=? 57) then
        let v := v * 10 + (b - 48) in
        if v <? 2 ^ 32 then parse_digits v bs else None
      else None
  end.
Definition parse_u32 (bs : list Z) : option Z :=
  match bs with
  | [] => None
  | b :: bs' =>
      if b =? 43 then match bs' with [] => None | _ => parse_digits 0 bs' end
      else parse_digits 0 bs
  end.
(** Formatting a number with [{}]; [fuel] bounds the digits. *)
Fixpoint digits (fuel : nat) (n : Z) : list Z :=
  match fuel with
  | O => []
  | S fuel => (if n <? 10 then [] else digits fuel (n / 10)) ++ [48 + n mod 10]
  end.
Definition show_int (n : Z) : list Z := if n <? 0 then 45 :: digits 20 (- n) else digits 20 n.

(** ** Commands *)

Inductive op : Type :=
  | GetPid | Ps | YieldNow | Fork
  | Exec (name : list Z)
  | WaitPid (pid : Z)
  | Out (s : list Z).
(** What the shell does next: back to the prompt, the end of the process, a panic, or an
    operation and the rest depending on its answer. *)
Inductive act : Type :=
  | Prompt
  | Exit (code : Z)
  | Panicked
  | Do (o : op) (k : Z → act).
Definition out (s : list Z) (a : act) : act := Do (Out (s ++ [10])) (λ _, a).
Fixpoint outs (ss : list (list Z)) (a : act) : act :=
  match ss with
  | [] => a
  | s :: ss => out s (outs ss a)
  end.
Definition SYS_ERROR : Z := -1.

Definition help_text : list (list Z) :=
  [ txt "available commands:"; txt "  help      - show this help"; txt "  hello     - print hello message";
    txt "  about     - about this OS"; txt "  pid       - show current process ID";
    txt "  ps        - list all processes"; txt "  yield     - yield CPU to other tasks";
    txt "  fork      - fork a child process"; txt "  exec NAME - replace shell with program (no return)";
    txt "  COMMAND   - fork+exec+wait (e.g. hello, linked-list-test)";
    txt "  wait PID  - wait for and reap a child"; txt "  exit      - exit the shell" ].
Definition about_text : list (list Z) :=
  [ txt "nekos - Minimal RISC-V Operating System"; txt "Written in Rust"; txt "Features:";
    txt "  - Sv39 virtual memory"; txt "  - Preemptive scheduling"; txt "  - User-mode processes";
    txt "  - User-mode Console Server over IPC" ].
Definition do_fork : act :=
  Do Fork (λ pid,
    if pid =? 0 then
      Do GetPid (λ me, out (txt "[child] pid=" ++ show_int me ++ txt " hello!") (Exit 0))
    else if pid =? SYS_ERROR then out (txt "fork failed") Prompt
    else out (txt "[parent] forked child pid=" ++ show_int pid) Prompt).
Definition do_exectest : act :=
  Do Fork (λ pid,
    if pid =? 0 then
      Do (Exec (txt "hello")) (λ r,
        if r =? SYS_ERROR then out (txt "[child] exec failed") (Exit 1) else Prompt)
    else if pid =? SYS_ERROR then out (txt "fork failed") Prompt
    else
      out (txt "[parent] waiting for child pid=" ++ show_int pid)
        (Do (WaitPid (u32 pid)) (λ code, out (txt "[parent] child exited with code=" ++ show_int code) Prompt))).
Definition do_exec (name : list Z) : act :=
  Do (Exec name) (λ r,
    if r =? SYS_ERROR then out (txt "exec: failed to run '" ++ name ++ txt "'") Prompt else Prompt).
Definition do_wait (arg : list Z) : act :=
  match parse_u32 arg with
  | Some pid =>
      Do (WaitPid pid) (λ code,
        if code <? 0 then out (txt "wait: pid " ++ show_int pid ++ txt " is not a child") Prompt
        else out (txt "wait: child " ++ show_int pid ++ txt " exited with code=" ++ show_int code) Prompt)
  | None => out (txt "usage: wait PID") Prompt
  end.
(** Any other name: the program is run in a child. *)
Definition do_program (cmd : list Z) : act :=
  Do Fork (λ pid,
    if pid =? 0 then
      Do (Exec cmd) (λ r,
        if r =? SYS_ERROR then out (cmd ++ txt ": command not found") (Exit 127) else Panicked)
    else if pid =? SYS_ERROR then out (txt "fork failed") Prompt
    else Do (WaitPid (u32 pid)) (λ code, if code <? 0 then out (txt "waitpid failed") Prompt else Prompt)).
Definition run_command (cmd : list Z) : act :=
  let named (s : list Z) := bool_decide (cmd = s) in
  if named (txt "help") then outs help_text Prompt
  else if named (txt "hello") then out (txt "Hello from nekos Shell!") Prompt
  else if named (txt "about") then outs about_text Prompt
  else if named (txt "pid") then Do GetPid (λ pid, out (txt "current pid: " ++ show_int pid) Prompt)
  else if named (txt "ps") then out (txt "process list:") (Do Ps (λ _, Prompt))
  else if named (txt "yield") then
    out (txt "yielding CPU...") (Do YieldNow (λ _, out (txt "resumed after yield") Prompt))
  else if named (txt "fork") then do_fork
  else if named (txt "exectest") then do_exectest
  else if named (txt "exit") then out (txt "goodbye!") (Exit 0)
  else if starts_with (txt "exec ") cmd then do_exec (trim (drop 5 cmd))
  else if starts_with (txt "wait ") cmd then do_wait (trim (drop 5 cmd))
  else do_program cmd.
(** A line that [read_line] returned; an empty one is ignored. *)
Definition run_line (line : list Z) : act :=
  match line with
  | [] => Prompt
  | _ => run_command (trim (if utf8_ok line then line else []))
  end.

(** ** What a command does *)

(** A number printed and parsed again. *)
Lemma parse_digits_app v a b : parse_digits v (a ++ b) = (parse_digits v a ≫= λ v, parse_digits v b).
Proof.
  revert v. induction a as [|x a IH]; intros v; [done|]. cbn. destruct (_ && _); [|done].
  destruct (_ <? _); [apply IH|done].
Qed.
Lemma parse_shown fuel n : 0 ≤ n < 2 ^ 32 → n < 10 ^ Z.of_nat fuel → parse_digits 0 (digits fuel n) = Some n.
Proof.
  revert n. induction fuel as [|fuel IH]; intros n Hn Hf; [change (10 ^ Z.of_nat 0) with 1 in Hf; cbn; f_equal; lia|].
  rewrite Nat2Z.inj_succ, Z.pow_succ_r in Hf by lia. cbn [digits].
  pose proof (Z.div_mod n 10 ltac:(lia)). pose proof (Z.mod_pos_bound n 10 ltac:(lia)).
  assert (∀ v, v = n / 10 → parse_digits v [48 + n mod 10] = Some n) as Hlast.
  { intros v ->. cbn. rewrite (proj2 (Z.leb_le 48 _)), (proj2 (Z.leb_le _ 57)) by lia. cbn [andb].
    replace (n / 10 * 10 + (48 + n mod 10 - 48)) with n by lia. by rewrite (proj2 (Z.ltb_lt _ _)) by lia. }
  destruct (Z.ltb_spec n 10); cbn [app].
  - apply Hlast. lia.
  - rewrite parse_digits_app, IH; [by apply Hlast|split; [|]; lia|lia].
Qed.
(** Every pid that [fork] reports can be given to [wait]. *)
Lemma wait_accepts_shown_pid pid : 0 ≤ pid < 2 ^ 32 → parse_u32 (show_int pid) = Some pid.
Proof.
  intros Hp. unfold show_int. rewrite (proj2 (Z.ltb_ge pid 0)) by lia.
  assert (parse_digits 0 (digits 20 pid) = Some pid) as Hd by (apply parse_shown; lia).
  destruct (digits 20 pid) as [|b bs] eqn:E; [cbn [digits] in E; by apply app_nil in E as [_ ?]|]. unfold parse_u32.
  destruct (Z.eqb_spec b 43) as [->|]; [done|exact Hd].
Qed.
