(* ===== verification/SerialCalls.v ===== *)
(** The kernel's use of the serial port: the process list ([list_all] of [task.rs]), and the system
    calls [sys_write] and [sys_read] of [syscall.rs], which are marked deprecated and which no
    branch of the dispatcher reaches.  The state is the kernel's and the device's. *)

From S2P Require Import Text Prelude Bytes Arch Page Memory Machine Pgtable Vm Trap Ipc Task Space Sched Inv IpcFacts Buffers BufferCalls Initrd Exec Kernel Traps Uart.

Section calls.
Context `{UartDevice D}.

(** ** The process list *)

Definition state_name (s : TaskState) : list Z :=
  match s with
  | Unused => str "UNUSED" | Ready => str "READY" | Running => str "RUNNING"
  | Sleeping => str "SLEEPING" | Zombie => str "ZOMBIE"
  end.
(** [{:<6} {:<6} {:<12} 0x{:08x} 0x{:08x}]. *)
Definition list_line (t : Task) : list Z :=
  let kind := if pid t =? IDLE_PID then str "IDLE" else str "USER" in
  let stack_top := if pid t =? IDLE_PID then kernel_stack t +' PAGE_SIZE -' 16 else USER_STACK_TOP in
  pad_right 6 (fmt_dec (pid t)) ++ [32] ++ pad_right 6 kind ++ [32] ++ pad_right 12 (state_name (state t)) ++
  str " 0x" ++ fmt_08x (entry t) ++ str " 0x" ++ fmt_08x stack_top.
Definition list_all (fuel : nat) (self : TaskManager) : st D unit :=
  _ ← kernel_println fuel [str "PID    TYPE   STATE        ENTRY      STACK_TOP "];
  _ ← kernel_println fuel [str "------ ------ ------------ ---------- ----------"];
  _ ← foreach (omap id (tasks self)) (λ t, kernel_println fuel [list_line t]);
  kernel_println fuel [str "total: "; fmt_dec (runnable_count self); str " runnable"].

(** ** The two system calls *)

Definition on_kernel {A} (m : K A) : st (kernel * D) A := λ s,
  match m s.1 with
  | Done (a, k) => Done (a, (k, s.2))
  | Panic => Panic
  | Diverge => Diverge
  end.
Definition on_uart {A} (m : st D A) : st (kernel * D) A := λ s,
  match m s.2 with
  | Done (a, d) => Done (a, (s.1, d))
  | Panic => Panic
  | Diverge => Diverge
  end.
(** [list_all] of the module: it unwraps the manager. *)
Definition global_list_all (fuel : nat) : st (kernel * D) unit :=
  m ← on_kernel (locked panic (get_self (λ m, m)));
  on_uart (list_all fuel m).

(** A byte goes out, with a carriage return before a line feed. *)
Definition echo (fuel : nat) (c : Z) : st (kernel * D) unit :=
  _ ← (if c =? 10 then on_uart (global_putc fuel 13) else mret tt);
  on_uart (global_putc fuel c).
Definition sys_write_byte (fuel : nat) (buf i : Z) : st (kernel * D) (result unit) :=
  o ← on_kernel (task_translate_user (buf +' i));
  match o with
  | None => mret Err
  | Some pa =>
      c ← on_kernel (on_machine (gets (λ h, load8 (mem h) pa)));
      _ ← echo fuel c;
      mret (Ok tt)
  end.
Definition sys_write (fuel : nat) (fd buf len : Z) : st (kernel * D) Z :=
  if negb (fd =? 1) && negb (fd =? 2) then mret usize_max
  else
    r ← try_foreach (seqZ 0 len) (sys_write_byte fuel buf);
    mret (match r with Ok _ => len | Err => usize_max end).

(** The loop of [sys_read], at index [i]; [fuel] bounds its turns, [tx] the waits of the
    transmitter.  [None]: a byte of the buffer is not mapped. *)
Fixpoint sys_read_loop (fuel tx : nat) (buf len i : Z) : st (kernel * D) (option Z) :=
  match fuel with
  | O => diverge
  | S fuel =>
      if i +' 1 <? len then
        o ← on_uart global_getc;
        match o with
        | None => sys_read_loop fuel tx buf len i
        | Some c =>
            let c := if c =? 13 then 10 else c in
            if (c =? 0x7f) || (c =? 8) then
              if 0 <? i then
                _ ← on_uart (puts tx [8; 32; 8]);
                sys_read_loop fuel tx buf len (i -' 1)
              else sys_read_loop fuel tx buf len i
            else
              pa ←! on_kernel (task_translate_user (buf +' i));
              _ ← on_kernel (on_machine (modify (set_mem (λ m, store8 m pa c))));
              _ ← echo tx c;
              let i := i +' 1 in
              if c =? 10 then mret (Some i) else sys_read_loop fuel tx buf len i
        end
      else mret (Some i)
  end.
Definition sys_read (fuel tx : nat) (fd buf len : Z) : st (kernel * D) Z :=
  if negb (fd =? 0) then mret usize_max
  else if len =? 0 then mret 0
  else
    o ← sys_read_loop fuel tx buf len 0;
    match o with
    | None => mret usize_max
    | Some i =>
        t ← on_kernel (task_translate_user (buf +' i));
        match t with
        | None => mret usize_max
        | Some pa =>
            _ ← on_kernel (on_machine (modify (set_mem (λ m, store8 m pa 0))));
            mret i
        end
    end.
End calls.

(** ** What they do *)

Section facts.
Context `{UartSpec D}.
Implicit Types (d : D) (s : tsys) (t : Task).

Lemma wp_on_uart {A} (m : st D A) (Q : A → kernel * D → Prop) k d :
  wp m (λ a d', Q a (k, d')) d → wp (on_uart m) Q (k, d).
Proof. unfold wp, on_uart. cbn [snd fst]. by destruct (m d) as [[]| |]. Qed.
Lemma wp_on_kernel {A} (m : K A) (Q : A → kernel * D → Prop) k d :
  wp m (λ a k', Q a (k', d)) k → wp (on_kernel m) Q (k, d).
Proof. unfold wp, on_kernel. cbn [snd fst]. by destruct (m k) as [[]| |]. Qed.

Lemma print_fmt_wp fuel pieces d (Q : unit → D → Prop) :
  (tx_bound < fuel)%nat → (∀ d', after d (crlf (concat pieces)) d' → Q tt d') → wp (print_fmt fuel pieces) Q d.
Proof.
  intros Hf HQ. apply (wp_foreach _ _ (λ dn d', after d (crlf (concat dn)) d')); [apply after_refl| |exact HQ].
  intros dn x rest d1 _ Hd1. apply puts_wp; [done|]. intros d2 Hd2.
  rewrite concat_app, crlf_app. cbn [concat]. rewrite app_nil_r. by apply (after_trans d _ _ d1).
Qed.
Lemma kernel_println_wp fuel pieces d (Q : unit → D → Prop) :
  (tx_bound < fuel)%nat → (∀ d', after d (crlf (concat pieces ++ [10])) d' → Q tt d') →
  wp (kernel_println fuel pieces) Q d.
Proof.
  intros Hf HQ. apply wp_bind, print_fmt_wp; [done|]. intros d1 Hd1. apply print_fmt_wp; [done|]. intros d2 Hd2.
  apply HQ. rewrite crlf_app. by apply (after_trans d _ _ d1).
Qed.
(** The process list has two lines of header, one line per task of the table, in the order of
    the slots, and the total; reading keys is not affected. *)
Definition list_text (m : TaskManager) : list Z :=
  str "PID    TYPE   STATE        ENTRY      STACK_TOP " ++ [10] ++
  str "------ ------ ------------ ---------- ----------" ++ [10] ++
  concat ((λ t, list_line t ++ [10]) <$> omap id (tasks m)) ++
  str "total: " ++ fmt_dec (runnable_count m) ++ str " runnable" ++ [10].
Lemma list_all_wp fuel m d (Q : unit → D → Prop) :
  (tx_bound < fuel)%nat → (∀ d', after d (crlf (list_text m)) d' → Q tt d') → wp (list_all fuel m) Q d.
Proof.
  intros Hf HQ. unfold list_all. apply wp_bind, kernel_println_wp; [done|]. intros d1 Hd1.
  apply wp_bind, kernel_println_wp; [done|]. intros d2 Hd2. apply wp_bind.
  apply (wp_foreach _ _ (λ dn d', after d2 (crlf (concat ((λ t, list_line t ++ [10]) <$> dn))) d')).
  - apply after_refl.
  - intros dn t rest d3 _ Hd3. apply kernel_println_wp; [done|]. intros d4 Hd4.
    rewrite fmap_app, concat_app, crlf_app. cbn [fmap list_fmap concat] in *. rewrite app_nil_r in *.
    by apply (after_trans d2 _ _ d3).
  - intros d3 Hd3. apply kernel_println_wp; [done|]. intros d4 Hd4. apply HQ.
    pose proof (after_trans _ _ _ _ _ Hd1 (after_trans _ _ _ _ _ Hd2 (after_trans _ _ _ _ _ Hd3 Hd4))) as Hall.
    rewrite <- !crlf_app in Hall. unfold list_text. cbn [concat] in Hall. rewrite ?app_nil_r, <- ?(assoc_L (++)) in Hall.
    exact Hall.
Qed.

(** [sys_write] by the running task: when every byte of the buffer can be read, exactly these bytes go
    out of the port, a carriage return before each line feed, and their number is the result; the kernel does not change. *)
Lemma echo_wp fuel c k d (Q : unit → kernel * D → Prop) :
  (tx_bound < fuel)%nat → (∀ d', after d (onlcr c) d' → Q tt (k, d')) → wp (echo fuel c) Q (k, d).
Proof.
  intros Hf HQ. unfold echo, onlcr in *. apply wp_bind. destruct (Z.eqb_spec c 10) as [->|Hne].
  - apply wp_on_uart, putc_wp; [done|]. intros d1 Hd1. apply wp_on_uart, putc_wp; [done|]. intros d2 Hd2.
    apply HQ. by apply (after_trans d [13] [10] d1).
  - apply wp_ret, wp_on_uart, putc_wp; [done|]. intros d1 Hd1. by apply HQ.
Qed.
Lemma translate_user_wp f n s t va (Q : option Z → kernel → Prop) :
  current (self s) = Some t → Q (translate (mem (hw s)) (pagetable t) va) (kern f n s) →
  wp (task_translate_user va) Q (kern f n s).
Proof.
  intros Ht HQ. apply wp_locked. apply wp_bind, wp_get_self. rewrite Ht. apply wp_on_hw. unfold wp.
  rewrite virt_to_phys_read. by destruct s.
Qed.
Lemma sys_write_wp f n s t fuel fd buf bs d (Q : Z → kernel * D → Prop) :
  (tx_bound < fuel)%nat → fd = 1 ∨ fd = 2 → current (self s) = Some t → user_bytes (mem (hw s)) t buf bs →
  (∀ d', after d (crlf bs) d' → Q (Z.of_nat (length bs)) (kern f n s, d')) →
  wp (sys_write fuel fd buf (Z.of_nat (length bs))) Q (kern f n s, d).
Proof.
  intros Hf Hfd Ht Hbs HQ. unfold sys_write.
  assert (negb (fd =? 1) && negb (fd =? 2) = false) as -> by (by destruct Hfd as [-> | ->]). apply wp_bind.
  apply (wp_try_foreach _ _ (λ dn kd, kd.1 = kern f n s ∧ after d (crlf (take (length dn) bs)) kd.2)).
  - split; [done|]. apply after_refl.
  - intros dn i rest [k d1] Hl [Hk Hd1]. cbn [fst snd] in Hk, Hd1. subst k.
    assert (i = Z.of_nat (length dn) ∧ (length dn < length bs)%nat) as [-> Hlt].
    { assert (seqZ 0 (Z.of_nat (length bs)) !! length dn = Some i) as Hi by (rewrite Hl; by apply list_lookup_middle).
      apply lookup_seqZ in Hi as [Hi ?]. lia. }
    destruct (lookup_lt_is_Some_2 bs (length dn) Hlt) as [b Hb]. pose proof (Hbs _ _ Hb) as Hu.
    unfold user_byte in Hu. apply fmap_Some in Hu as (pa & Hpa & Hb8).
    unfold sys_write_byte. apply wp_bind, wp_on_kernel, (translate_user_wp f n s t); [done|]. rewrite Hpa.
    apply wp_bind, wp_on_kernel, wp_on_machine, wp_gets. destruct s as [tm h]. cbn [self hw] in *.
    apply wp_bind, echo_wp; [done|]. intros d2 Hd2. apply wp_ret. cbn [fst snd]. split; [done|].
    rewrite length_app, Nat.add_1_r, (take_S_r _ _ _ Hb), crlf_app. change (crlf [b]) with (onlcr b ++ []).
    rewrite app_nil_r, Hb8. by apply (after_trans d _ _ d1).
  - intros [k d1] [Hk Hd1]. cbn [fst snd] in Hk, Hd1. subst k. apply wp_ret, HQ.
    rewrite length_seqZ, Nat2Z.id, take_ge in Hd1 by lia. done.
Qed.

(** [sys_read] never goes past the end of the buffer: the index stays below the length, so that the
    terminator has its place. *)
Lemma sys_read_loop_bound fuel tx buf len : ∀ i k d,
  0 ≤ i < len → len ≤ usize_max →
  match sys_read_loop fuel tx buf len i (k, d) with
  | Done (Some j, _) => 0 ≤ j < len
  | _ => True
  end.
Proof.
  induction fuel as [|fuel IH]; intros i k d Hi Hl; [done|]. cbn [sys_read_loop].
  unfold usize_max in *. assert (i +' 1 = i + 1) as Ei by (apply Z.mod_small; lia).
  rewrite Ei. destruct (Z.ltb_spec (i + 1) len) as [Hlt|]; [|done].
  unfold mbind, st_bind, on_uart, on_kernel. cbn [fst snd].
  destruct (global_getc d) as [[[c|] d1]| |]; [|by apply IH|done|done]. cbn [fst snd].
  set (c' := if c =? 13 then 10 else c). destruct (_ || _).
  { destruct (Z.ltb_spec 0 i); [|by apply IH]. destruct (puts _ _ _) as [[[] d2]| |]; [|done|done]. cbn [fst snd].
    assert (i -' 1 = i - 1) as -> by (apply Z.mod_small; lia). apply IH; lia. }
  unfold otry_bind, mbind, st_bind. cbn [fst snd].
  destruct (task_translate_user _ k) as [[[pa|] k1]| |]; [|done..]. cbn [fst snd].
  destruct (on_machine _ k1) as [[[] k2]| |]; [|done..]. cbn [fst snd].
  destruct (echo tx c' _) as [[[] [k3 d3]]| |]; [|done..].
  destruct (c' =? 10); [cbn; lia|]. apply IH; lia.
Qed.
End facts.
